(* ===== verification/_CoqProject ===== *)
-Q . S2P
Prelude.v
Prog.v
Queue.v
QueueSpec.v
QueueSys.v
QueueProps.v
Interrupt.v
Memory.v
MemorySpec.v
HeapClient.v
Kernel.v
Thread.v
Semaphore.v
Clock.v
Message.v
Lifecycle.v
NoHalt.v
Placement.v
Invariant.v
Sched.v
ThreadSpec.v
SemaphoreSpec.v
ClockSpec.v
MessageSpec.v
BootSpec.v
LifecycleSpec.v
KillSpec.v
System.v
Samples.v
KernelProps.v
SyncProps.v
ClockLive.v
LifecycleProps.v
CString.v
CStringSpec.v
Printf.v
PrintfSpec.v
Qsort.v
QsortSpec.v
LibProps.v
Sys.v
Mailbox.v
BufPool.v
MailboxSpec.v
MailboxProps.v
BufPoolProps.v
NetAddr.v
NetAddrSpec.v
Net.v
Route.v
RouteSpec.v
NetProps.v
Arp.v
ArpSpec.v
ArpProps.v
Loopback.v
LoopProps.v
Lexan.v
LexanProps.v
Tcp.v
TcpStream.v
TcpProps.v
TcpTimer.v
TcpTimerProps.v
Ipv4.v
TcpConn.v
TcpRecv.v
TcpDev.v
TcpStates.v
Bytes.v
Udp.v
ChksumProps.v
UdpProps.v
Tty.v
TtyProps.v
Raw.v
NetRecv.v
NetRecvProps.v
Ext2.v
Ext2Props.v
