(* ===== verification/Prelude.v ===== *)
(** * Embedded Xinu (ARM port): a verification development

    Embedded Xinu is a small operating system in C: a kernel (threads, scheduler,
    semaphores, clock, messages, memory), mailboxes and buffer pools on it, a C
    library, a network stack, device drivers and a shell.  This library models
    the kernel for the platform arm-qemu, the synchronisation services built on
    it, a large part of the C library, the network from the tables of routes and
    addresses up to TCP, the loopback device, terminals, the lexical analyser of the
    shell and the file system in memory, and proves what makes them correct.

    ** How code is modelled

    Integers are [Z] with the wrap-around of their width written out ([u32],
    [i32], ...).  Pure C functions are Rocq functions; an access outside an array
    is [None] or the program [Fault].  Routines that share globals are programs
    of the monad of Prog.v over a record of the globals; [ctxsw] is the
    constructor [Switch], at which a program gives the processor away and goes on
    when it is scheduled again, so that every interleaving at context switches is
    expressible; [Halt] is the processor halted.  [wp] is a rely-guarantee
    weakest precondition for such programs, and [zoom] runs a program of a
    component on a larger state.

    ** The parts

    - Queues (system/queue.c, insert.c, insertd.c, getitem.c, queinit.c):
      Queue.v on the table [quetab]; QueueSpec.v and QueueSys.v relate it to
      lists; QueueProps.v.
    - Interrupt masks (platforms/arm-qemu/vic.c, interrupt.c): Interrupt.v.
    - Heap (system/memget.c, memfree.c, stkget.c): Memory.v keeps the block
      headers in memory words; MemorySpec.v has the list of free blocks;
      HeapClient.v the view of its clients.
    - Kernel state (include/thread.h, semaphore.h, clock.h): Kernel.v.
      Scheduler and thread control (resched.c, ready.c, suspend.c, ...):
      Thread.v.  Semaphores (wait.c, signal.c, ...): Semaphore.v.  Clock and
      sleeping: Clock.v.  Messages (send.c, receive.c, ...): Message.v.
      Initialisation, creation, termination (initialize.c, create.c, ctxsw.S,
      kill.c): Lifecycle.v; [sysinit] as a whole is in Mailbox.v, since it initialises
      buffer pools and mailboxes too.
    - The kernel invariant is [KInv] of Invariant.v (with Placement.v: each thread
      is in the queue its state says); Sched.v, ThreadSpec.v, SemaphoreSpec.v,
      ClockSpec.v, MessageSpec.v, BootSpec.v, LifecycleSpec.v and KillSpec.v prove
      each call against it; System.v is the step relation of a system of threads
      that make any of the calls and of clock interrupts; NoHalt.v shows which
      calls never halt and what they leave alone.  KernelProps.v, SyncProps.v, ClockLive.v and LifecycleProps.v
      hold the properties, the last also runs of the code that show defects; Samples.v has
      concrete kernels.
    - C library (lib/libxc): CString.v (strings, memory, ctype, atoi, rand) on a
      byte memory, CStringSpec.v; Printf.v (_doprnt, sprintf), PrintfSpec.v;
      Qsort.v, QsortSpec.v; LibProps.v.
    - Mailboxes (mailbox/) and buffer pools (bfpalloc.c, bufget.c, ...): Sys.v is
      the kernel with their tables; Mailbox.v, BufPool.v; MailboxSpec.v, where the
      class [Counting] is what they need of semaphores and the kernel's are its
      instance; MailboxProps.v, BufPoolProps.v.
    - Network: NetAddr.v (addresses, checksum, dotted notation), NetAddrSpec.v;
      Net.v (interfaces, packets in memory, the globals of the network); Route.v
      (network/route), RouteSpec.v; Arp.v (network/arp and netSend), ArpSpec.v;
      NetProps.v, ArpProps.v.  Ipv4.v: sending and fragmentation,
      forwarding, ICMP messages; Bytes.v.  Raw.v: raw sockets (device/raw).
      NetRecv.v: the state of the whole stack, where each component runs on its part, with
      netInit, netUp, netDown, netRecv, ipv4Recv, icmpRecv and the daemons; NetRecvProps.v.
    - UDP (device/udp): Udp.v, UdpProps.v; ChksumProps.v has the checksums of UDP and TCP.
    - TCP (include/tcp.h, device/tcp): Tcp.v has the transmission control block, the
      sequence numbers and the buffers; TcpStream.v, TcpProps.v: the stream it
      delivers.  TcpTimer.v, TcpTimerProps.v: the list of timer events.
      TcpConn.v (timers and sending), TcpRecv.v (the handlers of segments) and
      TcpDev.v (the device and the timer thread) are the programs on the state of the network;
      TcpStates.v: the state diagram.
    - Loopback device (device/loopback): Loopback.v, LoopProps.v.  Lexical analyser
      (shell/lexan.c): Lexan.v, LexanProps.v.
    - Terminals (device/tty) with line editing: Tty.v, TtyProps.v.
    - The ext2 file system in memory (apps/ext2.c, ext2_read.c, ext2_write.c): Ext2.v has the disk as
      octets in memory, with bitmaps, inodes, files, directories, paths and the commands; Ext2Props.v.

    ** What the theorems show

    Safety: whatever calls the threads make within the conditions of [allowed]
    (System.v) and however they interleave, no call
    faults and the invariant holds in every reachable state (KernelProps).  [allowed]
    leaves out the calls that break the kernel: [kill] of a thread in the sleep queue
    (a defect of the code, LifecycleProps), a call that blocks made by the null thread,
    counts that overflow, and [kill] of a thread whose parent waits for the message.  Each
    call's effect on every branch: the scheduler picks the highest priority, wait
    and signal count and queue in order, a tick wakes exactly the sleepers whose
    time has come, messages are delivered once, threads are created and ended
    with their stacks (SyncProps, LifecycleProps).  The heap refines first fit,
    keeps clients apart and loses no byte (HeapClient).  Queues refine lists
    (QueueProps).  [sysinit] reaches the initialisation of the devices with the
    invariant; [mailboxSend] and [mailboxReceive] put at the end and take from the
    front of a bounded queue, now or when the semaphore lets them go on, buffer pools are stacks (MailboxProps, BufPoolProps).
    sprintf and atoi are inverse, qsort sorts and terminates, the string functions
    stay in bounds (LibProps).  Checksums verify and detect changes, routing finds
    the longest prefix (NetProps), the ARP table and packets keep to their bounds
    (ArpProps), the IPv4 header that is sent is accepted
    and takes a packet to the handler of its protocol (NetRecvProps).  TCP hands its reader exactly the octets of the stream, in order, whatever
    segments arrive and however they overlap (TcpProps), keeps its timers at their
    deadlines (TcpTimerProps) and changes state only along its diagram, with two deviations that are named (TcpStates).
    The sequence numbers of TCP are below 2^31 there, beyond which the code is wrong.
    udpRecv stores packets at the end of the ring of a device, at most 100, and udpRead takes them from its front; udpDemux finds the device that matches best
    (UdpProps); what a sender stores as the checksum of a segment verifies (ChksumProps).
    The loopback device is a FIFO (LoopProps), lexan splits a line into its tokens
    (LexanProps), and a terminal delivers the line that a reference editor makes of
    the keys (TtyProps).  The file system allocates the first free block, and reads back what
    was appended to a file without other effects on memory (Ext2Props).

    ** Fuel

    Loops that are not structural carry fuel that is shown to be enough:
    [heap_fuel] counts the blocks the heap can hold; queue walks take one step
    per entry of the table; string scans at most as many steps as memory has bytes
    ([scan_fuel]); the partition and the recursion of qsort are bounded by the
    number of elements; three divisions bring an unsigned number into range;
    two folds reduce a 32-bit checksum; eight shifts count the bits of an octet.
    [gather_fuel] is the size of the receive buffer of TCP.  The rounds of tcpRead and
    tcpWrite wait for the other side, and those of the timer for events that may be
    scheduled meanwhile: their number is an argument.
    Loops over tables are structural in the number of entries.  Each round of the loop of ttyRead
    takes a key from the device: one more than the keys are enough.  A round of the loop that writes a file
    takes at least one octet.  Walks along the entries of a directory have [scan_fuel] steps: a list that ends has
    no more entries than memory has octets, and one that does not end never returns in the code either.

    ** Bounds of the model

    Context switches happen at [resched]; a clock interrupt is a step of the
    system of its own, taken between the stretches that threads run from one switch to the next;
    interrupts inside such a stretch are not expressed, in particular not between
    restore(thrnew->intmask) and ctxsw in resched.c, which are one step here.  Saving and loading of
    registers is modelled ([ctx_save], [ctx_load]) apart from the switch itself.
    Other threads' writes to memory they do not own are outside the model.

    ** Not modelled

    Device drivers touch hardware; the initialisation of the devices in [sysinit], [write] and the packet capture are parameters
    of Arp.v, Ipv4.v and TCP.  The endless loops of the daemons (netRecv, arpDaemon, rtDaemon,
    icmpDaemon) run for a number of rounds that is an argument; of tcpTimer a round is modelled.
    telnet, http, the commands of the shell, doscan, the printing of captured packets, the network
    emulator, and of the applications the demonstration at the end of ext2() and what prints structures of the disk, are outside the core that is modelled.  mem/ is compiled out on the ARM platforms.
    compile/ and loader/ are host tools and build files. *)

From Stdlib Require Export ZArith Lia Sorted.
From stdpp Require Export base tactics numbers list list_numbers gmap.

#[global] Set Default Goal Selector "!".

Open Scope Z_scope.

(** ** Constants of include/stddef.h and of the platform configuration *)

Definition OK : Z := 1.
Definition NULL : Z := 0.
Definition SYSERR : Z := -1.
Definition EOF : Z := -2.
Definition TIMEOUT : Z := -3.
Definition NOMSG : Z := -4.

Definition NTHREAD : Z := 100.
Definition NSEM : Z := 100.
Definition NMAILBOX : Z := 15.

(** ** Machine integers

    A 32-bit quantity is a [Z]; [u32] and [i32] are the wrap-around of the
    unsigned and of the signed type. *)

Definition u32 (z : Z) : Z := z mod 2 ^ 32.
Definition i32 (z : Z) : Z := (z + 2 ^ 31) mod 2 ^ 32 - 2 ^ 31.

Definition is_u32 (z : Z) : Prop := 0 <= z < 2 ^ 32.
Definition is_i32 (z : Z) : Prop := - 2 ^ 31 <= z < 2 ^ 31.

Lemma u32_id z : is_u32 z -> u32 z = z.
Proof. unfold u32, is_u32. intros. apply Z.mod_small. lia. Qed.

Lemma i32_id z : is_i32 z -> i32 z = z.
Proof. unfold i32, is_i32. intros. rewrite Z.mod_small; lia. Qed.

Lemma u32_range z : is_u32 (u32 z).
Proof. unfold u32, is_u32. apply Z.mod_pos_bound. lia. Qed.

Lemma i32_range z : is_i32 (i32 z).
Proof.
  unfold i32, is_i32. pose proof (Z.mod_pos_bound (z + 2 ^ 31) (2 ^ 32)). lia.
Qed.

(** Positions less than [m] apart differ modulo [m]. *)
Lemma mod_apart m x y : 0 < m -> x < y < x + m -> x mod m <> y mod m.
Proof.
  intros Hm H Ex. pose proof (Z.div_mod x m ltac:(lia)) as H1. pose proof (Z.div_mod y m ltac:(lia)) as H2.
  rewrite Ex in H1. generalize dependent (x / m). intros a H1. generalize dependent (y / m).
  intros b H2. assert (m * (b - a) = y - x) by (rewrite Z.mul_sub_distr_l; lia).
  assert (0 < b - a) by nia. nia.
Qed.

(** ** Tactics *)

Create HintDb xinu.

Ltac cases :=
  repeat match goal with
  | |- context [if decide ?P then _ else _] => destruct (decide P)
  | |- context [decide ?P] => destruct (decide P)
  end.

(** Turn boolean tests of the code into propositions. *)
Ltac btests :=
  repeat match goal with
  | H : _ && _ = true |- _ => apply andb_true_iff in H; destruct H
  | H : _ || _ = false |- _ => apply orb_false_iff in H; destruct H
  | H : negb _ = true |- _ => apply negb_true_iff in H
  | H : negb _ = false |- _ => apply negb_false_iff in H
  | H : (_ =? _) = true |- _ => apply Z.eqb_eq in H
  | H : (_ =? _) = false |- _ => apply Z.eqb_neq in H
  | H : (_ <? _) = true |- _ => apply Z.ltb_lt in H
  | H : (_ <? _) = false |- _ => apply Z.ltb_ge in H
  | H : (_ <=? _) = true |- _ => apply Z.leb_le in H
  | H : (_ <=? _) = false |- _ => apply Z.leb_gt in H
  end.

(** ** Lists *)

Lemma filter_all {A} (P : A -> Prop) `{!forall x, Decision (P x)} (l : list A) : Forall P l -> filter P l = l.
Proof. induction 1 as [|x l Hx _ IH]; [done|]. by rewrite filter_cons_True, IH. Qed.

Lemma NoDup_range_length (l : list Z) (n : Z) :
  NoDup l -> Forall (fun x => 0 <= x < n) l -> (length l <= Z.to_nat n)%nat.
Proof.
  intros Hnd Hf.
  assert (Hs : l ⊆+ seqZ 0 n).
  { apply NoDup_submseteq; [done|]. intros x Hx.
    rewrite Forall_forall in Hf. apply Hf in Hx. apply elem_of_seqZ. lia. }
  apply submseteq_length in Hs. by rewrite length_seqZ in Hs.
Qed.

Lemma NoDup_remove_mid {A} (l1 : list A) (x : A) (l2 : list A) :
  NoDup (l1 ++ x :: l2) -> NoDup (l1 ++ l2).
Proof. rewrite !NoDup_app, NoDup_cons. set_solver. Qed.
