(* ===== verification/Prog.v ===== *)
(** * Kernel programs with context switches

    A kernel routine is a program that reads and writes the kernel state and
    may, in [ctxsw], lose the processor. *)

From S2P Require Import Prelude.

(** [Fault] is undefined behaviour (an access outside a table), [Halt] the
    processor halted by [halt()], [Switch p] a call of [ctxsw] after which the
    caller, when it is scheduled again, goes on with [p]. *)
Inductive prog (S A : Type) : Type :=
| Ret (a : A)
| Fault
| Halt
| Get (f : S -> prog S A)
| Put (s : S) (p : prog S A)
| Switch (p : prog S A).

Arguments Ret {S A} a.
Arguments Fault {S A}.
Arguments Halt {S A}.
Arguments Get {S A} f.
Arguments Put {S A} s p.
Arguments Switch {S A} p.

Fixpoint pbind {S A B} (p : prog S A) (g : A -> prog S B) : prog S B :=
  match p with
  | Ret a => g a
  | Fault => Fault
  | Halt => Halt
  | Get f => Get (fun s => pbind (f s) g)
  | Put s p => Put s (pbind p g)
  | Switch p => Switch (pbind p g)
  end.

#[export] Instance prog_ret S : MRet (prog S) := fun A a => Ret a.
#[export] Instance prog_bind S : MBind (prog S) := fun A B g p => pbind p g.

Section primitives.
Context {S : Type}.

Definition gets {A} (f : S -> A) : prog S A := Get (fun s => Ret (f s)).
Definition modify (f : S -> S) : prog S unit := Get (fun s => Put (f s) (Ret tt)).
(** Read that faults when the state has no value there. *)
Definition readopt {A} (f : S -> option A) : prog S A :=
  Get (fun s => match f s with Some a => Ret a | None => Fault end).
(** State transformer that faults. *)
Definition lift {A} (f : S -> option (S * A)) : prog S A :=
  Get (fun s => match f s with Some (s', a) => Put s' (Ret a) | None => Fault end).
Definition ctxsw : prog S unit := Switch (Ret tt).

End primitives.

(** ** Running a program up to its next context switch *)

Inductive outcome (S A : Type) : Type :=
| Returned (s : S) (a : A)
| Suspended (s : S) (p : prog S A)
| Halted (s : S)
| Faulted.

Arguments Returned {S A} s a.
Arguments Suspended {S A} s p.
Arguments Halted {S A} s.
Arguments Faulted {S A}.

Fixpoint run {S A} (p : prog S A) (s : S) : outcome S A :=
  match p with
  | Ret a => Returned s a
  | Fault => Faulted
  | Halt => Halted s
  | Get f => run (f s) s
  | Put s' p => run p s'
  | Switch p => Suspended s p
  end.

Definition obind {S A B} (o : outcome S A) (g : A -> prog S B) : outcome S B :=
  match o with
  | Returned s a => run (g a) s
  | Suspended s p => Suspended s (pbind p g)
  | Halted s => Halted s
  | Faulted => Faulted
  end.

Lemma run_bind {S A B} (p : prog S A) (g : A -> prog S B) (s : S) :
  run (p ≫= g) s = obind (run p s) g.
Proof. unfold mbind, prog_bind. revert s. induction p; intros s'; simpl; auto. Qed.

(** ** Rely-guarantee weakest preconditions

    [wp G R Q p s0 s]: the program has run without losing the processor since
    the state [s0] and is now in [s].  It never faults.  Whenever it gives the
    processor away, the state it leaves is related by [G] to the one of its
    last (re)start; provided the state it finds when it gets the processor back
    is related by [R] to the one it left, it goes on in the same way; and when
    it returns, result, last start and final state are related by [Q]. *)

Section wp.
Context {S : Type} (G : S -> S -> Prop) (R : S -> S -> Prop).

Fixpoint wp {A} (Q : A -> S -> S -> Prop) (p : prog S A) (s0 s : S) : Prop :=
  match p with
  | Ret a => Q a s0 s
  | Fault => False
  | Halt => True
  | Get f => wp Q (f s) s0 s
  | Put s' p => wp Q p s0 s'
  | Switch p => G s0 s /\ forall s', R s s' -> wp Q p s' s'
  end.

Lemma wp_bind {A B} (p : prog S A) (g : A -> prog S B) Q s0 s :
  wp (fun a => wp Q (g a)) p s0 s -> wp Q (p ≫= g) s0 s.
Proof.
  unfold mbind, prog_bind.
  revert s0 s. induction p as [a| | |f IH|s1 p IH|p IH]; intros s0 s; simpl; auto.
  intros [HG H]. split; [done|]. intros s' HR. apply IH. auto.
Qed.

Lemma wp_mono {A} (p : prog S A) (Q Q' : A -> S -> S -> Prop) s0 s :
  (forall a s0' s', Q a s0' s' -> Q' a s0' s') -> wp Q p s0 s -> wp Q' p s0 s.
Proof.
  intros HQ. revert s0 s.
  induction p as [a| | |f IH|s1 p IH|p IH]; intros s0 s; simpl; auto.
  intros [HG H]. split; auto.
Qed.

Lemma wp_gets {A B} (f : S -> A) (g : A -> prog S B) Q s0 s :
  wp Q (g (f s)) s0 s -> wp Q (gets f ≫= g) s0 s.
Proof. done. Qed.

Lemma wp_modify {B} (f : S -> S) (g : unit -> prog S B) Q s0 s :
  wp Q (g tt) s0 (f s) -> wp Q (modify f ≫= g) s0 s.
Proof. done. Qed.

Lemma wp_readopt {A B} (f : S -> option A) (g : A -> prog S B) Q s0 s a :
  f s = Some a -> wp Q (g a) s0 s -> wp Q (readopt f ≫= g) s0 s.
Proof. intros E H. unfold readopt, mbind, prog_bind. simpl. by rewrite E. Qed.

Lemma wp_lift {A B} (f : S -> option (S * A)) (g : A -> prog S B) Q s0 s s' a :
  f s = Some (s', a) -> wp Q (g a) s0 s' -> wp Q (lift f ≫= g) s0 s.
Proof. intros E H. unfold lift, mbind, prog_bind. simpl. by rewrite E. Qed.

Lemma wp_ret {A} (a : A) (Q : A -> S -> S -> Prop) s0 s : Q a s0 s -> wp Q (mret a) s0 s.
Proof. done. Qed.

(** The start of the current stretch may be moved. *)
Lemma wp_restart {A} (p : prog S A) Q s0 s1 s :
  (forall s', G s1 s' -> G s0 s') -> (forall a s', Q a s1 s' -> Q a s0 s') ->
  wp Q p s1 s -> wp Q p s0 s.
Proof.
  intros HG HQ. revert s. induction p as [a| | |f IH|s2 p IH|p IH]; intros s; simpl; auto.
  intros [H1 H2]. split; auto.
Qed.

(** What [wp] says of one run of the program. *)
Lemma wp_run {A} (p : prog S A) Q s0 s :
  wp Q p s0 s ->
  match run p s with
  | Returned s' a => Q a s0 s'
  | Suspended s' p' => G s0 s' /\ forall s'', R s' s'' -> wp Q p' s'' s''
  | Halted _ => True
  | Faulted => False
  end.
Proof.
  revert s. induction p as [a| | |f IH|s1 p IH|p IH]; intros s; simpl; try done.
  - apply IH.
  - apply IH.
Qed.

End wp.

(** ** Programs that never halt the processor *)

Fixpoint nohalt {S A} (p : prog S A) : Prop :=
  match p with
  | Ret _ | Fault => True
  | Halt => False
  | Get f => forall s, nohalt (f s)
  | Put _ p | Switch p => nohalt p
  end.

Section nohalt.
Context {S : Type}.

Lemma nohalt_bind {A B} (p : prog S A) (g : A -> prog S B) :
  nohalt p -> (forall a, nohalt (g a)) -> nohalt (p ≫= g).
Proof.
  unfold mbind, prog_bind. intros Hp Hg.
  induction p as [a| | |f IH|s1 p IH|p IH]; simpl in *; auto.
Qed.

Lemma nohalt_ret {A} (a : A) : nohalt (mret a : prog S A).
Proof. done. Qed.
Lemma nohalt_gets {A} (f : S -> A) : nohalt (gets f).
Proof. done. Qed.
Lemma nohalt_modify (f : S -> S) : nohalt (modify f).
Proof. done. Qed.
Lemma nohalt_readopt {A} (f : S -> option A) : nohalt (readopt f).
Proof. intros s. by destruct (f s). Qed.
Lemma nohalt_lift {A} (f : S -> option (S * A)) : nohalt (lift f).
Proof. intros s. by destruct (f s) as [[? ?]|]. Qed.
Lemma nohalt_ctxsw : nohalt (ctxsw (S := S)).
Proof. done. Qed.

Lemma nohalt_run {A} (p : prog S A) s : nohalt p ->
  forall s', run p s <> Halted s'.
Proof. revert s. induction p as [a| | |f IH|s1 p IH|p IH]; simpl; intros s H s'; auto; done. Qed.

Lemma nohalt_suspended {A} (p : prog S A) s s' p' : nohalt p -> run p s = Suspended s' p' -> nohalt p'.
Proof.
  revert s. induction p as [a| | |f IH|s1 p IH|p IH]; simpl; intros s H E; try done; [by eapply IH..|].
  by injection E as _ <-.
Qed.

End nohalt.

(** The processor is given away at most [n] times. *)
Fixpoint atmost {S A} (n : nat) (p : prog S A) : Prop :=
  match p with
  | Ret _ | Fault | Halt => True
  | Get f => forall s, atmost n (f s)
  | Put _ p => atmost n p
  | Switch p => match n with O => False | Datatypes.S n => atmost n p end
  end.

Section atmost.
Context {S : Type}.

Lemma atmost_le {A} (p : prog S A) n m : (n <= m)%nat -> atmost n p -> atmost m p.
Proof.
  revert n m. induction p as [a| | |f IH|s1 p IH|p IH]; simpl; intros n m Hn H; eauto.
  destruct n as [|n]; [done|]. destruct m as [|m]; [lia|]. apply (IH n); [lia|done].
Qed.

Lemma atmost_bind {A B} (p : prog S A) (g : A -> prog S B) n m :
  atmost n p -> (forall a, atmost m (g a)) -> atmost (n + m) (p ≫= g).
Proof.
  unfold mbind, prog_bind. intros Hp Hg. revert n Hp.
  induction p as [a| | |f IH|s1 p IH|p IH]; simpl in *; intros n Hp; auto.
  - apply (atmost_le _ m); [lia|done].
  - destruct n as [|n]; [done|]. by apply IH.
Qed.

(** The left or the right part does not give the processor away. *)
Lemma atmost_bind_l {A B} (p : prog S A) (g : A -> prog S B) n :
  atmost 0 p -> (forall a, atmost n (g a)) -> atmost n (p ≫= g).
Proof. apply (atmost_bind p g 0). Qed.
Lemma atmost_bind_r {A B} (p : prog S A) (g : A -> prog S B) n :
  atmost n p -> (forall a, atmost 0 (g a)) -> atmost n (p ≫= g).
Proof. intros Hp Hg. apply (atmost_le _ (n + 0)); [lia|]. by apply atmost_bind. Qed.

Lemma atmost_readopt {A} (f : S -> option A) n : atmost n (readopt f).
Proof. intros s. by destruct (f s). Qed.
Lemma atmost_lift {A} (f : S -> option (S * A)) n : atmost n (lift f).
Proof. intros s. by destruct (f s) as [[? ?]|]. Qed.

Lemma atmost_suspended {A} (p : prog S A) s s' p' n : atmost (Datatypes.S n) p -> run p s = Suspended s' p' -> atmost n p'.
Proof.
  revert s. induction p as [a| | |f IH|s1 p IH|p IH]; simpl; intros s H E; try done; [by eapply IH..|].
  by injection E as _ <-.
Qed.
Lemma atmost_stays {A} (p : prog S A) s s' p' : atmost 0 p -> run p s <> Suspended s' p'.
Proof. revert s. induction p as [a| | |f IH|s1 p IH|p IH]; simpl; intros s H E; try done; by eapply IH. Qed.

End atmost.

Create HintDb nohalt.
#[export] Hint Resolve nohalt_bind nohalt_ret nohalt_gets nohalt_modify nohalt_readopt
  nohalt_lift nohalt_ctxsw : nohalt.

(** ** What a program leaves alone

    [keeps f v p]: started where [f] is [v], the program keeps it so until it
    returns or gives the processor away. *)

Fixpoint keeps {S A X} (f : S -> X) (v : X) (p : prog S A) : Prop :=
  match p with
  | Ret _ | Fault | Halt | Switch _ => True
  | Get g => forall s, f s = v -> keeps f v (g s)
  | Put s p => f s = v /\ keeps f v p
  end.

Section keeps.
Context {S X : Type} (f : S -> X) (v : X).

Lemma keeps_run {A} (p : prog S A) s : keeps f v p -> f s = v ->
  match run p s with
  | Returned s' _ | Suspended s' _ => f s' = v
  | Halted _ | Faulted => True
  end.
Proof.
  revert s. induction p as [a| | |g IH|s1 p IH|p IH]; simpl; intros s H E; auto; naive_solver.
Qed.

Lemma keeps_bind {A B} (p : prog S A) (g : A -> prog S B) :
  keeps f v p -> (forall a, keeps f v (g a)) -> keeps f v (p ≫= g).
Proof.
  unfold mbind, prog_bind. intros Hp Hg.
  induction p as [a| | |h IH|s1 p IH|p IH]; simpl in *; naive_solver.
Qed.

Lemma keeps_ret {A} (a : A) : keeps f v (mret a : prog S A).
Proof. done. Qed.
Lemma keeps_gets {A} (g : S -> A) : keeps f v (gets g).
Proof. done. Qed.
Lemma keeps_readopt {A} (g : S -> option A) : keeps f v (readopt g).
Proof. intros s _. by destruct (g s). Qed.
Lemma keeps_modify (h : S -> S) : (forall s, f (h s) = f s) -> keeps f v (modify h).
Proof. intros H s <-. simpl. by rewrite H. Qed.
Lemma keeps_lift {A} (h : S -> option (S * A)) : (forall s s' a, h s = Some (s', a) -> f s' = f s) -> keeps f v (lift h).
Proof. intros H s <-. destruct (h s) as [[s' a]|] eqn:E; [|done]. simpl. by rewrite (H _ _ _ E). Qed.
Lemma keeps_ctxsw : keeps f v (ctxsw (S := S)).
Proof. done. Qed.

End keeps.

Create HintDb keeps.
#[export] Hint Resolve keeps_bind keeps_ret keeps_gets keeps_readopt keeps_ctxsw : keeps.

(** ** Programs on a part of the state

    [zoom] runs a program of a component on the state of a system that contains
    the component's state. *)

Class Part {S T : Type} (get : T -> S) (set : S -> T -> T) : Prop := {
  part_get_set : forall s t, get (set s t) = s;
  part_set_get : forall t, set (get t) t = t;
  part_set_set : forall s s' t, set s' (set s t) = set s' t;
}.

Section zoom.
Context {S T : Type} (get : T -> S) (set : S -> T -> T).

Fixpoint zoom {A} (p : prog S A) : prog T A :=
  match p with
  | Ret a => Ret a
  | Fault => Fault
  | Halt => Halt
  | Get f => Get (fun t => zoom (f (get t)))
  | Put s p => Get (fun t => Put (set s t) (zoom p))
  | Switch p => Switch (zoom p)
  end.

(** What the component's program does, seen from the whole state. *)
Definition on_part {A} (t : T) (o : outcome S A) : outcome T A :=
  match o with
  | Returned s a => Returned (set s t) a
  | Suspended s p => Suspended (set s t) (zoom p)
  | Halted s => Halted (set s t)
  | Faulted => Faulted
  end.

Context `{!Part get set}.

Lemma run_zoom {A} (p : prog S A) t : run (zoom p) t = on_part t (run p (get t)).
Proof.
  revert t. induction p as [a| | |f IH|s p IH|p IH]; intros t; cbn [zoom run on_part].
  - by rewrite part_set_get.
  - done.
  - by rewrite part_set_get.
  - apply IH.
  - rewrite IH, part_get_set. destruct (run p s); cbn [on_part]; by rewrite ?part_set_set.
  - by rewrite part_set_get.
Qed.

(** A call that returns is followed by the rest of the program. *)
Lemma run_zoom_bind {A B} (p : prog S A) (g : A -> prog T B) t s a :
  run p (get t) = Returned s a -> run (zoom p ≫= g) t = run (g a) (set s t).
Proof. intros E. rewrite run_bind, run_zoom, E. done. Qed.

Lemma nohalt_zoom {A} (p : prog S A) : nohalt p -> nohalt (zoom p).
Proof. induction p as [a| | |f IH|s p IH|p IH]; simpl; auto. Qed.

End zoom.

Arguments run_zoom {S T} get set {_ A} p t.
Arguments run_zoom_bind {S T} get set {_ A B} p g t s a.

Lemma run_gets_bind {S A B} (f : S -> A) (g : A -> prog S B) s : run (gets f ≫= g) s = run (g (f s)) s.
Proof. done. Qed.

Lemma run_modify_bind {S B} (f : S -> S) (g : unit -> prog S B) s :
  run (modify f ≫= g) s = run (g tt) (f s).
Proof. done. Qed.

Lemma run_readopt_bind {S A B} (f : S -> option A) (g : A -> prog S B) s a :
  f s = Some a -> run (readopt f ≫= g) s = run (g a) s.
Proof. intros E. rewrite run_bind. unfold readopt. simpl. by rewrite E. Qed.

Lemma run_lift_bind {S A B} (f : S -> option (S * A)) (g : A -> prog S B) s s' a :
  f s = Some (s', a) -> run (lift f ≫= g) s = run (g a) s'.
Proof. intros E. rewrite run_bind. unfold lift. simpl. by rewrite E. Qed.
