(* ===== verification/Queue.v ===== *)
(** * Thread queues (include/queue.h, system/queue.c, getitem.c, insert.c,
      insertd.c, queinit.c)

    All queues of the system share the table [quetab]: entries below [NTHREAD]
    belong to the threads, the others come in pairs, the head and the tail of a
    queue.  A queue is the doubly linked path from its head to its tail. *)

From S2P Require Import Prelude.

(** 1 entry per thread, 2 per list, 2 per semaphore *)
Definition NQENT : Z := NTHREAD + 4 + NSEM + NSEM.
Definition EMPTY : Z := -2.
Definition MAXKEY : Z := 0x7FFFFFFF.
(** [0x80000000] stored in an [int] *)
Definition MINKEY : Z := i32 0x80000000.

Record queent : Type := mkqueent { qkey : Z; qnext : Z; qprev : Z }.

Definition quehead (q : Z) : Z := q.
Definition quetail (q : Z) : Z := q + 1.

Definition isbadqid (x : Z) : bool :=
  (quehead x <? 0) || negb (quehead x =? quetail x - 1) || (NQENT <=? quetail x).

(** ** Accesses to the table; outside its bounds they fault *)

Definition set_next (tab : gmap Z queent) (i v : Z) : option (gmap Z queent) :=
  e ← tab !! i; Some (<[i := mkqueent (qkey e) v (qprev e)]> tab).
Definition set_prev (tab : gmap Z queent) (i v : Z) : option (gmap Z queent) :=
  e ← tab !! i; Some (<[i := mkqueent (qkey e) (qnext e) v]> tab).
Definition set_key (tab : gmap Z queent) (i v : Z) : option (gmap Z queent) :=
  e ← tab !! i; Some (<[i := mkqueent v (qnext e) (qprev e)]> tab).

Definition isempty (tab : gmap Z queent) (q : Z) : option bool :=
  e ← tab !! quehead q; Some (NTHREAD <=? qnext e).
Definition nonempty (tab : gmap Z queent) (q : Z) : option bool :=
  e ← tab !! quehead q; Some (qnext e <? NTHREAD).
Definition firstkey (tab : gmap Z queent) (q : Z) : option Z :=
  e ← tab !! quehead q; f ← tab !! qnext e; Some (qkey f).
Definition lastkey (tab : gmap Z queent) (q : Z) : option Z :=
  e ← tab !! quetail q; f ← tab !! qprev e; Some (qkey f).
Definition firstid (tab : gmap Z queent) (q : Z) : option Z :=
  e ← tab !! quehead q; Some (qnext e).

(** ** Operations

    The validity test for thread identifiers, [isbadtid], reads the thread
    table and is a parameter here; [Kernel.v] supplies it. *)

Section ops.
Variable isbadtid : Z -> bool.

Definition getitem (tab : gmap Z queent) (tid : Z) : option (gmap Z queent * Z) :=
  e ← tab !! tid;
  let next := qnext e in
  let prev := qprev e in
  tab ← set_next tab prev next;
  tab ← set_prev tab next prev;
  tab ← set_next tab tid EMPTY;
  tab ← set_prev tab tid EMPTY;
  Some (tab, tid).

Definition getfirst (tab : gmap Z queent) (q : Z) : option (gmap Z queent * Z) :=
  if isbadqid q then Some (tab, SYSERR)
  else
    empty ← isempty tab q;
    if (empty : bool) then Some (tab, EMPTY)
    else
      e ← tab !! quehead q;
      getitem tab (qnext e).

Definition getlast (tab : gmap Z queent) (q : Z) : option (gmap Z queent * Z) :=
  if isbadqid q then Some (tab, SYSERR)
  else
    empty ← isempty tab q;
    if (empty : bool) then Some (tab, EMPTY)
    else
      e ← tab !! quetail q;
      getitem tab (qprev e).

Definition enqueue (tab : gmap Z queent) (tid q : Z) : option (gmap Z queent * Z) :=
  if isbadqid q || isbadtid tid then Some (tab, SYSERR)
  else
    let tail := quetail q in
    e ← tab !! tail;
    let prev := qprev e in
    tab ← set_next tab tid tail;
    tab ← set_prev tab tid prev;
    tab ← set_next tab prev tid;
    tab ← set_prev tab tail tid;
    Some (tab, tid).

Definition dequeue (tab : gmap Z queent) (q : Z) : option (gmap Z queent * Z) :=
  if isbadqid q then Some (tab, SYSERR)
  else
    empty ← isempty tab q;
    if (empty : bool) then Some (tab, EMPTY)
    else
      '(tab, tid) ← getfirst tab q;
      if negb (isbadtid tid) then
        tab ← set_prev tab tid EMPTY;
        tab ← set_next tab tid EMPTY;
        Some (tab, tid)
      else Some (tab, tid).

(** The loop [while (quetab[next].key >= key) next = quetab[next].next]. *)
Fixpoint insert_scan (fuel : nat) (tab : gmap Z queent) (next key : Z) : option Z :=
  match fuel with
  | O => None
  | S fuel =>
      e ← tab !! next;
      if key <=? qkey e then insert_scan fuel tab (qnext e) key else Some next
  end.

Definition insert (tab : gmap Z queent) (tid q key : Z) : option (gmap Z queent * Z) :=
  if isbadqid q || isbadtid tid then Some (tab, SYSERR)
  else
    h ← tab !! quehead q;
    next ← insert_scan (S (Z.to_nat NQENT)) tab (qnext h) key;
    tab ← set_next tab tid next;
    e ← tab !! next;
    let prev := qprev e in
    tab ← set_prev tab tid prev;
    tab ← set_key tab tid key;
    tab ← set_next tab prev tid;
    tab ← set_prev tab next tid;
    Some (tab, OK).

(** The loop of [insertd]; returns [prev], [next] and the remaining [key]. *)
Fixpoint insertd_scan (fuel : nat) (tab : gmap Z queent) (q prev next key : Z)
  : option (Z * Z * Z) :=
  match fuel with
  | O => None
  | S fuel =>
      e ← tab !! next;
      if (qkey e <=? key) && negb (next =? quetail q)
      then insertd_scan fuel tab q next (qnext e) (i32 (key - qkey e))
      else Some (prev, next, key)
  end.

Definition insertd (tab : gmap Z queent) (tid q key : Z) : option (gmap Z queent * Z) :=
  if isbadqid q || isbadtid tid then Some (tab, SYSERR)
  else
    h ← tab !! quehead q;
    '(prev, next, key) ← insertd_scan (S (Z.to_nat NQENT)) tab q (quehead q) (qnext h) key;
    tab ← set_next tab tid next;
    tab ← set_prev tab tid prev;
    tab ← set_key tab tid key;
    tab ← set_next tab prev tid;
    tab ← set_prev tab next tid;
    if negb (next =? quetail q) then
      e ← tab !! next;
      tab ← set_key tab next (i32 (qkey e - key));
      Some (tab, OK)
    else Some (tab, OK).

(** [nextqid] is the function's static variable; the result is the new table,
    the new value of [nextqid] and the queue. *)
Definition queinit (tab : gmap Z queent) (nextqid : Z)
  : option (gmap Z queent * Z * Z) :=
  if NQENT <? nextqid then Some (tab, nextqid, SYSERR)
  else
    let q := nextqid in
    tab ← set_next tab (quehead q) (quetail q);
    tab ← set_prev tab (quehead q) EMPTY;
    tab ← set_key tab (quehead q) MAXKEY;
    tab ← set_next tab (quetail q) EMPTY;
    tab ← set_prev tab (quetail q) (quehead q);
    tab ← set_key tab (quetail q) MINKEY;
    Some (tab, nextqid + 2, q).

End ops.

(** ** Reading the table *)

Definition keyof (tab : gmap Z queent) (i : Z) : option Z := qkey <$> tab !! i.
Definition nextof (tab : gmap Z queent) (i : Z) : option Z := qnext <$> tab !! i.
Definition prevof (tab : gmap Z queent) (i : Z) : option Z := qprev <$> tab !! i.

(** Total versions of the three writes, used in proofs. *)
Definition upd_next (tab : gmap Z queent) (i v : Z) : gmap Z queent :=
  alter (fun e => mkqueent (qkey e) v (qprev e)) i tab.
Definition upd_prev (tab : gmap Z queent) (i v : Z) : gmap Z queent :=
  alter (fun e => mkqueent (qkey e) (qnext e) v) i tab.
Definition upd_key (tab : gmap Z queent) (i v : Z) : gmap Z queent :=
  alter (fun e => mkqueent v (qnext e) (qprev e)) i tab.

Definition intab (tab : gmap Z queent) (i : Z) : Prop := is_Some (tab !! i).

Section writes.
Implicit Types tab : gmap Z queent.

Lemma set_next_eq tab i v : intab tab i -> set_next tab i v = Some (upd_next tab i v).
Proof.
  intros [e He]. unfold set_next, upd_next. rewrite He. simpl. f_equal.
  apply map_eq. intros j. rewrite lookup_insert, lookup_alter. case_decide; [|done].
  subst. by rewrite He.
Qed.

Lemma set_prev_eq tab i v : intab tab i -> set_prev tab i v = Some (upd_prev tab i v).
Proof.
  intros [e He]. unfold set_prev, upd_prev. rewrite He. simpl. f_equal.
  apply map_eq. intros j. rewrite lookup_insert, lookup_alter. case_decide; [|done].
  subst. by rewrite He.
Qed.

Lemma set_key_eq tab i v : intab tab i -> set_key tab i v = Some (upd_key tab i v).
Proof.
  intros [e He]. unfold set_key, upd_key. rewrite He. simpl. f_equal.
  apply map_eq. intros j. rewrite lookup_insert, lookup_alter. case_decide; [|done].
  subst. by rewrite He.
Qed.

Ltac field := intros; unfold keyof, nextof, prevof, upd_next, upd_prev, upd_key, intab in *;
  rewrite lookup_alter; case_decide; subst; try done;
  match goal with
  | H : is_Some (?t !! ?i) |- _ => destruct H as [? Hx]; by rewrite Hx
  | |- context [?t !! ?i] => destruct (t !! i); done
  | _ => done
  end.

Lemma nextof_upd_next tab i v j : intab tab j ->
  nextof (upd_next tab i v) j = if decide (i = j) then Some v else nextof tab j.
Proof. field. Qed.
Lemma prevof_upd_next tab i v j : prevof (upd_next tab i v) j = prevof tab j.
Proof. field. Qed.
Lemma keyof_upd_next tab i v j : keyof (upd_next tab i v) j = keyof tab j.
Proof. field. Qed.
Lemma prevof_upd_prev tab i v j : intab tab j ->
  prevof (upd_prev tab i v) j = if decide (i = j) then Some v else prevof tab j.
Proof. field. Qed.
Lemma nextof_upd_prev tab i v j : nextof (upd_prev tab i v) j = nextof tab j.
Proof. field. Qed.
Lemma keyof_upd_prev tab i v j : keyof (upd_prev tab i v) j = keyof tab j.
Proof. field. Qed.
Lemma keyof_upd_key tab i v j : intab tab j ->
  keyof (upd_key tab i v) j = if decide (i = j) then Some v else keyof tab j.
Proof. field. Qed.
Lemma nextof_upd_key tab i v j : nextof (upd_key tab i v) j = nextof tab j.
Proof. field. Qed.
Lemma prevof_upd_key tab i v j : prevof (upd_key tab i v) j = prevof tab j.
Proof. field. Qed.

Lemma intab_upd_next tab i v j : intab (upd_next tab i v) j <-> intab tab j.
Proof. apply lookup_alter_is_Some. Qed.
Lemma intab_upd_prev tab i v j : intab (upd_prev tab i v) j <-> intab tab j.
Proof. apply lookup_alter_is_Some. Qed.
Lemma intab_upd_key tab i v j : intab (upd_key tab i v) j <-> intab tab j.
Proof. apply lookup_alter_is_Some. Qed.

Lemma lookup_upd_next_ne tab i v j : i <> j -> upd_next tab i v !! j = tab !! j.
Proof. apply lookup_alter_ne. Qed.
Lemma lookup_upd_prev_ne tab i v j : i <> j -> upd_prev tab i v !! j = tab !! j.
Proof. apply lookup_alter_ne. Qed.
Lemma lookup_upd_key_ne tab i v j : i <> j -> upd_key tab i v !! j = tab !! j.
Proof. apply lookup_alter_ne. Qed.

Lemma nextof_upd_next_ne tab i v j : i <> j -> nextof (upd_next tab i v) j = nextof tab j.
Proof. intros. unfold nextof. by rewrite lookup_upd_next_ne. Qed.
Lemma prevof_upd_prev_ne tab i v j : i <> j -> prevof (upd_prev tab i v) j = prevof tab j.
Proof. intros. unfold prevof. by rewrite lookup_upd_prev_ne. Qed.
Lemma keyof_upd_key_ne tab i v j : i <> j -> keyof (upd_key tab i v) j = keyof tab j.
Proof. intros. unfold keyof. by rewrite lookup_upd_key_ne. Qed.

Lemma nextof_intab tab i v : nextof tab i = Some v -> intab tab i.
Proof. unfold nextof, intab. destruct (tab !! i); naive_solver. Qed.
Lemma prevof_intab tab i v : prevof tab i = Some v -> intab tab i.
Proof. unfold prevof, intab. destruct (tab !! i); naive_solver. Qed.

End writes.

Create Rewrite HintDb queue.
#[export] Hint Rewrite intab_upd_next intab_upd_prev intab_upd_key
  prevof_upd_next keyof_upd_next nextof_upd_prev keyof_upd_prev
  nextof_upd_key prevof_upd_key : queue.
#[export] Hint Resolve nextof_intab prevof_intab : xinu.

(** ** Linked paths *)

Definition linked (tab : gmap Z queent) (a b : Z) : Prop :=
  nextof tab a = Some b /\ prevof tab b = Some a.

Fixpoint path (tab : gmap Z queent) (L : list Z) : Prop :=
  match L with
  | a :: L' => match L' with
               | b :: _ => linked tab a b /\ path tab L'
               | [] => True
               end
  | [] => True
  end.

Section paths.
Implicit Types tab : gmap Z queent.

Lemma path_cons2 tab a b L : path tab (a :: b :: L) <-> linked tab a b /\ path tab (b :: L).
Proof. done. Qed.

Lemma path_app tab L1 a L2 :
  path tab (L1 ++ a :: L2) <-> path tab (L1 ++ [a]) /\ path tab (a :: L2).
Proof.
  induction L1 as [|x L1 IH]; [simpl; tauto|].
  destruct L1 as [|y L1]; [simpl; tauto|].
  change ((x :: y :: L1) ++ a :: L2) with (x :: y :: (L1 ++ a :: L2)).
  change ((x :: y :: L1) ++ [a]) with (x :: y :: (L1 ++ [a])).
  rewrite !path_cons2. simpl in IH. rewrite IH. tauto.
Qed.

Lemma path_frame_l tab tab' L z :
  path tab (L ++ [z]) ->
  (forall a, a ∈ L -> nextof tab' a = nextof tab a) ->
  (forall b, b ∈ L ++ [z] -> prevof tab' b = prevof tab b) ->
  path tab' (L ++ [z]).
Proof.
  induction L as [|x L IH]; [done|]. intros Hp Hn Hv.
  destruct (L ++ [z]) as [|y M] eqn:E; [by destruct L|].
  simpl app in *. rewrite E in *.
  apply path_cons2 in Hp as [[H1 H2] Hp]. apply path_cons2. split.
  - split; [rewrite Hn by set_solver; done | rewrite Hv by set_solver; done].
  - apply IH; [done| |]; intros; [apply Hn | apply Hv]; set_solver.
Qed.

Lemma path_frame_r tab tab' L z :
  path tab (z :: L) ->
  (forall a, a ∈ z :: L -> nextof tab' a = nextof tab a) ->
  (forall b, b ∈ L -> prevof tab' b = prevof tab b) ->
  path tab' (z :: L).
Proof.
  revert z. induction L as [|x L IH]; intros z; [done|]. intros Hp Hn Hv.
  apply path_cons2 in Hp as [[H1 H2] Hp]. apply path_cons2. split.
  - split; [rewrite Hn by set_solver; done | rewrite Hv by set_solver; done].
  - apply IH; [done| |]; intros; [apply Hn | apply Hv]; set_solver.
Qed.

(** Taking a node out of a path. *)
Lemma path_remove tab tab' L1 p x n L2 :
  NoDup (L1 ++ p :: x :: n :: L2) ->
  path tab (L1 ++ p :: x :: n :: L2) ->
  linked tab' p n ->
  (forall a, a <> p -> a <> x -> nextof tab' a = nextof tab a) ->
  (forall b, b <> n -> b <> x -> prevof tab' b = prevof tab b) ->
  path tab' (L1 ++ p :: n :: L2).
Proof.
  intros Hnd Hp Hl Hn Hv.
  apply NoDup_app in Hnd as (_ & Hd & Hnd).
  apply NoDup_cons in Hnd as [Hp1 Hnd]. apply NoDup_cons in Hnd as [Hx Hnd].
  apply NoDup_cons in Hnd as [Hn2 _].
  rewrite path_app in Hp. destruct Hp as [Ha Hb].
  rewrite !path_cons2 in Hb. destruct Hb as (_ & _ & Hb).
  rewrite path_app. split.
  - eapply path_frame_l; [done| |]; intros b Hb'.
    + apply Hn; intros ->; apply Hd in Hb'; set_solver.
    + apply elem_of_app in Hb' as [Hb'|Hb'].
      * apply Hv; intros ->; apply Hd in Hb'; set_solver.
      * apply list_elem_of_singleton in Hb' as ->. apply Hv; set_solver.
  - rewrite path_cons2. split; [done|].
    eapply path_frame_r; [done| |]; intros b Hb'; [apply Hn | apply Hv];
      intros ->; set_solver.
Qed.

(** Putting a node into a path. *)
Lemma path_insert tab tab' L1 p x n L2 :
  NoDup (L1 ++ p :: n :: L2) ->
  x ∉ (L1 ++ p :: n :: L2) ->
  path tab (L1 ++ p :: n :: L2) ->
  linked tab' p x -> linked tab' x n ->
  (forall a, a <> p -> a <> x -> nextof tab' a = nextof tab a) ->
  (forall b, b <> n -> b <> x -> prevof tab' b = prevof tab b) ->
  path tab' (L1 ++ p :: x :: n :: L2).
Proof.
  intros Hnd Hx Hp Hl1 Hl2 Hn Hv.
  apply NoDup_app in Hnd as (_ & Hd & Hnd).
  apply NoDup_cons in Hnd as [Hp1 Hnd]. apply NoDup_cons in Hnd as [Hn2 _].
  rewrite path_app in Hp. destruct Hp as [Ha Hb].
  rewrite path_cons2 in Hb. destruct Hb as (_ & Hb).
  rewrite path_app. split.
  - eapply path_frame_l; [done| |]; intros b Hb'.
    + apply Hn; intros ->; [apply Hd in Hb'|]; set_solver.
    + apply elem_of_app in Hb' as [Hb'|Hb'].
      * apply Hv; intros ->; [apply Hd in Hb'|]; set_solver.
      * apply list_elem_of_singleton in Hb' as ->. apply Hv; set_solver.
  - rewrite !path_cons2. split_and!; [done..|].
    eapply path_frame_r; [done| |]; intros b Hb'; [apply Hn | apply Hv];
      intros ->; set_solver.
Qed.

Lemma path_linked tab L1 a b L2 : path tab (L1 ++ a :: b :: L2) -> linked tab a b.
Proof. rewrite path_app, path_cons2. tauto. Qed.

End paths.

Arguments path : simpl never.
