(* ===== verification/QueueSpec.v ===== *)
(** * Thread queues: what the operations do to the lists they represent *)

From S2P Require Import Prelude Queue.

Definition valid_tid (t : Z) : Prop := 0 <= t < NTHREAD.

(** Queue [q] of the table holds the threads [l], first to last. *)
Record qrep (tab : gmap Z queent) (q : Z) (l : list Z) : Prop := {
  qr_path : path tab (q :: l ++ [quetail q]);
  qr_head : keyof tab q = Some MAXKEY;
  qr_tail : keyof tab (quetail q) = Some MINKEY;
  qr_headprev : prevof tab q = Some EMPTY;
  qr_tailnext : nextof tab (quetail q) = Some EMPTY;
  qr_range : Forall valid_tid l;
  qr_nodup : NoDup l;
  qr_qid : NTHREAD <= q /\ quetail q < NQENT;
}.

(** Only the entries in [N] may differ, and the table keeps its extent. *)
Definition touches (N : list Z) (tab tab' : gmap Z queent) : Prop :=
  (forall i, i ∉ N -> tab' !! i = tab !! i) /\ (forall i, intab tab' i <-> intab tab i).

Definition samekeys (tab tab' : gmap Z queent) : Prop :=
  forall i, keyof tab' i = keyof tab i.

Lemma last_split {A} (x : A) l : exists L p, x :: l = L ++ [p].
Proof.
  revert x. induction l as [|y l IH]; intros x; [by exists [], x|].
  destruct (IH y) as (L & p & ->). by exists (x :: L), p.
Qed.

Section spec.
Implicit Types (tab : gmap Z queent) (l : list Z).

Lemma qrep_notin tab q l i : qrep tab q l -> NTHREAD <= i -> i ∉ l.
Proof.
  intros H Hi Hin. apply qr_range in H. rewrite Forall_forall in H.
  apply H in Hin. unfold valid_tid in Hin. lia.
Qed.

Lemma qrep_nodes_nodup tab q l : qrep tab q l -> NoDup (q :: l ++ [quetail q]).
Proof.
  intros H. pose proof (qr_qid _ _ _ H) as Hq. unfold quetail in *.
  apply NoDup_cons. split.
  - rewrite elem_of_app, list_elem_of_singleton. intros [Hin|?]; [|lia].
    eapply qrep_notin in Hin; [done|done|lia].
  - apply NoDup_app. split_and!; [by eapply qr_nodup| |apply NoDup_singleton].
    intros i Hi Hi'. apply list_elem_of_singleton in Hi' as ->.
    eapply qrep_notin in Hi; [done|done|lia].
Qed.

(** The path of a queue around the position between [l1] and [l2]. *)
Lemma qrep_split q l1 l2 :
  exists L p n M, q :: l1 ++ l2 ++ [quetail q] = L ++ p :: n :: M
    /\ q :: l1 = L ++ [p] /\ l2 ++ [quetail q] = n :: M.
Proof.
  destruct (last_split q l1) as (L & p & E).
  destruct (l2 ++ [quetail q]) as [|n M] eqn:E2; [by destruct l2|].
  exists L, p, n, M. split_and!; try done.
  rewrite app_comm_cons, E, <- app_assoc. done.
Qed.

Lemma linked_intab tab a b : linked tab a b -> intab tab a /\ intab tab b.
Proof. intros [??]. eauto with xinu. Qed.

(** [p] and [n] are the nodes of queue [q] on the two sides of the position
    between [l1] and [l2]. *)
Definition around (q : Z) (l1 l2 : list Z) (p n : Z) : Prop :=
  (exists L, q :: l1 = L ++ [p]) /\ (exists M, l2 ++ [quetail q] = n :: M).

Lemma around_ex q l1 l2 : exists p n, around q l1 l2 p n.
Proof.
  destruct (last_split q l1) as (L & p & E).
  destruct (l2 ++ [quetail q]) as [|n M] eqn:E2; [by destruct l2|].
  exists p, n. split; [by exists L | by exists M].
Qed.

Lemma around_linked tab q l1 l2 p n :
  qrep tab q (l1 ++ l2) -> around q l1 l2 p n -> linked tab p n.
Proof.
  intros H [[L E1] [M E2]]. apply qr_path in H.
  rewrite <- app_assoc, E2, app_comm_cons, E1, <- app_assoc in H.
  simpl in H. by eapply path_linked.
Qed.

Lemma around_fst q l1 l2 p n : around q l1 l2 p n -> p ∈ q :: l1.
Proof. intros [[L ->] _]. set_solver. Qed.

Lemma around_snd q l1 l2 p n : around q l1 l2 p n -> n ∈ l2 ++ [quetail q].
Proof. intros [_ [M ->]]. set_solver. Qed.

Lemma around_fresh q l1 l2 p n x :
  around q l1 l2 p n -> x ∉ l1 ++ l2 -> x <> q -> x <> quetail q -> x <> p /\ x <> n.
Proof.
  intros Ha Hx H1 H2. split; intros ->.
  - apply around_fst in Ha. apply elem_of_cons in Ha as [?|?]; [done|]. apply Hx. set_solver.
  - apply around_snd in Ha. apply elem_of_app in Ha as [?|Hs]; [apply Hx; set_solver|].
    by apply list_elem_of_singleton in Hs.
Qed.

Lemma around_skip q l1 x l2 p n :
  around q l1 l2 p n -> around q l1 (x :: l2) p x /\ around q (l1 ++ [x]) l2 x n.
Proof.
  intros [[L E1] [M E2]]. split; split.
  - by exists L.
  - by exists (l2 ++ [quetail q]).
  - exists (q :: l1). done.
  - by exists M.
Qed.

Lemma around_ne q l1 l2 p n :
  around q l1 l2 p n -> NoDup (q :: (l1 ++ l2) ++ [quetail q]) -> p <> n.
Proof.
  intros [[L E1] [M E2]] Hnd ->.
  rewrite <- app_assoc, E2, app_comm_cons, E1, <- app_assoc in Hnd.
  apply NoDup_app in Hnd as (_ & _ & Hnd). apply NoDup_cons in Hnd. set_solver.
Qed.

(** A table in which the node [x] has been linked in between [l1] and [l2]. *)
Lemma qrep_splice tab tab' q l1 x l2 p n :
  qrep tab q (l1 ++ l2) -> around q l1 l2 p n -> x ∉ l1 ++ l2 -> valid_tid x ->
  linked tab' p x -> linked tab' x n ->
  (forall a, a <> p -> a <> x -> nextof tab' a = nextof tab a) ->
  (forall b, b <> n -> b <> x -> prevof tab' b = prevof tab b) ->
  (forall a, NTHREAD <= a -> keyof tab' a = keyof tab a) ->
  qrep tab' q (l1 ++ x :: l2).
Proof.
  intros H Ha Hx Hv H1 H2 Hn Hp Hk.
  pose proof (qrep_nodes_nodup _ _ _ H) as Hnd. pose proof (around_fst _ _ _ _ _ Ha) as Hpin.
  pose proof (around_snd _ _ _ _ _ Ha) as Hnin.
  destruct H as [Hpa Hh Ht Hhp Htn Hr Hl Hq], Ha as [[L E1] [M E2]].
  unfold valid_tid in Hv.
  split; try done.
  - rewrite <- app_assoc. simpl. rewrite E2, app_comm_cons, E1, <- app_assoc. simpl.
    rewrite <- app_assoc, E2, app_comm_cons, E1, <- app_assoc in Hpa, Hnd. simpl in *.
    eapply path_insert; try done.
    change (x ∉ L ++ [p] ++ (n :: M)). rewrite app_assoc, <- E1, <- E2.
    assert (x <> q) by lia. assert (x <> quetail q) by (unfold quetail; lia). set_solver.
  - rewrite Hk by lia. done.
  - rewrite Hk by (unfold quetail; lia). done.
  - rewrite Hp; [done| |lia]. intros ->.
    assert (Hin : n ∈ l1 ++ l2 ++ [quetail n]) by set_solver.
    rewrite app_assoc in Hin. by apply NoDup_cons in Hnd as [? _].
  - rewrite Hn; [done| |unfold quetail; lia]. intros <-.
    unfold quetail in *.
    rewrite app_comm_cons in Hnd. apply NoDup_app in Hnd as (_ & Hd & _).
    apply (Hd (q + 1)); set_solver.
  - apply Forall_app in Hr as [??]. apply Forall_app. split; [done|]. by constructor.
  - rewrite NoDup_app in *. rewrite NoDup_cons. set_solver.
Qed.

(** A table from which the node [x] has been unlinked. *)
Lemma qrep_unsplice tab tab' q l1 x l2 p n :
  qrep tab q (l1 ++ x :: l2) -> around q l1 l2 p n ->
  linked tab' p n ->
  (forall a, a <> p -> a <> x -> nextof tab' a = nextof tab a) ->
  (forall b, b <> n -> b <> x -> prevof tab' b = prevof tab b) ->
  samekeys tab tab' ->
  qrep tab' q (l1 ++ l2).
Proof.
  intros H Ha H1 Hn Hp Hk.
  pose proof (qrep_nodes_nodup _ _ _ H) as Hnd. pose proof (around_fst _ _ _ _ _ Ha) as Hpin.
  pose proof (around_snd _ _ _ _ _ Ha) as Hnin.
  destruct H as [Hpa Hh Ht Hhp Htn Hr Hl Hq], Ha as [[L E1] [M E2]].
  assert (Hx : valid_tid x) by (rewrite Forall_app, Forall_cons in Hr; tauto).
  unfold valid_tid in Hx.
  split; try done.
  - rewrite <- app_assoc. rewrite E2, app_comm_cons, E1, <- app_assoc. simpl.
    rewrite <- app_assoc in Hpa, Hnd. simpl in Hpa, Hnd.
    rewrite E2, app_comm_cons, E1, <- app_assoc in Hpa, Hnd. simpl in *.
    eapply path_remove; done.
  - by rewrite Hk.
  - by rewrite Hk.
  - rewrite Hp; [done| |lia]. intros ->.
    apply NoDup_cons in Hnd as [Hnd _]. set_solver.
  - rewrite Hn; [done| |unfold quetail; lia]. intros <-.
    rewrite app_comm_cons in Hnd. apply NoDup_app in Hnd as (_ & Hd & _).
    apply (Hd (quetail q)); set_solver.
  - rewrite Forall_app, Forall_cons in *. tauto.
  - rewrite NoDup_app, NoDup_cons in *. set_solver.
Qed.

Lemma linked_lookup tab a b : linked tab a b ->
  exists ea eb, tab !! a = Some ea /\ tab !! b = Some eb /\ qnext ea = b /\ qprev eb = a.
Proof.
  unfold linked, nextof, prevof. intros [H1 H2].
  destruct (tab !! a) as [ea|], (tab !! b) as [eb|]; naive_solver.
Qed.

Lemma intab_lookup tab i e : tab !! i = Some e -> intab tab i.
Proof. unfold intab. eauto. Qed.

Hint Resolve intab_lookup : xinu.

(** Simplify the fields of a written table. *)
Ltac qsimp :=
  autorewrite with queue;
  repeat first
    [ rewrite nextof_upd_next_ne by congruence
    | rewrite prevof_upd_prev_ne by congruence
    | rewrite keyof_upd_key_ne by congruence
    | rewrite nextof_upd_next by (autorewrite with queue; eauto with xinu)
    | rewrite prevof_upd_prev by (autorewrite with queue; eauto with xinu)
    | rewrite keyof_upd_key by (autorewrite with queue; eauto with xinu)
    | progress autorewrite with queue ].

Ltac qset :=
  repeat (first
    [ rewrite set_next_eq by (autorewrite with queue; eauto with xinu)
    | rewrite set_prev_eq by (autorewrite with queue; eauto with xinu)
    | rewrite set_key_eq by (autorewrite with queue; eauto with xinu) ]; simpl).

Lemma touches_trans N tab1 tab2 tab3 :
  touches N tab1 tab2 -> touches N tab2 tab3 -> touches N tab1 tab3.
Proof.
  intros [H1 D1] [H2 D2]. split; intros i.
  - intros Hi. by rewrite H2, H1.
  - by rewrite D2, D1.
Qed.

Lemma touches_refl N tab : touches N tab tab.
Proof. by split. Qed.
Lemma touches_next N tab tab' i v : touches N tab tab' -> i ∈ N -> touches N tab (upd_next tab' i v).
Proof.
  intros [H D] Hi. split; intros j.
  - intros Hj. rewrite lookup_upd_next_ne by set_solver. auto.
  - by rewrite intab_upd_next, D.
Qed.
Lemma touches_prev N tab tab' i v : touches N tab tab' -> i ∈ N -> touches N tab (upd_prev tab' i v).
Proof.
  intros [H D] Hi. split; intros j.
  - intros Hj. rewrite lookup_upd_prev_ne by set_solver. auto.
  - by rewrite intab_upd_prev, D.
Qed.
Lemma touches_key N tab tab' i v : touches N tab tab' -> i ∈ N -> touches N tab (upd_key tab' i v).
Proof.
  intros [H D] Hi. split; intros j.
  - intros Hj. rewrite lookup_upd_key_ne by set_solver. auto.
  - by rewrite intab_upd_key, D.
Qed.
Hint Resolve touches_refl touches_next touches_prev touches_key : xinu.

(** All the entries an operation on queue [q] holding [l] may write. *)
Definition nodes (q : Z) (l : list Z) : list Z := q :: quetail q :: l.

Lemma around_nodes q l1 l2 p n : around q l1 l2 p n ->
  p ∈ nodes q (l1 ++ l2) /\ n ∈ nodes q (l1 ++ l2).
Proof.
  intros H. pose proof (around_fst _ _ _ _ _ H). pose proof (around_snd _ _ _ _ _ H).
  unfold nodes. set_solver.
Qed.

Ltac qtouch :=
  repeat first [eapply touches_next; [|eassumption] | eapply touches_prev; [|eassumption]
               | eapply touches_key; [|eassumption]]; apply touches_refl.

Lemma nodes_add q l1 x l2 i : i ∈ nodes q (l1 ++ l2) -> i ∈ nodes q (l1 ++ x :: l2).
Proof. unfold nodes. set_solver. Qed.
Lemma nodes_here q l1 x l2 : x ∈ nodes q (l1 ++ x :: l2).
Proof. unfold nodes. set_solver. Qed.

Lemma getitem_spec tab q l1 x l2 :
  qrep tab q (l1 ++ x :: l2) ->
  exists tab', getitem tab x = Some (tab', x) /\ qrep tab' q (l1 ++ l2)
    /\ samekeys tab tab' /\ touches (nodes q (l1 ++ x :: l2)) tab tab'
    /\ nextof tab' x = Some EMPTY /\ prevof tab' x = Some EMPTY.
Proof.
  intros H. pose proof (qrep_nodes_nodup _ _ _ H) as Hnd.
  destruct (around_ex q l1 l2) as (p & n & Ha).
  destruct (around_skip _ _ x _ _ _ Ha) as [Ha1 Ha2].
  pose proof (around_linked _ _ _ _ _ _ H Ha1) as Hpx.
  assert (H' : qrep tab q ((l1 ++ [x]) ++ l2)) by (by rewrite <- app_assoc).
  pose proof (around_linked _ _ _ _ _ _ H' Ha2) as Hxn.
  assert (Hpx' : p <> x) by (eapply around_ne; done).
  assert (Hxn' : x <> n) by (eapply around_ne; [done|by rewrite <- (app_assoc l1)]).
  assert (Hpn' : p <> n).
  { eapply around_ne; [done|]. rewrite <- app_assoc in Hnd |- *.
    rewrite app_comm_cons. eapply NoDup_remove_mid, Hnd. }
  destruct (linked_lookup _ _ _ Hpx) as (ep & ex & Ep & Ex & Nx & Px).
  destruct (linked_lookup _ _ _ Hxn) as (ex' & en & Ex' & En & Nn & Pn).
  simplify_eq. unfold getitem. rewrite Ex. simpl. qset.
  eexists. split; [reflexivity|]. split_and!.
  - eapply qrep_unsplice; [done|done| | | |].
    + split; qsimp; cases; congruence.
    + intros a Hap Hax. by qsimp.
    + intros a Hap Hax. by qsimp.
    + intros a. by qsimp.
  - intros a. by qsimp.
  - destruct (around_nodes _ _ _ _ _ Ha) as [Hp1 Hn1].
    apply (nodes_add _ _ (qnext ep)) in Hp1, Hn1. pose proof (nodes_here q l1 (qnext ep) l2). qtouch.
  - qsimp. by cases.
  - qsimp. by cases.
Qed.

Lemma isbadqid_false tab q l : qrep tab q l -> isbadqid q = false.
Proof.
  intros H. apply qr_qid in H. unfold isbadqid, quehead, quetail, NTHREAD in *.
  rewrite !orb_false_iff, negb_false_iff, Z.eqb_eq, Z.ltb_ge, Z.leb_gt. lia.
Qed.

Lemma qrep_head tab q l : qrep tab q l ->
  exists e, tab !! q = Some e /\ qnext e = default (quetail q) (head l).
Proof.
  intros H. apply qr_path in H.
  assert (linked tab q (default (quetail q) (head l))) as Hl.
  { destruct l; simpl in H; by apply path_cons2 in H as [? _]. }
  apply linked_lookup in Hl. naive_solver.
Qed.

Lemma nonempty_spec tab q l : qrep tab q l ->
  nonempty tab q = Some (match l with [] => false | _ => true end).
Proof.
  intros H. destruct (qrep_head _ _ _ H) as (e & E & Hn).
  pose proof (qr_qid _ _ _ H) as Hq. pose proof (qr_range _ _ _ H) as Hr.
  unfold nonempty, quehead. rewrite E. simpl. f_equal. rewrite Hn.
  destruct l as [|x l]; simpl.
  - apply Z.ltb_ge. unfold quetail. lia.
  - inversion_clear Hr. apply Z.ltb_lt. unfold valid_tid in *. lia.
Qed.

Lemma isempty_spec tab q l : qrep tab q l ->
  isempty tab q = Some (match l with [] => true | _ => false end).
Proof.
  intros H. pose proof (nonempty_spec _ _ _ H) as Hn. unfold nonempty, isempty in *.
  destruct (tab !! quehead q) as [e|]; [|done]. simpl in *. f_equal. injection Hn as Hn.
  destruct l; btests; [apply Z.leb_le | apply Z.leb_gt]; lia.
Qed.

(** The key of a thread in the table. *)
Definition kk tab (t : Z) : Z := default 0 (keyof tab t).

Lemma firstkey_spec tab q x l : qrep tab q (x :: l) -> firstkey tab q = Some (kk tab x).
Proof.
  intros H. destruct (qrep_head _ _ _ H) as (e & E & Hn). simpl in Hn.
  apply qr_path in H. simpl in H. apply path_cons2 in H as [H _].
  apply linked_lookup in H as (? & ex & ? & Ex & ? & ?).
  unfold firstkey, quehead, kk, keyof. rewrite E. simpl. rewrite Hn, Ex. done.
Qed.

Lemma samekeys_kk tab tab' t : samekeys tab tab' -> kk tab' t = kk tab t.
Proof. intros H. unfold kk. by rewrite H. Qed.

Lemma getfirst_spec tab q l : qrep tab q l ->
  match l with
  | [] => getfirst tab q = Some (tab, EMPTY)
  | x :: l' => exists tab', getfirst tab q = Some (tab', x) /\ qrep tab' q l'
      /\ samekeys tab tab' /\ touches (nodes q l) tab tab'
      /\ nextof tab' x = Some EMPTY /\ prevof tab' x = Some EMPTY
  end.
Proof.
  intros H. unfold getfirst. rewrite (isbadqid_false _ _ _ H), (isempty_spec _ _ _ H).
  simpl. destruct l as [|x l]; [done|].
  destruct (qrep_head _ _ _ H) as (e & E & Hn). unfold quehead. rewrite E. simpl.
  rewrite Hn. simpl. by apply (getitem_spec tab q [] x l).
Qed.

Lemma getlast_spec tab q l : qrep tab q l ->
  match l with
  | [] => getlast tab q = Some (tab, EMPTY)
  | _ => exists tab' l' x, l = l' ++ [x] /\ getlast tab q = Some (tab', x) /\ qrep tab' q l'
      /\ samekeys tab tab' /\ touches (nodes q l) tab tab'
  end.
Proof.
  intros H. unfold getlast. rewrite (isbadqid_false _ _ _ H), (isempty_spec _ _ _ H).
  simpl. destruct l as [|y l]; [done|].
  destruct (last_split y l) as (L & x & E). rewrite E in *.
  destruct (around_ex q (L ++ [x]) []) as (p & n & Ha).
  rewrite <- (app_nil_r (L ++ [x])) in H.
  pose proof (around_linked _ _ _ _ _ _ H Ha) as Hl.
  destruct Ha as [[L' E1] [M E2]]. simpl in E2.
  rewrite app_comm_cons in E1. apply app_inj_tail in E1 as [_ <-]. injection E2 as <- _.
  apply linked_lookup in Hl as (? & et & ? & Et & ? & Hp).
  rewrite Et. simpl. rewrite Hp. rewrite app_nil_r in H.
  destruct (getitem_spec tab q L x [] H) as (tab' & E3 & Hr & Hk & Ht & _).
  rewrite app_nil_r in Hr. exists tab', L, x. done.
Qed.

Section with_badtid.
Variable isbadtid : Z -> bool.

Lemma dequeue_spec tab q l : qrep tab q l ->
  match l with
  | [] => dequeue isbadtid tab q = Some (tab, EMPTY)
  | x :: l' => exists tab', dequeue isbadtid tab q = Some (tab', x) /\ qrep tab' q l'
      /\ samekeys tab tab' /\ touches (nodes q l) tab tab'
  end.
Proof.
  intros H. unfold dequeue. rewrite (isbadqid_false _ _ _ H), (isempty_spec _ _ _ H). simpl.
  pose proof (getfirst_spec _ _ _ H) as Hg. destruct l as [|x l]; [done|].
  destruct Hg as (tab' & E & Hr & Hk & Ht & Hn & Hp). rewrite E. simpl.
  destruct (negb (isbadtid x)); [|by exists tab'].
  qset. eexists. split; [reflexivity|].
  assert (Hsame : upd_next (upd_prev tab' x EMPTY) x EMPTY = tab').
  { apply map_eq. intros j. unfold upd_next, upd_prev.
    destruct (decide (x = j)) as [<-|]; [|by rewrite !lookup_alter_ne by done].
    rewrite !lookup_alter_eq. unfold nextof, prevof in *.
    destruct (tab' !! x) as [[k n p]|]; [|done]. simpl in *. by simplify_eq. }
  rewrite Hsame. done.
Qed.

Lemma enqueue_spec tab q l x :
  qrep tab q l -> x ∉ l -> valid_tid x -> intab tab x -> isbadtid x = false ->
  exists tab', enqueue isbadtid tab x q = Some (tab', x) /\ qrep tab' q (l ++ [x])
    /\ samekeys tab tab' /\ touches (nodes q (x :: l)) tab tab'.
Proof.
  intros H Hx Hv Hi Hb. unfold enqueue. rewrite (isbadqid_false _ _ _ H), Hb. simpl.
  destruct (around_ex q l []) as (p & n & Ha).
  rewrite <- (app_nil_r l) in H.
  pose proof (around_linked _ _ _ _ _ _ H Ha) as Hl.
  pose proof (around_nodes _ _ _ _ _ Ha) as [Hpn Hnn]. rewrite app_nil_r in Hpn, Hnn.
  assert (n = quetail q) as -> by (destruct Ha as [_ [M E]]; naive_solver).
  pose proof (qr_qid _ _ _ H) as Hq.
  destruct (around_fresh _ _ _ _ _ x Ha) as [Hxp Hxn];
    [by rewrite app_nil_r|unfold valid_tid in *; lia|unfold valid_tid, quetail in *; lia|].
  assert (Hpt : p <> quetail q) by exact (around_ne _ _ _ _ _ Ha (qrep_nodes_nodup _ _ _ H)).
  destruct (linked_lookup _ _ _ Hl) as (ep & et & Ep & Et & Hep & Het).
  rewrite Et. simpl. rewrite Het. qset. eexists. split; [reflexivity|]. split_and!.
  - eapply (qrep_splice _ _ q l x [] p (quetail q)); try done.
    + by rewrite app_nil_r.
    + split; qsimp; cases; congruence.
    + split; qsimp; cases; congruence.
    + intros a Ha1 Ha2. by qsimp.
    + intros a Ha1 Ha2. by qsimp.
    + intros a _. by qsimp.
  - intros a. by qsimp.
  - apply (nodes_add _ [] x) in Hpn, Hnn. pose proof (nodes_here q [] x l). qtouch.
Qed.

(** The writes by which [insert] and [insertd] link [x] in between [p] and [n]. *)
Definition splice tab (x p n key : Z) : gmap Z queent :=
  upd_prev (upd_next (upd_key (upd_prev (upd_next tab x n) x p) x key) p x) n x.

Lemma splice_spec tab q l1 l2 x p n key :
  qrep tab q (l1 ++ l2) -> around q l1 l2 p n -> x ∉ l1 ++ l2 -> valid_tid x -> intab tab x ->
  qrep (splice tab x p n key) q (l1 ++ x :: l2)
  /\ (forall i, keyof (splice tab x p n key) i = if decide (i = x) then Some key else keyof tab i)
  /\ touches (nodes q (x :: l1 ++ l2)) tab (splice tab x p n key)
  /\ x <> p /\ x <> n /\ p <> n.
Proof.
  intros H Ha Hx Hv Hi.
  pose proof (around_linked _ _ _ _ _ _ H Ha) as Hl.
  pose proof (around_nodes _ _ _ _ _ Ha) as [Hpn Hnn].
  apply (nodes_add _ [] x) in Hpn, Hnn. pose proof (nodes_here q [] x (l1 ++ l2)) as Hxx.
  pose proof (qr_qid _ _ _ H) as Hq. pose proof Hv as Hv'. unfold valid_tid in Hv'.
  destruct (around_fresh _ _ _ _ _ x Ha Hx) as [Hxp Hxn]; [lia|unfold quetail; lia|].
  assert (Hpt : p <> n) by exact (around_ne _ _ _ _ _ Ha (qrep_nodes_nodup _ _ _ H)).
  destruct (linked_intab _ _ _ Hl) as [Hip Hin].
  unfold splice. split_and!; try done.
  - eapply (qrep_splice _ _ q l1 x l2 p n); try done.
    + split; qsimp; cases; congruence.
    + split; qsimp; cases; congruence.
    + intros a Ha1 Ha2. by qsimp.
    + intros a Ha1 Ha2. by qsimp.
    + intros a Ha1. assert (x <> a) by lia. by qsimp.
  - intros a. case_decide; [subst; qsimp; by cases | by qsimp].
  - qtouch.
Qed.

(** *** Insertion by priority *)

(** Insertion in descending key order, after the entries with an equal key. *)
Fixpoint insert_desc (kf : Z -> Z) (key x : Z) (l : list Z) : list Z :=
  match l with
  | [] => [x]
  | y :: l' => if key <=? kf y then y :: insert_desc kf key x l' else x :: l
  end.

Lemma qrep_at tab q l1 x l2 : qrep tab q (l1 ++ x :: l2) ->
  exists e, tab !! x = Some e /\ qnext e = default (quetail q) (head l2) /\ qkey e = kk tab x.
Proof.
  intros H. destruct (around_ex q (l1 ++ [x]) l2) as (p & n & Ha).
  assert (H' : qrep tab q ((l1 ++ [x]) ++ l2)) by (by rewrite <- app_assoc).
  pose proof (around_linked _ _ _ _ _ _ H' Ha) as Hl.
  destruct Ha as [[L E1] [M E2]]. rewrite app_comm_cons in E1.
  apply app_inj_tail in E1 as [_ <-].
  apply linked_lookup in Hl as (ex & en & Ex & En & Hn & _).
  exists ex. split_and!; [done| |].
  - destruct l2; simpl in E2; naive_solver.
  - unfold kk, keyof. by rewrite Ex.
Qed.

Lemma qrep_tail_entry tab q l : qrep tab q l ->
  exists e, tab !! quetail q = Some e /\ qkey e = MINKEY.
Proof.
  intros H. apply qr_tail in H. unfold keyof in H.
  destruct (tab !! quetail q); naive_solver.
Qed.

Lemma insert_scan_spec tab q key x l1 l2 fuel :
  qrep tab q (l1 ++ l2) -> MINKEY < key -> (length l2 < fuel)%nat ->
  exists la lb, l2 = la ++ lb /\ insert_desc (kk tab) key x l2 = la ++ x :: lb
    /\ insert_scan fuel tab (default (quetail q) (head l2)) key
       = Some (default (quetail q) (head lb)).
Proof.
  revert l1 fuel. induction l2 as [|y l2 IH]; intros l1 fuel H Hk Hf;
    (destruct fuel as [|fuel]; [simpl in Hf; lia|]); simpl.
  - exists [], []. split_and!; [done..|].
    destruct (qrep_tail_entry _ _ _ H) as (e & -> & Hkey). simpl.
    rewrite Hkey. destruct (Z.leb_spec key MINKEY); [lia|done].
  - destruct (qrep_at _ _ _ _ _ H) as (e & E & Hn & Hkey). rewrite E. simpl. rewrite Hkey.
    destruct (key <=? kk tab y).
    + destruct (IH (l1 ++ [y]) fuel) as (la & lb & -> & E2 & E3);
        [by rewrite <- app_assoc|done|simpl in Hf; lia|].
      exists (y :: la), lb. rewrite E2. split_and!; [done..|]. rewrite Hn. done.
    + by exists [], (y :: l2).
Qed.

Lemma qrep_fuel tab q l : qrep tab q l -> (length l < S (Z.to_nat NQENT))%nat.
Proof.
  intros H. pose proof (NoDup_range_length l NTHREAD (qr_nodup _ _ _ H) (qr_range _ _ _ H)).
  unfold NQENT, NTHREAD, NSEM in *. lia.
Qed.

Lemma insert_spec tab q l x key :
  qrep tab q l -> x ∉ l -> valid_tid x -> intab tab x -> isbadtid x = false -> MINKEY < key ->
  exists tab', insert isbadtid tab x q key = Some (tab', OK)
    /\ qrep tab' q (insert_desc (kk tab) key x l)
    /\ (forall i, keyof tab' i = if decide (i = x) then Some key else keyof tab i)
    /\ touches (nodes q (x :: l)) tab tab'.
Proof.
  intros H Hx Hv Hi Hb Hk. unfold insert. rewrite (isbadqid_false _ _ _ H), Hb. simpl orb.
  destruct (insert_scan_spec tab q key x [] l (S (Z.to_nat NQENT)) H Hk
              (qrep_fuel _ _ _ H)) as (la & lb & -> & E & Escan).
  destruct (qrep_head _ _ _ H) as (eh & Eh & Hh). unfold quehead. rewrite Eh.
  cbn [mbind option_bind]. rewrite Hh, Escan. cbn [mbind option_bind]. rewrite E.
  destruct (around_ex q la lb) as (p & n & Ha).
  assert (Hn : default (quetail q) (head lb) = n).
  { destruct Ha as [_ [M E2]]. destruct lb; simpl in E2 |- *; congruence. }
  rewrite Hn. clear Escan.
  destruct (splice_spec tab q la lb x p n key H Ha Hx Hv Hi) as (H1 & H2 & H3 & Hxp & Hxn & Hpn).
  destruct (linked_lookup _ _ _ (around_linked _ _ _ _ _ _ H Ha)) as (ep & et & Ep & Et & Hep & Het).
  qset. rewrite lookup_upd_next_ne, Et by done. simpl. rewrite Het. qset.
  exists (splice tab x p n key). done.
Qed.

(** *** Insertion in a delta queue

    In a delta queue the key of an entry counts the ticks after the entry in
    front of it.  [delta tab l] are the threads of [l] with their keys. *)

Definition delta tab l : list (Z * Z) := (fun t => (t, kk tab t)) <$> l.

Fixpoint insert_delta (key x : Z) (l : list (Z * Z)) : list (Z * Z) :=
  match l with
  | [] => [(x, key)]
  | (y, d) :: l' =>
      if d <=? key then (y, d) :: insert_delta (key - d) x l'
      else (x, key) :: (y, d - key) :: l'
  end.

Definition delta_ok tab l : Prop := Forall (fun t => 0 <= kk tab t < 2 ^ 31) l.

(** The remainder of a delta queue behind an entry inserted with key [key]. *)
Definition delta_rest tab (key : Z) l : list (Z * Z) :=
  match l with
  | [] => []
  | y :: l' => (y, kk tab y - key) :: delta tab l'
  end.

Lemma around_cons q l1 y l2 p n : around q l1 (y :: l2) p n ->
  n = y /\ around q (l1 ++ [y]) l2 y (default (quetail q) (head l2)).
Proof.
  intros [[L E1] [M E2]]. simpl in E2. split; [congruence|]. split.
  - by exists (q :: l1).
  - destruct l2; simpl; eauto.
Qed.

Lemma insertd_scan_spec tab q x l1 l2 fuel key p n :
  qrep tab q (l1 ++ l2) -> delta_ok tab l2 -> 0 <= key < 2 ^ 31 -> (length l2 < fuel)%nat ->
  around q l1 l2 p n ->
  exists la lb p' n' key', l2 = la ++ lb
    /\ insertd_scan fuel tab q p n key = Some (p', n', key')
    /\ around q (l1 ++ la) lb p' n' /\ 0 <= key' < 2 ^ 31
    /\ insert_delta key x (delta tab l2) = delta tab la ++ (x, key') :: delta_rest tab key' lb
    /\ match lb with [] => n' = quetail q | y :: _ => n' = y /\ key' < kk tab y end.
Proof.
  revert l1 fuel key p n. induction l2 as [|y l2 IH]; intros l1 fuel key p n H Hd Hk Hf Ha;
    (destruct fuel as [|fuel]; [simpl in Hf; lia|]); simpl.
  - assert (n = quetail q) as -> by (destruct Ha as [_ [M E]]; simpl in E; congruence).
    destruct (qrep_tail_entry _ _ _ H) as (e & -> & _). simpl.
    rewrite Z.eqb_refl, andb_false_r. exists [], [], p, (quetail q), key.
    rewrite (app_nil_r l1). done.
  - destruct (qrep_at _ _ _ _ _ H) as (e & E & Hn & Hkey).
    destruct (around_cons _ _ _ _ _ _ Ha) as [-> Ha2].
    inversion_clear Hd as [|?? Hy Hd']. rewrite E. simpl. rewrite Hkey, Hn.
    assert (y <> quetail q).
    { intros ->. apply (qrep_notin _ _ _ (quetail q) H); [|set_solver].
      apply qr_qid in H. unfold quetail. lia. }
    destruct (Z.eqb_spec y (quetail q)); [done|]. rewrite andb_true_r.
    destruct (Z.leb_spec (kk tab y) key).
    + rewrite i32_id by (unfold is_i32; lia).
      destruct (IH (l1 ++ [y]) fuel (key - kk tab y) y (default (quetail q) (head l2)))
        as (la & lb & p' & n' & key' & -> & E1 & E2 & E3 & E4 & E5);
        [by rewrite <- app_assoc|done|lia|simpl in Hf; lia|done|].
      exists (y :: la), lb, p', n', key'. rewrite <- app_assoc in E2.
      split_and!; try done; try lia.
      by rewrite E4.
    + exists [], (y :: l2), p, y, key. rewrite (app_nil_r l1). split_and!; try done; try lia.
Qed.

Lemma qrep_upd_key tab q l i v : i < NTHREAD -> qrep tab q l -> qrep (upd_key tab i v) q l.
Proof.
  intros Hi [Hp Hh Ht Hhp Htn Hr Hl Hq].
  assert (Hk : forall a, NTHREAD <= a -> keyof (upd_key tab i v) a = keyof tab a)
    by (intros; apply keyof_upd_key_ne; lia).
  split; try done.
  - eapply path_frame_r; [done|intros; by qsimp..].
  - rewrite Hk; [done|lia].
  - rewrite Hk; [done|unfold quetail; lia].
  - by qsimp.
  - by qsimp.
Qed.

Lemma delta_eq tab tab' l :
  (forall t, t ∈ l -> keyof tab' t = keyof tab t) -> delta tab' l = delta tab l.
Proof.
  intros H. apply list_fmap_ext. intros i t Ht. f_equal. unfold kk.
  rewrite H; [done|]. by eapply list_elem_of_lookup_2.
Qed.

Lemma insertd_spec tab q l x key :
  qrep tab q l -> x ∉ l -> valid_tid x -> intab tab x -> isbadtid x = false ->
  delta_ok tab l -> 0 <= key < 2 ^ 31 ->
  exists tab' l', insertd isbadtid tab x q key = Some (tab', OK)
    /\ qrep tab' q l'
    /\ delta tab' l' = insert_delta key x (delta tab l)
    /\ (forall i, i ∉ x :: l -> keyof tab' i = keyof tab i)
    /\ touches (nodes q (x :: l)) tab tab'.
Proof.
  intros H Hx Hv Hi Hb Hd Hk. unfold insertd. rewrite (isbadqid_false _ _ _ H), Hb. simpl orb.
  destruct (around_ex q [] l) as (p0 & n0 & Ha0).
  destruct (insertd_scan_spec tab q x [] l (S (Z.to_nat NQENT)) key p0 n0 H Hd Hk
    (qrep_fuel _ _ _ H) Ha0) as (la & lb & p & n & key' & -> & Escan & Ha & Hk' & E & Hn).
  destruct (qrep_head _ _ _ H) as (eh & Eh & Hh). unfold quehead. rewrite Eh.
  cbn [mbind option_bind].
  assert (p0 = q /\ qnext eh = n0) as [-> ->].
  { destruct Ha0 as [[L E1] [M E2]]. destruct L as [|? [|??]]; simpl in E1; try discriminate. injection E1 as ->.
    split; [done|]. rewrite Hh. destruct (la ++ lb); simpl in E2 |- *; congruence. }
  rewrite Escan. cbn [mbind option_bind]. clear Escan Ha0 Hh Eh.
  simpl app in Ha.
  destruct (splice_spec tab q la lb x p n key' H Ha Hx Hv Hi) as (H1 & Hk1 & Ht1 & Hxp & Hxn & Hpn).
  destruct (linked_intab _ _ _ (around_linked _ _ _ _ _ _ H Ha)) as [Hip Hin].
  qset. fold (splice tab x p n key'). set (tab1 := splice tab x p n key') in *.
  clearbody tab1. rewrite E.
  assert (Hla : delta tab1 la = delta tab la).
  { apply delta_eq. intros t Ht. rewrite Hk1. case_decide; [subst; set_solver|done]. }
  assert (Hxk : kk tab1 x = key') by (unfold kk; rewrite Hk1; by cases).
  pose proof (qr_qid _ _ _ H) as Hq.
  destruct lb as [|y lb].
  - subst n. rewrite Z.eqb_refl. simpl. exists tab1, (la ++ [x]). split_and!; try done.
    + unfold delta. rewrite fmap_app. fold (delta tab1 la). rewrite Hla. simpl. by rewrite Hxk.
    + intros i Hi'. rewrite Hk1. case_decide; [set_solver|done].
  - destruct Hn as [-> Hky].
    assert (Hyq : y < NTHREAD).
    { apply qr_range in H. rewrite Forall_app, Forall_cons in H. unfold valid_tid in H. lia. }
    destruct (Z.eqb_spec y (quetail q)); [unfold quetail in *; lia|]. simpl.
    assert (Hy1 : intab tab1 y) by (apply Ht1; eauto with xinu).
    destruct Hy1 as [ey Ey]. rewrite Ey. simpl.
    assert (Eky : qkey ey = kk tab y).
    { specialize (Hk1 y). rewrite decide_False in Hk1 by congruence.
      unfold keyof in Hk1. rewrite Ey in Hk1. unfold kk, keyof. by rewrite <- Hk1. }
    rewrite Eky. unfold delta_ok in Hd. rewrite Forall_app, Forall_cons in Hd.
    rewrite i32_id by (unfold is_i32; lia). qset.
    exists (upd_key tab1 y (kk tab y - key')), (la ++ x :: y :: lb).
    split_and!; [done|by apply qrep_upd_key| | |].
    + assert (Hk2 : forall a, a <> y ->
        keyof (upd_key tab1 y (kk tab y - key')) a = keyof tab1 a) by (intros; by qsimp).
      assert (Hky2 : kk (upd_key tab1 y (kk tab y - key')) y = kk tab y - key').
      { unfold kk at 1. rewrite keyof_upd_key by eauto with xinu. by cases. }
      pose proof (qr_nodup _ _ _ H) as Hnd. rewrite NoDup_app, NoDup_cons in Hnd.
      unfold delta. rewrite fmap_app. fold (delta tab la). simpl. rewrite Hky2.
      fold (delta (upd_key tab1 y (kk tab y - key')) la).
      fold (delta (upd_key tab1 y (kk tab y - key')) lb). f_equal; [|f_equal; [|f_equal]].
      * rewrite <- Hla. apply delta_eq. intros t Ht. apply Hk2. intros ->. set_solver.
      * f_equal. unfold kk. rewrite Hk2, Hk1 by congruence. by cases.
      * apply delta_eq. intros t Ht. rewrite Hk2, Hk1 by (intros ->; set_solver).
        case_decide; [subst; set_solver|done].
    + intros i Hi'. rewrite keyof_upd_key_ne by set_solver. rewrite Hk1.
      case_decide; [set_solver|done].
    + apply touches_key; [done|]. unfold nodes. clear. set_solver.
Qed.

End with_badtid.

(** *** Order *)

Definition descending tab l : Prop := StronglySorted (fun a b => kk tab b <= kk tab a) l.

Lemma insert_desc_elem kf key x l t : t ∈ insert_desc kf key x l <-> t = x \/ t ∈ l.
Proof.
  induction l as [|y l IH]; simpl; [set_solver|].
  destruct (key <=? kf y); set_solver.
Qed.

Lemma insert_desc_perm kf key x l : insert_desc kf key x l ≡ₚ x :: l.
Proof.
  induction l as [|y l IH]; simpl; [done|].
  destruct (key <=? kf y); [|done]. rewrite IH. apply Permutation_swap.
Qed.

Lemma insert_desc_sorted kf key x l :
  kf x = key -> StronglySorted (fun a b => kf b <= kf a) l ->
  StronglySorted (fun a b => kf b <= kf a) (insert_desc kf key x l).
Proof.
  intros Hx. induction 1 as [|y l Hs IH Hf]; simpl; [by repeat constructor|].
  destruct (Z.leb_spec key (kf y)).
  - constructor; [done|]. rewrite insert_desc_perm. constructor; [lia|done].
  - constructor; [by constructor|]. constructor; [lia|].
    eapply Forall_impl; [done|]. simpl. lia.
Qed.

Lemma insert_desc_ext kf kf' key x l :
  (forall t, t ∈ l -> kf' t = kf t) -> insert_desc kf' key x l = insert_desc kf key x l.
Proof.
  induction l as [|y l IH]; intros H; simpl; [done|].
  rewrite H, IH by set_solver. done.
Qed.

Lemma descending_ext tab tab' l :
  (forall t, t ∈ l -> kk tab' t = kk tab t) -> descending tab l -> descending tab' l.
Proof.
  intros H Hs. induction Hs as [|y l Hs IH Hf]; constructor.
  - apply IH. set_solver.
  - rewrite Forall_forall in *. intros t Ht. rewrite !H by set_solver. auto.
Qed.

Lemma insert_desc_descending tab tab' key x l :
  x ∉ l -> descending tab l ->
  (forall i, keyof tab' i = if decide (i = x) then Some key else keyof tab i) ->
  descending tab' (insert_desc (kk tab) key x l).
Proof.
  intros Hx Hd Hk.
  assert (Hold : forall t, t ∈ l -> kk tab' t = kk tab t).
  { intros t Ht. unfold kk. rewrite Hk. case_decide; [congruence|done]. }
  rewrite <- (insert_desc_ext (kk tab) (kk tab')) by done.
  apply insert_desc_sorted; [unfold kk; rewrite Hk; by cases|].
  by eapply descending_ext.
Qed.

(** *** Wake-up times

    [wake now l]: the entries of a delta queue with the absolute tick at which
    each of them reaches zero. *)

Fixpoint wake (now : Z) (l : list (Z * Z)) : list (Z * Z) :=
  match l with
  | [] => []
  | (t, d) :: l' => (t, now + d) :: wake (now + d) l'
  end.

(** Insertion in ascending time order, after the entries with an equal time. *)
Fixpoint insert_asc (x time : Z) (l : list (Z * Z)) : list (Z * Z) :=
  match l with
  | [] => [(x, time)]
  | (y, s) :: l' => if s <=? time then (y, s) :: insert_asc x time l' else (x, time) :: l
  end.

Lemma wake_insert_delta now key x (l : list (Z * Z)) :
  wake now (insert_delta key x l) = insert_asc x (now + key) (wake now l).
Proof.
  revert now key. induction l as [|[y d] l IH]; intros now key; simpl; [done|].
  destruct (Z.leb_spec d key), (Z.leb_spec (now + d) (now + key)); try lia; simpl.
  - rewrite IH. by replace (now + d + (key - d)) with (now + key) by lia.
  - by replace (now + key + (d - key)) with (now + d) by lia.
Qed.

Lemma insert_delta_nonneg key x (l : list (Z * Z)) :
  0 <= key -> Forall (fun p => 0 <= p.2) l -> Forall (fun p => 0 <= p.2) (insert_delta key x l).
Proof.
  revert key. induction l as [|[y d] l IH]; intros key Hk Hf; simpl; [by repeat constructor|].
  inversion_clear Hf. simpl in *. destruct (Z.leb_spec d key).
  - constructor; [done|]. apply IH; [lia|done].
  - repeat constructor; simpl; [lia|lia|done].
Qed.

Lemma insert_delta_elem key x (l : list (Z * Z)) t :
  t ∈ (insert_delta key x l).*1 <-> t = x \/ t ∈ l.*1.
Proof.
  revert key. induction l as [|[y d] l IH]; intros key; simpl; [set_solver|].
  destruct (d <=? key); simpl; [|set_solver]. rewrite elem_of_cons, IH. set_solver.
Qed.

Lemma delta_fst tab l : (delta tab l).*1 = l.
Proof. unfold delta. rewrite <- list_fmap_compose. apply list_fmap_id. Qed.

(** *** Initialisation *)

Lemma queinit_spec tab nextqid :
  (forall i, 0 <= i < NQENT -> intab tab i) ->
  NTHREAD <= nextqid -> nextqid + 1 < NQENT ->
  exists tab', queinit tab nextqid = Some (tab', nextqid + 2, nextqid)
    /\ qrep tab' nextqid [] /\ touches (nodes nextqid []) tab tab'.
Proof.
  intros Hf H1 H2. unfold queinit, quehead.
  destruct (Z.ltb_spec NQENT nextqid); [lia|].
  assert (Hq : intab tab nextqid) by (apply Hf; unfold NTHREAD in *; lia).
  assert (Ht : intab tab (quetail nextqid)) by (apply Hf; unfold NTHREAD, quetail in *; lia).
  assert (Hne : nextqid <> quetail nextqid) by (unfold quetail; lia).
  qset. eexists. split; [reflexivity|]. split.
  - split; try (qsimp; cases; congruence).
    + apply path_cons2. split; [|done]. split; qsimp; cases; congruence.
    + constructor.
    + constructor.
    + unfold quetail. lia.
  - unfold nodes.
    repeat first [apply touches_next; [|set_solver] | apply touches_prev; [|set_solver]
                 | apply touches_key; [|set_solver]]; apply touches_refl.
Qed.

End spec.
