(* ===== verification/QueueSys.v ===== *)
(** * The queue table as a family of disjoint lists

    [qs_rep tab qs]: the whole table [quetab] represents the finite map [qs]
    from queue identifiers to lists of threads.  It states the three invariants
    of include/queue.h: a fixed number of queues, queues of threads only, and
    every thread in at most one queue.  Each operation is lifted to [qs]. *)

From S2P Require Import Prelude Queue QueueSpec.

Record qs_rep (tab : gmap Z queent) (qs : gmap Z (list Z)) : Prop := {
  qs_full : forall i, intab tab i <-> 0 <= i < NQENT;
  qs_each : forall q l, qs !! q = Some l -> qrep tab q l;
  qs_apart : forall q1 q2, is_Some (qs !! q1) -> is_Some (qs !! q2) -> quetail q1 <> q2;
  qs_disj : forall q1 q2 l1 l2 t,
    qs !! q1 = Some l1 -> qs !! q2 = Some l2 -> t ∈ l1 -> t ∈ l2 -> q1 = q2;
}.

(** Thread [t] is in no queue. *)
Definition unqueued (qs : gmap Z (list Z)) (t : Z) : Prop :=
  forall q l, qs !! q = Some l -> t ∉ l.

Section sys.
Implicit Types (tab : gmap Z queent) (qs : gmap Z (list Z)).

Lemma qrep_frame tab tab' q l :
  (forall i, i ∈ nodes q l -> tab' !! i = tab !! i) -> qrep tab q l -> qrep tab' q l.
Proof.
  intros Heq [Hp Hh Ht Hhp Htn Hr Hl Hq]. unfold nodes in Heq.
  assert (Hn : forall i, i ∈ q :: l ++ [quetail q] -> tab' !! i = tab !! i)
    by (intros; apply Heq; set_solver).
  split; try done.
  - eapply path_frame_r; [done| |]; intros i Hi; unfold nextof, prevof; rewrite Hn; done || set_solver.
  - unfold keyof. rewrite Heq; [done|set_solver].
  - unfold keyof. rewrite Heq; [done|set_solver].
  - unfold prevof. rewrite Heq; [done|set_solver].
  - unfold nextof. rewrite Heq; [done|set_solver].
Qed.

Lemma qs_valid tab qs q l t : qs_rep tab qs -> qs !! q = Some l -> t ∈ l -> valid_tid t.
Proof.
  intros H Hq Ht. apply (qs_each _ _ H) in Hq. apply qr_range in Hq.
  rewrite Forall_forall in Hq. auto.
Qed.

Lemma qs_intab tab qs t : qs_rep tab qs -> valid_tid t -> intab tab t.
Proof.
  intros H Ht. apply (qs_full _ _ H). unfold valid_tid, NQENT, NTHREAD, NSEM in *. lia.
Qed.

(** Replacing the contents of one queue; [x] is the thread that moves. *)
Lemma qs_update tab tab' qs q l l' x :
  qs_rep tab qs -> qs !! q = Some l -> qrep tab' q l' ->
  touches (nodes q (x :: l)) tab tab' -> valid_tid x ->
  (forall t, t ∈ l' -> t = x \/ t ∈ l) ->
  (forall q2 l2, qs !! q2 = Some l2 -> x ∈ l2 -> q2 = q) ->
  qs_rep tab' (<[q := l']> qs).
Proof.
  intros H Hq Hr [Ht Hd] Hv Hl' Hx.
  assert (Hx1 : forall q2 l2, q2 <> q -> qs !! q2 = Some l2 -> x ∉ l2) by eauto.
  assert (Hl1 : forall q2 l2 t, q2 <> q -> qs !! q2 = Some l2 -> t ∈ l2 -> t ∉ l).
  { intros q2 l2 t Hne E2 T2 T. apply Hne. by eapply (qs_disj _ _ H). }
  split.
  - intros i. rewrite Hd. apply (qs_full _ _ H).
  - intros q2 l2. rewrite lookup_insert. case_decide as Hdec; [by intros [= <-]; subst|].
    intros E2. apply (qrep_frame tab); [|by apply (qs_each _ _ H)].
    intros i Hi. apply Ht.
    pose proof (qr_qid _ _ _ (qs_each _ _ H _ _ E2)) as Hq2.
    pose proof (qr_qid _ _ _ Hr) as Hq1.
    pose proof (qs_apart _ _ H q q2 ltac:(eauto) ltac:(eauto)) as A1.
    pose proof (qs_apart _ _ H q2 q ltac:(eauto) ltac:(eauto)) as A2.
    pose proof (qr_range _ _ _ (qs_each _ _ H _ _ E2)) as R2. rewrite Forall_forall in R2.
    pose proof (qr_range _ _ _ (qs_each _ _ H _ _ Hq)) as R1. rewrite Forall_forall in R1.
    unfold nodes, valid_tid, quetail in *. rewrite !elem_of_cons in *.
    intros [->|[->|[->|Hin]]].
    + destruct Hi as [?|[?|Hi]]; [congruence|lia|]. apply R2 in Hi. lia.
    + destruct Hi as [?|[?|Hi]]; [lia|lia|]. apply R2 in Hi. lia.
    + destruct Hi as [?|[?|Hi]]; [lia|lia|]. eapply Hx1; [|done..]. congruence.
    + destruct Hi as [->|[->|Hi]]; [apply R1 in Hin; lia|apply R1 in Hin; lia|].
      eapply Hl1; [|done..]. congruence.
  - assert (Hdom : forall q', is_Some (<[q := l']> qs !! q') -> is_Some (qs !! q')).
    { intros q'. rewrite lookup_insert. case_decide; subst; eauto. }
    intros q1 q2 H1 H2. apply (qs_apart _ _ H); auto.
  - intros q1 q2 l1 l2 t. rewrite !lookup_insert. do 2 case_decide; subst; try congruence.
    + intros [= <-] E2 T1 T2. apply Hl' in T1 as [->|T1]; [by symmetry; eapply Hx|].
      by eapply (qs_disj _ _ H).
    + intros E1 [= <-] T1 T2. apply Hl' in T2 as [->|T2]; [by eapply Hx|].
      by eapply (qs_disj _ _ H).
    + apply (qs_disj _ _ H).
Qed.

Lemma touches_weaken N N' tab tab' :
  (forall i, i ∈ N -> i ∈ N') -> touches N tab tab' -> touches N' tab tab'.
Proof. intros HN [H1 H2]. split; [|done]. intros i Hi. apply H1. auto. Qed.

Lemma unqueued_insert qs q l t : unqueued qs t -> t ∉ l -> unqueued (<[q := l]> qs) t.
Proof.
  intros H Hl q2 l2. rewrite lookup_insert. case_decide; [by intros [= <-]|]. apply H.
Qed.

Lemma qs_nonempty tab qs q l : qs_rep tab qs -> qs !! q = Some l ->
  nonempty tab q = Some (match l with [] => false | _ => true end).
Proof. intros H Hq. eapply nonempty_spec, qs_each; done. Qed.

Lemma qs_getitem tab qs q l1 x l2 : qs_rep tab qs -> qs !! q = Some (l1 ++ x :: l2) ->
  exists tab', getitem tab x = Some (tab', x)
    /\ qs_rep tab' (<[q := l1 ++ l2]> qs) /\ samekeys tab tab'.
Proof.
  intros H Hq.
  destruct (getitem_spec _ _ _ _ _ (qs_each _ _ H _ _ Hq)) as (tab' & E & Hr & Hk & Ht & _).
  exists tab'. split_and!; try done.
  eapply (qs_update _ _ _ _ _ _ x); try done.
  - eapply touches_weaken; [|done]. unfold nodes. clear. set_solver.
  - eapply qs_valid; [done..|]. set_solver.
  - clear. set_solver.
  - intros q2 l2' E2 T2. eapply (qs_disj _ _ H); [done..|]. set_solver.
Qed.

Section ops.
Variable isbadtid : Z -> bool.

Lemma qs_dequeue_empty tab qs q : qs_rep tab qs -> qs !! q = Some [] ->
  dequeue isbadtid tab q = Some (tab, EMPTY).
Proof. intros H Hq. apply (dequeue_spec isbadtid _ _ _ (qs_each _ _ H _ _ Hq)). Qed.

Lemma qs_dequeue tab qs q x l : qs_rep tab qs -> qs !! q = Some (x :: l) ->
  exists tab', dequeue isbadtid tab q = Some (tab', x)
    /\ qs_rep tab' (<[q := l]> qs) /\ samekeys tab tab'.
Proof.
  intros H Hq.
  destruct (dequeue_spec isbadtid _ _ _ (qs_each _ _ H _ _ Hq)) as (tab' & E & Hr & Hk & Ht).
  exists tab'. split_and!; try done.
  eapply (qs_update _ _ _ _ _ _ x); try done.
  - eapply touches_weaken; [|done]. unfold nodes. clear. set_solver.
  - eapply qs_valid; [done..|]. set_solver.
  - clear. set_solver.
  - intros q2 l2 E2 T2. eapply (qs_disj _ _ H); [done..|]. set_solver.
Qed.

Lemma qs_enqueue tab qs q l x :
  qs_rep tab qs -> qs !! q = Some l -> unqueued qs x -> valid_tid x -> isbadtid x = false ->
  exists tab', enqueue isbadtid tab x q = Some (tab', x)
    /\ qs_rep tab' (<[q := l ++ [x]]> qs) /\ samekeys tab tab'.
Proof.
  intros H Hq Hu Hv Hb.
  destruct (enqueue_spec isbadtid _ _ _ x (qs_each _ _ H _ _ Hq)) as (tab' & E & Hr & Hk & Ht);
    [by eapply Hu|done|by eapply qs_intab|done|].
  exists tab'. split_and!; try done.
  eapply (qs_update _ _ _ _ _ _ x); try done.
  - clear. set_solver.
  - intros q2 l2' E2 T2. exfalso. by eapply Hu.
Qed.

Lemma qs_insert tab qs q l x key :
  qs_rep tab qs -> qs !! q = Some l -> unqueued qs x -> valid_tid x -> isbadtid x = false ->
  MINKEY < key ->
  exists tab', insert isbadtid tab x q key = Some (tab', OK)
    /\ qs_rep tab' (<[q := insert_desc (kk tab) key x l]> qs)
    /\ (forall i, keyof tab' i = if decide (i = x) then Some key else keyof tab i).
Proof.
  intros H Hq Hu Hv Hb Hk.
  destruct (insert_spec isbadtid _ _ _ x key (qs_each _ _ H _ _ Hq)) as (tab' & E & Hr & Hkk & Ht);
    [by eapply Hu|done|by eapply qs_intab|done|done|].
  exists tab'. split_and!; try done.
  eapply (qs_update _ _ _ _ _ _ x); try done.
  - intros t. apply insert_desc_elem.
  - intros q2 l2' E2 T2. exfalso. by eapply Hu.
Qed.

Lemma qs_insertd tab qs q l x key :
  qs_rep tab qs -> qs !! q = Some l -> unqueued qs x -> valid_tid x -> isbadtid x = false ->
  delta_ok tab l -> 0 <= key < 2 ^ 31 ->
  exists tab' l', insertd isbadtid tab x q key = Some (tab', OK)
    /\ qs_rep tab' (<[q := l']> qs)
    /\ delta tab' l' = insert_delta key x (delta tab l)
    /\ (forall i, i ∉ x :: l -> keyof tab' i = keyof tab i).
Proof.
  intros H Hq Hu Hv Hb Hd Hk.
  destruct (insertd_spec isbadtid _ _ _ x key (qs_each _ _ H _ _ Hq))
    as (tab' & l' & E & Hr & Hdl & Hkk & Ht);
    [by eapply Hu|done|by eapply qs_intab|done|done|done|].
  exists tab', l'. split_and!; try done.
  eapply (qs_update _ _ _ _ _ _ x); try done.
  - intros t. rewrite <- (delta_fst tab' l'), Hdl, insert_delta_elem, delta_fst. done.
  - intros q2 l2' E2 T2. exfalso. by eapply Hu.
Qed.

End ops.

End sys.
