(* ===== verification/QueueProps.v ===== *)
(** * Thread queues: properties of the operations *)

From S2P Require Import Prelude Queue QueueSpec QueueSys.

(** ** Lemmas on ordered insertion *)

Lemma insert_desc_split kf key x l :
  StronglySorted (fun a b => kf b <= kf a) l ->
  exists l1 l2, l = l1 ++ l2 /\ insert_desc kf key x l = l1 ++ x :: l2
    /\ Forall (fun t => key <= kf t) l1 /\ Forall (fun t => kf t < key) l2.
Proof.
  induction 1 as [|y l Hs (l1 & l2 & -> & E & H1 & H2) Hf]; simpl; [by exists [], []|].
  destruct (Z.leb_spec key (kf y)).
  - exists (y :: l1), l2. rewrite E. split_and!; [done..| |done]. by constructor.
  - exists [], (y :: l1 ++ l2). split_and!; [done..|]. constructor; [done|].
    eapply Forall_impl; [exact Hf|]. simpl. lia.
Qed.

(** ** Sequences of operations *)

Section sequences.
Variable isbadtid : Z -> bool.

Fixpoint enqueue_all (tab : gmap Z queent) (ts : list Z) (q : Z) : option (gmap Z queent) :=
  match ts with
  | [] => Some tab
  | t :: ts => '(tab, _) ← enqueue isbadtid tab t q; enqueue_all tab ts q
  end.

Fixpoint dequeue_n (tab : gmap Z queent) (n : nat) (q : Z) : option (gmap Z queent * list Z) :=
  match n with
  | O => Some (tab, [])
  | S n => '(tab, t) ← dequeue isbadtid tab q; '(tab, ts) ← dequeue_n tab n q; Some (tab, t :: ts)
  end.

Lemma enqueue_all_spec ts : forall tab q l,
  qrep tab q l -> NoDup ts -> Forall (fun t => t ∉ l /\ valid_tid t /\ intab tab t /\ isbadtid t = false) ts ->
  exists tab', enqueue_all tab ts q = Some tab' /\ qrep tab' q (l ++ ts).
Proof.
  induction ts as [|t ts IH]; intros tab q l H Hnd Hf; simpl; [exists tab; by rewrite app_nil_r|].
  apply Forall_cons in Hf as [(H1 & H2 & H3 & H4) Hf']. apply NoDup_cons in Hnd as [Hn Hnd].
  destruct (enqueue_spec isbadtid _ _ _ _ H H1 H2 H3 H4) as (tab1 & E & Hr & _ & [_ Ht]). rewrite E. simpl.
  destruct (IH tab1 q (l ++ [t]) Hr Hnd) as (tab' & E' & Hr').
  - rewrite Forall_forall in *. intros u Hu. destruct (Hf' u Hu) as (U1 & U2 & U3 & U4).
    split_and!; [set_solver|done|by rewrite Ht|done].
  - exists tab'. by rewrite <- app_assoc in Hr'.
Qed.

Lemma dequeue_n_spec ts : forall tab q l, qrep tab q (ts ++ l) ->
  exists tab', dequeue_n tab (length ts) q = Some (tab', ts) /\ qrep tab' q l.
Proof.
  induction ts as [|t ts IH]; intros tab q l H; simpl; [by exists tab|].
  destruct (dequeue_spec isbadtid _ _ _ H) as (tab1 & E & Hr & _). simpl in E. rewrite E. simpl.
  destruct (IH _ _ _ Hr) as (tab' & E' & Hr'). rewrite E'. simpl. by exists tab'.
Qed.

End sequences.

(** ** Properties *)

(** C17: enqueue_dequeue_fifo.  Threads that are appended with [enqueue] to a
    queue leave it through [dequeue] in the order of their arrival, behind
    those that were in the queue before. *)
Theorem enqueue_dequeue_fifo isbadtid tab q l ts :
  qrep tab q l -> NoDup ts ->
  Forall (fun t => t ∉ l /\ valid_tid t /\ intab tab t /\ isbadtid t = false) ts ->
  exists tab1 tab2, enqueue_all isbadtid tab ts q = Some tab1
    /\ dequeue_n isbadtid tab1 (length l + length ts) q = Some (tab2, l ++ ts) /\ qrep tab2 q [].
Proof.
  intros H Hnd Hf. destruct (enqueue_all_spec isbadtid ts _ _ _ H Hnd Hf) as (tab1 & E1 & H1).
  rewrite <- (app_nil_r (l ++ ts)) in H1.
  destruct (dequeue_n_spec isbadtid (l ++ ts) tab1 q [] H1) as (tab2 & E2 & H2).
  rewrite length_app in E2. eauto.
Qed.

(** [insert] puts a thread into a queue ordered by
    descending key behind every thread with a key at least as large and in
    front of all others, and changes no other key. *)
Theorem insert_by_priority isbadtid tab q l x key :
  qrep tab q l -> descending tab l -> x ∉ l -> valid_tid x -> intab tab x -> isbadtid x = false ->
  MINKEY < key ->
  exists tab' l1 l2, insert isbadtid tab x q key = Some (tab', OK) /\ l = l1 ++ l2
    /\ qrep tab' q (l1 ++ x :: l2) /\ descending tab' (l1 ++ x :: l2)
    /\ Forall (fun t => key <= kk tab t) l1 /\ Forall (fun t => kk tab t < key) l2
    /\ (forall i, keyof tab' i = if decide (i = x) then Some key else keyof tab i).
Proof.
  intros H Hd Hx Hv Hi Hb Hk.
  destruct (insert_spec isbadtid _ _ _ _ _ H Hx Hv Hi Hb Hk) as (tab' & E & Hr & Hkeys & _).
  destruct (insert_desc_split (kk tab) key x l Hd) as (l1 & l2 & El & Ei & H1 & H2).
  pose proof (insert_desc_descending tab tab' key x l Hx Hd Hkeys) as Hd'. rewrite Ei in Hr, Hd'.
  exists tab', l1, l2. done.
Qed.

(** Taking a thread out of the queue with
    [getitem] right after it was put in with [insert] gives the queue back, and
    the keys of the threads in it are the old ones. *)
Theorem insert_getitem_roundtrip isbadtid tab q l x key :
  qrep tab q l -> descending tab l -> x ∉ l -> valid_tid x -> intab tab x -> isbadtid x = false ->
  MINKEY < key ->
  exists tab1 tab2, insert isbadtid tab x q key = Some (tab1, OK)
    /\ getitem tab1 x = Some (tab2, x) /\ qrep tab2 q l /\ delta tab2 l = delta tab l.
Proof.
  intros H Hd Hx Hv Hi Hb Hk.
  destruct (insert_spec isbadtid _ _ _ _ _ H Hx Hv Hi Hb Hk) as (tab1 & E & Hr & Hkeys & _).
  destruct (insert_desc_split (kk tab) key x l Hd) as (l1 & l2 & -> & Ei & _). rewrite Ei in Hr.
  destruct (getitem_spec _ _ _ _ _ Hr) as (tab2 & E2 & Hr2 & Hk2 & _).
  exists tab1, tab2. split_and!; [done..|]. apply list_fmap_ext. intros i t Ht. f_equal.
  rewrite (samekeys_kk _ _ _ Hk2). unfold kk. rewrite Hkeys.
  apply list_elem_of_lookup_2 in Ht. rewrite decide_False; [done|]. congruence.
Qed.

(** C18: insertd_wakeup_times.  In a delta queue the key of an entry is the
    number of ticks after the entry in front of it.  [insertd] with [key]
    inserts the thread at the absolute time [now + key], in time order and
    behind entries with the same time, and moves the wake-up time of no other
    thread. *)
Theorem insertd_wakeup_times isbadtid tab q l x key now :
  qrep tab q l -> x ∉ l -> valid_tid x -> intab tab x -> isbadtid x = false ->
  delta_ok tab l -> 0 <= key < 2 ^ 31 ->
  exists tab' l', insertd isbadtid tab x q key = Some (tab', OK) /\ qrep tab' q l'
    /\ wake now (delta tab' l') = insert_asc x (now + key) (wake now (delta tab l)).
Proof.
  intros H Hx Hv Hi Hb Hd Hk.
  destruct (insertd_spec isbadtid _ _ _ _ _ H Hx Hv Hi Hb Hd Hk) as (tab' & l' & E & Hr & Hdl & _).
  exists tab', l'. split_and!; [done..|]. by rewrite Hdl, wake_insert_delta.
Qed.

(** The guard of [queinit] lets the first queue beyond the table through: the
    head is written outside [quetab]. *)
Theorem queinit_off_by_one tab : (forall i, intab tab i <-> 0 <= i < NQENT) ->
  queinit tab NQENT = None /\ queinit tab (NQENT + 1) = Some (tab, NQENT + 1, SYSERR).
Proof.
  intros Ht. assert (Hn : tab !! NQENT = None).
  { apply eq_None_not_Some. intros H. apply Ht in H. lia. }
  unfold queinit, quehead, set_next. split; [|done].
  destruct (Z.ltb_spec NQENT NQENT); [lia|]. simpl. by rewrite Hn.
Qed.

(** ** Concrete tables *)

(** A table of [n] entries. *)
Definition table {A} (n : Z) (a : A) : gmap Z A := list_to_map ((fun i => (i, a)) <$> seqZ 0 n).

Lemma table_lookup {A} n (a : A) i : 0 <= n ->
  table n a !! i = if decide (0 <= i < n) then Some a else None.
Proof.
  intros Hn. unfold table. case_decide as Hi.
  - apply elem_of_list_to_map_1.
    + rewrite <- list_fmap_compose. simpl. rewrite list_fmap_id. apply NoDup_seqZ.
    + apply list_elem_of_fmap. exists i. split; [done|]. apply elem_of_seqZ. lia.
  - apply not_elem_of_list_to_map_1. rewrite <- list_fmap_compose. simpl. rewrite list_fmap_id.
    rewrite elem_of_seqZ. lia.
Qed.

Lemma table_dom {A} n (a : A) i : 0 <= n -> is_Some (table n a !! i) <-> 0 <= i < n.
Proof. intros Hn. rewrite table_lookup by done. case_decide; split; done || eauto. Qed.

Definition good (t : Z) : bool := false.

Definition tab0 : gmap Z queent := default ∅ ((fun r => r.1.1) <$> queinit (table NQENT (mkqueent 0 0 0)) 100).
Definition tab1 : gmap Z queent := default ∅ (fst <$> insert good tab0 5 100 20).

Lemma tab1_rep : qrep tab1 100 [5] /\ descending tab1 [5] /\ delta_ok tab1 [5] /\ intab tab1 7 /\ intab tab1 8.
Proof.
  assert (Hf : forall i, 0 <= i < NQENT -> intab (table NQENT (mkqueent 0 0 0)) i).
  { intros i Hi. by apply table_dom. }
  assert (Hq : NTHREAD <= 100 /\ 100 + 1 < NQENT) by (unfold NQENT, NTHREAD, NSEM; lia).
  assert (HN : NQENT = 304) by reflexivity.
  destruct (queinit_spec (table NQENT (mkqueent 0 0 0)) 100 Hf (proj1 Hq) (proj2 Hq))
    as (t0 & E0 & H0 & _ & Hd0).
  assert (Ht0 : tab0 = t0) by (unfold tab0; rewrite E0; reflexivity).
  assert (Hin : forall i, 0 <= i < NQENT -> intab tab0 i) by (intros; rewrite Ht0; by apply Hd0, Hf).
  rewrite <- Ht0 in H0.
  destruct (insert_spec good tab0 100 [] 5 20 H0) as (t1 & E1 & H1 & Hk & _ & Hd1);
    [apply not_elem_of_nil|unfold valid_tid, NTHREAD; lia|apply Hin; lia|reflexivity|unfold MINKEY; vm_compute; reflexivity|].
  assert (Ht1 : tab1 = t1) by (unfold tab1; rewrite E1; reflexivity). rewrite Ht1.
  split_and!; [exact H1|repeat constructor| |apply Hd1, Hin; lia|apply Hd1, Hin; lia].
  constructor; [|constructor]. unfold kk. rewrite Hk, decide_True by done. simpl. lia.
Qed.

Lemma not5 (x : Z) : x <> 5 -> x ∉ [5].
Proof. by rewrite list_elem_of_singleton. Qed.

Lemma enqueue_dequeue_fifo_witness :
  exists t1 t2, enqueue_all good tab1 [7; 8] 100 = Some t1
    /\ dequeue_n good t1 3 100 = Some (t2, [5; 7; 8]) /\ qrep t2 100 [].
Proof.
  destruct tab1_rep as (H1 & _ & _ & H7 & H8).
  refine (enqueue_dequeue_fifo good tab1 100 [5] [7; 8] H1 _ _).
  - apply (bool_decide_unpack (NoDup [7; 8])). reflexivity.
  - repeat constructor; first [done | by apply not5].
Defined.

Lemma insert_by_priority_witness :
  exists t' l1 l2, insert good tab1 7 100 20 = Some (t', OK) /\ [5] = l1 ++ l2
    /\ qrep t' 100 (l1 ++ 7 :: l2) /\ descending t' (l1 ++ 7 :: l2)
    /\ Forall (fun t => 20 <= kk tab1 t) l1 /\ Forall (fun t => kk tab1 t < 20) l2
    /\ (forall i, keyof t' i = if decide (i = 7) then Some 20 else keyof tab1 i).
Proof.
  destruct tab1_rep as (H1 & H2 & _ & H7 & _).
  apply (insert_by_priority good tab1 100 [5] 7 20); first [done | by apply not5].
Defined.

Lemma insert_getitem_roundtrip_witness :
  exists t1 t2, insert good tab1 7 100 20 = Some (t1, OK)
    /\ getitem t1 7 = Some (t2, 7) /\ qrep t2 100 [5] /\ delta t2 [5] = delta tab1 [5].
Proof.
  destruct tab1_rep as (H1 & H2 & _ & H7 & _).
  apply (insert_getitem_roundtrip good tab1 100 [5] 7 20); first [done | by apply not5].
Defined.

Lemma insertd_wakeup_times_witness :
  exists t' l', insertd good tab1 7 100 3 = Some (t', OK) /\ qrep t' 100 l'
    /\ wake 0 (delta t' l') = insert_asc 7 (0 + 3) (wake 0 (delta tab1 [5])).
Proof.
  destruct tab1_rep as (H1 & _ & H2 & H7 & _).
  apply (insertd_wakeup_times good tab1 100 [5] 7 3 0); first [done | by apply not5].
Defined.

Lemma queinit_off_by_one_witness :
  queinit (table NQENT (mkqueent 0 0 0)) NQENT = None
  /\ queinit (table NQENT (mkqueent 0 0 0)) (NQENT + 1) = Some (table NQENT (mkqueent 0 0 0), NQENT + 1, SYSERR).
Proof. apply queinit_off_by_one. intros i. by apply table_dom. Defined.
