(* ===== verification/Interrupt.v ===== *)
(** * Interrupt masking (system/platforms/arm-qemu: vic.h, vic.c, interrupt.c)

    The processor's IRQ-enable flag and the PL190 interrupt controller.  Writing
    a 1 bit to [int_enable] enables a source, writing a 1 bit to [int_en_clear]
    disables it; 0 bits have no effect. *)

From S2P Require Import Prelude.

Record vic : Type := mkvic {
  cpsr_irq : bool;            (* the I bit of the CPSR is clear *)
  int_enable : Z;
  def_vect_addr : Z;
  vect_addr : Z;
  vect_addrs : gmap Z Z;
  vect_cntls : gmap Z Z;
}.

Definition set_cpsr_irq (b : bool) (v : vic) : vic :=
  mkvic b (int_enable v) (def_vect_addr v) (vect_addr v) (vect_addrs v) (vect_cntls v).
Definition write_int_enable (x : Z) (v : vic) : vic :=
  mkvic (cpsr_irq v) (Z.lor (int_enable v) x) (def_vect_addr v) (vect_addr v)
    (vect_addrs v) (vect_cntls v).
Definition write_int_en_clear (x : Z) (v : vic) : vic :=
  mkvic (cpsr_irq v) (Z.land (int_enable v) (Z.lnot x)) (def_vect_addr v) (vect_addr v)
    (vect_addrs v) (vect_cntls v).

Definition IRQMASK_ENABLED_BIT : Z := 0x10000.

Definition irqmask_pack (interrupts_enabled : bool) (mask : Z) : Z :=
  let true_mask := Z.land mask 0xffff in
  if interrupts_enabled then Z.lor true_mask IRQMASK_ENABLED_BIT else true_mask.

Definition irqmask_interrupts_enabled (mask : Z) : bool :=
  negb (Z.land mask IRQMASK_ENABLED_BIT =? 0).

Definition vic_enable_interrupts (v : vic) : vic := set_cpsr_irq true v.
Definition vic_disable_interrupts (v : vic) : vic := set_cpsr_irq false v.
Definition vic_interrupts_enabled (v : vic) : bool := cpsr_irq v.

Definition vic_get_irqmask (v : vic) : Z :=
  irqmask_pack (vic_interrupts_enabled v) (int_enable v).

Definition vic_set_irqmask (im : Z) (v : vic) : vic :=
  let v := if irqmask_interrupts_enabled im then vic_enable_interrupts v
           else vic_disable_interrupts v in
  let im := Z.land im 0xffff in
  let v := write_int_enable im v in
  write_int_en_clear (u32 (Z.lnot im)) v.

Definition vic_enable_irq (irq : Z) (v : vic) : vic := write_int_enable (Z.shiftl 1 irq) v.
Definition vic_disable_irq (irq : Z) (v : vic) : vic := write_int_en_clear (Z.shiftl 1 irq) v.

Definition vic_register_irq (irq handler : Z) (v : vic) : vic :=
  let v := write_int_en_clear (Z.shiftl 1 irq) v in
  mkvic (cpsr_irq v) (int_enable v) (def_vect_addr v) (vect_addr v)
    (<[irq := handler]> (vect_addrs v)) (<[irq := Z.lor irq 0x20]> (vect_cntls v)).

Definition get_irq (irq : Z) (v : vic) : option Z := vect_addrs v !! irq.

Definition vic_interrupt_handled (v : vic) : vic :=
  mkvic (cpsr_irq v) (int_enable v) (def_vect_addr v) 0xffffffff (vect_addrs v) (vect_cntls v).

Definition vic_in_interrupt (v : vic) : bool := negb (vect_addr v =? 0).

(** [vic_default] is the address of the default handler. *)
Definition vic_init (vic_default : Z) (v : vic) : vic :=
  mkvic (cpsr_irq v) (int_enable v) vic_default (vect_addr v) (vect_addrs v) (vect_cntls v).

(** ** interrupt.c: each returns the old mask with the new state *)

Definition enable (vic_default : Z) (v : vic) : vic * Z :=
  let v := vic_enable_interrupts (vic_init vic_default v) in (v, vic_get_irqmask v).
Definition disable (v : vic) : vic * Z :=
  let im_pre := vic_get_irqmask v in (vic_disable_interrupts v, im_pre).
Definition restore (im : Z) (v : vic) : vic * Z :=
  let im_pre := vic_get_irqmask v in (vic_set_irqmask im v, im_pre).
Definition enable_irq (irq : Z) (v : vic) : vic * Z :=
  let im_pre := vic_get_irqmask v in (vic_enable_irq irq v, im_pre).
Definition disable_irq (irq : Z) (v : vic) : vic * Z :=
  let im_pre := vic_get_irqmask v in (vic_disable_irq irq v, im_pre).
Definition register_irq (irq handler : Z) (v : vic) : vic := vic_register_irq irq handler v.

(** ** Facts about masks *)

(** Only the sixteen sources of the mask are enabled. *)
Definition vic_ok (v : vic) : Prop := 0 <= int_enable v < 2 ^ 16.

Lemma land_ffff x : Z.land x 0xffff = x mod 2 ^ 16.
Proof. change 0xffff with (Z.ones 16). apply Z.land_ones. lia. Qed.

Lemma land_ffff_range x : 0 <= Z.land x 0xffff < 2 ^ 16.
Proof. rewrite land_ffff. apply Z.mod_pos_bound. lia. Qed.

Lemma testbit_high x n i : 0 <= x < 2 ^ n -> 0 <= n <= i -> Z.testbit x i = false.
Proof.
  intros Hx Hi. rewrite <- (Z.mod_small x (2 ^ n)) by done.
  apply Z.mod_pow2_bits_high. lia.
Qed.

Lemma pack_enabled b m : irqmask_interrupts_enabled (irqmask_pack b m) = b.
Proof.
  unfold irqmask_interrupts_enabled, irqmask_pack, IRQMASK_ENABLED_BIT.
  pose proof (land_ffff_range m) as Hm. set (t := Z.land m 0xffff) in *. clearbody t.
  assert (Ht : Z.land t 0x10000 = 0).
  { apply Z.bits_inj_0. intros i. rewrite Z.land_spec. change 0x10000 with (2 ^ 16).
    destruct (decide (i < 16)); [rewrite Z.pow2_bits_false by lia; apply andb_false_r|].
    by rewrite (testbit_high t 16) by lia. }
  destruct b.
  - rewrite Z.land_lor_distr_l, Ht. done.
  - by rewrite Ht.
Qed.

Lemma pack_mask b m : Z.land (irqmask_pack b m) 0xffff = Z.land m 0xffff.
Proof.
  unfold irqmask_pack, IRQMASK_ENABLED_BIT. destruct b.
  - rewrite Z.land_lor_distr_l, <- Z.land_assoc, Z.land_diag.
    change (Z.land 0x10000 0xffff) with 0. apply Z.lor_0_r.
  - by rewrite <- Z.land_assoc, Z.land_diag.
Qed.

(** Writing a mask to both registers leaves exactly that mask enabled. *)
Lemma write_both v m :
  0 <= int_enable v < 2 ^ 32 -> 0 <= m < 2 ^ 16 ->
  int_enable (write_int_en_clear (u32 (Z.lnot m)) (write_int_enable m v)) = m.
Proof.
  intros Hv Hm. simpl. apply Z.bits_inj'. intros i Hi.
  rewrite Z.land_spec, Z.lor_spec, Z.lnot_spec by lia. unfold u32.
  destruct (decide (i < 32)).
  - rewrite Z.mod_pow2_bits_low, Z.lnot_spec, negb_involutive by lia.
    destruct (Z.testbit m i); [apply orb_true_r || by rewrite orb_true_r|by rewrite andb_false_r].
  - rewrite (testbit_high _ _ _ Hv), (testbit_high _ _ _ Hm) by lia. done.
Qed.

(** [restore] installs the mask it is given, whatever the current one. *)
Lemma restore_pack v b m : 0 <= int_enable v < 2 ^ 32 ->
  vic_set_irqmask (irqmask_pack b m) v =
  mkvic b (Z.land m 0xffff) (def_vect_addr v) (vect_addr v) (vect_addrs v) (vect_cntls v).
Proof.
  intros Hv. unfold vic_set_irqmask. rewrite pack_enabled, pack_mask.
  set (v' := if b then _ else _).
  assert (Hv' : int_enable v' = int_enable v) by (unfold v'; by destruct b).
  pose proof (write_both v' (Z.land m 0xffff)) as Hw. rewrite Hv' in Hw.
  specialize (Hw Hv (land_ffff_range m)).
  unfold write_int_en_clear in *. simpl in Hw |- *. rewrite Hw.
  unfold v'. by destruct b.
Qed.

(** [restore(im)] right after [im = disable()] leaves no trace. *)
Lemma restore_disable v : vic_ok v ->
  vic_set_irqmask (vic_get_irqmask v) (vic_disable_interrupts v) = v.
Proof.
  intros Hv. unfold vic_get_irqmask. rewrite restore_pack by (unfold vic_ok in *; simpl; lia).
  rewrite land_ffff, Z.mod_small by done. by destruct v.
Qed.
