(* ===== verification/Memory.v ===== *)
(** * The kernel heap (include/memory.h, system/memget.c, memfree.c, stkget.c)

    Free memory is a list of blocks, linked through headers [struct memblock]
    stored in the first two words of each block and ordered by address; the
    head of the list is the global [memlist].  The model keeps the words of
    memory, so the headers are read and written where the code does. *)

From S2P Require Import Prelude.

(** Memory words by address, and the allocator's globals. *)
Record memory : Type := mkmemory {
  ram : gmap Z Z;
  memlist_next : Z;
  memlist_length : Z;
  memheap : Z;
  maxaddr : Z;
}.

Definition ld (M : memory) (a : Z) : Z := default 0 (ram M !! a).
Definition st (M : memory) (a v : Z) : memory :=
  mkmemory (<[a := v]> (ram M)) (memlist_next M) (memlist_length M) (memheap M) (maxaddr M).

Lemma ld_st M a v w : ld (st M a v) w = if decide (a = w) then v else ld M w.
Proof. unfold ld, st. simpl. rewrite lookup_insert. by case_decide. Qed.
Lemma ld_st_ne M a v w : a <> w -> ld (st M a v) w = ld M w.
Proof. intros. rewrite ld_st. by cases. Qed.

(** A [struct memblock *]: the global head or a block in memory. *)
Inductive blockptr : Type :=
| Memlist
| Blk (a : Z).

Definition get_next (M : memory) (p : blockptr) : Z :=
  match p with Memlist => memlist_next M | Blk a => ld M a end.
Definition get_length (M : memory) (p : blockptr) : Z :=
  match p with Memlist => memlist_length M | Blk a => ld M (a + 4) end.
Definition put_next (M : memory) (p : blockptr) (v : Z) : memory :=
  match p with
  | Memlist => mkmemory (ram M) v (memlist_length M) (memheap M) (maxaddr M)
  | Blk a => st M a v
  end.
Definition put_length (M : memory) (p : blockptr) (v : Z) : memory :=
  match p with
  | Memlist => mkmemory (ram M) (memlist_next M) v (memheap M) (maxaddr M)
  | Blk a => st M (a + 4) v
  end.

Definition roundmb (x : Z) : Z := Z.land (u32 (7 + x)) (Z.lnot 7).
Definition truncmb (x : Z) : Z := Z.land x (Z.lnot 7).

(** Enough iterations for every block of the heap. *)
Definition heap_fuel (M : memory) : nat := S (Z.to_nat ((maxaddr M - memheap M) / 8)).

(** ** memget *)

Fixpoint memget_scan (fuel : nat) (M : memory) (prev : blockptr) (curr nbytes : Z)
  : option (memory * Z) :=
  match fuel with
  | O => None
  | S fuel =>
      if curr =? NULL then Some (M, SYSERR)
      else if get_length M (Blk curr) =? nbytes then
        let M := put_next M prev (get_next M (Blk curr)) in
        let M := put_length M Memlist (u32 (get_length M Memlist - nbytes)) in
        Some (M, curr)
      else if nbytes <? get_length M (Blk curr) then
        let leftover := u32 (curr + nbytes) in
        let M := put_next M prev leftover in
        let M := put_next M (Blk leftover) (get_next M (Blk curr)) in
        let M := put_length M (Blk leftover) (u32 (get_length M (Blk curr) - nbytes)) in
        let M := put_length M Memlist (u32 (get_length M Memlist - nbytes)) in
        Some (M, curr)
      else memget_scan fuel M (Blk curr) (get_next M (Blk curr)) nbytes
  end.

Definition memget (M : memory) (nbytes : Z) : option (memory * Z) :=
  if nbytes =? 0 then Some (M, SYSERR)
  else
    let nbytes := roundmb nbytes in
    memget_scan (heap_fuel M) M Memlist (get_next M Memlist) nbytes.

(** ** memfree *)

Fixpoint memfree_scan (fuel : nat) (M : memory) (prev : blockptr) (next block : Z)
  : option (blockptr * Z) :=
  match fuel with
  | O => None
  | S fuel =>
      if negb (next =? NULL) && (next <? block)
      then memfree_scan fuel M (Blk next) (get_next M (Blk next)) block
      else Some (prev, next)
  end.

Definition memfree (M : memory) (memptr nbytes : Z) : option (memory * Z) :=
  if (nbytes =? 0) || (memptr <? memheap M) || (maxaddr M <? memptr)
  then Some (M, SYSERR)
  else
    let block := memptr in
    let nbytes := roundmb nbytes in
    '(prev, next) ← memfree_scan (heap_fuel M) M Memlist (get_next M Memlist) block;
    let top := match prev with
               | Memlist => NULL
               | Blk p => u32 (p + get_length M prev)
               end in
    if (block <? top) || (negb (next =? NULL) && (next <? u32 (block + nbytes)))
    then Some (M, SYSERR)
    else
      let M := put_length M Memlist (u32 (get_length M Memlist + nbytes)) in
      let '(M, block) :=
        if top =? block then
          (put_length M prev (u32 (get_length M prev + nbytes)), prev)
        else
          let M := put_next M (Blk block) next in
          let M := put_length M (Blk block) nbytes in
          (put_next M prev block, Blk block) in
      let baddr := match block with Memlist => NULL | Blk a => a end in
      let M :=
        if u32 (baddr + get_length M block) =? next then
          let M := put_length M block (u32 (get_length M block + get_length M (Blk next))) in
          put_next M block (get_next M (Blk next))
        else M in
      Some (M, OK).

(** ** stkget: the top of the highest block that fits *)

Fixpoint stkget_scan (fuel : nat) (M : memory) (prev : blockptr) (next nbytes : Z)
    (fits : Z) (fitsprev : option blockptr) : option (Z * option blockptr) :=
  match fuel with
  | O => None
  | S fuel =>
      if next =? NULL then Some (fits, fitsprev)
      else if nbytes <=? get_length M (Blk next)
      then stkget_scan fuel M (Blk next) (get_next M (Blk next)) nbytes next (Some prev)
      else stkget_scan fuel M (Blk next) (get_next M (Blk next)) nbytes fits fitsprev
  end.

Definition stkget (M : memory) (nbytes : Z) : option (memory * Z) :=
  if nbytes =? 0 then Some (M, SYSERR)
  else
    let nbytes := roundmb nbytes in
    '(fits, fitsprev) ←
      stkget_scan (heap_fuel M) M Memlist (get_next M Memlist) nbytes NULL None;
    if fits =? NULL then Some (M, SYSERR)
    else
      '(M, fits) ←
        (if nbytes =? get_length M (Blk fits) then
          fitsprev ← fitsprev;
          Some (put_next M fitsprev (get_next M (Blk fits)), fits)
        else
          let M := put_length M (Blk fits) (u32 (get_length M (Blk fits) - nbytes)) in
          Some (M, u32 (fits + get_length M (Blk fits))));
      let M := put_length M Memlist (u32 (get_length M Memlist - nbytes)) in
      Some (M, u32 (fits + nbytes - 4)).

(** [stkfree(p, len)] *)
Definition stkfree (M : memory) (p len : Z) : option (memory * Z) :=
  memfree M (u32 (p - roundmb len + 4)) (roundmb len).
