(* ===== verification/MemorySpec.v ===== *)
(** * The kernel heap: the free list as a list of blocks *)

From S2P Require Import Prelude Memory.

(** Blocks [(address, length)] of a free list, in address order, none adjacent
    to the next, all within [lo < address] and [address + length <= hi]. *)
Fixpoint wf_free (lo hi : Z) (l : list (Z * Z)) : Prop :=
  match l with
  | [] => True
  | (a, n) :: l' =>
      lo < a /\ 0 < n /\ (8 | a) /\ (8 | n) /\ a + n <= hi /\ wf_free (a + n) hi l'
  end.

(** The blocks [l] are linked from pointer [p] to pointer [q]. *)
Fixpoint chain (M : memory) (p : Z) (l : list (Z * Z)) (q : Z) : Prop :=
  match l with
  | [] => p = q
  | (a, n) :: l' => p = a /\ a <> NULL /\ ld M (a + 4) = n /\ chain M (ld M a) l' q
  end.

Definition total (l : list (Z * Z)) : Z := foldr (fun b s => b.2 + s) 0 l.

Record heap_rep (M : memory) (l : list (Z * Z)) : Prop := {
  hr_chain : chain M (memlist_next M) l NULL;
  hr_wf : wf_free (memheap M - 1) (maxaddr M) l;
  hr_total : memlist_length M = total l;
  hr_heap : 0 < memheap M <= maxaddr M;
  hr_align : (8 | memheap M) /\ (8 | maxaddr M);
  hr_max : maxaddr M < 2 ^ 32;
}.

(** The byte at [w] belongs to a free block. *)
Definition free_at (l : list (Z * Z)) (w : Z) : Prop :=
  exists a n, (a, n) ∈ l /\ a <= w < a + n.

Section facts.
Implicit Types (M : memory) (l : list (Z * Z)).


Lemma wf_free_app lo hi l1 l2 :
  wf_free lo hi (l1 ++ l2) <->
  wf_free lo hi l1 /\ wf_free (match last l1 with Some (a, n) => a + n | None => lo end) hi l2.
Proof.
  revert lo. induction l1 as [|[a n] l1 IH]; intros lo; simpl; [tauto|].
  rewrite IH. destruct l1 as [|[b m] l1]; simpl; [tauto|].
  destruct (last ((b, m) :: l1)) as [[??]|] eqn:E; [tauto|]. by apply last_None in E.
Qed.

Lemma wf_free_weaken lo lo' hi l : lo' <= lo -> wf_free lo hi l -> wf_free lo' hi l.
Proof. destruct l as [|[a n] l]; simpl; [done|]. intros. intuition lia. Qed.

Lemma wf_free_in lo hi l a n : wf_free lo hi l -> (a, n) ∈ l ->
  lo < a /\ 0 < n /\ (8 | a) /\ (8 | n) /\ a + n <= hi.
Proof.
  revert lo. induction l as [|[b m] l IH]; intros lo H Hin; [set_solver|].
  simpl in H. destruct H as (H1 & H2 & H3 & H4 & H5 & H6).
  apply elem_of_cons in Hin as [[= -> ->]|Hin]; [done|].
  apply IH in H6; [|done]. intuition lia.
Qed.

Lemma div8_lower n : (8 | n) -> 0 < n -> 8 <= n.
Proof. intros [k ->]. lia. Qed.

(** Two blocks of a well-formed list are apart, also as words. *)
Lemma wf_free_apart lo hi l1 a n l2 b m :
  wf_free lo hi (l1 ++ (a, n) :: l2) -> (b, m) ∈ l1 \/ (b, m) ∈ l2 ->
  (b + m < a \/ a + n < b) /\ 8 <= n /\ 8 <= m.
Proof.
  intros H Hin.
  assert (Hn : 8 <= n).
  { eapply (wf_free_in _ _ _ a n) in H as (? & ? & ? & ? & ?); [by apply div8_lower|]. set_solver. }
  assert (Hm : 8 <= m).
  { eapply (wf_free_in _ _ _ b m) in H as (? & ? & ? & ? & ?); [by apply div8_lower|]. set_solver. }
  split; [|done]. destruct Hin as [Hin|Hin].
  - left. apply list_elem_of_split in Hin as (k1 & k2 & ->).
    rewrite <- app_assoc in H. apply wf_free_app in H as [_ H]. simpl in H.
    destruct H as (_ & _ & _ & _ & _ & H).
    assert (Ha : (a, n) ∈ k2 ++ (a, n) :: l2) by set_solver.
    eapply wf_free_in in Ha; [|done]. lia.
  - right. apply wf_free_app in H as [_ H]. simpl in H.
    destruct H as (_ & _ & _ & _ & _ & H). eapply wf_free_in in Hin; [|done]. lia.
Qed.

Lemma chain_app M p l1 l2 q :
  chain M p (l1 ++ l2) q <-> exists r, chain M p l1 r /\ chain M r l2 q.
Proof.
  revert p. induction l1 as [|[a n] l1 IH]; intros p; simpl.
  - naive_solver.
  - rewrite IH. naive_solver.
Qed.

Lemma chain_frame M M' p l q :
  (forall a n, (a, n) ∈ l -> ld M' a = ld M a /\ ld M' (a + 4) = ld M (a + 4)) ->
  chain M p l q -> chain M' p l q.
Proof.
  revert p. induction l as [|[a n] l IH]; intros p Hf; simpl; [done|].
  intros (-> & H1 & H2 & H3). destruct (Hf a n) as [E1 E2]; [set_solver|].
  rewrite E1, E2. split_and!; [done..|]. apply IH; [|done]. set_solver.
Qed.

Lemma chain_head M p l q : chain M p l q -> p = match l with (a, _) :: _ => a | [] => q end.
Proof. destruct l as [|[a n] l]; simpl; naive_solver. Qed.

Lemma wf_free_length lo hi l : wf_free lo hi l -> lo <= hi ->
  8 * Z.of_nat (length l) <= hi - lo.
Proof.
  revert lo. induction l as [|[a n] l IH]; intros lo H Hle; simpl length; [lia|].
  simpl in H. destruct H as (H1 & H2 & H3 & H4 & H5 & H6).
  apply div8_lower in H4; [|done]. apply IH in H6; [|lia]. lia.
Qed.

Lemma heap_rep_fuel M l : heap_rep M l -> (length l < heap_fuel M)%nat.
Proof.
  intros H. pose proof (hr_heap _ _ H). destruct (hr_align _ _ H) as [[a Ha] [b Hb]].
  pose proof (wf_free_length _ _ _ (hr_wf _ _ H) ltac:(lia)) as Hl.
  unfold heap_fuel. rewrite Ha, Hb in *.
  replace (b * 8 - a * 8) with ((b - a) * 8) by lia. rewrite Z.div_mul by lia. lia.
Qed.

Lemma land_lnot7 y : Z.land y (Z.lnot 7) = y / 8 * 8.
Proof.
  change 7 with (Z.ones 3). rewrite <- Z.ldiff_land, Z.ldiff_ones_r by lia.
  by rewrite Z.shiftl_mul_pow2, Z.shiftr_div_pow2 by lia.
Qed.

Lemma roundmb_spec x : 0 <= x -> x + 7 < 2 ^ 32 ->
  (8 | roundmb x) /\ x <= roundmb x < x + 8.
Proof.
  intros H1 H2. unfold roundmb. rewrite u32_id by (unfold is_u32; lia). rewrite land_lnot7.
  split; [by exists ((7 + x) / 8)|].
  pose proof (Z.div_mod (7 + x) 8). pose proof (Z.mod_pos_bound (7 + x) 8). lia.
Qed.

(** ** First fit *)

(** Allocation of [n] bytes from the first block that is large enough. *)
Fixpoint alloc_first (n : Z) l : option (Z * list (Z * Z)) :=
  match l with
  | [] => None
  | (a, len) :: l' =>
      if len =? n then Some (a, l')
      else if n <? len then Some (a, (a + n, len - n) :: l')
      else '(x, r) ← alloc_first n l'; Some (x, (a, len) :: r)
  end.

(** The block pointer that precedes the blocks behind [l1]. *)
Definition lastptr l : blockptr := match last l with Some (a, _) => Blk a | None => Memlist end.

Lemma lastptr_snoc l a n : lastptr (l ++ [(a, n)]) = Blk a.
Proof. unfold lastptr. by rewrite last_snoc. Qed.

(** Changing the pointer behind [l1]. *)
Lemma chain_put_next M l1 r v lo hi :
  wf_free lo hi l1 -> chain M (memlist_next M) l1 r ->
  chain (put_next M (lastptr l1) v) (memlist_next (put_next M (lastptr l1) v)) l1 v.
Proof.
  intros Hw Hc. destruct l1 as [|b l1 _] using rev_ind; [done|].
  destruct b as [a n]. rewrite lastptr_snoc. simpl put_next.
  apply chain_app in Hc as (r' & Hc1 & Hc2). apply chain_app. exists r'. split.
  - eapply chain_frame; [|done]. intros b m Hb.
    destruct (wf_free_apart _ _ l1 a n [] b m Hw) as (Hap & Hn & Hm); [by left|].
    rewrite !ld_st_ne by lia. done.
  - simpl in *. destruct Hc2 as (-> & Hne & Hlen & Hr). split_and!; try done.
    + by rewrite ld_st_ne by lia.
    + rewrite ld_st. by cases.
Qed.

(** Words of memory outside the free blocks [l] are the same. *)
Definition keeps l M M' : Prop := forall w, (forall a n, (a, n) ∈ l -> ~ a <= w < a + n) ->
  ld M' w = ld M w.

Lemma ld_put_next_keeps M l1 v w :
  (forall a n, (a, n) ∈ l1 -> w <> a) -> ld (put_next M (lastptr l1) v) w = ld M w.
Proof.
  intros H. unfold lastptr. destruct (last l1) as [[a n]|] eqn:E; [|done].
  apply ld_st_ne. apply last_Some in E as [l' ->]. intros ->. apply (H w n); [set_solver|done].
Qed.

Lemma total_app l1 l2 : total (l1 ++ l2) = total l1 + total l2.
Proof. induction l1 as [|[a n] l1 IH]; simpl; [done|]. unfold total in *. simpl. lia. Qed.

Lemma wf_free_total lo hi l : wf_free lo hi l -> 0 <= total l.
Proof.
  revert lo. induction l as [|[a n] l IH]; intros lo H; [done|].
  simpl in H. destruct H as (? & ? & ? & ? & ? & H). apply IH in H. unfold total in *. simpl. lia.
Qed.

Lemma wf_free_total_le lo hi l : wf_free lo hi l -> lo <= hi -> total l <= hi - lo.
Proof.
  revert lo. induction l as [|[a n] l IH]; intros lo H Hle; [simpl; lia|].
  simpl in H. destruct H as (? & ? & ? & ? & ? & H). apply IH in H; [|lia].
  unfold total in *. simpl. lia.
Qed.

Lemma put_length_memlist M v :
  put_length M Memlist v = mkmemory (ram M) (memlist_next M) v (memheap M) (maxaddr M).
Proof. done. Qed.

Lemma chain_ram M M' p l q : ram M' = ram M -> chain M p l q -> chain M' p l q.
Proof. intros H. apply chain_frame. unfold ld. by rewrite H. Qed.

(** Replacing the blocks behind [l1]: the memory [M'] has the new chain [l'],
    was written only inside the old blocks, and accounts for the difference. *)
Lemma heap_rep_replace M M1 l1 l2 l' v d :
  heap_rep M (l1 ++ l2) ->
  memheap M1 = memheap M -> maxaddr M1 = maxaddr M -> memlist_length M1 = memlist_length M ->
  memlist_next M1 = memlist_next (put_next M (lastptr l1) v) ->
  (forall w, (exists a n, (a, n) ∈ l1 /\ a <= w < a + n) ->
     ld M1 w = ld (put_next M (lastptr l1) v) w) ->
  chain M1 v l' NULL ->
  wf_free (match last l1 with Some (a, n) => a + n | None => memheap M - 1 end) (maxaddr M) l' ->
  total l' = total l2 + d ->
  heap_rep (put_length M1 Memlist (u32 (memlist_length M + d))) (l1 ++ l').
Proof.
  intros [Hc Hw Ht Hh Hal Hm] E1 E2 E3 E4 Hf Hc' Hw' Hd.
  apply chain_app in Hc as (r & Hc1 & Hc2). pose proof Hw as Hw0.
  apply wf_free_app in Hw as [Hw1 Hw2].
  assert (Hwf : wf_free (memheap M - 1) (maxaddr M) (l1 ++ l')) by (by apply wf_free_app).
  split; simpl; rewrite ?E1, ?E2; try done.
  - apply chain_app. exists v. split; [|by eapply chain_ram; [|done]].
    rewrite E4. eapply chain_frame; [|by eapply chain_put_next].
    intros a n Hin. pose proof (wf_free_in _ _ _ _ _ Hw1 Hin) as (? & ? & ? & H8 & ?).
    apply div8_lower in H8; [|done].
    split; apply Hf; exists a, n; (split; [done|lia]).
  - pose proof (wf_free_total_le _ _ _ Hwf ltac:(lia)). pose proof (wf_free_total _ _ _ Hwf).
    rewrite total_app in *. rewrite u32_id; unfold is_u32; lia.
Qed.

(** Writing the pointer behind [l1] does not touch the blocks of [l2]. *)
Lemma put_next_other M l1 l2 v a n w lo hi :
  wf_free lo hi (l1 ++ l2) -> (a, n) ∈ l2 -> a <= w < a + n ->
  ld (put_next M (lastptr l1) v) w = ld M w.
Proof.
  intros Hw Hin Hr. apply ld_put_next_keeps. intros b m Hb ->.
  apply list_elem_of_split in Hb as (k1 & k2 & ->). rewrite <- app_assoc in Hw. simpl in Hw.
  destruct (wf_free_apart _ _ k1 b m (k2 ++ l2) a n Hw); [right; set_solver|]. lia.
Qed.

(** The block behind [l1] is unlinked. *)
Lemma heap_remove M l1 a n l2 :
  heap_rep M (l1 ++ (a, n) :: l2) ->
  heap_rep (put_length (put_next M (lastptr l1) (ld M a)) Memlist
              (u32 (memlist_length M - n))) (l1 ++ l2).
Proof.
  intros H. pose proof (hr_wf _ _ H) as Hw. pose proof (hr_chain _ _ H) as Hc.
  apply chain_app in Hc as (r & Hc1 & Hc2). simpl in Hc2. destruct Hc2 as (-> & Ha & Hlen & Hc2).
  replace (memlist_length M - n) with (memlist_length M + (- n)) by lia.
  eapply (heap_rep_replace M _ l1 ((a, n) :: l2) l2 (ld M a) (- n)); try done.
  - unfold lastptr. by destruct (last l1) as [[??]|].
  - unfold lastptr. by destruct (last l1) as [[??]|].
  - unfold lastptr. by destruct (last l1) as [[??]|].
  - eapply chain_frame; [|done]. intros b m Hb.
    pose proof (wf_free_in _ _ _ b m Hw ltac:(set_solver)) as (? & ? & ? & H8 & ?).
    apply div8_lower in H8; [|done].
    split; eapply (put_next_other _ _ _ _ b m); try done; try set_solver; lia.
  - apply wf_free_app in Hw as [_ Hw]. simpl in Hw. eapply wf_free_weaken; [|apply Hw]. lia.
  - unfold total. simpl. lia.
Qed.

Lemma put_next_globals M p v :
  memheap (put_next M p v) = memheap M /\ maxaddr (put_next M p v) = maxaddr M
  /\ memlist_length (put_next M p v) = memlist_length M.
Proof. by destruct p. Qed.

(** The low end of the block behind [l1] is cut off. *)
Lemma heap_split_low M l1 a len l2 n :
  heap_rep M (l1 ++ (a, len) :: l2) -> (8 | n) -> 0 < n < len ->
  heap_rep (put_length (st (st (put_next M (lastptr l1) (a + n)) (a + n) (ld M a))
                           (a + n + 4) (len - n)) Memlist
              (u32 (memlist_length M - n))) (l1 ++ (a + n, len - n) :: l2).
Proof.
  intros H Hn8 Hn. pose proof (hr_wf _ _ H) as Hw. pose proof (hr_chain _ _ H) as Hc.
  pose proof (hr_heap _ _ H) as Hh.
  apply chain_app in Hc as (r & Hc1 & Hc2). simpl in Hc2. destruct Hc2 as (-> & Ha & Hlen & Hc2).
  replace (memlist_length M - n) with (memlist_length M + (- n)) by lia.
  destruct (put_next_globals M (lastptr l1) (a + n)) as (G1 & G2 & G3).
  pose proof (wf_free_in _ _ _ a len Hw ltac:(set_solver)) as (Hlo & _ & Ha8 & Hl8 & Hhi).
  assert (Hl8' : (8 | len - n)) by (by apply Z.divide_sub_r).
  pose proof (div8_lower _ Hl8' ltac:(lia)) as Hge.
  assert (Happ := fun b m => wf_free_apart _ _ l1 a len l2 b m Hw).
  eapply (heap_rep_replace M _ l1 ((a, len) :: l2) _ (a + n) (- n)); try done.
  - intros w (b & m & Hin & Hr). destruct (Happ b m (or_introl Hin)) as (? & ? & ?).
    rewrite !ld_st_ne by lia. done.
  - simpl. split_and!; [done|unfold NULL in *; lia| |].
    + rewrite ld_st. by cases.
    + rewrite ld_st_ne, ld_st by lia. destruct (decide (a + n = a + n)); [|done].
      eapply chain_frame; [|done]. intros b m Hb.
      destruct (Happ b m (or_intror Hb)) as (Hap & ? & ?).
      rewrite !ld_st_ne by lia.
      split; eapply (put_next_other _ _ ((a, len) :: l2) _ b m); try done; try set_solver; lia.
  - apply wf_free_app in Hw as [_ Hw]. simpl in Hw |- *.
    destruct Hw as (? & ? & ? & ? & ? & Hw). replace (a + n + (len - n)) with (a + len) by lia.
    split_and!; try done; try lia. by apply Z.divide_add_r.
  - unfold total. simpl. lia.
Qed.

(** The loop of [memget], at the block behind [l1]. *)
Lemma memget_scan_spec M l1 l2 fuel n :
  heap_rep M (l1 ++ l2) -> (length l2 < fuel)%nat -> (8 | n) -> 0 < n ->
  exists M' x, memget_scan fuel M (lastptr l1)
      (match l2 with (a, _) :: _ => a | [] => NULL end) n = Some (M', x)
    /\ match alloc_first n l2 with
       | Some (a, l') => x = a /\ heap_rep M' (l1 ++ l') /\ keeps (l1 ++ l2) M M'
       | None => x = SYSERR /\ M' = M
       end.
Proof.
  revert l1 fuel. induction l2 as [|[a len] l2 IH]; intros l1 fuel H Hf Hn Hpos;
    (destruct fuel as [|fuel]; [simpl in Hf; lia|]); simpl memget_scan.
  { exists M, SYSERR. done. }
  pose proof (hr_chain _ _ H) as Hc. apply chain_app in Hc as (r & Hc1 & Hc2).
  simpl in Hc2. destruct Hc2 as (-> & Ha & Hlen & Hc2).
  destruct (Z.eqb_spec a NULL); [done|]. rewrite Hlen. simpl alloc_first.
  destruct (put_next_globals M (lastptr l1) (ld M a)) as (_ & _ & G3).
  destruct (Z.eqb_spec len n) as [->|Hne].
  { eexists _, a. split; [reflexivity|]. split_and!; [done|by rewrite G3; apply heap_remove|].
    intros w Hw. apply ld_put_next_keeps. intros b m Hb ->.
    pose proof (wf_free_in _ _ _ b m (hr_wf _ _ H) ltac:(set_solver)).
    apply (Hw b m); [set_solver|lia]. }
  destruct (Z.ltb_spec n len) as [Hlt|Hge].
  - pose proof (wf_free_in _ _ _ a len (hr_wf _ _ H) ltac:(set_solver)) as Hb.
    pose proof (hr_max _ _ H). pose proof (hr_heap _ _ H). pose proof (div8_lower _ Hn Hpos).
    rewrite u32_id by (unfold is_u32; lia).
    destruct (put_next_globals M (lastptr l1) (a + n)) as (_ & _ & G4).
    assert (Hold : forall w, a <= w < a + len -> ld (put_next M (lastptr l1) (a + n)) w = ld M w).
    { intros w Hw. eapply (put_next_other _ _ ((a, len) :: l2) _ a len);
        [by eapply hr_wf|set_solver|done]. }
    rewrite Hold, ld_st_ne, Hold, Hlen by lia. rewrite (u32_id (len - n)) by (unfold is_u32; lia).
    eexists _, a. split; [reflexivity|]. split_and!; [done| |].
    + simpl. rewrite G4. apply heap_split_low; [done..|lia].
    + intros w Hw. change (ld (st (st (put_next M (lastptr l1) (a + n)) (a + n) (ld M a))
        (a + n + 4) (len - n)) w = ld M w).
      assert (~ a <= w < a + len) by (apply Hw; set_solver).
      pose proof (div8_lower (len - n) ltac:(apply Z.divide_sub_r; tauto) ltac:(lia)).
      rewrite !ld_st_ne by lia. apply ld_put_next_keeps. intros b m Hb' ->.
      pose proof (wf_free_in _ _ _ b m (hr_wf _ _ H) ltac:(set_solver)).
      apply (Hw b m); [set_solver|lia].
  - destruct (IH (l1 ++ [(a, len)]) fuel) as (M' & x & E & Hr);
      [by rewrite <- app_assoc|simpl in Hf; lia|done|done|].
    rewrite lastptr_snoc in E. pose proof (chain_head _ _ _ _ Hc2) as Hp.
    exists M', x. split; [rewrite Hp; exact E|].
    destruct (alloc_first n l2) as [[y l']|]; [|done]. simpl.
    rewrite <- !app_assoc in Hr. done.
Qed.

Lemma memget_spec M l nbytes :
  heap_rep M l -> 0 < nbytes -> nbytes + 7 < 2 ^ 32 ->
  exists M' x, memget M nbytes = Some (M', x)
    /\ match alloc_first (roundmb nbytes) l with
       | Some (a, l') => x = a /\ heap_rep M' l' /\ keeps l M M'
       | None => x = SYSERR /\ M' = M
       end.
Proof.
  intros H Hn Hmax. unfold memget. destruct (Z.eqb_spec nbytes 0); [lia|].
  destruct (roundmb_spec nbytes) as [H8 Hr]; [lia..|].
  pose proof (chain_head _ _ _ _ (hr_chain _ _ H)) as Hp.
  destruct (memget_scan_spec M [] l (heap_fuel M) (roundmb nbytes)) as (M' & x & E & Hres);
    [done|by apply heap_rep_fuel|done|lia|].
  exists M', x. split; [|done]. simpl get_next. by rewrite Hp.
Qed.

(** ** Free memory as a set of bytes *)

Lemma free_at_nil w : free_at [] w <-> False.
Proof. unfold free_at. split; [|done]. intros (?&?&H&_). set_solver. Qed.
Lemma free_at_cons a n l w : free_at ((a, n) :: l) w <-> a <= w < a + n \/ free_at l w.
Proof.
  unfold free_at. split.
  - intros (b & m & Hin & Hw). apply elem_of_cons in Hin as [[= -> ->]|Hin]; [by left|right; eauto].
  - intros [Hw|(b & m & Hin & Hw)]; [exists a, n | exists b, m]; (split; [set_solver|done]).
Qed.
Lemma free_at_app l1 l2 w : free_at (l1 ++ l2) w <-> free_at l1 w \/ free_at l2 w.
Proof.
  induction l1 as [|[a n] l1 IH]; simpl; rewrite ?free_at_nil, ?free_at_cons, ?IH; tauto.
Qed.

Lemma free_at_bounds lo hi l w : wf_free lo hi l -> free_at l w -> lo < w < hi.
Proof. intros H (a & n & Hin & Hw). eapply wf_free_in in Hin; [|done]. lia. Qed.

Lemma alloc_first_free lo hi n l a l' :
  0 < n -> wf_free lo hi l -> alloc_first n l = Some (a, l') ->
  (8 | a) /\ (forall w, a <= w < a + n -> free_at l w)
  /\ (forall w, free_at l' w <-> free_at l w /\ ~ a <= w < a + n)
  /\ total l' = total l - n.
Proof.
  intros Hn. revert lo a l'. induction l as [|[b len] l IH]; intros lo a l' Hw; simpl; [done|].
  simpl in Hw. destruct Hw as (Hlo & Hlen & H8a & H8n & Hhi & Hw).
  assert (Hrest : forall w, free_at l w -> b + len < w).
  { intros w Hf. apply (free_at_bounds _ _ _ _ Hw) in Hf. lia. }
  destruct (Z.eqb_spec len n) as [->|Hne].
  - intros [= -> ->]. setoid_rewrite free_at_cons. split_and!; try done.
    + intros w Hr. by left.
    + intros w. specialize (Hrest w). split; [intros Hf; split; [by right|]|intros [[?|?] ?]; done].
      apply Hrest in Hf. lia.
    + unfold total. simpl. lia.
  - destruct (Z.ltb_spec n len).
    + intros [= -> <-]. setoid_rewrite free_at_cons. split_and!; try done.
      * intros w Hr. left. lia.
      * intros w. specialize (Hrest w). split.
        -- intros [?|Hf]; [split; [left|]; lia|]. split; [by right|]. apply Hrest in Hf. lia.
        -- intros [[?|?] ?]; [left; lia|by right].
      * unfold total. simpl. lia.
    + destruct (alloc_first n l) as [[x r]|] eqn:E; simpl; [|done]. intros [= -> <-].
      destruct (IH _ _ _ Hw eq_refl) as (H1 & H2 & H3 & H4).
      setoid_rewrite free_at_cons. split_and!; try done.
      * intros w Hr. right. auto.
      * intros w. rewrite H3. split; [|tauto]. intros [Hb|?]; [|tauto].
        split; [by left|]. intros Hr. apply H2, Hrest in Hr. lia.
      * unfold total in *. simpl. lia.
Qed.

(** Well-formed lists that cover the same bytes are equal. *)
Lemma wf_free_canonical lo hi l1 l2 :
  wf_free lo hi l1 -> wf_free lo hi l2 -> (forall w, free_at l1 w <-> free_at l2 w) -> l1 = l2.
Proof.
  revert lo l2. induction l1 as [|[a n] l1 IH]; intros lo [|[b m] l2] H1 H2 Heq; [done| | |].
  - simpl in H2. exfalso. apply (free_at_nil b), Heq, free_at_cons. left. lia.
  - simpl in H1. exfalso. apply (free_at_nil a), Heq, free_at_cons. left. lia.
  - simpl in H1, H2. destruct H1 as (Hlo1 & Hn & _ & _ & _ & H1).
    destruct H2 as (Hlo2 & Hm & _ & _ & _ & H2).
    assert (Heq' : forall w, a <= w < a + n \/ free_at l1 w <-> b <= w < b + m \/ free_at l2 w).
    { intros w. by rewrite <- !free_at_cons. }
    assert (B1 : forall w, free_at l1 w -> a + n < w) by (intros w Hf; apply (free_at_bounds _ _ _ _ H1) in Hf; lia).
    assert (B2 : forall w, free_at l2 w -> b + m < w) by (intros w Hf; apply (free_at_bounds _ _ _ _ H2) in Hf; lia).
    assert (Hab : a = b).
    { destruct (proj1 (Heq' a)) as [?|Ha]; [left; lia| |];
        destruct (proj2 (Heq' b)) as [?|Hb]; try (left; lia); try lia;
        try apply B1 in Hb; try apply B2 in Ha; lia. }
    subst b.
    assert (Hnm : n = m).
    { destruct (decide (n < m)).
      - destruct (proj2 (Heq' (a + n))) as [?|Hc]; [left; lia|lia|apply B1 in Hc; lia].
      - destruct (decide (m < n)); [|lia].
        destruct (proj1 (Heq' (a + m))) as [?|Hc]; [left; lia|lia|apply B2 in Hc; lia]. }
    subst m. f_equal. eapply IH; [done..|]. intros w. specialize (Heq' w).
    split; intros Hf; [pose proof (B1 w Hf)|pose proof (B2 w Hf)];
      destruct Heq' as [E1 E2]; [destruct E1|destruct E2]; (done || lia || by right).
Qed.

(** ** Freeing *)

Lemma heap_rep_intro M M' l1 l2 l' v :
  heap_rep M (l1 ++ l2) -> memheap M' = memheap M -> maxaddr M' = maxaddr M ->
  chain M' (memlist_next M') l1 v -> chain M' v l' NULL ->
  wf_free (match last l1 with Some (a, n) => a + n | None => memheap M - 1 end) (maxaddr M) l' ->
  memlist_length M' = u32 (memlist_length M + (total l' - total l2)) ->
  heap_rep M' (l1 ++ l').
Proof.
  intros [Hc Hw Ht Hh Hal Hm] E1 E2 Hc1 Hc2 Hw' Hd.
  apply wf_free_app in Hw as [Hw1 Hw2].
  assert (Hwf : wf_free (memheap M - 1) (maxaddr M) (l1 ++ l')) by (by apply wf_free_app).
  split; rewrite ?E1, ?E2; try done.
  - apply chain_app. eauto.
  - pose proof (wf_free_total_le _ _ _ Hwf ltac:(lia)). pose proof (wf_free_total _ _ _ Hwf).
    rewrite Hd, Ht. rewrite !total_app in *. rewrite u32_id; unfold is_u32; lia.
Qed.

Definition headptr l : Z := match l with (a, _) :: _ => a | [] => NULL end.
Definition endof (lo : Z) l : Z := match last l with Some (a, n) => a + n | None => lo end.

Lemma memfree_scan_spec M l1 l2 fuel block :
  heap_rep M (l1 ++ l2) -> (length l2 < fuel)%nat -> 0 < block ->
  exists la lb, l2 = la ++ lb
    /\ memfree_scan fuel M (lastptr l1) (headptr l2) block
       = Some (lastptr (l1 ++ la), headptr lb)
    /\ Forall (fun b => b.1 < block) la
    /\ match lb with (a, _) :: _ => block <= a | [] => True end.
Proof.
  revert l1 fuel. induction l2 as [|[a n] l2 IH]; intros l1 fuel H Hf Hb;
    (destruct fuel as [|fuel]; [simpl in Hf; lia|]); simpl memfree_scan.
  { exists [], []. by rewrite (app_nil_r l1). }
  pose proof (hr_chain _ _ H) as Hc. apply chain_app in Hc as (r & _ & Hc2).
  simpl in Hc2. destruct Hc2 as (-> & Ha & Hlen & Hc2). unfold headptr at 1.
  destruct (Z.eqb_spec a NULL); [done|]. simpl negb. rewrite andb_true_l.
  destruct (Z.ltb_spec a block).
  - pose proof (chain_head _ _ _ _ Hc2) as Hp. fold (headptr l2) in Hp. simpl get_next. rewrite Hp.
    destruct (IH (l1 ++ [(a, n)]) fuel) as (la & lb & -> & E & HF & Hh);
      [by rewrite <- app_assoc|simpl in Hf; lia|done|].
    rewrite lastptr_snoc in E. rewrite <- app_assoc in E.
    exists ((a, n) :: la), lb. split_and!; try done. by constructor.
  - exists [], ((a, n) :: l2). rewrite (app_nil_r l1). done.
Qed.

(** A freed region as a block in front of [l2], joined with the first block of
    [l2] when they touch. *)
Definition join_next (a n : Z) l2 : list (Z * Z) :=
  match l2 with
  | (c, k) :: l2' => if a + n =? c then (a, n + k) :: l2' else (a, n) :: l2
  | [] => [(a, n)]
  end.

Lemma join_next_total a n l2 : total (join_next a n l2) = n + total l2.
Proof.
  unfold join_next. destruct l2 as [|[c k] l2]; [done|].
  destruct (Z.eqb_spec (a + n) c); unfold total; simpl; lia.
Qed.

Lemma join_next_free a n l2 w lo hi : wf_free lo hi l2 -> 0 < n ->
  free_at (join_next a n l2) w <-> a <= w < a + n \/ free_at l2 w.
Proof.
  intros Hw Hn. unfold join_next. destruct l2 as [|[c k] l2]; rewrite ?free_at_cons; [done|].
  simpl in Hw. destruct (Z.eqb_spec (a + n) c); rewrite !free_at_cons; [|done].
  subst. intuition lia.
Qed.

Lemma join_next_wf lo hi a n l2 :
  lo < a -> 0 < n -> (8 | a) -> (8 | n) -> a + n <= hi ->
  wf_free lo hi l2 -> match l2 with (c, _) :: _ => a + n <= c | [] => True end ->
  wf_free lo hi (join_next a n l2).
Proof.
  intros H1 H2 H3 H4 H5 Hw Hc. unfold join_next. destruct l2 as [|[c k] l2]; simpl; [done|].
  simpl in Hw. destruct Hw as (? & ? & ? & ? & ? & Hw).
  destruct (Z.eqb_spec (a + n) c); simpl.
  - subst c. replace (a + (n + k)) with (a + n + k) by lia.
    split_and!; try done; try lia. by apply Z.divide_add_r.
  - split_and!; try done; lia.
Qed.

(** The code that joins block [x] with the next one. *)
Definition merge_next M1 (x next : Z) : memory :=
  if u32 (x + get_length M1 (Blk x)) =? next then
    let M2 := put_length M1 (Blk x) (u32 (get_length M1 (Blk x) + get_length M1 (Blk next))) in
    put_next M2 (Blk x) (get_next M2 (Blk next))
  else M1.

Lemma merge_next_spec M1 x n l2 hi :
  0 < x -> 8 <= n -> hi < 2 ^ 32 -> ld M1 (x + 4) = n -> ld M1 x = headptr l2 ->
  chain M1 (headptr l2) l2 NULL -> wf_free (x + n - 1) hi l2 -> x + n <= hi ->
  chain (merge_next M1 x (headptr l2)) x (join_next x n l2) NULL
  /\ (forall w, w <> x -> w <> x + 4 -> ld (merge_next M1 x (headptr l2)) w = ld M1 w)
  /\ memlist_next (merge_next M1 x (headptr l2)) = memlist_next M1
  /\ memlist_length (merge_next M1 x (headptr l2)) = memlist_length M1
  /\ memheap (merge_next M1 x (headptr l2)) = memheap M1
  /\ maxaddr (merge_next M1 x (headptr l2)) = maxaddr M1.
Proof.
  intros Hx Hn Hhi E4 E0 Hc Hw Hend. unfold merge_next. simpl get_length. rewrite E4.
  rewrite u32_id by (unfold is_u32; lia). unfold join_next.
  destruct l2 as [|[c k] l2]; simpl headptr in *.
  { unfold NULL in *. destruct (Z.eqb_spec (x + n) 0); [lia|].
    split_and!; try done. simpl. unfold NULL. split_and!; try done. lia. }
  simpl in Hc. destruct Hc as (_ & Hc0 & Hk & Hc). simpl in Hw.
  destruct Hw as (Hlo & Hk0 & _ & _ & Hck & Hw).
  destruct (Z.eqb_spec (x + n) c) as [<-|Hne].
  - rewrite Hk, (u32_id (n + k)) by (unfold is_u32; lia).
    split_and!; try done.
    + simpl. unfold NULL. rewrite (ld_st_ne M1 (x + 4)) by lia.
      rewrite (ld_st_ne _ x) by lia. rewrite (ld_st M1 (x + 4)), decide_True by done.
      split_and!; [done|lia|done|]. rewrite (ld_st _ x _ x), decide_True by done.
      eapply chain_frame; [|done]. intros b m Hb. eapply wf_free_in in Hb; [|done].
      rewrite !ld_st_ne by lia. done.
    + intros w Hw1 Hw2. simpl. rewrite !ld_st_ne by lia. done.
  - split_and!; try done. simpl. unfold NULL in *. split_and!; try done; try lia.
Qed.

Lemma endof_bound lo hi l : wf_free lo hi l -> lo <= hi -> lo <= endof lo l <= hi.
Proof.
  intros H Hle. unfold endof. destruct (last l) as [[a n]|] eqn:E; [|lia].
  apply last_Some in E as [l' ->]. eapply (wf_free_in _ _ _ a n) in H; [lia|set_solver].
Qed.

Lemma free_at_before lo hi l w : wf_free lo hi l -> free_at l w -> w < endof lo l.
Proof.
  intros Hw (a & n & Hin & Hr). unfold endof.
  destruct l as [|[b m] l _] using rev_ind; [set_solver|]. rewrite last_snoc.
  apply elem_of_app in Hin as [Hin|Hin].
  - destruct (wf_free_apart _ _ l b m [] a n Hw) as (Hap & ? & ?); [by left|].
    apply wf_free_app in Hw as [Hw1 Hw2].
    apply list_elem_of_split in Hin as (k1 & k2 & ->).
    assert (a < b).
    { rewrite last_app in Hw2. apply wf_free_app in Hw1 as [_ Hw1]. simpl in Hw1, Hw2.
      destruct Hw1 as (_ & _ & _ & _ & _ & Hw1).
      destruct (last ((a, n) :: k2)) as [[c d]|] eqn:E; [|by apply last_None in E].
      destruct k2 as [|e k2 _] using rev_ind; [injection E as <- <-; lia|].
      rewrite last_cons, last_snoc in E. injection E as ->.
      eapply (wf_free_in _ _ _ c d) in Hw1; [lia|set_solver]. }
    lia.
  - apply list_elem_of_singleton in Hin as [= -> ->]. lia.
Qed.

(** Freeing in the gap between [l1] and [l2]: the two ways the code links the
    region in. *)
Lemma heap_free_after M l1 p m l2 n :
  heap_rep M ((l1 ++ [(p, m)]) ++ l2) -> (8 | n) -> 0 < n -> p + m + n <= maxaddr M ->
  match l2 with (c, _) :: _ => p + m + n <= c | [] => True end ->
  heap_rep (merge_next (put_length (put_length M Memlist (u32 (memlist_length M + n)))
              (Blk p) (u32 (m + n))) p (headptr l2)) (l1 ++ join_next p (m + n) l2).
Proof.
  intros H H8 Hn Hend Hnext. pose proof H as [Hc Hw Ht Hh Hal Hmax].
  rewrite <- app_assoc in *. simpl in *.
  apply chain_app in Hc as (r & Hc1 & Hc2). simpl in Hc2. destruct Hc2 as (-> & Hp0 & Hm & Hc2).
  pose proof (chain_head _ _ _ _ Hc2) as Hhead. fold (headptr l2) in Hhead.
  pose proof Hw as Hwa. apply wf_free_app in Hw as [Hw1 Hw2]. simpl in Hw2.
  destruct Hw2 as (Hlo & Hm0 & Hp8 & Hm8 & Hpe & Hw2). pose proof (div8_lower _ Hm8 Hm0).
  assert (Hw2' : wf_free (p + (m + n) - 1) (maxaddr M) l2).
  { destruct l2 as [|[c k] l2]; [done|]. simpl in *. intuition lia. }
  assert (Hp : memheap M - 1 < p) by (eapply (wf_free_in _ _ _ p m) in Hwa; [lia|set_solver]).
  rewrite (u32_id (m + n)) by (unfold is_u32; lia).
  set (M1 := st _ (p + 4) (m + n)).
  assert (Hl2 : chain M1 (headptr l2) l2 NULL).
  { rewrite <- Hhead. eapply chain_frame; [|done]. intros b k Hb.
    eapply wf_free_in in Hb; [|done]. unfold M1. rewrite !ld_st_ne by lia. done. }
  destruct (merge_next_spec M1 p (m + n) l2 (maxaddr M)) as (E1 & E2 & E3 & E4 & E5 & E6);
    try done; try lia.
  { unfold M1. rewrite ld_st. by cases. }
  { unfold M1. rewrite ld_st_ne by lia. done. }
  eapply (heap_rep_intro M _ l1 ((p, m) :: l2) _ p); try done.
  - rewrite E3. eapply chain_frame; [|done]. intros b k Hb.
    destruct (wf_free_apart _ _ l1 p m l2 b k Hwa (or_introl Hb)) as (? & ? & ?).
    rewrite !E2 by lia. unfold M1. rewrite !ld_st_ne by lia. done.
  - apply join_next_wf; try done; try lia; [by apply Z.divide_add_r| |].
    + eapply wf_free_weaken; [|done]. lia.
    + destruct l2 as [|[c k] l2]; [done|]. lia.
  - rewrite E4, join_next_total. simpl. f_equal. unfold total. simpl. lia.
Qed.

Lemma heap_free_new M l1 a l2 n :
  heap_rep M (l1 ++ l2) -> (8 | a) -> (8 | n) -> 0 < n -> a + n <= maxaddr M ->
  endof (memheap M - 1) l1 < a ->
  match l2 with (c, _) :: _ => a + n <= c | [] => True end ->
  heap_rep (merge_next (put_next
     (st (st (put_length M Memlist (u32 (memlist_length M + n))) a (headptr l2)) (a + 4) n)
     (lastptr l1) a) a (headptr l2)) (l1 ++ join_next a n l2).
Proof.
  intros H Ha8 H8 Hn Hend Hlo Hnext. pose proof H as [Hc Hw Ht Hh Hal Hmax].
  pose proof Hw as Hwa. apply wf_free_app in Hw as [Hw1 Hw2].
  pose proof (endof_bound _ _ _ Hw1 ltac:(lia)) as Hb1. pose proof (div8_lower _ H8 Hn) as H8n.
  apply chain_app in Hc as (r & Hc1 & Hc2).
  pose proof (chain_head _ _ _ _ Hc2) as Hhead. fold (headptr l2) in Hhead. subst r.
  assert (Hl1 : forall b k, (b, k) ∈ l1 -> b + k < a /\ 8 <= k).
  { intros b k Hb. pose proof (wf_free_in _ _ _ _ _ Hw1 Hb) as (? & Hk & ? & Hk8 & ?).
    apply div8_lower in Hk8; [|done].
    pose proof (free_at_before _ _ _ (b + k - 1) Hw1 ltac:(exists b, k; split; [done|lia])). lia. }
  assert (Hl2 : forall b k, (b, k) ∈ l2 -> a + n <= b).
  { intros b k Hb. destruct l2 as [|[c d] l2]; [set_solver|]. simpl in Hw2.
    apply elem_of_cons in Hb as [[= -> ->]|Hb]; [done|].
    eapply wf_free_in in Hb; [|apply Hw2]. lia. }
  set (M0 := st (st _ a (headptr l2)) (a + 4) n). set (M1 := put_next M0 (lastptr l1) a).
  assert (F0 : forall w, w <> a -> w <> a + 4 -> ld M0 w = ld M w).
  { intros w ??. unfold M0. rewrite !ld_st_ne by lia. done. }
  assert (F1 : forall w, (forall b k, (b, k) ∈ l1 -> w <> b) -> ld M1 w = ld M0 w)
    by (intros; by apply ld_put_next_keeps).
  assert (Hl1' : chain M1 (memlist_next M1) l1 a).
  { eapply chain_put_next; [done|]. eapply chain_frame; [|exact Hc1].
    intros b k Hb. apply Hl1 in Hb. rewrite !F0 by lia. done. }
  assert (Hl2' : chain M1 (headptr l2) l2 NULL).
  { eapply chain_frame; [|done]. intros b k Hb. pose proof (Hl2 _ _ Hb).
    rewrite !F1, !F0 by (first [lia | intros ?? Hin; apply Hl1 in Hin; lia]). done. }
  destruct (merge_next_spec M1 a n l2 (maxaddr M)) as (E1 & E2 & E3 & E4 & E5 & E6); try done; try lia.
  { rewrite F1 by (intros ?? Hin; apply Hl1 in Hin; lia). unfold M0. rewrite ld_st. by cases. }
  { rewrite F1 by (intros ?? Hin; apply Hl1 in Hin; lia). unfold M0.
    rewrite ld_st_ne, ld_st by lia. by cases. }
  { destruct l2 as [|[c d] l2]; [done|]. simpl in *. intuition lia. }
  destruct (put_next_globals M0 (lastptr l1) a) as (G1 & G2 & G3).
  eapply (heap_rep_intro M _ l1 l2 _ a); try done.
  - rewrite E5. exact G1.
  - rewrite E6. exact G2.
  - rewrite E3. eapply chain_frame; [|done]. intros b k Hb. apply Hl1 in Hb.
    rewrite !E2 by lia. done.
  - apply join_next_wf; done.
  - rewrite E4, join_next_total. unfold M1. rewrite G3. simpl. f_equal. lia.
Qed.

(** The region of [n] bytes at [a] overlaps the blocks around it. *)
Definition overlap (top : Z) l2 (a n : Z) : bool :=
  (a <? top) || (negb (headptr l2 =? NULL) && (headptr l2 <? a + n)).
Definition topof l1 : Z := endof NULL l1.

(** What the code does with a region that overlaps no block. *)
Definition link_free M l1 l2 (a n : Z) : memory :=
  let M0 := put_length M Memlist (u32 (memlist_length M + n)) in
  if topof l1 =? a then
    merge_next (put_length M0 (lastptr l1) (u32 (get_length M0 (lastptr l1) + n)))
      (match lastptr l1 with Memlist => NULL | Blk p => p end) (headptr l2)
  else merge_next (put_next (st (st M0 a (headptr l2)) (a + 4) n) (lastptr l1) a) a (headptr l2).

Lemma topof_ptr M l1 l2 : heap_rep M (l1 ++ l2) ->
  match lastptr l1 with Memlist => NULL | Blk p => u32 (p + get_length M (lastptr l1)) end = topof l1.
Proof.
  intros H. destruct l1 as [|[p m] l1 _] using rev_ind; [done|].
  unfold topof, endof. rewrite lastptr_snoc, last_snoc. pose proof (hr_chain _ _ H) as Hc.
  rewrite <- app_assoc in Hc. apply chain_app in Hc as (r & _ & Hc). simpl in *.
  destruct Hc as (_ & _ & -> & _). pose proof (hr_max _ _ H). pose proof (hr_heap _ _ H).
  pose proof (wf_free_in _ _ _ p m (hr_wf _ _ H) ltac:(set_solver)).
  apply u32_id. unfold is_u32. lia.
Qed.

Lemma memfree_steps M l a nb :
  heap_rep M l -> memheap M <= a -> 0 < nb -> nb + 7 < 2 ^ 32 -> a + roundmb nb <= maxaddr M ->
  exists l1 l2, l = l1 ++ l2 /\ Forall (fun b => b.1 < a) l1
    /\ match l2 with (c, _) :: _ => a <= c | [] => True end
    /\ memfree M a nb = if overlap (topof l1) l2 a (roundmb nb) then Some (M, SYSERR)
                        else Some (link_free M l1 l2 a (roundmb nb), OK).
Proof.
  intros H Ha Hnb Hmax Hend. pose proof (hr_heap _ _ H) as Hh. pose proof (hr_max _ _ H) as Hm.
  destruct (roundmb_spec nb) as [_ Hr]; [lia..|]. unfold memfree.
  destruct (Z.eqb_spec nb 0) as [|Hnz], (Z.ltb_spec a (memheap M)), (Z.ltb_spec (maxaddr M) a);
    try lia.
  cbv zeta iota. simpl orb. cbv iota.
  destruct (memfree_scan_spec M [] l (heap_fuel M) a H (heap_rep_fuel _ _ H))
    as (l1 & l2 & -> & Escan & HF & Hhd); [lia|].
  pose proof (chain_head _ _ _ _ (hr_chain _ _ H)) as Hp. fold (headptr (l1 ++ l2)) in Hp.
  change (lastptr []) with Memlist in Escan. simpl app in Escan.
  exists l1, l2. split_and!; try done.
  cbn [get_next]. rewrite Hp, Escan. cbn [mbind option_bind].
  rewrite (topof_ptr _ _ _ H), (u32_id (a + roundmb nb)) by (unfold is_u32; lia).
  unfold overlap, link_free. destruct (_ || _); [done|].
  destruct (topof l1 =? a) eqn:E; cbn zeta; [|done].
  destruct (lastptr l1) eqn:El; [|done]. exfalso. btests.
  destruct l1 as [|[p m] l1 _] using rev_ind; [unfold topof, endof, NULL in E; simpl in E; lia|].
  by rewrite lastptr_snoc in El.
Qed.

Lemma link_free_spec M l1 l2 a n :
  heap_rep M (l1 ++ l2) -> memheap M <= a -> (8 | a) -> (8 | n) -> 0 < n -> a + n <= maxaddr M ->
  topof l1 <= a -> match l2 with (c, _) :: _ => a + n <= c | [] => True end ->
  exists l', heap_rep (link_free M l1 l2 a n) l'
    /\ (forall w, free_at l' w <-> free_at (l1 ++ l2) w \/ a <= w < a + n)
    /\ total l' = total (l1 ++ l2) + n.
Proof.
  intros H Ha Ha8 Hn8 Hn Hend Htop Hnext. pose proof (hr_heap _ _ H) as Hh.
  pose proof (hr_wf _ _ H) as Hw. apply wf_free_app in Hw as [_ Hw2]. unfold link_free.
  destruct (Z.eqb_spec (topof l1) a) as [Heq|Hne].
  - destruct l1 as [|[p m] l1 _] using rev_ind; [unfold topof, endof, NULL in Heq; simpl in Heq; lia|].
    unfold topof, endof in Heq. rewrite last_snoc in Heq. subst a. rewrite lastptr_snoc.
    exists (l1 ++ join_next p (m + n) l2).
    pose proof (hr_chain _ _ H) as Hc. rewrite <- app_assoc in Hc. simpl in Hc.
    apply chain_app in Hc as (r & _ & Hc). simpl in Hc. destruct Hc as (_ & _ & Hlen & _).
    pose proof (wf_free_in _ _ _ p m (hr_wf _ _ H) ltac:(set_solver)).
    split_and!.
    + cbv zeta. set (M0 := put_length M Memlist (u32 (memlist_length M + n))).
      change (get_length M0 (Blk p)) with (ld M (p + 4)).
      rewrite Hlen. by apply heap_free_after.
    + intros w. rewrite !free_at_app, (join_next_free _ _ _ _ _ _ Hw2), free_at_cons, free_at_nil by lia.
      intuition lia.
    + rewrite !total_app, join_next_total. unfold total. simpl. lia.
  - exists (l1 ++ join_next a n l2). split_and!.
    + apply heap_free_new; try done. unfold topof, endof in *. destruct (last l1) as [[??]|]; lia.
    + intros w. rewrite !free_at_app, (join_next_free _ _ _ _ _ _ Hw2) by lia. tauto.
    + rewrite !total_app, join_next_total. lia.
Qed.

(** No byte of a region is free exactly when the region overlaps no block. *)
Lemma overlap_spec M l1 l2 a n :
  heap_rep M (l1 ++ l2) -> 0 < a -> 0 < n -> Forall (fun b => b.1 < a) l1 ->
  match l2 with (c, _) :: _ => a <= c | [] => True end ->
  if overlap (topof l1) l2 a n then exists w, a <= w < a + n /\ free_at (l1 ++ l2) w
  else topof l1 <= a /\ match l2 with (c, _) :: _ => a + n <= c | [] => True end
       /\ forall w, a <= w < a + n -> ~ free_at (l1 ++ l2) w.
Proof.
  intros H Ha Hn HF Hhd. pose proof (hr_wf _ _ H) as Hw. pose proof (hr_heap _ _ H) as Hh.
  unfold overlap. destruct (Z.ltb_spec a (topof l1)) as [Hlt|Hge]; simpl.
  { exists a. split; [lia|]. destruct l1 as [|[p m] l1 _] using rev_ind.
    { unfold topof, endof, NULL in Hlt. simpl in Hlt. lia. }
    unfold topof, endof in Hlt. rewrite last_snoc in Hlt.
    rewrite Forall_app, Forall_singleton in HF. simpl in HF.
    rewrite !free_at_app, free_at_cons. left. right. left. lia. }
  destruct (_ && _) eqn:E.
  { btests. destruct l2 as [|[c k] l2]; [done|]. simpl in *. exists c.
    pose proof (wf_free_in _ _ _ c k Hw ltac:(set_solver)).
    rewrite free_at_app, free_at_cons. split; [lia|]. right. left. lia. }
  apply wf_free_app in Hw as [Hw1 Hw2].
  assert (Hc : match l2 with (c, _) :: _ => a + n <= c | [] => True end).
  { destruct l2 as [|[c k] l2]; [done|]. simpl in *. apply andb_false_iff in E.
    pose proof (hr_heap _ _ H). destruct E as [E|E]; btests; [|done].
    pose proof (wf_free_in _ _ _ c k (hr_wf _ _ H) ltac:(set_solver)). unfold NULL in *. lia. }
  split_and!; [done..|]. intros w Hr. rewrite free_at_app. intros [Hf|(b & k & Hb & Hwr)].
  - destruct l1 as [|[p m] l1 _] using rev_ind; [by apply free_at_nil in Hf|].
    apply (free_at_before _ _ _ _ Hw1) in Hf. unfold topof, endof in *. rewrite last_snoc in *. lia.
  - destruct l2 as [|[c d] l2]; [set_solver|]. simpl in Hw2.
    apply elem_of_cons in Hb as [[= -> ->]|Hb]; [lia|].
    eapply wf_free_in in Hb; [|apply Hw2]. lia.
Qed.

Lemma memfree_spec M l a nb :
  heap_rep M l -> memheap M <= a -> (8 | a) -> 0 < nb -> nb + 7 < 2 ^ 32 ->
  a + roundmb nb <= maxaddr M ->
  (memfree M a nb = Some (M, SYSERR) /\ exists w, a <= w < a + roundmb nb /\ free_at l w)
  \/ (exists M' l', memfree M a nb = Some (M', OK) /\ heap_rep M' l'
       /\ (forall w, a <= w < a + roundmb nb -> ~ free_at l w)
       /\ (forall w, free_at l' w <-> free_at l w \/ a <= w < a + roundmb nb)
       /\ total l' = total l + roundmb nb).
Proof.
  intros H Ha Ha8 Hnb Hmax Hend. pose proof (hr_heap _ _ H) as Hh.
  destruct (roundmb_spec nb) as [H8 Hr]; [lia..|].
  destruct (memfree_steps M l a nb) as (l1 & l2 & -> & HF & Hhd & E); try done.
  pose proof (overlap_spec M l1 l2 a (roundmb nb) H ltac:(lia) ltac:(lia) HF Hhd) as Hov.
  rewrite E. destruct (overlap _ _ _ _); [by left|]. right.
  destruct Hov as (Htop & Hnext & Hno).
  destruct (link_free_spec M l1 l2 a (roundmb nb)) as (l' & Hrep & Hfree & Htot); try done; [lia|].
  eauto 10.
Qed.

(** ** Stacks: the top of the last block that fits *)

Lemma stkget_scan_spec M l1 l2 fuel n fits fitsprev :
  heap_rep M (l1 ++ l2) -> (length l2 < fuel)%nat ->
  (Forall (fun b => b.2 < n) l2
   /\ stkget_scan fuel M (lastptr l1) (headptr l2) n fits fitsprev = Some (fits, fitsprev))
  \/ (exists la a len lb, l2 = la ++ (a, len) :: lb /\ n <= len /\ Forall (fun b => b.2 < n) lb
      /\ stkget_scan fuel M (lastptr l1) (headptr l2) n fits fitsprev
         = Some (a, Some (lastptr (l1 ++ la)))).
Proof.
  revert l1 fuel fits fitsprev. induction l2 as [|[a len] l2 IH]; intros l1 fuel fits fitsprev H Hf;
    (destruct fuel as [|fuel]; [simpl in Hf; lia|]); simpl stkget_scan; [by left|].
  pose proof (hr_chain _ _ H) as Hc. apply chain_app in Hc as (r & _ & Hc2).
  simpl in Hc2. destruct Hc2 as (-> & Ha & Hlen & Hc2).
  destruct (Z.eqb_spec a NULL); [done|]. rewrite Hlen.
  pose proof (chain_head _ _ _ _ Hc2) as Hp. fold (headptr l2) in Hp. rewrite Hp.
  assert (H' : heap_rep M ((l1 ++ [(a, len)]) ++ l2)) by (by rewrite <- app_assoc).
  rewrite <- (lastptr_snoc l1 a len). simpl in Hf.
  destruct (Z.leb_spec n len) as [Hle|Hgt].
  - right. destruct (IH _ fuel a (Some (lastptr l1)) H' ltac:(lia))
      as [[HF ->]|(la & b & m & lb & -> & Hm & HF & ->)].
    + exists [], a, len, l2. by rewrite (app_nil_r l1).
    + exists ((a, len) :: la), b, m, lb. rewrite <- app_assoc. done.
  - destruct (IH _ fuel fits fitsprev H' ltac:(lia))
      as [[HF ->]|(la & b & m & lb & -> & Hm & HF & ->)]; [left; by split; [constructor|]|].
    right. exists ((a, len) :: la), b, m, lb. rewrite <- app_assoc. done.
Qed.

(** The high end of the block behind [l1] is cut off. *)
Lemma heap_split_high M l1 a len l2 n :
  heap_rep M (l1 ++ (a, len) :: l2) -> (8 | n) -> 0 < n < len ->
  heap_rep (put_length (st M (a + 4) (len - n)) Memlist (u32 (memlist_length M - n)))
    (l1 ++ (a, len - n) :: l2).
Proof.
  intros H Hn8 Hn. pose proof (hr_wf _ _ H) as Hw. pose proof (hr_chain _ _ H) as Hc.
  apply chain_app in Hc as (r & Hc1 & Hc2). simpl in Hc2. destruct Hc2 as (-> & Ha & Hlen & Hc2).
  pose proof (wf_free_in _ _ _ a len Hw ltac:(set_solver)) as (_ & _ & _ & Hl8 & _).
  assert (Hl8' : (8 | len - n)) by (by apply Z.divide_sub_r).
  assert (Happ := fun b m => wf_free_apart _ _ l1 a len l2 b m Hw).
  set (M' := put_length _ _ _).
  assert (Hld : forall w, w <> a + 4 -> ld M' w = ld M w).
  { intros w ?. change (ld M' w) with (ld (st M (a + 4) (len - n)) w). by apply ld_st_ne. }
  eapply (heap_rep_intro M M' l1 ((a, len) :: l2) _ a); try done.
  - eapply chain_frame; [|done]. intros b m Hb. destruct (Happ b m (or_introl Hb)) as (? & ? & ?).
    rewrite !Hld by lia. done.
  - simpl. rewrite (Hld a) by lia. split_and!; [done..| |].
    + change (ld M' (a + 4)) with (ld (st M (a + 4) (len - n)) (a + 4)). rewrite ld_st. by cases.
    + eapply chain_frame; [|done]. intros b m Hb. destruct (Happ b m (or_intror Hb)) as (? & ? & ?).
      rewrite !Hld by lia. done.
  - apply wf_free_app in Hw as [_ Hw]. simpl in Hw |- *. destruct Hw as (? & ? & ? & ? & ? & Hw).
    split_and!; try done; try lia. eapply wf_free_weaken; [|done]. lia.
  - unfold M'. simpl. f_equal. unfold total. simpl. lia.
Qed.

(** A block of [len] bytes at [a] without its last [n] bytes. *)
Definition cut_high (a len n : Z) : list (Z * Z) := if n =? len then [] else [(a, len - n)].

Lemma stkget_spec M l nbytes :
  heap_rep M l -> 0 < nbytes -> nbytes + 7 < 2 ^ 32 ->
  (Forall (fun b => b.2 < roundmb nbytes) l /\ stkget M nbytes = Some (M, SYSERR))
  \/ (exists M' la a len lb, l = la ++ (a, len) :: lb /\ roundmb nbytes <= len
      /\ Forall (fun b => b.2 < roundmb nbytes) lb
      /\ stkget M nbytes = Some (M', a + len - 4)
      /\ heap_rep M' (la ++ cut_high a len (roundmb nbytes) ++ lb)).
Proof.
  intros H Hn Hmax. destruct (roundmb_spec nbytes) as [H8 Hr]; [lia..|].
  pose proof (hr_max _ _ H) as Hmx. pose proof (hr_heap _ _ H) as Hh.
  unfold stkget. destruct (Z.eqb_spec nbytes 0); [lia|]. cbv zeta.
  pose proof (chain_head _ _ _ _ (hr_chain _ _ H)) as Hp. fold (headptr l) in Hp.
  cbn [get_next]. rewrite Hp.
  pose proof (stkget_scan_spec M [] l (heap_fuel M) (roundmb nbytes) NULL None H
    (heap_rep_fuel _ _ H)) as Hscan.
  change (lastptr []) with Memlist in Hscan. destruct Hscan as [[HF ->]|(la & a & len & lb & -> & Hle & HF & ->)]; [by left|].
  right. cbn [mbind option_bind app].
  pose proof (wf_free_in _ _ _ a len (hr_wf _ _ H) ltac:(set_solver)) as (? & ? & Ha8 & ? & ?).
  apply div8_lower in Ha8; [|lia].
  pose proof (hr_chain _ _ H) as Hc. apply chain_app in Hc as (r & _ & Hc).
  simpl in Hc. destruct Hc as (_ & Ha & Hlen & _).
  destruct (Z.eqb_spec a NULL); [done|]. cbn [get_length get_next]. rewrite Hlen.
  unfold cut_high. destruct (Z.eqb_spec (roundmb nbytes) len) as [Heq|Hne].
  - cbn [mbind option_bind].
    destruct (put_next_globals M (lastptr la) (ld M a)) as (_ & _ & ->).
    eexists _, la, a, len, lb. split_and!; try done.
    + do 2 f_equal. rewrite u32_id; unfold is_u32; lia.
    + apply heap_remove in H. rewrite Heq, Z.eqb_refl. done.
  - cbn [mbind option_bind put_length]. rewrite (u32_id (len - roundmb nbytes)) by (unfold is_u32; lia).
    rewrite ld_st, decide_True by done.
    eexists _, la, a, len, lb. split_and!; try done.
    + do 2 f_equal. rewrite !u32_id; unfold is_u32; rewrite ?u32_id; unfold is_u32; lia.
    + destruct (Z.eqb_spec (roundmb nbytes) len); [done|].
      apply (heap_split_high M la a len lb (roundmb nbytes) H H8). lia.
Qed.

End facts.
