(* ===== verification/HeapClient.v ===== *)
(** * The kernel heap as its clients see it

    Any sequence of allocations and releases through [memget], [memfree],
    [stkget] and [stkfree], with clients that write their own regions, keeps
    the regions in use apart from each other and from the free list and loses
    no memory. *)

From S2P Require Import Prelude Memory MemorySpec.

(** ** Regions in use *)

Definition inside (r : Z * Z) (w : Z) : Prop := r.1 <= w < r.1 + r.2.
Definition apart (r1 r2 : Z * Z) : Prop := forall w, inside r1 w -> ~ inside r2 w.

(** The regions [live] are in use while the free list is [l]. *)
Record owned (M : memory) (l live : list (Z * Z)) : Prop := {
  ow_rep : heap_rep M l;
  ow_in : forall a n, (a, n) ∈ live -> memheap M <= a /\ a + n <= maxaddr M /\ (8 | a) /\ (8 | n) /\ 0 < n;
  ow_free : forall r w, r ∈ live -> inside r w -> ~ free_at l w;
  ow_apart : forall i j r1 r2, i <> j -> live !! i = Some r1 -> live !! j = Some r2 -> apart r1 r2;
}.

(** One call of a client.  [size] is the size the client passed; the region is
    the rounded one. *)
Inductive client_step : memory * list (Z * Z) -> memory * list (Z * Z) -> Prop :=
| do_memget M live size M' a :
    0 < size -> size + 7 < 2 ^ 32 -> memget M size = Some (M', a) ->
    client_step (M, live) (M', if a =? SYSERR then live else (a, roundmb size) :: live)
| do_stkget M live size M' a :
    0 < size -> size + 7 < 2 ^ 32 -> stkget M size = Some (M', a) ->
    client_step (M, live) (M', if a =? SYSERR then live
                               else (a + 4 - roundmb size, roundmb size) :: live)
| do_memfree M l1 a size l2 M' r :
    0 < size -> size + 7 < 2 ^ 32 -> memfree M a size = Some (M', r) ->
    client_step (M, l1 ++ (a, roundmb size) :: l2) (M', l1 ++ l2)
| do_stkfree M l1 a size l2 M' r :
    0 < size -> size + 7 < 2 ^ 32 -> stkfree M (a + roundmb size - 4) size = Some (M', r) ->
    client_step (M, l1 ++ (a, roundmb size) :: l2) (M', l1 ++ l2)
| do_write M live r w v :
    r ∈ live -> inside r w -> client_step (M, live) (st M w v, live).

(** ** Lemmas *)

Section facts.
Implicit Types (M : memory) (l live : list (Z * Z)).

Lemma roundmb_idem n : (8 | n) -> 0 <= n -> n + 7 < 2 ^ 32 -> roundmb n = n.
Proof.
  intros [k ->] H1 H2. destruct (roundmb_spec (k * 8)) as [[j Hj] Hr]; [lia..|]. lia.
Qed.

Lemma roundmb_small n : 0 < n -> n + 7 < 2 ^ 32 -> roundmb n + 7 < 2 ^ 32 + 7.
Proof.
  intros. destruct (roundmb_spec n) as [[k Hk] Hr]; [lia..|].
  pose proof (Z.pow_pos_nonneg 2 32). assert (2 ^ 32 = 8 * 2 ^ 29) by done. lia.
Qed.

(** [stkfree] of a region given back by its top word is [memfree] of the region. *)
Lemma stkfree_memfree M a size :
  0 < size -> roundmb size + 7 < 2 ^ 32 -> size + 7 < 2 ^ 32 -> is_u32 a ->
  stkfree M (a + roundmb size - 4) size = memfree M a (roundmb size).
Proof.
  intros H1 H2 H3 Ha. unfold stkfree. do 2 f_equal.
  replace (a + roundmb size - 4 - roundmb size + 4) with a by lia. by apply u32_id.
Qed.

Lemma owned_tail M l live r live1 : live = r :: live1 -> owned M l live -> owned M l live1.
Proof.
  intros -> [H1 H2 H3 H4]. split; [done| | |].
  - intros a n Hin. apply H2. by right.
  - intros r' w Hin. apply H3. by right.
  - intros i j r1 r2 Hij Hi Hj. apply (H4 (S i) (S j)); [lia|done..].
Qed.

(** A new region, taken from free memory. *)
Lemma owned_take M M' l l' live a n :
  owned M l live -> heap_rep M' l' -> memheap M' = memheap M -> maxaddr M' = maxaddr M ->
  memheap M <= a -> a + n <= maxaddr M -> (8 | a) -> (8 | n) -> 0 < n ->
  (forall w, a <= w < a + n -> free_at l w) ->
  (forall w, free_at l' w <-> free_at l w /\ ~ a <= w < a + n) ->
  owned M' l' ((a, n) :: live).
Proof.
  intros [H1 H2 H3 H4] Hrep E1 E2 ????? Hin Hout. split; [done| | |]; rewrite ?E1, ?E2.
  - intros b m Hb. apply elem_of_cons in Hb as [[= -> ->]|Hb]; [done|by apply H2].
  - intros r w Hr Hw. rewrite Hout. apply elem_of_cons in Hr as [->|Hr].
    + unfold inside in Hw. simpl in Hw. tauto.
    + intros [Hf _]. by apply (H3 r w Hr).
  - assert (Hnew : forall k r, live !! k = Some r -> apart (a, n) r /\ apart r (a, n)).
    { intros k r Hk. apply list_elem_of_lookup_2 in Hk.
      split; intros w Hw1 Hw2; eapply (H3 r w Hk); try done; apply Hin; done. }
    intros [|i] [|j] r1 r2 Hij Hi Hj; simpl in *; simplify_eq.
    + by apply Hnew in Hj as [? _].
    + by apply Hnew in Hi as [_ ?].
    + apply (H4 i j); [lia|done..].
Qed.

(** A region given back. *)
Lemma owned_give M M' l l' l1 a n l2 :
  owned M l (l1 ++ (a, n) :: l2) -> heap_rep M' l' -> memheap M' = memheap M -> maxaddr M' = maxaddr M ->
  (forall w, free_at l' w <-> free_at l w \/ a <= w < a + n) ->
  owned M' l' (l1 ++ l2).
Proof.
  intros [H1 H2 H3 H4] Hrep E1 E2 Hout.
  assert (Hidx : forall k r, (l1 ++ l2) !! k = Some r ->
     let k' := if decide (k < length l1)%nat then k else S k in
     (l1 ++ (a, n) :: l2) !! k' = Some r /\ k' <> length l1).
  { intros k r Hk. cases; simpl.
    - rewrite lookup_app_l in * by lia. split; [done|lia].
    - rewrite lookup_app_r in * by lia. split; [|lia].
      replace (S k - length l1)%nat with (S (k - length l1)) by lia. done. }
  assert (Hmid : (l1 ++ (a, n) :: l2) !! length l1 = Some (a, n)) by (by rewrite list_lookup_middle).
  split; [done| | |]; rewrite ?E1, ?E2.
  - intros b m Hb. apply H2. set_solver.
  - intros r w Hr Hw. rewrite Hout. intros [Hf|Hf].
    + apply (H3 r w); [set_solver|done..].
    + apply list_elem_of_lookup_1 in Hr as [k Hk]. apply Hidx in Hk as [Hk Hne].
      by apply (H4 _ _ _ _ Hne Hk Hmid w).
  - intros i j r1 r2 Hij Hi Hj. apply Hidx in Hi as [Hi _], Hj as [Hj _].
    eapply H4; [|done..]. cases; lia.
Qed.

Lemma heap_rep_write M l w v : heap_rep M l -> ~ free_at l w -> heap_rep (st M w v) l.
Proof.
  intros [Hc Hw Ht Hh Hal Hm] Hf. split; simpl; try done.
  eapply chain_frame; [|done]. intros a n Hin.
  pose proof (wf_free_in _ _ _ _ _ Hw Hin) as (? & ? & ? & H8 & ?). apply div8_lower in H8; [|done].
  rewrite !ld_st_ne; [done|intros ->; apply Hf; exists a, n; (split; [done|lia])..].
Qed.

(** The bounds of the heap never change. *)
Definition bounds M : Z * Z := (memheap M, maxaddr M).

Lemma bounds_put_next M p v : bounds (put_next M p v) = bounds M.
Proof. by destruct p. Qed.
Lemma memget_scan_bounds fuel M prev curr n M' x :
  memget_scan fuel M prev curr n = Some (M', x) -> bounds M' = bounds M.
Proof.
  revert curr prev. induction fuel as [|fuel IH]; intros curr prev; simpl; [done|].
  destruct (curr =? NULL); [by intros [= <- _]|].
  destruct (_ =? _); [intros [= <- _]; exact (bounds_put_next M prev _)|].
  destruct (_ <? _); [|apply IH]. intros [= <- _]. exact (bounds_put_next M prev _).
Qed.

Lemma memget_bounds M n M' x : memget M n = Some (M', x) -> bounds M' = bounds M.
Proof.
  unfold memget. destruct (n =? 0); [by intros [= <- _]|]. apply memget_scan_bounds.
Qed.

Lemma memfree_bounds M a n M' x : memfree M a n = Some (M', x) -> bounds M' = bounds M.
Proof.
  unfold memfree. destruct (_ || _ || _); [by intros [= <- _]|].
  destruct (memfree_scan _ _ _ _ _) as [[prev next]|]; [|done]. cbn [mbind option_bind].
  destruct (_ || _); [by intros [= <- _]|].
  destruct (_ =? a); cbv zeta iota; (destruct (_ =? next); intros [= <- _]; by destruct prev).
Qed.

Lemma stkget_bounds M n M' x : stkget M n = Some (M', x) -> bounds M' = bounds M.
Proof.
  unfold stkget. destruct (n =? 0); [by intros [= <- _]|]. cbv zeta.
  destruct (stkget_scan _ _ _ _ _ _ _) as [[fits fp]|]; [|done]. cbn [mbind option_bind].
  destruct (fits =? NULL); [by intros [= <- _]|].
  destruct (_ =? _); [destruct fp as [prev|]; [|done]|]; cbn [mbind option_bind]; intros [= <- _];
    [by destruct prev|done].
Qed.

Lemma bounds_eq M M' : bounds M' = bounds M -> memheap M' = memheap M /\ maxaddr M' = maxaddr M.
Proof. by intros [= -> ->]. Qed.

(** *** Every call keeps [owned] and the amount of memory *)

Definition conserved l live l' live' : Prop := total l' + total live' = total l + total live.

Lemma step_memget M l live size :
  owned M l live -> 0 < size -> size + 7 < 2 ^ 32 ->
  exists M' a l', memget M size = Some (M', a)
    /\ let live' := if a =? SYSERR then live else (a, roundmb size) :: live in
       owned M' l' live' /\ conserved l live l' live'.
Proof.
  intros H Hs Hmax. pose proof (ow_rep _ _ _ H) as Hrep.
  destruct (memget_spec M l size Hrep Hs Hmax) as (M' & x & E & Hres).
  destruct (bounds_eq _ _ (memget_bounds _ _ _ _ E)) as [B1 B2].
  destruct (roundmb_spec size) as [H8 Hr]; [lia..|].
  destruct (alloc_first _ _) as [[a l']|] eqn:Ea.
  - destruct Hres as (-> & Hrep' & _).
    destruct (alloc_first_free _ _ (roundmb size) _ _ _ ltac:(lia) (hr_wf _ _ Hrep) Ea) as (Ha8 & Hin & Hout & Htot).
    pose proof (free_at_bounds _ _ _ a (hr_wf _ _ Hrep) (Hin a ltac:(lia))) as Hlo.
    pose proof (free_at_bounds _ _ _ (a + roundmb size - 1) (hr_wf _ _ Hrep) (Hin (a + roundmb size - 1) ltac:(lia))) as Hhi.
    pose proof (hr_heap _ _ Hrep).
    exists M', a, l'. split; [done|]. cbv zeta.
    destruct (Z.eqb_spec a SYSERR); [unfold SYSERR in *; lia|]. split.
    + eapply owned_take; try done; lia.
    + unfold conserved, total in *. simpl. lia.
  - destruct Hres as [-> ->]. by exists M, SYSERR, l.
Qed.

Lemma step_memfree M l l1 a size l2 :
  owned M l (l1 ++ (a, roundmb size) :: l2) -> 0 < size -> size + 7 < 2 ^ 32 ->
  exists M' l', memfree M a size = Some (M', OK)
    /\ owned M' l' (l1 ++ l2) /\ conserved l (l1 ++ (a, roundmb size) :: l2) l' (l1 ++ l2).
Proof.
  intros H Hs Hmax. pose proof (ow_rep _ _ _ H) as Hrep.
  destruct (ow_in _ _ _ H a (roundmb size)) as (? & ? & ? & ? & ?); [set_solver|].
  destruct (memfree_spec M l a size) as [[_ (w & Hw & Hf)]|(M' & l' & E & Hrep' & _ & Hout & Htot)]; try done.
  { exfalso. eapply (ow_free _ _ _ H (a, roundmb size) w); [set_solver|done..]. }
  destruct (bounds_eq _ _ (memfree_bounds _ _ _ _ _ E)) as [B1 B2].
  exists M', l'. split_and!; [done|by eapply owned_give|].
  unfold conserved. rewrite !total_app, Htot. unfold total. simpl. lia.
Qed.

Lemma step_stkfree M l l1 a size l2 :
  owned M l (l1 ++ (a, roundmb size) :: l2) -> 0 < size -> size + 7 < 2 ^ 32 ->
  exists M' l', stkfree M (a + roundmb size - 4) size = Some (M', OK)
    /\ owned M' l' (l1 ++ l2) /\ conserved l (l1 ++ (a, roundmb size) :: l2) l' (l1 ++ l2).
Proof.
  intros H Hs Hmax. destruct (ow_in _ _ _ H a (roundmb size)) as (? & ? & Ha8 & ? & ?); [set_solver|].
  pose proof (hr_heap _ _ (ow_rep _ _ _ H)). pose proof (hr_max _ _ (ow_rep _ _ _ H)).
  pose proof (div8_lower _ Ha8 ltac:(lia)).
  assert (Hrr : roundmb (roundmb size) = roundmb size) by (apply roundmb_idem; [done|lia..]).
  rewrite stkfree_memfree by (unfold is_u32; lia).
  pose proof (step_memfree M l l1 a (roundmb size) l2) as Hfree. rewrite Hrr in Hfree.
  apply Hfree; [done|lia..].
Qed.

(** Exactly the bytes of the region [r] became free. *)
Definition gives_back (M M' : memory) (r : Z * Z) : Prop :=
  forall l, heap_rep M l -> exists l', heap_rep M' l' /\ forall w, free_at l' w <-> free_at l w \/ inside r w.

Lemma stkfree_gives_back M l l1 a size l2 M' :
  owned M l (l1 ++ (a, roundmb size) :: l2) -> 0 < size -> size + 7 < 2 ^ 32 ->
  stkfree M (a + roundmb size - 4) size = Some (M', OK) -> gives_back M M' (a, roundmb size).
Proof.
  intros H Hs Hmax E l0 Hrep. destruct (ow_in _ _ _ H a (roundmb size)) as (? & ? & Ha8 & ? & ?); [set_solver|].
  pose proof (hr_heap _ _ Hrep). pose proof (hr_max _ _ Hrep). pose proof (div8_lower _ Ha8 ltac:(lia)).
  assert (Hrr : roundmb (roundmb size) = roundmb size) by (apply roundmb_idem; [done|lia..]).
  rewrite stkfree_memfree in E by (unfold is_u32; lia).
  destruct (memfree_spec M l0 a (roundmb size)) as [[E' _]|(M1 & l' & E' & Hrep' & _ & Hw & _)]; [done..|lia|lia|by rewrite Hrr| |].
  - rewrite E in E'. done.
  - rewrite E in E'. injection E' as <-. exists l'. split; [done|]. intros w. rewrite Hw, Hrr. done.
Qed.

Lemma cut_high_free a len n w : 0 < n <= len ->
  free_at (cut_high a len n) w <-> a <= w < a + len /\ ~ a + len - n <= w < a + len.
Proof.
  intros Hn. unfold cut_high. destruct (Z.eqb_spec n len).
  - rewrite free_at_nil. lia.
  - rewrite free_at_cons, free_at_nil. lia.
Qed.

Lemma cut_high_total a len n : total (cut_high a len n) = len - n.
Proof. unfold cut_high. destruct (Z.eqb_spec n len); unfold total; simpl; lia. Qed.

Lemma step_stkget M l live size :
  owned M l live -> 0 < size -> size + 7 < 2 ^ 32 ->
  exists M' a l', stkget M size = Some (M', a)
    /\ let live' := if a =? SYSERR then live else (a + 4 - roundmb size, roundmb size) :: live in
       owned M' l' live' /\ conserved l live l' live'.
Proof.
  intros H Hs Hmax. pose proof (ow_rep _ _ _ H) as Hrep.
  destruct (roundmb_spec size) as [H8 Hr]; [lia..|].
  destruct (stkget_spec M l size Hrep Hs Hmax)
    as [[_ E]|(M' & la & a & len & lb & -> & Hle & _ & E & Hrep')]; [by exists M, SYSERR, l|].
  destruct (bounds_eq _ _ (stkget_bounds _ _ _ _ E)) as [B1 B2].
  pose proof (wf_free_in _ _ _ a len (hr_wf _ _ Hrep) ltac:(set_solver)) as (? & ? & Ha8 & Hl8 & ?).
  pose proof (hr_heap _ _ Hrep). exists M', (a + len - 4), (la ++ cut_high a len (roundmb size) ++ lb).
  split; [done|]. cbv zeta. destruct (Z.eqb_spec (a + len - 4) SYSERR).
  { apply div8_lower in Hl8; [|done]. unfold SYSERR in *. lia. }
  replace (a + len - 4 + 4 - roundmb size) with (a + len - roundmb size) by lia. split.
  - eapply owned_take; try done; try lia.
    + apply Z.divide_sub_r; [by apply Z.divide_add_r|done].
    + intros w Hw. rewrite free_at_app, free_at_cons. right. left. lia.
    + intros w. rewrite !free_at_app, cut_high_free, free_at_cons by lia.
      pose proof (hr_wf _ _ Hrep) as Hw.
      assert (Hap : forall r, r ∈ la \/ r ∈ lb -> ~ (inside r w /\ inside (a, len) w)).
      { intros [b m] Hb [Hb1 Hb2]. unfold inside in *. simpl in *.
        destruct (wf_free_apart _ _ la a len lb b m Hw Hb) as (? & ? & ?). lia. }
      assert (Hla : free_at la w -> ~ a <= w < a + len).
      { intros (b & m & Hb & Hwb) ?. apply (Hap (b, m)); [by left|done]. }
      assert (Hlb : free_at lb w -> ~ a <= w < a + len).
      { intros (b & m & Hb & Hwb) ?. apply (Hap (b, m)); [by right|done]. }
      intuition lia.
  - unfold conserved. rewrite !total_app, cut_high_total. unfold total. simpl. lia.
Qed.

End facts.

(** ** Properties *)

(** C15: [memget] is first fit.  On a well-formed heap it returns the address the
    abstract first-fit allocator chooses (a block of exactly the rounded size is
    unlinked, a larger one is cut at its low end), the free list in memory is
    then the abstract one, no word outside the free blocks is written, and when
    no block is large enough the answer is SYSERR and nothing is changed. *)
Theorem memget_first_fit M l nbytes :
  heap_rep M l -> 0 < nbytes -> nbytes + 7 < 2 ^ 32 ->
  exists M' x, memget M nbytes = Some (M', x) /\ bounds M' = bounds M
    /\ match alloc_first (roundmb nbytes) l with
       | Some (a, l') => x = a /\ heap_rep M' l' /\ keeps l M M'
       | None => x = SYSERR /\ M' = M
       end.
Proof.
  intros H Hn Hmax. destruct (memget_spec M l nbytes H Hn Hmax) as (M' & x & E & Hres).
  exists M', x. split_and!; [done|by eapply memget_bounds|done].
Qed.

(** [memget] followed by [memfree] of the same size restores the free list,
    whatever blocks it was made of: the freed region is joined again with the
    neighbours it was cut from. *)
Theorem memget_memfree_roundtrip M l nbytes M' a :
  heap_rep M l -> 0 < nbytes -> nbytes + 7 < 2 ^ 32 ->
  memget M nbytes = Some (M', a) -> a <> SYSERR ->
  exists M'', memfree M' a nbytes = Some (M'', OK) /\ heap_rep M'' l.
Proof.
  intros H Hn Hmax E Ha. destruct (roundmb_spec nbytes) as [H8 Hr]; [lia..|].
  destruct (memget_spec M l nbytes H Hn Hmax) as (M1 & x & E1 & Hres).
  rewrite E in E1. injection E1 as <- <-.
  destruct (alloc_first _ _) as [[b l']|] eqn:Ea; [|by destruct Hres].
  destruct Hres as (<- & Hrep & _). destruct (bounds_eq _ _ (memget_bounds _ _ _ _ E)) as [B1 B2].
  destruct (alloc_first_free _ _ (roundmb nbytes) _ _ _ ltac:(lia) (hr_wf _ _ H) Ea)
    as (Ha8 & Hin & Hout & _).
  pose proof (free_at_bounds _ _ _ a (hr_wf _ _ H) (Hin a ltac:(lia))) as Hlo.
  pose proof (free_at_bounds _ _ _ (a + roundmb nbytes - 1) (hr_wf _ _ H)
    (Hin (a + roundmb nbytes - 1) ltac:(lia))) as Hhi.
  destruct (memfree_spec M' l' a nbytes) as [[_ (w & Hw & Hf)]|(M2 & l2 & E2 & Hrep2 & _ & Hout2 & _)];
    try done; try lia.
  { exfalso. apply Hout in Hf. tauto. }
  exists M2. split; [done|]. destruct (bounds_eq _ _ (memfree_bounds _ _ _ _ _ E2)) as [C1 C2].
  assert (l2 = l) as <-; [|done]. pose proof (hr_wf _ _ Hrep2) as Hw2.
  rewrite C1, B1, C2, B2 in Hw2. eapply wf_free_canonical; [done|by eapply hr_wf|].
  intros w. rewrite Hout2, Hout. specialize (Hin w). destruct (decide (a <= w < a + roundmb nbytes)); tauto.
Qed.

(** C16: [memfree] of a region that lies in the heap.  If a byte of it is free
    already the call changes nothing and returns SYSERR; otherwise it returns OK
    and exactly the bytes of the region become free, in a list that is still
    sorted, with no two blocks adjacent and the recorded length exact. *)
Theorem memfree_exact M l a nbytes :
  heap_rep M l -> memheap M <= a -> (8 | a) -> 0 < nbytes -> nbytes + 7 < 2 ^ 32 ->
  a + roundmb nbytes <= maxaddr M ->
  (memfree M a nbytes = Some (M, SYSERR) /\ exists w, a <= w < a + roundmb nbytes /\ free_at l w)
  \/ (exists M' l', memfree M a nbytes = Some (M', OK) /\ heap_rep M' l'
       /\ (forall w, a <= w < a + roundmb nbytes -> ~ free_at l w)
       /\ (forall w, free_at l' w <-> free_at l w \/ a <= w < a + roundmb nbytes)
       /\ total l' = total l + roundmb nbytes).
Proof. apply memfree_spec. Qed.

(** [stkget] takes the high end of the last block that is large enough and
    returns its top word; giving that stack back with [stkfree] restores the
    free list. *)
Theorem stkget_stkfree_roundtrip M l nbytes :
  heap_rep M l -> 0 < nbytes -> nbytes + 7 < 2 ^ 32 ->
  (Forall (fun b => b.2 < roundmb nbytes) l /\ stkget M nbytes = Some (M, SYSERR))
  \/ (exists M' la a len lb, l = la ++ (a, len) :: lb /\ roundmb nbytes <= len
      /\ Forall (fun b => b.2 < roundmb nbytes) lb
      /\ stkget M nbytes = Some (M', a + len - 4)
      /\ heap_rep M' (la ++ cut_high a len (roundmb nbytes) ++ lb)
      /\ exists M'', stkfree M' (a + len - 4) nbytes = Some (M'', OK) /\ heap_rep M'' l).
Proof.
  intros H Hn Hmax. destruct (roundmb_spec nbytes) as [H8 Hr]; [lia..|].
  destruct (stkget_spec M l nbytes H Hn Hmax)
    as [?|(M' & la & a & len & lb & -> & Hle & HF & E & Hrep)]; [by left|right].
  exists M', la, a, len, lb. split_and!; try done.
  destruct (bounds_eq _ _ (stkget_bounds _ _ _ _ E)) as [B1 B2].
  pose proof (wf_free_in _ _ _ a len (hr_wf _ _ H) ltac:(set_solver)) as (? & ? & Ha8 & Hl8 & ?).
  pose proof (hr_heap _ _ H). pose proof (hr_max _ _ H). pose proof (div8_lower _ Ha8 ltac:(lia)).
  set (b := a + len - roundmb nbytes).
  assert (Hrr : roundmb (roundmb nbytes) = roundmb nbytes) by (apply roundmb_idem; [done|lia..]).
  assert (Hb8 : (8 | b)) by (apply Z.divide_sub_r; [by apply Z.divide_add_r|done]).
  replace (a + len - 4) with (b + roundmb nbytes - 4) by lia.
  rewrite stkfree_memfree by (unfold is_u32; lia).
  assert (Hlen : forall w, free_at (la ++ (a, len) :: lb) w
    <-> free_at (la ++ cut_high a len (roundmb nbytes) ++ lb) w \/ b <= w < b + roundmb nbytes).
  { intros w. rewrite !free_at_app, cut_high_free, free_at_cons by lia. subst b. 
    destruct (decide (a <= w < a + len)); intuition lia. }
  assert (Hnot : forall w, b <= w < b + roundmb nbytes ->
    ~ free_at (la ++ cut_high a len (roundmb nbytes) ++ lb) w).
  { intros w Hw. pose proof (hr_wf _ _ H) as Hwf. rewrite !free_at_app, cut_high_free by lia.
    assert (Hap : forall c m, (c, m) ∈ la \/ (c, m) ∈ lb -> ~ c <= w < c + m).
    { intros c m Hc. destruct (wf_free_apart _ _ la a len lb c m Hwf Hc) as (? & ? & ?). lia. }
    intros [(c & m & Hc & ?)|[?|(c & m & Hc & ?)]]; [|lia|]; eapply (Hap c m); eauto. }
  destruct (memfree_spec M' _ b (roundmb nbytes) Hrep)
    as [[_ (w & Hw & Hf)]|(M2 & l2 & E2 & Hrep2 & _ & Hout & _)]; try done; try (rewrite ?Hrr; lia).
  { exfalso. rewrite Hrr in Hw. by apply (Hnot w). }
  exists M2. split; [done|]. destruct (bounds_eq _ _ (memfree_bounds _ _ _ _ _ E2)) as [C1 C2].
  enough (l2 = la ++ (a, len) :: lb) as <- by done. pose proof (hr_wf _ _ Hrep2) as Hw2.
  rewrite C1, B1, C2, B2 in Hw2. eapply wf_free_canonical; [done|by eapply hr_wf|].
  intros w. by rewrite Hout, Hlen, Hrr.
Qed.

(** C4: Clients of the heap are isolated.  In every state reached by allocations,
    releases and writes of clients to their own regions, the free list is well
    formed, the regions in use are pairwise apart and apart from free memory,
    and free and used memory add up to what they were at the start. *)
Theorem heap_clients_isolated M l live M' live' :
  owned M l live -> rtc client_step (M, live) (M', live') ->
  exists l', owned M' l' live' /\ conserved l live l' live'.
Proof.
  intros H Hr. remember (M, live) as s eqn:Es. remember (M', live') as s' eqn:Es'.
  revert M l live H M' live' Es Es'. 
  induction Hr as [s|s s1 s2 Hstep _ IH]; intros M l live H M' live' -> E.
  { injection E as <- <-. by exists l. }
  assert (Hone : exists l1, owned s1.1 l1 s1.2 /\ conserved l live l1 s1.2).
  { remember (M, live) as s eqn:Es. destruct Hstep as [M0 lv sz M1 a ?? Eq|M0 lv sz M1 a ?? Eq
      |M0 l1 a sz l2 M1 r ?? Eq|M0 l1 a sz l2 M1 r ?? Eq|M0 lv r w v Hin Hw];
      injection Es as -> <-; simpl.
    - destruct (step_memget M l lv sz) as (M2 & b & l' & E' & Hres); try done.
      rewrite Eq in E'. injection E' as <- <-. by exists l'.
    - destruct (step_stkget M l lv sz) as (M2 & b & l' & E' & Hres); try done.
      rewrite Eq in E'. injection E' as <- <-. by exists l'.
    - destruct (step_memfree M l l1 a sz l2) as (M2 & l' & E' & Hres); try done.
      rewrite Eq in E'. injection E' as <- ->. by exists l'.
    - destruct (step_stkfree M l l1 a sz l2) as (M2 & l' & E' & Hres); try done.
      rewrite Eq in E'. injection E' as <- ->. by exists l'.
    - exists l. split; [|done]. pose proof (ow_free _ _ _ H r w Hin Hw).
      destruct H as [H1 H2 H3 H4]. split; try done. by apply heap_rep_write. }
  destruct s1 as [M1 live1], Hone as (l1 & H1 & C1). simpl in *.
  destruct (IH M1 l1 live1 H1 M' live' eq_refl E) as (l' & H' & C').
  exists l'. split; [done|]. unfold conserved in *. lia.
Qed.

(** ** A heap of three blocks *)

Definition heap3 : memory :=
  mkmemory (list_to_map [(64, 96); (68, 16); (96, 128); (100, 24); (128, 0); (132, 64)])
    64 104 64 192.

Lemma heap3_rep : heap_rep heap3 [(64, 16); (96, 24); (128, 64)].
Proof.
  split; [vm_compute; intuition congruence| |done|done| |done].
  - simpl. split_and!; try done; (eapply Z.mod_divide; [lia|done]).
  - split; (eapply Z.mod_divide; [lia|done]).
Qed.

Example memget_first_fit_witness :
  exists M' x, memget heap3 20 = Some (M', x) /\ bounds M' = bounds heap3
    /\ match alloc_first (roundmb 20) [(64, 16); (96, 24); (128, 64)] with
       | Some (a, l') => x = a /\ heap_rep M' l' /\ keeps [(64, 16); (96, 24); (128, 64)] heap3 M'
       | None => x = SYSERR /\ M' = heap3
       end.
Proof. apply (memget_first_fit heap3 _ 20 heap3_rep); done. Defined.

Example memget_memfree_roundtrip_witness :
  exists M' a M'', memget heap3 40 = Some (M', a)
    /\ memfree M' a 40 = Some (M'', OK) /\ heap_rep M'' [(64, 16); (96, 24); (128, 64)].
Proof.
  destruct (memget heap3 40) as [[M' a]|] eqn:E; [|done]. exists M', a.
  destruct (memget_memfree_roundtrip heap3 _ 40 M' a heap3_rep) as (M'' & H1 & H2); try done.
  - intros ->. vm_compute in E. discriminate E.
  - exists M''. done.
Defined.

Example memfree_exact_witness :
  (memfree heap3 120 8 = Some (heap3, SYSERR)
    /\ exists w, 120 <= w < 120 + roundmb 8 /\ free_at [(64, 16); (96, 24); (128, 64)] w)
  \/ (exists M' l', memfree heap3 120 8 = Some (M', OK) /\ heap_rep M' l'
       /\ (forall w, 120 <= w < 120 + roundmb 8 -> ~ free_at [(64, 16); (96, 24); (128, 64)] w)
       /\ (forall w, free_at l' w <-> free_at [(64, 16); (96, 24); (128, 64)] w \/ 120 <= w < 120 + roundmb 8)
       /\ total l' = total [(64, 16); (96, 24); (128, 64)] + roundmb 8).
Proof.
  apply (memfree_exact heap3 _ 120 8 heap3_rep); try done. by exists 15.
Defined.

Example stkget_stkfree_roundtrip_witness :
  exists M' M'', stkget heap3 32 = Some (M', 188) /\ stkfree M' 188 32 = Some (M'', OK)
    /\ heap_rep M'' [(64, 16); (96, 24); (128, 64)].
Proof.
  destruct (stkget_stkfree_roundtrip heap3 _ 32 heap3_rep) as [[H _]|H]; try done.
  - rewrite !Forall_cons in H. destruct H as (_ & _ & H & _). vm_compute in H. discriminate H.
  - destruct H as (M' & la & a & len & lb & _ & _ & _ & E & _ & M'' & E' & Hrep).
    assert (a + len - 4 = 188) as Ha by (vm_compute in E; injection E as _ ->; done).
    rewrite Ha in *. eauto.
Defined.

Lemma heap3_owned : owned heap3 [(64, 16); (96, 24); (128, 64)] [(80, 16)].
Proof.
  split; [apply heap3_rep| | |].
  - intros a n [= -> ->]%list_elem_of_singleton. split_and!; try done;
      (eapply Z.mod_divide; [lia|done]).
  - intros r w ->%list_elem_of_singleton Hw. unfold inside in Hw. simpl in Hw.
    rewrite !free_at_cons, free_at_nil. lia.
  - intros [|[|i]] [|[|j]] r1 r2 Hij H1 H2; done.
Qed.

Example heap_clients_isolated_witness :
  exists M' live' l', rtc client_step (heap3, [(80, 16)]) (M', live')
    /\ live' = [(64, 8); (80, 16)] /\ owned M' l' live'.
Proof.
  destruct (memget heap3 5) as [[M' a]|] eqn:E; [|vm_compute in E; discriminate E].
  assert (a = 64) as -> by (vm_compute in E; by injection E).
  assert (Hr : rtc client_step (heap3, [(80, 16)]) (M', [(64, 8); (80, 16)])).
  { eapply rtc_once. apply (do_memget heap3 [(80, 16)] 5 M' 64); done. }
  destruct (heap_clients_isolated heap3 _ _ _ _ heap3_owned Hr) as (l' & H & _).
  exists M', [(64, 8); (80, 16)], l'. done.
Defined.

(** The rounding of a request near the top of the address space wraps to zero:
    the request succeeds with the first block and nothing is reserved. *)
Theorem memget_roundmb_wraps : exists M', memget heap3 (2 ^ 32 - 1) = Some (M', 64)
  /\ memlist_length M' = memlist_length heap3.
Proof. eexists. split; [vm_compute; reflexivity|done]. Qed.
