(* ===== verification/Kernel.v ===== *)
(** * The state of the kernel (include/thread.h, semaphore.h, clock.h and the
      globals of system/initialize.c, resched.c, clkinit.c)

    One record holds every variable the system calls share; the rest of the
    file gives the accesses of the code to it as primitive programs. *)

From S2P Require Import Prelude Prog Queue Interrupt Memory.

(** ** Threads *)

Inductive thrstate : Type :=
| THRCURR | THRFREE | THRREADY | THRRECV | THRSLEEP | THRSUSP | THRWAIT | THRTMOUT.

#[export] Instance thrstate_eq_dec : EqDecision thrstate.
Proof. solve_decision. Defined.

Definition NULLTHREAD : Z := 0.
Definition MINSTK : Z := 128.
Definition INITSTK : Z := 65536.
Definition INITPRIO : Z := 20.
Definition STACKMAGIC : Z := 0x0A0AAAA9.
Definition RESCHED_YES : bool := true.
Definition RESCHED_NO : bool := false.

(** [struct thrent]; the file descriptors, which no modelled code touches, are
    left out. *)
Record thrent : Type := mkthrent {
  tstate : thrstate;
  tprio : Z;
  tstkptr : Z;
  tstkbase : Z;
  tstklen : Z;
  tname : list Z;
  tintmask : Z;
  tsem : Z;
  tparent : Z;
  tmsg : Z;
  thasmsg : bool;
  tmem_next : Z;
  tmem_length : Z;
}.

Definition set_state (v : thrstate) (e : thrent) : thrent :=
  mkthrent v (tprio e) (tstkptr e) (tstkbase e) (tstklen e) (tname e) (tintmask e)
    (tsem e) (tparent e) (tmsg e) (thasmsg e) (tmem_next e) (tmem_length e).
Definition set_prio (v : Z) (e : thrent) : thrent :=
  mkthrent (tstate e) v (tstkptr e) (tstkbase e) (tstklen e) (tname e) (tintmask e)
    (tsem e) (tparent e) (tmsg e) (thasmsg e) (tmem_next e) (tmem_length e).
Definition set_stack (ptr base len : Z) (e : thrent) : thrent :=
  mkthrent (tstate e) (tprio e) ptr base len (tname e) (tintmask e)
    (tsem e) (tparent e) (tmsg e) (thasmsg e) (tmem_next e) (tmem_length e).
Definition set_name (v : list Z) (e : thrent) : thrent :=
  mkthrent (tstate e) (tprio e) (tstkptr e) (tstkbase e) (tstklen e) v (tintmask e)
    (tsem e) (tparent e) (tmsg e) (thasmsg e) (tmem_next e) (tmem_length e).
Definition set_intmask (v : Z) (e : thrent) : thrent :=
  mkthrent (tstate e) (tprio e) (tstkptr e) (tstkbase e) (tstklen e) (tname e) v
    (tsem e) (tparent e) (tmsg e) (thasmsg e) (tmem_next e) (tmem_length e).
Definition set_sem (v : Z) (e : thrent) : thrent :=
  mkthrent (tstate e) (tprio e) (tstkptr e) (tstkbase e) (tstklen e) (tname e) (tintmask e)
    v (tparent e) (tmsg e) (thasmsg e) (tmem_next e) (tmem_length e).
Definition set_parent (v : Z) (e : thrent) : thrent :=
  mkthrent (tstate e) (tprio e) (tstkptr e) (tstkbase e) (tstklen e) (tname e) (tintmask e)
    (tsem e) v (tmsg e) (thasmsg e) (tmem_next e) (tmem_length e).
Definition set_msg (v : Z) (e : thrent) : thrent :=
  mkthrent (tstate e) (tprio e) (tstkptr e) (tstkbase e) (tstklen e) (tname e) (tintmask e)
    (tsem e) (tparent e) v (thasmsg e) (tmem_next e) (tmem_length e).
Definition set_hasmsg (v : bool) (e : thrent) : thrent :=
  mkthrent (tstate e) (tprio e) (tstkptr e) (tstkbase e) (tstklen e) (tname e) (tintmask e)
    (tsem e) (tparent e) (tmsg e) v (tmem_next e) (tmem_length e).
Definition set_memlist (next length : Z) (e : thrent) : thrent :=
  mkthrent (tstate e) (tprio e) (tstkptr e) (tstkbase e) (tstklen e) (tname e) (tintmask e)
    (tsem e) (tparent e) (tmsg e) (thasmsg e) next length.

(** ** Semaphores *)

Inductive semstate : Type := SFREE | SUSED.

#[export] Instance semstate_eq_dec : EqDecision semstate.
Proof. solve_decision. Defined.

Record sement : Type := mksement { sstate : semstate; scount : Z; squeue : Z }.

(** ** The clock's timer (platforms/arm-qemu/timer.h) *)

Definition CLKTICKS_PER_SEC : Z := 10.
Definition IRQ_TIMER : Z := 4.

Record timer : Type := mktimer { tm_started : bool; tm_load : Z; tm_ctrl : Z }.

(** ** The kernel *)

Record kernel : Type := mkkernel {
  quetab : gmap Z queent;
  thrtab : gmap Z thrent;
  semtab : gmap Z sement;
  readylist : Z;
  sleepq : Z;
  nextqid : Z;
  thrcount : Z;
  thrcurrent : Z;
  resdefer : Z;
  nextsem : Z;
  nexttid : Z;
  clkticks : Z;
  clktime : Z;
  tim : timer;
  irq : vic;
  mem : memory;
}.

Definition set_quetab (v : gmap Z queent) (k : kernel) : kernel :=
  mkkernel v (thrtab k) (semtab k) (readylist k) (sleepq k) (nextqid k) (thrcount k)
    (thrcurrent k) (resdefer k) (nextsem k) (nexttid k) (clkticks k) (clktime k) (tim k)
    (irq k) (mem k).
Definition set_thrtab (v : gmap Z thrent) (k : kernel) : kernel :=
  mkkernel (quetab k) v (semtab k) (readylist k) (sleepq k) (nextqid k) (thrcount k)
    (thrcurrent k) (resdefer k) (nextsem k) (nexttid k) (clkticks k) (clktime k) (tim k)
    (irq k) (mem k).
Definition set_semtab (v : gmap Z sement) (k : kernel) : kernel :=
  mkkernel (quetab k) (thrtab k) v (readylist k) (sleepq k) (nextqid k) (thrcount k)
    (thrcurrent k) (resdefer k) (nextsem k) (nexttid k) (clkticks k) (clktime k) (tim k)
    (irq k) (mem k).
Definition set_queues (rl sq nq : Z) (k : kernel) : kernel :=
  mkkernel (quetab k) (thrtab k) (semtab k) rl sq nq (thrcount k)
    (thrcurrent k) (resdefer k) (nextsem k) (nexttid k) (clkticks k) (clktime k) (tim k)
    (irq k) (mem k).
Definition set_thrcount (v : Z) (k : kernel) : kernel :=
  mkkernel (quetab k) (thrtab k) (semtab k) (readylist k) (sleepq k) (nextqid k) v
    (thrcurrent k) (resdefer k) (nextsem k) (nexttid k) (clkticks k) (clktime k) (tim k)
    (irq k) (mem k).
Definition set_thrcurrent (v : Z) (k : kernel) : kernel :=
  mkkernel (quetab k) (thrtab k) (semtab k) (readylist k) (sleepq k) (nextqid k) (thrcount k)
    v (resdefer k) (nextsem k) (nexttid k) (clkticks k) (clktime k) (tim k)
    (irq k) (mem k).
Definition set_resdefer (v : Z) (k : kernel) : kernel :=
  mkkernel (quetab k) (thrtab k) (semtab k) (readylist k) (sleepq k) (nextqid k) (thrcount k)
    (thrcurrent k) v (nextsem k) (nexttid k) (clkticks k) (clktime k) (tim k)
    (irq k) (mem k).
Definition set_nextsem (v : Z) (k : kernel) : kernel :=
  mkkernel (quetab k) (thrtab k) (semtab k) (readylist k) (sleepq k) (nextqid k) (thrcount k)
    (thrcurrent k) (resdefer k) v (nexttid k) (clkticks k) (clktime k) (tim k)
    (irq k) (mem k).
Definition set_nexttid (v : Z) (k : kernel) : kernel :=
  mkkernel (quetab k) (thrtab k) (semtab k) (readylist k) (sleepq k) (nextqid k) (thrcount k)
    (thrcurrent k) (resdefer k) (nextsem k) v (clkticks k) (clktime k) (tim k)
    (irq k) (mem k).
Definition set_clock (ticks time : Z) (k : kernel) : kernel :=
  mkkernel (quetab k) (thrtab k) (semtab k) (readylist k) (sleepq k) (nextqid k) (thrcount k)
    (thrcurrent k) (resdefer k) (nextsem k) (nexttid k) ticks time (tim k)
    (irq k) (mem k).
Definition set_tim (v : timer) (k : kernel) : kernel :=
  mkkernel (quetab k) (thrtab k) (semtab k) (readylist k) (sleepq k) (nextqid k) (thrcount k)
    (thrcurrent k) (resdefer k) (nextsem k) (nexttid k) (clkticks k) (clktime k) v
    (irq k) (mem k).
Definition set_irq (v : vic) (k : kernel) : kernel :=
  mkkernel (quetab k) (thrtab k) (semtab k) (readylist k) (sleepq k) (nextqid k) (thrcount k)
    (thrcurrent k) (resdefer k) (nextsem k) (nexttid k) (clkticks k) (clktime k) (tim k)
    v (mem k).
Definition set_mem (v : memory) (k : kernel) : kernel :=
  mkkernel (quetab k) (thrtab k) (semtab k) (readylist k) (sleepq k) (nextqid k) (thrcount k)
    (thrcurrent k) (resdefer k) (nextsem k) (nexttid k) (clkticks k) (clktime k) (tim k)
    (irq k) v.

(** ** Accesses *)

(** [isbadtid(x)]; the table is read only for an [x] within its bounds. *)
Definition isbadtid (k : kernel) (x : Z) : bool :=
  (NTHREAD <=? x) || (x <? 0)
  || match thrtab k !! x with
     | Some e => bool_decide (tstate e = THRFREE)
     | None => true
     end.

(** [isbadsem(s)]; [s] is unsigned. *)
Definition isbadsem (k : kernel) (s : Z) : bool :=
  (NSEM <=? s)
  || match semtab k !! s with
     | Some e => bool_decide (sstate e = SFREE)
     | None => true
     end.

(** [thrtab[t]] and assignments to its fields *)
Definition thr (t : Z) : prog kernel thrent := readopt (fun k => thrtab k !! t).
Definition upd_thr (t : Z) (f : thrent -> thrent) : prog kernel unit :=
  lift (fun k => e ← thrtab k !! t; Some (set_thrtab (<[t := f e]> (thrtab k)) k, tt)).

(** [semtab[s]] and assignments to its fields *)
Definition sem (s : Z) : prog kernel sement := readopt (fun k => semtab k !! s).
Definition upd_sem (s : Z) (f : sement -> sement) : prog kernel unit :=
  lift (fun k => e ← semtab k !! s; Some (set_semtab (<[s := f e]> (semtab k)) k, tt)).
Definition set_sstate (v : semstate) (e : sement) : sement := mksement v (scount e) (squeue e).
Definition set_scount (v : Z) (e : sement) : sement := mksement (sstate e) v (squeue e).

(** Calls of the queue routines *)
Definition qcall {A} (f : (Z -> bool) -> gmap Z queent -> option (gmap Z queent * A))
  : prog kernel A :=
  lift (fun k => '(tab, r) ← f (isbadtid k) (quetab k); Some (set_quetab tab k, r)).
Definition qread {A} (f : gmap Z queent -> option A) : prog kernel A :=
  readopt (fun k => f (quetab k)).

Definition k_enqueue (tid q : Z) : prog kernel Z := qcall (fun bad tab => enqueue bad tab tid q).
Definition k_dequeue (q : Z) : prog kernel Z := qcall (fun bad tab => dequeue bad tab q).
Definition k_getitem (tid : Z) : prog kernel Z := qcall (fun _ tab => getitem tab tid).
Definition k_insert (tid q key : Z) : prog kernel Z :=
  qcall (fun bad tab => insert bad tab tid q key).
Definition k_insertd (tid q key : Z) : prog kernel Z :=
  qcall (fun bad tab => insertd bad tab tid q key).

(** Calls of the interrupt routines *)
Definition k_disable : prog kernel Z :=
  lift (fun k => let '(v, im) := disable (irq k) in Some (set_irq v k, im)).
Definition k_restore (im : Z) : prog kernel Z :=
  lift (fun k => let '(v, old) := restore im (irq k) in Some (set_irq v k, old)).
