(* ===== verification/Thread.v ===== *)
(** * Scheduling and thread control (system/resched.c, ready.c, suspend.c,
      resume.c, yield.c, chprio.c, getprio.c, gettid.c) *)

From S2P Require Import Prelude Prog Queue Interrupt Memory Kernel.

(** The block [if (THRCURR == throld->state)]: true when the old thread keeps
    the processor, otherwise it is on the ready list. *)
Definition resched_old (old : Z) : prog kernel bool :=
  throld ← thr old;
  if decide (tstate throld = THRCURR) then
    rl ← gets readylist;
    ne ← qread (fun tab => nonempty tab rl);
    keep ← (if (ne : bool) then
              fk ← qread (fun tab => firstkey tab rl);
              mret (fk <? tprio throld)
            else mret false);
    if (keep : bool) then mret true
    else
      upd_thr old (set_state THRREADY);;
      k_insert old rl (tprio throld);;
      mret false
  else mret false.

(** The rest: the highest-priority thread gets the processor; the old one goes
    on from [ctxsw] when it is resumed.  No interrupt is taken between [restore] and [ctxsw]. *)
Definition resched_new (old : Z) : prog kernel Z :=
  rl ← gets readylist;
  new ← k_dequeue rl;
  modify (set_thrcurrent new);;
  upd_thr new (set_state THRCURR);;
  thrnew ← thr new;
  (if new =? old then mret tt
   else k_restore (tintmask thrnew);; ctxsw);;
  e ← thr old;
  k_restore (tintmask e);;
  mret OK.

Definition resched : prog kernel Z :=
  rd ← gets resdefer;
  if 0 <? rd then modify (set_resdefer (i32 (rd + 1)));; mret OK
  else
    old ← gets thrcurrent;
    im ← k_disable;
    upd_thr old (set_intmask im);;
    stay ← resched_old old;
    if (stay : bool) then
      e ← thr old; k_restore (tintmask e);; mret OK
    else resched_new old.

Definition ready (tid : Z) (resch : bool) : prog kernel Z :=
  bad ← gets (fun k => isbadtid k tid);
  if (bad : bool) then mret SYSERR
  else
    upd_thr tid (set_state THRREADY);;
    rl ← gets readylist;
    e ← thr tid;
    k_insert tid rl (tprio e);;
    (if resch then resched;; mret tt else mret tt);;
    mret OK.

Definition suspend (tid : Z) : prog kernel Z :=
  im ← k_disable;
  bad ← gets (fun k => isbadtid k tid);
  if (bad : bool) || (tid =? NULLTHREAD) then k_restore im;; mret SYSERR
  else
    thrptr ← thr tid;
    if decide (tstate thrptr <> THRCURR /\ tstate thrptr <> THRREADY)
    then k_restore im;; mret SYSERR
    else
      (if decide (tstate thrptr = THRREADY) then
         k_getitem tid;; upd_thr tid (set_state THRSUSP)
       else
         upd_thr tid (set_state THRSUSP);; resched;; mret tt);;
      thrptr ← thr tid;
      k_restore im;;
      mret (tprio thrptr).

Definition resume (tid : Z) : prog kernel Z :=
  im ← k_disable;
  bad ← gets (fun k => isbadtid k tid
                       || match thrtab k !! tid with
                          | Some e => bool_decide (tstate e <> THRSUSP)
                          | None => true
                          end);
  if (bad : bool) then k_restore im;; mret SYSERR
  else
    thrptr ← thr tid;
    ready tid RESCHED_YES;;
    k_restore im;;
    mret (tprio thrptr).

Definition yield : prog kernel Z :=
  im ← k_disable; resched;; k_restore im;; mret OK.

Definition chprio (tid newprio : Z) : prog kernel Z :=
  im ← k_disable;
  bad ← gets (fun k => isbadtid k tid);
  if (bad : bool) then k_restore im;; mret SYSERR
  else
    thrptr ← thr tid;
    upd_thr tid (set_prio newprio);;
    k_restore im;;
    mret (tprio thrptr).

Definition getprio (tid : Z) : prog kernel Z :=
  im ← k_disable;
  bad ← gets (fun k => isbadtid k tid);
  if (bad : bool) then k_restore im;; mret SYSERR
  else
    thrptr ← thr tid;
    k_restore im;;
    mret (tprio thrptr).

Definition gettid : prog kernel Z := gets thrcurrent.
