(* ===== verification/Semaphore.v ===== *)
(** * Counting semaphores (system/wait.c, signal.c, signaln.c, semcreate.c,
      semfree.c, semcount.c) *)

From S2P Require Import Prelude Prog Queue Interrupt Memory Kernel Thread.

Definition wait (s : Z) : prog kernel Z :=
  im ← k_disable;
  bad ← gets (fun k => isbadsem k s);
  if (bad : bool) then k_restore im;; mret SYSERR
  else
    cur ← gets thrcurrent;
    semptr ← sem s;
    let count := i32 (scount semptr - 1) in
    upd_sem s (set_scount count);;
    (if count <? 0 then
       upd_thr cur (set_state THRWAIT);;
       upd_thr cur (set_sem s);;
       k_enqueue cur (squeue semptr);;
       resched;; mret tt
     else mret tt);;
    k_restore im;;
    mret OK.

Definition signal (s : Z) : prog kernel Z :=
  im ← k_disable;
  bad ← gets (fun k => isbadsem k s);
  if (bad : bool) then k_restore im;; mret SYSERR
  else
    semptr ← sem s;
    upd_sem s (set_scount (i32 (scount semptr + 1)));;
    (if scount semptr <? 0 then
       t ← k_dequeue (squeue semptr);
       ready t RESCHED_YES;; mret tt
     else mret tt);;
    k_restore im;;
    mret OK.

(** The loop of [signaln]. *)
Fixpoint signaln_loop (s : Z) (n : nat) : prog kernel unit :=
  match n with
  | O => mret tt
  | S n =>
      semptr ← sem s;
      upd_sem s (set_scount (i32 (scount semptr + 1)));;
      (if scount semptr <? 0 then
         t ← k_dequeue (squeue semptr);
         ready t RESCHED_NO;; mret tt
       else mret tt);;
      signaln_loop s n
  end.

Definition signaln (s count : Z) : prog kernel Z :=
  im ← k_disable;
  bad ← gets (fun k => isbadsem k s);
  if (bad : bool) || (count <=? 0) then k_restore im;; mret SYSERR
  else
    signaln_loop s (Z.to_nat count);;
    resched;;
    k_restore im;;
    mret OK.

(** [n] slots are still to be checked. *)
Fixpoint semalloc_loop (n : nat) : prog kernel Z :=
  match n with
  | O => mret (u32 SYSERR)
  | S n =>
      next ← gets (fun k => (nextsem k + 1) mod NSEM);
      modify (set_nextsem next);;
      semptr ← sem next;
      if decide (sstate semptr = SFREE)
      then upd_sem next (set_sstate SUSED);; mret next
      else semalloc_loop n
  end.

Definition semalloc : prog kernel Z := semalloc_loop (Z.to_nat NSEM).

Definition semcreate (count : Z) : prog kernel Z :=
  im ← k_disable;
  s ← semalloc;
  if negb (s =? u32 SYSERR) && (0 <=? count) then
    upd_sem s (set_scount count);;
    k_restore im;;
    mret s
  else k_restore im;; mret (u32 SYSERR).

(** [while (nonempty(q)) ready(dequeue(q), RESCHED_NO)]: a queue holds at most
    [NTHREAD] threads. *)
Fixpoint ready_all (fuel : nat) (q : Z) : prog kernel unit :=
  match fuel with
  | O => Fault
  | S fuel =>
      ne ← qread (fun tab => nonempty tab q);
      if (ne : bool) then
        t ← k_dequeue q;
        ready t RESCHED_NO;;
        ready_all fuel q
      else mret tt
  end.

Definition semfree (s : Z) : prog kernel Z :=
  im ← k_disable;
  bad ← gets (fun k => isbadsem k s);
  if (bad : bool) then k_restore im;; mret SYSERR
  else
    semptr ← sem s;
    ready_all (S (Z.to_nat NTHREAD)) (squeue semptr);;
    upd_sem s (set_scount 0);;
    upd_sem s (set_sstate SFREE);;
    k_restore im;;
    mret OK.

Definition semcount (s : Z) : prog kernel Z :=
  bad ← gets (fun k => isbadsem k s);
  if (bad : bool) then mret SYSERR
  else semptr ← sem s; mret (scount semptr).
