(* ===== verification/Clock.v ===== *)
(** * Sleeping and the clock (system/sleep.c, unsleep.c, wakeup.c, clkhandler.c,
      clkinit.c, platforms/arm-qemu/clkupdate.c) *)

From S2P Require Import Prelude Prog Queue Interrupt Memory Kernel Thread.

Definition sleep (ms : Z) : prog kernel Z :=
  let ticks := i32 (u32 (ms * CLKTICKS_PER_SEC) / 1000) in
  im ← k_disable;
  cur ← gets thrcurrent;
  failed ← (if 0 <? ticks then
              sq ← gets sleepq;
              r ← k_insertd cur sq ticks;
              if r =? SYSERR then mret true
              else upd_thr cur (set_state THRSLEEP);; mret false
            else mret false);
  if (failed : bool) then k_restore im;; mret SYSERR
  else
    resched;;
    k_restore im;;
    mret OK.

Definition unsleep (tid : Z) : prog kernel Z :=
  im ← k_disable;
  bad ← gets (fun k => isbadtid k tid);
  if (bad : bool) then k_restore im;; mret SYSERR
  else
    thrptr ← thr tid;
    if decide (tstate thrptr <> THRSLEEP /\ tstate thrptr <> THRTMOUT)
    then k_restore im;; mret SYSERR
    else
      e ← qread (fun tab => tab !! tid);
      (if qnext e <? NTHREAD then
         qcall (fun _ tab => f ← tab !! qnext e;
                             tab ← set_key tab (qnext e) (i32 (qkey f + qkey e));
                             Some (tab, tt))
       else mret tt);;
      k_getitem tid;;
      k_restore im;;
      mret OK.

(** [while (nonempty(sleepq) && firstkey(sleepq) <= 0) ready(dequeue(sleepq), ...)] *)
Fixpoint wakeup_loop (fuel : nat) (q : Z) : prog kernel unit :=
  match fuel with
  | O => Fault
  | S fuel =>
      ne ← qread (fun tab => nonempty tab q);
      if (ne : bool) then
        fk ← qread (fun tab => firstkey tab q);
        if fk <=? 0 then
          t ← k_dequeue q;
          ready t RESCHED_NO;;
          wakeup_loop fuel q
        else mret tt
      else mret tt
  end.

Definition wakeup : prog kernel unit :=
  q ← gets sleepq; wakeup_loop (S (Z.to_nat NTHREAD)) q.

(** The timer is programmed by the first call only. *)
Definition TIMER_ENABLE : Z := Z.shiftl 1 7.
Definition TIMER_MODE_PD : Z := Z.shiftl 1 6.
Definition TIMER_INT_EN : Z := Z.shiftl 1 5.
Definition TIMER_SIZE_MSK : Z := Z.shiftl 1 2.

Definition set_load (v : Z) (t : timer) : timer := mktimer (tm_started t) v (tm_ctrl t).
Definition set_ctrl (v : Z) (t : timer) : timer := mktimer (tm_started t) (tm_load t) v.

Definition clkupdate (cycles : Z) : prog kernel unit :=
  t ← gets tim;
  if tm_started t then mret tt
  else
    let t := mktimer true (tm_load t) (tm_ctrl t) in
    modify (fun k => set_irq (fst (disable_irq IRQ_TIMER (irq k))) k);;
    let t := set_ctrl (Z.land (tm_ctrl t) (Z.lnot TIMER_ENABLE)) t in
    let t := set_load cycles t in
    let t := set_ctrl (Z.lor (Z.lor TIMER_SIZE_MSK TIMER_INT_EN) TIMER_MODE_PD) t in
    let t := set_ctrl (Z.lor (tm_ctrl t) TIMER_ENABLE) t in
    modify (set_tim t);;
    modify (fun k => set_irq (fst (enable_irq IRQ_TIMER (irq k))) k).

(** [if (nonempty(sleepq) && (--firstkey(sleepq) <= 0)) wakeup();] *)
Definition tick_sleepq (q : Z) : prog kernel unit :=
  ne ← qread (fun tab => nonempty tab q);
  if (ne : bool) then
    fk ← qcall (fun _ tab => h ← tab !! quehead q;
                             f ← tab !! qnext h;
                             tab ← set_key tab (qnext h) (i32 (qkey f - 1));
                             Some (tab, i32 (qkey f - 1)));
    if fk <=? 0 then wakeup else mret tt
  else mret tt.

Section platform.
(** [platform.clkfreq], and the address of [clkhandler] *)
Variables (clkfreq clkhandler_addr : Z).

Definition clkhandler : prog kernel unit :=
  clkupdate (clkfreq / CLKTICKS_PER_SEC);;
  modify (fun k => set_clock (u32 (clkticks k + 1)) (clktime k) k);;
  modify (fun k => if CLKTICKS_PER_SEC <=? clkticks k
                   then set_clock 0 (u32 (clktime k + 1)) k else k);;
  q ← gets sleepq;
  tick_sleepq q;;
  modify (fun k => set_irq (vic_interrupt_handled (irq k)) k);;
  resched;; mret tt.

Definition clkinit : prog kernel unit :=
  q ← lift (fun k => '(tab, nq, q) ← queinit (quetab k) (nextqid k);
                     Some (set_quetab tab (set_queues (readylist k) q nq k), q));
  modify (fun k => set_clock 0 (clktime k) k);;
  modify (fun k => set_irq (register_irq IRQ_TIMER clkhandler_addr (irq k)) k);;
  modify (fun k => set_irq (fst (enable_irq IRQ_TIMER (irq k))) k);;
  clkupdate (clkfreq / CLKTICKS_PER_SEC).

End platform.
