(* ===== verification/Message.v ===== *)
(** * Messages between threads (system/send.c, receive.c, recvclr.c, recvtime.c) *)

From S2P Require Import Prelude Prog Queue Interrupt Memory Kernel Thread Clock.

Definition send (tid msg : Z) : prog kernel Z :=
  im ← k_disable;
  bad ← gets (fun k => isbadtid k tid);
  if (bad : bool) then k_restore im;; mret SYSERR
  else
    thrptr ← thr tid;
    if decide (tstate thrptr = THRFREE \/ thasmsg thrptr = true)
    then k_restore im;; mret SYSERR
    else
      upd_thr tid (set_msg msg);;
      upd_thr tid (set_hasmsg true);;
      (if decide (tstate thrptr = THRRECV) then
         ready tid RESCHED_YES;; mret tt
       else if decide (tstate thrptr = THRTMOUT) then
         unsleep tid;; ready tid RESCHED_YES;; mret tt
       else mret tt);;
      k_restore im;;
      mret OK.

Definition receive : prog kernel Z :=
  im ← k_disable;
  cur ← gets thrcurrent;
  thrptr ← thr cur;
  (if thasmsg thrptr then mret tt
   else upd_thr cur (set_state THRRECV);; resched;; mret tt);;
  thrptr ← thr cur;
  let msg := tmsg thrptr in
  upd_thr cur (set_hasmsg false);;
  k_restore im;;
  mret msg.

Definition recvclr : prog kernel Z :=
  im ← k_disable;
  cur ← gets thrcurrent;
  thrptr ← thr cur;
  let msg := if thasmsg thrptr then tmsg thrptr else NOMSG in
  upd_thr cur (set_hasmsg false);;
  k_restore im;;
  mret msg.

Definition recvtime (maxwait : Z) : prog kernel Z :=
  if maxwait <? 0 then mret SYSERR
  else
    im ← k_disable;
    cur ← gets thrcurrent;
    thrptr ← thr cur;
    failed ← (if thasmsg thrptr then mret false
              else
                sq ← gets sleepq;
                r ← k_insertd cur sq maxwait;
                if r =? SYSERR then mret true
                else upd_thr cur (set_state THRTMOUT);; resched;; mret false);
    if (failed : bool) then k_restore im;; mret SYSERR
    else
      thrptr ← thr cur;
      msg ← (if thasmsg thrptr then upd_thr cur (set_hasmsg false);; mret (tmsg thrptr)
             else mret TIMEOUT);
      k_restore im;;
      mret msg.
