(* ===== verification/Lifecycle.v ===== *)
(** * The life of threads: initialisation, creation and termination
      (system/initialize.c, platforms/arm-qemu/create.c, ctxsw.S, system/kill.c,
      userret.c, xdone.c, lib/libxc/strncpy.c) *)

From S2P Require Import Prelude Prog Queue Interrupt Memory Kernel Thread Clock Message.

(** ** Strings

    A C string in memory, as its bytes; [strncpy] into a field of [n] bytes
    copies up to the terminating zero and pads with zeros. *)
Fixpoint strncpy (src : list Z) (n : nat) : list Z :=
  match n with
  | O => []
  | S n' => match src with
            | c :: src' => if c =? 0 then 0 :: replicate n' 0 else c :: strncpy src' n'
            | [] => 0 :: replicate n' 0
            end
  end.

Definition TNMLEN : nat := 16.

(** ** Initialisation of the kernel *)

Definition k_queinit : prog kernel Z :=
  lift (fun k => '(tab, nq, q) ← queinit (quetab k) (nextqid k);
                 Some (set_quetab tab (set_queues (readylist k) (sleepq k) nq k), q)).

(** The null thread's stack runs from [_end] to the heap. *)
Section kernel_init.
Variables (end_addr clkfreq clkhandler_addr : Z).

Definition init_memory (k : kernel) : kernel :=
  let M := mem k in
  let heap := roundmb (memheap M) in
  let top := truncmb (maxaddr M) in
  let len := u32 (top - heap) in
  let M := mkmemory (ram M) heap len heap top in
  set_mem (st (st M heap NULL) (heap + 4) len) k.

(** for (i = 0; i < NTHREAD; i++) thrtab[i].state = THRFREE; *)
Fixpoint init_threads (n : nat) (i : Z) : prog kernel unit :=
  match n with
  | O => mret tt
  | S n => upd_thr i (set_state THRFREE);; init_threads n (i + 1)
  end.

Definition init_null (k : kernel) (e : thrent) : thrent :=
  let e := set_state THRCURR e in
  let e := set_prio 0 e in
  let e := set_name (strncpy [112; 114; 110; 117; 108; 108] 7 ++ drop 7 (tname e)) e in
  let e := set_stack 0 end_addr (u32 (memheap (mem k) - end_addr)) e in
  set_memlist NULL 0 e.

Fixpoint init_sems (n : nat) (i : Z) : prog kernel unit :=
  match n with
  | O => mret tt
  | S n =>
      upd_sem i (set_sstate SFREE);;
      upd_sem i (set_scount 0);;
      q ← k_queinit;
      upd_sem i (fun e => mksement (sstate e) (scount e) q);;
      init_sems n (i + 1)
  end.

(** The tables up to the semaphores *)
Definition init_tables : prog kernel unit :=
  modify (set_thrcount 1);;
  modify init_memory;;
  init_threads (Z.to_nat NTHREAD) 0;;
  k ← gets (fun k => k);
  upd_thr NULLTHREAD (init_null k);;
  modify (set_thrcurrent NULLTHREAD);;
  init_sems (Z.to_nat NSEM) 0.

(** The ready list and the clock *)
Definition init_clock : prog kernel unit :=
  q ← k_queinit;
  modify (fun k => set_queues q (sleepq k) (nextqid k) k);;
  clkinit clkfreq clkhandler_addr.

(** The part of [sysinit] that sets up the kernel, without the buffer pools in between; [sysinit] itself is in Mailbox.v. *)
Definition kernel_init : prog kernel Z := init_tables;; init_clock;; mret OK.

End kernel_init.

(** ** create *)

Definition CONTEXT_WORDS : Z := 15.

Fixpoint thrnew_loop (n : nat) : prog kernel Z :=
  match n with
  | O => mret SYSERR
  | S n =>
      next ← gets (fun k => (nexttid k + 1) mod NTHREAD);
      modify (set_nexttid next);;
      e ← thr next;
      if decide (tstate e = THRFREE) then mret next else thrnew_loop n
  end.

Definition thrnew : prog kernel Z := thrnew_loop (Z.to_nat NTHREAD).

(** [*--saddr = v] *)
Definition push (v : Z) (p : memory * Z) : memory * Z := (st p.1 (p.2 - 4) v, p.2 - 4).
Definition pushes (vs : list Z) (p : memory * Z) : memory * Z := foldl (fun p v => push v p) p vs.

(** [p[i] = v] and successive words from [p] *)
Fixpoint store_words (M : memory) (p : Z) (vs : list Z) : memory :=
  match vs with
  | [] => M
  | v :: vs => store_words (st M p v) (p + 4) vs
  end.

Definition pads (nargs : nat) : nat :=
  if decide (nargs = 0%nat) then 4%nat
  else if decide (nargs mod 4 = 0)%nat then 0%nat
  else (4 - nargs mod 4)%nat.

(** The initial stack of a thread whose top word is [saddr]: the memory and the
    saved stack pointer. *)
Definition init_stack (M : memory) (saddr tid stklen : Z) (procaddr initret : Z) (args : list Z)
  : memory * Z :=
  let nargs := length args in
  let M := st M saddr STACKMAGIC in
  let p := push tid (M, saddr) in
  let p := push stklen p in
  let p := push (u32 (saddr - stklen + 4)) p in
  let p := pushes (replicate (pads nargs) 0) p in
  let p := pushes (replicate (nargs - 4) 0) p in
  let savargs := p.2 in
  let p := pushes (replicate (Z.to_nat CONTEXT_WORDS) 0) p in
  let '(M, saddr) := p in
  let M := st M (saddr + 4 * (CONTEXT_WORDS - 1)) procaddr in
  let M := st M (saddr + 4 * (CONTEXT_WORDS - 2)) initret in
  let M := store_words M saddr (take 4 args) in
  let M := store_words M savargs (drop 4 args) in
  (M, saddr).

Section create.
(** [INITRET], the address of [userret] *)
Variable initret : Z.

Definition create (procaddr ssize priority : Z) (name args : list Z) : prog kernel Z :=
  im ← k_disable;
  let ssize := if ssize <? MINSTK then MINSTK else ssize in
  saddr ← lift (fun k => '(M, a) ← stkget (mem k) ssize; Some (set_mem M k, a));
  tid ← thrnew;
  if (saddr =? SYSERR) || (tid =? SYSERR) then k_restore im;; mret SYSERR
  else
    modify (fun k => set_thrcount (i32 (thrcount k + 1)) k);;
    upd_thr tid (set_state THRSUSP);;
    upd_thr tid (set_prio priority);;
    upd_thr tid (set_stack saddr saddr ssize);;
    upd_thr tid (set_name (strncpy name TNMLEN));;
    parent ← gettid;
    upd_thr tid (set_parent parent);;
    upd_thr tid (set_hasmsg false);;
    upd_thr tid (set_memlist NULL 0);;
    upd_thr tid (set_intmask 0x10010);;
    M ← gets mem;
    let '(M, sp) := init_stack M saddr tid ssize procaddr initret args in
    modify (set_mem M);;
    upd_thr tid (fun e => set_stack sp (tstkbase e) (tstklen e) e);;
    k_restore im;;
    mret tid.

End create.

(** ** ctxsw.S

    The registers that survive a switch: r0 to r12, lr, and the stack pointer.
    A thread is resumed at [pc]. *)
Record regs : Type := mkregs { r_low : list Z; r_sp : Z; r_lr : Z; r_pc : Z }.

(** [push {lr}; push {lr}; push {r0-ip}] *)
Definition ctx_save (M : memory) (r : regs) : memory * Z :=
  let p := push (r_lr r) (M, r_sp r) in
  let p := push (r_lr r) p in
  pushes (rev (r_low r)) p.

(** [pop {r0-ip}; pop {lr}; pop {pc}] *)
Definition ctx_load (M : memory) (sp : Z) : regs :=
  mkregs ((fun i => ld M (sp + 4 * i)) <$> seqZ 0 13) (sp + 60) (ld M (sp + 52)) (ld M (sp + 56)).

(** ** kill *)

(** [xdone] halts the processor. *)
Definition xdone : prog kernel unit := k_disable;; Halt.

Definition k_stkfree (p len : Z) : prog kernel Z :=
  lift (fun k => '(M, r) ← stkfree (mem k) p len; Some (set_mem M k, r)).

Definition kill (tid : Z) : prog kernel Z :=
  im ← k_disable;
  bad ← gets (fun k => isbadtid k tid);
  if (bad : bool) || (tid =? NULLTHREAD) then k_restore im;; mret SYSERR
  else
    modify (fun k => set_thrcount (i32 (thrcount k - 1)) k);;
    count ← gets thrcount;
    (if count <=? 1 then xdone else mret tt);;
    thrptr ← thr tid;
    send (tparent thrptr) tid;;
    thrptr ← thr tid;
    k_stkfree (tstkbase thrptr) (tstklen thrptr);;
    thrptr ← thr tid;
    match tstate thrptr with
    | THRSLEEP => upd_thr tid (set_state THRFREE);; unsleep tid;; mret tt
    | THRCURR =>
        upd_thr tid (set_state THRFREE);;
        resched;;
        thrptr ← thr tid;
        upd_sem (tsem thrptr) (fun e => set_scount (i32 (scount e + 1)) e);;
        k_getitem tid;;
        upd_thr tid (set_state THRFREE)
    | THRWAIT =>
        upd_sem (tsem thrptr) (fun e => set_scount (i32 (scount e + 1)) e);;
        k_getitem tid;;
        upd_thr tid (set_state THRFREE)
    | THRREADY =>
        k_getitem tid;;
        upd_thr tid (set_state THRFREE)
    | THRFREE | THRRECV | THRSUSP | THRTMOUT => upd_thr tid (set_state THRFREE)
    end;;
    k_restore im;;
    mret OK.

Definition userret : prog kernel unit := tid ← gettid; kill tid;; mret tt.
