(* ===== verification/NoHalt.v ===== *)
(** * Only [kill] halts the processor; what scheduling and messages leave alone *)

From S2P Require Import Prelude Prog Queue Interrupt Memory Kernel Thread Semaphore Clock Message Lifecycle.

(** Walk down a program to its primitives. *)
Ltac nohalt :=
  repeat match goal with
  | |- nohalt (_ ≫= _) => apply nohalt_bind; [|intros ?]
  | |- nohalt (if ?b then _ else _) => destruct b
  | |- nohalt (match ?b with _ => _ end) => destruct b
  | |- nohalt (mret _) => apply nohalt_ret
  | |- nohalt (gets _) => apply nohalt_gets
  | |- nohalt (modify _) => apply nohalt_modify
  | |- nohalt (readopt _) => apply nohalt_readopt
  | |- nohalt (lift _) => apply nohalt_lift
  | |- nohalt ctxsw => apply nohalt_ctxsw
  | |- nohalt Fault => exact I
  | |- nohalt _ => solve [auto with nohalt nocore]
  end.

Section primitives.
Lemma nohalt_thr t : nohalt (thr t).
Proof. apply nohalt_readopt. Qed.
Lemma nohalt_upd_thr t f : nohalt (upd_thr t f).
Proof. apply nohalt_lift. Qed.
Lemma nohalt_sem s : nohalt (sem s).
Proof. apply nohalt_readopt. Qed.
Lemma nohalt_upd_sem s f : nohalt (upd_sem s f).
Proof. apply nohalt_lift. Qed.
Lemma nohalt_qread {A} (f : gmap Z queent -> option A) : nohalt (qread f).
Proof. apply nohalt_readopt. Qed.
Lemma nohalt_qcall {A} f : nohalt (qcall (A := A) f).
Proof. apply nohalt_lift. Qed.
Lemma nohalt_disable : nohalt k_disable.
Proof. apply nohalt_lift. Qed.
Lemma nohalt_restore im : nohalt (k_restore im).
Proof. apply nohalt_lift. Qed.
End primitives.

#[export] Hint Resolve nohalt_thr nohalt_upd_thr nohalt_sem nohalt_upd_sem nohalt_qread
  nohalt_qcall nohalt_disable nohalt_restore : nohalt.

Section calls.
Lemma nohalt_resched : nohalt resched.
Proof. unfold resched, resched_old, resched_new, k_insert, k_dequeue. nohalt. Qed.
#[local] Hint Resolve nohalt_resched : nohalt.
Lemma nohalt_ready t r : nohalt (ready t r).
Proof. unfold ready, k_insert. nohalt. Qed.
#[local] Hint Resolve nohalt_ready : nohalt.
Lemma nohalt_unsleep t : nohalt (unsleep t).
Proof. unfold unsleep, k_getitem. nohalt. Qed.
#[local] Hint Resolve nohalt_unsleep : nohalt.

Lemma nohalt_yield : nohalt yield.
Proof. unfold yield. nohalt. Qed.
Lemma nohalt_suspend t : nohalt (suspend t).
Proof. unfold suspend, k_getitem. nohalt. Qed.
Lemma nohalt_resume t : nohalt (resume t).
Proof. unfold resume. nohalt. Qed.
Lemma nohalt_chprio t p : nohalt (chprio t p).
Proof. unfold chprio. nohalt. Qed.
Lemma nohalt_getprio t : nohalt (getprio t).
Proof. unfold getprio. nohalt. Qed.
Lemma nohalt_wait s : nohalt (wait s).
Proof. unfold wait, k_enqueue. nohalt. Qed.
Lemma nohalt_signal s : nohalt (signal s).
Proof. unfold signal, k_dequeue. nohalt. Qed.
Lemma nohalt_signaln s n : nohalt (signaln s n).
Proof.
  assert (nohalt_signaln_loop : forall m, nohalt (signaln_loop s m)).
  { induction m; cbn [signaln_loop]; unfold k_dequeue; nohalt. }
  unfold signaln. nohalt.
Qed.
Lemma nohalt_semcreate n : nohalt (semcreate n).
Proof.
  assert (H : forall m, nohalt (semalloc_loop m)) by (induction m; cbn [semalloc_loop]; nohalt).
  unfold semcreate, semalloc. nohalt.
Qed.
Lemma nohalt_semfree s : nohalt (semfree s).
Proof.
  assert (H : forall m q, nohalt (ready_all m q)).
  { induction m; intros q; cbn [ready_all]; unfold k_dequeue; nohalt. }
  unfold semfree. nohalt.
Qed.
Lemma nohalt_semcount s : nohalt (semcount s).
Proof. unfold semcount. nohalt. Qed.
Lemma nohalt_sleep ms : nohalt (sleep ms).
Proof. unfold sleep, k_insertd. nohalt. Qed.
Lemma nohalt_clkupdate c : nohalt (clkupdate c).
Proof. unfold clkupdate. nohalt. Qed.
#[local] Hint Resolve nohalt_clkupdate : nohalt.
Lemma nohalt_clkhandler f : nohalt (clkhandler f).
Proof.
  assert (H : forall m q, nohalt (wakeup_loop m q)).
  { induction m; intros q; cbn [wakeup_loop]; unfold k_dequeue; nohalt. }
  unfold clkhandler, tick_sleepq, wakeup. nohalt.
Qed.
Lemma nohalt_send t m : nohalt (send t m).
Proof. unfold send. nohalt. Qed.
Lemma nohalt_receive : nohalt receive.
Proof. unfold receive. nohalt. Qed.
Lemma nohalt_recvclr : nohalt recvclr.
Proof. unfold recvclr. nohalt. Qed.
Lemma nohalt_recvtime m : nohalt (recvtime m).
Proof. unfold recvtime, k_insertd. nohalt. Qed.
Lemma nohalt_kernel_init a b c : nohalt (kernel_init a b c).
Proof.
  assert (H1 : forall m i, nohalt (init_threads m i)) by (induction m; intros i; cbn [init_threads]; nohalt).
  assert (H2 : forall m i, nohalt (init_sems m i)).
  { induction m; intros i; cbn [init_sems]; unfold k_queinit; nohalt. }
  unfold kernel_init, init_tables, init_clock, clkinit, k_queinit. nohalt.
Qed.
Lemma nohalt_create a b c d e f : nohalt (create a b c d e f).
Proof.
  assert (H1 : forall m, nohalt (thrnew_loop m)) by (induction m; cbn [thrnew_loop]; nohalt).
  unfold create, thrnew, gettid. nohalt.
Qed.
End calls.

#[export] Hint Resolve nohalt_resched nohalt_ready nohalt_unsleep nohalt_yield nohalt_suspend
  nohalt_resume nohalt_chprio nohalt_getprio nohalt_wait nohalt_signal nohalt_signaln
  nohalt_semcreate nohalt_semfree nohalt_semcount nohalt_sleep nohalt_clkupdate nohalt_clkhandler
  nohalt_send nohalt_receive nohalt_recvclr nohalt_recvtime nohalt_kernel_init nohalt_create : nohalt.

(** ** How often calls give the processor away *)

(** Walk down a program of which at most one part gives the processor away. *)
Ltac atmost :=
  repeat match goal with
  | |- atmost _ (if ?b then _ else _) => destruct b
  | |- atmost _ (match ?b with _ => _ end) => destruct b
  | |- atmost _ (_ ≫= _) => first [apply atmost_bind_l; [solve [atmost]|intros ?] | apply atmost_bind_r; [|intros ?; solve [atmost]]]
  | |- atmost _ (readopt _) => apply atmost_readopt
  | |- atmost _ (lift _) => apply atmost_lift
  | |- atmost _ (thr _) => apply atmost_readopt
  | |- atmost _ (upd_thr _ _) => apply atmost_lift
  | |- atmost _ (sem _) => apply atmost_readopt
  | |- atmost _ (upd_sem _ _) => apply atmost_lift
  | |- atmost _ (qread _) => apply atmost_readopt
  | |- atmost _ (qcall _) => apply atmost_lift
  | |- atmost _ k_disable => apply atmost_lift
  | |- atmost _ (k_restore _) => apply atmost_lift
  | |- atmost _ (mret _) => exact I
  | |- atmost _ (gets _) => intros ?; exact I
  | |- atmost _ (modify _) => intros ?; exact I
  | |- atmost _ _ => assumption
  end.

Lemma atmost_resched : atmost 1 resched.
Proof.
  assert (H : atmost 1 (ctxsw : prog kernel unit)) by exact I.
  unfold resched, resched_old, resched_new, k_insert, k_dequeue. atmost.
Qed.
Lemma atmost_ready t r : atmost 1 (ready t r).
Proof. pose proof atmost_resched. unfold ready, k_insert. atmost. Qed.
Lemma atmost_unsleep t : atmost 0 (unsleep t).
Proof. unfold unsleep, k_getitem. atmost. Qed.
Lemma atmost_wait s : atmost 1 (wait s).
Proof. pose proof atmost_resched. unfold wait, k_enqueue. atmost. Qed.
Lemma atmost_send t m : atmost 1 (send t m).
Proof.
  pose proof (atmost_ready t RESCHED_YES). pose proof (atmost_unsleep t). unfold send. atmost.
Qed.

(** ** What scheduling and messages leave alone *)

Class Aside {X} (f : kernel -> X) : Prop := {
  aside_quetab : forall v k, f (set_quetab v k) = f k;
  aside_thrtab : forall v k, f (set_thrtab v k) = f k;
  aside_thrcurrent : forall v k, f (set_thrcurrent v k) = f k;
  aside_resdefer : forall v k, f (set_resdefer v k) = f k;
  aside_irq : forall v k, f (set_irq v k) = f k;
}.

#[export] Instance semtab_aside : Aside semtab.
Proof. by split. Qed.
#[export] Instance clktime_aside : Aside clktime.
Proof. by split. Qed.
#[export] Instance mem_aside : Aside mem.
Proof. by split. Qed.

Ltac keeps :=
  repeat match goal with
  | |- keeps _ _ (_ ≫= _) => apply keeps_bind; [|intros ?]
  | |- keeps _ _ (if ?b then _ else _) => destruct b
  | |- keeps _ _ _ => solve [auto with keeps nocore]
  end.

Section frame.
Context {X : Type} (f : kernel -> X) `{!Aside f} (v : X).

Lemma keeps_thr t : keeps f v (thr t).
Proof. apply keeps_readopt. Qed.
Lemma keeps_upd_thr t g : keeps f v (upd_thr t g).
Proof.
  apply keeps_lift. intros k k' a. destruct (thrtab k !! t); intros [= <- <-]. apply aside_thrtab.
Qed.
Lemma keeps_qread {A} (g : gmap Z queent -> option A) : keeps f v (qread g).
Proof. apply keeps_readopt. Qed.
Lemma keeps_qcall {A} g : keeps f v (qcall (A := A) g).
Proof.
  apply keeps_lift. intros k k' a. destruct (g (isbadtid k) (quetab k)) as [[tab r]|]; intros [= <- <-].
  apply aside_quetab.
Qed.
Lemma keeps_disable : keeps f v k_disable.
Proof. apply keeps_lift. intros k k' a [= <- <-]. apply aside_irq. Qed.
Lemma keeps_restore im : keeps f v (k_restore im).
Proof. apply keeps_lift. intros k k' a [= <- <-]. apply aside_irq. Qed.
Lemma keeps_current t : keeps f v (modify (set_thrcurrent t)).
Proof. apply keeps_modify. intros k. apply aside_thrcurrent. Qed.
Lemma keeps_defer t : keeps f v (modify (set_resdefer t)).
Proof. apply keeps_modify. intros k. apply aside_resdefer. Qed.

#[local] Hint Resolve keeps_thr keeps_upd_thr keeps_qread keeps_qcall keeps_disable keeps_restore
  keeps_current keeps_defer : keeps.

Lemma keeps_resched : keeps f v resched.
Proof. unfold resched, resched_old, resched_new, k_insert, k_dequeue. keeps. Qed.
#[local] Hint Resolve keeps_resched : keeps.
Lemma keeps_ready t r : keeps f v (ready t r).
Proof. unfold ready, k_insert. keeps. Qed.
#[local] Hint Resolve keeps_ready : keeps.
Lemma keeps_unsleep t : keeps f v (unsleep t).
Proof. unfold unsleep, k_getitem. keeps. Qed.
#[local] Hint Resolve keeps_unsleep : keeps.
Lemma keeps_send t m : keeps f v (send t m).
Proof. unfold send. keeps. Qed.

Lemma keeps_wakeup_loop fuel q : keeps f v (wakeup_loop fuel q).
Proof.
  induction fuel as [|fuel IH]; [done|]. cbn [wakeup_loop]. unfold k_dequeue. keeps.
Qed.
Lemma keeps_wakeup : keeps f v wakeup.
Proof. apply keeps_bind; [apply keeps_gets|]. intros q. apply keeps_wakeup_loop. Qed.
#[local] Hint Resolve keeps_wakeup : keeps.
Lemma keeps_tick_sleepq q : keeps f v (tick_sleepq q).
Proof. unfold tick_sleepq. keeps. Qed.

End frame.

#[export] Instance tim_aside : Aside tim.
Proof. by split. Qed.

(** A started timer is left alone by the clock interrupt. *)
Lemma keeps_clkhandler clkfreq t : tm_started t = true -> keeps tim t (clkhandler clkfreq).
Proof.
  intros Ht. unfold clkhandler. apply keeps_bind.
  { intros k <-. cbn [pbind]. unfold clkupdate. simpl. by rewrite Ht. }
  intros _. apply keeps_bind; [by apply keeps_modify|]. intros _.
  apply keeps_bind; [apply keeps_modify; intros k; by destruct (CLKTICKS_PER_SEC <=? clkticks k)|]. intros _.
  apply keeps_bind; [apply keeps_gets|]. intros q. apply keeps_bind; [apply keeps_tick_sleepq, _|]. intros _.
  apply keeps_bind; [by apply keeps_modify|]. intros _. apply keeps_bind; [apply keeps_resched, _|]. done.
Qed.
