(* ===== verification/Placement.v ===== *)
(** * Where every thread is

    [placed] relates the thread table, the semaphore table and the queues: a
    thread is in the one queue its state names and in no other.  While a system
    call moves a thread it is the exempt one, [x]: in no queue, its state still
    or already naming one. *)

From S2P Require Import Prelude Queue QueueSpec QueueSys Interrupt Memory Kernel.

(** The queue in which the state of a thread says it is; no queue is [-1]. *)
Definition home (sems : gmap Z sement) (rl sq : Z) (e : thrent) : option Z :=
  match tstate e with
  | THRREADY => Some rl
  | THRSLEEP | THRTMOUT => Some sq
  | THRWAIT => Some (default (-1) (squeue <$> sems !! tsem e))
  | THRCURR | THRFREE | THRRECV | THRSUSP => None
  end.

Definition keysum (tab : gmap Z queent) (l : list Z) : Z :=
  foldr (fun t s => kk tab t + s) 0 l.

(** Keys of the sleep queue: no wake-up time is in the past or beyond an [int]. *)
Definition sleep_ok (tab : gmap Z queent) (l : list Z) : Prop :=
  Forall (fun t => 0 <= kk tab t) l /\ keysum tab l < 2 ^ 31.

(** A semaphore whose queue is [l]. *)
Definition sem_ok (s : sement) (l : list Z) : Prop :=
  length l = Z.to_nat (- scount s) /\ (sstate s = SFREE -> scount s = 0) /\ is_i32 (scount s).

Definition rests (e : thrent) : Prop := tstate e = THRREADY \/ tstate e = THRCURR.

Record placed (tab : gmap Z queent) (thrs : gmap Z thrent) (sems : gmap Z sement)
    (rl sq : Z) (x : option Z) (qs : gmap Z (list Z)) : Prop := {
  pl_rep : qs_rep tab qs;
  pl_thr : forall t, is_Some (thrs !! t) <-> valid_tid t;
  pl_semdom : forall s, is_Some (sems !! s) <-> 0 <= s < NSEM;
  pl_rl : exists l, qs !! rl = Some l /\ descending tab l;
  pl_sq : exists l, qs !! sq = Some l /\ sleep_ok tab l;
  pl_sem : forall s e, sems !! s = Some e ->
    squeue e <> rl /\ squeue e <> sq /\ exists l, qs !! squeue e = Some l /\ sem_ok e l;
  pl_inj : forall s1 s2 e1 e2, sems !! s1 = Some e1 -> sems !! s2 = Some e2 ->
    squeue e1 = squeue e2 -> s1 = s2;
  pl_ne : rl <> sq;
  pl_in : forall q l t, qs !! q = Some l -> t ∈ l ->
    x <> Some t /\ exists e, thrs !! t = Some e /\ home sems rl sq e = Some q;
  pl_out : forall t e q, thrs !! t = Some e -> x <> Some t -> home sems rl sq e = Some q ->
    exists l, qs !! q = Some l /\ t ∈ l;
  pl_null : forall e, thrs !! NULLTHREAD = Some e -> x <> Some NULLTHREAD -> rests e;
  pl_prio : forall t e, thrs !! t = Some e -> MINKEY < tprio e;
}.

Section placed.
Context {tab : gmap Z queent} {thrs : gmap Z thrent} {sems : gmap Z sement} {rl sq : Z}.
Implicit Types (x : option Z) (qs : gmap Z (list Z)).

Lemma pl_unqueued x qs t : placed tab thrs sems rl sq x qs -> x = Some t -> unqueued qs t.
Proof. intros H -> q l Hq Ht. by apply (pl_in _ _ _ _ _ _ _ H _ _ _ Hq) in Ht as [? _]. Qed.

Lemma pl_homeless x qs t e : placed tab thrs sems rl sq x qs ->
  thrs !! t = Some e -> home sems rl sq e = None -> unqueued qs t.
Proof.
  intros H E Hh q l Hq Ht. apply (pl_in _ _ _ _ _ _ _ H _ _ _ Hq) in Ht as (_ & e' & E' & Hh').
  congruence.
Qed.

(** A thread that is in no queue may be exempted. *)
Lemma placed_exempt qs t e : placed tab thrs sems rl sq None qs ->
  thrs !! t = Some e -> home sems rl sq e = None ->
  placed tab thrs sems rl sq (Some t) qs.
Proof.
  intros H E Hh. pose proof (pl_homeless _ _ _ _ H E Hh) as Hu.
  destruct H as [H1 H2 H3 H4 H5 H6 H7 H8 H9 H10 H11 H12]. split; try done.
  - intros q l u Hq Hu'. split; [|by eapply H9]. intros [= ->]. by eapply Hu.
  - intros u e' q E' _. by apply H10.
  - intros e' E' _. by apply H11.
Qed.

(** An exempt thread whose state names no queue is in its place. *)
Lemma placed_settle qs t e : placed tab thrs sems rl sq (Some t) qs ->
  thrs !! t = Some e -> home sems rl sq e = None -> (t = NULLTHREAD -> rests e) ->
  placed tab thrs sems rl sq None qs.
Proof.
  intros [H1 H2 H3 H4 H5 H6 H7 H8 H9 H10 H11 H12] E Hh Hn. split; try done.
  - intros q l u Hq Hu. split; [done|]. by apply H9 with l.
  - intros u e' q E' _ Hq. destruct (decide (u = t)) as [->|Hne]; [congruence|].
    apply (H10 _ _ _ E'); [congruence|done].
  - intros e' E' _. destruct (decide (t = NULLTHREAD)) as [->|Hne]; [|by apply H11; congruence].
    rewrite E in E'. injection E' as <-. by apply Hn.
Qed.

(** Changes of an entry that keep its queue. *)
Lemma placed_thr x qs t e e' : placed tab thrs sems rl sq x qs ->
  thrs !! t = Some e -> x = Some t \/ home sems rl sq e' = home sems rl sq e ->
  (x <> Some t -> t = NULLTHREAD -> rests e -> rests e') -> MINKEY < tprio e' ->
  placed tab (<[t := e']> thrs) sems rl sq x qs.
Proof.
  intros [H1 H2 H3 H4 H5 H6 H7 H8 H9 H10 H11 H12] E Hh Hn Hp. split; try done.
  - intros u. rewrite lookup_insert. case_decide; [subst|apply H2].
    split; [|by eauto]. intros _. apply H2. eauto.
  - intros q l u Hq Hu. destruct (H9 _ _ _ Hq Hu) as (Hx & eu & Eu & Hhu). split; [done|].
    rewrite lookup_insert. case_decide; [subst|by eauto].
    exists e'. split; [done|]. destruct Hh as [-> | ->]; [done|]. by simplify_eq.
  - intros u eu q. rewrite lookup_insert. case_decide; [subst|by apply H10].
    intros [= <-] Hx. destruct Hh as [-> | ->]; [done|]. by apply H10.
  - intros e0. rewrite lookup_insert. case_decide; [subst|by apply H11].
    intros [= <-] Hx. apply Hn; [done..|]. by apply H11.
  - intros u eu. rewrite lookup_insert. case_decide; [by intros [= <-]|apply H12].
Qed.

(** Queues and keys outside the list that changed. *)
Definition kept (tab' : gmap Z queent) (L : list Z) : Prop :=
  forall i, i ∉ L -> kk tab' i = kk tab i.

Lemma sleep_ok_ext tab1 tab2 l :
  (forall t, t ∈ l -> kk tab2 t = kk tab1 t) -> sleep_ok tab1 l -> sleep_ok tab2 l.
Proof.
  intros H [H1 H2]. split.
  - rewrite Forall_forall in *. intros t Ht. rewrite H by done. auto.
  - enough (keysum tab2 l = keysum tab1 l) as -> by done. clear -H.
    induction l as [|t l IH]; simpl; [done|]. rewrite H, IH by set_solver. done.
Qed.

(** Semaphores when the queue [q] becomes [l']. *)
Definition sems_upd (sems' : gmap Z sement) (q : Z) (l' : list Z) : Prop :=
  forall s e', sems' !! s = Some e' -> exists e, sems !! s = Some e /\ squeue e' = squeue e
    /\ if decide (squeue e = q) then sem_ok e' l' else e' = e.

Lemma home_upd sems' q l' e :
  sems_upd sems' q l' -> (forall s, is_Some (sems' !! s) <-> is_Some (sems !! s)) ->
  home sems' rl sq e = home sems rl sq e.
Proof.
  intros H Hd. unfold home. destruct (tstate e); try done.
  destruct (sems' !! tsem e) as [e'|] eqn:E'.
  - destruct (H _ _ E') as (e0 & -> & Hq & _). simpl. by rewrite Hq.
  - destruct (sems !! tsem e) eqn:E0; [|done].
    destruct (proj2 (Hd (tsem e))) as [? Hs]; [by eauto|]. congruence.
Qed.

(** The conditions on the queues when [q] goes from [l] to [l'] around [t]. *)
Record moved (tab' : gmap Z queent) (sems' : gmap Z sement) (qs : gmap Z (list Z))
    (q : Z) (l l' : list Z) (t : Z) : Prop := {
  mv_old : qs !! q = Some l;
  mv_rep : qs_rep tab' (<[q := l']> qs);
  mv_elem : forall u, u <> t -> u ∈ l' <-> u ∈ l;
  mv_keys : kept tab' (t :: l);
  mv_dom : forall s, is_Some (sems' !! s) <-> is_Some (sems !! s);
  mv_sems : sems_upd sems' q l';
  mv_ready : q = rl -> descending tab' l';
  mv_sleep : q = sq -> sleep_ok tab' l';
}.

Lemma moved_queues tab' sems' x qs q l l' t :
  placed tab thrs sems rl sq x qs -> moved tab' sems' qs q l l' t ->
  (unqueued qs t \/ t ∈ l) ->
  (exists l0, <[q := l']> qs !! rl = Some l0 /\ descending tab' l0)
  /\ (exists l0, <[q := l']> qs !! sq = Some l0 /\ sleep_ok tab' l0)
  /\ (forall s e, sems' !! s = Some e ->
      squeue e <> rl /\ squeue e <> sq
      /\ exists l0, <[q := l']> qs !! squeue e = Some l0 /\ sem_ok e l0).
Proof.
  intros H [Ho Hr He Hk Hd Hs Hrl Hsl] Ht.
  assert (Hother : forall q2 l2 u, q2 <> q -> qs !! q2 = Some l2 -> u ∈ l2 -> kk tab' u = kk tab u).
  { intros q2 l2 u Hne Hq2 Hu. apply Hk. rewrite elem_of_cons. intros [->|Hul].
    - destruct Ht as [Ht|Ht]; [by eapply Ht|].
      apply Hne. by eapply (qs_disj _ _ (pl_rep _ _ _ _ _ _ _ H)).
    - apply Hne. by eapply (qs_disj _ _ (pl_rep _ _ _ _ _ _ _ H)). }
  split_and!.
  - rewrite lookup_insert. case_decide as Hq; [by eauto|].
    destruct (pl_rl _ _ _ _ _ _ _ H) as (l0 & E0 & H0). exists l0. split; [done|].
    eapply descending_ext; [|done]. intros u Hu. eapply Hother; [|done..]. congruence.
  - rewrite lookup_insert. case_decide as Hq; [by eauto|].
    destruct (pl_sq _ _ _ _ _ _ _ H) as (l0 & E0 & H0). exists l0. split; [done|].
    eapply sleep_ok_ext; [|done]. intros u Hu. eapply Hother; [|done..]. congruence.
  - intros s e' Es'. destruct (Hs _ _ Es') as (e & Es & -> & Hupd).
    destruct (pl_sem _ _ _ _ _ _ _ H _ _ Es) as (N1 & N2 & l0 & E0 & H0).
    split_and!; [done..|]. rewrite lookup_insert.
    destruct (decide (squeue e = q)) as [->|Hne].
    + rewrite decide_True by done. eauto.
    + rewrite decide_False by congruence. subst e'. eauto.
Qed.

(** The thread [t] leaves the queue [q] and is exempt. *)
Lemma placed_take tab' sems' qs q l l' t :
  placed tab thrs sems rl sq None qs -> moved tab' sems' qs q l l' t -> t ∈ l -> t ∉ l' ->
  placed tab' thrs sems' rl sq (Some t) (<[q := l']> qs).
Proof.
  intros H Hm Hin Hout. destruct (moved_queues _ _ _ _ _ _ _ _ H Hm (or_intror Hin)) as (Q1 & Q2 & Q3).
  pose proof (qs_disj _ _ (pl_rep _ _ _ _ _ _ _ H)) as Hdisj.
  destruct Hm as [Ho Hr He Hk Hd Hs Hrl Hsl].
  destruct H as [H1 H2 H3 H4 H5 H6 H7 H8 H9 H10 H11 H12]. split; try done.
  - intros s. rewrite Hd. apply H3.
  - intros s1 s2 e1 e2 E1 E2 Heq. destruct (Hs _ _ E1) as (e1' & E1' & Eq1 & _).
    destruct (Hs _ _ E2) as (e2' & E2' & Eq2 & _). eapply H7; [done..|congruence].
  - intros q2 l2 u. rewrite lookup_insert. setoid_rewrite (home_upd _ _ _ _ Hs Hd).
    case_decide as Hq; [subst q2; intros [= <-] Hu|intros Hq2 Hu].
    + assert (u <> t) by congruence. split; [congruence|]. eapply H9; [done|]. by apply He.
    + split; [|by eapply H9]. intros [= ->]. apply Hq. by eapply Hdisj.
  - intros u e q2 E Hne. rewrite (home_upd _ _ _ _ Hs Hd). intros Hh.
    destruct (H10 _ _ _ E ltac:(done) Hh) as (l2 & E2 & Hu2). rewrite lookup_insert.
    case_decide as Hq; [subst q2|by eauto]. exists l'. split; [done|].
    apply He; [congruence|]. congruence.
  - intros e E Hne. by apply H11.
Qed.

(** The exempt thread [t] enters the queue its state names. *)
Lemma placed_put tab' sems' qs q l l' t e :
  placed tab thrs sems rl sq (Some t) qs -> moved tab' sems' qs q l l' t -> t ∈ l' ->
  thrs !! t = Some e -> home sems rl sq e = Some q -> (t = NULLTHREAD -> rests e) ->
  placed tab' thrs sems' rl sq None (<[q := l']> qs).
Proof.
  intros H Hm Hin E Hh Hn. pose proof (pl_unqueued _ _ _ H eq_refl) as Hu.
  destruct (moved_queues _ _ _ _ _ _ _ _ H Hm (or_introl Hu)) as (Q1 & Q2 & Q3).
  destruct Hm as [Ho Hr He Hk Hd Hs Hrl Hsl].
  destruct H as [H1 H2 H3 H4 H5 H6 H7 H8 H9 H10 H11 H12]. split; try done.
  - intros s. rewrite Hd. apply H3.
  - intros s1 s2 e1 e2 E1 E2 Heq. destruct (Hs _ _ E1) as (e1' & E1' & Eq1 & _).
    destruct (Hs _ _ E2) as (e2' & E2' & Eq2 & _). eapply H7; [done..|congruence].
  - intros q2 l2 u. rewrite lookup_insert. setoid_rewrite (home_upd _ _ _ _ Hs Hd).
    case_decide as Hq; [subst q2; intros [= <-] Hul|intros Hq2 Hul].
    + split; [done|]. destruct (decide (u = t)) as [->|Hne]; [by eauto|].
      eapply (H9 q l); [done|]. by apply He.
    + split; [done|]. by eapply H9.
  - intros u e2 q2 E2 _. rewrite (home_upd _ _ _ _ Hs Hd). intros Hh2. rewrite lookup_insert.
    destruct (decide (u = t)) as [->|Hne].
    + simplify_eq. rewrite decide_True by done. eauto.
    + destruct (H10 _ _ _ E2 ltac:(congruence) Hh2) as (l2 & El2 & Hu2).
      case_decide as Hq; [subst q2|by eauto]. exists l'. split; [done|].
      apply He; [done|]. congruence.
  - intros e2 E2 _. destruct (decide (t = NULLTHREAD)) as [->|Hne].
    + rewrite E in E2. injection E2 as <-. by apply Hn.
    + apply H11; [done|congruence].
Qed.

(** A semaphore changes without its queue. *)
Lemma placed_sem x qs s e e' : placed tab thrs sems rl sq x qs ->
  sems !! s = Some e -> squeue e' = squeue e -> (forall l, sem_ok e l -> sem_ok e' l) ->
  placed tab thrs (<[s := e']> sems) rl sq x qs.
Proof.
  intros [H1 H2 H3 H4 H5 H6 H7 H8 H9 H10 H11 H12] E Hq Hok.
  assert (Hold : forall s' e0, <[s := e']> sems !! s' = Some e0 ->
    exists e1, sems !! s' = Some e1 /\ squeue e0 = squeue e1 /\ (forall l, sem_ok e1 l -> sem_ok e0 l)).
  { intros s' e0. rewrite lookup_insert. case_decide; [intros [= <-]; subst; eauto|eauto]. }
  assert (Hh : forall e0, home (<[s := e']> sems) rl sq e0 = home sems rl sq e0).
  { intros e0. unfold home. destruct (tstate e0); try done. rewrite lookup_insert.
    case_decide; [subst|done]. rewrite E. simpl. by rewrite Hq. }
  split; try done.
  - intros s'. rewrite lookup_insert. case_decide; [subst|apply H3].
    split; [|by eauto]. intros _. apply H3. eauto.
  - intros s' e0 E0. destruct (Hold _ _ E0) as (e1 & E1 & -> & Hk).
    destruct (H6 _ _ E1) as (N1 & N2 & l & El & Hl). split_and!; eauto.
  - intros s1 s2 e1 e2 E1 E2 Heq. destruct (Hold _ _ E1) as (e1' & E1' & Q1 & _).
    destruct (Hold _ _ E2) as (e2' & E2' & Q2 & _). eapply H7; [done..|congruence].
  - intros q l t Hl Ht. destruct (H9 _ _ _ Hl Ht) as (Hx & e0 & E0 & Hh0).
    split; [done|]. exists e0. by rewrite Hh.
  - intros t e0 q E0 Hx. rewrite Hh. by apply H10.
Qed.

Lemma sems_upd_insert x qs s e e' l' : placed tab thrs sems rl sq x qs ->
  sems !! s = Some e -> squeue e' = squeue e -> sem_ok e' l' ->
  sems_upd (<[s := e']> sems) (squeue e) l'.
Proof.
  intros H E Hq Hok s' e0. rewrite lookup_insert. case_decide as Hs.
  - intros [= <-]. subst s'. exists e. rewrite decide_True by done. done.
  - intros E0. exists e0. split_and!; [done..|]. rewrite decide_False; [done|].
    intros Heq. apply Hs. by eapply (pl_inj _ _ _ _ _ _ _ H).
Qed.

Lemma sems_dom_insert s e e' s' : sems !! s = Some e ->
  is_Some (<[s := e']> sems !! s') <-> is_Some (sems !! s').
Proof. intros E. rewrite lookup_insert. case_decide; [subst; rewrite E|done]. split; eauto. Qed.

End placed.
