(* ===== verification/Invariant.v ===== *)
(** * The invariant of the kernel and the primitive steps of the system calls *)

From S2P Require Import Prelude Prog Queue QueueSpec QueueSys Interrupt Memory Kernel Placement.

(** ** The invariant *)

(** The queues of the kernel hold [qs]; [x] is the thread being moved. *)
Definition Kpl (x : option Z) (k : kernel) (qs : gmap Z (list Z)) : Prop :=
  placed (quetab k) (thrtab k) (semtab k) (readylist k) (sleepq k) x qs.

(** Rescheduling is not deferred and only maskable sources are enabled. *)
Definition ctl (k : kernel) : Prop := resdefer k <= 0 /\ vic_ok (irq k).

Definition only_curr (k : kernel) : Prop :=
  forall t e, thrtab k !! t = Some e -> tstate e = THRCURR -> t = thrcurrent k.

(** Between system calls: the current thread is the one in state THRCURR. *)
Record KInvq (k : kernel) (qs : gmap Z (list Z)) : Prop := {
  ki_placed : Kpl None k qs;
  ki_curr : exists e, thrtab k !! thrcurrent k = Some e /\ tstate e = THRCURR;
  ki_only : only_curr k;
  ki_ctl : ctl k;
}.

Definition KInv (k : kernel) : Prop := exists qs, KInvq k qs.

(** When [resched] is called: the current thread may have left THRCURR. *)
Record KPre (k : kernel) (qs : gmap Z (list Z)) : Prop := {
  kp_placed : Kpl None k qs;
  kp_curr : valid_tid (thrcurrent k);
  kp_only : only_curr k;
  kp_ctl : ctl k;
}.

(** ** What a thread may do to another one

    As long as it lives, a thread that is not running keeps its stack, its saved
    interrupt mask and the message it was sent, and leaves the state THRRECV
    only with a message. *)

(** The stack of a thread: its highest word and its size. *)
Definition stack_of (e : thrent) : Z * Z := (tstkbase e, tstklen e).

Record evolves (e e' : thrent) : Prop := {
  ev_mask : tintmask e' = tintmask e;
  ev_msg : thasmsg e = true -> thasmsg e' = true /\ tmsg e' = tmsg e;
  ev_recv : tstate e = THRRECV -> tstate e' = THRRECV \/ thasmsg e' = true;
  ev_free : tstate e' = THRFREE <-> tstate e = THRFREE;
  ev_stack : stack_of e' = stack_of e;
}.

#[export] Instance evolves_refl : Reflexive evolves.
Proof. intros e. by split; auto. Qed.
#[export] Instance evolves_trans : Transitive evolves.
Proof.
  intros e1 e2 e3 [A1 A2 A3 A4 A5] [B1 B2 B3 B4 B5]. split.
  - congruence.
  - intros H. destruct (A2 H) as [H2 <-]. auto.
  - intros H. destruct (A3 H) as [H2|H2]; [auto|]. right. by apply B2.
  - by rewrite B4.
  - congruence.
Qed.

(** What thread [c] did between [k0] and [k]: the others evolved, its own stack
    is where it was, and the heap was not touched. *)
Definition others (c : Z) (k0 k : kernel) : Prop :=
  (forall u e, u <> c -> thrtab k0 !! u = Some e ->
     exists e', thrtab k !! u = Some e' /\ evolves e e')
  /\ (forall u, is_Some (thrtab k !! u) -> is_Some (thrtab k0 !! u))
  /\ (forall e e', thrtab k0 !! c = Some e -> thrtab k !! c = Some e' ->
       stack_of e' = stack_of e /\ (tstate e' = THRFREE -> tstate e = THRFREE))
  /\ mem k = mem k0.

Lemma others_eq c k0 k : thrtab k = thrtab k0 -> mem k = mem k0 -> others c k0 k.
Proof.
  intros E Em. split_and!; [| | |done].
  - intros u e _ H. exists e. by rewrite E.
  - intros u. by rewrite E.
  - intros e e' H H'. split; congruence.
Qed.

(** One entry changes: the caller's own, or another one as [evolves] allows. *)
Lemma others_upd c k0 k k' t e e' :
  others c k0 k -> thrtab k !! t = Some e ->
  thrtab k' = <[t := e']> (thrtab k) /\ mem k' = mem k /\ stack_of e' = stack_of e
    /\ (tstate e' = THRFREE -> tstate e = THRFREE) ->
  (t <> c -> evolves e e') -> others c k0 k'.
Proof.
  intros (H1 & H2 & H3 & H4) Et (E & Em & Hst & Hfr) Hv. split_and!.
  - intros u eu Hu Eu. destruct (H1 _ _ Hu Eu) as (e2 & E2 & V2).
    rewrite E, lookup_insert. case_decide; [subst|by eauto].
    simplify_eq. exists e'. split; [done|]. etransitivity; eauto.
  - intros u. rewrite E, lookup_insert. case_decide; [subst|apply H2]. intros _. apply H2. eauto.
  - intros e1 e2 E1. rewrite E, lookup_insert. case_decide; [subst|by apply H3].
    intros [= <-]. rewrite Hst. destruct (H3 _ _ E1 Et). split; auto.
  - congruence.
Qed.

(** ** Rely and guarantee of the running thread *)

Definition Gd (c : Z) (k0 k : kernel) : Prop := KInv k /\ others c k0 k.

Definition Rl (c : Z) (k k' : kernel) : Prop :=
  KInv k' /\ thrcurrent k' = c
  /\ exists e e', thrtab k !! c = Some e /\ thrtab k' !! c = Some e' /\ evolves e e'.

(** The caller's own entry across a call that may block. *)
Definition resumed (e e' : thrent) : Prop :=
  (thasmsg e = true -> thasmsg e' = true /\ tmsg e' = tmsg e)
  /\ (tstate e = THRRECV -> thasmsg e' = true)
  /\ tstate e <> THRFREE.

Definition mask (k : kernel) : Z := vic_get_irqmask (irq k).

Section kwp.
Context (G R : kernel -> kernel -> Prop).

Definition kwp {A} (Q : A -> kernel -> kernel -> Prop) (p : prog kernel A) := wp G R Q p.

End kwp.

(** ** Interrupt masks *)

Lemma vic_ok_set im v : vic_ok v -> vic_ok (vic_set_irqmask im v).
Proof.
  intros Hv. unfold vic_ok in *. unfold vic_set_irqmask.
  rewrite write_both; [apply land_ffff_range| |apply land_ffff_range].
  destruct (irqmask_interrupts_enabled im); simpl; lia.
Qed.

Lemma mask_set v v' : vic_ok v -> vic_ok v' ->
  vic_get_irqmask (vic_set_irqmask (vic_get_irqmask v') v) = vic_get_irqmask v'.
Proof.
  intros Hv Hv'. unfold vic_get_irqmask at 2. rewrite restore_pack by (unfold vic_ok in *; lia).
  unfold vic_get_irqmask, irqmask_pack. simpl. rewrite <- Z.land_assoc. done.
Qed.

(** ** Steps of the programs *)

Section steps.
Context {G R : kernel -> kernel -> Prop} {A : Type}.
Implicit Types (Q : A -> kernel -> kernel -> Prop) (k : kernel).

Lemma kwp_disable Q g k0 k :
  kwp G R Q (g (mask k)) k0 (set_irq (vic_disable_interrupts (irq k)) k) ->
  kwp G R Q (k_disable ≫= g) k0 k.
Proof. done. Qed.

Lemma kwp_restore Q g k0 k im :
  kwp G R Q (g (mask k)) k0 (set_irq (vic_set_irqmask im (irq k)) k) ->
  kwp G R Q (k_restore im ≫= g) k0 k.
Proof. done. Qed.

Lemma kwp_thr Q g k0 k t e : thrtab k !! t = Some e ->
  kwp G R Q (g e) k0 k -> kwp G R Q (thr t ≫= g) k0 k.
Proof. intros E H. by eapply wp_readopt. Qed.

Lemma kwp_upd_thr Q g k0 k t f e : thrtab k !! t = Some e ->
  kwp G R Q (g tt) k0 (set_thrtab (<[t := f e]> (thrtab k)) k) -> kwp G R Q (upd_thr t f ≫= g) k0 k.
Proof. intros E H. eapply wp_lift; [by rewrite E|done]. Qed.

Lemma kwp_upd_thr_end (Q : unit -> kernel -> kernel -> Prop) k0 k t f e : thrtab k !! t = Some e ->
  Q tt k0 (set_thrtab (<[t := f e]> (thrtab k)) k) -> kwp G R Q (upd_thr t f) k0 k.
Proof. intros E H. unfold kwp, upd_thr, lift. simpl. by rewrite E. Qed.

Lemma kwp_sem Q g k0 k s e : semtab k !! s = Some e ->
  kwp G R Q (g e) k0 k -> kwp G R Q (sem s ≫= g) k0 k.
Proof. intros E H. by eapply wp_readopt. Qed.

Lemma kwp_upd_sem Q g k0 k s f e : semtab k !! s = Some e ->
  kwp G R Q (g tt) k0 (set_semtab (<[s := f e]> (semtab k)) k) -> kwp G R Q (upd_sem s f ≫= g) k0 k.
Proof. intros E H. eapply wp_lift; [by rewrite E|done]. Qed.

Lemma kwp_qread {B} (f : gmap Z queent -> option B) Q g k0 k b : f (quetab k) = Some b ->
  kwp G R Q (g b) k0 k -> kwp G R Q (qread f ≫= g) k0 k.
Proof. intros E H. by eapply wp_readopt. Qed.

Lemma kwp_qcall {B} f (Q : A -> kernel -> kernel -> Prop) (g : B -> prog kernel A) k0 k tab b :
  f (isbadtid k) (quetab k) = Some (tab, b) ->
  kwp G R Q (g b) k0 (set_quetab tab k) -> kwp G R Q (qcall f ≫= g) k0 k.
Proof. intros E H. eapply wp_lift; [by rewrite E|done]. Qed.

Lemma kwp_qcall_end {B} f (Q : B -> kernel -> kernel -> Prop) k0 k tab b :
  f (isbadtid k) (quetab k) = Some (tab, b) -> Q b k0 (set_quetab tab k) -> kwp G R Q (qcall f) k0 k.
Proof. intros E H. unfold kwp, qcall, lift. simpl. by rewrite E. Qed.

Lemma kwp_bind {B} (p : prog kernel B) (g : B -> prog kernel A) Q k0 k :
  kwp G R (fun b => kwp G R Q (g b)) p k0 k -> kwp G R Q (p ≫= g) k0 k.
Proof. apply wp_bind. Qed.

Lemma kwp_gets {B} (f : kernel -> B) (g : B -> prog kernel A) Q k0 k :
  kwp G R Q (g (f k)) k0 k -> kwp G R Q (gets f ≫= g) k0 k.
Proof. done. Qed.

Lemma kwp_modify f (g : unit -> prog kernel A) Q k0 k :
  kwp G R Q (g tt) k0 (f k) -> kwp G R Q (modify f ≫= g) k0 k.
Proof. done. Qed.

Lemma kwp_ret (a : A) Q k0 k : Q a k0 k -> kwp G R Q (mret a) k0 k.
Proof. done. Qed.

Lemma kwp_ret_bind {B} (b : B) (g : B -> prog kernel A) Q k0 k :
  kwp G R Q (g b) k0 k -> kwp G R Q (mret b ≫= g) k0 k.
Proof. done. Qed.

Lemma kwp_mono (p : prog kernel A) Q Q' k0 k :
  kwp G R Q p k0 k -> (forall a k0' k', Q a k0' k' -> Q' a k0' k') -> kwp G R Q' p k0 k.
Proof. intros H HQ. by eapply wp_mono. Qed.

End steps.

(** Execute the steps whose effect is determined. *)
Ltac kstep :=
  match goal with
  | |- kwp _ _ _ (gets _ ≫= _) _ _ => apply kwp_gets
  | |- kwp _ _ _ (modify _ ≫= _) _ _ => apply kwp_modify
  | |- kwp _ _ _ (k_disable ≫= _) _ _ => apply kwp_disable
  | |- kwp _ _ _ (k_restore _ ≫= _) _ _ => apply kwp_restore
  | |- kwp _ _ _ (mret _ ≫= _) _ _ => apply kwp_ret_bind
  | |- kwp _ _ _ (mret _) _ _ => apply kwp_ret
  | |- kwp _ _ _ (thr _ ≫= _) _ _ => eapply kwp_thr; [by simpl; rewrite ?lookup_insert_eq; eauto|]
  | |- kwp _ _ _ (upd_thr _ _ ≫= _) _ _ => eapply kwp_upd_thr; [by simpl; rewrite ?lookup_insert_eq; eauto|]
  | |- kwp _ _ _ (sem _ ≫= _) _ _ => eapply kwp_sem; [by simpl; rewrite ?lookup_insert_eq; eauto|]
  | |- kwp _ _ _ (upd_sem _ _ ≫= _) _ _ => eapply kwp_upd_sem; [by simpl; rewrite ?lookup_insert_eq; eauto|]
  | |- kwp _ _ _ ((_ ≫= _) ≫= _) _ _ => apply kwp_bind
  | |- kwp _ _ _ ((if _ then _ else _) ≫= _) _ _ => apply kwp_bind
  end; cbn beta.
