(* ===== verification/Sched.v ===== *)
(** * Scheduling keeps the invariant *)

From S2P Require Import Prelude Prog Queue QueueSpec QueueSys Interrupt Memory Kernel Thread Placement Invariant.

Lemma isbadtid_spec k t e : thrtab k !! t = Some e -> valid_tid t ->
  isbadtid k t = bool_decide (tstate e = THRFREE).
Proof.
  intros E [H1 H2]. unfold isbadtid. rewrite E.
  destruct (Z.leb_spec NTHREAD t), (Z.ltb_spec t 0); lia || done.
Qed.

Lemma isbadtid_false k t e : thrtab k !! t = Some e -> valid_tid t -> tstate e <> THRFREE ->
  isbadtid k t = false.
Proof. intros E Hv Hs. rewrite (isbadtid_spec _ _ _ E Hv). by apply bool_decide_eq_false. Qed.

Lemma isbadtid_good k t : isbadtid k t = false -> (forall u, is_Some (thrtab k !! u) <-> valid_tid u) ->
  exists e, thrtab k !! t = Some e /\ tstate e <> THRFREE /\ valid_tid t.
Proof.
  unfold isbadtid. intros H Hd. btests. destruct (thrtab k !! t) as [e|] eqn:E; [|done].
  exists e. apply bool_decide_eq_false in H0. split_and!; [done..|]. split; lia.
Qed.

Section sched.
Implicit Types (k : kernel) (tab : gmap Z queent) (qs : gmap Z (list Z)).

Lemma Kpl_valid x k qs t e : Kpl x k qs -> thrtab k !! t = Some e -> valid_tid t.
Proof. intros H E. apply (pl_thr _ _ _ _ _ _ _ H). eauto. Qed.

Lemma Kpl_entry x k qs t : Kpl x k qs -> valid_tid t -> exists e, thrtab k !! t = Some e.
Proof. intros H Hv. by apply (pl_thr _ _ _ _ _ _ _ H). Qed.

Lemma sems_upd_refl sems q (l' : list Z) :
  (forall s e, sems !! s = Some e -> squeue e <> q) -> @sems_upd sems sems q l'.
Proof. intros H s e E. exists e. split_and!; [done..|]. rewrite decide_False; eauto. Qed.

Lemma Kpl_rl_sems x k qs s e : Kpl x k qs -> semtab k !! s = Some e -> squeue e <> readylist k.
Proof. intros H Es. by apply (pl_sem _ _ _ _ _ _ _ H) in Es as [? _]. Qed.
Lemma Kpl_sq_sems x k qs s e : Kpl x k qs -> semtab k !! s = Some e -> squeue e <> sleepq k.
Proof. intros H Es. by apply (pl_sem _ _ _ _ _ _ _ H) in Es as (_ & ? & _). Qed.

(** The exempt thread enters the ready list. *)
Lemma ready_put k qs l t e :
  Kpl (Some t) k qs -> thrtab k !! t = Some e -> tstate e = THRREADY -> qs !! readylist k = Some l ->
  exists tab', insert (isbadtid k) (quetab k) t (readylist k) (tprio e) = Some (tab', OK)
    /\ Kpl None (set_quetab tab' k)
         (<[readylist k := insert_desc (kk (quetab k)) (tprio e) t l]> qs)
    /\ (forall i, kk tab' i = if decide (i = t) then tprio e else kk (quetab k) i).
Proof.
  intros H E Hs El. pose proof (Kpl_valid _ _ _ _ _ H E) as Hv.
  destruct (pl_rl _ _ _ _ _ _ _ H) as (l0 & El0 & Hd). rewrite El in El0. injection El0 as <-.
  pose proof (pl_unqueued _ _ _ H eq_refl) as Hu. pose proof (pl_prio _ _ _ _ _ _ _ H _ _ E).
  assert (Hb : isbadtid k t = false) by (eapply isbadtid_false; [done..|by rewrite Hs]).
  destruct (qs_insert (isbadtid k) _ _ _ l t (tprio e) (pl_rep _ _ _ _ _ _ _ H) El Hu Hv Hb)
    as (tab' & Ei & Hrep & Hk); [done|].
  assert (Hkk : forall i, kk tab' i = if decide (i = t) then tprio e else kk (quetab k) i).
  { intros i. unfold kk. rewrite Hk. by case_decide. }
  exists tab'. split_and!; [done| |done].
  eapply (placed_put _ _ _ _ l _ t e); try done.
  - split; try done.
    + intros u Hne. rewrite insert_desc_elem. naive_solver.
    + intros i Hi. rewrite Hkk. case_decide; [set_solver|done].
    + apply sems_upd_refl. intros s es. by apply (Kpl_rl_sems _ _ _ _ _ H).
    + intros _. apply insert_desc_descending; [by eapply Hu|done..].
    + intros Heq. by destruct (pl_ne _ _ _ _ _ _ _ H).
  - apply insert_desc_elem. by left.
  - unfold home. by rewrite Hs.
  - intros _. by left.
Qed.

Lemma queue_id x k qs q l : Kpl x k qs -> qs !! q = Some l -> q <> -1.
Proof.
  intros H El. apply (qs_each _ _ (pl_rep _ _ _ _ _ _ _ H)), qr_qid in El as [? _]. unfold NTHREAD in *. lia.
Qed.

(** Threads on the ready list are in state THRREADY, on the sleep queue asleep. *)
Lemma on_ready x k qs l t : Kpl x k qs -> qs !! readylist k = Some l -> t ∈ l ->
  exists e, thrtab k !! t = Some e /\ tstate e = THRREADY.
Proof.
  intros H El Ht. destruct (pl_in _ _ _ _ _ _ _ H _ _ t El Ht) as (_ & e & Et & Hh).
  exists e. split; [done|]. unfold home in Hh. destruct (tstate e); try done.
  - injection Hh as Hh. by destruct (pl_ne _ _ _ _ _ _ _ H).
  - destruct (semtab k !! tsem e) as [es|] eqn:Es; simpl in Hh; injection Hh as Hh;
      [|by destruct (queue_id _ _ _ _ _ H El)].
    by destruct (Kpl_rl_sems _ _ _ _ _ H Es).
  - injection Hh as Hh. by destruct (pl_ne _ _ _ _ _ _ _ H).
Qed.

Lemma queue_nodup x k qs q l : Kpl x k qs -> qs !! q = Some l -> NoDup l.
Proof. intros H El. by apply (qs_each _ _ (pl_rep _ _ _ _ _ _ _ H)), qr_nodup in El. Qed.

Lemma descending_sub tab l1 t l2 : descending tab (l1 ++ t :: l2) -> descending tab (l1 ++ l2).
Proof.
  unfold descending. induction l1 as [|a l1 IH]; simpl; intros H; inversion_clear H; [done|].
  constructor; [by apply IH|]. rewrite Forall_app, Forall_cons in *. tauto.
Qed.

(** A thread leaves the ready list, wherever it is in it. *)
Lemma ready_moved k qs l1 t l2 tab' :
  Kpl None k qs -> qs !! readylist k = Some (l1 ++ t :: l2) ->
  qs_rep tab' (<[readylist k := l1 ++ l2]> qs) -> samekeys (quetab k) tab' ->
  Kpl (Some t) (set_quetab tab' k) (<[readylist k := l1 ++ l2]> qs).
Proof.
  intros H El Hrep Hk. pose proof (queue_nodup _ _ _ _ _ H El) as Hnd.
  destruct (pl_rl _ _ _ _ _ _ _ H) as (l0 & El0 & Hd). rewrite El in El0. injection El0 as <-.
  eapply (placed_take _ _ _ _ (l1 ++ t :: l2)); [done| |set_solver|].
  - split; try done.
    + clear. set_solver.
    + intros i Hi. apply (samekeys_kk _ _ _ Hk).
    + apply sems_upd_refl. intros s es. by apply (Kpl_rl_sems _ _ _ _ _ H).
    + intros _. eapply descending_ext; [|by eapply descending_sub].
      intros i _. apply (samekeys_kk _ _ _ Hk).
    + intros Heq. by destruct (pl_ne _ _ _ _ _ _ _ H).
  - apply NoDup_app in Hnd as (_ & Hn1 & Hn2). apply NoDup_cons in Hn2 as [Hn2 _].
    rewrite elem_of_app. intros [?|?]; [|done]. by apply (Hn1 t); [|left].
Qed.

Lemma ready_take k qs t l :
  Kpl None k qs -> qs !! readylist k = Some (t :: l) ->
  exists tab', dequeue (isbadtid k) (quetab k) (readylist k) = Some (tab', t)
    /\ Kpl (Some t) (set_quetab tab' k) (<[readylist k := l]> qs) /\ samekeys (quetab k) tab'.
Proof.
  intros H El.
  destruct (qs_dequeue (isbadtid k) _ _ _ _ _ (pl_rep _ _ _ _ _ _ _ H) El) as (tab' & Ed & Hrep & Hk).
  exists tab'. split_and!; [done| |done]. by apply (ready_moved _ _ [] t l).
Qed.

Lemma Kpl_thr x k qs t e e' :
  Kpl x k qs -> thrtab k !! t = Some e ->
  x = Some t \/ tstate e' = tstate e /\ (tstate e = THRWAIT -> tsem e' = tsem e) ->
  MINKEY < tprio e' -> Kpl x (set_thrtab (<[t := e']> (thrtab k)) k) qs.
Proof.
  intros H E Hs Hp. eapply placed_thr; try done.
  - destruct Hs as [Hs|[Hs Hw]]; [by left|right]. unfold home. rewrite Hs.
    destruct (tstate e); try done. by rewrite Hw.
  - intros Hx _. unfold rests. destruct Hs as [Hs|[-> _]]; [done|tauto].
Qed.

Lemma Kpl_prio x k qs t e : Kpl x k qs -> thrtab k !! t = Some e -> MINKEY < tprio e.
Proof. intros H E. exact (pl_prio _ _ _ _ _ _ _ H _ _ E). Qed.

Lemma Kpl_exempt k qs t e : Kpl None k qs -> thrtab k !! t = Some e ->
  home (semtab k) (readylist k) (sleepq k) e = None -> Kpl (Some t) k qs.
Proof. apply placed_exempt. Qed.

Lemma Kpl_settle k qs t e : Kpl (Some t) k qs -> thrtab k !! t = Some e ->
  home (semtab k) (readylist k) (sleepq k) e = None -> (t = NULLTHREAD -> rests e) -> Kpl None k qs.
Proof. apply placed_settle. Qed.

Lemma Kpl_rl x k qs : Kpl x k qs -> exists l, qs !! readylist k = Some l.
Proof. intros H. destruct (pl_rl _ _ _ _ _ _ _ H) as (l & El & _). eauto. Qed.

End sched.

(** ** [ready] *)

Lemma kwp_ready {G R} (Q : Z -> kernel -> kernel -> Prop) k0 k qs l t e (resch : bool) :
  Kpl (Some t) k qs -> thrtab k !! t = Some e -> tstate e <> THRFREE ->
  qs !! readylist k = Some l ->
  (forall k' tab', k' = set_quetab tab' (set_thrtab (<[t := set_state THRREADY e]> (thrtab k)) k) ->
    Kpl None k' (<[readylist k := insert_desc (kk (quetab k)) (tprio e) t l]> qs) ->
    (forall i, kk tab' i = if decide (i = t) then tprio e else kk (quetab k) i) ->
    if resch then kwp G R (fun _ : Z => Q OK) resched k0 k' else Q OK k0 k') ->
  kwp G R Q (ready t resch) k0 k.
Proof.
  intros HK E Hs El Hcont. pose proof (Kpl_valid _ _ _ _ _ HK E) as Hv.
  set (e' := set_state THRREADY e). set (k1 := set_thrtab (<[t := e']> (thrtab k)) k).
  assert (E1 : thrtab k1 !! t = Some e') by apply lookup_insert_eq.
  assert (HK1 : Kpl (Some t) k1 qs).
  { apply (Kpl_thr _ _ _ _ e); [done..|by left|]. by apply (Kpl_prio _ _ _ _ _ HK E). }
  destruct (ready_put k1 qs l t e' HK1 E1 eq_refl El) as (tab' & Ei & HK2 & Hk).
  unfold ready. kstep. rewrite (isbadtid_false _ _ _ E Hv Hs).
  kstep. kstep. kstep. eapply kwp_qcall; [apply Ei|].
  specialize (Hcont _ _ eq_refl HK2 Hk). apply kwp_bind. destruct resch; [|done].
  apply kwp_bind. exact Hcont.
Qed.

(** ** [resched] *)

(** The ready list with the current thread, if it is to stay ready: the first
    thread of it is to run.  The code avoids the insertion when it would be
    undone at once. *)
Definition runlist (c : Z) (k : kernel) (l : list Z) : list Z :=
  match thrtab k !! c with
  | Some e => if decide (tstate e = THRCURR)
              then insert_desc (kk (quetab k)) (tprio e) c l else l
  | None => l
  end.

(** What [resched] does to the kernel up to the switch. *)
Record switched (c : Z) (k : kernel) (qs : gmap Z (list Z)) (k' : kernel)
    (qs' : gmap Z (list Z)) : Prop := {
  sw_sems : semtab k' = semtab k;
  sw_rl : readylist k' = readylist k;
  sw_sq : sleepq k' = sleepq k;
  sw_list : exists l l', qs !! readylist k = Some l /\ qs' = <[readylist k := l']> qs
    /\ runlist c k l = thrcurrent k' :: l';
  sw_thr : forall t, t <> c -> t <> thrcurrent k' -> thrtab k' !! t = thrtab k !! t;
  sw_new : exists e, thrtab k !! thrcurrent k' = Some e
    /\ (thrcurrent k' <> c -> thrtab k' !! thrcurrent k' = Some (set_state THRCURR e));
  sw_old : exists e e', thrtab k !! c = Some e /\ thrtab k' !! c = Some e'
    /\ (tstate e <> THRCURR -> thrcurrent k' <> c -> tstate e' = tstate e)
    /\ thasmsg e' = thasmsg e /\ tmsg e' = tmsg e /\ tsem e' = tsem e;
  sw_keys : forall i, i <> c -> kk (quetab k') i = kk (quetab k) i;
}.

(** A new thread is taken from the ready list. *)
Lemma sched_pick k qs :
  Kpl None k qs -> (forall t e, thrtab k !! t = Some e -> tstate e <> THRCURR) ->
  exists tab' new l e, dequeue (isbadtid k) (quetab k) (readylist k) = Some (tab', new)
    /\ qs !! readylist k = Some (new :: l)
    /\ thrtab k !! new = Some e /\ tstate e = THRREADY /\ samekeys (quetab k) tab'
    /\ Kpl None (set_thrtab (<[new := set_state THRCURR e]> (thrtab k)) (set_quetab tab' k))
         (<[readylist k := l]> qs).
Proof.
  intros HK Hno. destruct (Kpl_entry _ _ _ NULLTHREAD HK) as [en En]; [done|].
  destruct (pl_null _ _ _ _ _ _ _ HK _ En) as [Hn|Hc]; [done| |by destruct (Hno _ _ En)].
  destruct (pl_out _ _ _ _ _ _ _ HK _ _ (readylist k) En) as (l0 & El & Hin);
    [done|unfold home; by rewrite Hn|].
  destruct l0 as [|new l]; [set_solver|].
  destruct (ready_take k _ _ _ HK El) as (tab' & Ed & HK1 & Hk).
  destruct (on_ready _ _ _ _ new HK El) as (e & E & Hs); [set_solver|].
  exists tab', new, l, e. split_and!; [done..|].
  assert (HK2 : Kpl (Some new) (set_thrtab (<[new := set_state THRCURR e]> (thrtab k))
    (set_quetab tab' k)) (<[readylist k := l]> qs)).
  { eapply (Kpl_thr _ (set_quetab tab' k)); [done..|by left|]. by apply (Kpl_prio _ _ _ _ _ HK E). }
  eapply Kpl_settle; [done|apply lookup_insert_eq|done|]. intros _. by right.
Qed.

(** The state in which [resched_old] leaves the processor to be given away. *)
Record KGive (c : Z) (k : kernel) (qs : gmap Z (list Z)) : Prop := {
  kg_placed : Kpl None k qs;
  kg_nocurr : forall t e, thrtab k !! t = Some e -> tstate e <> THRCURR;
  kg_current : thrcurrent k = c;
  kg_ctl : ctl k;
}.

Lemma runlist_stay c k e y l : thrtab k !! c = Some e -> tstate e = THRCURR ->
  kk (quetab k) y < tprio e -> runlist c k (y :: l) = c :: y :: l.
Proof.
  intros E Hs Hlt. unfold runlist. rewrite E, decide_True by done. simpl.
  destruct (Z.leb_spec (tprio e) (kk (quetab k) y)); [lia|done].
Qed.

Lemma kwp_resched_old {G R} c (Q : bool -> kernel -> kernel -> Prop) k0 k qs l e :
  thrcurrent k = c -> KPre k qs -> thrtab k !! c = Some e -> qs !! readylist k = Some l ->
  (tstate e = THRCURR -> runlist c k l = c :: l -> Q true k0 k) ->
  (forall tab' e', let k' := set_quetab tab' (set_thrtab (<[c := e']> (thrtab k)) k) in
     KGive c k' (<[readylist k := runlist c k l]> qs) ->
     e' = (if decide (tstate e = THRCURR) then set_state THRREADY e else e) ->
     (forall i, i <> c -> kk tab' i = kk (quetab k) i) -> Q false k0 k') ->
  kwp G R Q (resched_old c) k0 k.
Proof.
  intros Hc HK E El Qstay Qgive. pose proof HK as [H Hv Hoc Hctl]. unfold resched_old. kstep.
  destruct (decide (tstate e = THRCURR)) as [Hs|Hs].
  - kstep.
    eapply kwp_qread; [eapply qs_nonempty; [by apply (pl_rep _ _ _ _ _ _ _ H)|exact El]|].
    assert (Hput : kwp G R Q (upd_thr c (set_state THRREADY);;
      k_insert c (readylist k) (tprio e);; mret false) k0 k).
    { kstep. set (k2 := set_thrtab _ k).
      assert (E2 : thrtab k2 !! c = Some (set_state THRREADY e)) by apply lookup_insert_eq.
      destruct (ready_put k2 qs l c (set_state THRREADY e)) as (tab' & Ei & HK3 & Hk); [|done..|].
      { apply (Kpl_thr _ _ _ _ e); [|done|by left|]; [|exact (Kpl_prio _ _ _ _ _ H E)].
        apply (Kpl_exempt _ _ _ e); [done|done|unfold home; by rewrite Hs]. }
      eapply kwp_qcall; [exact Ei|]. kstep. eapply (Qgive tab'); [|done|].
      - assert (Hrun : runlist c k l = insert_desc (kk (quetab k)) (tprio e) c l)
          by (unfold runlist; by rewrite E, decide_True).
        split; try done; [by rewrite Hrun|]. intros t e' Et Hst. simpl in Et.
        rewrite lookup_insert in Et. case_decide; [by simplify_eq|].
        apply (Hoc _ _ Et) in Hst. congruence.
      - intros i Hi. rewrite Hk. by rewrite decide_False. }
    apply kwp_bind. destruct l as [|t l].
    + kstep. exact Hput.
    + eapply kwp_qread; [eapply firstkey_spec, qs_each; [by apply (pl_rep _ _ _ _ _ _ _ H)|exact El]|].
      kstep. destruct (Z.ltb_spec (kk (quetab k) t) (tprio e)); [|exact Hput].
      kstep. apply Qstay; [done|]. by eapply runlist_stay.
  - kstep. assert (Hrun : runlist c k l = l) by (unfold runlist; by rewrite E, decide_False).
    specialize (Qgive (quetab k) e). simpl in Qgive.
    rewrite (insert_id (thrtab k)), Hrun, (insert_id qs) in Qgive by done.
    destruct k; apply Qgive; try done.
    split; try done. intros t e' Et Hst. pose proof (Hoc _ _ Et Hst). simpl in *. congruence.
Qed.

Lemma kwp_resched_new {G R} c (Q : Z -> kernel -> kernel -> Prop) k0 k qs v e :
  (forall s s', R s s' -> Rl c s s') ->
  KGive c k qs -> vic_ok v -> others c k0 k -> thrtab k !! c = Some e ->
  tintmask e = vic_get_irqmask v ->
  (forall k' qs', KInvq k' qs' -> switched c k qs k' qs' -> thrcurrent k' <> c ->
     others c k0 k' -> G k0 k') ->
  (forall k' qs' e', KInvq k' qs' -> switched c k qs k' qs' -> thrcurrent k' = c ->
     mask k' = vic_get_irqmask v -> others c k0 k' -> thrtab k' !! c = Some e' -> resumed e e' ->
     Q OK k0 k') ->
  (forall k0' k' e', (exists s, R s k0') -> (exists v, k' = set_irq v k0') -> KInv k' -> thrcurrent k' = c -> mask k' = vic_get_irqmask v -> others c k0' k' ->
     thrtab k' !! c = Some e' -> resumed e e' -> Q OK k0' k') ->
  kwp G R Q (resched_new c) k0 k.
Proof.
  intros HR [HP Hno Hcur Hctl] Hv Ho E Hm HG HQ1 HQ2.
  destruct (sched_pick k qs HP Hno) as (tab' & new & l & en & Ed & El & En & Hsn & Hk & HP2).
  unfold resched_new. kstep. eapply kwp_qcall; [exact Ed|]. kstep. kstep. kstep.
  set (k2 := set_thrtab _ _).
  assert (En2 : thrtab k2 !! new = Some (set_state THRCURR en)) by apply lookup_insert_eq.
  assert (Hinv : forall im, KInvq (set_irq (vic_set_irqmask im (irq k2)) k2) (<[readylist k := l]> qs)).
  { intros im. split.
    - exact HP2.
    - by exists (set_state THRCURR en).
    - intros t et Et Hst. simpl in Et. rewrite lookup_insert in Et. simpl.
      case_decide; [congruence|]. by apply Hno in Et.
    - split; [apply Hctl|]. simpl. apply vic_ok_set, Hctl. }
  assert (Ho2 : others c k0 k2).
  { eapply others_upd; [exact Ho|exact En|done|]. intros _. split; simpl; try done; try tauto.
    - rewrite Hsn. done.
    - rewrite Hsn. done. }
  assert (Hsw : forall im, switched c k qs (set_irq (vic_set_irqmask im (irq k2)) k2) (<[readylist k := l]> qs)).
  { intros im. split; try done.
    - exists (new :: l), l. split_and!; [done..|]. unfold runlist. rewrite E, decide_False; [done|].
      by eapply Hno.
    - intros t Hc Hn. simpl in Hn |- *. by rewrite lookup_insert_ne.
    - exists en. split; [done|]. intros _. exact En2.
    - exists e. simpl. destruct (decide (new = c)) as [->|Hne].
      + rewrite lookup_insert_eq. exists (set_state THRCURR en). simplify_eq. by split_and!.
      + rewrite lookup_insert_ne by done. exists e. by split_and!.
    - intros i _. simpl. apply (samekeys_kk _ _ _ Hk). }
  apply kwp_bind. destruct (Z.eqb_spec new c) as [->|Hne].
  - kstep. kstep. kstep. kstep. simplify_eq.
    eapply HQ1; [apply Hinv|apply Hsw|done| |done|exact En2|].
    + simpl. unfold mask. simpl. rewrite Hm. apply mask_set; [apply Hctl|done].
    + split_and!; [done| |]; by rewrite Hsn.
  - kstep. split; [by eapply HG; [apply Hinv|apply Hsw|..]|]. simpl. intros s' Hs'.
    destruct (HR _ _ Hs') as ([qs' HI] & Hcs & e1 & e' & E1 & E' & Hev).
    simpl in E1. rewrite lookup_insert_ne in E1 by done. rewrite E in E1. injection E1 as <-.
    change (kwp G R Q (thr c ≫= fun e0 => k_restore (tintmask e0);; mret OK) s' s').
    kstep. kstep. kstep. destruct HI as [I1 I2 I3 [I4 I5]]. eapply HQ2; [by eauto|by eauto| |done| | |exact E'|].
    + exists qs'. split; [exact I1|exact I2|exact I3|]. split; [exact I4|by apply vic_ok_set].
    + unfold mask. simpl. rewrite (ev_mask _ _ Hev), Hm. by apply mask_set.
    + by apply others_eq.
    + destruct I2 as (ec & Ec & Hec). rewrite Hcs in Ec. split_and!; [apply (ev_msg _ _ Hev)| |].
      * intros Hr. destruct (ev_recv _ _ Hev Hr) as [Hr'|]; [congruence|done].
      * rewrite <- (ev_free _ _ Hev). congruence.
Qed.

Lemma switched_stay c k qs l e e' k' :
  thrtab k !! c = Some e -> tstate e = THRCURR -> qs !! readylist k = Some l ->
  runlist c k l = c :: l -> thrcurrent k' = c -> thrtab k' = <[c := e']> (thrtab k) ->
  thasmsg e' = thasmsg e -> tmsg e' = tmsg e -> tsem e' = tsem e ->
  semtab k' = semtab k -> readylist k' = readylist k -> sleepq k' = sleepq k ->
  quetab k' = quetab k -> switched c k qs k' qs.
Proof.
  intros E Hs El Hrun Hc Ht M1 M2 M3 E1 E2 E3 E4. split; try done.
  - exists l, l. rewrite Hc. split_and!; [done| |done]. by rewrite insert_id.
  - intros t Hne _. by rewrite Ht, lookup_insert_ne.
  - exists e. rewrite Hc. done.
  - exists e, e'. rewrite Ht, lookup_insert_eq. by split_and!.
  - intros i _. by rewrite E4.
Qed.

Lemma switched_give c k qs l e tab1 e1 k1 k' qs' :
  thrtab k !! c = Some e -> qs !! readylist k = Some l ->
  quetab k1 = tab1 -> thrtab k1 = <[c := e1]> (thrtab k) -> semtab k1 = semtab k ->
  readylist k1 = readylist k -> sleepq k1 = sleepq k ->
  tstate e1 <> THRCURR -> (tstate e <> THRCURR -> tstate e1 = tstate e) ->
  thasmsg e1 = thasmsg e -> tmsg e1 = tmsg e -> tsem e1 = tsem e ->
  (forall i, i <> c -> kk tab1 i = kk (quetab k) i) ->
  switched c k1 (<[readylist k := runlist c k l]> qs) k' qs' -> switched c k qs k' qs'.
Proof.
  intros E El Hq Ht Hsm Hrl Hsq Hne He M1 M2 M3 Hk [S1 S2 S3 S4 S5 S6 S7 S8].
  assert (E1 : thrtab k1 !! c = Some e1) by (rewrite Ht; apply lookup_insert_eq).
  split; try congruence.
  - destruct S4 as (l1 & l' & L1 & L2 & L3). exists l, l'. rewrite Hrl in *.
    rewrite lookup_insert_eq in L1. injection L1 as <-. rewrite insert_insert_eq in L2.
    split_and!; [done..|]. unfold runlist at 1 in L3. rewrite E1, decide_False in L3 by done. done.
  - intros t N1 N2. rewrite S5, Ht by done. by apply lookup_insert_ne.
  - destruct S6 as (en & En & Hen). destruct (decide (thrcurrent k' = c)) as [Heq|Hnc].
    + exists e. by rewrite Heq.
    + exists en. rewrite Ht, lookup_insert_ne in En by done. auto.
  - destruct S7 as (e2 & e' & E2 & E' & A1 & A2 & A3 & A4). rewrite E1 in E2. injection E2 as <-.
    exists e, e'. split_and!; try congruence. intros N1 N2. rewrite A1; auto.
  - intros i Hi. rewrite S8, Hq by done. auto.
Qed.

Lemma kwp_resched {G R} c (Q : Z -> kernel -> kernel -> Prop) k0 k qs e :
  (forall s s', R s s' -> Rl c s s') ->
  thrcurrent k = c -> KPre k qs -> others c k0 k -> thrtab k !! c = Some e ->
  (forall k' qs', KInvq k' qs' -> switched c k qs k' qs' -> thrcurrent k' <> c ->
     others c k0 k' -> G k0 k') ->
  (forall k' qs' e', KInvq k' qs' -> switched c k qs k' qs' -> thrcurrent k' = c ->
     mask k' = mask k -> others c k0 k' -> thrtab k' !! c = Some e' -> resumed e e' -> Q OK k0 k') ->
  (forall k0' k' e', (exists s, R s k0') -> (exists v, k' = set_irq v k0') -> KInv k' -> thrcurrent k' = c -> mask k' = mask k -> others c k0' k' ->
     thrtab k' !! c = Some e' -> resumed e e' -> Q OK k0' k') ->
  kwp G R Q resched k0 k.
Proof.
  intros HR Hc HK Ho E HG HQ1 HQ2. destruct HK as [HP Hv Hoc [Hrd Hvic]].
  destruct (Kpl_rl _ _ _ HP) as [l El].
  unfold resched. kstep. destruct (Z.ltb_spec 0 (resdefer k)); [lia|].
  kstep. rewrite Hc. kstep. kstep. set (e1 := set_intmask (mask k) e). set (k1 := set_thrtab _ _).
  assert (E1 : thrtab k1 !! c = Some e1) by apply lookup_insert_eq.
  assert (HK1 : KPre k1 qs).
  { split; try done.
    - eapply (Kpl_thr _ (set_irq _ k)); [exact HP|exact E|by right|]. by apply (Kpl_prio _ _ _ _ _ HP E).
    - intros t et Et Hst. simpl in Et. rewrite lookup_insert in Et. simpl. case_decide; [congruence|].
      by eapply Hoc. }
  assert (Hrun : runlist c k1 l = runlist c k l) by (unfold runlist; by rewrite E1, E).
  assert (Ho1 : others c k0 k1) by (eapply others_upd; [exact Ho|exact E|done|done]).
  apply kwp_bind. eapply kwp_resched_old; [done|done|exact E1|exact El| |].
  - intros Hs Hst. kstep. kstep. kstep.
    eapply HQ1; [| |done| |exact Ho1|exact E1|by split_and!; [|intros Hr; simpl in Hs; congruence|simpl in Hs; congruence]].
    + destruct HK1 as [I1 I2 I3 [I4 I5]]. split; [exact I1| |exact I3|split; [exact I4|by apply vic_ok_set]].
      exists e1. split; [|done]. simpl. rewrite Hc. exact E1.
    + eapply (switched_stay _ _ _ l e e1); done || congruence.
    + unfold mask. simpl. by apply mask_set.
  - intros tab' e' k' HG' He' Hk.
    assert (Em : tintmask e' = mask k) by (subst e'; by case_decide).
    assert (Ht : thrtab k' = <[c := e']> (thrtab k)) by (unfold k'; simpl; by rewrite insert_insert_eq).
    assert (Hne' : tstate e' <> THRCURR) by (subst e'; by case_decide).
    rewrite Hrun in HG'.
    assert (Hsw : forall k2 qs2, switched c k' (<[readylist k1 := runlist c k l]> qs) k2 qs2 ->
      switched c k qs k2 qs2).
    { intros k2 qs2. eapply (switched_give c k qs l e tab' e'); try done; subst e'; by case_decide. }
    assert (Hres : forall e2, resumed e' e2 -> resumed e e2).
    { intros e2 (R1 & R2 & R3). subst e'. case_decide as Hd; [|done].
      simpl in Hd. split_and!; [done|intros Hr; congruence|congruence]. }
    eapply (kwp_resched_new _ _ _ _ _ (irq k)); [done|done|done| |rewrite Ht; apply lookup_insert_eq|done|..].
    + eapply others_upd; [exact Ho1|exact E1|split_and!; [done|done|subst e'; by case_decide|subst e'; by case_decide]|done].
    + eauto.
    + intros. eapply HQ1; eauto.
    + intros. eapply HQ2; eauto.
Qed.

(** A thread that is neither running nor ready does not keep the processor. *)
Lemma switched_leaves c k qs k' qs' e : Kpl None k qs -> switched c k qs k' qs' ->
  thrtab k !! c = Some e -> tstate e <> THRCURR -> tstate e <> THRREADY -> thrcurrent k' <> c.
Proof.
  intros HP Hsw E H1 H2 Hc. destruct (sw_list _ _ _ _ _ Hsw) as (l & l' & El & _ & Hr).
  unfold runlist in Hr. rewrite E, decide_False in Hr by done. subst l.
  destruct (on_ready _ _ _ _ (thrcurrent k') HP El) as (e' & E' & Hs); [by left|]. congruence.
Qed.

(** Threads that are ready or got the processor at once. *)
Definition runnable (k : kernel) (t : Z) : Prop :=
  exists e, thrtab k !! t = Some e /\ (tstate e = THRREADY \/ tstate e = THRCURR).

Lemma switched_runnable c k qs k' qs' t e : switched c k qs k' qs' -> t <> c ->
  thrtab k !! t = Some e -> tstate e = THRREADY -> runnable k' t.
Proof.
  intros Hsw Hc E Hs. destruct (decide (t = thrcurrent k')) as [->|Hn].
  - destruct (sw_new _ _ _ _ _ Hsw) as (e0 & _ & E0). eexists. split; [by apply E0|]. by right.
  - exists e. rewrite (sw_thr _ _ _ _ _ Hsw) by done. auto.
Qed.
