(* ===== verification/ThreadSpec.v ===== *)
(** * Thread control keeps the invariant *)

From S2P Require Import Prelude Prog Queue QueueSpec QueueSys Interrupt Memory Kernel Thread Placement Invariant Sched.

(** The state in which a system call of thread [c], entered with interrupt mask
    [m], returns. *)
Record sysret (c m : Z) (k0 k : kernel) (qs : gmap Z (list Z)) : Prop := {
  sr_inv : KInvq k qs;
  sr_curr : thrcurrent k = c;
  sr_mask : mask k = m;
  sr_others : others c k0 k;
}.

(** A system call of the running thread is safe: it never faults, the invariant
    holds whenever it gives the processor away and when it returns, other
    threads evolve as they may, and the caller's interrupt mask is restored. *)
Definition safe_call {A} (p : prog kernel A) (k : kernel) : Prop :=
  let c := thrcurrent k in
  kwp (Gd c) (Rl c) (fun _ k0 k' => exists qs, sysret c (mask k) k0 k' qs) p k k.

Section exit.
Context {G R : kernel -> kernel -> Prop}.
Implicit Types (k : kernel) (qs : gmap Z (list Z)).

Lemma KInvq_irq k qs v : KInvq k qs -> vic_ok v -> KInvq (set_irq v k) qs.
Proof. intros [H1 H2 H3 [H4 H5]] Hv. by split. Qed.

Lemma vic_ok_disable v : vic_ok v -> vic_ok (vic_disable_interrupts v).
Proof. done. Qed.

Lemma KInvq_pre k qs : KInvq k qs -> KPre k qs.
Proof.
  intros [H1 (e & E & Hs) H3 H4]. split; try done. by eapply Kpl_valid.
Qed.

(** [restore(im); return r;] *)
Lemma kwp_exit {A} c (Q : A -> kernel -> kernel -> Prop) k0 k qs m v (r : A) :
  KInvq k qs -> thrcurrent k = c -> others c k0 k -> vic_ok v -> m = vic_get_irqmask v ->
  (forall k', k' = set_irq (vic_set_irqmask m (irq k)) k -> sysret c m k0 k' qs -> Q r k0 k') ->
  kwp G R Q (k_restore m;; mret r) k0 k.
Proof.
  intros HI Hc Ho Hv -> HQ. kstep. kstep. apply HQ; [done|].
  destruct (ki_ctl _ _ HI) as [_ Hvk]. split; [|done| |exact Ho].
  - apply KInvq_irq; [done|by apply vic_ok_set].
  - by apply mask_set.
Qed.

(** [resched(); restore(im); return r;] *)
Lemma kwp_resched_exit {A} c (Q : A -> kernel -> kernel -> Prop) k0 k qs e m v (r : A) :
  (forall s s', R s s' -> Rl c s s') ->
  KPre k qs -> thrcurrent k = c -> others c k0 k -> thrtab k !! c = Some e ->
  vic_ok v -> m = vic_get_irqmask v ->
  (forall k' qs', KInvq k' qs' -> switched c k qs k' qs' -> thrcurrent k' <> c ->
     others c k0 k' -> G k0 k') ->
  (forall k' qs', sysret c m k0 k' qs' -> switched c k qs k' qs' -> Q r k0 k') ->
  (forall k0' k' qs', (exists s, R s k0') -> sysret c m k0' k' qs' -> Q r k0' k') ->
  kwp G R Q (resched;; k_restore m;; mret r) k0 k.
Proof.
  intros HR HK Hc Ho E Hv Hm HG HQ1 HQ2. apply kwp_bind.
  eapply kwp_resched; [done|done|exact HK|done|exact E|done| |].
  - intros k' qs' e' HI Hsw Hc' _ Ho' E' _. eapply kwp_exit; [done..|].
    intros k2 -> Hret. eapply HQ1; [done|].
    destruct Hsw as [S1 S2 S3 S4 S5 S6 S7 S8]. by split.
  - intros k0' k' e' Hback _ [qs' HI] Hc' _ Ho' E' _. eapply kwp_exit; [done..|]. eauto.
Qed.

(** A thread other than the null thread that leaves the processor on its own. *)
Lemma KPre_block k qs e e' :
  KInvq k qs -> thrtab k !! thrcurrent k = Some e -> thrcurrent k <> NULLTHREAD ->
  home (semtab k) (readylist k) (sleepq k) e' = None -> tstate e' <> THRCURR ->
  MINKEY < tprio e' ->
  KPre (set_thrtab (<[thrcurrent k := e']> (thrtab k)) k) qs.
Proof.
  intros [HP (e0 & E0 & Hs) Ho Hctl] E Hn Hh Hne Hp. rewrite E in E0. injection E0 as <-.
  split; try done.
  - eapply Kpl_settle; [|apply lookup_insert_eq|done|done].
    eapply Kpl_thr; [|done|by left|done]. eapply Kpl_exempt; [done..|]. unfold home. by rewrite Hs.
  - exact (Kpl_valid _ _ _ _ _ HP E).
  - intros t et Et Hst. simpl in Et. rewrite lookup_insert in Et.
    case_decide; [by simplify_eq|]. by eapply Ho.
Qed.

(** A thread that is in no queue becomes ready while another one runs. *)
Lemma KPre_ready k qs l t e tab' k' :
  KInvq k qs -> t <> thrcurrent k -> thrtab k !! t = Some e ->
  k' = set_quetab tab' (set_thrtab (<[t := set_state THRREADY e]> (thrtab k)) k) ->
  Kpl None k' (<[readylist k := l]> qs) -> KPre k' (<[readylist k := l]> qs).
Proof.
  intros [HP (e0 & E0 & Hs) Ho Hctl] Hne E -> HK. split; try done.
  - exact (Kpl_valid _ _ _ _ _ HP E0).
  - intros u eu Eu Hst. simpl in Eu. rewrite lookup_insert in Eu.
    case_decide; [by simplify_eq|]. by eapply Ho.
Qed.

End exit.

(** ** The system calls *)

Section calls.
Implicit Types (k : kernel) (qs : gmap Z (list Z)).

Lemma KInv_entry k qs t : KInvq k qs -> isbadtid k t = false ->
  exists e, thrtab k !! t = Some e /\ tstate e <> THRFREE /\ valid_tid t.
Proof.
  intros HI Hb. apply isbadtid_good; [done|]. apply (pl_thr _ _ _ _ _ _ _ (ki_placed _ _ HI)).
Qed.

(** Error exits: nothing but the mask was touched. *)
Lemma safe_exit {A} k qs (r : A) :
  KInvq k qs ->
  kwp (Gd (thrcurrent k)) (Rl (thrcurrent k))
    (fun _ k0 k' => exists qs, sysret (thrcurrent k) (mask k) k0 k' qs)
    (k_restore (mask k);; mret r) k (set_irq (vic_disable_interrupts (irq k)) k).
Proof.
  intros HI. pose proof (ki_ctl _ _ HI) as [_ Hv].
  eapply (kwp_exit _ _ _ _ qs _ (irq k)); [by apply KInvq_irq|done|by apply others_eq|done|done|].
  eauto.
Qed.

Lemma yield_safe k : KInv k -> safe_call yield k.
Proof.
  intros [qs HI]. pose proof (ki_ctl _ _ HI) as [_ Hv]. destruct (ki_curr _ _ HI) as (e & E & Hs).
  unfold safe_call, yield. kstep.
  eapply (kwp_resched_exit _ _ _ _ qs e _ (irq k)); [done| |done|by apply others_eq|exact E|done|done|..].
  - apply KInvq_pre. by apply KInvq_irq.
  - intros k' qs' ?? ??. split; [by exists qs'|done].
  - eauto.
  - eauto.
Qed.

Lemma getprio_safe k tid : KInv k -> safe_call (getprio tid) k.
Proof.
  intros [qs HI]. unfold safe_call, getprio. kstep. kstep.
  destruct (isbadtid _ tid) eqn:Hb; [by eapply safe_exit|].
  destruct (KInv_entry k qs tid HI Hb) as (e & E & _). kstep. by eapply safe_exit.
Qed.

(** Setting fields of an entry that do not place the thread. *)
Lemma KInvq_thr k qs t e e' :
  KInvq k qs -> thrtab k !! t = Some e -> tstate e' = tstate e ->
  (tstate e = THRWAIT -> tsem e' = tsem e) -> MINKEY < tprio e' ->
  KInvq (set_thrtab (<[t := e']> (thrtab k)) k) qs.
Proof.
  intros [HP (e0 & E0 & Hs0) Ho Hctl] E Hs Hw Hp. split; [by eapply Kpl_thr; eauto| | |done].
  - simpl. rewrite lookup_insert. case_decide; [|by eauto]. subst. exists e'. simplify_eq. by rewrite Hs.
  - intros u eu Eu Hst. simpl in *. rewrite lookup_insert in Eu. case_decide; [|by eapply Ho].
    subst. simplify_eq. eapply Ho; [done|]. congruence.
Qed.

Lemma chprio_safe k tid newprio : KInv k -> MINKEY < newprio -> safe_call (chprio tid newprio) k.
Proof.
  intros [qs HI] Hp. pose proof (ki_ctl _ _ HI) as [_ Hv]. unfold safe_call, chprio. kstep. kstep.
  destruct (isbadtid _ tid) eqn:Hb; [by eapply safe_exit|].
  destruct (KInv_entry k qs tid HI Hb) as (e & E & Hne & _). kstep. kstep.
  eapply (kwp_exit _ _ _ _ qs _ (irq k)); [|done| |done|done|by eauto].
  - apply (KInvq_thr _ _ _ e); try done. by apply KInvq_irq.
  - eapply (others_upd _ _ k); [by apply others_eq|exact E|done|]. intros _. split; simpl; auto.
Qed.

(** A ready thread is taken off the ready list and suspended. *)
Lemma suspend_ready k qs t e :
  KInvq k qs -> thrtab k !! t = Some e -> tstate e = THRREADY -> t <> NULLTHREAD ->
  exists tab' l1 l2, getitem (quetab k) t = Some (tab', t)
    /\ qs !! readylist k = Some (l1 ++ t :: l2)
    /\ KInvq (set_thrtab (<[t := set_state THRSUSP e]> (thrtab k)) (set_quetab tab' k))
         (<[readylist k := l1 ++ l2]> qs).
Proof.
  intros HI E Hs Hn. pose proof (ki_placed _ _ HI) as HP.
  destruct (pl_out _ _ _ _ _ _ _ HP t e (readylist k) E) as (l & El & Hin);
    [done|unfold home; by rewrite Hs|].
  apply list_elem_of_split in Hin as (l1 & l2 & ->).
  destruct (qs_getitem _ _ _ _ _ _ (pl_rep _ _ _ _ _ _ _ HP) El) as (tab' & Eg & Hrep & Hk).
  exists tab', l1, l2. split_and!; [done..|].
  pose proof (ready_moved _ _ _ _ _ _ HP El Hrep Hk) as HP1.
  destruct (ki_curr _ _ HI) as (ec & Ec & Hc). split.
  - eapply Kpl_settle; [|apply lookup_insert_eq|done|done].
    eapply (Kpl_thr _ (set_quetab tab' k)); [done|done|by left|]. by apply (Kpl_prio _ _ _ _ _ HP E).
  - exists ec. simpl. rewrite lookup_insert_ne; [done|]. intros ->. congruence.
  - intros u eu Eu Hst. simpl in *. rewrite lookup_insert in Eu. case_decide; [by simplify_eq|].
    by eapply (ki_only _ _ HI).
  - apply (ki_ctl _ _ HI).
Qed.

Lemma suspend_safe k tid : KInv k -> safe_call (suspend tid) k.
Proof.
  intros [qs HI]. pose proof (ki_ctl _ _ HI) as [Hrd Hv]. pose proof (ki_placed _ _ HI) as HP.
  unfold safe_call, suspend. kstep. kstep.
  destruct (isbadtid _ tid) eqn:Hb; [by eapply safe_exit|].
  destruct (Z.eqb_spec tid NULLTHREAD) as [->|Hn]; [by eapply safe_exit|].
  destruct (KInv_entry k qs tid HI Hb) as (e & E & Hne & _). simpl orb. cbv iota. kstep.
  case_decide as Hst; [by eapply safe_exit|].
  set (k1 := set_irq _ k). assert (HI1 : KInvq k1 qs) by (by apply KInvq_irq). kstep.
  case_decide as Hr.
  - destruct (suspend_ready k1 qs tid e HI1 E Hr Hn) as (tab' & l1 & l2 & Eg & El & HI2).
    eapply kwp_qcall; [exact Eg|]. eapply kwp_upd_thr_end; [exact E|].
    eapply kwp_thr; [apply lookup_insert_eq|]. 
    eapply (kwp_exit _ _ _ _ _ _ (irq k)); [exact HI2|done| |done|done|by eauto].
    eapply (others_upd _ _ k); [by apply others_eq|exact E|done|].
    intros _. split; simpl; try done; by rewrite Hr.
  - assert (Hc : tstate e = THRCURR) by (destruct (tstate e); naive_solver).
    pose proof (ki_only _ _ HI _ _ E Hc) as ->. kstep.
    set (k2 := set_thrtab _ k1). set (e2 := set_state THRSUSP e).
    assert (HK2 : KPre k2 qs) by (apply (KPre_block k1 qs e); try done; by apply (Kpl_prio _ _ _ _ _ HP E)).
    assert (E2 : thrtab k2 !! thrcurrent k = Some e2) by apply lookup_insert_eq.
    apply kwp_bind. eapply (kwp_resched _ _ _ _ qs e2); [done|done|done| |done|..].
    + eapply (others_upd _ _ k); [by apply others_eq|exact E|done|done].
    + intros k' qs' ????. split; [by exists qs'|done].
    + intros k' qs' e' HI' _ Hc' _ Ho' E' _. apply kwp_ret. eapply kwp_thr; [exact E'|].
      eapply (kwp_exit _ _ _ _ _ _ (irq k)); [exact HI'|done|done|done|done|by eauto].
    + intros k0' k' e' Hback _ [qs' HI'] Hc' _ Ho' E' _. apply kwp_ret. eapply kwp_thr; [exact E'|].
      eapply (kwp_exit _ _ _ _ _ _ (irq k)); [exact HI'|done|done|done|done|by eauto].
Qed.

Lemma resume_safe k tid : KInv k -> safe_call (resume tid) k.
Proof.
  intros [qs HI]. pose proof (ki_ctl _ _ HI) as [Hrd Hv]. pose proof (ki_placed _ _ HI) as HP.
  unfold safe_call, resume. kstep. kstep. simpl thrtab.
  destruct (isbadtid _ tid) eqn:Hb; [by eapply safe_exit|].
  destruct (KInv_entry k qs tid HI Hb) as (e & E & Hne & _). simpl orb. rewrite E.
  case_bool_decide as Hst; [by eapply safe_exit|].
  set (k1 := set_irq _ k). assert (HI1 : KInvq k1 qs) by (by apply KInvq_irq). kstep.
  destruct (ki_curr _ _ HI) as (ec & Ec & Hc).
  assert (Hnc : tid <> thrcurrent k) by (intros ->; congruence).
  destruct (Kpl_rl _ _ _ HP) as [l El].
  apply kwp_bind. eapply (kwp_ready _ _ _ qs l tid e); [|done|done|done|].
  { eapply (Kpl_exempt k1); [exact HP|done|]. unfold home. by rewrite Hst. }
  intros k' tab' Ek HK _. pose proof (KPre_ready k1 qs _ _ _ _ _ HI1 Hnc E Ek HK) as HK'. subst k'.
  eapply (kwp_resched _ _ _ _ _ ec); [done|done|exact HK'| | |..].
  - eapply (others_upd _ _ k); [by apply others_eq|exact E|done|]. intros _.
    split; simpl; try done; by rewrite Hst.
  - simpl. by rewrite lookup_insert_ne.
  - intros k' qs' ????. split; [by exists qs'|done].
  - intros k' qs' e' HI' _ Hc' _ Ho' E' _.
    eapply (kwp_exit _ _ _ _ _ _ (irq k)); [exact HI'|done|done|done|done|by eauto].
  - intros k0' k' e' Hback _ [qs' HI'] Hc' _ Ho' E' _.
    eapply (kwp_exit _ _ _ _ _ _ (irq k)); [exact HI'|done|done|done|done|by eauto].
Qed.

End calls.
