(* ===== verification/SemaphoreSpec.v ===== *)
(** * Semaphores keep the invariant *)

From S2P Require Import Prelude Prog Queue QueueSpec QueueSys Interrupt Memory Kernel Thread Semaphore Placement Invariant Sched ThreadSpec.

Section states.
Implicit Types (k : kernel) (qs : gmap Z (list Z)).

Lemma isbadsem_good k s : isbadsem k s = false -> 0 <= s ->
  exists e, semtab k !! s = Some e /\ sstate e = SUSED /\ 0 <= s < NSEM.
Proof.
  unfold isbadsem. intros H Hs. btests. destruct (semtab k !! s) as [e|] eqn:E; [|done].
  exists e. apply bool_decide_eq_false in H0. split_and!; try done.
  by destruct (sstate e).
Qed.

Lemma sem_queue x k qs s e : Kpl x k qs -> semtab k !! s = Some e ->
  exists l, qs !! squeue e = Some l /\ sem_ok e l.
Proof. intros H E. by apply (pl_sem _ _ _ _ _ _ _ H) in E as (_ & _ & ?). Qed.

(** Threads on the queue of a semaphore wait for it. *)
Lemma on_sem x k qs s e l t : Kpl x k qs -> semtab k !! s = Some e ->
  qs !! squeue e = Some l -> t ∈ l ->
  exists et, thrtab k !! t = Some et /\ tstate et = THRWAIT /\ tsem et = s.
Proof.
  intros H E El Ht. destruct (pl_in _ _ _ _ _ _ _ H _ _ t El Ht) as (_ & et & Et & Hh).
  exists et. split; [done|]. destruct (pl_sem _ _ _ _ _ _ _ H _ _ E) as (N1 & N2 & _).
  unfold home in Hh. destruct (tstate et); try done; try congruence. split; [done|].
  destruct (semtab k !! tsem et) as [e'|] eqn:E'; simpl in Hh; injection Hh as Hh;
    [|by destruct (queue_id _ _ _ _ _ H El)].
  by eapply (pl_inj _ _ _ _ _ _ _ H).
Qed.

(** A signal that finds a thread waiting: the first one leaves the queue. *)
Lemma sem_take k qs s e :
  Kpl None k qs -> semtab k !! s = Some e -> scount e < 0 ->
  exists tab' t l et, dequeue (isbadtid k) (quetab k) (squeue e) = Some (tab', t)
    /\ qs !! squeue e = Some (t :: l) /\ thrtab k !! t = Some et
    /\ tstate et = THRWAIT /\ tsem et = s /\ samekeys (quetab k) tab'
    /\ Kpl (Some t) (set_quetab tab' (set_semtab (<[s := set_scount (i32 (scount e + 1)) e]> (semtab k)) k))
         (<[squeue e := l]> qs).
Proof.
  intros H E Hneg. destruct (sem_queue _ _ _ _ _ H E) as (l0 & El & Hok).
  pose proof Hok as (Hlen & Hfree & Hi). destruct l0 as [|t l]; [simpl in Hlen; lia|].
  destruct (qs_dequeue (isbadtid k) _ _ _ _ _ (pl_rep _ _ _ _ _ _ _ H) El) as (tab' & Ed & Hrep & Hk).
  destruct (on_sem _ _ _ _ _ _ t H E El) as (et & Et & Hst & Hsem); [set_solver|].
  exists tab', t, l, et. split_and!; try done.
  pose proof (queue_nodup _ _ _ _ _ H El) as Hnd. apply NoDup_cons in Hnd as [Hnd _].
  rewrite i32_id by (unfold is_i32 in *; lia).
  eapply (placed_take _ _ _ _ (t :: l)); [exact H| |set_solver|done].
  split; try done.
  - clear. set_solver.
  - intros i Hi'. apply (samekeys_kk _ _ _ Hk).
  - intros s'. by eapply sems_dom_insert.
  - eapply sems_upd_insert; [exact H|done|done|]. simpl in Hlen. split_and!; simpl; [lia| |unfold is_i32 in *; lia].
    intros Hf. apply Hfree in Hf. lia.
  - intros Heq. by destruct (Kpl_rl_sems _ _ _ _ _ H E).
  - intros Heq. by destruct (Kpl_sq_sems _ _ _ _ _ H E).
Qed.

(** A wait that blocks: the exempt thread goes to the end of the queue. *)
Lemma sem_put k qs s e l t et :
  Kpl (Some t) k qs -> semtab k !! s = Some e -> sstate e = SUSED -> scount e - 1 < 0 ->
  - 2 ^ 31 < scount e -> t <> NULLTHREAD ->
  qs !! squeue e = Some l -> thrtab k !! t = Some et -> tstate et = THRWAIT -> tsem et = s ->
  exists tab', enqueue (isbadtid k) (quetab k) t (squeue e) = Some (tab', t)
    /\ samekeys (quetab k) tab'
    /\ Kpl None (set_quetab tab' (set_semtab (<[s := set_scount (i32 (scount e - 1)) e]> (semtab k)) k))
         (<[squeue e := l ++ [t]]> qs).
Proof.
  intros H E Hu Hneg Hmin Hn El Et Hst Hsem. pose proof (pl_unqueued _ _ _ H eq_refl) as Hun.
  pose proof (Kpl_valid _ _ _ _ _ H Et) as Hv.
  assert (Hb : isbadtid k t = false) by (eapply isbadtid_false; [done..|by rewrite Hst]).
  destruct (qs_enqueue (isbadtid k) _ _ _ l t (pl_rep _ _ _ _ _ _ _ H) El Hun Hv Hb)
    as (tab' & Ee & Hrep & Hk).
  exists tab'. split_and!; [done..|]. destruct (sem_queue _ _ _ _ _ H E) as (l0 & El0 & Hlen & Hfree & Hi).
  rewrite El in El0. injection El0 as <-. rewrite i32_id by (unfold is_i32 in *; lia).
  eapply (placed_put _ _ _ _ l _ t et); [exact H| |set_solver|done| |done].
  - split; try done.
    + clear. set_solver.
    + intros i Hi'. apply (samekeys_kk _ _ _ Hk).
    + intros s'. by eapply sems_dom_insert.
    + eapply sems_upd_insert; [exact H|done|done|].
      split_and!; simpl; [rewrite length_app; simpl; lia|congruence|unfold is_i32 in *; lia].
    + intros Heq. by destruct (Kpl_rl_sems _ _ _ _ _ H E).
    + intros Heq. by destruct (Kpl_sq_sems _ _ _ _ _ H E).
  - unfold home. rewrite Hst, Hsem, E. done.
Qed.

(** The count changes while no thread waits. *)
Lemma sem_count x k qs s e n :
  Kpl x k qs -> semtab k !! s = Some e -> 0 <= scount e -> 0 <= n -> is_i32 n ->
  (sstate e = SFREE -> n = 0) ->
  Kpl x (set_semtab (<[s := set_scount n e]> (semtab k)) k) qs.
Proof.
  intros H E Hc Hn Hi Hf. eapply placed_sem; [exact H|done|done|].
  intros l (Hlen & Hfree & _). split_and!; simpl; try done. lia.
Qed.

Lemma KInvq_sem k qs s e e' :
  KInvq k qs -> semtab k !! s = Some e -> squeue e' = squeue e ->
  (forall l, sem_ok e l -> sem_ok e' l) -> KInvq (set_semtab (<[s := e']> (semtab k)) k) qs.
Proof. intros [H1 H2 H3 H4] E Hq Hok. split; try done. by eapply placed_sem. Qed.

(** At most [NTHREAD] threads wait. *)
Lemma sem_count_min x k qs s e : Kpl x k qs -> semtab k !! s = Some e -> - NTHREAD <= scount e.
Proof.
  intros H E. destruct (sem_queue _ _ _ _ _ H E) as (l & El & Hlen & _).
  pose proof (queue_nodup _ _ _ _ _ H El) as Hnd.
  apply (qs_each _ _ (pl_rep _ _ _ _ _ _ _ H)), qr_range in El.
  pose proof (NoDup_range_length l NTHREAD Hnd El) as Hle. unfold NTHREAD in *. lia.
Qed.

End states.

(** ** [signal] *)

(** The kernel after a signal on [s] made [t] ready, before rescheduling. *)
Record woken (k : kernel) (qs : gmap Z (list Z)) (s : Z) (t : Z) (k1 : kernel)
    (qs1 : gmap Z (list Z)) : Prop := {
  wk_queue : exists e l lr et, semtab k !! s = Some e /\ qs !! squeue e = Some (t :: l)
    /\ thrtab k !! t = Some et /\ qs !! readylist k = Some lr
    /\ semtab k1 = <[s := set_scount (scount e + 1) e]> (semtab k)
    /\ thrtab k1 = <[t := set_state THRREADY et]> (thrtab k)
    /\ qs1 = <[readylist k := insert_desc (kk (quetab k)) (tprio et) t lr]> (<[squeue e := l]> qs)
    /\ (forall i, kk (quetab k1) i = if decide (i = t) then tprio et else kk (quetab k) i);
  wk_current : thrcurrent k1 = thrcurrent k;
  wk_rl : readylist k1 = readylist k;
  wk_mem : mem k1 = mem k;
}.

Section signal.
Context {G R : kernel -> kernel -> Prop}.
Implicit Types (k : kernel) (qs : gmap Z (list Z)).

(** The body of [signal] and of the loop of [signaln] for a waiting thread:
    the first waiting thread becomes ready. *)
Lemma kwp_wake (Q : unit -> kernel -> kernel -> Prop) k0 k qs s e (resch : bool) :
  KInvq k qs -> semtab k !! s = Some e -> scount e < 0 ->
  (forall t k1 qs1 et, KPre k1 qs1 -> woken k qs s t k1 qs1 -> irq k1 = irq k ->
     thrtab k !! t = Some et -> tstate et = THRWAIT -> t <> thrcurrent k ->
     if resch then kwp G R (fun _ : Z => Q tt) resched k0 k1 else Q tt k0 k1) ->
  kwp G R Q (t ← k_dequeue (squeue e); ready t resch;; mret tt) k0
    (set_semtab (<[s := set_scount (i32 (scount e + 1)) e]> (semtab k)) k).
Proof.
  intros HI E Hneg HQ. pose proof (ki_placed _ _ HI) as HP.
  destruct (sem_take _ _ _ _ HP E Hneg) as (tab' & t & l & et & Ed & El & Et & Hst & Hsem & Hk & HK).
  eapply kwp_qcall; [exact Ed|]. set (k1 := set_quetab tab' _). apply kwp_bind.
  destruct (Kpl_rl _ _ _ HP) as [lr Elr].
  assert (Elr' : <[squeue e := l]> qs !! readylist k1 = Some lr).
  { rewrite lookup_insert_ne; [done|]. by apply (Kpl_rl_sems _ _ _ _ _ HP E). }
  assert (Hnc : t <> thrcurrent k).
  { intros ->. destruct (ki_curr _ _ HI) as (ec & Ec & Hc). congruence. }
  eapply (kwp_ready _ _ _ _ lr t et resch HK Et); [by rewrite Hst|done|].
  intros k2 tab2 -> HK2 Hkk. eapply (HQ t _ _ et); try done.
  - split; [exact HK2| | |apply (ki_ctl _ _ HI)].
    + simpl. destruct (ki_curr _ _ HI) as (ec & Ec & _). exact (Kpl_valid _ _ _ _ _ HP Ec).
    + intros u eu Eu Hstu. simpl in *. rewrite lookup_insert in Eu.
      case_decide; [by simplify_eq|]. by eapply (ki_only _ _ HI).
  - split; [|done|done|done]. exists e, l, lr, et.
    assert (Hi : i32 (scount e + 1) = scount e + 1).
    { pose proof (sem_count_min _ _ _ _ _ HP E). unfold NTHREAD in *. apply i32_id. unfold is_i32. lia. }
    rewrite Hi in *. split_and!; try done.
    + simpl. f_equal. apply insert_desc_ext. intros i _. apply (samekeys_kk _ _ _ Hk).
    + intros i. simpl. rewrite Hkk. by case_decide; [|apply (samekeys_kk _ _ _ Hk)].
Qed.

Lemma woken_others k0 k qs s t k1 qs1 et : woken k qs s t k1 qs1 ->
  others (thrcurrent k) k0 k -> thrtab k !! t = Some et -> tstate et = THRWAIT ->
  others (thrcurrent k) k0 k1.
Proof.
  intros [(e & l & lr & et' & _ & _ & Et' & _ & _ & Ht & _) _ _ Hm] Ho Et Hst.
  rewrite Et in Et'. injection Et' as <-.
  eapply others_upd; [exact Ho|exact Et|by rewrite Ht, Hm|]. intros _. split; simpl; try done; by rewrite Hst.
Qed.

Lemma kwp_signal c (Q : Z -> kernel -> kernel -> Prop) k qs s e :
  (forall s s', R s s' -> Rl c s s') -> KInvq k qs -> thrcurrent k = c ->
  isbadsem k s = false -> semtab k !! s = Some e -> scount e < 2 ^ 31 - 1 ->
  (0 <= scount e -> forall k', sysret c (mask k) k k' qs ->
     semtab k' = <[s := set_scount (scount e + 1) e]> (semtab k) -> thrtab k' = thrtab k -> Q OK k k') ->
  (forall t k1 qs1 k' qs', scount e < 0 -> woken k qs s t k1 qs1 -> KInvq k' qs' ->
     switched c k1 qs1 k' qs' -> thrcurrent k' <> c -> others c k k' -> G k k') ->
  (forall t k1 qs1 k' qs', scount e < 0 -> woken k qs s t k1 qs1 ->
     sysret c (mask k) k k' qs' -> switched c k1 qs1 k' qs' -> Q OK k k') ->
  (forall k0' k' qs', (exists s, R s k0') -> sysret c (mask k) k0' k' qs' -> Q OK k0' k') ->
  kwp G R Q (signal s) k k.
Proof.
  intros HR HI Hc Hb E Hmax HQ0 HG HQ1 HQ2. pose proof (ki_ctl _ _ HI) as [_ Hv].
  pose proof (ki_placed _ _ HI) as HP. unfold signal. kstep. kstep. 
  change (isbadsem _ s) with (isbadsem k s). rewrite Hb. kstep.
  set (k1 := set_irq _ k). assert (HI1 : KInvq k1 qs) by (by apply KInvq_irq).
  destruct (ki_curr _ _ HI) as (ec & Ec & Hec). rewrite Hc in Ec. kstep. apply kwp_bind.
  destruct (Z.ltb_spec (scount e) 0) as [Hneg|Hpos].
  - eapply (kwp_wake _ _ k1 qs s e true HI1 E Hneg). intros t k2 qs2 et HK2 Hw Hirq Et Hst Hnc.
    assert (Ho : others c k k2).
    { rewrite <- Hc. eapply (woken_others k k1); [exact Hw|by apply others_eq|exact Et|done]. }
    assert (Hec2 : thrtab k2 !! c = Some ec).
    { destruct (wk_queue _ _ _ _ _ _ Hw) as (? & ? & ? & ? & _ & _ & _ & _ & _ & -> & _).
      rewrite lookup_insert_ne; [done|]. intros ->. by destruct Hnc. }
    assert (Hcur : thrcurrent k2 = c) by (by rewrite (wk_current _ _ _ _ _ _ Hw)).
    assert (Hw' : woken k qs s t k2 qs2) by (destruct Hw as [Hw1 Hw2 Hw3 Hw4]; by split).
    eapply (kwp_resched _ _ _ _ _ ec); [done|done|exact HK2|exact Ho|exact Hec2|by eauto|..].
    + intros k' qs' e' HI' Hsw Hc' _ Ho' E' _.
      eapply (kwp_exit _ _ _ _ _ _ (irq k)); [exact HI'|done|done|done|done|].
      intros k3 -> Hret. eapply HQ1; [done|done|done|]. destruct Hsw. by split.
    + intros k0' k' e' Hback _ [qs' HI'] Hc' _ Ho' E' _.
      eapply (kwp_exit _ _ _ _ _ _ (irq k)); [exact HI'|done|done|done|done|by eauto].
  - kstep. destruct (sem_queue _ _ _ _ _ HP E) as (l & El & Hok).
    rewrite i32_id by (unfold is_i32; lia).
    eapply (kwp_exit _ _ _ _ qs _ (irq k)); [|done|by apply others_eq|done|done|].
    + eapply (KInvq_sem k1); [done|done|done|]. intros l' (Hlen & Hf & Hi). split_and!; simpl; [lia| |].
      * intros Hfr. exfalso. unfold isbadsem in Hb. rewrite E, Hfr in Hb. btests. done.
      * unfold is_i32. lia.
    + intros k' -> Hret. by apply HQ0.
Qed.

Lemma signal_bad k s : isbadsem k s = true ->
  run (signal s) k = Returned (set_irq (vic_set_irqmask (mask k) (vic_disable_interrupts (irq k))) k) SYSERR.
Proof. intros Hb. unfold signal, mbind, prog_bind. simpl. change (isbadsem _ s) with (isbadsem k s). by rewrite Hb. Qed.

End signal.

(** ** [wait] *)

(** The kernel after the current thread joined the queue of [s], before
    rescheduling. *)
Record waiting (k : kernel) (qs : gmap Z (list Z)) (s : Z) (k1 : kernel)
    (qs1 : gmap Z (list Z)) : Prop := {
  wt_queue : exists e l ec, semtab k !! s = Some e /\ qs !! squeue e = Some l
    /\ thrtab k !! thrcurrent k = Some ec
    /\ semtab k1 = <[s := set_scount (scount e - 1) e]> (semtab k)
    /\ thrtab k1 = <[thrcurrent k := set_sem s (set_state THRWAIT ec)]> (thrtab k)
    /\ qs1 = <[squeue e := l ++ [thrcurrent k]]> qs
    /\ (forall i, kk (quetab k1) i = kk (quetab k) i);
  wt_current : thrcurrent k1 = thrcurrent k;
  wt_rl : readylist k1 = readylist k;
}.

Section wait.
Context {G R : kernel -> kernel -> Prop}.
Implicit Types (k : kernel) (qs : gmap Z (list Z)).

Lemma wait_block k qs s e ec :
  KInvq k qs -> semtab k !! s = Some e -> sstate e = SUSED -> scount e - 1 < 0 ->
  thrtab k !! thrcurrent k = Some ec -> thrcurrent k <> NULLTHREAD ->
  let k' := set_thrtab (<[thrcurrent k := set_sem s (set_state THRWAIT ec)]> (thrtab k))
              (set_semtab (<[s := set_scount (i32 (scount e - 1)) e]> (semtab k)) k) in
  exists tab' qs1, enqueue (isbadtid k') (quetab k') (thrcurrent k) (squeue e) = Some (tab', thrcurrent k)
    /\ KPre (set_quetab tab' k') qs1 /\ waiting k qs s (set_quetab tab' k') qs1.
Proof.
  intros HI E Hu Hneg Ec Hn k'. pose proof (ki_placed _ _ HI) as HP.
  destruct (ki_curr _ _ HI) as (ec' & Ec' & Hcur). rewrite Ec in Ec'. injection Ec' as <-.
  destruct (sem_queue _ _ _ _ _ HP E) as (l & El & Hok). pose proof (sem_count_min _ _ _ _ _ HP E).
  set (k0 := set_thrtab (<[thrcurrent k := set_sem s (set_state THRWAIT ec)]> (thrtab k)) k).
  destruct (sem_put k0 qs s e l (thrcurrent k) (set_sem s (set_state THRWAIT ec)))
    as (tab' & Ee & Hk & HK); try done.
  - eapply (Kpl_thr _ k); [|done|by left|]; [|exact (Kpl_prio _ _ _ _ _ HP Ec)].
    eapply Kpl_exempt; [done..|]. unfold home. by rewrite Hcur.
  - unfold NTHREAD in *. lia.
  - apply lookup_insert_eq.
  - exists tab', (<[squeue e := l ++ [thrcurrent k]]> qs). split_and!; [exact Ee| |].
    + split; [exact HK|exact (Kpl_valid _ _ _ _ _ HP Ec)| |apply (ki_ctl _ _ HI)].
      intros u eu Eu Hst. simpl in *. rewrite lookup_insert in Eu.
      case_decide; [by simplify_eq|]. by eapply (ki_only _ _ HI).
    + split; [|done|done]. exists e, l, ec. unfold k'. simpl.
      rewrite i32_id by (unfold is_i32, NTHREAD in *; lia). split_and!; try done.
      intros i. apply (samekeys_kk _ _ _ Hk).
Qed.

Lemma kwp_wait c (Q : Z -> kernel -> kernel -> Prop) k qs s e :
  (forall s s', R s s' -> Rl c s s') -> KInvq k qs -> thrcurrent k = c ->
  isbadsem k s = false -> semtab k !! s = Some e -> sstate e = SUSED ->
  (scount e <= 0 -> c <> NULLTHREAD) ->
  (0 < scount e -> forall k', sysret c (mask k) k k' qs ->
     semtab k' = <[s := set_scount (scount e - 1) e]> (semtab k) -> thrtab k' = thrtab k -> Q OK k k') ->
  (forall k1 qs1 k' qs', scount e <= 0 -> waiting k qs s k1 qs1 -> KInvq k' qs' ->
     switched c k1 qs1 k' qs' -> thrcurrent k' <> c -> others c k k' -> G k k') ->
  (forall k0' k' qs', (exists s, R s k0') -> (exists v, k' = set_irq v k0') -> sysret c (mask k) k0' k' qs' -> Q OK k0' k') ->
  kwp G R Q (wait s) k k.
Proof.
  intros HR HI Hc Hb E Hu Hn HQ0 HG HQ2. pose proof (ki_ctl _ _ HI) as [_ Hv].
  pose proof (ki_placed _ _ HI) as HP. unfold wait. kstep. kstep.
  change (isbadsem _ s) with (isbadsem k s). rewrite Hb. kstep. simpl thrcurrent. rewrite Hc. kstep.
  set (k1 := set_irq _ k). assert (HI1 : KInvq k1 qs) by (by apply KInvq_irq).
  destruct (ki_curr _ _ HI) as (ec & Ec & Hec). rewrite Hc in Ec.
  pose proof (sem_count_min _ _ _ _ _ HP E) as Hmin. destruct (sem_queue _ _ _ _ _ HP E) as (l & El & Hok).
  assert (Hi : i32 (scount e - 1) = scount e - 1).
  { apply i32_id. destruct Hok as (_ & _ & Hi). unfold is_i32, NTHREAD in *. lia. }
  kstep. kstep. destruct (Z.ltb_spec (i32 (scount e - 1)) 0) as [Hneg|Hpos]; rewrite Hi in *.
  - destruct (wait_block k1 qs s e ec HI1 E Hu Hneg) as (tab' & qs1 & Ee & HK & Hw);
      [by simpl; rewrite Hc|simpl; rewrite Hc; apply Hn; lia|].
    simpl thrcurrent in Ee, HK, Hw. rewrite Hc, Hi in Ee, HK, Hw.
    eapply kwp_upd_thr; [exact Ec|]. eapply kwp_upd_thr; [apply lookup_insert_eq|].
    simpl thrtab. rewrite insert_insert_eq. eapply kwp_qcall; [exact Ee|].
    apply kwp_bind. set (k2 := set_quetab tab' _) in *.
    assert (Hw' : waiting k qs s k2 qs1) by (destruct Hw as [Hw1 Hw2 Hw3]; by split).
    assert (Ho : others c k k2).
    { eapply (others_upd _ _ k); [by apply others_eq|exact Ec|done|done]. }
    eapply (kwp_resched _ _ _ _ _ (set_sem s (set_state THRWAIT ec)));
      [done|done|exact HK|exact Ho|apply lookup_insert_eq|..].
    + intros. eapply HG; eauto. lia.
    + intros k' qs' e' HI' Hsw Hc'.
      by destruct (switched_leaves _ _ _ _ _ _ (kp_placed _ _ HK) Hsw (lookup_insert_eq _ _ _)).
    + intros k0' k' e' Hback [v ->] [qs' HI'] Hc' _ Ho' E' _. kstep.
      eapply (kwp_exit _ _ _ _ _ _ (irq k)); [exact HI'|done|done|done|done|]. intros k3 -> Hret. by eapply HQ2; [|eexists|].
  - kstep. eapply (kwp_exit _ _ _ _ qs _ (irq k)); [|done|by apply others_eq|done|done|].
    + eapply (KInvq_sem k1); [done|done|done|]. intros l' (Hlen & Hf & Hi'). split_and!; simpl; [lia|congruence|].
      unfold is_i32 in *. lia.
    + intros k' -> Hret. apply HQ0; [lia|done..].
Qed.

End wait.

(** ** All semaphore calls are safe *)

Section safe.
Implicit Types (k : kernel) (qs : gmap Z (list Z)).

Lemma signal_safe k s : KInv k -> 0 <= s ->
  (forall e, semtab k !! s = Some e -> scount e < 2 ^ 31 - 1) -> safe_call (signal s) k.
Proof.
  intros [qs HI] Hs Hmax. destruct (isbadsem k s) eqn:Hb.
  { unfold safe_call, signal. kstep. kstep. change (isbadsem _ s) with (isbadsem k s).
    rewrite Hb. by eapply safe_exit. }
  destruct (isbadsem_good _ _ Hb Hs) as (e & E & Hu & _).
  unfold safe_call. eapply (kwp_signal _ _ k qs s e); eauto.
  intros t k1 qs1 k' qs' _ _ HI' _ _ Ho. split; [by exists qs'|done].
Qed.

Lemma wait_safe k s : KInv k -> 0 <= s -> thrcurrent k <> NULLTHREAD -> safe_call (wait s) k.
Proof.
  intros [qs HI] Hs Hn. destruct (isbadsem k s) eqn:Hb.
  { unfold safe_call, wait. kstep. kstep. change (isbadsem _ s) with (isbadsem k s).
    rewrite Hb. by eapply safe_exit. }
  destruct (isbadsem_good _ _ Hb Hs) as (e & E & Hu & _).
  unfold safe_call. eapply (kwp_wait _ _ k qs s e); eauto.
  intros k1 qs1 k' qs' _ _ HI' _ _ Ho. split; [by exists qs'|done].
Qed.

Lemma KPre_inv k qs e : KPre k qs -> thrtab k !! thrcurrent k = Some e -> tstate e = THRCURR -> KInvq k qs.
Proof. intros [H1 H2 H3 H4] E Hs. split; eauto. Qed.

(** Making waiting threads ready leaves the current thread running. *)
Lemma woken_inv k qs s t k1 qs1 : KInvq k qs -> KPre k1 qs1 -> woken k qs s t k1 qs1 ->
  t <> thrcurrent k -> KInvq k1 qs1.
Proof.
  intros HI HK [(e & l & lr & et & _ & _ & _ & _ & _ & Ht & _) Hc _ _] Hne.
  destruct (ki_curr _ _ HI) as (ec & Ec & Hs). eapply KPre_inv; [done| |exact Hs].
  rewrite Ht, Hc, lookup_insert_ne; done.
Qed.

Lemma kwp_signaln_loop {G R} (Q : unit -> kernel -> kernel -> Prop) k0 s n :
  forall k qs e, KInvq k qs -> semtab k !! s = Some e -> sstate e = SUSED ->
  scount e + Z.of_nat n < 2 ^ 31 -> others (thrcurrent k) k0 k ->
  (forall k' qs' e', KInvq k' qs' -> thrcurrent k' = thrcurrent k -> irq k' = irq k ->
     others (thrcurrent k) k0 k' -> semtab k' !! s = Some e' ->
     scount e' = scount e + Z.of_nat n -> Q tt k0 k') ->
  kwp G R Q (signaln_loop s n) k0 k.
Proof.
  induction n as [|n IH]; intros k qs e HI E Hu Hmax Ho HQ; cbn [signaln_loop].
  { kstep. eapply (HQ k qs e); try done. lia. }
  pose proof (ki_placed _ _ HI) as HP. pose proof (sem_count_min _ _ _ _ _ HP E) as Hmin.
  assert (Hi : i32 (scount e + 1) = scount e + 1) by (apply i32_id; unfold is_i32, NTHREAD in *; lia).
  kstep. kstep. apply kwp_bind. destruct (Z.ltb_spec (scount e) 0) as [Hneg|Hpos].
  - eapply (kwp_wake _ _ k qs s e false HI E Hneg). intros t k2 qs2 et HK2 Hw Hirq Et Hst Hnc.
    pose proof (woken_inv _ _ _ _ _ _ HI HK2 Hw Hnc) as HI2.
    pose proof (woken_others _ _ _ _ _ _ _ _ Hw Ho Et Hst) as Ho2.
    pose proof (wk_current _ _ _ _ _ _ Hw) as Hc2.
    destruct (wk_queue _ _ _ _ _ _ Hw) as (e0 & l & lr & et0 & E0 & _ & _ & _ & Hsm & _).
    rewrite E in E0. injection E0 as <-.
    assert (E2 : semtab k2 !! s = Some (set_scount (scount e + 1) e)) by (rewrite Hsm; apply lookup_insert_eq).
    eapply (IH k2 qs2); [exact HI2|exact E2|done|simpl; lia|by rewrite Hc2|].
    intros k' qs' e' HI' Hc' Hirq' Ho' E' Hcnt. simpl in Hcnt.
    rewrite Hc2 in *. eapply (HQ k' qs' e'); try done; [congruence|lia].
  - kstep. rewrite Hi. set (k1 := set_semtab _ k).
    assert (HI1 : KInvq k1 qs).
    { eapply KInvq_sem; [done|done|done|]. intros l (Hlen & Hf & Hi'). split_and!; simpl; [lia|congruence|].
      unfold is_i32 in *. lia. }
    eapply (IH k1 qs (set_scount (scount e + 1) e)); [done|apply lookup_insert_eq|done|simpl; lia|done|].
    intros k' qs' e' HI' Hc' Hirq' Ho' E' Hcnt. simpl in Hcnt.
    eapply (HQ k' qs' e'); try done. lia.
Qed.

Lemma signaln_safe k s count : KInv k -> 0 <= s ->
  (forall e, semtab k !! s = Some e -> scount e + count < 2 ^ 31) -> safe_call (signaln s count) k.
Proof.
  intros [qs HI] Hs Hmax. pose proof (ki_ctl _ _ HI) as [_ Hv].
  unfold safe_call, signaln. kstep. kstep. change (isbadsem _ s) with (isbadsem k s).
  destruct (isbadsem k s) eqn:Hb; [by eapply safe_exit|].
  destruct (Z.leb_spec count 0); [by eapply safe_exit|]. simpl orb. cbv iota.
  destruct (isbadsem_good _ _ Hb Hs) as (e & E & Hu & _). pose proof (Hmax _ E).
  set (k1 := set_irq _ k). assert (HI1 : KInvq k1 qs) by (by apply KInvq_irq).
  apply kwp_bind. eapply (kwp_signaln_loop _ _ _ _ k1 qs e HI1 E Hu); [lia|by apply others_eq|].
  intros k' qs' e' HI' Hc' Hirq' Ho' E' _. destruct (ki_curr _ _ HI') as (ec & Ec & _).
  simpl in Hc'. rewrite Hc' in Ec.
  eapply (kwp_resched_exit _ _ _ _ qs' ec _ (irq k)); [done|by apply KInvq_pre|done|done|exact Ec|done|done|..]; eauto.
  intros k2 qs2 HI2 _ _ Ho2. split; [by exists qs2|done].
Qed.

Lemma semcount_safe k s : KInv k -> 0 <= s -> safe_call (semcount s) k.
Proof.
  intros [qs HI] Hs. unfold safe_call, semcount. kstep.
  assert (Hret : sysret (thrcurrent k) (mask k) k k qs) by (split; [done..|by apply others_eq]).
  destruct (isbadsem k s) eqn:Hb; [kstep; by eauto|].
  destruct (isbadsem_good _ _ Hb Hs) as (e & E & _). kstep. kstep. by eauto.
Qed.

(** *** [semcreate] *)

(** Every slot the loop of [semalloc] looks at is in use. *)
Definition all_used (k : kernel) (n : nat) : Prop :=
  forall i e, 1 <= i <= Z.of_nat n -> semtab k !! ((nextsem k + i) mod NSEM) = Some e -> sstate e = SUSED.

Lemma kwp_semalloc_loop {G R} (Q : Z -> kernel -> kernel -> Prop) k0 n :
  forall k qs, KInvq k qs ->
  (forall x, all_used k n -> KInvq (set_nextsem x k) qs -> Q (u32 SYSERR) k0 (set_nextsem x k)) ->
  (forall s e, 0 <= s < NSEM -> semtab k !! s = Some e -> sstate e = SFREE ->
     let k' := set_semtab (<[s := set_sstate SUSED e]> (semtab k)) (set_nextsem s k) in
     KInvq k' qs -> Q s k0 k') ->
  kwp G R Q (semalloc_loop n) k0 k.
Proof.
  induction n as [|n IH]; intros k qs HI HQ1 HQ2; cbn [semalloc_loop].
  { kstep. replace k with (set_nextsem (nextsem k) k) by (by destruct k). apply HQ1; [|by destruct k].
    intros i e Hi. lia. }
  pose proof (Z.mod_pos_bound (nextsem k + 1) NSEM ltac:(unfold NSEM; lia)) as Hb.
  set (nx := (nextsem k + 1) mod NSEM) in *.
  destruct (proj2 (pl_semdom _ _ _ _ _ _ _ (ki_placed _ _ HI) nx) Hb) as [e E].
  kstep. fold nx. kstep. kstep. case_decide as Hf.
  - kstep. kstep. apply HQ2; [done..|]. eapply (KInvq_sem (set_nextsem nx k)); [|done|done|].
    + destruct HI as [H1 H2 H3 H4]. by split.
    + intros l (Hlen & Hc & Hi). split_and!; done.
  - eapply (IH (set_nextsem nx k) qs).
    + destruct HI as [H1 H2 H3 H4]. by split.
    + intros x Hall HI'. apply (HQ1 x); [|done]. intros i e' Hi E'.
      destruct (decide (i = 1)) as [->|Hne]; [fold nx in E'; by destruct (sstate e) eqn:?; simplify_eq|].
      apply (Hall (i - 1) e'); [lia|]. simpl. unfold nx. rewrite Z.add_mod_idemp_l by done.
      by replace (nextsem k + 1 + (i - 1)) with (nextsem k + i) by lia.
    + intros s0 e0. apply (HQ2 s0 e0).
Qed.

(** A failed search saw every semaphore. *)
Lemma all_used_full k s e : all_used k (Z.to_nat NSEM) -> 0 <= s < NSEM ->
  semtab k !! s = Some e -> sstate e = SUSED.
Proof.
  intros H Hs E. set (d := (s - nextsem k - 1) mod NSEM).
  pose proof (Z.mod_pos_bound (s - nextsem k - 1) NSEM ltac:(unfold NSEM; lia)) as Hd.
  apply (H (d + 1) e); [fold d in Hd; unfold NSEM in *; lia|].
  replace ((nextsem k + (d + 1)) mod NSEM) with s; [done|].
  replace (nextsem k + (d + 1)) with (d + (nextsem k + 1)) by lia. unfold d.
  rewrite Z.add_mod_idemp_l by done.
  replace (s - nextsem k - 1 + (nextsem k + 1)) with s by lia. by rewrite Z.mod_small.
Qed.

Lemma kwp_semcreate {G R} c (Q : Z -> kernel -> kernel -> Prop) k qs count :
  KInvq k qs -> thrcurrent k = c -> is_i32 count ->
  (forall k', sysret c (mask k) k k' qs ->
     (0 <= count -> forall s e, semtab k !! s = Some e -> sstate e = SUSED) -> Q (u32 SYSERR) k k') ->
  (forall k' s e, sysret c (mask k) k k' qs -> 0 <= count -> 0 <= s < NSEM ->
     semtab k !! s = Some e -> sstate e = SFREE ->
     semtab k' = <[s := mksement SUSED count (squeue e)]> (semtab k) -> thrtab k' = thrtab k ->
     Q s k k') ->
  kwp G R Q (semcreate count) k k.
Proof.
  intros HI Hc Hi HQ1 HQ2. pose proof (ki_ctl _ _ HI) as [_ Hv]. unfold semcreate, semalloc. kstep.
  set (k1 := set_irq _ k). assert (HI1 : KInvq k1 qs) by (by apply KInvq_irq).
  apply kwp_bind. eapply (kwp_semalloc_loop _ _ _ k1 qs HI1).
  - intros x Hall HIx. rewrite Z.eqb_refl. simpl andb. cbv iota.
    eapply (kwp_exit _ _ _ _ qs _ (irq k)); [exact HIx|done|by apply others_eq|done|done|].
    intros k' _ Hret. apply HQ1; [done|]. intros _ s e E.
    eapply (all_used_full k1); [exact Hall| |exact E].
    apply (pl_semdom _ _ _ _ _ _ _ (ki_placed _ _ HI)). eauto.
  - intros s e Hs E Hf k2 HI2.
    assert (Hne : (s =? u32 SYSERR) = false).
    { apply Z.eqb_neq. change (u32 SYSERR) with 4294967295. unfold NSEM in *. lia. }
    rewrite Hne. simpl andb. destruct (Z.leb_spec 0 count) as [Hpos|Hneg].
    + eapply kwp_upd_sem; [apply lookup_insert_eq|].
      eapply (kwp_exit _ _ _ _ qs _ (irq k)); [|done|by apply others_eq|done|done|].
      * eapply (KInvq_sem k2); [exact HI2|apply lookup_insert_eq|done|].
        intros l (Hlen & Hcnt & _). split_and!; simpl; [|done|done].
        destruct (sem_queue _ _ _ _ _ (ki_placed _ _ HI) E) as (_ & _ & _ & H0 & _).
        specialize (H0 Hf). simpl in Hlen. lia.
      * intros k' -> Hret. apply (HQ2 _ s e); try done. simpl. by rewrite insert_insert_eq.
    + eapply (kwp_exit _ _ _ _ qs _ (irq k)); [exact HI2|done|by apply others_eq|done|done|].
      intros k' _ Hret. apply HQ1; [done|lia].
Qed.

Lemma semcreate_safe k count : KInv k -> is_i32 count -> safe_call (semcreate count) k.
Proof.
  intros [qs HI] Hi. unfold safe_call. eapply (kwp_semcreate _ _ k qs); eauto.
Qed.

(** *** [semfree]

    The loop readies the waiting threads before it resets the count; in between
    the count of the semaphore is the one the shrinking queue [l] has. *)
Definition freeing (k : kernel) (s : Z) (e : sement) (l : list Z) : kernel :=
  set_semtab (<[s := set_scount (- Z.of_nat (length l)) e]> (semtab k)) k.

Lemma kwp_ready_freeing {G R} (Q : Z -> kernel -> kernel -> Prop) k0 k qs s e l lr t et :
  Kpl (Some t) (freeing k s e l) qs -> thrtab k !! t = Some et -> tstate et <> THRFREE ->
  qs !! readylist k = Some lr ->
  (forall k' tab', k' = set_quetab tab' (set_thrtab (<[t := set_state THRREADY et]> (thrtab k)) k) ->
    Kpl None (freeing k' s e l) (<[readylist k := insert_desc (kk (quetab k)) (tprio et) t lr]> qs) ->
    Q OK k0 k') ->
  kwp G R Q (ready t RESCHED_NO) k0 k.
Proof.
  intros HK E Hs El HQ. pose proof (Kpl_valid _ _ _ _ _ HK E) as Hv.
  set (e' := set_state THRREADY et). set (k1 := set_thrtab (<[t := e']> (thrtab k)) k).
  assert (E1 : thrtab (freeing k1 s e l) !! t = Some e') by apply lookup_insert_eq.
  assert (HK1 : Kpl (Some t) (freeing k1 s e l) qs).
  { apply (Kpl_thr _ (freeing k s e l) _ _ et); [done..|by left|]. by apply (Kpl_prio _ _ _ _ _ HK E). }
  destruct (ready_put (freeing k1 s e l) qs lr t e' HK1 E1 eq_refl El) as (tab' & Ei & HK2 & Hk).
  unfold ready. kstep. rewrite (isbadtid_false _ _ _ E Hv Hs).
  kstep. kstep. kstep. eapply kwp_qcall; [apply Ei|]. unfold RESCHED_NO. kstep. kstep. by eapply HQ.
Qed.

Lemma kwp_ready_all {G R} (Q : unit -> kernel -> kernel -> Prop) k0 s e c fuel :
  forall k qs l, Kpl None (freeing k s e l) qs -> qs !! squeue e = Some l ->
  semtab k !! s = Some e -> (length l < fuel)%nat -> others c k0 k -> only_curr k ->
  (forall k' qs', Kpl None (freeing k' s e []) qs' -> semtab k' = semtab k ->
     thrcurrent k' = thrcurrent k -> irq k' = irq k -> resdefer k' = resdefer k ->
     others c k0 k' -> only_curr k' ->
     (forall u, tstate <$> thrtab k !! u = Some THRCURR -> thrtab k' !! u = thrtab k !! u) ->
     Q tt k0 k') ->
  kwp G R Q (ready_all fuel (squeue e)) k0 k.
Proof.
  induction fuel as [|fuel IH]; intros k qs l HK El E Hf Ho Hoc HQ; [lia|]. cbn [ready_all].
  eapply kwp_qread; [exact (qs_nonempty _ _ _ _ (pl_rep _ _ _ _ _ _ _ HK) El)|].
  destruct l as [|t l]; [by kstep; eapply HQ|]. cbv iota.
  assert (Es : semtab (freeing k s e (t :: l)) !! s
    = Some (set_scount (- Z.of_nat (length (t :: l))) e)) by apply lookup_insert_eq.
  destruct (sem_take _ _ _ _ HK Es) as (tab' & t' & l' & et & Ed & El' & Et & Hst & Hsem & Hk & HK1);
    [simpl; lia|].
  simpl squeue in El'. rewrite El in El'. injection El' as <- <-.
  eapply kwp_qcall; [exact Ed|]. apply kwp_bind. simpl squeue in HK1.
  assert (Hlen : (length l <= Z.to_nat NTHREAD)%nat).
  { pose proof (queue_nodup _ _ _ _ _ HK El) as Hnd. apply NoDup_cons in Hnd as [_ Hnd].
    apply NoDup_range_length; [done|]. apply (qs_each _ _ (pl_rep _ _ _ _ _ _ _ HK)), qr_range in El.
    by inversion El. }
  assert (HK2 : Kpl (Some t) (freeing (set_quetab tab' k) s e l) (<[squeue e := l]> qs)).
  { unfold freeing, set_scount in *. simpl in HK1 |- *. rewrite insert_insert_eq in HK1.
    rewrite i32_id in HK1 by (unfold is_i32, NTHREAD in *; lia).
    replace (- Z.of_nat (length l)) with (- Z.of_nat (S (length l)) + 1) by lia. exact HK1. }
  destruct (Kpl_rl _ _ _ HK2) as [lr Elr].
  eapply (kwp_ready_freeing _ _ (set_quetab tab' k) _ s e l lr t et HK2 Et); [by rewrite Hst|done|].
  intros k2 tab2 -> HK3. simpl in Hf.
  eapply (IH _ _ l HK3); [| |lia| | |].
  - simpl. rewrite lookup_insert_ne, lookup_insert_eq; [done|].
    intros Heq. by destruct (Kpl_rl_sems _ _ _ _ _ HK Es).
  - exact E.
  - eapply others_upd; [exact Ho|exact Et|done|]. intros _. split; simpl; try done; by rewrite Hst.
  - intros u eu Eu Hstu. simpl in *. rewrite lookup_insert in Eu.
    case_decide; [by simplify_eq|]. by eapply Hoc.
  - intros k3 qs3 HK4 A1 A2 A3 A4 A5 A6 A7. eapply (HQ k3 qs3); try done.
    intros u Hu. simpl in A7. assert (u <> t).
    { intros ->. simpl in Et. rewrite Et in Hu. simpl in Hu. congruence. }
    rewrite A7; rewrite lookup_insert_ne; done.
Qed.

Lemma semfree_safe k s : KInv k -> 0 <= s -> safe_call (semfree s) k.
Proof.
  intros [qs HI] Hs. pose proof (ki_ctl _ _ HI) as [Hrd Hv].
  unfold safe_call, semfree. kstep. kstep. change (isbadsem _ s) with (isbadsem k s).
  destruct (isbadsem k s) eqn:Hb; [by eapply safe_exit|].
  destruct (isbadsem_good _ _ Hb Hs) as (e & E & Hu & _). kstep.
  set (k1 := set_irq _ k). assert (HI1 : KInvq k1 qs) by (by apply KInvq_irq).
  pose proof (ki_placed _ _ HI1) as HP. destruct (sem_queue _ _ _ _ _ HP E) as (l & El & Hok).
  apply kwp_bind. eapply (kwp_ready_all _ _ s e (thrcurrent k) _ k1 qs l); [|done|exact E| |by apply others_eq| |].
  - unfold freeing. eapply placed_sem; [exact HP|exact E|done|]. intros l0 (Hlen & Hf & Hi).
    pose proof (sem_count_min _ _ _ _ _ HP E). destruct Hok as (Hlen' & _).
    assert (length l = length l0) as Hll by congruence.
    split_and!; simpl; [lia|congruence|]. unfold is_i32, NTHREAD in *. lia.
  - pose proof (queue_nodup _ _ _ _ _ HP El) as Hnd.
    apply (qs_each _ _ (pl_rep _ _ _ _ _ _ _ HP)), qr_range in El.
    pose proof (NoDup_range_length l NTHREAD Hnd El). lia.
  - apply (ki_only _ _ HI1).
  - intros k2 qs2 HK2 A1 A2 A3 A4 A5 A6 A7. simpl in A1, A2, A3, A4, A7.
    eapply kwp_upd_sem; [rewrite A1; exact E|]. eapply kwp_upd_sem; [apply lookup_insert_eq|].
    simpl semtab. rewrite insert_insert_eq. destruct (ki_curr _ _ HI) as (ec & Ec & Hec).
    assert (Ec2 : thrtab k2 !! thrcurrent k2 = Some ec) by (rewrite A2, A7; [done|by rewrite Ec; simpl; rewrite Hec]).
    assert (HI2 : KInvq (freeing k2 s e []) qs2).
    { split; [exact HK2|by exists ec|exact A6|]. split; simpl; [by rewrite A4|by rewrite A3]. }
    eapply (kwp_exit _ _ _ _ qs2 _ (irq k)); [|done|exact A5|done|done|by eauto].
    pose proof (KInvq_sem (freeing k2 s e []) qs2 s _ (set_sstate SFREE (set_scount 0 e)) HI2
      (lookup_insert_eq _ _ _) eq_refl) as HI3.
    unfold freeing in HI3. simpl in HI3. rewrite insert_insert_eq in HI3. apply HI3.
    intros l0 (Hlen & _ & Hi). by split_and!.
Qed.

End safe.
