(* ===== verification/ClockSpec.v ===== *)
(** * Sleeping and the clock keep the invariant *)

From S2P Require Import Prelude Prog Queue QueueSpec QueueSys Interrupt Memory Kernel Thread Clock Placement Invariant Sched ThreadSpec.

(** ** Keys *)

Section keys.
Implicit Types (tab : gmap Z queent) (qs : gmap Z (list Z)) (l : list Z).

Lemma qs_upd_key tab qs i v : i < NTHREAD -> qs_rep tab qs -> qs_rep (upd_key tab i v) qs.
Proof.
  intros Hi [H1 H2 H3 H4]. split; try done.
  - intros j. rewrite intab_upd_key. apply H1.
  - intros q l Hq. apply qrep_upd_key; auto.
Qed.

Lemma kk_upd_key tab i v j : intab tab j ->
  kk (upd_key tab i v) j = if decide (i = j) then v else kk tab j.
Proof. intros Hj. unfold kk. rewrite keyof_upd_key by done. by case_decide. Qed.

Lemma kk_upd_key_ne tab i v j : i <> j -> kk (upd_key tab i v) j = kk tab j.
Proof. intros Hj. unfold kk. by rewrite keyof_upd_key_ne. Qed.

Lemma upd_key_same tab i e : tab !! i = Some e -> upd_key tab i (qkey e) = tab.
Proof.
  intros E. apply map_eq. intros j. unfold upd_key. rewrite lookup_alter. case_decide; [|done].
  subst. rewrite E. by destruct e.
Qed.

Definition dsum (l : list (Z * Z)) : Z := foldr (fun p s => p.2 + s) 0 l.

Lemma keysum_delta tab l : keysum tab l = dsum (delta tab l).
Proof. induction l as [|t l IH]; simpl; [done|]. unfold dsum in *. simpl. by rewrite IH. Qed.

Lemma dsum_nonneg (l : list (Z * Z)) : Forall (fun p => 0 <= p.2) l -> 0 <= dsum l.
Proof. induction 1 as [|p l Hp Hl IH]; unfold dsum in *; simpl; lia. Qed.

Lemma dsum_insert_delta key x (l : list (Z * Z)) :
  Forall (fun p => 0 <= p.2) l -> 0 <= key -> dsum (insert_delta key x l) = Z.max (dsum l) key.
Proof.
  intros Hf. revert key. induction Hf as [|[y d] l Hd Hl IH]; intros key Hk; simpl in *.
  - unfold dsum. simpl. lia.
  - pose proof (dsum_nonneg _ Hl). unfold dsum in *.
    destruct (Z.leb_spec d key); simpl; [rewrite IH|]; lia.
Qed.

Lemma sleep_nonneg_delta tab l : Forall (fun t => 0 <= kk tab t) l -> Forall (fun p => 0 <= p.2) (delta tab l).
Proof. intros H. unfold delta. rewrite Forall_fmap. done. Qed.

Lemma keysum_nonneg tab l : Forall (fun t => 0 <= kk tab t) l -> 0 <= keysum tab l.
Proof. intros H. rewrite keysum_delta. by apply dsum_nonneg, sleep_nonneg_delta. Qed.

Lemma sleep_delta_ok tab l : sleep_ok tab l -> delta_ok tab l.
Proof.
  intros [Hf Hs]. unfold delta_ok. induction Hf as [|t l Ht Hl IH]; [constructor|].
  simpl in Hs. pose proof (keysum_nonneg _ _ Hl). constructor; [lia|]. apply IH. lia.
Qed.

Lemma sleep_insert tab tab' l l' key x :
  sleep_ok tab l -> 0 <= key < 2 ^ 31 -> delta tab' l' = insert_delta key x (delta tab l) ->
  sleep_ok tab' l'.
Proof.
  intros [Hf Hs] Hk Hd. pose proof (sleep_nonneg_delta _ _ Hf) as Hn.
  pose proof (insert_delta_nonneg key x _ ltac:(lia) Hn) as Hn'. rewrite <- Hd in Hn'. split.
  - unfold delta in Hn'. by rewrite Forall_fmap in Hn'.
  - rewrite keysum_delta, Hd, dsum_insert_delta by (done || lia). rewrite keysum_delta in Hs. lia.
Qed.

Lemma insertd_bad bad bad' tab t q key : bad t = bad' t -> insertd bad tab t q key = insertd bad' tab t q key.
Proof. intros H. unfold insertd. by rewrite H. Qed.

End keys.

(** ** Going to sleep *)

Section states.
Implicit Types (k : kernel) (qs : gmap Z (list Z)).

Definition asleep (st : thrstate) : Prop := st = THRSLEEP \/ st = THRTMOUT.

Lemma Kpl_sq x k qs : Kpl x k qs -> exists l, qs !! sleepq k = Some l /\ sleep_ok (quetab k) l.
Proof. intros H. apply (pl_sq _ _ _ _ _ _ _ H). Qed.

Lemma sleep_put k qs l t e key :
  Kpl (Some t) k qs -> thrtab k !! t = Some e -> asleep (tstate e) -> t <> NULLTHREAD ->
  qs !! sleepq k = Some l -> 0 <= key < 2 ^ 31 ->
  exists tab' l', insertd (isbadtid k) (quetab k) t (sleepq k) key = Some (tab', OK)
    /\ delta tab' l' = insert_delta key t (delta (quetab k) l)
    /\ Kpl None (set_quetab tab' k) (<[sleepq k := l']> qs).
Proof.
  intros H E Hs Hn El Hk. pose proof (Kpl_valid _ _ _ _ _ H E) as Hv.
  destruct (Kpl_sq _ _ _ H) as (l0 & El0 & Hok). rewrite El in El0. injection El0 as <-.
  pose proof (pl_unqueued _ _ _ H eq_refl) as Hu.
  assert (Hb : isbadtid k t = false) by (eapply isbadtid_false; [done..|by destruct Hs as [-> | ->]]).
  destruct (qs_insertd (isbadtid k) _ _ _ l t key (pl_rep _ _ _ _ _ _ _ H) El Hu Hv Hb)
    as (tab' & l' & Ei & Hrep & Hd & Hkk); [by apply sleep_delta_ok|done|].
  assert (Hel : forall u, u ∈ l' <-> u = t \/ u ∈ l).
  { intros u. rewrite <- (delta_fst tab' l'), Hd, insert_delta_elem, delta_fst. done. }
  exists tab', l'. split_and!; [done..|].
  eapply (placed_put _ _ _ _ l _ t e); [exact H| |by apply Hel; left|done| |done].
  - split; try done.
    + intros u Hne. rewrite Hel. naive_solver.
    + intros i Hi. unfold kk. by rewrite Hkk.
    + apply sems_upd_refl. intros s es. by apply (Kpl_sq_sems _ _ _ _ _ H).
    + intros Heq. by destruct (pl_ne _ _ _ _ _ _ _ H).
    + intros _. by eapply sleep_insert.
  - unfold home. by destruct Hs as [-> | ->].
Qed.

(** The current thread goes to sleep: the call of [insertd] comes before the
    change of state. *)
Lemma sleep_block k qs st ec key :
  KInvq k qs -> thrtab k !! thrcurrent k = Some ec -> asleep st -> thrcurrent k <> NULLTHREAD ->
  0 <= key < 2 ^ 31 ->
  exists tab' l l', insertd (isbadtid k) (quetab k) (thrcurrent k) (sleepq k) key = Some (tab', OK)
    /\ qs !! sleepq k = Some l /\ delta tab' l' = insert_delta key (thrcurrent k) (delta (quetab k) l)
    /\ KPre (set_thrtab (<[thrcurrent k := set_state st ec]> (thrtab k)) (set_quetab tab' k))
         (<[sleepq k := l']> qs).
Proof.
  intros HI Ec Hst Hn Hk. pose proof (ki_placed _ _ HI) as HP.
  destruct (ki_curr _ _ HI) as (ec' & Ec' & Hcur). rewrite Ec in Ec'. injection Ec' as <-.
  destruct (Kpl_sq _ _ _ HP) as (l & El & _).
  set (k0 := set_thrtab (<[thrcurrent k := set_state st ec]> (thrtab k)) k).
  pose proof (Kpl_valid _ _ _ _ _ HP Ec) as Hv.
  destruct (sleep_put k0 qs l (thrcurrent k) (set_state st ec) key)
    as (tab' & l' & Ei & Hd & HK); try done.
  - eapply (Kpl_thr _ k); [|done|by left|]; [|exact (Kpl_prio _ _ _ _ _ HP Ec)].
    eapply Kpl_exempt; [done..|]. unfold home. by rewrite Hcur.
  - apply lookup_insert_eq.
  - exists tab', l, l'. split_and!; [|done|done|].
    + rewrite <- Ei. apply insertd_bad.
      rewrite (isbadtid_false k _ ec); [|done|done|by rewrite Hcur].
      rewrite (isbadtid_false k0 _ (set_state st ec)); [done|apply lookup_insert_eq|done|].
      by destruct Hst as [-> | ->].
    + split; [exact HK|exact Hv| |apply (ki_ctl _ _ HI)].
      intros u eu Eu Hst'. simpl in *. rewrite lookup_insert in Eu.
      case_decide; [simplify_eq; simpl in *; by destruct Hst as [-> | ->]|]. by eapply (ki_only _ _ HI).
Qed.

(** ** Waking up before time *)

Lemma keysum_app tab l1 l2 : keysum tab (l1 ++ l2) = keysum tab l1 + keysum tab l2.
Proof. unfold keysum. induction l1 as [|t l1 IH]; simpl; lia. Qed.

Lemma keysum_cons tab t l : keysum tab (t :: l) = kk tab t + keysum tab l.
Proof. done. Qed.

Lemma keysum_ext tab tab' l : (forall t, t ∈ l -> kk tab' t = kk tab t) -> keysum tab' l = keysum tab l.
Proof. intros H. induction l as [|t l IH]; simpl; [done|]. rewrite H, IH by set_solver. done. Qed.

(** The table after the key of [t] was given to the thread behind it. *)
Definition pass_key (tab : gmap Z queent) (t : Z) (l2 : list Z) : gmap Z queent :=
  match l2 with
  | n :: _ => upd_key tab n (kk tab n + kk tab t)
  | [] => tab
  end.

Lemma pass_key_sleep tab tab' t l1 l2 :
  sleep_ok tab (l1 ++ t :: l2) -> NoDup (l1 ++ t :: l2) ->
  (forall i, i ∈ l1 ++ t :: l2 -> intab tab i) ->
  samekeys (pass_key tab t l2) tab' -> sleep_ok tab' (l1 ++ l2).
Proof.
  intros [Hf Hs] Hnd Hi Hk. apply (sleep_ok_ext (pass_key tab t l2)).
  { intros i _. apply (samekeys_kk _ _ _ Hk). }
  rewrite keysum_app, keysum_cons in Hs. apply Forall_app in Hf as [Hf1 Hf2].
  inversion_clear Hf2 as [|? ? Ht Hf3]. unfold pass_key. destruct l2 as [|n l2].
  - split; [by rewrite app_nil_r|]. rewrite app_nil_r. change (keysum tab []) with 0 in Hs. lia.
  - assert (Hn : forall i, i ∈ l1 \/ i ∈ l2 -> i <> n).
    { rewrite NoDup_app in Hnd. destruct Hnd as (_ & Hd & Hnd). rewrite !NoDup_cons in Hnd.
      intros i [Hin|Hin] ->; [apply (Hd n Hin); set_solver|naive_solver]. }
    assert (Hkn : kk (upd_key tab n (kk tab n + kk tab t)) n = kk tab n + kk tab t).
    { rewrite kk_upd_key, decide_True; [done..|]. apply Hi. set_solver. }
    inversion_clear Hf3 as [|? ? Hn0 Hf4]. split.
    + rewrite Forall_app, Forall_cons, Hkn. split_and!; [|lia|].
      * rewrite Forall_forall in Hf1 |- *. intros i Hi1. rewrite kk_upd_key_ne; [by apply Hf1|].
        intros <-. by apply (Hn n); [left|].
      * rewrite Forall_forall in Hf4 |- *. intros i Hi1. rewrite kk_upd_key_ne; [by apply Hf4|].
        intros <-. by apply (Hn n); [right|].
    + rewrite keysum_app, keysum_cons, Hkn, (keysum_ext tab _ l1), (keysum_ext tab _ l2).
      * rewrite keysum_cons in Hs. lia.
      * intros i Hi1. apply kk_upd_key_ne. intros <-. by apply (Hn n); [right|].
      * intros i Hi1. apply kk_upd_key_ne. intros <-. by apply (Hn n); [left|].
Qed.

End states.

Section unsleep.
Implicit Types (k : kernel) (qs : gmap Z (list Z)).

(** Threads on the sleep queue are asleep. *)
Lemma on_sleep x k qs l t : Kpl x k qs -> qs !! sleepq k = Some l -> t ∈ l ->
  exists e, thrtab k !! t = Some e /\ asleep (tstate e).
Proof.
  intros H El Ht. destruct (pl_in _ _ _ _ _ _ _ H _ _ t El Ht) as (_ & e & Et & Hh).
  exists e. split; [done|]. unfold home in Hh. destruct (tstate e); try done; try (by left); try (by right).
  - injection Hh as Hh. by destruct (pl_ne _ _ _ _ _ _ _ H).
  - destruct (semtab k !! tsem e) as [es|] eqn:Es; simpl in Hh; injection Hh as Hh;
      [|by destruct (queue_id _ _ _ _ _ H El)].
    by destruct (Kpl_sq_sems _ _ _ _ _ H Es).
Qed.

(** A thread leaves the sleep queue through a table [tab'] with the same
    queues, in which the keys of the other queues are kept. *)
Lemma sleep_moved k qs l1 t l2 tab' :
  Kpl None k qs -> qs !! sleepq k = Some (l1 ++ t :: l2) ->
  qs_rep tab' (<[sleepq k := l1 ++ l2]> qs) ->
  (forall i, i ∉ l1 ++ t :: l2 -> kk tab' i = kk (quetab k) i) -> sleep_ok tab' (l1 ++ l2) ->
  Kpl (Some t) (set_quetab tab' k) (<[sleepq k := l1 ++ l2]> qs).
Proof.
  intros H El Hrep Hk Hs. pose proof (queue_nodup _ _ _ _ _ H El) as Hnd.
  eapply (placed_take _ _ _ _ (l1 ++ t :: l2)); [exact H| |set_solver|].
  - split; try done.
    + clear. set_solver.
    + intros i Hi. apply Hk. set_solver.
    + apply sems_upd_refl. intros s es. by apply (Kpl_sq_sems _ _ _ _ _ H).
    + intros Heq. by destruct (pl_ne _ _ _ _ _ _ _ H).
  - apply NoDup_app in Hnd as (_ & Hn1 & Hn2). apply NoDup_cons in Hn2 as [Hn2 _].
    rewrite elem_of_app. intros [?|?]; [|done]. by apply (Hn1 t); [|left].
Qed.

Lemma kwp_unsleep {G R} (Q : Z -> kernel -> kernel -> Prop) k0 k qs t e :
  Kpl None k qs -> thrtab k !! t = Some e -> asleep (tstate e) ->
  (forall tab' l1 l2, let k' := set_quetab tab'
       (set_irq (vic_set_irqmask (mask k) (vic_disable_interrupts (irq k))) k) in
     qs !! sleepq k = Some (l1 ++ t :: l2) -> Kpl (Some t) k' (<[sleepq k := l1 ++ l2]> qs) ->
     (forall i, i ∉ l1 ++ t :: l2 -> kk tab' i = kk (quetab k) i) -> Q OK k0 k') ->
  kwp G R Q (unsleep t) k0 k.
Proof.
  intros HP E Hst HQ. pose proof (Kpl_valid _ _ _ _ _ HP E) as Hv.
  destruct (pl_out _ _ _ _ _ _ _ HP t e (sleepq k) E) as (l & El & Hin);
    [done|unfold home; by destruct Hst as [-> | ->]|].
  apply list_elem_of_split in Hin as (l1 & l2 & ->).
  pose proof (pl_rep _ _ _ _ _ _ _ HP) as Hrep. pose proof (qs_each _ _ Hrep _ _ El) as Hqr.
  destruct (Kpl_sq _ _ _ HP) as (l0 & El0 & Hok). rewrite El in El0. injection El0 as <-.
  assert (Hin : forall i, i ∈ l1 ++ t :: l2 -> valid_tid i).
  { intros i Hi. by eapply (qs_valid _ _ _ _ _ Hrep El). }
  unfold unsleep. kstep. kstep. set (k1 := set_irq _ k).
  rewrite (isbadtid_false k1 t e); [|done|done|by destruct Hst as [-> | ->]].
  kstep. rewrite decide_False by (destruct Hst as [-> | ->]; tauto).
  destruct (qrep_at (isbadtid k) _ _ _ _ _ Hqr) as (et & Et & Hnx & Hkt).
  eapply kwp_qread; [exact Et|]. cbv beta.
  assert (Hstep : qs_rep (pass_key (quetab k) t l2) qs).
  { unfold pass_key. destruct l2 as [|n l2]; [done|]. apply qs_upd_key; [|done].
    assert (valid_tid n) as [_ ?] by (apply Hin; set_solver). done. }
  destruct (qs_getitem _ _ _ _ _ _ Hstep El) as (tab' & Eg & Hrep' & Hk).
  assert (Hkeys : forall i, i ∉ l1 ++ t :: l2 -> kk tab' i = kk (quetab k) i).
  { intros i Hi. rewrite (samekeys_kk _ _ _ Hk). unfold pass_key. destruct l2 as [|n l2]; [done|].
    apply kk_upd_key_ne. set_solver. }
  assert (Hfin : kwp G R Q (k_getitem t;; k_restore (mask k);; mret OK) k0
                   (set_quetab (pass_key (quetab k) t l2) k1)).
  { eapply kwp_qcall; [exact Eg|]. kstep. kstep. eapply (HQ tab' l1 l2); [done| |done].
    eapply (sleep_moved k); [done..|]. eapply pass_key_sleep; [exact Hok| | |exact Hk].
    - by apply (queue_nodup _ _ _ _ _ HP El).
    - intros i Hi. by eapply qs_intab; [exact Hrep|apply Hin]. }
  apply kwp_bind. destruct l2 as [|n l2]; simpl in Hnx; rewrite Hnx.
  - destruct (Z.ltb_spec (quetail (sleepq k)) NTHREAD) as [Hlt|_].
    { pose proof (qr_qid _ _ _ Hqr). unfold quetail in *. lia. }
    kstep. replace (set_quetab (pass_key (quetab k) t []) k1) with k1 in Hfin by (by destruct k). exact Hfin.
  - assert (Hvn : valid_tid n) by (apply Hin; set_solver).
    destruct (Z.ltb_spec n NTHREAD) as [_|Hge]; [|unfold valid_tid in *; lia].
    destruct (qs_intab _ _ n Hrep Hvn) as [en En].
    assert (Hkn : qkey en = kk (quetab k) n) by (unfold kk, keyof; by rewrite En).
    eapply kwp_qcall_end; [|exact Hfin]. simpl. rewrite En. simpl.
    rewrite set_key_eq by (by exists en). simpl. rewrite Hkn, Hkt, i32_id; [done|].
    destruct Hok as [Hf Hs]. rewrite keysum_app, !keysum_cons in Hs. apply Forall_app in Hf as [Hf1 Hf2].
    rewrite !Forall_cons in Hf2. destruct Hf2 as (? & ? & Hf3).
    pose proof (keysum_nonneg _ _ Hf1). pose proof (keysum_nonneg _ _ Hf3). unfold is_i32. lia.
Qed.

End unsleep.

(** ** [sleep] *)

Section sleep.
Implicit Types (k : kernel) (qs : gmap Z (list Z)).

Lemma ticks_range ms : 0 <= i32 (u32 (ms * CLKTICKS_PER_SEC) / 1000) < 2 ^ 31.
Proof.
  pose proof (u32_range (ms * CLKTICKS_PER_SEC)) as Hu. unfold is_u32 in Hu.
  set (u := u32 _) in *. pose proof (Z.div_pos u 1000 ltac:(lia) ltac:(lia)).
  pose proof (Z.div_lt_upper_bound u 1000 (2 ^ 31) ltac:(lia) ltac:(lia)).
  rewrite i32_id; unfold is_i32; lia.
Qed.

Lemma sleep_safe k ms : KInv k -> thrcurrent k <> NULLTHREAD -> safe_call (sleep ms) k.
Proof.
  intros [qs HI] Hn. pose proof (ki_ctl _ _ HI) as [_ Hv]. pose proof (ticks_range ms) as Ht.
  destruct (ki_curr _ _ HI) as (ec & Ec & Hec).
  unfold safe_call, sleep. cbv zeta. set (ticks := i32 _) in *. clearbody ticks. kstep. kstep.
  set (k1 := set_irq _ k). assert (HI1 : KInvq k1 qs) by (by apply KInvq_irq). kstep.
  destruct (Z.ltb_spec 0 ticks).
  - destruct (sleep_block k1 qs THRSLEEP ec ticks HI1 Ec) as (tab' & l & l' & Ei & _ & _ & HK);
      [by left|done|done|].
    kstep. eapply kwp_qcall; [exact Ei|]. cbv beta iota. change (OK =? SYSERR) with false. cbv iota.
    eapply kwp_upd_thr; [exact Ec|]. kstep.
    eapply (kwp_resched_exit _ _ _ _ _ (set_state THRSLEEP ec) _ (irq k));
      [done|exact HK|done| |apply lookup_insert_eq|done|done| |by eauto..].
    + eapply (others_upd _ _ k); [by apply others_eq|exact Ec|done|done].
    + intros k2 qs2 HI2 _ _ Ho2. split; [by exists qs2|done].
  - kstep. eapply (kwp_resched_exit _ _ _ _ qs ec _ (irq k));
      [done|by apply KInvq_pre|done|by apply others_eq|exact Ec|done|done| |by eauto..].
    intros k2 qs2 HI2 _ _ Ho2. split; [by exists qs2|done].
Qed.

End sleep.

(** ** The clock tick *)

(** [wokenup k qs lw lr k' qs']: the threads [lw] at the front of the sleep queue
    became ready, [lr] stay on it. *)
Record wokenup (k : kernel) (qs : gmap Z (list Z)) (lw lr : list Z) (k' : kernel)
    (qs' : gmap Z (list Z)) : Prop := {
  wu_steady : exists tab' thr', k' = set_quetab tab' (set_thrtab thr' k);
  wu_placed : Kpl None k' qs';
  wu_sleep : qs' !! sleepq k = Some lr;
  wu_other : forall q, q <> readylist k -> q <> sleepq k -> qs' !! q = qs !! q;
  wu_keys : forall i, i ∉ lw -> kk (quetab k') i = kk (quetab k) i;
  wu_same : forall t, t ∉ lw -> thrtab k' !! t = thrtab k !! t;
  wu_woken : forall t, t ∈ lw -> exists e, thrtab k !! t = Some e /\ asleep (tstate e)
    /\ thrtab k' !! t = Some (set_state THRREADY e);
}.

Lemma wokenup_nil k qs l : Kpl None k qs -> qs !! sleepq k = Some l -> wokenup k qs [] l k qs.
Proof.
  intros HP El. split; try done.
  - exists (quetab k), (thrtab k). by destruct k.
  - intros t Ht. set_solver.
Qed.

Lemma wokenup_trans k qs lw1 lr1 k1 qs1 lw2 lr2 k2 qs2 :
  wokenup k qs lw1 lr1 k1 qs1 -> wokenup k1 qs1 lw2 lr2 k2 qs2 ->
  (forall t, t ∈ lw2 -> t ∉ lw1) -> wokenup k qs (lw1 ++ lw2) lr2 k2 qs2.
Proof.
  intros [(tab1 & thr1 & E1) A2 A3 A4 A5 A6 A7] [(tab2 & thr2 & E2) B2 B3 B4 B5 B6 B7] Hd.
  subst k1. simpl in *. split.
  - exists tab2, thr2. by rewrite E2.
  - done.
  - done.
  - intros q N1 N2. rewrite B4 by done. auto.
  - intros i Hi. rewrite B5, A5; [done|set_solver..].
  - intros i Hi. rewrite B6, A6; [done|set_solver..].
  - intros t. rewrite elem_of_app. intros [Ht|Ht].
    + destruct (A7 _ Ht) as (e & E & Hs & E'). exists e. split_and!; [done..|].
      rewrite B6; [done|]. intros H2. by apply (Hd t).
    + destruct (B7 _ Ht) as (e & E & Hs & E'). exists e.
      rewrite A6 in E by (by apply Hd). done.
Qed.

Section tick.
Context {G R : kernel -> kernel -> Prop}.
Implicit Types (k : kernel) (qs : gmap Z (list Z)).

(** The first sleeper, with a key that need not be the one of the table,
    becomes ready. *)
Lemma kwp_wake_first {A} (Q : A -> kernel -> kernel -> Prop) p k0 k qs t l v :
  Kpl None k qs -> qs !! sleepq k = Some (t :: l) ->
  (forall k2 qs2, wokenup k qs [t] l k2 qs2 -> kwp G R Q p k0 k2) ->
  kwp G R Q (t ← k_dequeue (sleepq k); ready t RESCHED_NO;; p) k0
    (set_quetab (upd_key (quetab k) t v) k).
Proof.
  intros HP El Hcont. pose proof (pl_rep _ _ _ _ _ _ _ HP) as Hrep.
  pose proof (qs_valid _ _ _ _ t Hrep El ltac:(set_solver)) as Hvt.
  destruct (on_sleep _ _ _ _ t HP El) as (et & Et & Hst); [set_solver|].
  set (k1 := set_quetab (upd_key (quetab k) t v) k).
  assert (Hrep1 : qs_rep (quetab k1) qs) by (apply qs_upd_key; [by destruct Hvt|done]).
  destruct (qs_dequeue (isbadtid k1) _ _ _ _ _ Hrep1 El) as (tab' & Ed & Hrep' & Hk).
  assert (Hkeys : forall i, i <> t -> kk tab' i = kk (quetab k) i).
  { intros i Hi. rewrite (samekeys_kk _ _ _ Hk). by apply kk_upd_key_ne. }
  pose proof (queue_nodup _ _ _ _ _ HP El) as Hnd. apply NoDup_cons in Hnd as [Hnd _].
  destruct (Kpl_sq _ _ _ HP) as (l0 & El0 & Hok). rewrite El in El0. injection El0 as <-.
  assert (HK : Kpl (Some t) (set_quetab tab' k) (<[sleepq k := l]> qs)).
  { eapply (sleep_moved k _ [] t l); [done..| |].
    - intros i Hi. apply Hkeys. set_solver.
    - apply (sleep_ok_ext (quetab k)); [intros i Hi; apply Hkeys; set_solver|].
      destruct Hok as [Hf Hs]. rewrite keysum_cons in Hs. inversion_clear Hf. split; [done|]. simpl. lia. }
  eapply kwp_qcall; [exact Ed|]. apply kwp_bind. destruct (Kpl_rl _ _ _ HK) as [lr Elr].
  eapply (kwp_ready _ _ (set_quetab tab' k) _ lr t et RESCHED_NO HK Et);
    [by destruct Hst as [-> | ->]|done|].
  intros k2 tab2 -> HK2 Hkk. unfold RESCHED_NO. eapply Hcont. split.
  - exists tab2, (<[t := set_state THRREADY et]> (thrtab k)). done.
  - exact HK2.
  - simpl. rewrite lookup_insert_ne, lookup_insert_eq; [done|]. by apply (pl_ne _ _ _ _ _ _ _ HP).
  - intros q N1 N2. simpl. by rewrite !lookup_insert_ne.
  - intros i Hi. simpl. rewrite Hkk. rewrite decide_False by set_solver. simpl. apply Hkeys. set_solver.
  - intros i Hi. simpl. rewrite lookup_insert_ne; [done|]. set_solver.
  - intros i ->%list_elem_of_singleton. exists et. split_and!; [done..|]. apply lookup_insert_eq.
Qed.

(** The loop of [wakeup]: the sleepers whose time has come leave the queue. *)
Lemma kwp_wakeup_loop (Q : unit -> kernel -> kernel -> Prop) k0 fuel :
  forall k qs l, Kpl None k qs -> qs !! sleepq k = Some l -> (length l < fuel)%nat ->
  (forall lw lr k' qs', l = lw ++ lr -> wokenup k qs lw lr k' qs' ->
     Forall (fun t => kk (quetab k) t = 0) lw ->
     match lr with t :: _ => 0 < kk (quetab k) t | [] => True end -> Q tt k0 k') ->
  kwp G R Q (wakeup_loop fuel (sleepq k)) k0 k.
Proof.
  induction fuel as [|fuel IH]; intros k qs l HP El Hf HQ; [lia|]. cbn [wakeup_loop].
  pose proof (pl_rep _ _ _ _ _ _ _ HP) as Hrep.
  eapply kwp_qread; [exact (qs_nonempty _ _ _ _ Hrep El)|].
  destruct l as [|t l]; cbv iota.
  { kstep. by apply (HQ [] [] k qs); [|apply wokenup_nil|..]. }
  eapply kwp_qread; [eapply firstkey_spec, qs_each; [exact Hrep|exact El]|].
  destruct (Z.leb_spec (kk (quetab k) t) 0) as [Hle|Hgt].
  2: { kstep. by apply (HQ [] (t :: l) k qs); [|apply wokenup_nil|..]. }
  assert (Hz : kk (quetab k) t = 0).
  { destruct (Kpl_sq _ _ _ HP) as (l0 & El0 & Hok & _). rewrite El in El0. injection El0 as <-.
    inversion_clear Hok. lia. }
  destruct (qs_intab _ _ t Hrep) as [et Et]; [by eapply (qs_valid _ _ _ _ t Hrep El); left|].
  assert (Hsame : set_quetab (upd_key (quetab k) t (qkey et)) k = k)
    by (rewrite upd_key_same by done; by destruct k).
  rewrite <- Hsame at 2. eapply (kwp_wake_first _ _ _ k qs t l); [done..|].
  intros k2 qs2 Hw. pose proof Hw as [(tab2 & thr2 & E2) A2 A3 A4 A5 A6 A7]. simpl in Hf.
  assert (Hsq : sleepq k = sleepq k2) by (by rewrite E2). rewrite Hsq.
  pose proof (queue_nodup _ _ _ _ _ HP El) as Hnd. apply NoDup_cons in Hnd as [Hnd _].
  eapply (IH k2 qs2 l); [done|by rewrite <- Hsq|lia|].
  intros lw lr k3 qs3 -> Hw3 Hzero Hhd.
  assert (Hkeep : forall i, i ∈ lw ++ lr -> kk (quetab k2) i = kk (quetab k) i).
  { intros i Hi. apply A5. intros ->%list_elem_of_singleton. done. }
  eapply (HQ (t :: lw) lr k3 qs3); [done| | |].
  - apply (wokenup_trans _ _ [t] (lw ++ lr) k2 qs2 lw lr); [done|done|].
    intros i Hi ->%list_elem_of_singleton. apply Hnd. set_solver.
  - constructor; [done|]. rewrite Forall_forall in *. intros i Hi. rewrite <- Hkeep by set_solver. auto.
  - destruct lr as [|i lr]; [done|]. rewrite <- Hkeep by set_solver. done.
Qed.

End tick.

(** *** The tick on a delta queue *)

(** The entries at the front whose key has run out, and the rest. *)
Fixpoint expire (l : list (Z * Z)) : list Z * list (Z * Z) :=
  match l with
  | [] => ([], [])
  | (t, d) :: l' => if d <=? 0 then let '(w, r) := expire l' in (t :: w, r) else ([], l)
  end.

Definition tick_delta (l : list (Z * Z)) : list Z * list (Z * Z) :=
  match l with
  | [] => ([], [])
  | (t, d) :: l' =>
      if d - 1 <=? 0 then let '(w, r) := expire l' in (t :: w, r) else ([], (t, d - 1) :: l')
  end.

Lemma expire_wake now (l : list (Z * Z)) : Forall (fun p => 0 <= p.2) l ->
  wake now (expire l).2 = filter (fun p => now < p.2) (wake now l)
  /\ (expire l).1 = (filter (fun p => p.2 <= now) (wake now l)).*1.
Proof.
  assert (Hlate : forall now' (l' : list (Z * Z)), now < now' -> Forall (fun p => 0 <= p.2) l' ->
    filter (fun p => now < p.2) (wake now' l') = wake now' l'
    /\ filter (fun p => p.2 <= now) (wake now' l') = []).
  { intros now' l' Hn Hf. revert now' Hn.
    induction Hf as [|[t d] l' Hd Hf IH]; intros now' Hn; simpl in *; [done|].
    rewrite !filter_cons. simpl. rewrite decide_True, decide_False by lia.
    destruct (IH (now' + d) ltac:(lia)) as [-> ->]. done. }
  intros Hf. induction Hf as [|[t d] l Hd Hf IH]; simpl in *; [done|].
  destruct (Z.leb_spec d 0).
  - assert (d = 0) as -> by lia. rewrite Z.add_0_r. destruct (expire l) as [w r]. simpl in *.
    destruct IH as [IH1 IH2]. rewrite !filter_cons. simpl. rewrite decide_False, decide_True by lia.
    rewrite IH1, IH2. done.
  - simpl. rewrite !filter_cons. simpl. rewrite decide_True, decide_False by lia.
    destruct (Hlate (now + d) l ltac:(lia) Hf) as [-> ->]. done.
Qed.

(** A tick wakes exactly the threads whose time has come, provided the first
    key is positive. *)
Lemma tick_delta_wake now (l : list (Z * Z)) :
  Forall (fun p => 0 <= p.2) l -> match l with (_, d) :: _ => 1 <= d | [] => True end ->
  wake (now + 1) (tick_delta l).2 = filter (fun p => now + 1 < p.2) (wake now l)
  /\ (tick_delta l).1 = (filter (fun p => p.2 <= now + 1) (wake now l)).*1.
Proof.
  intros Hf Hd. destruct l as [|[t d] l]; [done|]. inversion_clear Hf as [|? ? H1 H2].
  pose proof (expire_wake (now + 1) ((t, d - 1) :: l)) as He. simpl in *.
  rewrite <- (Z.add_assoc now 1), (Z.add_comm 1), Z.sub_add in He.
  apply He. constructor; [simpl; lia|done].
Qed.

(** A first key of zero is taken for one: the threads behind it wake one interrupt late. *)
Definition late (l : list (Z * Z)) : Z := match l with (_, d) :: _ => if d =? 0 then 1 else 0 | [] => 0 end.
Definition delayed (n : Z) (p : Z * Z) : Z * Z := (p.1, p.2 + n).

Lemma wake_shift now n (l : list (Z * Z)) : wake (now + n) l = delayed n <$> wake now l.
Proof.
  revert now. induction l as [|[t d] l IH]; intros now; [done|]. cbn [wake fmap list_fmap]. unfold delayed at 1. simpl.
  rewrite <- IH. f_equal; [f_equal; lia|]. f_equal. lia.
Qed.

Lemma delayed_0 (l : list (Z * Z)) : delayed 0 <$> l = l.
Proof. induction l as [|[t d] l IH]; [done|]. cbn [fmap list_fmap]. unfold delayed at 1. simpl. by rewrite Z.add_0_r, IH. Qed.

(** What a tick does, whatever the first key. *)
Lemma tick_delta_exact now (l : list (Z * Z)) : Forall (fun p => 0 <= p.2) l ->
  wake (now + 1) (tick_delta l).2 = delayed (late l) <$> filter (fun p => now + 1 - late l < p.2) (wake now l)
  /\ (tick_delta l).1 = (filter (fun p => p.2 <= now + 1 - late l) (wake now l)).*1.
Proof.
  intros Hf. destruct l as [|[t d] l]; [done|]. pose proof (Forall_inv Hf) as Hd. simpl in Hd.
  unfold late. destruct (Z.eqb_spec d 0) as [->|Hne].
  - replace (now + 1 - 1) with now by lia. destruct (expire_wake now ((t, 0) :: l) Hf) as [<- <-].
    cbn [expire tick_delta]. change (0 - 1 <=? 0) with true. change (0 <=? 0) with true. cbv iota.
    destruct (expire l) as [w r]. split; [|done]. cbn [snd]. apply wake_shift.
  - rewrite Z.sub_0_r, delayed_0. apply tick_delta_wake; [done|]. simpl. lia.
Qed.

Lemma expire_split tab lw lr :
  Forall (fun t => kk tab t = 0) lw -> match lr with t :: _ => 0 < kk tab t | [] => True end ->
  expire (delta tab (lw ++ lr)) = (lw, delta tab lr).
Proof.
  induction 1 as [|t lw Ht Hf IH]; intros Hr; simpl.
  - destruct lr as [|t lr]; simpl; [done|]. destruct (Z.leb_spec (kk tab t) 0); [lia|done].
  - rewrite Ht. simpl. by rewrite IH.
Qed.

(** The kernel after the tick, before rescheduling. *)
Record ticked (k : kernel) (qs : gmap Z (list Z)) (k1 : kernel) (qs1 : gmap Z (list Z)) : Prop := {
  tk_sleep : exists l lw lr, qs !! sleepq k = Some l /\ qs1 !! sleepq k = Some lr
    /\ tick_delta (delta (quetab k) l) = (lw, delta (quetab k1) lr)
    /\ (forall t, t ∈ lw -> exists e, thrtab k !! t = Some e /\ asleep (tstate e)
         /\ thrtab k1 !! t = Some (set_state THRREADY e))
    /\ (forall t, t ∉ lw -> thrtab k1 !! t = thrtab k !! t);
  tk_other : forall q, q <> readylist k -> q <> sleepq k -> qs1 !! q = qs !! q;
  tk_current : thrcurrent k1 = thrcurrent k;
  tk_sems : semtab k1 = semtab k;
  tk_rl : readylist k1 = readylist k;
  tk_sq : sleepq k1 = sleepq k;
}.

Section handler.
Context {G R : kernel -> kernel -> Prop}.
Implicit Types (k : kernel) (qs : gmap Z (list Z)).

(** The first key of the sleep queue counts down. *)
Lemma Kpl_countdown k qs t l :
  Kpl None k qs -> qs !! sleepq k = Some (t :: l) -> 1 < kk (quetab k) t ->
  Kpl None (set_quetab (upd_key (quetab k) t (kk (quetab k) t - 1)) k) qs.
Proof.
  intros H El Hk. pose proof (pl_rep _ _ _ _ _ _ _ H) as Hrep.
  pose proof (qs_valid _ _ _ _ t Hrep El ltac:(set_solver)) as Hv.
  pose proof (qs_intab _ _ _ Hrep Hv) as Hi. pose proof (queue_nodup _ _ _ _ _ H El) as Hnd.
  apply NoDup_cons in Hnd as [Hnd _]. destruct Hv as [Hv1 Hv2].
  pose proof (qs_upd_key _ _ t (kk (quetab k) t - 1) Hv2 Hrep) as Hrep'.
  pose proof (pl_ne _ _ _ _ _ _ _ H) as Hne.
  destruct H as [H1 H2 H3 H4 H5 H6 H7 H8 H9 H10 H11 H12]. split; try done.
  - destruct H4 as (lr & Er & Hd). exists lr. split; [done|]. eapply descending_ext; [|done].
    intros u Hu. simpl. apply kk_upd_key_ne. intros <-. apply Hne.
    eapply (qs_disj _ _ Hrep _ _ _ _ t Er El); [done|set_solver].
  - exists (t :: l). split; [done|]. destruct H5 as (l0 & El0 & [Hf Hs]). rewrite El in El0.
    injection El0 as <-. rewrite keysum_cons in Hs. inversion_clear Hf as [|? ? Ht Hf'].
    assert (Hl : forall u, u ∈ l -> kk (upd_key (quetab k) t (kk (quetab k) t - 1)) u = kk (quetab k) u).
    { intros u Hu. apply kk_upd_key_ne. congruence. }
    split; simpl quetab.
    + constructor; [rewrite kk_upd_key, decide_True by done; lia|].
      rewrite Forall_forall in *. intros u Hu. rewrite Hl by done. auto.
    + rewrite keysum_cons, kk_upd_key, decide_True, (keysum_ext (quetab k)) by done. lia.
Qed.

(** The part of [clkhandler] that looks at the sleep queue. *)
Lemma kwp_tick (Q : unit -> kernel -> kernel -> Prop) k0 k qs :
  Kpl None k qs ->
  (forall k1 qs1, ticked k qs k1 qs1 -> Kpl None k1 qs1 ->
     (exists tab' thr', k1 = set_quetab tab' (set_thrtab thr' k)) -> Q tt k0 k1) ->
  kwp G R Q (tick_sleepq (sleepq k)) k0 k.
Proof.
  intros HP HQ. pose proof (pl_rep _ _ _ _ _ _ _ HP) as Hrep.
  destruct (Kpl_sq _ _ _ HP) as (l & El & Hok).
  assert (Hself : exists tab' thr', k = set_quetab tab' (set_thrtab thr' k))
    by (exists (quetab k), (thrtab k); by destruct k).
  unfold tick_sleepq.
  eapply kwp_qread; [exact (qs_nonempty _ _ _ _ Hrep El)|]. destruct l as [|t l]; cbv iota.
  { kstep. apply (HQ k qs); [|done|done]. split; try done. exists [], [], [].
    split_and!; try done. intros t Ht. set_solver. }
  pose proof (qs_each _ _ Hrep _ _ El) as Hqr. destruct (qrep_head _ _ _ Hqr) as (eh & Eh & Hh).
  simpl in Hh. destruct (qs_intab _ _ t Hrep) as [et Et]; [by eapply (qs_valid _ _ _ _ t Hrep El); left|].
  assert (Hkt : qkey et = kk (quetab k) t) by (unfold kk, keyof; by rewrite Et).
  pose proof (sleep_delta_ok _ _ Hok) as Hd. inversion_clear Hd as [|? ? Hdt _].
  assert (Hi : i32 (qkey et - 1) = kk (quetab k) t - 1) by (rewrite Hkt; apply i32_id; unfold is_i32; lia).
  set (v := kk (quetab k) t - 1) in *. set (k1 := set_quetab (upd_key (quetab k) t v) k).
  eapply kwp_qcall.
  { unfold quehead. rewrite Eh. simpl. rewrite Hh, Et. simpl.
    rewrite set_key_eq by (by exists et). simpl. rewrite Hi. reflexivity. }
  fold k1. destruct (Z.leb_spec v 0) as [Hle|Hgt].
  - unfold wakeup. kstep. change (sleepq k1) with (sleepq k). cbn [wakeup_loop].
    assert (Hrep1 : qs_rep (quetab k1) qs).
    { apply qs_upd_key; [|done]. by eapply (qs_valid _ _ _ _ t Hrep El); left. }
    eapply kwp_qread; [exact (qs_nonempty _ _ _ _ Hrep1 El)|]. cbv iota.
    eapply kwp_qread; [eapply firstkey_spec, qs_each; [exact Hrep1|exact El]|].
    assert (Hkv : kk (quetab k1) t = v) by (unfold k1; simpl; rewrite kk_upd_key, decide_True; done || by exists et).
    rewrite Hkv. destruct (Z.leb_spec v 0); [|lia].
    eapply (kwp_wake_first _ _ _ k qs t l); [done..|]. intros k2 qs2 Hw.
    pose proof Hw as [(tab2 & thr2 & E2) A2 A3 A4 A5 A6 A7].
    assert (Hsq : sleepq k = sleepq k2) by (by rewrite E2). rewrite Hsq.
    pose proof (queue_nodup _ _ _ _ _ HP El) as Hnd0. apply NoDup_cons in Hnd0 as [Hnd Hnd'].
    eapply (kwp_wakeup_loop _ _ _ k2 qs2 l); [done|by rewrite <- Hsq| |].
    { exact (NoDup_range_length (t :: l) NTHREAD (queue_nodup _ _ _ _ _ HP El) (qr_range _ _ _ Hqr)). }
    intros lw lr k3 qs3 -> Hw3 Hzero Hhd.
    assert (Hall : wokenup k qs (t :: lw) lr k3 qs3).
    { apply (wokenup_trans _ _ [t] (lw ++ lr) k2 qs2 lw lr); [done|done|].
      intros i Hi' ->%list_elem_of_singleton. apply Hnd. set_solver. }
    destruct Hall as [C1 C2 C3 C4 C5 C6 C7]. apply (HQ k3 qs3); [|done|done].
    assert (Hkeep : forall i, i ∈ lw ++ lr -> kk (quetab k2) i = kk (quetab k) i).
    { intros i Hi'. apply A5. intros ->%list_elem_of_singleton. done. }
    split; [|done|by destruct C1 as (? & ? & ->)..].
    exists (t :: lw ++ lr), (t :: lw), lr. split_and!; try done.
    simpl. fold v. destruct (Z.leb_spec v 0); [|lia].
    assert (Hex : expire (delta (quetab k) (lw ++ lr)) = (lw, delta (quetab k) lr)).
    { apply expire_split.
      - rewrite Forall_forall in *. intros i Hi'. rewrite <- Hkeep by set_solver. auto.
      - destruct lr as [|i lr]; [done|]. rewrite <- Hkeep by set_solver. done. }
    unfold delta in Hex |- *. rewrite Hex. f_equal. apply list_fmap_ext. intros j i Hj. f_equal.
    symmetry. apply C5. apply list_elem_of_lookup_2 in Hj.
    intros Hin. apply elem_of_cons in Hin as [->|Hin]; [apply Hnd; set_solver|].
    apply NoDup_app in Hnd' as (_ & Hdis & _). by apply (Hdis i).
  - kstep. apply (HQ k1 qs); [|by apply (Kpl_countdown k qs t l); [..|lia]|].
    + split; try done. exists (t :: l), [], (t :: l). split_and!; try done.
      * simpl. fold v. destruct (Z.leb_spec v 0); [lia|]. rewrite kk_upd_key, decide_True by (done || by exists et).
        do 2 f_equal. apply list_fmap_ext. intros j i Hj. f_equal. symmetry. apply kk_upd_key_ne.
        pose proof (queue_nodup _ _ _ _ _ HP El) as Hnd. apply NoDup_cons in Hnd as [Hnd _].
        intros ->. apply Hnd. by eapply list_elem_of_lookup_2.
      * intros i Hin. set_solver.
    + exists (upd_key (quetab k) t v), (thrtab k). by destruct k.
Qed.

(** The tick leaves the current thread running. *)
Lemma ticked_inv k qs k1 qs1 : KInvq k qs -> ticked k qs k1 qs1 -> Kpl None k1 qs1 ->
  (exists tab' thr', k1 = set_quetab tab' (set_thrtab thr' k)) ->
  KInvq k1 qs1 /\ others (thrcurrent k) k k1
  /\ thrtab k1 !! thrcurrent k = thrtab k !! thrcurrent k.
Proof.
  intros HI [(l & lw & lr & _ & _ & _ & Hwok & Hsame) _ Hc _ _ _] HK (tab' & thr' & ->).
  destruct (ki_curr _ _ HI) as (ec & Ec & Hec).
  assert (Hcur : thr' !! thrcurrent k = thrtab k !! thrcurrent k).
  { apply Hsame. intros Hin. destruct (Hwok _ Hin) as (e & E & Hs & _).
    rewrite Ec in E. injection E as <-. destruct Hs; congruence. }
  split_and!; [| |exact Hcur].
  - split; [done| | |apply (ki_ctl _ _ HI)].
    + exists ec. simpl. by rewrite Hcur.
    + intros u eu Eu Hst. simpl in *. destruct (decide (u ∈ lw)) as [Hin|Hin].
      * destruct (Hwok _ Hin) as (e & E & Hs & E'). rewrite Eu in E'. by simplify_eq.
      * rewrite Hsame in Eu by done. by eapply (ki_only _ _ HI).
  - split_and!; [| | |done].
    + intros u e Hne E. simpl in *. destruct (decide (u ∈ lw)) as [Hin|Hin].
      * destruct (Hwok _ Hin) as (e0 & E0 & Hs & E'). rewrite E in E0. injection E0 as <-.
        exists (set_state THRREADY e). split; [done|].
        split; simpl; try done; by destruct Hs as [-> | ->].
      * exists e. by rewrite Hsame.
    + intros u Hu. simpl in *. destruct (decide (u ∈ lw)) as [Hin|Hin].
      * destruct (Hwok _ Hin) as (e0 & E0 & _). eauto.
      * by rewrite Hsame in Hu.
    + intros e e' E E'. simpl in E'. rewrite Hcur in E'. split; congruence.
Qed.

Lemma kwp_clkhandler clkfreq c (Q : unit -> kernel -> kernel -> Prop) k qs :
  (forall s s', R s s' -> Rl c s s') -> KInvq k qs -> thrcurrent k = c -> tm_started (tim k) = true ->
  (forall k1 qs1 k' qs', ticked k qs k1 qs1 -> KInvq k' qs' -> switched c k1 qs1 k' qs' ->
     thrcurrent k' <> c -> others c k k' -> G k k') ->
  (forall k1 qs1 k' qs', ticked k qs k1 qs1 -> sysret c (mask k) k k' qs' ->
     switched c k1 qs1 k' qs' -> Q tt k k') ->
  (forall k0' k' qs', (exists s, R s k0') -> sysret c (mask k) k0' k' qs' -> Q tt k0' k') ->
  kwp G R Q (clkhandler clkfreq) k k.
Proof.
  intros HR HI Hc Hst HG HQ1 HQ2. unfold clkhandler. apply kwp_bind. unfold clkupdate.
  kstep. rewrite Hst. kstep. kstep. kstep.
  match goal with |- kwp _ _ _ _ _ ?s => set (k1 := s) end.
  assert (Hk1 : exists ticks time, k1 = set_clock ticks time k).
  { unfold k1. destruct (_ <=? _); [|by eauto]. by eexists _, _. }
  clearbody k1. destruct Hk1 as (ticks & time & ->). kstep. simpl sleepq.
  assert (HI1 : KInvq (set_clock ticks time k) qs) by (destruct HI as [H1 H2 H3 H4]; by split).
  apply kwp_bind. eapply (kwp_tick _ _ (set_clock ticks time k) qs); [apply (ki_placed _ _ HI1)|].
  intros k2 qs2 Htk HK2 Hst2. destruct (ticked_inv _ _ _ _ HI1 Htk HK2 Hst2) as (HI2 & Ho2 & Hcur2).
  destruct Hst2 as (tab' & thr' & E2). kstep. apply kwp_bind.
  set (k3 := set_irq (vic_interrupt_handled (irq k2)) k2).
  assert (Htk' : ticked k qs k3 qs2) by (destruct Htk as [T1 T2 T3 T4 T5 T6]; by split).
  assert (HI3 : KInvq k3 qs2) by (apply KInvq_irq; [done|apply (ki_ctl _ _ HI2)]).
  destruct (ki_curr _ _ HI3) as (ec & Ec & _).
  assert (Hc3 : thrcurrent k3 = c) by (subst k2; done). rewrite Hc3 in Ec.
  assert (Hm3 : mask k3 = mask k) by (subst k2; done).
  eapply (kwp_resched _ _ _ _ qs2 ec); [done|done|by apply KInvq_pre| |exact Ec|..].
  - subst c. exact Ho2.
  - intros. eapply HG; eauto.
  - intros k' qs' e' HI' Hsw Hc' Hm' Ho' E' _. kstep. eapply HQ1; [done| |exact Hsw].
    split; [done|done|by rewrite Hm'|done].
  - intros k0' k' e' Hback _ [qs' HI'] Hc' Hm' Ho' E' _. kstep. eapply HQ2; [done|].
    split; [exact HI'|done|by rewrite Hm'|done].
Qed.

End handler.

Lemma clkhandler_safe clkfreq k : KInv k -> tm_started (tim k) = true ->
  safe_call (clkhandler clkfreq) k.
Proof.
  intros [qs HI] Hst. unfold safe_call. eapply (kwp_clkhandler _ _ _ k qs); eauto.
  intros k1 qs1 k' qs' _ HI' _ _ Ho. split; [by exists qs'|done].
Qed.
