(* ===== verification/MessageSpec.v ===== *)
(** * Messages keep the invariant and are not lost *)

From S2P Require Import Prelude Prog Queue QueueSpec QueueSys Interrupt Memory Kernel Thread Clock Message Placement Invariant Sched ThreadSpec ClockSpec.

(** Thread [t] holds the message [m]. *)
Definition holds_msg (k : kernel) (t m : Z) : Prop :=
  exists e, thrtab k !! t = Some e /\ thasmsg e = true /\ tmsg e = m.

Section send.
Context {G R : kernel -> kernel -> Prop}.
Implicit Types (k : kernel) (qs : gmap Z (list Z)).

Lemma switched_msg c k qs k' qs' t m : switched c k qs k' qs' -> holds_msg k t m -> holds_msg k' t m.
Proof.
  intros [_ _ _ _ S5 S6 S7 _] (e & E & H1 & H2). destruct (decide (t = c)) as [->|Hc].
  { destruct S7 as (e0 & e' & E0 & E' & _ & M1 & M2 & _). exists e'. simplify_eq. split_and!; congruence. }
  destruct (decide (t = thrcurrent k')) as [->|Hn].
  - destruct S6 as (e0 & E0 & E'). simplify_eq. exists (set_state THRCURR e0). by rewrite E'.
  - exists e. by rewrite S5.
Qed.

(** The tail of [send]: the receiver, in no queue, becomes ready. *)
Lemma kwp_send_ready c (Q : Z -> kernel -> kernel -> Prop) k0 k qs t e msg m v :
  (forall s s', R s s' -> Rl c s s') ->
  Kpl (Some t) k qs -> thrtab k !! t = Some e -> tstate e <> THRFREE -> holds_msg k t msg ->
  thrcurrent k = c -> only_curr k -> ctl k -> t <> c ->
  others c k0 (set_thrtab (<[t := set_state THRREADY e]> (thrtab k)) k) ->
  (exists ec, thrtab k !! c = Some ec) -> vic_ok v -> m = vic_get_irqmask v ->
  (forall k' qs', KInvq k' qs' -> holds_msg k' t msg -> runnable k' t -> others c k0 k' -> G k0 k') ->
  (forall k' qs', sysret c m k0 k' qs' -> holds_msg k' t msg -> runnable k' t -> Q OK k0 k') ->
  (forall k0' k' qs', (exists s, R s k0') -> sysret c m k0' k' qs' -> Q OK k0' k') ->
  kwp G R (fun _ => kwp G R Q (k_restore m;; mret OK)) (ready t RESCHED_YES;; mret tt) k0 k.
Proof.
  intros HR HK E Hf Hmsg Hc Hoc Hctl Hne Ho [ec Ec] Hv Hm HG HQ1 HQ2.
  destruct (Kpl_rl _ _ _ HK) as [l El]. apply kwp_bind.
  eapply (kwp_ready _ _ _ qs l t e RESCHED_YES HK E Hf El). intros k' tab' -> HK' _.
  set (k1 := set_quetab tab' _) in *.
  assert (HP : KPre k1 (<[readylist k := insert_desc (kk (quetab k)) (tprio e) t l]> qs)).
  { split; try done.
    - simpl. rewrite Hc. exact (Kpl_valid _ _ _ _ _ HK Ec).
    - intros u eu Eu Hst. simpl in *. rewrite lookup_insert in Eu.
      case_decide; [by simplify_eq|]. by eapply Hoc. }
  assert (Ec1 : thrtab k1 !! c = Some ec) by (simpl; by rewrite lookup_insert_ne).
  assert (Hm1 : holds_msg k1 t msg).
  { destruct Hmsg as (e0 & E0 & M1 & M2). simplify_eq. exists (set_state THRREADY e).
    split_and!; [apply lookup_insert_eq|done|done]. }
  eapply (kwp_resched _ _ _ _ _ ec); [done|done|exact HP|exact Ho|exact Ec1|..].
  - intros k' qs' HI' Hsw _ Ho'. eapply HG; [done|by eapply switched_msg| |done].
    by eapply (switched_runnable _ _ _ _ _ t _ Hsw); [|apply lookup_insert_eq|].
  - intros k' qs' e' HI' Hsw Hc' _ Ho' E' _. kstep.
    eapply (kwp_exit _ _ _ _ _ _ v); [exact HI'|done|done|done|done|]. intros k2 -> Hret.
    eapply HQ1; [done|exact (switched_msg _ _ _ _ _ _ _ Hsw Hm1)|].
    by eapply (switched_runnable _ _ _ _ _ t _ Hsw); [|apply lookup_insert_eq|].
  - intros k0' k' e' Hback _ [qs' HI'] Hc' _ Ho' E' _. kstep.
    eapply (kwp_exit _ _ _ _ _ _ v); [exact HI'|done|done|done|done|by eauto].
Qed.

Lemma kwp_send c (Q : Z -> kernel -> kernel -> Prop) k0 k qs tid msg e :
  (forall s s', R s s' -> Rl c s s') -> KInvq k qs -> thrcurrent k = c -> others c k0 k ->
  isbadtid k tid = false -> thrtab k !! tid = Some e -> thasmsg e = false ->
  (forall k' qs', KInvq k' qs' -> holds_msg k' tid msg ->
     (tstate e = THRRECV \/ tstate e = THRTMOUT -> runnable k' tid) -> others c k0 k' -> G k0 k') ->
  (forall k' qs', sysret c (mask k) k0 k' qs' -> holds_msg k' tid msg ->
     (tstate e = THRRECV \/ tstate e = THRTMOUT -> runnable k' tid) -> Q OK k0 k') ->
  (forall k0' k' qs', (exists s, R s k0') -> sysret c (mask k) k0' k' qs' -> Q OK k0' k') ->
  kwp G R Q (send tid msg) k0 k.
Proof.
  intros HR HI Hc Ho Hb E Hnm HG HQ1 HQ2. pose proof (ki_ctl _ _ HI) as [Hrd Hv].
  destruct (ki_curr _ _ HI) as (ec & Ec & Hec). rewrite Hc in Ec.
  assert (Hnf : tstate e <> THRFREE).
  { apply isbadtid_good in Hb as (e0 & E0 & ? & _); [by simplify_eq|].
    apply (pl_thr _ _ _ _ _ _ _ (ki_placed _ _ HI)). }
  unfold send. kstep. kstep. change (isbadtid _ tid) with (isbadtid k tid). rewrite Hb. kstep.
  rewrite decide_False by (rewrite Hnm; naive_solver). kstep. kstep. simpl thrtab. rewrite insert_insert_eq.
  set (e1 := set_hasmsg true (set_msg msg e)).
  set (k2 := set_thrtab _ _).
  assert (HI2 : KInvq k2 qs).
  { apply (KInvq_thr (set_irq (vic_disable_interrupts (irq k)) k) _ _ e); try done; [by apply KInvq_irq|].
    exact (Kpl_prio _ _ _ _ _ (ki_placed _ _ HI) E). }
  assert (E2 : thrtab k2 !! tid = Some e1) by apply lookup_insert_eq.
  assert (Hm2 : holds_msg k2 tid msg) by (by exists e1).
  assert (Ev : evolves e e1) by (split; simpl; try done; [by rewrite Hnm|by right]).
  assert (Ho2 : others c k0 k2).
  { eapply (others_upd _ _ k); [exact Ho|exact E|done|done]. }
  assert (Hcc : forall st, tstate e = st -> st <> THRCURR -> tid <> c) by (intros st ?? ->; congruence).
  apply kwp_bind. case_decide as Hr; [|case_decide as Ht].
  - eapply (kwp_send_ready c _ k0 k2 qs tid e1); try done.
    + apply (Kpl_exempt _ _ _ e1); [apply (ki_placed _ _ HI2)|done|]. unfold home. simpl. by rewrite Hr.
    + apply (ki_only _ _ HI2).
    + by eapply Hcc.
    + eapply others_upd; [exact Ho2|exact E2|done|]. intros _. split; simpl; try done; first [by right | by rewrite Hr].
    + exists ec. simpl. rewrite lookup_insert_ne; [done|]. by eapply Hcc.
    + eauto.
    + eauto.
  - apply kwp_bind. eapply (kwp_unsleep _ _ k2 qs tid e1); [apply (ki_placed _ _ HI2)|done|by right|].
    intros tab' l1 l2 k3 El HK3 _.
    eapply (kwp_send_ready c _ k0 k3 _ tid e1); try done.
    + apply (ki_only _ _ HI2).
    + split; [done|]. simpl. by apply vic_ok_set.
    + by eapply Hcc.
    + eapply (others_upd _ _ k2); [exact Ho2|exact E2|done|]. intros _. split; simpl; done.
    + exists ec. simpl. rewrite lookup_insert_ne; [done|]. by eapply Hcc.
    + eauto.
    + eauto.
  - kstep. eapply (kwp_exit _ _ _ _ qs _ (irq k)); [done|done|done|done|done|]. intros k' -> Hret. apply (HQ1 _ qs); [done|done|tauto].
Qed.

End send.

Section safe.
Implicit Types (k : kernel) (qs : gmap Z (list Z)).

Lemma send_safe k tid msg : KInv k -> safe_call (send tid msg) k.
Proof.
  intros [qs HI]. destruct (isbadtid k tid) eqn:Hb.
  { unfold safe_call, send. kstep. kstep. change (isbadtid _ tid) with (isbadtid k tid).
    rewrite Hb. by eapply safe_exit. }
  destruct (KInv_entry k qs tid HI Hb) as (e & E & Hnf & _). destruct (thasmsg e) eqn:Hm.
  { unfold safe_call, send. kstep. kstep. change (isbadtid _ tid) with (isbadtid k tid).
    rewrite Hb. kstep. rewrite decide_True by (by right). by eapply safe_exit. }
  unfold safe_call. eapply (kwp_send _ _ k k qs); eauto using others_eq.
  intros k' qs' HI' _ _ Ho. split; [by exists qs'|done].
Qed.

(** [receive] returns a message the thread was sent, and consumes it. *)
Lemma kwp_receive {G R : kernel -> kernel -> Prop} c (Q : Z -> kernel -> kernel -> Prop) k qs :
  (forall s s', R s s' -> Rl c s s') -> KInvq k qs -> thrcurrent k = c -> c <> NULLTHREAD ->
  (forall k' qs' e e', KInvq k' qs' -> others c k k' -> thrtab k !! c = Some e -> thasmsg e = false ->
     thrtab k' !! c = Some e' -> tstate e' = THRRECV -> G k k') ->
  (forall k0' k' qs' e, sysret c (mask k) k0' k' qs' -> thasmsg e = true -> thrtab k0' !! c = Some e ->
     thrtab k' !! c = Some (set_hasmsg false e) -> Q (tmsg e) k0' k') ->
  kwp G R Q receive k k.
Proof.
  intros HR HI Hc Hn HG HQ. pose proof (ki_ctl _ _ HI) as [Hrd Hv].
  destruct (ki_curr _ _ HI) as (ec & Ec & Hec). pose proof Ec as Ec0. rewrite Hc in Ec.
  assert (Hend : forall k0 k1 qs1 e, KInvq k1 qs1 -> thrcurrent k1 = c -> others c k0 k1 ->
    thrtab k1 !! c = Some e -> thrtab k0 !! c = Some e -> thasmsg e = true ->
    kwp G R Q (thrptr ← thr c; upd_thr c (set_hasmsg false);; k_restore (mask k);; mret (tmsg thrptr)) k0 k1).
  { intros k0 k1 qs1 e HI1 Hc1 Ho1 E1 E0 Hm. eapply kwp_thr; [exact E1|]. eapply kwp_upd_thr; [exact E1|].
    eapply (kwp_exit _ _ _ _ qs1 _ (irq k)); [|done| |done|done|].
    - apply (KInvq_thr _ _ _ e); try done. exact (Kpl_prio _ _ _ _ _ (ki_placed _ _ HI1) E1).
    - eapply others_upd; [exact Ho1|exact E1|done|done].
    - intros k' -> Hret. apply (HQ _ _ qs1 e Hret Hm E0). simpl. apply lookup_insert_eq. }
  unfold receive. kstep. kstep. simpl thrcurrent. rewrite Hc. kstep.
  set (k1 := set_irq _ k). assert (HI1 : KInvq k1 qs) by (by apply KInvq_irq).
  apply kwp_bind. destruct (thasmsg ec) eqn:Hm.
  { kstep. eapply (Hend k k1 qs ec); try done. by apply others_eq. }
  kstep. set (k2 := set_thrtab _ k1).
  assert (HK2 : KPre k2 qs).
  { subst c. apply (KPre_block k1 qs ec); try done. exact (Kpl_prio _ _ _ _ _ (ki_placed _ _ HI) Ec). }
  apply kwp_bind. eapply (kwp_resched _ _ _ _ qs (set_state THRRECV ec));
    [done|done|exact HK2| |apply lookup_insert_eq|..].
  - eapply (others_upd _ _ k); [by apply others_eq|exact Ec|done|done].
  - intros k' qs' HI' Hsw Hne Ho'. destruct (sw_old _ _ _ _ _ Hsw) as (e0 & e' & E0 & E' & Hst & _).
    simpl in E0. rewrite lookup_insert_eq in E0. injection E0 as <-. simpl in Hst.
    eapply (HG k' qs' ec e'); auto.
  - intros k' qs' e' HI' Hsw Hc'.
    by destruct (switched_leaves _ _ _ _ _ _ (kp_placed _ _ HK2) Hsw (lookup_insert_eq _ _ _)).
  - intros k0' k' e' Hback [v ->] [qs' HI'] Hc' _ Ho' E' (_ & Hr & _). kstep. eapply Hend; eauto.
Qed.

Lemma receive_safe k : KInv k -> thrcurrent k <> NULLTHREAD -> safe_call receive k.
Proof.
  intros [qs HI] Hn. unfold safe_call. eapply (kwp_receive _ _ k qs); eauto.
  intros k' qs' e e' HI' Ho _ _ _ _. split; [by exists qs'|done].
Qed.

(** Clearing the flag of the current thread before [restore]. *)
Lemma clear_exit {G R : kernel -> kernel -> Prop} c (Q : Z -> kernel -> kernel -> Prop) k0 k qs e v r :
  KInvq k qs -> thrcurrent k = c -> others c k0 k -> thrtab k !! c = Some e -> vic_ok v ->
  (forall k', sysret c (vic_get_irqmask v) k0 k' qs -> Q r k0 k') ->
  kwp G R Q (upd_thr c (set_hasmsg false);; k_restore (vic_get_irqmask v);; mret r) k0 k.
Proof.
  intros HI Hc Ho E Hv HQ. eapply kwp_upd_thr; [exact E|].
  eapply (kwp_exit _ _ _ _ qs _ v); [|done| |done|done|by eauto].
  - apply (KInvq_thr _ _ _ e); try done. exact (Kpl_prio _ _ _ _ _ (ki_placed _ _ HI) E).
  - eapply others_upd; [exact Ho|exact E|done|done].
Qed.

Lemma recvclr_safe k : KInv k -> safe_call recvclr k.
Proof.
  intros [qs HI]. pose proof (ki_ctl _ _ HI) as [Hrd Hv]. destruct (ki_curr _ _ HI) as (ec & Ec & Hec).
  unfold safe_call, recvclr. kstep. kstep. kstep.
  eapply (clear_exit _ _ _ _ qs ec (irq k)); [by apply KInvq_irq|done|by apply others_eq|exact Ec|done|eauto].
Qed.

Lemma recvtime_safe k maxwait : KInv k -> thrcurrent k <> NULLTHREAD -> maxwait < 2 ^ 31 ->
  safe_call (recvtime maxwait) k.
Proof.
  intros [qs HI] Hn Hmax. pose proof (ki_ctl _ _ HI) as [Hrd Hv].
  destruct (ki_curr _ _ HI) as (ec & Ec & Hec). unfold safe_call, recvtime.
  destruct (Z.ltb_spec maxwait 0).
  { kstep. exists qs. split; [done..|by apply others_eq]. }
  kstep. kstep. simpl thrcurrent. kstep. kstep.
  set (k1 := set_irq _ k). assert (HI1 : KInvq k1 qs) by (by apply KInvq_irq).
  set (c := thrcurrent k) in *.
  assert (Hend : forall k0 k2 qs2 e, KInvq k2 qs2 -> thrcurrent k2 = c -> others c k0 k2 ->
    thrtab k2 !! c = Some e ->
    kwp (Gd c) (Rl c) (fun _ k0 k' => exists qs, sysret c (mask k) k0 k' qs)
      (thrptr ← thr c;
       msg ← (if thasmsg thrptr then upd_thr c (set_hasmsg false);; mret (tmsg thrptr) else mret TIMEOUT);
       k_restore (mask k);; mret msg) k0 k2).
  { intros k0 k2 qs2 e HI2 Hc2 Ho2 E2. eapply kwp_thr; [exact E2|]. apply kwp_bind.
    destruct (thasmsg e).
    - eapply kwp_upd_thr; [exact E2|]. kstep.
      eapply (kwp_exit _ _ _ _ qs2 _ (irq k)); [|done| |done|done|by eauto].
      + apply (KInvq_thr _ _ _ e); try done. exact (Kpl_prio _ _ _ _ _ (ki_placed _ _ HI2) E2).
      + eapply others_upd; [exact Ho2|exact E2|done|done].
    - kstep. eapply (kwp_exit _ _ _ _ qs2 _ (irq k)); [done|done|done|done|done|by eauto]. }
  destruct (thasmsg ec) eqn:Hm.
  { kstep. eapply (Hend k k1 qs ec); try done. by apply others_eq. }
  destruct (sleep_block k1 qs THRTMOUT ec maxwait HI1 Ec) as (tab' & l & l' & Ei & _ & _ & HK);
    [by right|done|lia|].
  kstep. eapply kwp_qcall; [exact Ei|]. cbv beta iota. change (OK =? SYSERR) with false. cbv iota.
  eapply kwp_upd_thr; [exact Ec|]. apply kwp_bind.
  eapply (kwp_resched c _ _ _ _ (set_state THRTMOUT ec)); [done|done|exact HK| |apply lookup_insert_eq|..].
  - eapply (others_upd _ _ k); [by apply others_eq|exact Ec|done|done].
  - intros k2 qs2 HI2 _ _ Ho2. split; [by exists qs2|done].
  - intros k' qs' e' HI' _ Hc' _ Ho' E' _. kstep. by eapply Hend.
  - intros k0' k' e' Hback _ [qs' HI'] Hc' _ Ho' E' _. kstep. by eapply Hend.
Qed.

End safe.
