(* ===== verification/BootSpec.v ===== *)
(** * System initialisation establishes the invariant *)

From S2P Require Import Prelude Prog Queue QueueSpec QueueSys Interrupt Memory MemorySpec Kernel Thread Clock Lifecycle Placement Invariant Sched ThreadSpec.

Section loops.
Context {G R : kernel -> kernel -> Prop}.
Implicit Types (k : kernel) (qs : gmap Z (list Z)).

Lemma kwp_init_threads (Q : unit -> kernel -> kernel -> Prop) k0 n :
  forall i k, (forall t, i <= t < i + Z.of_nat n -> is_Some (thrtab k !! t)) ->
  (forall thr', (forall t, thr' !! t = if decide (i <= t < i + Z.of_nat n)
                                      then set_state THRFREE <$> thrtab k !! t else thrtab k !! t) ->
     Q tt k0 (set_thrtab thr' k)) ->
  kwp G R Q (init_threads n i) k0 k.
Proof.
  induction n as [|n IH]; intros i k Hd HQ; cbn [init_threads].
  { kstep. replace k with (set_thrtab (thrtab k) k) by (by destruct k). apply HQ.
    intros t. rewrite decide_False by lia. done. }
  destruct (Hd i ltac:(lia)) as [e E]. eapply kwp_upd_thr; [exact E|]. apply IH.
  - intros t Ht. simpl. rewrite lookup_insert. case_decide; [done|]. apply Hd. lia.
  - intros thr' Hthr. apply (HQ thr'). intros t. rewrite Hthr. simpl. rewrite lookup_insert.
    destruct (decide (i = t)) as [->|Hne].
    + rewrite decide_False, decide_True by lia. by rewrite E.
    + repeat case_decide; done || lia.
Qed.

(** A new empty queue. *)
Lemma qs_queinit tab qs nq :
  qs_rep tab qs -> NTHREAD <= nq -> nq + 1 < NQENT ->
  (forall q, is_Some (qs !! q) -> q + 1 < nq) ->
  exists tab', queinit tab nq = Some (tab', nq + 2, nq) /\ qs_rep tab' (<[nq := []]> qs).
Proof.
  intros [H1 H2 H3 H4] Hlo Hhi Hq.
  destruct (queinit_spec tab nq) as (tab' & E & Hr & Ht); [intros i Hi; by apply H1|done..|].
  exists tab'. split; [done|]. destruct Ht as [Ht Hd]. split.
  - intros i. rewrite Hd. apply H1.
  - intros q l. rewrite lookup_insert. case_decide; [by intros [= <-]; subst|]. intros Hl.
    apply (qrep_frame tab); [|by apply H2]. intros i Hi. apply Ht.
    pose proof (Hq q ltac:(eauto)). pose proof (qr_range _ _ _ (H2 _ _ Hl)) as Hf. rewrite Forall_forall in Hf.
    unfold nodes, quetail, valid_tid in *. rewrite !elem_of_cons in *.
    intros [->|[->|?]]; [..|set_solver]; destruct Hi as [?|[?|Hi]]; try lia; apply Hf in Hi; lia.
  - intros q1 q2. rewrite !lookup_insert. unfold quetail.
    do 2 case_decide; intros S1 S2; subst; try lia.
    + pose proof (Hq q2 S2). lia.
    + pose proof (Hq q1 S1). lia.
    + by apply H3.
  - intros q1 q2 l1 l2 t. rewrite !lookup_insert. do 2 case_decide; subst; try done.
    + intros [= <-] _ Ht1. set_solver.
    + intros _ [= <-] _ Ht2. set_solver.
    + apply H4.
Qed.

(** The queues and the semaphores after [i] of them are initialised. *)
Record sems_upto (k : kernel) (qs : gmap Z (list Z)) (i : Z) : Prop := {
  su_rep : qs_rep (quetab k) qs;
  su_next : nextqid k = NTHREAD + 2 * i;
  su_qs : forall q, is_Some (qs !! q) <-> exists j, 0 <= j < i /\ q = NTHREAD + 2 * j;
  su_empty : forall q l, qs !! q = Some l -> l = [];
  su_dom : forall s, is_Some (semtab k !! s) <-> 0 <= s < NSEM;
  su_sems : forall j, 0 <= j < i -> semtab k !! j = Some (mksement SFREE 0 (NTHREAD + 2 * j));
}.

Lemma kwp_init_sems (Q : unit -> kernel -> kernel -> Prop) k0 n :
  forall i k qs, sems_upto k qs i -> 0 <= i -> i + Z.of_nat n = NSEM ->
  (forall k' qs', sems_upto k' qs' NSEM ->
     (exists tab sems nq, k' = set_semtab sems (set_quetab tab
        (set_queues (readylist k) (sleepq k) nq k))) -> Q tt k0 k') ->
  kwp G R Q (init_sems n i) k0 k.
Proof.
  induction n as [|n IH]; intros i k qs H Hi Hn HQ; cbn [init_sems].
  { kstep. assert (i = NSEM) as -> by lia. eapply (HQ k qs H).
    exists (quetab k), (semtab k), (nextqid k). by destruct k. }
  destruct H as [H1 H2 H3 H4 H5 H6]. destruct (proj2 (H5 i) ltac:(lia)) as [e E].
  destruct (qs_queinit _ _ (nextqid k) H1) as (tab' & Eq & Hrep).
  { rewrite H2. unfold NTHREAD. lia. }
  { rewrite H2. unfold NQENT, NTHREAD, NSEM in *. lia. }
  { intros q Hq. apply H3 in Hq as (j & Hj & ->). rewrite H2. lia. }
  eapply kwp_upd_sem; [exact E|]. eapply kwp_upd_sem; [apply lookup_insert_eq|].
  eapply wp_lift; [simpl; rewrite Eq; reflexivity|].
  eapply kwp_upd_sem; [apply lookup_insert_eq|]. simpl semtab. rewrite !insert_insert_eq.
  eapply (IH (i + 1) _ (<[nextqid k := []]> qs)); [|lia|lia|].
  - split; simpl.
    + exact Hrep.
    + rewrite H2. lia.
    + intros q. rewrite lookup_insert. case_decide as Hq.
      * split; [|by eauto]. intros _. exists i. rewrite <- Hq. split; lia.
      * rewrite H3. split; intros (j & Hj & ->); exists j; (split; [|done]); [lia|].
        destruct (decide (j = i)) as [->|]; [by rewrite H2 in Hq|lia].
    + intros q l. rewrite lookup_insert. case_decide; [by intros [= <-]|apply H4].
    + intros s. rewrite lookup_insert. case_decide; [subst|apply H5].
      split; [intros _; apply H5|]; eauto.
    + intros j Hj. rewrite lookup_insert. case_decide as Hji.
      * subst j. unfold set_scount, set_sstate. simpl. by rewrite H2.
      * apply H6. lia.
  - intros k' qs' Hs (tab & sems & nq & ->). eapply HQ; [exact Hs|].
    exists tab, sems, nq. done.
Qed.

End loops.

(** ** The state the loader leaves *)

Definition zero_thrent : thrent := mkthrent THRFREE 0 0 0 0 (replicate TNMLEN 0) 0 0 0 0 false 0 0.

Record unbooted (k : kernel) : Prop := {
  ub_que : forall i, intab (quetab k) i <-> 0 <= i < NQENT;
  ub_thr : forall t, is_Some (thrtab k !! t) <-> valid_tid t;
  ub_prio : forall t e, thrtab k !! t = Some e -> tprio e = 0;
  ub_sem : forall s, is_Some (semtab k !! s) <-> 0 <= s < NSEM;
  ub_next : nextqid k = NTHREAD;
  ub_resdefer : resdefer k = 0;
  ub_vic : vic_ok (irq k);
}.

(** What [kernel_init] leaves: the null thread runs, every other thread and every
    semaphore is free, and no thread is in a queue. *)
Record fresh (k : kernel) : Prop := {
  fr_curr : thrcurrent k = NULLTHREAD;
  fr_thr : forall t e, thrtab k !! t = Some e -> t <> NULLTHREAD -> tstate e = THRFREE;
  fr_sem : forall s e, semtab k !! s = Some e -> sstate e = SFREE /\ scount e = 0;
}.

Lemma bits_bounded z n : 0 <= n -> (forall i, 0 <= n <= i -> Z.testbit z i = false) -> 0 <= z < 2 ^ n.
Proof.
  intros Hn H. replace z with (z mod 2 ^ n); [apply Z.mod_pos_bound; lia|].
  apply Z.bits_inj'. intros i Hi. destruct (decide (i < n)).
  - by apply Z.mod_pow2_bits_low.
  - rewrite Z.mod_pow2_bits_high, H by lia. done.
Qed.

Lemma vic_ok_timer addr v : vic_ok v ->
  vic_ok (fst (enable_irq IRQ_TIMER (register_irq IRQ_TIMER addr v))) /\
  vic_ok (fst (enable_irq IRQ_TIMER (fst (disable_irq IRQ_TIMER v)))).
Proof.
  unfold vic_ok. intros Hv. simpl. unfold IRQ_TIMER.
  assert (Hb : forall x, 0 <= x < 2 ^ 16 ->
    0 <= Z.lor (Z.land x (Z.lnot (Z.shiftl 1 4))) (Z.shiftl 1 4) < 2 ^ 16).
  { intros x Hx. apply bits_bounded; [lia|]. intros i Hi.
    rewrite Z.lor_spec, Z.land_spec, (testbit_high x 16 i), (testbit_high (Z.shiftl 1 4) 16 i); done. }
  split; apply Hb; done.
Qed.

Section boot.
Context {G R : kernel -> kernel -> Prop}.
Variables (end_addr clkfreq clkhandler_addr : Z).
Implicit Types (k : kernel) (qs : gmap Z (list Z)).

Lemma kwp_queinit {A} (Q : A -> kernel -> kernel -> Prop) g k0 k tab nq q :
  queinit (quetab k) (nextqid k) = Some (tab, nq, q) ->
  kwp G R Q (g q) k0 (set_quetab tab (set_queues (readylist k) (sleepq k) nq k)) ->
  kwp G R Q (k_queinit ≫= g) k0 k.
Proof. intros E H. eapply wp_lift; [simpl; rewrite E; reflexivity|done]. Qed.

(** [clkinit]: the sleep queue is created and the timer enabled. *)
Lemma kwp_clkinit (Q : unit -> kernel -> kernel -> Prop) k0 k tab nq q :
  queinit (quetab k) (nextqid k) = Some (tab, nq, q) -> vic_ok (irq k) ->
  (forall v tm, vic_ok v -> tm_started tm = true ->
     Q tt k0 (set_irq v (set_tim tm (set_clock 0 (clktime k)
                (set_quetab tab (set_queues (readylist k) q nq k)))))) ->
  kwp G R Q (clkinit clkfreq clkhandler_addr) k0 k.
Proof.
  intros E Hv HQ. unfold clkinit. eapply wp_lift; [rewrite E; reflexivity|].
  do 3 (eapply (kwp_modify (G := G) (R := R))). unfold clkupdate. kstep. simpl tim.
  destruct (vic_ok_timer clkhandler_addr (irq k) Hv) as [V1 _].
  destruct (tm_started (tim k)) eqn:Hst.
  - kstep. specialize (HQ _ (tim k) V1 Hst). by destruct k.
  - kstep. apply kwp_modify. 
    destruct (vic_ok_timer clkhandler_addr _ V1) as [_ V2].
    eapply (HQ _ (mktimer true _ _) V2 eq_refl).
Qed.

(** All queues are there and empty: every thread is in its place. *)
Lemma booted_placed k k1 qs qs0 rl sq :
  sems_upto k qs NSEM -> rl = NTHREAD + 2 * NSEM -> sq = rl + 2 ->
  qs_rep (quetab k1) (<[sq := []]> (<[rl := []]> qs)) -> semtab k1 = semtab k ->
  readylist k1 = rl -> sleepq k1 = sq ->
  (forall t, is_Some (thrtab k1 !! t) <-> valid_tid t) ->
  (forall t e, thrtab k1 !! t = Some e -> tprio e = 0 /\
     tstate e = if decide (t = NULLTHREAD) then THRCURR else THRFREE) ->
  qs0 = <[sq := []]> (<[rl := []]> qs) -> Kpl None k1 qs0.
Proof.
  intros [H1 H2 H3 H4 H5 H6] Hrl Hsq Hrep Hsm Erl Esq Hdom Hthr ->.
  assert (Hempty : forall q l, <[sq := []]> (<[rl := []]> qs) !! q = Some l -> l = []).
  { intros q l. rewrite !lookup_insert. repeat case_decide; try (by intros [= <-]). apply H4. }
  assert (Hq : forall s e, semtab k !! s = Some e -> 0 <= s < NSEM /\ e = mksement SFREE 0 (NTHREAD + 2 * s)).
  { intros s e E. assert (Hs : 0 <= s < NSEM) by (apply H5; eauto). split; [done|].
    rewrite H6 in E by done. congruence. }
  unfold Kpl. rewrite Erl, Esq, Hsm. split.
  - done.
  - done.
  - done.
  - exists []. rewrite lookup_insert_ne, lookup_insert_eq by lia. split; [done|constructor].
  - exists []. rewrite lookup_insert_eq. split; [done|]. split; [constructor|done].
  - intros s e E. destruct (Hq _ _ E) as [Hs ->]. simpl. split_and!; [lia..|]. exists [].
    rewrite !lookup_insert_ne by lia. destruct (proj2 (H3 (NTHREAD + 2 * s))) as [l El]; [eauto|].
    rewrite El, (H4 _ _ El). split; [done|]. by split_and!.
  - intros s1 s2 e1 e2 E1 E2. destruct (Hq _ _ E1) as [? ->], (Hq _ _ E2) as [? ->]. simpl. lia.
  - lia.
  - intros q l t El Ht. rewrite (Hempty _ _ El) in Ht. set_solver.
  - intros t e q E _. destruct (Hthr _ _ E) as [_ Hs]. unfold home. rewrite Hs. by case_decide.
  - intros e E _. destruct (Hthr _ _ E) as [_ Hs]. right. done.
  - intros t e E. destruct (Hthr _ _ E) as [-> _]. done.
Qed.

Lemma kwp_kernel_init (Q : Z -> kernel -> kernel -> Prop) k0 k :
  unbooted k ->
  (forall k', KInv k' -> fresh k' -> mem k' = mem (init_memory k) -> tm_started (tim k') = true ->
     Q OK k0 k') ->
  kwp G R Q (kernel_init end_addr clkfreq clkhandler_addr) k0 k.
Proof.
  intros [U1 U2 U3 U4 U5 U6 U7] HQ. unfold kernel_init. apply kwp_bind. unfold init_tables. kstep. kstep. apply kwp_bind.
  eapply (kwp_init_threads _ _ _ 0).
  { intros t Ht. apply U2. unfold valid_tid. simpl in Ht. unfold NTHREAD in *. lia. }
  intros thr1 Hthr1. kstep.
  assert (Hd1 : forall t, is_Some (thr1 !! t) <-> valid_tid t).
  { intros t. rewrite Hthr1, <- U2. case_decide; [apply fmap_is_Some|done]. }
  destruct (proj2 (Hd1 NULLTHREAD)) as [e0 E0]; [done|].
  eapply kwp_upd_thr; [exact E0|]. kstep.
  set (k1 := set_thrcurrent _ _).
  assert (Hs0 : sems_upto k1 ∅ 0).
  { split; try done.
    - split; [exact U1|intros ??|intros ?? [? Hx]|intros ????? Hx]; by try rewrite lookup_empty in Hx.
    - intros q. rewrite lookup_empty. split; [by intros [? ?]|]. intros (j & Hj & _). lia.
    - intros j Hj. lia. }
  eapply (kwp_init_sems _ _ _ 0 k1 ∅ Hs0); [done..|].
  intros k2 qs2 Hs2 (tab2 & sems2 & nq2 & E2). pose proof Hs2 as [S1 S2 S3 S4 S5 S6].
  assert (Hbelow : forall q, is_Some (qs2 !! q) -> q + 1 < nextqid k2).
  { intros q Hq. apply S3 in Hq as (j & Hj & ->). rewrite S2. lia. }
  destruct (qs_queinit _ _ (nextqid k2) S1) as (tab3 & Eq3 & Hrep3);
    [rewrite S2; done..|done|]. 
  apply kwp_bind. unfold init_clock. eapply kwp_queinit; [exact Eq3|]. kstep. simpl nextqid.
  destruct (qs_queinit tab3 (<[nextqid k2 := []]> qs2) (nextqid k2 + 2) Hrep3) as (tab4 & Eq4 & Hrep4);
    [rewrite S2; done..| |].
  { intros q. rewrite lookup_insert. case_decide; [lia|]. intros Hq. apply Hbelow in Hq. lia. }
  eapply kwp_clkinit; [exact Eq4|by rewrite E2|]. intros v tm Hv Htm. kstep.
  assert (Hthr : forall t e, thrtab k2 !! t = Some e -> tprio e = 0 /\
     tstate e = if decide (t = NULLTHREAD) then THRCURR else THRFREE).
  { intros t e Et. rewrite E2 in Et. simpl in Et. rewrite lookup_insert in Et. case_decide as Ht.
    - simplify_eq. done.
    - rewrite decide_False by done. rewrite Hthr1 in Et. case_decide as Hr.
      + apply fmap_Some in Et as (e1 & Ee & ->). simpl in Ee |- *. split; [by eapply U3|done].
      + exfalso. simpl in Et. assert (valid_tid t) by (apply U2; eauto).
        unfold valid_tid, NTHREAD in *. simpl in Hr. lia. }
  apply HQ.
  - exists (<[nextqid k2 + 2 := []]> (<[nextqid k2 := []]> qs2)). split.
    + eapply (booted_placed k2); [exact Hs2|exact S2|done|exact Hrep4|done|done|done| |exact Hthr|done].
      intros t. rewrite E2. simpl. rewrite lookup_insert. case_decide; [subst|apply Hd1].
      split; [done|eauto].
    + rewrite E2. simpl. rewrite lookup_insert_eq. eauto.
    + intros t e Et Hst. destruct (Hthr _ _ Et) as [_ Hs]. rewrite Hst in Hs.
      case_decide; [|done]. rewrite E2. simpl. done.
    + split; [|done]. rewrite E2. simpl. lia.
  - split.
    + by rewrite E2.
    + intros t e Et Hne. destruct (Hthr _ _ Et) as [_ Hs]. by rewrite decide_False in Hs.
    + intros s e E. simpl in E. assert (Hs : 0 <= s < NSEM) by (apply S5; eauto).
      rewrite S6 in E by done. by simplify_eq.
  - rewrite E2. done.
  - done.
Qed.

End boot.

(** ** The heap after initialisation: one free block *)

Lemma truncmb_spec x : 0 <= x -> (8 | truncmb x) /\ x - 7 <= truncmb x <= x.
Proof.
  intros Hx. unfold truncmb. change (Z.lnot 7) with (Z.lnot (Z.ones 3)).
  rewrite <- Z.ldiff_land, Z.ldiff_ones_r by lia. rewrite Z.shiftl_mul_pow2, Z.shiftr_div_pow2 by lia.
  change (2 ^ 3) with 8. pose proof (Z.div_mod x 8 ltac:(lia)). pose proof (Z.mod_pos_bound x 8 ltac:(lia)).
  split; [by exists (x / 8)|lia].
Qed.

Lemma init_memory_heap k : let M := mem k in
  0 < memheap M -> memheap M + 7 < 2 ^ 32 -> 0 <= maxaddr M < 2 ^ 32 -> memheap M + 16 < maxaddr M ->
  let M' := mem (init_memory k) in
  heap_rep M' [(memheap M', maxaddr M' - memheap M')] /\ memheap M' = roundmb (memheap M)
  /\ maxaddr M' = truncmb (maxaddr M).
Proof.
  intros M H1 H2 H3 H4 M'. subst M'. unfold init_memory. fold M. cbv zeta. simpl mem.
  destruct (roundmb_spec (memheap M)) as [R1 R2]; [lia..|].
  destruct (truncmb_spec (maxaddr M)) as [T1 T2]; [lia|].
  set (h := roundmb (memheap M)) in *. set (t := truncmb (maxaddr M)) in *.
  assert (Hu : u32 (t - h) = t - h) by (apply u32_id; unfold is_u32; lia).
  split; [|done]. rewrite Hu. split; simpl.
  - split_and!; [done|unfold NULL; lia| |].
    + rewrite ld_st. by rewrite decide_True.
    + rewrite ld_st_ne, ld_st by lia. by rewrite decide_True.
  - split_and!; [lia|lia|done|by apply Z.divide_sub_r|lia|done].
  - lia.
  - lia.
  - done.
  - lia.
Qed.
