(* ===== verification/LifecycleSpec.v ===== *)
(** * Creation of threads: the initial stack and the thread table *)

From S2P Require Import Prelude Prog Queue QueueSpec QueueSys Interrupt Memory MemorySpec HeapClient Kernel Thread Clock Message Lifecycle Placement Invariant Sched ThreadSpec BootSpec.

(** ** Writes to the new stack *)

Section stack.
Implicit Types (M : memory) (vs : list Z).

Lemma pushes_cons v vs p : pushes (v :: vs) p = pushes vs (push v p).
Proof. done. Qed.

Lemma pushes_sp vs M sp : (pushes vs (M, sp)).2 = sp - 4 * Z.of_nat (length vs).
Proof.
  revert M sp. induction vs as [|v vs IH]; intros M sp; [simpl; lia|].
  rewrite pushes_cons. unfold push. simpl fst. simpl snd. rewrite IH. simpl length. lia.
Qed.

Lemma pushes_snd vs p : (pushes vs p).2 = p.2 - 4 * Z.of_nat (length vs).
Proof. destruct p. apply pushes_sp. Qed.

(** A property of memories that writes between [lo] and [hi] keep. *)
Section writes.
Context (P : memory -> Prop) (lo hi : Z).
Hypothesis P_st : forall M w v, P M -> lo <= w < hi -> P (st M w v).

Lemma pushes_inv vs M sp :
  P M -> lo <= sp - 4 * Z.of_nat (length vs) -> sp <= hi -> P (pushes vs (M, sp)).1.
Proof.
  revert M sp. induction vs as [|v vs IH]; intros M sp HP Hlo Hhi; [done|].
  rewrite pushes_cons. unfold push. simpl fst. simpl snd. simpl length in Hlo.
  apply IH; [|lia..]. apply P_st; [done|lia].
Qed.

Lemma store_words_inv vs : forall M p,
  P M -> lo <= p -> p + 4 * Z.of_nat (length vs) <= hi -> P (store_words M p vs).
Proof.
  induction vs as [|v vs IH]; intros M p HP Hlo Hhi; [done|]. simpl in *.
  apply IH; [|lia..]. apply P_st; [done|lia].
Qed.

(** Bytes of the stack that [create] fills. *)
Definition frame_bytes (nargs : nat) : Z :=
  4 * (3 + Z.of_nat (pads nargs) + Z.of_nat (nargs - 4) + CONTEXT_WORDS).

Lemma init_stack_sp M saddr tid len proc ret args :
  (init_stack M saddr tid len proc ret args).2 = saddr - frame_bytes (length args).
Proof.
  unfold init_stack, frame_bytes. cbv zeta.
  destruct (pushes (replicate (Z.to_nat CONTEXT_WORDS) 0) _) as [M3 s3] eqn:E3.
  apply (f_equal snd) in E3. rewrite !pushes_snd, !length_replicate in E3. simpl in E3 |- *.
  unfold CONTEXT_WORDS in *. lia.
Qed.

Lemma init_stack_inv M saddr tid len proc ret args :
  P M -> lo <= saddr - frame_bytes (length args) -> saddr < hi ->
  P (init_stack M saddr tid len proc ret args).1.
Proof.
  intros HP Hlo Hhi. unfold init_stack, frame_bytes in *. cbv zeta.
  set (p1 := push _ _).
  assert (H1 : P p1.1 /\ p1.2 = saddr - 12).
  { unfold p1, push. simpl. split; [|lia]. unfold CONTEXT_WORDS in *.
    repeat apply P_st; try done; lia. }
  clearbody p1. destruct p1 as [M1 s1], H1 as [HP1 E1]. simpl in HP1, E1. subst s1.
  pose proof (pushes_sp (replicate (pads (length args)) 0) M1 (saddr - 12)) as S2.
  pose proof (pushes_inv (replicate (pads (length args)) 0) M1 (saddr - 12) HP1) as HP2.
  rewrite length_replicate in S2, HP2. destruct (pushes _ (M1, saddr - 12)) as [M2 s2].
  simpl in S2, HP2. unfold CONTEXT_WORDS in *. specialize (HP2 ltac:(lia) ltac:(lia)).
  pose proof (pushes_sp (replicate (length args - 4) 0) M2 s2) as S3.
  pose proof (pushes_inv (replicate (length args - 4) 0) M2 s2 HP2) as HP3.
  rewrite length_replicate in S3, HP3. destruct (pushes _ (M2, s2)) as [M3 s3].
  simpl in S3, HP3. specialize (HP3 ltac:(lia) ltac:(lia)).
  pose proof (pushes_sp (replicate (Z.to_nat 15) 0) M3 s3) as S4.
  pose proof (pushes_inv (replicate (Z.to_nat 15) 0) M3 s3 HP3) as HP4.
  rewrite length_replicate in S4, HP4. change (pushes _ (M3, s3)) with (pushes (replicate (Z.to_nat 15) 0) (M3, s3)).
  destruct (pushes (replicate (Z.to_nat 15) 0) (M3, s3)) as [M4 s4].
  simpl in S4, HP4 |- *. specialize (HP4 ltac:(lia) ltac:(lia)).
  apply store_words_inv; [apply store_words_inv|..]; [|rewrite ?length_take, ?length_drop; lia..].
  repeat apply P_st; try done; lia.
Qed.

End writes.

(** ** What [ctxsw] loads from it *)

Lemma ld_store_words vs : forall M p w,
  ld (store_words M p vs) w =
  match decide (p <= w < p + 4 * Z.of_nat (length vs) /\ (w - p) mod 4 = 0) with
  | left _ => default 0 (vs !! Z.to_nat ((w - p) / 4))
  | right _ => ld M w
  end.
Proof.
  induction vs as [|v vs IH]; intros M p w; simpl store_words; [by rewrite decide_False by (simpl; lia)|].
  rewrite IH. simpl length. destruct (decide (w = p)) as [->|Hne].
  - rewrite decide_False by lia. rewrite decide_True by (rewrite Z.sub_diag; split; [lia|done]).
    rewrite ld_st, Z.sub_diag. by rewrite decide_True.
  - assert (Hmod : (w - (p + 4)) mod 4 = (w - p) mod 4).
    { replace (w - (p + 4)) with (w - p + (-1) * 4) by lia. apply Z.mod_add. lia. }
    assert (Hdiv : (w - p) / 4 = (w - (p + 4)) / 4 + 1).
    { replace (w - p) with (w - (p + 4) + 1 * 4) by lia. apply Z.div_add. lia. }
    rewrite Hmod. case_decide as H1.
    + rewrite decide_True by lia. rewrite Hdiv.
      assert (0 <= (w - (p + 4)) / 4) by (apply Z.div_pos; lia).
      replace (Z.to_nat ((w - (p + 4)) / 4 + 1)) with (S (Z.to_nat ((w - (p + 4)) / 4))) by lia. done.
    + rewrite decide_False; [by apply ld_st_ne|].
      intros [Hr Hm]. apply H1. split; [|done].
      assert (w <> p + 1 /\ w <> p + 2 /\ w <> p + 3) by (split_and!; intros ->;
        [replace (p + 1 - p) with 1 in Hm by lia | replace (p + 2 - p) with 2 in Hm by lia
        | replace (p + 3 - p) with 3 in Hm by lia]; done). lia.
Qed.

(** Registers and stack of the new thread when it is first switched to: it
    starts at [proc] with [ret] as return address, its first four arguments in
    r0 to r3 and the others on the stack. *)
Lemma init_stack_context M saddr tid len proc ret args M' sp :
  init_stack M saddr tid len proc ret args = (M', sp) ->
  r_pc (ctx_load M' sp) = proc /\ r_lr (ctx_load M' sp) = ret
  /\ (forall i v, (i < 4)%nat -> args !! i = Some v -> r_low (ctx_load M' sp) !! i = Some v)
  /\ (forall i v, args !! (4 + i)%nat = Some v -> ld M' (r_sp (ctx_load M' sp) + 4 * Z.of_nat i) = v).
Proof.
  unfold init_stack. cbv zeta. set (p3 := pushes (replicate (length args - 4) 0) _).
  clearbody p3. destruct p3 as [M3 savargs]. simpl snd.
  pose proof (pushes_sp (replicate (Z.to_nat CONTEXT_WORDS) 0) M3 savargs) as Hs.
  rewrite length_replicate in Hs. destruct (pushes _ (M3, savargs)) as [M4 s4]. simpl in Hs.
  unfold CONTEXT_WORDS in *. intros [= <- <-].
  assert (Hl4 : (length (take 4 args) <= 4)%nat) by (rewrite length_take; lia).
  split_and!.
  - simpl. rewrite !ld_store_words. rewrite decide_False by lia. rewrite decide_False by lia.
    rewrite ld_st_ne, ld_st by lia. by rewrite decide_True by lia.
  - simpl. rewrite !ld_store_words. rewrite decide_False by lia. rewrite decide_False by lia.
    rewrite ld_st. by rewrite decide_True by lia.
  - intros i v Hi Ha. unfold ctx_load. cbn [r_low]. rewrite list_lookup_fmap.
    rewrite (lookup_seqZ_lt 0 13 i) by lia. simpl. f_equal.
    assert (Hlen : (i < length args)%nat) by (by eapply lookup_lt_Some).
    rewrite !ld_store_words. rewrite decide_False by lia.
    rewrite decide_True.
    + replace (s4 + 4 * (0 + Z.of_nat i) - s4) with (Z.of_nat i * 4) by lia.
      rewrite Z.div_mul, Nat2Z.id, lookup_take_lt, Ha by lia. done.
    + split; [rewrite length_take; lia|].
      replace (s4 + 4 * (0 + Z.of_nat i) - s4) with (Z.of_nat i * 4) by lia. by apply Z.mod_mul.
  - intros i v Ha. simpl r_sp. rewrite ld_store_words.
    assert (Hlen : (4 + i < length args)%nat) by (by eapply lookup_lt_Some).
    replace (s4 + 60 + 4 * Z.of_nat i - savargs) with (Z.of_nat i * 4) by lia.
    rewrite decide_True.
    + rewrite Z.div_mul, Nat2Z.id, lookup_drop, Ha by lia. done.
    + split; [rewrite length_drop; lia|]. by apply Z.mod_mul.
Qed.

End stack.

(** ** The context switch saves and restores the registers *)

Section ctxsw.

Lemma pushes_app vs1 vs2 p : pushes (vs1 ++ vs2) p = pushes vs2 (pushes vs1 p).
Proof. apply foldl_app. Qed.

Lemma ld_pushes_rev (l : list Z) : forall M sp w,
  ld (pushes (rev l) (M, sp)).1 w =
  ld (store_words M (sp - 4 * Z.of_nat (length l)) l) w.
Proof.
  induction l as [|v l IH]; intros M sp w; [done|]. simpl rev. rewrite pushes_app.
  change (pushes [v] (pushes (rev l) (M, sp))) with (push v (pushes (rev l) (M, sp))).
  unfold push. simpl fst. rewrite pushes_sp, length_rev. simpl store_words. simpl length.
  replace (sp - 4 * Z.of_nat (S (length l)) + 4) with (sp - 4 * Z.of_nat (length l)) by lia.
  replace (sp - 4 * Z.of_nat (length l) - 4) with (sp - 4 * Z.of_nat (S (length l))) by lia.
  rewrite ld_st, IH, !ld_store_words. destruct (decide (_ = w)) as [<-|Hne].
  - rewrite decide_False by lia. rewrite ld_st. by rewrite decide_True.
  - case_decide; [done|]. by rewrite ld_st_ne.
Qed.

Lemma ctx_roundtrip M r M' sp : length (r_low r) = 13%nat -> ctx_save M r = (M', sp) ->
  ctx_load M' sp = mkregs (r_low r) (r_sp r) (r_lr r) (r_lr r)
  /\ (forall w, r_sp r <= w -> ld M' w = ld M w).
Proof.
  intros Hlen Hsave. unfold ctx_save in Hsave. cbv zeta in Hsave.
  set (p := push (r_lr r) (push (r_lr r) (M, r_sp r))) in Hsave.
  assert (Hsp : sp = r_sp r - 60).
  { apply (f_equal snd) in Hsave. rewrite pushes_snd, length_rev, Hlen in Hsave. simpl in Hsave. lia. }
  assert (Hld : forall w, ld M' w = ld (store_words p.1 sp (r_low r)) w).
  { intros w. apply (f_equal fst) in Hsave. simpl in Hsave. rewrite <- Hsave.
    destruct p as [Mp sq] eqn:Ep. rewrite ld_pushes_rev. simpl fst. f_equal. f_equal.
    apply (f_equal snd) in Ep. simpl in Ep. rewrite Hlen. lia. }
  assert (Hhigh : forall w, sp + 52 <= w -> ld M' w = ld p.1 w).
  { intros w Hw. rewrite Hld, ld_store_words, decide_False; [done|]. rewrite Hlen. lia. }
  split.
  - unfold ctx_load. f_equal.
    + apply list_eq. intros i. rewrite list_lookup_fmap. destruct (decide (i < 13)%nat) as [Hi|Hi].
      * rewrite lookup_seqZ_lt by lia. simpl. rewrite Hld, ld_store_words, decide_True.
        -- replace (sp + 4 * (0 + Z.of_nat i) - sp) with (Z.of_nat i * 4) by lia.
           rewrite Z.div_mul, Nat2Z.id by lia.
           destruct (r_low r !! i) eqn:E; [done|]. apply lookup_ge_None in E. lia.
        -- split; [lia|]. replace (sp + 4 * (0 + Z.of_nat i) - sp) with (Z.of_nat i * 4) by lia.
           by apply Z.mod_mul.
      * rewrite lookup_seqZ_ge by lia. simpl. symmetry. apply lookup_ge_None. lia.
    + lia.
    + rewrite Hhigh by lia. unfold p, push. simpl. rewrite ld_st. by rewrite decide_True by lia.
    + rewrite Hhigh by lia. unfold p, push. simpl. rewrite ld_st_ne, ld_st by lia. by rewrite decide_True by lia.
  - intros w Hw. rewrite Hhigh by lia. unfold p, push. simpl. rewrite !ld_st_ne by lia. done.
Qed.

End ctxsw.

(** ** The heap and the stacks of the threads *)

(** A stack as a region of the heap. *)
Definition region (r : Z * Z) : Z * Z := (r.1 + 4 - roundmb r.2, roundmb r.2).

(** Every living thread but the null thread owns its stack; [other] are the
    regions in use for other purposes. *)
Definition stacks_ok (k : kernel) (l : list (Z * Z)) (tl : list (Z * (Z * Z))) (other : list (Z * Z)) : Prop :=
  owned (mem k) l ((snd <$> tl) ++ other) /\ NoDup (fst <$> tl)
  /\ (forall t r, (t, r) ∈ tl <-> exists e, thrtab k !! t = Some e /\ t <> NULLTHREAD
       /\ tstate e <> THRFREE /\ r = region (stack_of e))
  /\ (forall t e, thrtab k !! t = Some e -> t <> NULLTHREAD -> tstate e <> THRFREE ->
       0 < tstklen e /\ tstklen e + 7 < 2 ^ 32).

Definition heap_ok (k : kernel) : Prop := exists l tl other, stacks_ok k l tl other.

Lemma owned_write M l live r w v : owned M l live -> r ∈ live -> inside r w -> owned (st M w v) l live.
Proof.
  intros H Hr Hw. pose proof (ow_free _ _ _ H r w Hr Hw). destruct H as [H1 H2 H3 H4].
  split; try done. by apply heap_rep_write.
Qed.

Lemma owned_perm M l live live' : live ≡ₚ live' -> owned M l live -> owned M l live'.
Proof.
  intros Hp [H1 H2 H3 H4]. split; [done| | |].
  - intros a n. rewrite <- Hp. apply H2.
  - intros r w. rewrite <- Hp. apply H3.
  - intros i j r1 r2 Hij Hi Hj. symmetry in Hp. apply Permutation_inj in Hp as (Hlen & f & Hf & Hlk).
    rewrite Hlk in Hi, Hj. eapply H4; [|done..]. intros Heq. by apply Hij, (inj f).
Qed.

(** Only the memory and the identity of stacks matter. *)
Lemma stacks_ok_same k k' l tl other :
  stacks_ok k l tl other -> mem k' = mem k ->
  (forall t, match thrtab k !! t, thrtab k' !! t with
             | Some e, Some e' => (tstate e' = THRFREE <-> tstate e = THRFREE) /\ stack_of e' = stack_of e
             | None, None => True
             | _, _ => False
             end) -> stacks_ok k' l tl other.
Proof.
  intros (H1 & H2 & H3 & H4) Hm Ht. unfold stacks_ok. rewrite Hm. split_and!; [done..| |].
  - intros t r. rewrite H3. specialize (Ht t).
    split; intros (e & E & Hn & Hf & ->); rewrite E in Ht.
    + destruct (thrtab k' !! t) as [e'|]; [|done]. destruct Ht as [Hff Hst]. exists e'.
      split_and!; [done|done|by rewrite Hff|by rewrite Hst].
    + destruct (thrtab k !! t) as [e'|]; [|done]. destruct Ht as [Hff Hst]. exists e'.
      split_and!; [done|done|by rewrite <- Hff|by rewrite Hst].
  - intros t e' E' Hn Hf. specialize (Ht t). rewrite E' in Ht.
    destruct (thrtab k !! t) as [e|] eqn:E; [|done]. destruct Ht as [Hff [= _ ->]].
    eapply H4; [exact E|done|by rewrite <- Hff].
Qed.

(** ** [create] *)

Section create.
Context {G R : kernel -> kernel -> Prop}.
Implicit Types (k : kernel) (qs : gmap Z (list Z)).

Definition all_taken (k : kernel) (n : nat) : Prop :=
  forall i e, 1 <= i <= Z.of_nat n -> thrtab k !! ((nexttid k + i) mod NTHREAD) = Some e -> tstate e <> THRFREE.

Lemma kwp_thrnew_loop (Q : Z -> kernel -> kernel -> Prop) k0 n :
  forall k, (forall t, is_Some (thrtab k !! t) <-> valid_tid t) ->
  (forall x, all_taken k n -> Q SYSERR k0 (set_nexttid x k)) ->
  (forall t e, valid_tid t -> thrtab k !! t = Some e -> tstate e = THRFREE -> Q t k0 (set_nexttid t k)) ->
  kwp G R Q (thrnew_loop n) k0 k.
Proof.
  induction n as [|n IH]; intros k Hd HQ1 HQ2; cbn [thrnew_loop].
  { kstep. replace k with (set_nexttid (nexttid k) k) by (by destruct k). apply HQ1. intros i e Hi. lia. }
  pose proof (Z.mod_pos_bound (nexttid k + 1) NTHREAD ltac:(unfold NTHREAD; lia)) as Hb.
  set (nx := (nexttid k + 1) mod NTHREAD) in *. destruct (proj2 (Hd nx) Hb) as [e E].
  kstep. fold nx. kstep. kstep. case_decide as Hf; [kstep; by eapply HQ2|].
  eapply (IH (set_nexttid nx k)); [done| |].
  - intros x Hall. apply (HQ1 x). intros i e' Hi E'.
    destruct (decide (i = 1)) as [->|Hne]; [fold nx in E'; by simplify_eq|].
    apply (Hall (i - 1) e'); [lia|]. simpl. unfold nx. rewrite Z.add_mod_idemp_l by done.
    by replace (nexttid k + 1 + (i - 1)) with (nexttid k + i) by lia.
  - intros t et. apply (HQ2 t et).
Qed.

Lemma all_taken_full k t e : all_taken k (Z.to_nat NTHREAD) -> valid_tid t ->
  thrtab k !! t = Some e -> tstate e <> THRFREE.
Proof.
  intros H Hs E. set (d := (t - nexttid k - 1) mod NTHREAD).
  pose proof (Z.mod_pos_bound (t - nexttid k - 1) NTHREAD ltac:(unfold NTHREAD; lia)) as Hd.
  apply (H (d + 1) e); [fold d in Hd; unfold NTHREAD in *; lia|].
  replace ((nexttid k + (d + 1)) mod NTHREAD) with t; [done|].
  replace (nexttid k + (d + 1)) with (d + (nexttid k + 1)) by lia. unfold d.
  rewrite Z.add_mod_idemp_l by done.
  replace (t - nexttid k - 1 + (nexttid k + 1)) with t by lia. by rewrite Z.mod_small.
Qed.

(** The size [create] really allocates. *)
Definition stack_size (ssize : Z) : Z := if ssize <? MINSTK then MINSTK else ssize.

(** The entry of a thread that was just created. *)
Record created (e : thrent) (parent prio : Z) (name : list Z) : Prop := {
  cr_state : tstate e = THRSUSP;
  cr_prio : tprio e = prio;
  cr_parent : tparent e = parent;
  cr_msg : thasmsg e = false;
  cr_name : tname e = strncpy name TNMLEN;
  cr_mask : tintmask e = 0x10010;
}.

Lemma KInvq_same k k' qs : KInvq k qs ->
  quetab k' = quetab k -> thrtab k' = thrtab k -> semtab k' = semtab k ->
  readylist k' = readylist k -> sleepq k' = sleepq k -> thrcurrent k' = thrcurrent k ->
  resdefer k' = resdefer k -> irq k' = irq k -> KInvq k' qs.
Proof.
  intros [H1 H2 H3 [H4 H5]] E1 E2 E3 E4 E5 E6 E7 E8. unfold Kpl in *. split.
  - unfold Kpl. rewrite E1, E2, E3, E4, E5. done.
  - rewrite E2, E6. done.
  - unfold only_curr. rewrite E2, E6. done.
  - split; [rewrite E7|rewrite E8]; done.
Qed.

Lemma KInvq_new k qs t e e' : KInvq k qs -> thrtab k !! t = Some e -> tstate e = THRFREE ->
  tstate e' = THRSUSP -> MINKEY < tprio e' -> KInvq (set_thrtab (<[t := e']> (thrtab k)) k) qs.
Proof.
  intros [HP (ec & Ec & Hs) Ho Hctl] E Hf Hs' Hp. split; [| | |done].
  - assert (Hn : t <> NULLTHREAD).
    { intros ->. destruct (pl_null _ _ _ _ _ _ _ HP _ E) as [Hr|Hr]; done || congruence. }
    eapply Kpl_settle; [|apply lookup_insert_eq|unfold home; by rewrite Hs'|done].
    eapply Kpl_thr; [|done|by left|done]. eapply Kpl_exempt; [done..|]. unfold home. by rewrite Hf.
  - exists ec. simpl. rewrite lookup_insert_ne; [done|]. intros ->. congruence.
  - intros u eu Eu Hst. simpl in *. rewrite lookup_insert in Eu. case_decide; [congruence|]. by eapply Ho.
Qed.

Lemma kwp_create initret c (Q : Z -> kernel -> kernel -> Prop) k qs l tl other proc ssize prio name args :
  KInvq k qs -> thrcurrent k = c -> stacks_ok k l tl other -> MINKEY < prio ->
  0 <= ssize -> ssize + 7 < 2 ^ 32 -> frame_bytes (length args) + 4 <= roundmb (stack_size ssize) ->
  (forall k' l' other', KInvq k' qs -> thrcurrent k' = c -> mask k' = mask k -> thrtab k' = thrtab k ->
     stacks_ok k' l' tl other' -> Q SYSERR k k') ->
  (forall k' l' tid e e', KInvq k' qs -> thrcurrent k' = c -> mask k' = mask k ->
     thrtab k !! tid = Some e -> tstate e = THRFREE -> tid <> NULLTHREAD ->
     thrtab k' = <[tid := e']> (thrtab k) -> created e' c prio name ->
     r_pc (ctx_load (mem k') (tstkptr e')) = proc /\ r_lr (ctx_load (mem k') (tstkptr e')) = initret ->
     stacks_ok k' l' ((tid, region (stack_of e')) :: tl) other -> Q tid k k') ->
  kwp G R Q (create initret proc ssize prio name args) k k.
Proof.
  intros HI Hc (Hown & Hnd & Htl & Hlens) Hprio Hs0 Hs1 Hfr HQ1 HQ2. pose proof (ki_ctl _ _ HI) as [Hrd Hv].
  pose proof (ki_placed _ _ HI) as HP. unfold create. cbv zeta. fold (stack_size ssize).
  assert (Hsz : 0 < stack_size ssize /\ stack_size ssize + 7 < 2 ^ 32).
  { unfold stack_size, MINSTK. destruct (Z.ltb_spec ssize 128); lia. }
  kstep. destruct (step_stkget _ _ _ _ Hown (proj1 Hsz) (proj2 Hsz)) as (M' & a & l' & Eg & Hown' & _).
  eapply wp_lift; [simpl; rewrite Eg; reflexivity|]. cbv zeta in Hown'.
  set (k1 := set_mem M' _). apply (kwp_bind (G := G) (R := R)). unfold thrnew.
  eapply kwp_thrnew_loop.
  { apply (pl_thr _ _ _ _ _ _ _ HP). }
  - intros x _. rewrite orb_true_r. kstep. kstep.
    set (k2 := set_irq _ _).
    assert (HI2 : KInvq k2 qs).
    { apply (KInvq_same (set_irq (vic_set_irqmask (mask k) (vic_disable_interrupts (irq k))) k)); try done.
      apply KInvq_irq; [done|by apply vic_ok_set]. }
    assert (Hm : mask k2 = mask k) by (unfold mask; simpl; by apply mask_set).
    destruct (Z.eqb_spec a SYSERR).
    + eapply (HQ1 _ l' other); try done.
    + eapply (HQ1 _ l' ((a + 4 - roundmb (stack_size ssize), roundmb (stack_size ssize)) :: other)); try done.
      split_and!; try done. simpl. eapply owned_perm; [|exact Hown']. by rewrite Permutation_middle.
  - intros t e Hvt E Hf. simpl in E.
    assert (Hn : t <> NULLTHREAD).
    { intros ->. destruct (pl_null _ _ _ _ _ _ _ HP _ E) as [Hr|Hr]; done || congruence. }
    assert (Ht : (t =? SYSERR) = false).
    { apply Z.eqb_neq. unfold valid_tid, SYSERR in *. lia. }
    rewrite Ht, orb_false_r. destruct (Z.eqb_spec a SYSERR) as [->|Ha].
    { kstep. kstep. set (k2 := set_irq _ _). eapply (HQ1 k2 l' other); try done.
      - apply (KInvq_same (set_irq (vic_set_irqmask (mask k) (vic_disable_interrupts (irq k))) k)); try done.
        apply KInvq_irq; [done|by apply vic_ok_set].
      - unfold mask. simpl. by apply mask_set. }
    set (sz := stack_size ssize) in *.
    kstep. eapply kwp_upd_thr; [exact E|]. do 3 kstep. unfold gettid. kstep. do 5 kstep. simpl mem.
    simpl thrtab. rewrite !insert_insert_eq. simpl thrcurrent. rewrite Hc.
    destruct (init_stack M' a t sz proc initret args) as [M2 sp] eqn:Est. kstep.
    eapply kwp_upd_thr; [apply lookup_insert_eq|]. simpl thrtab. rewrite insert_insert_eq.
    kstep. kstep. set (e' := set_stack sp _ _ _). set (k2 := set_irq _ _).
    assert (Hown2 : owned M2 l' ((a + 4 - roundmb sz, roundmb sz) :: (snd <$> tl) ++ other)).
    { replace M2 with (init_stack M' a t sz proc initret args).1 by (by rewrite Est).
      apply (init_stack_inv (fun M => owned M l' ((a + 4 - roundmb sz, roundmb sz) :: (snd <$> tl) ++ other))
        (a + 4 - roundmb sz) (a + 4)); [|exact Hown'|lia|lia].
      intros M w v HM Hw. eapply owned_write; [exact HM|by left|]. unfold inside. simpl. lia. }
    eapply (HQ2 k2 l' t e e'); try done.
    + apply (KInvq_same (set_thrtab (<[t := e']> (thrtab k))
        (set_irq (vic_set_irqmask (mask k) (vic_disable_interrupts (irq k))) k))); try done.
      apply (KInvq_new (set_irq (vic_set_irqmask (mask k) (vic_disable_interrupts (irq k))) k) qs t e);
        try done. apply KInvq_irq; [done|by apply vic_ok_set].
    + unfold mask. simpl. by apply mask_set.
    + destruct (init_stack_context _ _ _ _ _ _ _ _ _ Est) as (P1 & P2 & _). done.
    + split_and!.
      * exact Hown2.
      * simpl. constructor; [|done]. intros Hin. apply list_elem_of_fmap in Hin as ([u r] & -> & Hin).
        apply Htl in Hin as (eu & Eu & _ & Hfu & _). simpl in *. congruence.
      * intros u r. rewrite elem_of_cons, Htl. simpl. split.
        -- intros [[= -> ->]|(eu & Eu & Hnu & Hfu & ->)].
           ++ exists e'. rewrite lookup_insert_eq. done.
           ++ exists eu. rewrite lookup_insert_ne; [done|]. intros ->. congruence.
        -- intros (eu & Eu & Hnu & Hfu & ->). rewrite lookup_insert in Eu. case_decide.
           ++ subst. simplify_eq. by left.
           ++ right. eauto.
      * intros u eu Eu Hnu Hfu. simpl in Eu. rewrite lookup_insert in Eu. case_decide; [|by eauto].
        injection Eu as <-. done.
Qed.

End create.

(** ** After initialisation the heap is whole *)

Lemma boot_stacks k k0 : fresh k -> mem k = mem (init_memory k0) ->
  0 < memheap (mem k0) -> memheap (mem k0) + 7 < 2 ^ 32 -> 0 <= maxaddr (mem k0) < 2 ^ 32 ->
  memheap (mem k0) + 16 < maxaddr (mem k0) ->
  stacks_ok k [(memheap (mem k), maxaddr (mem k) - memheap (mem k))] [] [].
Proof.
  intros Hf Hm H1 H2 H3 H4. destruct (init_memory_heap k0 H1 H2 H3 H4) as [Hr _]. rewrite <- Hm in Hr.
  split_and!; [|constructor|..].
  - split; [exact Hr|..].
    + intros a n Hin. simpl in Hin. set_solver.
    + intros r w Hin. simpl in Hin. set_solver.
    + intros i j r1 r2 _ Hi. simpl in Hi. by rewrite lookup_nil in Hi.
  - intros t r. split; [set_solver|]. intros (e & E & Hn & Hs & _).
    by destruct Hs; eapply fr_thr.
  - intros t e E Hn Hs. by destruct Hs; eapply fr_thr.
Qed.
