(* ===== verification/KillSpec.v ===== *)
(** * Termination of threads: [kill] by a thread of itself, and of another one *)

From S2P Require Import Prelude Prog Queue QueueSpec QueueSys Interrupt Memory MemorySpec HeapClient Kernel Thread Semaphore Clock Message Lifecycle Placement Invariant Sched ThreadSpec SemaphoreSpec ClockSpec MessageSpec BootSpec LifecycleSpec.

(** The other threads evolved. *)
Definition bystanders (c : Z) (k0 k : kernel) : Prop :=
  forall u e, u <> c -> thrtab k0 !! u = Some e -> exists e', thrtab k !! u = Some e' /\ evolves e e'.

(** While [c] lives the heap is left alone; once it is free, exactly its stack was given back. *)
Definition stack_returned (c : Z) (k0 k : kernel) : Prop :=
  forall e0 e, thrtab k0 !! c = Some e0 -> thrtab k !! c = Some e ->
    if decide (tstate e = THRFREE) then gives_back (mem k0) (mem k) (region (stack_of e0)) else mem k = mem k0.

(** Rely and guarantee with the heap. *)
Definition Gk (c : Z) (k0 k : kernel) : Prop := KInv k /\ heap_ok k /\ bystanders c k0 k /\ stack_returned c k0 k.
Definition Rk (c : Z) (k k' : kernel) : Prop := Rl c k k' /\ heap_ok k'.

Section heap.
Implicit Types (k : kernel) (qs : gmap Z (list Z)).

Lemma bystanders_trans c k1 k2 k3 : bystanders c k1 k2 -> bystanders c k2 k3 -> bystanders c k1 k3.
Proof.
  intros H1 H2 u e Hu E. destruct (H1 _ _ Hu E) as (e2 & E2 & V2).
  destruct (H2 _ _ Hu E2) as (e3 & E3 & V3). exists e3. split; [done|]. by etransitivity.
Qed.

(** The system calls that leave the heap alone keep the stacks. *)
Lemma others_stacks c k0 k l tl other e0 e :
  stacks_ok k0 l tl other -> others c k0 k -> thrtab k0 !! c = Some e0 -> thrtab k !! c = Some e ->
  (tstate e0 = THRFREE -> tstate e = THRFREE) -> stacks_ok k l tl other.
Proof.
  intros Hs (O1 & O2 & O3 & O4) E0 E Hf. eapply stacks_ok_same; [exact Hs|done|].
  intros t. destruct (decide (t = c)) as [->|Ht].
  - rewrite E0, E. destruct (O3 _ _ E0 E). split; [split; auto|done].
  - destruct (thrtab k0 !! t) as [et|] eqn:Et.
    + destruct (O1 _ _ Ht Et) as (e' & -> & [_ _ _ V4 V5]). done.
    + destruct (thrtab k !! t) eqn:Et'; [|done]. destruct (O2 t) as [? ?]; [eauto|congruence].
Qed.

Lemma others_heap c k0 k : KInv k0 -> thrcurrent k0 = c -> heap_ok k0 -> others c k0 k -> KInv k ->
  heap_ok k.
Proof.
  intros [qs0 HI0] <- (l & tl & other & Hs) Ho [qs HI].
  destruct (ki_curr _ _ HI0) as (e0 & E0 & Hc).
  destruct (Kpl_entry _ _ _ (thrcurrent k0) (ki_placed _ _ HI)) as [e E];
    [exact (Kpl_valid _ _ _ _ _ (ki_placed _ _ HI0) E0)|].
  exists l, tl, other. eapply others_stacks; [done..|]. congruence.
Qed.

(** Giving back the stack of a thread that is about to be free. *)
Lemma stkfree_stacks k l tl other t e :
  stacks_ok k l tl other -> thrtab k !! t = Some e -> t <> NULLTHREAD -> tstate e <> THRFREE ->
  exists M' l' tl', stkfree (mem k) (tstkbase e) (tstklen e) = Some (M', OK)
    /\ gives_back (mem k) M' (region (stack_of e))
    /\ forall k' e', thrtab k' = <[t := e']> (thrtab k) -> mem k' = M' -> tstate e' = THRFREE ->
         stacks_ok k' l' tl' other.
Proof.
  intros (H1 & H2 & H3 & H4) E Hn Hf. destruct (H4 _ _ E Hn Hf) as [Hl1 Hl2].
  assert (Hin : (t, region (stack_of e)) ∈ tl) by (apply H3; eauto).
  apply list_elem_of_split in Hin as (tl1 & tl2 & ->).
  rewrite fmap_app, fmap_cons, <- app_assoc in H1. simpl in H1.
  destruct (step_stkfree _ _ _ _ (tstklen e) _ H1 Hl1 Hl2) as (M' & l' & Ef & Hown & _).
  exists M', l', (tl1 ++ tl2). split; [rewrite <- Ef; f_equal; simpl; lia|].
  split; [exact (stkfree_gives_back _ _ _ _ _ _ _ H1 Hl1 Hl2 Ef)|]. intros k' e' Et Em Hfe.
  rewrite fmap_app, fmap_cons in H2. simpl in H2.
  assert (Hnt : forall r, (t, r) ∉ tl1 ++ tl2).
  { intros r Hr. apply NoDup_app in H2 as (_ & Hd & Hc). apply NoDup_cons in Hc as [Hc _].
    apply elem_of_app in Hr as [Hr|Hr].
    - apply (Hd t); [|left]. apply list_elem_of_fmap. by exists (t, r).
    - apply Hc. apply list_elem_of_fmap. by exists (t, r). }
  split_and!.
  - rewrite Em, fmap_app, <- app_assoc. exact Hown.
  - rewrite fmap_app. by eapply NoDup_remove_mid.
  - intros u r. rewrite Et, lookup_insert. case_decide as Hu.
    + subst u. split; [by intros ?%Hnt|]. intros (e0 & [= <-] & _ & Hx & _). done.
    + rewrite <- H3. clear -Hu. set_solver.
  - intros u eu. rewrite Et, lookup_insert. case_decide; [by intros [= <-]|]. apply H4.
Qed.

End heap.

(** ** [send] whatever the receiver *)

Section send.
Context {G R : kernel -> kernel -> Prop}.
Implicit Types (k : kernel) (qs : gmap Z (list Z)).

Lemma kwp_send_any c (Q : Z -> kernel -> kernel -> Prop) k0 k qs tid msg :
  (forall s s', R s s' -> Rl c s s') -> KInvq k qs -> thrcurrent k = c -> others c k0 k ->
  (forall k' qs', KInvq k' qs' -> others c k0 k' -> G k0 k') ->
  (forall r k' qs', sysret c (mask k) k0 k' qs' -> Q r k0 k') ->
  (forall r k0' k' qs', (exists s, R s k0') -> sysret c (mask k) k0' k' qs' -> Q r k0' k') ->
  kwp G R Q (send tid msg) k0 k.
Proof.
  intros HR HI Hc Ho HG HQ1 HQ2. pose proof (ki_ctl _ _ HI) as [_ Hv].
  assert (Herr : kwp G R Q (k_restore (mask k);; mret SYSERR) k0 (set_irq (vic_disable_interrupts (irq k)) k)).
  { eapply (kwp_exit _ _ _ _ qs _ (irq k)); [by apply KInvq_irq|done|done|done|done|by eauto]. }
  destruct (isbadtid k tid) eqn:Hb.
  { unfold send. kstep. kstep. change (isbadtid _ tid) with (isbadtid k tid). by rewrite Hb. }
  destruct (KInv_entry k qs tid HI Hb) as (e & E & Hnf & _). destruct (thasmsg e) eqn:Hm.
  { unfold send. kstep. kstep. change (isbadtid _ tid) with (isbadtid k tid).
    rewrite Hb. kstep. by rewrite decide_True by (by right). }
  eapply (kwp_send _ _ k0 k qs); eauto.
Qed.

End send.

(** ** A thread ends itself *)

Section self.
Implicit Types (k : kernel) (qs : gmap Z (list Z)).

(** The processor is given away in a state from which the thread is never resumed. *)
Lemma wp_leave {A} (G' G R : kernel -> kernel -> Prop) (p : prog kernel A) k0 k1 k :
  (forall k', G' k1 k' -> G k0 k' /\ forall k2, ~ R k' k2) ->
  kwp G' R (fun _ _ _ => False) p k1 k -> kwp G R (fun _ _ _ => False) p k0 k.
Proof.
  intros HG. unfold kwp. revert k. induction p as [a| | |f IH|s1 p IH|p IH]; intros k; simpl; auto.
  intros [H _]. destruct (HG _ H) as [H1 H2]. split; [done|]. intros k2 HR. by destruct (H2 k2).
Qed.

(** The processor is given away for good: a free thread is never resumed. *)
Lemma kwp_last_resched {A} c (g : Z -> prog kernel A) k0 k qs e :
  KPre k qs -> thrcurrent k = c -> heap_ok k -> bystanders c k0 k ->
  thrtab k !! c = Some e -> tstate e = THRFREE ->
  (forall e0, thrtab k0 !! c = Some e0 -> gives_back (mem k0) (mem k) (region (stack_of e0))) ->
  kwp (Gk c) (Rk c) (fun _ _ _ => False) (resched ≫= g) k0 k.
Proof.
  intros HK Hc (l & tl & other & Hst) Hby E Hf Hgb.
  apply (wp_leave (fun _ k' => KInv k' /\ heap_ok k' /\ bystanders c k k' /\ mem k' = mem k
    /\ exists e', thrtab k' !! c = Some e' /\ tstate e' = THRFREE) _ _ _ k0 k).
  { intros k' (G1 & G2 & G3 & Hm & e' & E' & Hf'). split.
    - split_and!; [done..|by eapply bystanders_trans|]. intros e0 e1 E0 E1. simplify_eq.
      rewrite decide_True by done. rewrite Hm. by apply Hgb.
    - intros k2 [([qs2 HI2] & Hc2 & e1 & e2 & E1 & E2 & Hev) _]. simplify_eq.
      destruct (ki_curr _ _ HI2) as (e3 & E3 & Hs3). pose proof (proj2 (ev_free _ _ Hev) Hf'). congruence. }
  apply kwp_bind. eapply (kwp_resched c _ k k qs e); try done.
  - by intros s s' [? _].
  - by apply others_eq.
  - intros k' qs' HI' Hsw Hne Ho. destruct (sw_old _ _ _ _ _ Hsw) as (e1 & e' & E1 & E' & Hst' & _). simplify_eq.
    assert (Hf' : tstate e' = THRFREE) by (rewrite Hst'; [done|congruence|done]).
    split_and!; [by exists qs'| |exact (proj1 Ho)|exact (proj2 (proj2 (proj2 Ho)))|by exists e'].
    exists l, tl, other. eapply others_stacks; [exact Hst|exact Ho|exact E|exact E'|done].
  - by intros k' qs' e' _ _ _ _ _ _ (_ & _ & []).
  - by intros k0' k' e' _ _ _ _ _ _ _ (_ & _ & []).
Qed.

Lemma kwp_kill_self c k qs : KInvq k qs -> thrcurrent k = c -> c <> NULLTHREAD -> heap_ok k ->
  kwp (Gk c) (Rk c) (fun _ _ _ => False) (kill c) k k.
Proof.
  intros HI Hc Hn Hh. pose proof (ki_ctl _ _ HI) as [_ Hv]. destruct (ki_curr _ _ HI) as (e & E & Hs).
  rewrite Hc in E. pose proof (Kpl_valid _ _ _ _ _ (ki_placed _ _ HI) E) as Hvc.
  unfold kill. kstep. kstep. change (isbadtid _ c) with (isbadtid k c).
  rewrite (isbadtid_false k c e E Hvc) by congruence.
  destruct (Z.eqb_spec c NULLTHREAD); [done|]. simpl orb. cbv iota. kstep. kstep. apply kwp_bind.
  destruct (_ <=? 1); [by unfold xdone; kstep|]. kstep.
  set (k1 := set_thrcount _ _). eapply kwp_thr; [exact E|].
  assert (HI1 : KInvq k1 qs).
  { apply (KInvq_same (set_irq (vic_disable_interrupts (irq k)) k)); try done. by apply KInvq_irq. }
  assert (Hend : forall k0' k' qs', KInvq k' qs' -> thrcurrent k' = c -> heap_ok k' -> others c k0' k' ->
    kwp (Gk c) (Rk c) (fun _ _ _ => False) (thrptr ← thr c;
    k_stkfree (tstkbase thrptr) (tstklen thrptr);;
    thrptr ← thr c;
    match tstate thrptr with
    | THRSLEEP => upd_thr c (set_state THRFREE);; unsleep c;; mret tt
    | THRCURR =>
        upd_thr c (set_state THRFREE);;
        resched;;
        thrptr ← thr c;
        upd_sem (tsem thrptr) (fun e => set_scount (i32 (scount e + 1)) e);;
        k_getitem c;;
        upd_thr c (set_state THRFREE)
    | THRWAIT =>
        upd_sem (tsem thrptr) (fun e => set_scount (i32 (scount e + 1)) e);;
        k_getitem c;;
        upd_thr c (set_state THRFREE)
    | THRREADY =>
        k_getitem c;;
        upd_thr c (set_state THRFREE)
    | THRFREE | THRRECV | THRSUSP | THRTMOUT => upd_thr c (set_state THRFREE)
    end;;
    k_restore (mask k);;
    mret OK) k0' k').
  { intros k0' k' qs' HI' Hc' (l & tl & other & Hst) (Hby & _ & Hstk & Hmem).
    destruct (ki_curr _ _ HI') as (e1 & E1 & Hs1). rewrite Hc' in E1.
    pose proof (ki_placed _ _ HI') as HP.
    destruct (stkfree_stacks _ _ _ _ c e1 Hst E1 Hn ltac:(congruence)) as (M' & l' & tl' & Ef & Hgb & Hst').
    eapply kwp_thr; [exact E1|]. eapply wp_lift; [simpl; rewrite Ef; reflexivity|].
    eapply kwp_thr; [exact E1|]. rewrite Hs1. apply kwp_bind. eapply kwp_upd_thr; [exact E1|].
    eapply (kwp_mono _ (fun _ _ _ => False)); [|done].
    eapply (kwp_last_resched c _ _ _ qs'); [|done| | |apply lookup_insert_eq|done|].
    - rewrite <- Hc'. apply (KPre_block (set_mem M' k') qs' e1); try done; simpl; try congruence.
      + eapply KInvq_same; [exact HI'|done..].
      + by apply (Kpl_prio _ _ _ _ _ HP E1).
    - exists l', tl', other. by apply (Hst' _ (set_state THRFREE e1)).
    - eapply bystanders_trans; [exact Hby|]. intros u eu Hu Eu. exists eu. simpl.
      by rewrite lookup_insert_ne.
    - intros e0 E0. destruct (Hstk _ _ E0 E1) as [<- _]. rewrite <- Hmem. exact Hgb. }
  apply kwp_bind. eapply (kwp_send_any c _ _ k1 qs); [by intros s s' [? _]|done|done|by apply others_eq|..].
  - intros k' qs' HI' Ho. split_and!; [by exists qs'| |exact (proj1 Ho)|].
    + eapply (others_heap c k); [by exists qs|done|done|done|by exists qs'].
    + destruct Ho as (_ & _ & O3 & O4). intros e0 e1 E0 E1. case_decide as Hf; [|done].
      destruct (O3 _ _ E0 E1) as [_ Hfr]. specialize (Hfr Hf). simplify_eq. congruence.
  - intros r k' qs' [S1 S2 S3 S4]. eapply Hend; [done|done| |exact S4].
    eapply (others_heap c k); [by exists qs|done|done|done|by exists qs'].
  - intros r k0' k' qs' (s & [[R1 [R2 _]] R3]) [S1 S2 S3 S4]. eapply Hend; [done|done| |exact S4].
    eapply (others_heap c k0'); [done|done|done|done|by exists qs'].
Qed.

End self.

(** ** Another thread is ended *)

(** A message to [p] readies no thread. *)
Definition quiet (k : kernel) (p : Z) : Prop :=
  forall e, thrtab k !! p = Some e -> thasmsg e = true \/ tstate e <> THRRECV /\ tstate e <> THRTMOUT.

(** Entries that differ by messages only. *)
Definition remsg (e e' : thrent) : Prop :=
  tstate e' = tstate e /\ tsem e' = tsem e /\ tparent e' = tparent e /\ evolves e e'.

Section other.
Context {G R : kernel -> kernel -> Prop}.
Implicit Types (k : kernel) (qs : gmap Z (list Z)).

Lemma remsg_refl e : remsg e e.
Proof. by split_and!. Qed.

Lemma kwp_send_quiet {A} (Q : A -> kernel -> kernel -> Prop) (g : prog kernel A) k0 k qs p msg :
  KInvq k qs -> quiet k p ->
  (forall thr' v, let k' := set_irq v (set_thrtab thr' k) in
     KInvq k' qs -> vic_get_irqmask v = mask k ->
     (forall u e, thrtab k !! u = Some e -> exists e', thr' !! u = Some e' /\ remsg e e') ->
     kwp G R Q g k0 k') ->
  kwp G R Q (send p msg;; g) k0 k.
Proof.
  intros HI Hq Hg. pose proof (ki_ctl _ _ HI) as [_ Hv].
  assert (Hback : forall k1 thr', KInvq k1 qs ->
    k1 = set_irq (vic_disable_interrupts (irq k)) (set_thrtab thr' k) ->
    (forall u e, thrtab k !! u = Some e -> exists e', thr' !! u = Some e' /\ remsg e e') ->
    forall r : Z, kwp G R (fun _ => kwp G R Q g) (k_restore (mask k);; mret r) k0 k1).
  { intros k1 thr' HI1 -> Hu r. kstep. kstep.
    apply (Hg thr' (vic_set_irqmask (mask k) (vic_disable_interrupts (irq k)))); [|by apply mask_set|done].
    apply (KInvq_irq _ _ _ HI1). by apply vic_ok_set. }
  assert (Hsame : forall r : Z, kwp G R (fun _ => kwp G R Q g) (k_restore (mask k);; mret r) k0
    (set_irq (vic_disable_interrupts (irq k)) k)).
  { apply (Hback _ (thrtab k)); [by apply KInvq_irq|by destruct k|].
    intros u e E. exists e. split; [done|apply remsg_refl]. }
  apply kwp_bind. unfold send. kstep. kstep. change (isbadtid _ p) with (isbadtid k p).
  destruct (isbadtid k p) eqn:Hb; [apply Hsame|].
  destruct (KInv_entry k qs p HI Hb) as (e & E & Hnf & _). kstep.
  case_decide as Hd; [apply Hsame|]. kstep. kstep. simpl thrtab. rewrite insert_insert_eq.
  destruct (Hq _ E) as [Hm|[H1 H2]]; [by destruct Hd; right|].
  rewrite decide_False, decide_False by done. kstep. kstep.
  set (e1 := set_hasmsg true (set_msg msg e)).
  apply (Hback _ (<[p := e1]> (thrtab k))).
  - apply (KInvq_thr (set_irq (vic_disable_interrupts (irq k)) k) _ _ e); try done; [by apply KInvq_irq|].
    exact (Kpl_prio _ _ _ _ _ (ki_placed _ _ HI) E).
  - done.
  - intros u eu Eu. rewrite lookup_insert. case_decide; [subst|by exists eu; split; [|apply remsg_refl]].
    simplify_eq. exists e1. split; [done|]. split_and!; try done. split; simpl; try done.
    intros Hm. by destruct Hd; right.
Qed.

(** A waiting thread leaves the queue of its semaphore, wherever it is in it. *)
Lemma sem_leave k qs t et :
  Kpl None k qs -> thrtab k !! t = Some et -> tstate et = THRWAIT ->
  exists e tab' qs', semtab k !! tsem et = Some e /\ scount e < 0
    /\ getitem (quetab k) t = Some (tab', t)
    /\ Kpl (Some t) (set_quetab tab' (set_semtab (<[tsem et := set_scount (i32 (scount e + 1)) e]> (semtab k)) k)) qs'.
Proof.
  intros H Et Hst.
  destruct (pl_out _ _ _ _ _ _ _ H t et _ Et ltac:(done) ltac:(unfold home; by rewrite Hst)) as (l & El & Hin).
  destruct (semtab k !! tsem et) as [e|] eqn:E; simpl in El; [|by destruct (queue_id _ _ _ _ _ H El)].
  destruct (sem_queue _ _ _ _ _ H E) as (l0 & El0 & Hlen & Hfree & Hi).
  rewrite El in El0. injection El0 as <-. apply list_elem_of_split in Hin as (l1 & l2 & ->).
  rewrite length_app in Hlen. simpl in Hlen.
  destruct (qs_getitem _ _ _ _ _ _ (pl_rep _ _ _ _ _ _ _ H) El) as (tab' & Eg & Hrep & Hk).
  exists e, tab', (<[squeue e := l1 ++ l2]> qs). split_and!; [done|lia|done|].
  pose proof (queue_nodup _ _ _ _ _ H El) as Hnd.
  rewrite i32_id by (unfold is_i32 in *; lia).
  eapply (placed_take _ _ _ _ (l1 ++ t :: l2)); [exact H| |set_solver|].
  - split; try done.
    + clear. set_solver.
    + intros i Hi'. apply (samekeys_kk _ _ _ Hk).
    + intros s'. by eapply sems_dom_insert.
    + eapply sems_upd_insert; [exact H|done|done|].
      split_and!; simpl; [rewrite length_app; lia| |unfold is_i32 in *; lia].
      intros Hf. apply Hfree in Hf. lia.
    + intros Heq. by destruct (Kpl_rl_sems _ _ _ _ _ H E).
    + intros Heq. by destruct (Kpl_sq_sems _ _ _ _ _ H E).
  - apply NoDup_app in Hnd as (_ & Hn1 & Hn2). apply NoDup_cons in Hn2 as [Hn2 _].
    rewrite elem_of_app. intros [?|?]; [|done]. by apply (Hn1 t); [|left].
Qed.

(** A thread that is in no queue becomes free while another one runs. *)
Lemma KInvq_free k0 k qs0 qs t e :
  KInvq k0 qs0 -> thrtab k = thrtab k0 -> thrcurrent k = thrcurrent k0 -> ctl k ->
  Kpl (Some t) k qs -> thrtab k !! t = Some e -> t <> thrcurrent k -> t <> NULLTHREAD ->
  KInvq (set_thrtab (<[t := set_state THRFREE e]> (thrtab k)) k) qs.
Proof.
  intros HI Et Ec Hctl HP E Hc Hn. destruct (ki_curr _ _ HI) as (ec & Ecc & Hs). split.
  - eapply Kpl_settle; [|apply lookup_insert_eq|done|done].
    eapply Kpl_thr; [done|done|by left|]. by apply (Kpl_prio _ _ _ _ _ HP E).
  - exists ec. simpl. rewrite lookup_insert_ne by done. by rewrite Et, Ec.
  - intros u eu Eu Hst. simpl in *. rewrite lookup_insert in Eu. case_decide; [by simplify_eq|].
    rewrite Et in Eu. rewrite Ec. by apply (ki_only _ _ HI _ _ Eu).
  - done.
Qed.

(** The states in which [kill] finds a thread whose queue it puts right. *)
Definition killable (st : thrstate) : bool :=
  match st with THRREADY | THRWAIT | THRSUSP | THRRECV => true | _ => false end.

(** What [kill] leaves of the semaphore the thread waited for. *)
Definition unwaited (k : kernel) (e : thrent) : gmap Z sement :=
  match tstate e, semtab k !! tsem e with
  | THRWAIT, Some s => <[tsem e := set_scount (scount s + 1) s]> (semtab k)
  | _, _ => semtab k
  end.

Lemma kwp_kill_other (Q : Z -> kernel -> kernel -> Prop) k qs tid e :
  KInvq k qs -> heap_ok k -> thrtab k !! tid = Some e -> tid <> thrcurrent k -> tid <> NULLTHREAD ->
  killable (tstate e) = true -> quiet k (tparent e) ->
  (forall k', KInv k' -> heap_ok k' -> mask k' = mask k -> thrcurrent k' = thrcurrent k ->
     (exists e', thrtab k' !! tid = Some e' /\ tstate e' = THRFREE) ->
     (forall u eu, u <> tid -> thrtab k !! u = Some eu ->
        exists eu', thrtab k' !! u = Some eu' /\ remsg eu eu') ->
     semtab k' = unwaited k e -> gives_back (mem k) (mem k') (region (stack_of e)) -> Q OK k k') ->
  kwp G R Q (kill tid) k k.
Proof.
  intros HI (l & tl & other & Hst) E Hne Hn Hkl Hq HQ. pose proof (ki_ctl _ _ HI) as [Hrd Hv].
  pose proof (Kpl_valid _ _ _ _ _ (ki_placed _ _ HI) E) as Hvt.
  assert (Hnf : tstate e <> THRFREE) by (intros Hf; by rewrite Hf in Hkl).
  unfold kill. kstep. kstep. change (isbadtid _ tid) with (isbadtid k tid).
  rewrite (isbadtid_false k tid e E Hvt Hnf).
  destruct (Z.eqb_spec tid NULLTHREAD); [done|]. simpl orb. cbv iota. kstep. kstep. apply kwp_bind.
  destruct (_ <=? 1); [by unfold xdone; kstep|]. kstep.
  set (k1 := set_thrcount _ _). eapply kwp_thr; [exact E|].
  assert (HI1 : KInvq k1 qs).
  { apply (KInvq_same (set_irq (vic_disable_interrupts (irq k)) k)); try done. by apply KInvq_irq. }
  eapply (kwp_send_quiet _ _ _ k1 qs); [done|done|]. intros thr' v k2 HI2 Hm2 Hu.
  destruct (Hu _ _ E) as (e2 & E2 & Hs2 & Hsem2 & _ & Hev2).
  assert (Hst2 : stacks_ok k2 l tl other).
  { eapply stacks_ok_same; [exact Hst|done|]. intros u. simpl. destruct (thrtab k !! u) as [eu|] eqn:Eu.
    - destruct (Hu _ _ Eu) as (eu' & -> & _ & _ & _ & [_ _ _ V4 V5]). done.
    - destruct (thr' !! u) as [eu'|] eqn:Eu'; [|done].
      pose proof (Kpl_valid _ _ _ _ _ (ki_placed _ _ HI2) Eu') as Hvu.
      destruct (Kpl_entry _ _ _ _ (ki_placed _ _ HI) Hvu). congruence. }
  destruct (stkfree_stacks _ _ _ _ tid e2 Hst2 E2 Hn ltac:(congruence)) as (M' & l' & tl' & Ef & Hgb & Hst').
  eapply kwp_thr; [exact E2|]. eapply wp_lift; [simpl mem in *; rewrite Ef; reflexivity|].
  eapply kwp_thr; [exact E2|]. set (k3 := set_mem M' k2).
  assert (HI3 : KInvq k3 qs) by (eapply KInvq_same; [exact HI2|done..]).
  pose proof (ki_placed _ _ HI3) as HP3. pose proof (ki_ctl _ _ HI2) as [Hrd2 Hv2].
  assert (Hfin : forall tab' sems' qs', let k4 := set_quetab tab' (set_semtab sems' k3) in
    Kpl (Some tid) k4 qs' -> sems' = unwaited k e ->
    kwp G R (fun _ => kwp G R Q (k_restore (mask k);; mret OK)) (upd_thr tid (set_state THRFREE)) k k4).
  { intros tab' sems' qs' k4 HK4 Hsems. eapply kwp_upd_thr_end; [exact E2|]. kstep. kstep.
    set (k5 := set_thrtab _ k4).
    assert (HI5 : KInvq k5 qs') by (apply (KInvq_free k3 k4 qs); done).
    apply HQ.
    - exists qs'. apply (KInvq_irq k5); [done|]. apply vic_ok_set. exact Hv2.
    - exists l', tl', other. by apply (Hst' _ (set_state THRFREE e2)).
    - unfold mask at 1. simpl. by apply mask_set.
    - done.
    - exists (set_state THRFREE e2). split; [apply lookup_insert_eq|done].
    - intros u eu Hut Eu. destruct (Hu _ _ Eu) as (eu' & Eu' & Hr). exists eu'. simpl.
      by rewrite lookup_insert_ne.
    - exact Hsems.
    - rewrite <- (ev_stack _ _ Hev2). exact Hgb. }
  assert (Hhere : home (semtab k3) (readylist k3) (sleepq k3) e2 = None ->
    semtab k = unwaited k e ->
    kwp G R (fun _ => kwp G R Q (k_restore (mask k);; mret OK)) (upd_thr tid (set_state THRFREE)) k k3).
  { intros Hh Hs. pose proof (Hfin (quetab k3) (semtab k3) qs) as H. simpl in H.
    apply H; [|done]. eapply (Kpl_exempt k3); [exact HP3|exact E2|exact Hh]. }
  rewrite Hs2. unfold unwaited in *.
  destruct (tstate e) eqn:Hse; try done; apply kwp_bind.
  - destruct (pl_out _ _ _ _ _ _ _ HP3 tid e2 (readylist k3) E2) as (lr & El & Hin);
      [done|unfold home; by rewrite Hs2|].
    apply list_elem_of_split in Hin as (l1 & l2 & ->).
    destruct (qs_getitem _ _ _ _ _ _ (pl_rep _ _ _ _ _ _ _ HP3) El) as (tab' & Eg & Hrep & Hk).
    eapply kwp_qcall; [exact Eg|]. eapply (Hfin tab' (semtab k3)); [|done].
    exact (ready_moved _ _ _ _ _ _ HP3 El Hrep Hk).
  - apply Hhere; [unfold home; by rewrite Hs2|done].
  - apply Hhere; [unfold home; by rewrite Hs2|done].
  - destruct (sem_leave _ _ _ _ HP3 E2 Hs2) as (es & tab' & qs' & Es & Hneg & Eg & HK).
    rewrite Hsem2 in *. change (semtab k3) with (semtab k) in Es.
    eapply kwp_upd_sem; [exact Es|]. eapply kwp_qcall; [exact Eg|].
    eapply Hfin; [exact HK|]. simpl. rewrite Es. rewrite i32_id; [done|].
    destruct (sem_queue _ _ _ _ _ (ki_placed _ _ HI) Es) as (_ & _ & _ & _ & Hi). unfold is_i32 in *. lia.
Qed.

End other.
