(* ===== verification/System.v ===== *)
(** * The whole kernel as a machine

    Threads run one at a time and only lose the processor inside a system call
    or the clock interrupt.  A state is the kernel with, for every thread that
    was switched out, the rest of the system call it is in; between two system
    calls the current thread may make any call whose arguments are in range. *)

From S2P Require Import Prelude Prog Queue QueueSpec QueueSys Interrupt Memory MemorySpec HeapClient Kernel Thread Semaphore Clock Message Lifecycle NoHalt Placement Invariant Sched ThreadSpec SemaphoreSpec ClockSpec MessageSpec BootSpec LifecycleSpec KillSpec.

(** ** System calls *)

Inductive call : Type :=
| CYield | CSuspend (t : Z) | CResume (t : Z) | CChprio (t prio : Z) | CGetprio (t : Z)
| CWait (s : Z) | CSignal (s : Z) | CSignaln (s n : Z)
| CSemcreate (n : Z) | CSemfree (s : Z) | CSemcount (s : Z)
| CSleep (ms : Z) | CTick
| CSend (t msg : Z) | CReceive | CRecvclr | CRecvtime (n : Z)
| CCreate (proc ssize prio : Z) (name args : list Z) | CKill (t : Z).

Section machine.
(** [platform.clkfreq] and the address of [userret] *)
Context (clkfreq initret : Z).

Definition exec (c : call) : prog kernel unit :=
  match c with
  | CYield => yield;; mret tt
  | CSuspend t => suspend t;; mret tt
  | CResume t => resume t;; mret tt
  | CChprio t p => chprio t p;; mret tt
  | CGetprio t => getprio t;; mret tt
  | CWait s => wait s;; mret tt
  | CSignal s => signal s;; mret tt
  | CSignaln s n => signaln s n;; mret tt
  | CSemcreate n => semcreate n;; mret tt
  | CSemfree s => semfree s;; mret tt
  | CSemcount s => semcount s;; mret tt
  | CSleep ms => sleep ms;; mret tt
  | CTick => clkhandler clkfreq
  | CSend t m => send t m;; mret tt
  | CReceive => receive;; mret tt
  | CRecvclr => recvclr;; mret tt
  | CRecvtime n => recvtime n;; mret tt
  | CCreate proc ssize prio name args => create initret proc ssize prio name args;; mret tt
  | CKill t => kill t;; mret tt
  end.

(** The calls a thread may make: the null thread never blocks, counts and
    priorities stay within an [int], stacks hold their initial frame, and a
    thread ends another one only where [kill] puts its queue right. *)
Definition allowed (k : kernel) (c : call) : Prop :=
  match c with
  | CYield | CSuspend _ | CResume _ | CGetprio _ | CSend _ _ | CRecvclr => True
  | CChprio _ p => MINKEY < p
  | CWait s => 0 <= s /\ thrcurrent k <> NULLTHREAD
  | CSignal s => 0 <= s /\ forall e, semtab k !! s = Some e -> scount e < 2 ^ 31 - 1
  | CSignaln s n => 0 <= s /\ forall e, semtab k !! s = Some e -> scount e + n < 2 ^ 31
  | CSemcreate n => is_i32 n
  | CSemfree s | CSemcount s => 0 <= s
  | CSleep _ | CReceive => thrcurrent k <> NULLTHREAD
  | CRecvtime n => thrcurrent k <> NULLTHREAD /\ n < 2 ^ 31
  | CTick => tm_started (tim k) = true
  | CCreate _ ssize prio _ args => MINKEY < prio /\ 0 <= ssize /\ ssize + 7 < 2 ^ 32
      /\ frame_bytes (length args) + 4 <= roundmb (stack_size ssize)
  | CKill t => t = thrcurrent k \/ t = NULLTHREAD \/ isbadtid k t = true
      \/ exists e, thrtab k !! t = Some e /\ killable (tstate e) = true /\ quiet k (tparent e)
  end.

(** ** Steps *)

Inductive sys : Type :=
| Running (k : kernel) (pool : gmap Z (prog kernel unit))
| Stopped
| Crashed.

Definition alive (k : kernel) (t : Z) : bool := negb (isbadtid k t).

(** Contexts end with their thread, and a new thread has none. *)
Definition prune (k k' : kernel) (pool : gmap Z (prog kernel unit)) : gmap Z (prog kernel unit) :=
  filter (fun x => alive k x.1 && alive k' x.1 = true) pool.

Definition resume_with (k : kernel) (pool : gmap Z (prog kernel unit)) (o : outcome kernel unit) : sys :=
  match o with
  | Returned k' _ => Running k' (prune k k' (delete (thrcurrent k) pool))
  | Suspended k' p => Running k' (prune k k' (<[thrcurrent k := p]> pool))
  | Halted _ => Stopped
  | Faulted => Crashed
  end.

Inductive sys_step : sys -> sys -> Prop :=
| step_call k pool c :
    pool !! thrcurrent k = None -> allowed k c ->
    sys_step (Running k pool) (resume_with k pool (run (exec c) k))
| step_resume k pool p :
    pool !! thrcurrent k = Some p ->
    sys_step (Running k pool) (resume_with k pool (run p k)).

(** ** Every call respects the rely and the guarantee *)

(** Living threads other than the caller evolved or were ended. *)
Definition survivors (c : Z) (k0 k : kernel) : Prop :=
  forall u e, u <> c -> thrtab k0 !! u = Some e -> tstate e <> THRFREE ->
    exists e', thrtab k !! u = Some e' /\ (tstate e' = THRFREE \/ evolves e e').

Definition Gs (c : Z) (k0 k : kernel) : Prop := KInv k /\ heap_ok k /\ survivors c k0 k.
Definition Qs (c : Z) (_ : unit) (k0 k : kernel) : Prop := Gs c k0 k /\ thrcurrent k = c.

Definition respects (c : Z) (p : prog kernel unit) (k : kernel) : Prop :=
  kwp (Gs c) (Rk c) (Qs c) p k k.

Implicit Types (k : kernel) (qs : gmap Z (list Z)).

Lemma bystanders_survivors c k0 k : bystanders c k0 k -> survivors c k0 k.
Proof. intros H u e Hu E _. destruct (H _ _ Hu E) as (e' & E' & V). eauto. Qed.

Lemma Gd_Gs c k0 k : KInv k0 -> heap_ok k0 -> thrcurrent k0 = c -> Gd c k0 k -> Gs c k0 k.
Proof.
  intros H0 Hh Hc [HI Ho]. split_and!; [done|exact (others_heap c k0 k H0 Hc Hh Ho HI)|].
  apply bystanders_survivors. exact (proj1 Ho).
Qed.

(** Calls that leave the heap alone. *)
Lemma wp_heap {A} c (Q : A -> kernel -> kernel -> Prop) (p : prog kernel A) k0 k :
  KInv k0 -> heap_ok k0 -> thrcurrent k0 = c ->
  kwp (Gd c) (Rl c) Q p k0 k ->
  kwp (Gs c) (Rk c) (fun a k0 k => Q a k0 k /\ KInv k0 /\ heap_ok k0 /\ thrcurrent k0 = c) p k0 k.
Proof.
  unfold kwp. revert k0 k. induction p as [a| | |f IH|s1 p IH|p IH]; intros k0 k HI Hh Hc; simpl; auto.
  intros [HG HR]. split; [by apply Gd_Gs|].
  intros k' [Hrl Hh']. pose proof Hrl as (HI' & Hc' & _). by apply IH, HR.
Qed.

Lemma safe_respects {A} (p : prog kernel A) k :
  KInv k -> heap_ok k -> safe_call p k -> respects (thrcurrent k) (p;; mret tt) k.
Proof.
  intros HI Hh Hs. apply kwp_bind. eapply kwp_mono; [by apply wp_heap|].
  intros a k0' k' ((qs & [S1 S2 S3 S4]) & H0 & Hh0 & Hc0). split; [|done].
  apply Gd_Gs; try done. split; [by exists qs|done].
Qed.

Lemma safe_respects_unit (p : prog kernel unit) k :
  KInv k -> heap_ok k -> safe_call p k -> respects (thrcurrent k) p k.
Proof.
  intros HI Hh Hs. eapply kwp_mono; [by apply wp_heap|].
  intros a k0' k' ((qs & [S1 S2 S3 S4]) & H0 & Hh0 & Hc0). split; [|done].
  apply Gd_Gs; try done. split; [by exists qs|done].
Qed.

Lemma wp_weaken {A} (G G' R : kernel -> kernel -> Prop) (Q : A -> kernel -> kernel -> Prop) p k0 k :
  (forall s s', G s s' -> G' s s') -> kwp G R Q p k0 k -> kwp G' R Q p k0 k.
Proof.
  intros HG. unfold kwp. revert k0 k. induction p; intros k0 k1; simpl; auto. intros [? ?]. split; auto.
Qed.

Lemma create_respects k proc ssize prio name args :
  KInv k -> heap_ok k -> MINKEY < prio -> 0 <= ssize -> ssize + 7 < 2 ^ 32 ->
  frame_bytes (length args) + 4 <= roundmb (stack_size ssize) ->
  respects (thrcurrent k) (create initret proc ssize prio name args;; mret tt) k.
Proof.
  intros [qs HI] (l & tl & other & Hst) H1 H2 H3 H4. apply kwp_bind.
  eapply (kwp_create _ _ _ k qs l tl other); try done.
  - intros k' l' other' HI' Hc' _ Ht Hs. split; [|done].
    split_and!; [by exists qs|by exists l', tl, other'|].
    intros u e _ E _. exists e. rewrite Ht. split; [done|by right].
  - intros k' l' tid e e' HI' Hc' _ E Hf _ Ht _ _ Hs. split; [|done].
    split_and!; [by exists qs|by eexists l', _, other|].
    intros u eu Hu Eu Hnf. exists eu. rewrite Ht, lookup_insert_ne; [split; [done|by right]|].
    intros ->. congruence.
Qed.

Lemma kill_bad k t : KInv k -> t = NULLTHREAD \/ isbadtid k t = true -> safe_call (kill t) k.
Proof.
  intros [qs HI] Hb. unfold safe_call, kill. kstep. kstep. change (isbadtid _ t) with (isbadtid k t).
  assert (Hor : isbadtid k t || (t =? NULLTHREAD) = true).
  { destruct Hb as [-> | ->]; [by rewrite orb_true_r|done]. }
  rewrite Hor. by eapply safe_exit.
Qed.

Lemma kill_respects k t : KInv k -> heap_ok k -> allowed k (CKill t) ->
  respects (thrcurrent k) (kill t;; mret tt) k.
Proof.
  intros HI Hh Ha. pose proof HI as [qs HIq].
  destruct (decide (t = NULLTHREAD)) as [->|Hn]; [apply safe_respects; auto using kill_bad|].
  destruct (isbadtid k t) eqn:Hb; [apply safe_respects; auto using kill_bad|].
  destruct (decide (t = thrcurrent k)) as [->|Hne].
  - apply kwp_bind. eapply kwp_mono.
    + eapply wp_weaken; [|by eapply kwp_kill_self]. intros k0 k' (G1 & G2 & G3 & _).
      split_and!; [done..|]. by apply bystanders_survivors.
    + done.
  - destruct Ha as [?|[?|[?|(e & E & Hk & Hq)]]]; [congruence..|]. apply kwp_bind.
    eapply (kwp_kill_other _ k qs t e); try done.
    intros k' HI' Hh' _ Hc' (e' & E' & Hf) Hothers _ _. split; [|done]. split_and!; [done..|].
    intros u eu Hu Eu _. destruct (decide (u = t)) as [->|Hut]; [by eauto|].
    destruct (Hothers _ _ Hut Eu) as (eu' & Eu' & _ & _ & _ & Hev). eauto.
Qed.

Lemma call_respects k c : KInv k -> heap_ok k -> allowed k c -> respects (thrcurrent k) (exec c) k.
Proof.
  intros HI Hh Ha. destruct c; unfold exec; simpl in Ha.
  - apply safe_respects; [done..|]. by apply yield_safe.
  - apply safe_respects; [done..|]. by apply suspend_safe.
  - apply safe_respects; [done..|]. by apply resume_safe.
  - apply safe_respects; [done..|]. by apply chprio_safe.
  - apply safe_respects; [done..|]. by apply getprio_safe.
  - destruct Ha. apply safe_respects; [done..|]. by apply wait_safe.
  - destruct Ha. apply safe_respects; [done..|]. by apply signal_safe.
  - destruct Ha. apply safe_respects; [done..|]. by apply signaln_safe.
  - apply safe_respects; [done..|]. by apply semcreate_safe.
  - apply safe_respects; [done..|]. by apply semfree_safe.
  - apply safe_respects; [done..|]. by apply semcount_safe.
  - apply safe_respects; [done..|]. by apply sleep_safe.
  - apply safe_respects_unit; [done..|]. by apply clkhandler_safe.
  - apply safe_respects; [done..|]. by apply send_safe.
  - apply safe_respects; [done..|]. by apply receive_safe.
  - apply safe_respects; [done..|]. by apply recvclr_safe.
  - destruct Ha. apply safe_respects; [done..|]. by apply recvtime_safe.
  - destruct Ha as (? & ? & ? & ?). by apply create_respects.
  - by apply kill_respects.
Qed.

(** ** The invariant of the machine *)

(** A thread that was switched out goes on safely whatever happens meanwhile. *)
Definition parked (k : kernel) (t : Z) (p : prog kernel unit) : Prop :=
  exists ks es e, thrtab ks !! t = Some es /\ thrtab k !! t = Some e /\ evolves es e
    /\ forall k', Rk t ks k' -> respects t p k'.

Definition SInv (s : sys) : Prop :=
  match s with
  | Running k pool => KInv k /\ heap_ok k /\ map_Forall (parked k) pool
  | Stopped => True
  | Crashed => False
  end.

Lemma alive_entry k t : alive k t = true ->
  exists e, thrtab k !! t = Some e /\ tstate e <> THRFREE.
Proof.
  unfold alive, isbadtid. intros H. btests. destruct (thrtab k !! t) as [e|]; [|done].
  exists e. split; [done|]. by apply bool_decide_eq_false in H0.
Qed.

(** Parked threads stay parked while the current one runs. *)
Lemma parked_step k k' t p : survivors (thrcurrent k) k k' -> t <> thrcurrent k ->
  alive k t = true -> alive k' t = true -> parked k t p -> parked k' t p.
Proof.
  intros Hs Ht Ha Ha' (ks & es & e & Es & E & Hev & Hp).
  destruct (alive_entry _ _ Ha) as (e1 & E1 & Hf). destruct (alive_entry _ _ Ha') as (e2 & E2 & Hf').
  simplify_eq. destruct (Hs _ _ Ht E Hf) as (e' & E' & [Hfree|Hev']); [congruence|]. rewrite E2 in E'. injection E' as <-.
  exists ks, es, e2. split_and!; [done..|by etransitivity|done].
Qed.

Lemma respects_step k pool p : SInv (Running k pool) -> respects (thrcurrent k) p k ->
  SInv (resume_with k pool (run p k)).
Proof.
  intros (HI & Hh & Hpool) Hr. apply wp_run in Hr. destruct (run p k) as [k' []|k' p'|k'|]; simpl; [| |done|done].
  - destruct Hr as [(HI' & Hh' & Hs) _]. split_and!; [done..|].
    intros t q Hq. apply map_lookup_filter_Some in Hq as [Hq Hl]. btests. simpl in *.
    apply lookup_delete_Some in Hq as [Hne Hq]. eapply parked_step; eauto.
  - destruct Hr as [(HI' & Hh' & Hs) Hk]. split_and!; [done..|].
    intros t q Hq. apply map_lookup_filter_Some in Hq as [Hq Hl]. btests. simpl in *.
    apply lookup_insert_Some in Hq as [[<- <-]|[Hne Hq]]; [|by eapply parked_step; eauto].
    destruct (alive_entry k' (thrcurrent k)) as (e & E & _); [done|].
    exists k', e, e. split_and!; done.
Qed.

Lemma sys_step_inv s s' : SInv s -> sys_step s s' -> SInv s'.
Proof.
  intros HS Hstep. destruct Hstep as [k pool c Hnone Ha|k pool p Hp].
  - apply respects_step; [done|]. destruct HS as (HI & Hh & _). by apply call_respects.
  - pose proof HS as (HI & Hh & Hpool). apply respects_step; [done|].
    destruct (Hpool _ _ Hp) as (ks & es & e & Es & E & Hev & Hk). apply Hk.
    split; [|done]. split_and!; [done..|]. eauto.
Qed.

Lemma sys_inv s s' : SInv s -> rtc sys_step s s' -> SInv s'.
Proof. intros HS H. induction H as [|s1 s2 s3 H12 _ IH]; [done|]. eauto using sys_step_inv. Qed.

End machine.
