(* ===== verification/Samples.v ===== *)
(** * Concrete kernels, on which the theorems are tried *)

From S2P Require Import Prelude Prog Queue QueueSpec QueueSys QueueProps Interrupt Memory MemorySpec HeapClient Kernel Thread Semaphore Clock Message Lifecycle NoHalt Placement Invariant Sched ThreadSpec SemaphoreSpec BootSpec LifecycleSpec KillSpec.

(** The kernel as it is loaded: bss cleared, [nextqid] at its initial value,
    heap bounds as the startup code passes them. *)
Definition blank : kernel :=
  mkkernel (table NQENT (mkqueent 0 0 0)) (table NTHREAD zero_thrent)
    (table NSEM (mksement SFREE 0 0)) 0 0 NTHREAD 0 0 0 0 0 0 0 (mktimer false 0 0)
    (mkvic false 0 0 0 ∅ ∅) (mkmemory ∅ 0 0 0x20000 0x40000).

Lemma blank_unbooted : unbooted blank.
Proof.
  split; try done.
  - intros i. apply table_dom. done.
  - intros t. apply table_dom. done.
  - intros t e. simpl. rewrite table_lookup by done. case_decide; [by intros [= <-]|done].
  - intros s. apply table_dom. done.
Qed.

Definition after {A} (o : outcome kernel A) : kernel :=
  match o with Returned k _ | Suspended k _ | Halted k => k | Faulted => blank end.

(** A program that neither blocks nor halts returns. *)
Lemma run_returns {A} (Q : A -> kernel -> kernel -> Prop) (p : prog kernel A) k :
  nohalt p -> kwp (fun _ _ => False) (fun _ _ => False) Q p k k ->
  exists a, run p k = Returned (after (run p k)) a /\ Q a k (after (run p k)).
Proof.
  intros Hn H. apply wp_run in H. pose proof (nohalt_run p k Hn) as Hh.
  destruct (run p k) as [k' r|k' p'|k'|]; simpl; [by exists r|tauto|by destruct (Hh k')|done].
Qed.

Definition suspended {A} (o : outcome kernel A) : bool :=
  match o with Suspended _ _ => true | _ => false end.

Lemma suspended_after {A} (o : outcome kernel A) : suspended o = true -> exists p, o = Suspended (after o) p.
Proof. destruct o as [|k p| |]; try done. by exists p. Qed.

Lemma safe_suspended {A} (p p' : prog kernel A) k k' :
  safe_call p k -> run p k = Suspended k' p' -> Gd (thrcurrent k) k k'.
Proof. intros H E. apply wp_run in H. rewrite E in H. apply H. Qed.

Definition returned {A} (o : outcome kernel A) : bool :=
  match o with Returned _ _ => true | _ => false end.

Lemma safe_returned {A} (p : prog kernel A) k :
  safe_call p k -> returned (run p k) = true -> KInv (after (run p k)).
Proof.
  intros H. apply wp_run in H. destruct (run p k) as [k' a|k' p'|k'|]; try done. intros _.
  destruct H as [qs [H _ _ _]]. by exists qs.
Qed.

Lemma safe_switched {A} (p : prog kernel A) k :
  safe_call p k -> suspended (run p k) = true -> KInv (after (run p k)).
Proof.
  intros H Hs. destruct (suspended_after _ Hs) as [p' E]. exact (proj1 (safe_suspended _ _ _ _ H E)).
Qed.

Definition booted : kernel := after (run (kernel_init 0x18000 64000 0x9000) blank).

Lemma booted_run : run (kernel_init 0x18000 64000 0x9000) blank = Returned booted OK
  /\ KInv booted /\ fresh booted /\ mem booted = mem (init_memory blank)
  /\ tm_started (tim booted) = true.
Proof.
  destruct (run_returns (fun r _ k' => r = OK /\ KInv k' /\ fresh k' /\ mem k' = mem (init_memory blank)
       /\ tm_started (tim k') = true) (kernel_init 0x18000 64000 0x9000) blank) as (a & E & -> & H).
  - apply nohalt_kernel_init.
  - apply kwp_kernel_init; [apply blank_unbooted|done].
  - by split.
Qed.

Lemma booted_inv : KInv booted.
Proof. apply booted_run. Qed.

Lemma booted_stacks :
  stacks_ok booted [(memheap (mem booted), maxaddr (mem booted) - memheap (mem booted))] [] [].
Proof.
  destruct booted_run as (_ & _ & Hf & Hm & _).
  apply (boot_stacks booted blank Hf Hm); simpl; lia.
Qed.

(** Thread 1 is created by the null thread. *)
Definition born : kernel := after (run (create 0x8000 0x9100 1024 20 [109] [5; 6]) booted).

Lemma born_inv : KInv born /\ heap_ok born.
Proof.
  destruct booted_inv as [qs HI]. unfold born.
  destruct (run_returns (fun _ _ k' => KInv k' /\ heap_ok k')
    (create 0x8000 0x9100 1024 20 [109] [5; 6]) booted) as (a & _ & H); [apply nohalt_create| |exact H].
  eapply (kwp_create _ _ _ _ qs); [exact HI|reflexivity|apply booted_stacks|done|done|done|vm_compute; done|..].
  - intros k' l' other' HI' _ _ _ Hs. split; [by exists qs|]. by exists l', [], other'.
  - intros k' l' tid e e' HI' _ _ _ _ _ _ _ _ Hs. split; [by exists qs|]. by eexists l', _, _.
Qed.

(** It is resumed and runs at once: the call of the null thread is suspended. *)
Definition duo : kernel := after (run (resume 1) born).

Lemma duo_run : exists p, run (resume 1) born = Suspended duo p.
Proof. unfold duo. apply suspended_after. vm_compute. reflexivity. Qed.

Lemma duo_curr : thrcurrent duo = 1.
Proof. vm_compute. reflexivity. Qed.

Lemma duo_inv : KInv duo.
Proof.
  destruct duo_run as [p E]. exact (proj1 (safe_suspended _ _ _ _ (resume_safe born 1 (proj1 born_inv)) E)).
Qed.

Lemma duo_heap : heap_ok duo.
Proof.
  destruct duo_run as [p E]. destruct born_inv as [HI Hh].
  destruct (safe_suspended _ _ _ _ (resume_safe born 1 HI) E) as [HI' Ho].
  exact (others_heap (thrcurrent born) born duo HI eq_refl Hh Ho HI').
Qed.

(** A second thread, suspended, beside thread 1. *)
Definition pair : kernel := after (run (create 0x8000 0x9200 256 15 [110] []) born).

Lemma pair_inv : KInv pair /\ heap_ok pair.
Proof.
  destruct born_inv as [[qs HI] (l & tl & other & Hst)]. unfold pair.
  destruct (run_returns (fun _ _ k' => KInv k' /\ heap_ok k')
    (create 0x8000 0x9200 256 15 [110] []) born) as (a & _ & H); [apply nohalt_create| |exact H].
  eapply (kwp_create _ _ _ _ qs); [exact HI|reflexivity|exact Hst|done|done|done|vm_compute; done|..].
  - intros k' l' other' HI' _ _ _ Hs. split; [by exists qs|]. by exists l', tl, other'.
  - intros k' l' tid e e' HI' _ _ _ _ _ _ _ _ Hs. split; [by exists qs|]. by eexists l', _, _.
Qed.

(** Thread 1 creates semaphore 1 with count 0, and waits for it. *)
Definition semd : kernel := after (run (semcreate 0) duo).
Definition blocked : kernel := after (run (wait 1) semd).

Lemma semd_inv : KInv semd.
Proof.
  unfold semd. apply safe_returned; [apply semcreate_safe; [exact duo_inv|unfold is_i32; lia]|].
  vm_compute. reflexivity.
Qed.

Lemma semd_curr : thrcurrent semd = 1.
Proof. vm_compute. reflexivity. Qed.

Lemma blocked_inv : KInv blocked.
Proof.
  unfold blocked. apply safe_switched; [apply wait_safe; [exact semd_inv|lia|]|].
  - rewrite semd_curr. discriminate.
  - vm_compute. reflexivity.
Qed.
