(* ===== verification/KernelProps.v ===== *)
(** * Properties of the kernel *)

From S2P Require Import Prelude Prog Queue QueueSpec QueueSys QueueProps Interrupt Memory MemorySpec HeapClient Kernel Thread Semaphore Clock Message Lifecycle NoHalt Placement Invariant Sched ThreadSpec SemaphoreSpec ClockSpec MessageSpec BootSpec LifecycleSpec KillSpec System Samples.

Definition never (_ _ : kernel) : Prop := False.

(** The first stretch of a program, up to its return or its first switch. *)
Lemma first_stretch {A} (G : kernel -> kernel -> Prop) (Q : A -> kernel -> kernel -> Prop) p k :
  nohalt p -> kwp G never Q p k k ->
  (exists k' a, run p k = Returned k' a /\ Q a k k')
  \/ (exists k' p', run p k = Suspended k' p' /\ G k k').
Proof.
  intros Hn H. apply wp_run in H. pose proof (nohalt_run p k Hn) as Hh.
  destruct (run p k) as [k' r|k' p'|k'|]; [left; eauto|right; destruct H; eauto|by destruct (Hh k')|done].
Qed.

Lemma never_Rl c s s' : never s s' -> Rl c s s'.
Proof. done. Qed.

#[local] Hint Resolve never_Rl : core.

(** ** Boot *)

(** From the state the loader leaves, with a heap of more
    than sixteen bytes, [kernel_init] returns without an access outside the kernel
    tables; it establishes the invariant of the kernel, with the null thread
    running, every other thread and every semaphore free, the timer started,
    and the whole heap in one free block. *)
Lemma kernel_init_boots end_addr clkfreq handler k :
  unbooted k -> 0 < memheap (mem k) -> memheap (mem k) + 7 < 2 ^ 32 ->
  0 <= maxaddr (mem k) < 2 ^ 32 -> memheap (mem k) + 16 < maxaddr (mem k) ->
  exists k', run (kernel_init end_addr clkfreq handler) k = Returned k' OK
    /\ KInv k' /\ fresh k' /\ tm_started (tim k') = true
    /\ memheap (mem k') = roundmb (memheap (mem k)) /\ maxaddr (mem k') = truncmb (maxaddr (mem k))
    /\ stacks_ok k' [(memheap (mem k'), maxaddr (mem k') - memheap (mem k'))] [] [].
Proof.
  intros Hu H1 H2 H3 H4.
  destruct (run_returns (fun r _ k' => r = OK /\ KInv k' /\ fresh k' /\ mem k' = mem (init_memory k)
       /\ tm_started (tim k') = true) (kernel_init end_addr clkfreq handler) k (nohalt_kernel_init _ _ _))
    as (a & E & -> & HI & Hf & Hm & Ht).
  { by apply kwp_kernel_init. }
  eexists. split; [exact E|]. destruct (init_memory_heap k H1 H2 H3 H4) as (_ & M1 & M2).
  rewrite <- Hm in M1, M2. split_and!; [done..|]. by apply (boot_stacks _ k).
Qed.

(** ** The machine *)

(** C1: system_safe.  The kernel started by [kernel_init], the part of [sysinit] that sets up the kernel, never
    accesses anything outside its tables, whatever the threads do in any order within the conditions of [allowed]: calls of the scheduler, of semaphores, of
    messages and of the clock, clock interrupts, creation of threads, and termination of a thread by itself or of another one that is
    not asleep and whose parent is not waiting for a message; the null thread does not block, counts of semaphores and times
    stay within an [int], priorities are above the smallest key, and stacks hold their initial frame.
    In every reachable state every thread
    is in exactly the queue its state names, the current thread is the only one
    that is running, and the stacks of the living threads are disjoint from
    each other and from the free memory. *)
Theorem system_safe end_addr clkfreq handler initret k0 k s :
  unbooted k0 -> 0 < memheap (mem k0) -> memheap (mem k0) + 7 < 2 ^ 32 ->
  0 <= maxaddr (mem k0) < 2 ^ 32 -> memheap (mem k0) + 16 < maxaddr (mem k0) ->
  run (kernel_init end_addr clkfreq handler) k0 = Returned k OK ->
  rtc (sys_step clkfreq initret) (Running k ∅) s ->
  s <> Crashed /\ forall k' pool, s = Running k' pool -> KInv k' /\ heap_ok k'.
Proof.
  intros Hu H1 H2 H3 H4 Hrun Hsteps.
  assert (H : kwp never never (fun r _ k' => KInv k' /\ fresh k' /\ mem k' = mem (init_memory k0))
    (kernel_init end_addr clkfreq handler) k0 k0) by (by apply kwp_kernel_init).
  apply wp_run in H. rewrite Hrun in H. destruct H as (HI & Hf & Hm).
  assert (HS : SInv (Running k ∅)).
  { split_and!; [done|by eexists _, _, _; apply (boot_stacks k k0)|apply map_Forall_empty]. }
  pose proof (sys_inv _ _ _ _ HS Hsteps) as HS'. split; [by intros ->|].
  intros k' pool ->. by destruct HS' as (? & ? & _).
Qed.

Lemma system_safe_witness :
  let s1 := resume_with booted ∅ (run (exec 64000 0x8000 (CCreate 0x9100 1024 20 [109] [5; 6])) booted) in
  s1 <> Crashed /\ forall k' pool, s1 = Running k' pool -> KInv k' /\ heap_ok k'.
Proof.
  intros s1. refine (system_safe 0x18000 64000 0x9000 0x8000 blank booted s1 blank_unbooted _ _ _ _ (proj1 booted_run) _).
  1-4: simpl; lia.
  apply rtc_once. apply (step_call 64000 0x8000 booted ∅ (CCreate 0x9100 1024 20 [109] [5; 6])).
  - apply lookup_empty.
  - split_and!; [vm_compute; done|done|done|vm_compute; done].
Defined.

(** ** Scheduling *)

(** The level at which a thread competes for the processor: the key it was
    given on the ready list or, for the current thread, its priority. *)
Definition level (k : kernel) (t : Z) : Z :=
  if decide (t = thrcurrent k) then default 0 (tprio <$> thrtab k !! t) else kk (quetab k) t.

Lemma runlist_head k qs l c new l' ec :
  KInvq k qs -> qs !! readylist k = Some l -> thrcurrent k = c -> thrtab k !! c = Some ec ->
  runlist c k l = new :: l' ->
  (forall t, t ∈ c :: l -> level k t <= level k new)
  /\ (new = c -> forall t, t ∈ l -> level k t < level k c).
Proof.
  intros HI El Hc Ec Hr. pose proof (ki_placed _ _ HI) as HP.
  destruct (ki_curr _ _ HI) as (e0 & E0 & Hs). rewrite Hc, Ec in E0. injection E0 as <-.
  destruct (pl_rl _ _ _ _ _ _ _ HP) as (l0 & El0 & Hd). rewrite El in El0. injection El0 as <-.
  assert (Hcl : c ∉ l).
  { intros Hin. destruct (on_ready _ _ _ _ _ HP El Hin) as (e & E & He). congruence. }
  assert (Hlv : forall t, t ∈ l -> level k t = kk (quetab k) t).
  { intros t Ht. unfold level. rewrite Hc. case_decide; [congruence|done]. }
  assert (Hlc : level k c = tprio ec) by (unfold level; rewrite Hc, decide_True, Ec; done).
  unfold runlist in Hr. rewrite Ec, decide_True in Hr by done.
  destruct (insert_desc_split (kk (quetab k)) (tprio ec) c l Hd) as (l1 & l2 & -> & Ei & H1 & H2).
  rewrite Ei in Hr. rewrite Forall_forall in H1, H2.
  destruct l1 as [|y l1]; simpl in *; injection Hr as <- Hr.
  - split; [|intros _]; intros t Ht; rewrite ?elem_of_cons in Ht.
    + destruct Ht as [->|Ht]; [done|]. rewrite Hlc, Hlv by done. specialize (H2 t Ht). lia.
    + rewrite Hlc, Hlv by done. by apply H2.
  - split; [|intros ->; set_solver]. intros t Ht. rewrite (Hlv y) by set_solver.
    apply elem_of_cons in Ht as [->|Ht]; [rewrite Hlc; apply H1; set_solver|].
    rewrite Hlv by done. apply StronglySorted_inv in Hd as [_ Hd]. rewrite Forall_forall in Hd.
    apply elem_of_cons in Ht as [->|Ht]; [done|]. by apply Hd.
Qed.

(** C2: resched_picks_highest.  [resched] gives the processor to a thread of
    highest level among the ready ones and the current one; the current thread
    keeps it only when its priority exceeds the level of every ready thread, so
    that threads of equal priority take turns.  The invariant holds in the
    state it leaves. *)
Theorem resched_picks_highest k : KInv k ->
  exists k', (run resched k = Returned k' OK /\ thrcurrent k' = thrcurrent k
              \/ exists p, run resched k = Suspended k' p /\ thrcurrent k' <> thrcurrent k)
    /\ KInv k'
    /\ level k (thrcurrent k) <= level k (thrcurrent k')
    /\ (forall t e, thrtab k !! t = Some e -> tstate e = THRREADY ->
          level k t <= level k (thrcurrent k')
          /\ (thrcurrent k' = thrcurrent k -> level k t < level k (thrcurrent k))).
Proof.
  intros [qs HI]. set (c := thrcurrent k). pose proof (ki_placed _ _ HI) as HP.
  destruct (ki_curr _ _ HI) as (ec & Ec & Hs).
  assert (Hpick : forall k' qs', KInvq k' qs' -> switched c k qs k' qs' -> KInv k'
    /\ level k c <= level k (thrcurrent k')
    /\ (forall t e, thrtab k !! t = Some e -> tstate e = THRREADY ->
          level k t <= level k (thrcurrent k')
          /\ (thrcurrent k' = c -> level k t < level k c))).
  { intros k' qs' HI' Hsw. destruct (sw_list _ _ _ _ _ Hsw) as (l & l' & El & _ & Hr).
    destruct (runlist_head _ _ _ _ _ _ _ HI El eq_refl Ec Hr) as [H1 H2].
    split_and!; [by exists qs'|apply H1; left|]. intros t e Et Hst.
    destruct (pl_out _ _ _ _ _ _ _ HP t e (readylist k) Et) as (l0 & El0 & Hin);
      [done|unfold home; by rewrite Hst|]. rewrite El in El0. injection El0 as <-.
    split; [apply H1; by right|]. intros Hc. by apply H2. }
  destruct (first_stretch (fun _ k' => exists qs', KInvq k' qs' /\ switched c k qs k' qs' /\ thrcurrent k' <> c)
    (fun a _ k' => a = OK /\ exists qs', KInvq k' qs' /\ switched c k qs k' qs' /\ thrcurrent k' = c)
    resched k nohalt_resched) as [(k' & a & E & -> & qs' & H1 & H2 & H3)|(k' & p & E & qs' & H1 & H2 & H3)].
  - eapply (kwp_resched c _ k k qs ec); [auto|done|by apply KInvq_pre|by apply others_eq|exact Ec|..].
    + eauto.
    + intros. split; eauto.
    + by intros k0' k' e' [s []].
  - exists k'. split; [left; done|eauto].
  - exists k'. split; [right; eauto|eauto].
Qed.

Lemma resched_picks_highest_witness :
  exists k', (run resched duo = Returned k' OK /\ thrcurrent k' = thrcurrent duo
              \/ exists p, run resched duo = Suspended k' p /\ thrcurrent k' <> thrcurrent duo)
    /\ KInv k'
    /\ level duo (thrcurrent duo) <= level duo (thrcurrent k')
    /\ (forall t e, thrtab duo !! t = Some e -> tstate e = THRREADY ->
          level duo t <= level duo (thrcurrent k')
          /\ (thrcurrent k' = thrcurrent duo -> level duo t < level duo (thrcurrent duo))).
Proof. exact (resched_picks_highest duo duo_inv). Defined.

(** C3: calls_keep_contract.  Each call of the scheduler, of semaphores, of messages and of the clock, and the clock interrupt
    ([create] and [kill] are apart), made by the running thread within the conditions of [allowed], never faults and never halts
    the processor; whenever it gives the processor away the invariant holds and
    the other threads have kept their stacks, masks and messages; provided the
    thread finds its own entry so kept when it is resumed, the call goes on and
    returns in the same thread with the interrupt mask it was entered with. *)
Theorem calls_keep_contract clkfreq initret k c :
  KInv k -> allowed k c -> match c with CCreate _ _ _ _ _ | CKill _ => False | _ => True end ->
  safe_call (exec clkfreq initret c) k /\ nohalt (exec clkfreq initret c).
Proof.
  assert (Hu : forall A (p : prog kernel A), safe_call p k -> safe_call (p;; mret tt) k).
  { intros A p H. apply kwp_bind. eapply kwp_mono; [exact H|]. done. }
  intros HI Ha Hc. destruct c; try done; simpl in Ha; cbn [exec]; (split; [try apply Hu|nohalt]).
  - by apply yield_safe.
  - by apply suspend_safe.
  - by apply resume_safe.
  - by apply chprio_safe.
  - by apply getprio_safe.
  - destruct Ha. by apply wait_safe.
  - destruct Ha. by apply signal_safe.
  - destruct Ha. by apply signaln_safe.
  - by apply semcreate_safe.
  - by apply semfree_safe.
  - by apply semcount_safe.
  - by apply sleep_safe.
  - by apply clkhandler_safe.
  - by apply send_safe.
  - by apply receive_safe.
  - by apply recvclr_safe.
  - destruct Ha. by apply recvtime_safe.
Qed.

Lemma calls_keep_contract_witness :
  safe_call (exec 64000 0x8000 (CSleep 500)) duo /\ nohalt (exec 64000 0x8000 (CSleep 500)).
Proof.
  apply (calls_keep_contract 64000 0x8000 duo (CSleep 500)); [exact duo_inv| |exact I].
  unfold allowed. rewrite duo_curr. discriminate.
Defined.
