(* ===== verification/SyncProps.v ===== *)
(** * Properties of semaphores, messages and the clock *)

From S2P Require Import Prelude Prog Queue QueueSpec QueueSys QueueProps Interrupt Memory MemorySpec HeapClient Kernel Thread Semaphore Clock Message Lifecycle NoHalt Placement Invariant Sched ThreadSpec SemaphoreSpec ClockSpec MessageSpec BootSpec LifecycleSpec KillSpec System Samples KernelProps.

#[local] Hint Resolve never_Rl : core.

(** The program returned, or gave the processor away, in state [k']. *)
Definition reaches {A} (p : prog kernel A) (k k' : kernel) : Prop :=
  (exists a, run p k = Returned k' a) \/ (exists p', run p k = Suspended k' p').

Lemma first_reaches {A} (P : kernel -> Prop) (p : prog kernel A) k :
  nohalt p -> kwp (fun _ => P) never (fun _ _ => P) p k k -> exists k', reaches p k k' /\ P k'.
Proof.
  intros Hn H. destruct (first_stretch _ _ _ _ Hn H) as [(k' & a & E & HP)|(k' & p' & E & HP)];
    exists k'; (split; [|done]); [left|right]; eauto.
Qed.

Lemma switched_queue c k qs k' qs' q : switched c k qs k' qs' -> q <> readylist k -> qs' !! q = qs !! q.
Proof. intros Hsw Hq. destruct (sw_list _ _ _ _ _ Hsw) as (l & l' & _ & -> & _). by rewrite lookup_insert_ne. Qed.

(** ** Semaphores *)

(** C5: signal_wakes_first.  [signal] on a semaphore that is in use adds one to
    its count.  If threads wait, exactly the one that waits longest leaves the
    queue and becomes ready or, when its priority is high enough, running; the
    others keep their places. *)
Theorem signal_wakes_first k qs s e :
  KInvq k qs -> isbadsem k s = false -> semtab k !! s = Some e -> scount e < 2 ^ 31 - 1 ->
  exists k' qs', reaches (signal s) k k' /\ KInvq k' qs'
    /\ semtab k' !! s = Some (set_scount (scount e + 1) e)
    /\ match qs !! squeue e with
       | Some (t :: l) => scount e < 0 /\ qs' !! squeue e = Some l /\ runnable k' t
       | _ => 0 <= scount e /\ qs' = qs /\ thrtab k' = thrtab k
       end.
Proof.
  intros HI Hb E Hmax. set (c := thrcurrent k).
  destruct (sem_queue _ _ _ _ _ (ki_placed _ _ HI) E) as (l0 & El & Hlen & _).
  pose proof (Kpl_rl_sems _ _ _ _ _ (ki_placed _ _ HI) E) as Hrl.
  set (P := fun k' => exists qs', KInvq k' qs' /\ semtab k' !! s = Some (set_scount (scount e + 1) e)
    /\ match qs !! squeue e with
       | Some (t :: l) => scount e < 0 /\ qs' !! squeue e = Some l /\ runnable k' t
       | _ => 0 <= scount e /\ qs' = qs /\ thrtab k' = thrtab k
       end).
  assert (Hw : forall t k1 qs1 k' qs', scount e < 0 -> woken k qs s t k1 qs1 -> KInvq k' qs' ->
    switched c k1 qs1 k' qs' -> P k').
  { intros t k1 qs1 k' qs' Hneg [(e0 & l & lr & et & E0 & Eq & Et & _ & Es1 & Et1 & Eq1 & _) Hc1 Hr1 _] HI' Hsw.
    rewrite E in E0. injection E0 as <-. exists qs'. rewrite (sw_sems _ _ _ _ _ Hsw), Es1, lookup_insert_eq.
    rewrite Eq. split_and!; [done..| |].
    - rewrite (switched_queue _ _ _ _ _ _ Hsw) by congruence.
      rewrite Eq1, lookup_insert_ne, lookup_insert_eq by done. done.
    - eapply (switched_runnable _ _ _ _ _ t (set_state THRREADY et) Hsw); [| |done].
      + destruct (on_sem _ _ _ _ _ _ t (ki_placed _ _ HI) E Eq ltac:(by left)) as (et' & Et' & Hst & _).
        destruct (ki_curr _ _ HI) as (ec & Ec & Hec). intros ->. subst c. congruence.
      + rewrite Et1. apply lookup_insert_eq. }
  destruct (first_reaches P (signal s) k (nohalt_signal s)) as (k' & Hr & qs' & H).
  - eapply (kwp_signal c _ k qs s e); [auto|done|done|done|done|done|..].
    + intros Hpos k' [S1 S2 S3 S4] Es Et. exists qs. rewrite Es, lookup_insert_eq, El.
      destruct l0 as [|t l0]; [done|simpl in Hlen; lia].
    + eauto.
    + intros t k1 qs1 k' qs' Hneg Hwk [S1 S2 S3 S4] Hsw. eauto.
    + by intros k0' k' qs' [? []].
  - exists k', qs'. split; [done|]. exact H.
Qed.

Lemma signal_wakes_first_witness :
  exists (qs : gmap Z (list Z)) k' qs', reaches (signal 1) blocked k' /\ KInvq k' qs'
    /\ semtab k' !! 1 = Some (mksement SUSED 0 102)
    /\ match qs !! 102 with
       | Some (t :: l) => -1 < 0 /\ qs' !! 102 = Some l /\ runnable k' t
       | _ => 0 <= -1 /\ qs' = qs /\ thrtab k' = thrtab blocked
       end.
Proof.
  destruct blocked_inv as [qs HI]. exists qs.
  refine (signal_wakes_first blocked qs 1 (mksement SUSED (-1) 102) HI _ _ _).
  - vm_compute. reflexivity.
  - vm_compute. reflexivity.
  - simpl. lia.
Defined.

(** C6: wait_takes_or_blocks.  [wait] on a semaphore that is in use takes one
    from its count.  It returns at once if the count was positive; otherwise
    the caller gives the processor away as the last thread in the queue of the
    semaphore, in state THRWAIT. *)
Theorem wait_takes_or_blocks k qs s e :
  KInvq k qs -> isbadsem k s = false -> semtab k !! s = Some e -> sstate e = SUSED ->
  thrcurrent k <> NULLTHREAD ->
  if 0 <? scount e
  then exists k', run (wait s) k = Returned k' OK /\ KInvq k' qs /\ thrcurrent k' = thrcurrent k
    /\ mask k' = mask k /\ semtab k' = <[s := set_scount (scount e - 1) e]> (semtab k)
    /\ thrtab k' = thrtab k
  else exists k' p qs' l e', run (wait s) k = Suspended k' p /\ KInvq k' qs'
    /\ semtab k' = <[s := set_scount (scount e - 1) e]> (semtab k)
    /\ qs !! squeue e = Some l /\ qs' !! squeue e = Some (l ++ [thrcurrent k])
    /\ thrtab k' !! thrcurrent k = Some e' /\ tstate e' = THRWAIT /\ tsem e' = s.
Proof.
  intros HI Hb E Hu Hn. set (c := thrcurrent k) in *.
  pose proof (Kpl_rl_sems _ _ _ _ _ (ki_placed _ _ HI) E) as Hrl.
  destruct (first_stretch
    (fun _ k' => scount e <= 0 /\ exists k1 qs1 qs', waiting k qs s k1 qs1 /\ KInvq k' qs' /\ switched c k1 qs1 k' qs'
       /\ thrcurrent k' <> c)
    (fun a _ k' => a = OK /\ 0 < scount e /\ sysret c (mask k) k k' qs
       /\ semtab k' = <[s := set_scount (scount e - 1) e]> (semtab k) /\ thrtab k' = thrtab k)
    (wait s) k (nohalt_wait s)) as [(k' & a & Er & -> & Hp & [S1 S2 S3 _] & Hs & Ht)|
      (k' & p & Er & Hneg & k1 & qs1 & qs' & [(e0 & l & ec & E0 & El & Ec & Es1 & Et1 & Eq1 & _) Hc1 Hr1] & HI' & Hsw & Hne)].
  - eapply (kwp_wait c _ k qs s e); try done.
    + intros k1 qs1 k' qs' Hneg Hw HI' Hsw Hne _. split; [done|]. by exists k1, qs1, qs'.
    + by intros k0' k' qs' [? []].
  - rewrite (proj2 (Z.ltb_lt _ _) Hp). exists k'. by split_and!.
  - rewrite (proj2 (Z.ltb_ge _ _) Hneg). rewrite E in E0. injection E0 as <-.
    destruct (sw_old _ _ _ _ _ Hsw) as (ec1 & e' & Ec1 & E' & Hst & _ & _ & Hsem).
    rewrite Et1 in Ec1. fold c in Ec1. rewrite lookup_insert_eq in Ec1. injection Ec1 as <-. simpl in *.
    exists k', p, qs', l, e'. split_and!; try done.
    + by rewrite (sw_sems _ _ _ _ _ Hsw).
    + rewrite (switched_queue _ _ _ _ _ _ Hsw) by congruence. rewrite Eq1. apply lookup_insert_eq.
    + by apply Hst.
Qed.

Lemma wait_takes_or_blocks_witness :
  exists (qs : gmap Z (list Z)) k' p qs' l e', run (wait 1) semd = Suspended k' p /\ KInvq k' qs'
    /\ semtab k' = <[1 := mksement SUSED (-1) 102]> (semtab semd)
    /\ qs !! 102 = Some l /\ qs' !! 102 = Some (l ++ [thrcurrent semd])
    /\ thrtab k' !! thrcurrent semd = Some e' /\ tstate e' = THRWAIT /\ tsem e' = 1.
Proof.
  destruct semd_inv as [qs HI]. exists qs.
  refine (wait_takes_or_blocks semd qs 1 (mksement SUSED 0 102) HI _ _ eq_refl _).
  - vm_compute. reflexivity.
  - vm_compute. reflexivity.
  - rewrite semd_curr. discriminate.
Defined.

(** [semcreate] with a count that is not negative
    returns a semaphore that was free, in use from now on with that count, and
    fails only when no semaphore is free; it changes no other semaphore and no
    thread. *)
Theorem semcreate_finds_free k count : KInv k -> 0 <= count < 2 ^ 31 ->
  exists k' s, run (semcreate count) k = Returned k' s /\ KInv k' /\ mask k' = mask k
    /\ ((exists e, 0 <= s < NSEM /\ semtab k !! s = Some e /\ sstate e = SFREE
          /\ semtab k' = <[s := mksement SUSED count (squeue e)]> (semtab k) /\ thrtab k' = thrtab k)
        \/ s = u32 SYSERR /\ forall s' e, semtab k !! s' = Some e -> sstate e = SUSED).
Proof.
  intros [qs HI] Hc.
  destruct (first_stretch never (fun s _ k' => KInv k' /\ mask k' = mask k
    /\ ((exists e, 0 <= s < NSEM /\ semtab k !! s = Some e /\ sstate e = SFREE
          /\ semtab k' = <[s := mksement SUSED count (squeue e)]> (semtab k) /\ thrtab k' = thrtab k)
        \/ s = u32 SYSERR /\ forall s' e, semtab k !! s' = Some e -> sstate e = SUSED))
    (semcreate count) k (nohalt_semcreate count)) as [(k' & s & Er & H)|(k' & p & _ & [])].
  - eapply (kwp_semcreate _ _ k qs); [done|done|unfold is_i32; lia|..].
    + intros k' [S1 S2 S3 _] Hall. split_and!; [by exists qs|done|]. right. split; [done|]. apply Hall. lia.
    + intros k' s e [S1 S2 S3 _] _ Hs E Hf Hsm Ht. split_and!; [by exists qs|done|]. left. eauto 10.
  - eauto 10.
Qed.

Lemma semcreate_finds_free_witness :
  exists k' s, run (semcreate 3) duo = Returned k' s /\ KInv k' /\ mask k' = mask duo
    /\ ((exists e, 0 <= s < NSEM /\ semtab duo !! s = Some e /\ sstate e = SFREE
          /\ semtab k' = <[s := mksement SUSED 3 (squeue e)]> (semtab duo) /\ thrtab k' = thrtab duo)
        \/ s = u32 SYSERR /\ forall s' e, semtab duo !! s' = Some e -> sstate e = SUSED).
Proof. apply (semcreate_finds_free duo 3 duo_inv). lia. Defined.

(** ** Messages *)

(** A call that gives the processor away at most once: [P] holds when it returns or switches, and it returns
    [r] with the caller's mask. *)
Lemma call_once {A} c (P : kernel -> Prop) (r : A) (p : prog kernel A) k : nohalt p -> atmost 1 p ->
  kwp (fun _ => P) never (fun a _ k' => a = r /\ P k' /\ mask k' = mask k) p k k ->
  kwp (fun _ _ => True) (Rl c) (fun a _ k' => a = r /\ KInv k' /\ thrcurrent k' = c /\ mask k' = mask k) p k k ->
  (exists k', run p k = Returned k' r /\ P k' /\ mask k' = mask k)
  \/ (exists k' p', run p k = Suspended k' p' /\ P k'
       /\ forall k2, Rl c k' k2 -> exists k3, run p' k2 = Returned k3 r /\ KInv k3 /\ thrcurrent k3 = c /\ mask k3 = mask k).
Proof.
  intros Hn Ho H1 H2. destruct (first_stretch (fun _ => P) (fun a _ k' => a = r /\ P k' /\ mask k' = mask k) p k Hn H1) as [(k' & a & E & -> & HP & Hm)|(k' & p' & E & HP)].
  - left. by exists k'.
  - right. exists k', p'. split_and!; [done..|]. intros k2 HR. apply wp_run in H2. rewrite E in H2.
    destruct H2 as [_ H2]. specialize (H2 k2 HR). apply wp_run in H2.
    pose proof (nohalt_run p' k2 (nohalt_suspended _ _ _ _ Hn E)) as Hh.
    pose proof (atmost_suspended _ _ _ _ 0 Ho E) as Hs.
    destruct (run p' k2) as [k3 a|k3 p3|k3|] eqn:E3; [|by destruct (atmost_stays _ _ _ _ Hs E3)|by destruct (Hh k3)|done].
    destruct H2 as (-> & ? & ? & ?). by exists k3.
Qed.

(** C10: send_delivers.  [send] to a living thread that holds no message leaves
    the message with it, and if the thread waits for one, with or without a
    time limit, makes it ready or running.  The call then returns OK, at once or, when it gave the processor away,
    as soon as the caller gets it back.  The call fails with SYSERR, without effect on
    any thread, exactly when there is no such thread or it already holds a
    message. *)
Theorem send_delivers k tid msg : KInv k -> let c := thrcurrent k in
  let delivered e k' := KInv k' /\ holds_msg k' tid msg
    /\ (tstate e = THRRECV \/ tstate e = THRTMOUT -> runnable k' tid) in
  match thrtab k !! tid with
  | Some e =>
      if bool_decide (tstate e = THRFREE) || thasmsg e
      then exists k', run (send tid msg) k = Returned k' SYSERR /\ thrtab k' = thrtab k
      else (exists k', run (send tid msg) k = Returned k' OK /\ delivered e k' /\ mask k' = mask k)
        \/ (exists k' p, run (send tid msg) k = Suspended k' p /\ delivered e k'
             /\ forall k2, Rl c k' k2 -> exists k3, run p k2 = Returned k3 OK /\ KInv k3
                  /\ thrcurrent k3 = c /\ mask k3 = mask k)
  | None => exists k', run (send tid msg) k = Returned k' SYSERR /\ thrtab k' = thrtab k
  end.
Proof.
  intros [qs HI] c delivered.
  assert (Herr : (isbadtid k tid = true \/ exists e, isbadtid k tid = false /\ thrtab k !! tid = Some e /\ thasmsg e = true) ->
    exists k', run (send tid msg) k = Returned k' SYSERR /\ thrtab k' = thrtab k).
  { assert (Hi : isbadtid (set_irq (vic_disable_interrupts (irq k)) k) tid = isbadtid k tid) by done.
    intros [Hb|(e & Hb & E & Hm)]; rewrite <- Hi in Hb; unfold send, mbind, prog_bind; simpl;
      rewrite Hb; simpl; [by eexists|]. rewrite E. simpl. rewrite decide_True by (by right). simpl. by eexists. }
  destruct (thrtab k !! tid) as [e|] eqn:E.
  - pose proof (Kpl_valid _ _ _ _ _ (ki_placed _ _ HI) E) as Hv.
    pose proof (isbadtid_spec _ _ _ E Hv) as Hb. rewrite <- Hb.
    destruct (isbadtid k tid) eqn:Hbad; [by apply Herr; left|]. cbn [orb].
    destruct (thasmsg e) eqn:Hm; [apply Herr; right; eauto|].
    apply (call_once c (fun k' => delivered e k')); [apply nohalt_send|apply atmost_send|..];
      (eapply (kwp_send c _ k k qs tid msg e); [auto|done|done|by apply others_eq|done|done|done|..]).
    + intros k' qs' HI' H1 H2 _. unfold delivered. split_and!; [by exists qs'|done..].
    + intros k' qs' [S1 S2 S3 _] H1 H2. unfold delivered. split_and!; [done|by exists qs'|done..].
    + by intros k0' k' qs' [? []].
    + done.
    + intros k' qs' [S1 S2 S3 _] H1 H2. split_and!; [done|by exists qs'|done..].
    + intros k0' k' qs' _ [S1 S2 S3 _]. split_and!; [done|by exists qs'|done..].
  - apply Herr. left. unfold isbadtid. rewrite E. by rewrite orb_true_r.
Qed.

Lemma send_delivers_witness :
  (exists k', run (send 0 77) duo = Returned k' OK /\ holds_msg k' 0 77)
  \/ (exists k' p, run (send 0 77) duo = Suspended k' p /\ holds_msg k' 0 77).
Proof.
  pose proof (send_delivers duo 0 77 duo_inv) as H. cbv zeta in H.
  assert (E : (fun e => (tstate e, thasmsg e)) <$> thrtab duo !! 0 = Some (THRREADY, false)) by (vm_compute; reflexivity).
  destruct (thrtab duo !! 0) as [e|]; [|discriminate E]. injection E as E1 E2. rewrite E1, E2 in H.
  destruct H as [(k' & Hr & (_ & Hm & _) & _)|(k' & p & Hr & (_ & Hm & _) & _)]; [left|right].
  - exists k'. split; [exact Hr|exact Hm].
  - exists k', p. split; [exact Hr|exact Hm].
Defined.

(** C9: receive_returns_message.  [receive] returns the message the thread
    holds, at once when there is one.  Otherwise the thread gives the processor
    away in state THRRECV, and when it is resumed it holds a message, which the
    call returns; either way the message is consumed, the invariant holds and
    the interrupt mask is the caller's. *)
Theorem receive_returns_message k e : let c := thrcurrent k in
  KInv k -> c <> NULLTHREAD -> thrtab k !! c = Some e ->
  let returns k0 p k1 := exists e1 k', thrtab k1 !! c = Some e1 /\ thasmsg e1 = true
    /\ run p k1 = Returned k' (tmsg e1) /\ KInv k' /\ thrcurrent k' = c /\ mask k' = mask k0
    /\ thrtab k' !! c = Some (set_hasmsg false e1) in
  if thasmsg e then returns k receive k
  else exists k1 p e', run receive k = Suspended k1 p /\ KInv k1
    /\ thrtab k1 !! c = Some e' /\ tstate e' = THRRECV
    /\ forall k2, Rl c k1 k2 -> returns k p k2.
Proof.
  intros c [qs HI] Hn E returns.
  set (Q := fun (m : Z) (k0' k' : kernel) => exists qs' e1, sysret c (mask k) k0' k' qs' /\ thasmsg e1 = true
    /\ thrtab k0' !! c = Some e1 /\ thrtab k' !! c = Some (set_hasmsg false e1) /\ m = tmsg e1).
  set (G := fun (k0 k' : kernel) => k0 = k /\ KInv k' /\ thasmsg e = false /\ exists e', thrtab k' !! c = Some e' /\ tstate e' = THRRECV).
  assert (H : kwp G (Rl c) Q receive k k).
  { eapply (kwp_receive c _ k qs); try done.
    - intros k' qs' e1 e' HI' _ E1 Hm E' Hs. split_and!; [done|by exists qs'|congruence|eauto].
    - intros k0' k' qs' e1 Hret Hm E0 E1. exists qs', e1. done. }
  assert (Hret : forall k0' k' m p, run p k0' = Returned k' m -> Q m k0' k' -> returns k p k0').
  { intros k0' k' m p Er (qs' & e1 & [S1 S2 S3 _] & Hm & E0 & E1 & ->). exists e1, k'.
    split_and!; try done. by exists qs'. }
  apply wp_run in H. pose proof (nohalt_run receive k nohalt_receive) as Hh.
  destruct (run receive k) as [k' m|k1 p|k'|] eqn:Er; [| |by destruct (Hh k')|done].
  - pose proof H as (_ & e1 & _ & Hm & E1 & _). rewrite E in E1. injection E1 as <-. rewrite Hm.
    by eapply Hret.
  - destruct H as [(_ & HI1 & Hm & e' & E' & Hs) Hk]. rewrite Hm. exists k1, p, e'. split_and!; [done..|].
    intros k2 HR. specialize (Hk k2 HR). apply wp_run in Hk.
    pose proof (nohalt_run p k2 (nohalt_suspended _ _ _ _ nohalt_receive Er)) as Hh2.
    destruct (run p k2) as [k3 m|k3 p3|k3|] eqn:Er2; [by eapply Hret| |by destruct (Hh2 k3)|done].
    destruct Hk as [(-> & _) _]. exfalso. destruct HR as (HI2 & Hc2 & e1 & e2 & E1 & E2 & Hev).
    rewrite E' in E1. injection E1 as <-. rewrite E in E2. injection E2 as <-.
    destruct (ev_recv _ _ Hev Hs) as [Hr|Hr]; [|congruence].
    destruct (ki_curr _ _ HI) as (ec & Ec & Hec). unfold c in E. congruence.
Qed.

Lemma receive_returns_message_witness :
  exists e k1 p e', thrtab duo !! thrcurrent duo = Some e /\ run receive duo = Suspended k1 p /\ KInv k1
    /\ thrtab k1 !! thrcurrent duo = Some e' /\ tstate e' = THRRECV
    /\ forall k2, Rl (thrcurrent duo) k1 k2 -> exists e1 k', thrtab k2 !! thrcurrent duo = Some e1
        /\ thasmsg e1 = true /\ run p k2 = Returned k' (tmsg e1) /\ KInv k' /\ thrcurrent k' = thrcurrent duo
        /\ mask k' = mask duo /\ thrtab k' !! thrcurrent duo = Some (set_hasmsg false e1).
Proof.
  assert (Hm : thasmsg <$> thrtab duo !! thrcurrent duo = Some false) by (vm_compute; reflexivity).
  assert (Hn : thrcurrent duo <> NULLTHREAD) by (rewrite duo_curr; discriminate).
  pose proof (receive_returns_message duo) as H. cbv zeta in H.
  destruct (thrtab duo !! thrcurrent duo) as [e|]; [|discriminate Hm]. injection Hm as Hm.
  specialize (H e duo_inv Hn eq_refl). rewrite Hm in H. destruct H as (k1 & p & e' & H).
  exists e, k1, p, e'. split; [reflexivity|exact H].
Defined.

(** ** The clock *)

Lemma expire_sub (l : list (Z * Z)) t : t ∈ (expire l).2.*1 \/ t ∈ (expire l).1 -> t ∈ l.*1.
Proof.
  induction l as [|[u d] l IH]; simpl; [set_solver|].
  destruct (d <=? 0); [|simpl; set_solver]. destruct (expire l) as [w r]. simpl in *. set_solver.
Qed.

Lemma tick_delta_sub (l : list (Z * Z)) t : t ∈ (tick_delta l).2.*1 \/ t ∈ (tick_delta l).1 -> t ∈ l.*1.
Proof.
  destruct l as [|[u d] l]; simpl; [set_solver|]. pose proof (expire_sub l t).
  destruct (d - 1 <=? 0); [|simpl; set_solver]. destruct (expire l) as [w r]. simpl in *. set_solver.
Qed.

(** One clock interrupt. *)
Lemma clk_tick clkfreq k qs l now :
  KInvq k qs -> tm_started (tim k) = true -> qs !! sleepq k = Some l ->
  let D := delta (quetab k) l in
  exists k' qs' l', reaches (clkhandler clkfreq) k k' /\ KInvq k' qs' /\ sleepq k' = sleepq k
    /\ qs' !! sleepq k = Some l'
    /\ wake (now + 1) (delta (quetab k') l') = delayed (late D) <$> filter (fun p => now + 1 - late D < p.2) (wake now D)
    /\ (forall t, t ∈ (filter (fun p => p.2 <= now + 1 - late D) (wake now D)).*1 -> runnable k' t).
Proof.
  intros HI Hst El D. set (c := thrcurrent k).
  destruct (Kpl_sq _ _ _ (ki_placed _ _ HI)) as (l0 & El0 & [Hnn _]). rewrite El in El0. injection El0 as <-.
  pose proof (tick_delta_exact now D (sleep_nonneg_delta _ _ Hnn)) as Htd.
  destruct Htd as [Htd1 Htd2]. rewrite <- Htd1, <- Htd2.
  set (P := fun k' => exists qs' l', KInvq k' qs' /\ sleepq k' = sleepq k /\ qs' !! sleepq k = Some l'
    /\ wake (now + 1) (delta (quetab k') l') = wake (now + 1) (tick_delta D).2
    /\ forall t, t ∈ (tick_delta D).1 -> runnable k' t).
  assert (Hc : c ∉ l).
  { intros Hin. destruct (on_sleep _ _ _ _ _ (ki_placed _ _ HI) El Hin) as (e & E & Hs).
    destruct (ki_curr _ _ HI) as (ec & Ec & Hec). subst c. destruct Hs; congruence. }
  assert (Hsub : forall t, t ∈ (tick_delta D).2.*1 \/ t ∈ (tick_delta D).1 -> t ∈ l).
  { intros t Ht. apply tick_delta_sub in Ht. subst D. by rewrite delta_fst in Ht. }
  assert (Hdone : forall k1 qs1 k' qs', ticked k qs k1 qs1 -> KInvq k' qs' -> switched c k1 qs1 k' qs' ->
    P k').
  { intros k1 qs1 k' qs' [(l1 & lw & lr & El1 & Elr & Etd & Hw & _) _ _ _ Hrl Hsq] HI' Hsw. unfold P.
    rewrite El in El1. injection El1 as <-. fold D in Etd. rewrite Etd in *. simpl in *.
    exists qs', lr. split_and!; [done|by rewrite (sw_sq _ _ _ _ _ Hsw)|..].
    - rewrite (switched_queue _ _ _ _ _ _ Hsw); [done|]. rewrite Hrl.
      intros Heq. by destruct (pl_ne _ _ _ _ _ _ _ (ki_placed _ _ HI)).
    - f_equal. apply list_fmap_ext. intros i t Ht. f_equal. apply (sw_keys _ _ _ _ _ Hsw).
      intros ->. apply Hc, Hsub. left. rewrite delta_fst. by eapply list_elem_of_lookup_2.
    - intros t Ht. destruct (Hw t Ht) as (e & _ & _ & E1).
      eapply (switched_runnable _ _ _ _ _ t _ Hsw); [|exact E1|done].
      intros ->. apply Hc, Hsub. by right. }
  destruct (first_reaches P (clkhandler clkfreq) k (nohalt_clkhandler clkfreq)) as (k' & Hr & qs' & l' & H).
  - eapply (kwp_clkhandler clkfreq c _ k qs); [auto|done|done|done|..].
    + eauto.
    + intros k1 qs1 k' qs' Htk [S1 _ _ _] Hsw. eauto.
    + by intros k0' k' qs' [? []].
  - exists k', qs', l'. split; [done|exact H].
Qed.

(** C7: tick_wakes_exactly.  At a clock interrupt exactly the threads whose wake-up time has come
    leave the sleep queue, in time order, and become ready or running, and the wake-up times of all
    others are unchanged, when the first key of the queue is positive ([late] is 0).  When the first key is 0, as
    [recvtime(0)] leaves it, the code takes it for 1: the threads that were due before this interrupt wake, and every other
    one is delayed by one interrupt ([late] is 1). *)
Theorem tick_wakes_exactly clkfreq k qs l now :
  KInvq k qs -> tm_started (tim k) = true -> qs !! sleepq k = Some l ->
  let D := delta (quetab k) l in
  exists k' qs' l', reaches (clkhandler clkfreq) k k' /\ KInvq k' qs' /\ sleepq k' = sleepq k
    /\ qs' !! sleepq k = Some l'
    /\ wake (now + 1) (delta (quetab k') l') = delayed (late D) <$> filter (fun p => now + 1 - late D < p.2) (wake now D)
    /\ (forall t, t ∈ (filter (fun p => p.2 <= now + 1 - late D) (wake now D)).*1 -> runnable k' t).
Proof. apply clk_tick. Qed.

Lemma first_key_at_least tab q t l v n :
  qrep tab q (t :: l) -> firstkey tab q = Some v -> n <= v -> n <= kk tab t.
Proof. intros H E. rewrite (firstkey_spec _ _ _ _ H) in E. by injection E as ->. Qed.

(** Thread 1 sleeps for half a second. *)
Definition napping : kernel := after (run (sleep 500) duo).

Lemma napping_inv : KInv napping.
Proof.
  unfold napping. apply safe_switched; [apply sleep_safe; [exact duo_inv|]|].
  - rewrite duo_curr. discriminate.
  - vm_compute. reflexivity.
Qed.

Lemma tick_wakes_exactly_witness :
  exists (qs : gmap Z (list Z)) l k' qs' l', qs !! sleepq napping = Some l
    /\ reaches (clkhandler 64000) napping k' /\ KInvq k' qs' /\ sleepq k' = sleepq napping
    /\ qs' !! sleepq napping = Some l'
    /\ let D := delta (quetab napping) l in
       wake (0 + 1) (delta (quetab k') l') = delayed (late D) <$> filter (fun p => 0 + 1 - late D < p.2) (wake 0 D)
       /\ (forall t, t ∈ (filter (fun p => p.2 <= 0 + 1 - late D) (wake 0 D)).*1 -> runnable k' t).
Proof.
  destruct napping_inv as [qs HI]. destruct (Kpl_sq _ _ _ (ki_placed _ _ HI)) as (l & El & _).
  assert (Hst : tm_started (tim napping) = true) by (vm_compute; reflexivity).
  destruct (tick_wakes_exactly 64000 napping qs l 0 HI Hst El) as (k' & qs' & l' & H).
  exists qs, l, k', qs', l'. split; [exact El|exact H].
Defined.
