(* ===== verification/ClockLive.v ===== *)
(** * Sleepers wake up in time *)

From S2P Require Import Prelude Prog Queue QueueSpec QueueSys Interrupt Memory Kernel Thread Clock NoHalt Placement Invariant Sched ClockSpec Samples SyncProps.

Section live.
Variable clkfreq : Z.

(** [n] clock interrupts, one after the other; between two of them the kernel
    does nothing but the switch the first one ends with. *)
Inductive ticks : nat -> kernel -> kernel -> Prop :=
| ticks_O k : ticks O k k
| ticks_S n k k1 k2 : ticks n k k1 -> reaches (clkhandler clkfreq) k1 k2 -> ticks (S n) k k2.

(** The threads asleep with the interrupt that wakes them, seen after [now] interrupts. *)
Record asleep (k : kernel) (now : Z) (ws : list (Z * Z)) : Prop := {
  as_started : tm_started (tim k) = true;
  as_queue : exists qs l, KInvq k qs /\ qs !! sleepq k = Some l /\ wake now (delta (quetab k) l) = ws
    /\ match l with t :: _ => 1 <= kk (quetab k) t | [] => True end;
}.

(** One interrupt, whatever the first key: from then on it is positive. *)
Lemma sleep_tick k qs l now : KInvq k qs -> tm_started (tim k) = true -> qs !! sleepq k = Some l ->
  let D := delta (quetab k) l in
  exists k', reaches (clkhandler clkfreq) k k' /\
    asleep k' (now + 1) (delayed (late D) <$> filter (fun p => now + 1 - late D < p.2) (wake now D)) /\
    forall t, t ∈ (filter (fun p => p.2 <= now + 1 - late D) (wake now D)).*1 -> runnable k' t.
Proof.
  intros HI Hst El D.
  destruct (clk_tick clkfreq k qs l now HI Hst El) as (k' & qs' & l' & Hr & HI' & Hsq & El' & Hw & Hrun). fold D in Hw, Hrun.
  exists k'. split_and!; [done| |done]. split.
  - pose proof (keeps_run _ _ _ k (keeps_clkhandler clkfreq (tim k) Hst) eq_refl) as Hk.
    assert (tim k' = tim k) as ->; [|done]. destruct Hr as [[a E]|[p E]]; by rewrite E in Hk.
  - exists qs', l'. split_and!; [done|by rewrite Hsq|done|]. destruct l' as [|t l']; [done|].
    cbn [delta fmap list_fmap wake] in Hw.
    assert (Hin : (t, now + 1 + kk (quetab k') t) ∈ delayed (late D) <$> filter (fun p => now + 1 - late D < p.2) (wake now D)).
    { rewrite <- Hw. by left. }
    apply list_elem_of_fmap in Hin as ([u v] & Heq & Hin). apply list_elem_of_filter in Hin as [Hlt _].
    injection Heq as -> Hv. simpl in *. lia.
Qed.

Lemma asleep_tick k now ws : asleep k now ws ->
  exists k', reaches (clkhandler clkfreq) k k' /\ asleep k' (now + 1) (filter (fun p => now + 1 < p.2) ws) /\
    forall t, t ∈ (filter (fun p => p.2 <= now + 1) ws).*1 -> runnable k' t.
Proof.
  intros [Hst (qs & l & HI & El & <- & Hf)]. pose proof (sleep_tick k qs l now HI Hst El) as H. cbv zeta in H.
  assert (Hl : late (delta (quetab k) l) = 0).
  { destruct l as [|t l]; [done|]. cbn [delta fmap list_fmap late]. by rewrite (proj2 (Z.eqb_neq _ _)) by lia. }
  by rewrite Hl, Z.sub_0_r, delayed_0 in H.
Qed.

Lemma wake_ge now (l : list (Z * Z)) : Forall (fun p => 0 <= p.2) l -> Forall (fun p => now <= p.2) (wake now l).
Proof.
  intros H. revert now. induction H as [|[t d] l Hd _ IH]; intros now; cbn [wake]; constructor; simpl in *; [lia|].
  eapply Forall_impl; [apply IH|]. simpl. intros p Hp. lia.
Qed.

Lemma wake_fst now (l : list (Z * Z)) : (wake now l).*1 = l.*1.
Proof. revert now. induction l as [|[t d] l IH]; intros now; [done|]. cbn [wake fmap list_fmap]. by rewrite IH. Qed.

(** Nobody asleep is overdue. *)
Lemma asleep_later k now ws : asleep k now ws -> Forall (fun p => now < p.2) ws.
Proof.
  intros [_ (qs & l & HI & El & <- & Hf)].
  destruct (Kpl_sq _ _ _ (ki_placed _ _ HI)) as (l0 & El0 & [Hnn _]). rewrite El in El0. injection El0 as <-.
  apply sleep_nonneg_delta in Hnn. destruct l as [|t l]; [constructor|].
  cbn [delta fmap list_fmap wake] in *. apply Forall_cons in Hnn as [_ Hnn]. constructor; [simpl; lia|].
  eapply Forall_impl; [apply wake_ge; exact Hnn|]. simpl. intros p Hp. lia.
Qed.

Lemma asleep_ticks k m ws n : asleep k (Z.of_nat m) ws ->
  exists k', ticks n k k' /\ asleep k' (Z.of_nat (m + n)) (filter (fun p => Z.of_nat (m + n) < p.2) ws) /\
    (forall t, (t, Z.of_nat (m + n)) ∈ ws -> runnable k' t).
Proof.
  intros Ha. pose proof (asleep_later _ _ _ Ha) as Hl. induction n as [|n (k1 & Ht & Hk & _)].
  - rewrite Nat.add_0_r. exists k. split_and!; [constructor| |].
    + by rewrite filter_all.
    + intros t Hin. rewrite Forall_forall in Hl. apply Hl in Hin. simpl in Hin. lia.
  - destruct (asleep_tick _ _ _ Hk) as (k2 & Hr & Hk2 & Hrun). exists k2.
    replace (Z.of_nat (m + n) + 1) with (Z.of_nat (m + S n)) in Hk2, Hrun by lia. split_and!; [by econstructor| |].
    + rewrite list_filter_filter_l in Hk2; [done|]. intros p Hp. lia.
    + intros t Hin. apply Hrun. apply list_elem_of_fmap. exists (t, Z.of_nat (m + S n)). split; [done|].
      apply list_elem_of_filter. split; [simpl; lia|]. apply list_elem_of_filter. split; [simpl; lia|done].
Qed.

Lemma ticks_first n k k1 k2 : reaches (clkhandler clkfreq) k k1 -> ticks n k1 k2 -> ticks (S n) k k2.
Proof. intros Hr H. revert Hr. induction H as [k1|n k1 k2 k3 H IH Hr']; intros Hr; econstructor; [constructor|done|by apply IH|done]. Qed.

Lemma reaches_fun {A} (p : prog kernel A) k k1 k2 : reaches p k k1 -> reaches p k k2 -> k1 = k2.
Proof. intros [[a E]|[q E]] [[a' E']|[q' E']]; congruence. Qed.

Lemma ticks_fun n k k1 k2 : ticks n k k1 -> ticks n k k2 -> k1 = k2.
Proof.
  intros H. revert k2. induction H as [|n k k1 k2 _ IH Hr]; intros k3 H3; inversion H3; subst; [done|].
  eapply reaches_fun; [exact Hr|]. by erewrite IH.
Qed.

End live.

Lemma due_positive (D : list (Z * Z)) t w : Forall (fun p => 0 <= p.2) D ->
  (t, Z.of_nat w) ∈ delayed (late D) <$> wake 0 D -> (0 < w)%nat.
Proof.
  intros Hf Hin. apply list_elem_of_fmap in Hin as ([u v] & Heq & Hin). injection Heq as -> Hw. simpl in Hw.
  pose proof (wake_ge 0 D Hf) as Hge. rewrite Forall_forall in Hge. specialize (Hge _ Hin). simpl in Hge.
  destruct D as [|[t d] D]; [by apply not_elem_of_nil in Hin|]. apply Forall_cons in Hf as [Hd Hf]. simpl in Hd.
  unfold late in Hw. destruct (Z.eqb_spec d 0) as [->|Hne]; [lia|]. cbn [wake] in Hin.
  apply elem_of_cons in Hin as [Heq|Hin]; [injection Heq as _ ->; lia|].
  pose proof (wake_ge (0 + d) D Hf) as Hg2. rewrite Forall_forall in Hg2. specialize (Hg2 _ Hin). simpl in Hg2. lia.
Qed.

(** The wake-up times the code gives the threads of a sleep queue: those of their keys, one later when the first key is 0. *)
Definition due (k : kernel) (l : list Z) : list (Z * Z) := delayed (late (delta (quetab k) l)) <$> wake 0 (delta (quetab k) l).

(** C8: sleeper_wakes_in_time.  Let the clock run with threads in the sleep queue, and let thread [t] be due at the [w]-th clock
    interrupt from now: the sum of the keys up to its own, and one more when the first key is 0, as [recvtime(0)] leaves it.
    However many interrupts happen, with no system call between them, each of them is handled; until the [w]-th, [t] stays in the
    sleep queue; at the [w]-th, it is ready or running. *)
Theorem sleeper_wakes_in_time clkfreq k qs l t w :
  KInvq k qs -> tm_started (tim k) = true -> qs !! sleepq k = Some l -> (t, Z.of_nat w) ∈ due k l ->
  forall n, (exists k', ticks clkfreq n k k') /\
    forall k', ticks clkfreq n k k' -> KInv k' /\
      ((n < w)%nat -> exists qs' l', KInvq k' qs' /\ qs' !! sleepq k' = Some l' /\ t ∈ l') /\
      (n = w -> runnable k' t).
Proof.
  intros HI Hst El Hin n. unfold due in Hin. set (D := delta (quetab k) l) in *.
  destruct (sleep_tick clkfreq k qs l 0 HI Hst El) as (k1 & Hr & Ha & Hrun1). fold D in Ha, Hrun1.
  assert (Hw0 : (0 < w)%nat).
  { destruct (Kpl_sq _ _ _ (ki_placed _ _ HI)) as (l0 & El0 & [Hnn _]). rewrite El in El0. injection El0 as <-.
    by eapply due_positive; [apply sleep_nonneg_delta|]. }
  destruct n as [|n].
  { split; [by exists k; constructor|]. intros k' Hk'. inversion Hk'; subst. split_and!; [by exists qs| |lia].
    intros _. exists qs, l. split_and!; [done..|]. apply list_elem_of_fmap in Hin as ([u v] & Heq & Hin). injection Heq as -> _.
    rewrite <- (delta_fst (quetab k') l), <- (wake_fst 0). apply list_elem_of_fmap. by exists (u, v). }
  destruct (asleep_ticks clkfreq k1 1 _ n Ha) as (k2 & Ht & [_ (qs2 & l2 & HI2 & El2 & Hw & _)] & Hrun2).
  split; [exists k2; by eapply ticks_first|]. intros k' Hk'.
  rewrite (ticks_fun clkfreq _ k k' k2 Hk' (ticks_first clkfreq _ _ _ _ Hr Ht)).
  apply list_elem_of_fmap in Hin as ([u v] & Heq & Hin). injection Heq as -> Hv. simpl in Hv.
  assert (Hlater : 1 - late D < v -> (u, Z.of_nat w) ∈ delayed (late D) <$> filter (fun p => 0 + 1 - late D < p.2) (wake 0 D)).
  { intros Hlt. apply list_elem_of_fmap. exists (u, v). split; [by rewrite Hv|]. apply list_elem_of_filter. split; [simpl; lia|done]. }
  split_and!.
  - by exists qs2.
  - intros Hlt. exists qs2, l2. split_and!; [done|done|]. rewrite <- (delta_fst (quetab k2) l2), <- (wake_fst (Z.of_nat (1 + n))), Hw.
    apply list_elem_of_fmap. exists (u, Z.of_nat w). split; [done|]. apply list_elem_of_filter. split; [simpl; lia|]. apply Hlater. lia.
  - intros <-. destruct (decide (n = 0%nat)) as [->|Hn].
    + inversion Ht; subst. apply Hrun1. apply list_elem_of_fmap. exists (u, v). split; [done|].
      apply list_elem_of_filter. split; [simpl; lia|done].
    + apply Hrun2. apply Hlater. lia.
Qed.

(** Witness: thread 1 sleeps for half a second. *)
Lemma napping_started : tm_started (tim napping) = true.
Proof. vm_compute. reflexivity. Qed.
Lemma napping_firstkey : firstkey (quetab napping) (sleepq napping) = Some 5.
Proof. vm_compute. reflexivity. Qed.
Lemma napping_nonempty : nonempty (quetab napping) (sleepq napping) = Some true.
Proof. vm_compute. reflexivity. Qed.
#[local] Opaque napping.

Lemma napping_queue : exists qs l t, KInvq napping qs /\ qs !! sleepq napping = Some (t :: l) /\
  (t, Z.of_nat 5) ∈ due napping (t :: l).
Proof.
  destruct napping_inv as [qs HI]. destruct (Kpl_sq _ _ _ (ki_placed _ _ HI)) as (l & El & _).
  pose proof napping_firstkey as Hfk. pose proof napping_nonempty as Hne.
  pose proof (qs_each _ _ (pl_rep _ _ _ _ _ _ _ (ki_placed _ _ HI)) _ _ El) as Hrep.
  rewrite (nonempty_spec _ _ _ Hrep) in Hne. destruct l as [|t l]; [discriminate Hne|].
  rewrite (firstkey_spec _ _ _ _ Hrep) in Hfk. apply (inj Some) in Hfk as Hk.
  exists qs, l, t. split; [exact HI|]. split; [exact El|].
  unfold due. cbn [delta fmap list_fmap wake late]. rewrite Hk. apply list_elem_of_here.
Qed.

Lemma sleeper_wakes_in_time_witness :
  exists t, (exists k', ticks 64000 5 napping k') /\ forall k', ticks 64000 5 napping k' -> runnable k' t.
Proof.
  destruct napping_queue as (qs & l & t & HI & El & Hin).
  destruct (sleeper_wakes_in_time 64000 napping qs (t :: l) t 5 HI napping_started El Hin 5) as [H1 H2].
  exists t. split; [exact H1|]. intros k' Hk'. exact (proj2 (proj2 (H2 k' Hk')) eq_refl).
Defined.
