(* ===== verification/LifecycleProps.v ===== *)
(** * Properties of thread creation and termination, of the context switch and
      of interrupt masks *)

From S2P Require Import Prelude Prog Queue QueueSpec QueueSys QueueProps Interrupt Memory MemorySpec HeapClient Kernel Thread Semaphore Clock Message Lifecycle NoHalt Placement Invariant Sched ThreadSpec SemaphoreSpec ClockSpec MessageSpec BootSpec LifecycleSpec KillSpec System Samples KernelProps SyncProps.

#[local] Hint Resolve never_Rl : core.

(** C13: create_makes_thread.  [create] with a stack that holds the initial frame
    either fails, leaving the thread table as it was, or returns a thread that
    was free and is now suspended, with the priority, name and parent asked for
    and no message.  Its saved context starts it at the procedure, returning to
    [initret].  Its stack lies in the heap, apart from the stacks of all living
    threads and from free memory, and the invariant is kept. *)
Theorem create_makes_thread initret k proc ssize prio name args :
  KInv k -> heap_ok k -> MINKEY < prio -> 0 <= ssize -> ssize + 7 < 2 ^ 32 ->
  frame_bytes (length args) + 4 <= roundmb (stack_size ssize) ->
  exists k' r, run (create initret proc ssize prio name args) k = Returned k' r
    /\ KInv k' /\ heap_ok k' /\ thrcurrent k' = thrcurrent k /\ mask k' = mask k
    /\ (r = SYSERR /\ thrtab k' = thrtab k
        \/ exists e e', thrtab k !! r = Some e /\ tstate e = THRFREE /\ r <> NULLTHREAD
           /\ thrtab k' = <[r := e']> (thrtab k) /\ created e' (thrcurrent k) prio name
           /\ r_pc (ctx_load (mem k') (tstkptr e')) = proc
           /\ r_lr (ctx_load (mem k') (tstkptr e')) = initret).
Proof.
  intros [qs HI] (l & tl & other & Hst) H1 H2 H3 H4.
  destruct (first_stretch never (fun r _ k' => KInv k' /\ heap_ok k' /\ thrcurrent k' = thrcurrent k /\ mask k' = mask k
    /\ (r = SYSERR /\ thrtab k' = thrtab k
        \/ exists e e', thrtab k !! r = Some e /\ tstate e = THRFREE /\ r <> NULLTHREAD
           /\ thrtab k' = <[r := e']> (thrtab k) /\ created e' (thrcurrent k) prio name
           /\ r_pc (ctx_load (mem k') (tstkptr e')) = proc
           /\ r_lr (ctx_load (mem k') (tstkptr e')) = initret))
    (create initret proc ssize prio name args) k (nohalt_create _ _ _ _ _ _))
    as [(k' & r & E & H)|(k' & p & _ & [])]; [|by eauto].
  eapply (kwp_create _ _ _ k qs l tl other); try done.
  - intros k' l' other' HI' Hc Hm Ht Hs. split_and!; [by exists qs|by exists l', tl, other'|done|done|]. by left.
  - intros k' l' tid e e' HI' Hc Hm E Hf Hn Ht Hcr [Hpc Hlr] Hs.
    split_and!; [by exists qs|by eexists l', _, other|done|done|]. right. by exists e, e'.
Qed.

Lemma create_makes_thread_witness :
  exists k' r, run (create 0x8000 0x9200 256 30 [110; 50] [1; 2; 3; 4; 5]) duo = Returned k' r
    /\ KInv k' /\ heap_ok k' /\ thrcurrent k' = thrcurrent duo /\ mask k' = mask duo
    /\ (r = SYSERR /\ thrtab k' = thrtab duo
        \/ exists e e', thrtab duo !! r = Some e /\ tstate e = THRFREE /\ r <> NULLTHREAD
           /\ thrtab k' = <[r := e']> (thrtab duo) /\ created e' (thrcurrent duo) 30 [110; 50]
           /\ r_pc (ctx_load (mem k') (tstkptr e')) = 0x9200
           /\ r_lr (ctx_load (mem k') (tstkptr e')) = 0x8000).
Proof.
  apply create_makes_thread; [exact duo_inv|exact duo_heap|vm_compute; reflexivity|lia|lia|].
  vm_compute. discriminate.
Defined.

(** The stack [create] prepares starts the
    thread with its first four arguments in r0 to r3 and the others on the
    stack in order, the way a C function expects them, and touches only words
    between its lowest frame word and the top word. *)
Theorem init_stack_passes_arguments M saddr tid len proc ret args M' sp :
  init_stack M saddr tid len proc ret args = (M', sp) ->
  r_pc (ctx_load M' sp) = proc /\ r_lr (ctx_load M' sp) = ret
  /\ (forall i v, (i < 4)%nat -> args !! i = Some v -> r_low (ctx_load M' sp) !! i = Some v)
  /\ (forall i v, args !! (4 + i)%nat = Some v -> ld M' (r_sp (ctx_load M' sp) + 4 * Z.of_nat i) = v)
  /\ sp = saddr - frame_bytes (length args)
  /\ (forall w, w < sp \/ saddr < w -> ld M' w = ld M w).
Proof.
  intros E. destruct (init_stack_context _ _ _ _ _ _ _ _ _ E) as (H1 & H2 & H3 & H4).
  pose proof (init_stack_sp M saddr tid len proc ret args) as Hsp. rewrite E in Hsp. simpl in Hsp.
  split_and!; [done..|].
  pose proof (init_stack_inv (fun M1 => forall w, w < sp \/ saddr < w -> ld M1 w = ld M w) sp (saddr + 1)) as Hinv.
  specialize (Hinv ltac:(intros M1 w v HM Hw u Hu; rewrite ld_st_ne by lia; by apply HM)).
  specialize (Hinv M saddr tid len proc ret args). rewrite E in Hinv. apply Hinv; [done|lia|lia].
Qed.

Lemma init_stack_passes_arguments_witness :
  r_low (ctx_load (init_stack heap3 1000 3 256 0x9200 0x8000 [1; 2; 3; 4; 5; 6]).1
                  (init_stack heap3 1000 3 256 0x9200 0x8000 [1; 2; 3; 4; 5; 6]).2) !! 3%nat = Some 4
  /\ ld (init_stack heap3 1000 3 256 0x9200 0x8000 [1; 2; 3; 4; 5; 6]).1 132 = ld heap3 132.
Proof.
  destruct (init_stack_passes_arguments heap3 1000 3 256 0x9200 0x8000 [1; 2; 3; 4; 5; 6] _ _
    (surjective_pairing _)) as (_ & _ & H1 & _ & H2 & H3).
  split; [by apply (H1 3%nat 4); [lia|]|]. apply H3. left. rewrite H2. vm_compute. reflexivity.
Defined.

(** C19: ctxsw_roundtrip.  Saving the registers of a thread and loading them
    again from the saved stack pointer restores all of them, with the thread
    going on where it called [ctxsw], and changes no word at or above its stack
    pointer. *)
Theorem ctxsw_roundtrip M r M' sp : length (r_low r) = 13%nat -> ctx_save M r = (M', sp) ->
  ctx_load M' sp = mkregs (r_low r) (r_sp r) (r_lr r) (r_lr r)
  /\ (forall w, r_sp r <= w -> ld M' w = ld M w).
Proof. apply ctx_roundtrip. Qed.

Lemma ctxsw_roundtrip_witness :
  let r := mkregs [0; 1; 2; 3; 4; 5; 6; 7; 8; 9; 10; 11; 12] 1000 0x9000 0x9100 in
  ctx_load (ctx_save heap3 r).1 (ctx_save heap3 r).2 = mkregs (r_low r) (r_sp r) (r_lr r) (r_lr r)
  /\ (forall w, r_sp r <= w -> ld (ctx_save heap3 r).1 w = ld heap3 w).
Proof. intros r. exact (ctxsw_roundtrip heap3 r _ _ eq_refl (surjective_pairing _)). Defined.

(** ** kill *)

(** C11: kill_self_never_returns.  A thread that ends itself gives the processor
    away for good or halts it as the last one: in no interleaving does the call
    return or fault.  Whenever it gives the processor away the invariant holds,
    the stacks of the living threads are apart from each other and from free
    memory, and the other threads are as the protocol allows; while the thread is not yet free, which is
    when the message to its parent makes it lose the processor, the heap is as it was, and
    when it is free, exactly the bytes of its stack have become free ([stack_returned]). *)
Theorem kill_self_never_returns k :
  KInv k -> heap_ok k -> thrcurrent k <> NULLTHREAD ->
  kwp (Gk (thrcurrent k)) (Rk (thrcurrent k)) (fun _ _ _ => False) (kill (thrcurrent k)) k k.
Proof. intros [qs HI] Hh Hn. by eapply kwp_kill_self. Qed.

Lemma kill_self_never_returns_witness :
  kwp (Gk 1) (Rk 1) (fun _ _ _ => False) (kill 1) duo duo.
Proof.
  pose proof (kill_self_never_returns duo duo_inv duo_heap) as H. rewrite duo_curr in H.
  apply H. discriminate.
Defined.

(** [kill] halts only when at most the null thread would be left. *)
Lemma kill_halts tid k k' : run (kill tid) k = Halted k' -> i32 (thrcount k - 1) <= 1.
Proof.
  intros H. destruct (Z.leb_spec (i32 (thrcount k - 1)) 1) as [|Hgt]; [done|]. exfalso. revert H.
  unfold kill. unfold k_disable at 1. erewrite run_lift_bind by reflexivity. rewrite run_bind. cbn [run gets obind].
  destruct (_ || _); [apply nohalt_run; nohalt|].
  rewrite run_bind. cbn [run modify obind]. rewrite run_bind. cbn [run gets obind thrcount set_thrcount set_irq].
  rewrite (proj2 (Z.leb_gt _ _)) by exact Hgt. apply nohalt_run. unfold k_stkfree, k_getitem. nohalt.
Qed.

(** C12: kill_frees_thread.  Ending another thread that is ready, suspended,
    waiting for a semaphore or for a message, when the message to its parent readies no
    thread ([quiet]), returns OK, or halts when at most one thread would be left: the thread is free, exactly the bytes of its
    stack have become free memory, it is in no queue, the semaphore it waited for has its
    count back, and the other threads changed at most by the message. *)
Theorem kill_frees_thread k tid e :
  KInv k -> heap_ok k -> thrtab k !! tid = Some e -> tid <> thrcurrent k -> tid <> NULLTHREAD ->
  killable (tstate e) = true -> quiet k (tparent e) ->
  match run (kill tid) k with
  | Returned k' r => r = OK /\ KInv k' /\ heap_ok k' /\ mask k' = mask k
      /\ (exists e', thrtab k' !! tid = Some e' /\ tstate e' = THRFREE)
      /\ gives_back (mem k) (mem k') (region (stack_of e))
      /\ (forall u eu, u <> tid -> thrtab k !! u = Some eu ->
            exists eu', thrtab k' !! u = Some eu' /\ remsg eu eu')
      /\ semtab k' = unwaited k e
  | Halted _ => i32 (thrcount k - 1) <= 1
  | _ => False
  end.
Proof.
  intros [qs HI] Hh E Hc Hn Hk Hq.
  assert (H : kwp never never (fun r _ k' => r = OK /\ KInv k' /\ heap_ok k' /\ mask k' = mask k
      /\ (exists e', thrtab k' !! tid = Some e' /\ tstate e' = THRFREE)
      /\ gives_back (mem k) (mem k') (region (stack_of e))
      /\ (forall u eu, u <> tid -> thrtab k !! u = Some eu ->
            exists eu', thrtab k' !! u = Some eu' /\ remsg eu eu')
      /\ semtab k' = unwaited k e) (kill tid) k k).
  { eapply (kwp_kill_other _ k qs tid e); try done. }
  apply wp_run in H. destruct (run (kill tid) k) eqn:Er; try done; [by destruct H|]. by eapply kill_halts.
Qed.

Lemma kill_frees_thread_witness :
  exists e, thrtab pair !! 1 = Some e /\
  match run (kill 1) pair with
  | Returned k' r => r = OK /\ KInv k' /\ heap_ok k' /\ mask k' = mask pair
      /\ (exists e', thrtab k' !! 1 = Some e' /\ tstate e' = THRFREE)
      /\ gives_back (mem pair) (mem k') (region (stack_of e))
      /\ (forall u eu, u <> 1 -> thrtab pair !! u = Some eu ->
            exists eu', thrtab k' !! u = Some eu' /\ remsg eu eu')
      /\ semtab k' = unwaited pair e
  | Halted _ => i32 (thrcount pair - 1) <= 1
  | _ => False
  end.
Proof.
  assert (H1 : (fun e => (tstate e, tparent e)) <$> thrtab pair !! 1 = Some (THRSUSP, 0)) by (vm_compute; reflexivity).
  assert (H0 : tstate <$> thrtab pair !! 0 = Some THRCURR) by (vm_compute; reflexivity).
  assert (Hc : 1 <> thrcurrent pair) by (vm_compute; discriminate).
  pose proof (kill_frees_thread pair 1) as H.
  destruct (thrtab pair !! 1) as [e|]; [|discriminate H1]. injection H1 as Hs Hp. exists e.
  split; [reflexivity|]. apply H; [exact (proj1 pair_inv)|exact (proj2 pair_inv)|reflexivity|exact Hc|unfold NULLTHREAD; lia|rewrite Hs; reflexivity|].
  intros e0 E0. rewrite Hp in E0. rewrite E0 in H0. injection H0 as H0. rewrite H0. right; split; intros X; discriminate X.
Defined.

(** ** Interrupt masks *)

(** With at most the sixteen maskable sources
    enabled, [restore] of the mask [disable] returned puts processor and
    interrupt controller back as they were, whatever [restore] calls with other
    masks were made in between. *)
Theorem disable_restore_roundtrip v ims : vic_ok v ->
  let '(v1, im) := disable v in
  let v2 := foldl (fun v im => (restore im v).1) v1 ims in
  (restore im v2).1 = v /\ vic_interrupts_enabled v1 = false /\ im = vic_get_irqmask v.
Proof.
  intros Hv. simpl. set (same := fun w : vic => vic_ok w /\ def_vect_addr w = def_vect_addr v
    /\ vect_addr w = vect_addr v /\ vect_addrs w = vect_addrs v /\ vect_cntls w = vect_cntls v).
  assert (Hs : forall ims w, same w -> same (foldl (fun v im => vic_set_irqmask im v) w ims)).
  { clear ims. induction ims as [|im ims IH]; intros w (H1 & H2 & H3 & H4 & H5); simpl; [by split_and!|].
    apply IH. split_and!; [by apply vic_ok_set|..]; unfold vic_set_irqmask; simpl;
      destruct (irqmask_interrupts_enabled im); done. }
  assert (H0 : same (vic_disable_interrupts v)) by (by split_and!).
  destruct (Hs ims _ H0) as (W1 & W2 & W3 & W4 & W5). split_and!; [|done|done].
  unfold vic_get_irqmask. rewrite restore_pack by (unfold vic_ok in *; lia). rewrite W2, W3, W4, W5.
  rewrite land_ffff, Z.mod_small by done. by destruct v.
Qed.

Lemma disable_restore_roundtrip_witness :
  let v := mkvic true 0x10 7 0 ∅ ∅ in
  let '(v1, im) := disable v in
  let v2 := foldl (fun v im => (restore im v).1) v1 [0; 0x10003] in
  (restore im v2).1 = v /\ vic_interrupts_enabled v1 = false /\ im = vic_get_irqmask v.
Proof. apply disable_restore_roundtrip. unfold vic_ok. simpl. lia. Defined.

(** ** Behaviour of the kernel that its comments do not describe, on concrete kernels *)

(** Thread 1 sleeps for a second while the null thread runs. *)
Definition asleep1 : kernel := after (run (sleep 1000) (after (run (resume 1) pair))).

(** [kill] of a sleeping thread marks it free before it calls [unsleep], which
    therefore refuses: the free thread stays in the sleep queue. *)
Theorem kill_sleeper_stays_queued :
  tstate <$> thrtab asleep1 !! 1 = Some THRSLEEP /\
  let k := after (run (kill 1) asleep1) in
  returned (run (kill 1) asleep1) = true /\ tstate <$> thrtab k !! 1 = Some THRFREE
  /\ firstid (quetab k) (sleepq k) = Some 1.
Proof. vm_compute. repeat split; reflexivity. Qed.

(** [create] takes the stack before it looks for a free thread and does not give
    it back when there is none. *)
Theorem create_leaks_stack :
  let full := set_thrtab (set_state THRSUSP <$> thrtab booted) booted in
  match run (create 0x8000 0x9100 1024 20 [109] []) full with
  | Returned k r => r = SYSERR /\ memlist_length (mem k) = memlist_length (mem full) - 1024
  | _ => False
  end.
Proof. vm_compute. repeat split; reflexivity. Qed.

(** [semcreate] with a negative count fails but keeps the semaphore it allocated. *)
Theorem semcreate_negative_leaks :
  match run (semcreate (-1)) duo with
  | Returned k r => r = u32 SYSERR /\ sstate <$> semtab duo !! 1 = Some SFREE
      /\ sstate <$> semtab k !! 1 = Some SUSED
  | _ => False
  end.
Proof. vm_compute. repeat split; reflexivity. Qed.

(** Thread 1 sleeps for three ticks; then thread 2 calls [recvtime(0)].  The next
    tick uses up no tick of thread 1's. *)
Definition two_sleepers : kernel :=
  after (run (recvtime 0) (after (run (resume 2)
    (after (run (sleep 300) (after (run (resume 1) pair))))))).

Theorem recvtime_zero_delays_sleepers :
  firstid (quetab two_sleepers) (sleepq two_sleepers) = Some 2
  /\ qkey <$> quetab two_sleepers !! 1 = Some 3 /\
  let k := after (run (clkhandler 64000) two_sleepers) in
  firstid (quetab k) (sleepq k) = Some 1 /\ qkey <$> quetab k !! 1 = Some 3.
Proof. vm_compute. repeat split; reflexivity. Qed.
