(* ===== verification/CString.v ===== *)
(** * Strings and memory blocks of the C library (lib/libxc/str*.c, mem*.c,
      bzero.c, atoi.c, atol.c, abs.c, labs.c, rand.c, ctype_.c, include/ctype.h)

    Memory is a map from addresses to bytes; [None] is an access to an address
    that is not mapped.  A [char] of the ARM compiler is unsigned, so a byte
    read through a [char *] is in 0..255. *)

From S2P Require Import Prelude.

Abbreviation cmem := (gmap Z Z).

Definition u8 (z : Z) : Z := z mod 256.

(** [*p] and [*p = v] *)
Definition cld (m : cmem) (p : Z) : option Z := m !! p.
Definition cst (m : cmem) (p v : Z) : option cmem :=
  match m !! p with Some _ => Some (<[p := u8 v]> m) | None => None end.

(** A loop that reads successive addresses stops after at most this many
    steps: at a terminator, or at an address that is not mapped. *)
Definition scan_fuel (m : cmem) : nat := S (size m).

(** ** Strings *)

Fixpoint strnlen_loop (fuel : nat) (m : cmem) (s n len : Z) : option Z :=
  match fuel with
  | O => None
  | S fuel =>
      c ← cld m s;
      if negb (c =? 0) && (n <? len)
      then strnlen_loop fuel m (s + 1) (n + 1) len
      else Some n
  end.

Definition strnlen (m : cmem) (s len : Z) : option Z := strnlen_loop (scan_fuel m) m s 0 len.

Fixpoint strchr_loop (fuel : nat) (m : cmem) (s c : Z) : option Z :=
  match fuel with
  | O => None
  | S fuel =>
      x ← cld m s;
      if negb (x =? 0) then
        if x =? u8 c then Some s else strchr_loop fuel m (s + 1) c
      else if u8 c =? x then Some s else Some NULL
  end.

Definition strchr (m : cmem) (s c : Z) : option Z := strchr_loop (scan_fuel m) m s c.

Fixpoint strrchr_loop (fuel : nat) (m : cmem) (s c r : Z) : option Z :=
  match fuel with
  | O => None
  | S fuel =>
      x ← cld m s;
      if negb (x =? 0)
      then strrchr_loop fuel m (s + 1) c (if x =? u8 c then s else r)
      else if u8 c =? x then Some s else Some r
  end.

Definition strrchr (m : cmem) (s c : Z) : option Z := strrchr_loop (scan_fuel m) m s c NULL.

(** [while (--n >= 0 && *s1 == *s2++)]: [n] is the value before the decrement. *)
Fixpoint strncmp_loop (fuel : nat) (m : cmem) (s1 s2 n : Z) : option Z :=
  match fuel with
  | O => None
  | S fuel =>
      let n := n - 1 in
      if n <? 0 then Some 0
      else
        c1 ← cld m s1;
        c2 ← cld m s2;
        if c1 =? c2 then
          if c1 =? 0 then Some 0 else strncmp_loop fuel m (s1 + 1) (s2 + 1) n
        else Some (c1 - c2)
  end.

Definition strncmp (m : cmem) (s1 s2 n : Z) : option Z := strncmp_loop (scan_fuel m) m s1 s2 n.

(** The inner loop of [strstr]: the value of [*cr] when it stops. *)
Fixpoint strstr_match (fuel : nat) (m : cmem) (cq cr : Z) : option Z :=
  match fuel with
  | O => None
  | S fuel =>
      x ← cld m cq;
      y ← cld m cr;
      if negb (x =? 0) && negb (y =? 0) then
        if negb (x =? y) then Some y
        else strstr_match fuel m (cq + 1) (cr + 1)
      else Some y
  end.

Fixpoint strstr_loop (fuel : nat) (m : cmem) (cs ct : Z) : option Z :=
  match fuel with
  | O => None
  | S fuel =>
      x ← cld m cs;
      if negb (x =? 0) then
        y ← cld m ct;
        found ← (if x =? y then
                   z ← strstr_match (scan_fuel m) m cs ct; Some (z =? 0)
                 else Some false);
        if (found : bool) then Some cs else strstr_loop fuel m (cs + 1) ct
      else Some NULL
  end.

Definition strstr (m : cmem) (cs ct : Z) : option Z := strstr_loop (scan_fuel m) m cs ct.

(** [while ( *s1++ );] and the step back: the address of the terminator. *)
Fixpoint strend (fuel : nat) (m : cmem) (s : Z) : option Z :=
  match fuel with
  | O => None
  | S fuel => c ← cld m s; if c =? 0 then Some s else strend fuel m (s + 1)
  end.

Fixpoint strncat_copy (fuel : nat) (m : cmem) (s1 s2 n : Z) : option cmem :=
  match fuel with
  | O => None
  | S fuel =>
      c ← cld m s2;
      m ← cst m s1 c;
      if c =? 0 then Some m
      else
        let n := n - 1 in
        if n <? 0 then cst m s1 0
        else strncat_copy fuel m (s1 + 1) (s2 + 1) n
  end.

Definition strncat (m : cmem) (s1 s2 n : Z) : option (cmem * Z) :=
  e ← strend (scan_fuel m) m s1;
  m ← strncat_copy (scan_fuel m) m e s2 n;
  Some (m, s1).

(** The loops of [strncpy]: [k] is the number of iterations left, [n - i]. *)
Fixpoint strncpy_pad (k : nat) (m : cmem) (s1 : Z) : option cmem :=
  match k with
  | O => Some m
  | S k => m ← cst m s1 0; strncpy_pad k m (s1 + 1)
  end.

Fixpoint strncpy_loop (k : nat) (m : cmem) (s1 s2 : Z) : option cmem :=
  match k with
  | O => Some m
  | S k =>
      c ← cld m s2;
      m ← cst m s1 c;
      if c =? 0 then strncpy_pad k m (s1 + 1) else strncpy_loop k m (s1 + 1) (s2 + 1)
  end.

Definition strncpy (m : cmem) (s1 s2 n : Z) : option (cmem * Z) :=
  m ← strncpy_loop (Z.to_nat n) m s1 s2; Some (m, s1).

(** ** Blocks of memory *)

(** The parameter [n] of [memchr] is not used by the code. *)
Fixpoint memchr_loop (fuel : nat) (m : cmem) (cp c : Z) : option Z :=
  match fuel with
  | O => None
  | S fuel =>
      x ← cld m cp;
      if negb (x =? 0) then
        if x =? u8 c then Some cp else memchr_loop fuel m (cp + 1) c
      else Some NULL
  end.

Definition memchr (m : cmem) (cs c n : Z) : option Z := memchr_loop (scan_fuel m) m cs c.

Fixpoint memcmp_loop (k : nat) (m : cmem) (c1 c2 : Z) : option Z :=
  match k with
  | O => Some 0
  | S k =>
      x ← cld m c1;
      y ← cld m c2;
      if negb (x =? y) then Some (x - y) else memcmp_loop k m (c1 + 1) (c2 + 1)
  end.

Definition memcmp (m : cmem) (s1 s2 n : Z) : option Z := memcmp_loop (Z.to_nat n) m s1 s2.

Fixpoint memcpy_loop (k : nat) (m : cmem) (dst src : Z) : option cmem :=
  match k with
  | O => Some m
  | S k => c ← cld m src; m ← cst m dst c; memcpy_loop k m (dst + 1) (src + 1)
  end.

Definition memcpy (m : cmem) (s ct n : Z) : option (cmem * Z) :=
  m ← memcpy_loop (Z.to_nat n) m s ct; Some (m, s).

Fixpoint memset_loop (k : nat) (m : cmem) (cp c : Z) : option cmem :=
  match k with
  | O => Some m
  | S k => m ← cst m cp c; memset_loop k m (cp + 1) c
  end.

Definition memset (m : cmem) (s c n : Z) : option (cmem * Z) :=
  m ← memset_loop (Z.to_nat n) m s c; Some (m, s).

(** [do *pch++ = 0; while (--n)] *)
Fixpoint bzero_loop (k : nat) (m : cmem) (pch : Z) : option cmem :=
  match k with
  | O => Some m
  | S k => m ← cst m pch 0; bzero_loop k m (pch + 1)
  end.

Definition bzero (m : cmem) (p len : Z) : option cmem :=
  if len <=? 0 then Some m else bzero_loop (Z.to_nat len) m p.

(** ** Numbers *)

Definition abs (arg : Z) : Z := if arg <? 0 then i32 (- arg) else arg.
Definition labs (arg : Z) : Z := if arg <? 0 then i32 (- arg) else arg.

(** The loop over blanks and an optional sign: where the digits start, and
    [f]. *)
Fixpoint ato_skip (fuel : nat) (m : cmem) (p : Z) : option (Z * bool) :=
  match fuel with
  | O => None
  | S fuel =>
      c ← cld m p;
      if (c =? 32) || (c =? 9) then ato_skip fuel m (p + 1)
      else if c =? 45 then Some (p + 1, true)
      else if c =? 43 then Some (p + 1, false)
      else Some (p, false)
  end.

Fixpoint ato_digits (fuel : nat) (m : cmem) (p n : Z) : option Z :=
  match fuel with
  | O => None
  | S fuel =>
      c ← cld m p;
      if (48 <=? c) && (c <=? 57)
      then ato_digits fuel m (p + 1) (i32 (n * 10 + c - 48))
      else Some n
  end.

Definition atoi (m : cmem) (p : Z) : option Z :=
  '(p, f) ← ato_skip (scan_fuel m) m p;
  n ← ato_digits (scan_fuel m) m p 0;
  Some (if (f : bool) then i32 (- n) else n).

(** [long] is 32 bits wide. *)
Definition atol (m : cmem) (p : Z) : option Z :=
  '(p, f) ← ato_skip (scan_fuel m) m p;
  n ← ato_digits (scan_fuel m) m p 0;
  Some (if (f : bool) then i32 (- n) else n).

(** The state of the generator is the global [randx]. *)
Definition srand (x : Z) : Z := u32 x.
Definition rand (randx : Z) : Z * Z :=
  let randx := u32 (randx * 1103515245 + 12345) in
  (randx, Z.land (Z.shiftr randx 16) 32767).

(** ** Character classes *)

Definition cU : Z := 0x01.
Definition cL : Z := 0x02.
Definition cN : Z := 0x04.
Definition cS : Z := 0x08.
Definition cP : Z := 0x10.
Definition cC : Z := 0x20.
Definition cX : Z := 0x40.

Definition ctype_ : list Z :=
  [0] ++ replicate 9 cC ++ replicate 5 cS ++ replicate 18 cC ++ [cS]
  ++ replicate 15 cP ++ replicate 10 cN ++ replicate 7 cP
  ++ replicate 6 (Z.lor cU cX) ++ replicate 20 cU ++ replicate 6 cP
  ++ replicate 6 (Z.lor cL cX) ++ replicate 20 cL ++ replicate 4 cP ++ [cC].

(** [(_ctype_+1)[c] & mask] *)
Definition isclass (mask c : Z) : option bool :=
  if c <? -1 then None
  else x ← ctype_ !! Z.to_nat (c + 1); Some (negb (Z.land x mask =? 0)).

Definition isalpha : Z -> option bool := isclass (Z.lor cU cL).
Definition isupper : Z -> option bool := isclass cU.
Definition islower : Z -> option bool := isclass cL.
Definition isdigit : Z -> option bool := isclass cN.
Definition isxdigit : Z -> option bool := isclass (Z.lor cN cX).
Definition isspace : Z -> option bool := isclass cS.
Definition ispunct : Z -> option bool := isclass cP.
Definition isalnum : Z -> option bool := isclass (Z.lor (Z.lor cU cL) cN).
Definition isprint : Z -> option bool :=
  isclass (Z.lor (Z.lor (Z.lor (Z.lor cP cU) cL) cN) cS).
Definition iscntrl : Z -> option bool := isclass cC.
