(* ===== verification/CStringSpec.v ===== *)
(** * What the string routines compute

    [bytes_at m p l] says that the bytes [l] are in memory from [p] on, and
    [cstr m p l] that [p] points to the C string [l].  Each routine is related
    to a statement about lists. *)

From S2P Require Import Prelude CString.

Local Coercion Z.of_nat : nat >-> Z.
Local Arguments Z.eqb : simpl never.
Local Arguments Z.ltb : simpl never.
Local Arguments Z.leb : simpl never.
Local Arguments Z.sub : simpl never.
Local Arguments Z.add : simpl never.

Fixpoint bytes_at (m : cmem) (p : Z) (l : list Z) : Prop :=
  match l with
  | [] => True
  | x :: l => m !! p = Some x /\ bytes_at m (p + 1) l
  end.

Definition char (c : Z) : Prop := 0 < c < 256.

Definition cstr (m : cmem) (p : Z) (l : list Z) : Prop :=
  bytes_at m p (l ++ [0]) /\ Forall char l.

(** Two blocks of memory that do not overlap. *)
Definition apart (p n q k : Z) : Prop := p + n <= q \/ q + k <= p.

(** [m'] is [m] outside the block of [n] bytes at [p]. *)
Definition same_but (m m' : cmem) (p n : Z) : Prop :=
  forall a, a < p \/ p + n <= a -> m' !! a = m !! a.

(** All of the block is mapped. *)
Definition mapped (m : cmem) (p : Z) (n : nat) : Prop :=
  forall a, p <= a < p + n -> is_Some (m !! a).

Section bytes.
Implicit Types (m : cmem) (l : list Z).

Lemma bytes_at_lookup m p l (i : nat) x :
  bytes_at m p l -> l !! i = Some x -> m !! (p + i) = Some x.
Proof.
  revert p i. induction l as [|y l IH]; intros p i; [done|]. simpl. intros [H1 H2].
  destruct i as [|i]; simpl; intros E.
  - replace (p + 0%nat) with p by lia. congruence.
  - replace (p + S i) with (p + 1 + i) by lia. eauto.
Qed.

Lemma bytes_at_intro m p l :
  (forall (i : nat) x, l !! i = Some x -> m !! (p + i) = Some x) -> bytes_at m p l.
Proof.
  revert p. induction l as [|y l IH]; intros p H; [done|]. simpl. split.
  - rewrite <- (H 0%nat y) by done. f_equal. lia.
  - apply IH. intros i x E. rewrite <- (H (S i) x) by done. f_equal. lia.
Qed.

Lemma bytes_at_app m p l1 l2 :
  bytes_at m p (l1 ++ l2) <-> bytes_at m p l1 /\ bytes_at m (p + length l1) l2.
Proof.
  revert p. induction l1 as [|x l1 IH]; intros p; simpl.
  - replace (p + 0%nat) with p by lia. tauto.
  - rewrite IH. replace (p + 1 + length l1) with (p + S (length l1)) by lia. tauto.
Qed.

Lemma bytes_at_same m m' p l :
  bytes_at m p l -> (forall a, p <= a < p + length l -> m' !! a = m !! a) -> bytes_at m' p l.
Proof.
  intros H E. apply bytes_at_intro. intros i x Hi. rewrite E.
  - by eapply bytes_at_lookup.
  - apply lookup_lt_Some in Hi. lia.
Qed.

Lemma bytes_at_mapped m p l : bytes_at m p l -> mapped m p (length l).
Proof.
  intros H a Ha. destruct (lookup_lt_is_Some_2 l (Z.to_nat (a - p))) as [x Hx]; [lia|].
  exists x. rewrite <- (bytes_at_lookup _ _ _ _ _ H Hx). f_equal. lia.
Qed.

(** A block is not longer than memory: the loops have fuel enough. *)
Lemma mapped_size m p n : mapped m p n -> (n <= size m)%nat.
Proof.
  intros H.
  assert (Hs : (list_to_set (seqZ p n) : gset Z) ⊆ dom m).
  { intros a Ha. apply elem_of_list_to_set, elem_of_seqZ in Ha. apply elem_of_dom, H. lia. }
  apply subseteq_size in Hs. rewrite size_dom in Hs.
  rewrite size_list_to_set in Hs by apply NoDup_seqZ. rewrite length_seqZ in Hs. lia.
Qed.

Lemma bytes_fuel m p l : bytes_at m p l -> (length l < scan_fuel m)%nat.
Proof. intros H. apply bytes_at_mapped, mapped_size in H. unfold scan_fuel. lia. Qed.

Lemma cstr_cons m p c l : cstr m p (c :: l) <-> m !! p = Some c /\ char c /\ cstr m (p + 1) l.
Proof. unfold cstr. simpl. rewrite Forall_cons. tauto. Qed.

Lemma cstr_nil m p : cstr m p [] <-> m !! p = Some 0.
Proof. unfold cstr. simpl. rewrite Forall_nil. tauto. Qed.

Lemma cstr_fuel m p l : cstr m p l -> (S (length l) < scan_fuel m)%nat.
Proof. intros [H _]. apply bytes_fuel in H. rewrite length_app in H. simpl in H. lia. Qed.

Lemma cstr_same m m' p l :
  cstr m p l -> (forall a, p <= a < p + length l + 1 -> m' !! a = m !! a) -> cstr m' p l.
Proof.
  intros [H1 H2] E. split; [|done]. eapply bytes_at_same; [done|].
  intros a Ha. apply E. rewrite length_app in Ha. simpl in Ha. lia.
Qed.

Lemma cst_mapped m p v : is_Some (m !! p) -> cst m p v = Some (<[p := u8 v]> m).
Proof. intros [x Hx]. unfold cst. by rewrite Hx. Qed.

Lemma u8_char c : 0 <= c < 256 -> u8 c = c.
Proof. intros. unfold u8. rewrite Z.mod_small; lia. Qed.

Lemma same_but_insert m p v q n : q <= p < q + n -> same_but m (<[p := v]> m) q n.
Proof. intros H a Ha. apply lookup_insert_ne. lia. Qed.

Lemma same_but_weaken m m' p n q k :
  same_but m m' p n -> q <= p -> p + n <= q + k -> same_but m m' q k.
Proof. intros H H1 H2 a Ha. apply H. lia. Qed.

Lemma same_but_trans m1 m2 m3 p n :
  same_but m1 m2 p n -> same_but m2 m3 p n -> same_but m1 m3 p n.
Proof. intros H1 H2 a Ha. rewrite H2, H1; done. Qed.

Lemma mapped_insert m p n a v : mapped m p n -> mapped (<[a := v]> m) p n.
Proof. intros H x Hx. apply lookup_insert_is_Some'. right. auto. Qed.

End bytes.

Arguments bytes_at : simpl never.
Local Opaque scan_fuel.
#[export] Hint Resolve cstr_fuel bytes_fuel : xinu.

(** Unfold one step of a loop whose fuel is known to be positive. *)
Ltac spend f := destruct f as [|f]; [lia|]; simpl.

(** ** Searching and comparing *)

Section search.
Context (m : cmem).

Lemma strnlen_loop_spec fuel s n len l : cstr m s l -> (length l < fuel)%nat ->
  strnlen_loop fuel m s n len = Some (n + Z.max 0 (Z.min (length l) (len - n))).
Proof.
  revert fuel s n. induction l as [|c l IH]; intros fuel s n Hc Hf; spend fuel; unfold cld.
  - apply cstr_nil in Hc. rewrite Hc. simpl. f_equal. lia.
  - apply cstr_cons in Hc as (Hc & Hr & Hl). rewrite Hc. simpl. simpl in Hf. unfold char in Hr.
    destruct (Z.eqb_spec c 0); [lia|]. destruct (Z.ltb_spec n len); simpl; [|f_equal; lia].
    rewrite IH by (done || lia). f_equal. lia.
Qed.

(** Where the first byte [c] of [l] is. *)
Definition first_at (s c : Z) (l : list Z) (r : Z) : Prop :=
  (c ∉ l /\ r = NULL) \/ (exists l1 l2, l = l1 ++ c :: l2 /\ c ∉ l1 /\ r = s + length l1).

Definition last_at (s c : Z) (l : list Z) (r : Z) : Prop :=
  (c ∉ l /\ r = NULL) \/ (exists l1 l2, l = l1 ++ c :: l2 /\ c ∉ l2 /\ r = s + length l1).

Lemma first_at_here s c l : first_at s c (c :: l) s.
Proof. right. exists [], l. split_and!; [done|set_solver|simpl; lia]. Qed.

Lemma first_at_next s c x l r : x <> c -> first_at (s + 1) c l r -> first_at s c (x :: l) r.
Proof.
  intros Hx [[H ->]|(l1 & l2 & -> & H & ->)]; [left; set_solver|].
  right. exists (x :: l1), l2. split_and!; [done|set_solver|simpl; lia].
Qed.

Lemma strchr_loop_spec fuel s c l : cstr m s l -> (length l < fuel)%nat ->
  exists r, strchr_loop fuel m s c = Some r /\ first_at s (u8 c) (l ++ [0]) r.
Proof.
  revert fuel s. induction l as [|x l IH]; intros fuel s Hc Hf; spend fuel; unfold cld.
  - apply cstr_nil in Hc. rewrite Hc. simpl. destruct (Z.eqb_spec (u8 c) 0) as [E|E].
    + exists s. split; [done|]. rewrite E. apply first_at_here.
    + exists NULL. split; [done|]. left. set_solver.
  - apply cstr_cons in Hc as (Hc & Hr & Hl). rewrite Hc. simpl. simpl in Hf. unfold char in Hr.
    destruct (Z.eqb_spec x 0); [lia|]. simpl. destruct (Z.eqb_spec x (u8 c)) as [->|E].
    + exists s. split; [done|]. apply first_at_here.
    + destruct (IH fuel (s + 1)) as (r & E1 & E2); [done|lia|]. exists r. split; [done|].
      by apply first_at_next.
Qed.

Lemma memchr_loop_spec fuel s c l : cstr m s l -> (length l < fuel)%nat ->
  exists r, memchr_loop fuel m s c = Some r /\ first_at s (u8 c) l r.
Proof.
  revert fuel s. induction l as [|x l IH]; intros fuel s Hc Hf; spend fuel; unfold cld.
  - apply cstr_nil in Hc. rewrite Hc. simpl. exists NULL. split; [done|]. left. set_solver.
  - apply cstr_cons in Hc as (Hc & Hr & Hl). rewrite Hc. simpl. simpl in Hf. unfold char in Hr.
    destruct (Z.eqb_spec x 0); [lia|]. simpl. destruct (Z.eqb_spec x (u8 c)) as [->|E].
    + exists s. split; [done|]. apply first_at_here.
    + destruct (IH fuel (s + 1)) as (r & E1 & E2); [done|lia|]. exists r. split; [done|].
      by apply first_at_next.
Qed.

Lemma strrchr_loop_spec fuel s c r0 l : cstr m s l -> (length l < fuel)%nat ->
  exists r, strrchr_loop fuel m s c r0 = Some r /\
    (u8 c ∉ l ++ [0] /\ r = r0 \/
     exists l1 l2, l ++ [0] = l1 ++ u8 c :: l2 /\ u8 c ∉ l2 /\ r = s + length l1).
Proof.
  revert fuel s r0. induction l as [|x l IH]; intros fuel s r0 Hc Hf; spend fuel; unfold cld.
  - apply cstr_nil in Hc. rewrite Hc. simpl. destruct (Z.eqb_spec (u8 c) 0) as [E|E].
    + exists s. split; [done|]. right. exists [], []. rewrite E. split_and!; [done|set_solver|simpl; lia].
    + exists r0. split; [done|]. left. set_solver.
  - apply cstr_cons in Hc as (Hc & Hr & Hl). rewrite Hc. simpl. simpl in Hf. unfold char in Hr.
    destruct (Z.eqb_spec x 0); [lia|]. simpl.
    destruct (IH fuel (s + 1) (if x =? u8 c then s else r0)) as (r & E1 & E2); [done|lia|].
    exists r. split; [done|]. destruct E2 as [[E2 ->]|(l1 & l2 & E2 & E3 & ->)].
    + destruct (Z.eqb_spec x (u8 c)) as [E|E].
      * right. exists [], (l ++ [0]). rewrite <- E in *. split_and!; [done|done|simpl; lia].
      * left. set_solver.
    + right. exists (x :: l1), l2. rewrite E2. split_and!; [done|done|simpl; lia].
Qed.

(** The difference of the first bytes that differ among the first [n]. *)
Definition diff_at (n : Z) (l1 l2 : list Z) (r : Z) : Prop :=
  (take (Z.to_nat n) l1 = take (Z.to_nat n) l2 /\ r = 0) \/
  (exists pre x y t1 t2, l1 = pre ++ x :: t1 /\ l2 = pre ++ y :: t2 /\ x <> y /\
     length pre < n /\ r = x - y).

Lemma diff_at_cons n c l1 l2 r : 0 < n -> diff_at (n - 1) l1 l2 r -> diff_at n (c :: l1) (c :: l2) r.
Proof.
  intros Hn [[H ->]|(pre & x & y & t1 & t2 & -> & -> & H & H' & ->)].
  - left. split; [|done]. replace (Z.to_nat n) with (S (Z.to_nat (n - 1))) by lia. simpl. by f_equal.
  - right. exists (c :: pre), x, y, t1, t2. split_and!; [done..|simpl; lia|done].
Qed.

Lemma diff_at_here n x y t1 t2 : 0 < n -> x <> y -> diff_at n (x :: t1) (y :: t2) (x - y).
Proof. intros. right. exists [], x, y, t1, t2. split_and!; [done..|simpl; lia|done]. Qed.

Lemma strncmp_loop_spec fuel s1 s2 n l1 l2 :
  cstr m s1 l1 -> cstr m s2 l2 -> (length l1 < fuel)%nat ->
  exists r, strncmp_loop fuel m s1 s2 n = Some r /\ diff_at n (l1 ++ [0]) (l2 ++ [0]) r.
Proof.
  revert fuel s1 s2 n l2. induction l1 as [|x l1 IH]; intros fuel s1 s2 n l2 H1 H2 Hf;
    spend fuel; unfold cld; (destruct (Z.ltb_spec (n - 1) 0) as [Hn|Hn];
    [exists 0; split; [done|]; left; by replace (Z.to_nat n) with 0%nat by lia|]).
  - apply cstr_nil in H1. rewrite H1. simpl. destruct l2 as [|y l2].
    + apply cstr_nil in H2. rewrite H2. exists 0. split; [done|]. left. split; done.
    + apply cstr_cons in H2 as (H2 & Hr & _). rewrite H2. simpl. unfold char in Hr.
      destruct (Z.eqb_spec 0 y); [lia|]. eexists. split; [done|]. simpl. apply diff_at_here; lia.
  - apply cstr_cons in H1 as (H1 & Hr & H1'). rewrite H1. simpl. simpl in Hf. unfold char in Hr.
    destruct l2 as [|y l2].
    + apply cstr_nil in H2. rewrite H2. simpl. destruct (Z.eqb_spec x 0); [lia|].
      eexists. split; [done|]. simpl. apply diff_at_here; lia.
    + apply cstr_cons in H2 as (H2 & Hr2 & H2'). rewrite H2. simpl.
      destruct (Z.eqb_spec x y) as [->|E].
      * destruct (Z.eqb_spec y 0); [lia|].
        destruct (IH fuel (s1 + 1) (s2 + 1) (n - 1) l2) as (r & E1 & E2); [done|done|lia|].
        exists r. split; [done|]. apply diff_at_cons; [lia|done].
      * eexists. split; [done|]. apply diff_at_here; lia.
Qed.

Lemma memcmp_loop_spec k p q l1 l2 :
  bytes_at m p l1 -> bytes_at m q l2 -> length l1 = k -> length l2 = k ->
  exists r, memcmp_loop k m p q = Some r /\ diff_at k l1 l2 r.
Proof.
  revert p q l1 l2. induction k as [|k IH]; intros p q l1 l2 H1 H2 E1 E2.
  - destruct l1, l2; try done. exists 0. split; [done|]. left. split; done.
  - destruct l1 as [|x l1], l2 as [|y l2]; try done. simpl in E1, E2.
    destruct H1 as [H1 H1'], H2 as [H2 H2']. simpl. unfold cld. rewrite H1, H2. simpl.
    destruct (Z.eqb_spec x y) as [->|E]; simpl.
    + destruct (IH (p + 1) (q + 1) l1 l2) as (r & E3 & E4); [done|done|lia|lia|].
      exists r. split; [done|]. apply diff_at_cons; [lia|].
      by replace (S k - 1) with (Z.of_nat k) by lia.
    + eexists. split; [done|]. apply diff_at_here; lia.
Qed.

End search.

(** ** strstr *)

Section strstr.
Context (m : cmem).

Lemma strstr_match_spec fuel p q l1 l2 :
  cstr m p l1 -> cstr m q l2 -> (length l1 < fuel)%nat ->
  exists z, strstr_match fuel m p q = Some z /\ (z = 0 <-> l2 `prefix_of` l1).
Proof.
  revert fuel p q l2. induction l1 as [|x l1 IH]; intros fuel p q l2 H1 H2 Hf; spend fuel; unfold cld.
  - apply cstr_nil in H1. rewrite H1. destruct l2 as [|y l2].
    + apply cstr_nil in H2. rewrite H2. exists 0. split; [done|]. split; [|done]. intros _. apply prefix_nil.
    + apply cstr_cons in H2 as (H2 & Hr & _). rewrite H2. simpl. exists y. split; [done|].
      unfold char in Hr. split; [lia|]. intros Hp%prefix_nil_inv. done.
  - apply cstr_cons in H1 as (H1 & Hr & H1'). rewrite H1. simpl. simpl in Hf. unfold char in Hr.
    destruct (Z.eqb_spec x 0); [lia|]. destruct l2 as [|y l2].
    + apply cstr_nil in H2. rewrite H2. exists 0. split; [done|]. split; [|done]. intros _. apply prefix_nil.
    + apply cstr_cons in H2 as (H2 & Hr2 & H2'). rewrite H2. simpl. unfold char in Hr2.
      destruct (Z.eqb_spec y 0); [lia|]. simpl. destruct (Z.eqb_spec x y) as [->|E]; simpl.
      * destruct (IH fuel (p + 1) (q + 1) l2) as (z & E1 & E2); [done|done|lia|].
        exists z. split; [done|]. rewrite E2. split; [apply prefix_cons|apply prefix_cons_inv_2].
      * exists y. split; [done|]. split; [lia|]. intros Hp. apply prefix_cons_inv_1 in Hp. congruence.
Qed.

(** Where [l2] occurs first in [l]. *)
Definition first_occurrence (s : Z) (l l2 : list Z) (r : Z) : Prop :=
  (r = NULL /\ forall a b, l <> a ++ l2 ++ b) \/
  (exists a b, l = a ++ l2 ++ b /\ r = s + length a /\
     forall a' b', l = a' ++ l2 ++ b' -> (length a <= length a')%nat).

Lemma first_occurrence_here s l l2 : l2 `prefix_of` l -> first_occurrence s l l2 s.
Proof.
  intros [b ->]. right. exists [], b. split_and!; [done|simpl; lia|]. intros. simpl. lia.
Qed.

Lemma first_occurrence_next s x l l2 r : ~ l2 `prefix_of` (x :: l) ->
  first_occurrence (s + 1) l l2 r -> first_occurrence s (x :: l) l2 r.
Proof.
  intros Hp [[-> H]|(a & b & -> & -> & H)].
  - left. split; [done|]. intros a b E. destruct a as [|y a].
    + apply Hp. rewrite E. by exists b.
    + simplify_eq/=. by apply (H a b).
  - right. exists (x :: a), b. split_and!; [done|simpl; lia|]. intros a' b' E.
    destruct a' as [|y a'].
    + exfalso. apply Hp. exists b'. exact E.
    + simplify_eq/=. match goal with E : a ++ l2 ++ b = _ |- _ => apply H in E end. lia.
Qed.

Lemma strstr_loop_spec fuel s t l l2 :
  cstr m s l -> cstr m t l2 -> l2 <> [] -> (length l < fuel)%nat ->
  exists r, strstr_loop fuel m s t = Some r /\ first_occurrence s l l2 r.
Proof.
  intros Hl H2 Hn. destruct l2 as [|y l2]; [done|].
  pose proof H2 as (Hy & Hry & _)%cstr_cons. revert fuel s Hl.
  induction l as [|x l IH]; intros fuel s Hl Hf; spend fuel; unfold cld.
  - apply cstr_nil in Hl. rewrite Hl. exists NULL. split; [done|]. left. split; [done|].
    intros a b E. by destruct a.
  - pose proof Hl as (Hx & Hrx & Hl')%cstr_cons. rewrite Hx. simpl. simpl in Hf. unfold char in Hrx.
    destruct (Z.eqb_spec x 0); [lia|]. simpl. rewrite Hy. simpl.
    destruct (Z.eqb_spec x y) as [->|E].
    + pose proof (cstr_fuel _ _ _ Hl) as Hfl. simpl in Hfl.
      destruct (strstr_match_spec (scan_fuel m) s t (y :: l) (y :: l2) Hl H2) as (z & E1 & E2);
        [simpl; lia|].
      rewrite E1. simpl. destruct (Z.eqb_spec z 0) as [Hz|Hz]; simpl.
      * exists s. split; [done|]. apply first_occurrence_here, E2, Hz.
      * destruct (IH fuel (s + 1)) as (r & E3 & E4); [done|lia|]. exists r. split; [done|].
        apply first_occurrence_next; [|done]. intros Hp. apply Hz, E2, Hp.
    + destruct (IH fuel (s + 1)) as (r & E3 & E4); [done|lia|]. exists r. split; [done|].
      apply first_occurrence_next; [|done]. intros Hp%prefix_cons_inv_1. congruence.
Qed.

(** An empty pattern is never found. *)
Lemma strstr_empty fuel s t l : cstr m s l -> cstr m t [] -> (length l < fuel)%nat ->
  strstr_loop fuel m s t = Some NULL.
Proof.
  intros Hl Ht%cstr_nil. revert fuel s Hl.
  induction l as [|x l IH]; intros fuel s Hl Hf; spend fuel; unfold cld.
  - apply cstr_nil in Hl. by rewrite Hl.
  - apply cstr_cons in Hl as (Hx & Hr & Hl). rewrite Hx. simpl. simpl in Hf. unfold char in Hr.
    destruct (Z.eqb_spec x 0); [lia|]. simpl. rewrite Ht. simpl.
    destruct (Z.eqb_spec x 0); [lia|]. simpl. apply IH; [done|lia].
Qed.

End strstr.

(** ** Copying *)

Section copy.
Implicit Types (m : cmem) (l : list Z).

(** The result of writing [l] at [p]. *)
Definition written m m' (p : Z) l : Prop := bytes_at m' p l /\ same_but m m' p (length l).

Lemma written_nil m p : written m m p [].
Proof. split; done. Qed.

Lemma written_cons m m' p x l :
  written (<[p := x]> m) m' (p + 1) l -> written m m' p (x :: l).
Proof.
  intros [H1 H2]. split.
  - split; [|done]. rewrite H2 by lia. apply lookup_insert_eq.
  - intros a Ha. simpl in Ha. rewrite H2 by lia. apply lookup_insert_ne. lia.
Qed.

Lemma written_app m1 m2 m3 p q l1 l2 : written m1 m2 p l1 -> q = p + length l1 ->
  written m2 m3 q l2 -> written m1 m3 p (l1 ++ l2).
Proof.
  intros [H1 H2] -> [H3 H4]. split.
  - apply bytes_at_app. split; [|done]. eapply bytes_at_same; [done|]. intros a Ha. apply H4. lia.
  - intros a Ha. rewrite length_app in Ha. rewrite H4, H2 by lia. done.
Qed.

Lemma memcpy_loop_spec m d s l :
  bytes_at m s l -> Forall (fun c => 0 <= c < 256) l -> mapped m d (length l) ->
  d <= s \/ s + length l <= d ->
  exists m', memcpy_loop (length l) m d s = Some m' /\ written m m' d l.
Proof.
  revert m d s. induction l as [|x l IH]; intros m d s Hs Hr Hd Hap.
  - exists m. split; [done|apply written_nil].
  - destruct Hs as [Hx Hs]. apply Forall_cons in Hr as [Hrx Hr]. simpl in *. unfold cld.
    rewrite Hx. simpl. rewrite cst_mapped by (apply Hd; lia). simpl. rewrite u8_char by done.
    destruct (IH (<[d := x]> m) (d + 1) (s + 1)) as (m' & E & Hw).
    + eapply bytes_at_same; [done|]. intros a Ha. apply lookup_insert_ne. lia.
    + done.
    + intros a Ha. apply lookup_insert_is_Some'. right. apply Hd. lia.
    + lia.
    + exists m'. split; [done|]. by apply written_cons.
Qed.

Lemma memset_loop_spec m p c k : mapped m p k ->
  exists m', memset_loop k m p c = Some m' /\ written m m' p (replicate k (u8 c)).
Proof.
  revert m p. induction k as [|k IH]; intros m p Hp; simpl.
  - exists m. split; [done|apply written_nil].
  - rewrite cst_mapped by (apply Hp; lia). simpl.
    destruct (IH (<[p := u8 c]> m) (p + 1)) as (m' & E & Hw).
    { intros a Ha. apply lookup_insert_is_Some'. right. apply Hp. lia. }
    exists m'. split; [done|]. by apply written_cons.
Qed.

Lemma bzero_loop_eq k m p : bzero_loop k m p = memset_loop k m p 0.
Proof.
  revert m p. induction k as [|k IH]; intros m p; simpl; [done|].
  destruct (cst m p 0); simpl; [apply IH|done].
Qed.

Lemma strncpy_pad_eq k m p : strncpy_pad k m p = memset_loop k m p 0.
Proof.
  revert m p. induction k as [|k IH]; intros m p; simpl; [done|].
  destruct (cst m p 0); simpl; [apply IH|done].
Qed.

(** [strncpy] writes exactly [k] bytes: the string cut off at [k], padded with
    zeros. *)
Definition padded (k : nat) l : list Z := take k l ++ replicate (k - length l) 0.

Lemma strncpy_loop_spec m k d s l :
  cstr m s l -> mapped m d k -> apart d k s (S (length l)) ->
  exists m', strncpy_loop k m d s = Some m' /\ written m m' d (padded k l).
Proof.
  revert m k d s. induction l as [|x l IH]; intros m k d s Hs Hd Hap.
  - destruct k as [|k]; [exists m; split; [done|apply written_nil]|].
    apply cstr_nil in Hs. simpl. unfold cld. rewrite Hs. simpl.
    rewrite cst_mapped by (apply Hd; lia). simpl.
    rewrite strncpy_pad_eq. destruct (memset_loop_spec (<[d := 0]> m) (d + 1) 0 k) as (m' & E & Hw).
    { intros a Ha. apply lookup_insert_is_Some'. right. apply Hd. lia. }
    exists m'. split; [done|]. apply written_cons. exact Hw.
  - destruct k as [|k]; [exists m; split; [done|apply written_nil]|].
    apply cstr_cons in Hs as (Hx & Hr & Hs). simpl. unfold cld. rewrite Hx. simpl.
    unfold char in Hr. rewrite cst_mapped by (apply Hd; lia). simpl. rewrite u8_char by lia.
    destruct (Z.eqb_spec x 0); [lia|]. unfold apart in *. simpl in Hap.
    destruct (IH (<[d := x]> m) k (d + 1) (s + 1)) as (m' & E & Hw).
    + eapply cstr_same; [done|]. intros a Ha. apply lookup_insert_ne. lia.
    + intros a Ha. apply lookup_insert_is_Some'. right. apply Hd. lia.
    + lia.
    + exists m'. split; [done|]. by apply written_cons.
Qed.

Lemma strend_spec m fuel s l : cstr m s l -> (length l < fuel)%nat ->
  strend fuel m s = Some (s + length l).
Proof.
  revert fuel s. induction l as [|x l IH]; intros fuel s Hs Hf; spend fuel; unfold cld.
  - apply cstr_nil in Hs. rewrite Hs. simpl. f_equal. lia.
  - apply cstr_cons in Hs as (Hx & Hr & Hs). rewrite Hx. simpl. simpl in Hf. unfold char in Hr.
    destruct (Z.eqb_spec x 0); [lia|]. rewrite IH by (done || lia). f_equal. lia.
Qed.

Lemma strncat_copy_spec m fuel d s n l :
  cstr m s l -> 0 <= n -> mapped m d (S (min (Z.to_nat n) (length l))) ->
  apart d (S (min (Z.to_nat n) (length l))) s (S (length l)) -> (length l < fuel)%nat ->
  exists m', strncat_copy fuel m d s n = Some m' /\
    written m m' d (take (Z.to_nat n) l ++ [0]).
Proof.
  revert m fuel d s n. induction l as [|x l IH]; intros m fuel d s n Hs Hn Hd Hap Hf;
    spend fuel; unfold cld.
  - apply cstr_nil in Hs. rewrite Hs. simpl. rewrite cst_mapped by (apply Hd; lia). simpl.
    eexists. split; [done|]. rewrite take_nil. apply written_cons, written_nil.
  - apply cstr_cons in Hs as (Hx & Hr & Hs). rewrite Hx. simpl. simpl in Hf. unfold char in Hr.
    rewrite cst_mapped by (apply Hd; lia). simpl. destruct (Z.eqb_spec x 0); [lia|].
    destruct (Z.ltb_spec (n - 1) 0) as [H0|H0].
    + rewrite cst_mapped by (apply lookup_insert_is_Some'; right; apply Hd; lia).
      eexists. split; [done|]. replace (Z.to_nat n) with 0%nat by lia. simpl.
      rewrite insert_insert_eq. apply written_cons, written_nil.
    + rewrite u8_char by lia. unfold apart in *. simpl length in *.
      replace (Z.to_nat n) with (S (Z.to_nat (n - 1))) in * by lia. simpl in Hap, Hd.
      destruct (IH (<[d := x]> m) fuel (d + 1) (s + 1) (n - 1)) as (m' & E & Hw).
      * eapply cstr_same; [done|]. intros a Ha. apply lookup_insert_ne. lia.
      * lia.
      * intros a Ha. apply lookup_insert_is_Some'. right. apply Hd. lia.
      * lia.
      * lia.
      * exists m'. split; [done|]. simpl. by apply written_cons.
Qed.

End copy.

(** ** Decimal numbers *)

(** The value of a list of digits, most significant first. *)
Definition decimal (l : list Z) : Z := foldl (fun n c => n * 10 + (c - 48)) 0 l.

Definition digit (c : Z) : Prop := 48 <= c <= 57.

Section numbers.
Context (m : cmem).

Lemma foldl_decimal_mono l n : Forall digit l -> 0 <= n -> n <= foldl (fun n c => n * 10 + (c - 48)) n l.
Proof.
  revert n. induction l as [|c l IH]; intros n Hd Hn; simpl; [lia|].
  apply Forall_cons in Hd as [Hc Hd]. unfold digit in Hc. transitivity (n * 10 + (c - 48)); [lia|].
  apply IH; [done|lia].
Qed.

Lemma ato_digits_spec fuel p n l z :
  bytes_at m p (l ++ [z]) -> Forall digit l -> ~ digit z -> (length l < fuel)%nat ->
  0 <= n -> foldl (fun n c => n * 10 + (c - 48)) n l < 2 ^ 31 ->
  ato_digits fuel m p n = Some (foldl (fun n c => n * 10 + (c - 48)) n l).
Proof.
  revert fuel p n. induction l as [|c l IH]; intros fuel p n Hp Hd Hz Hf Hn Hb; spend fuel; unfold cld.
  - destruct Hp as [Hp _]. rewrite Hp. simpl. unfold digit in Hz.
    destruct (Z.leb_spec 48 z), (Z.leb_spec z 57); simpl; done || lia.
  - destruct Hp as [Hp Hp']. apply Forall_cons in Hd as [Hc Hd]. rewrite Hp. simpl. simpl in Hf, Hb.
    unfold digit in Hc. destruct (Z.leb_spec 48 c), (Z.leb_spec c 57); try lia. simpl.
    pose proof (foldl_decimal_mono l (n * 10 + (c - 48)) Hd).
    rewrite i32_id by (unfold is_i32; lia). replace (n * 10 + c - 48) with (n * 10 + (c - 48)) by lia.
    apply IH; done || lia.
Qed.

Definition blank (c : Z) : Prop := c = 32 \/ c = 9.

Lemma ato_skip_spec fuel p bl c :
  bytes_at m p (bl ++ [c]) -> Forall blank bl -> ~ blank c -> (length bl < fuel)%nat ->
  ato_skip fuel m p =
  Some (if c =? 45 then (p + length bl + 1, true)
        else if c =? 43 then (p + length bl + 1, false) else (p + length bl, false)).
Proof.
  revert fuel p. induction bl as [|b bl IH]; intros fuel p Hp Hb Hc Hf; spend fuel; unfold cld.
  - destruct Hp as [Hp _]. rewrite Hp. simpl. unfold blank in Hc.
    destruct (Z.eqb_spec c 32), (Z.eqb_spec c 9); try lia. simpl.
    destruct (c =? 45), (c =? 43); repeat f_equal; lia.
  - destruct Hp as [Hp Hp']. apply Forall_cons in Hb as [Hb Hbl]. rewrite Hp. simpl. simpl in Hf.
    assert (Eb : ((b =? 32) || (b =? 9)) = true).
    { unfold blank in Hb. destruct (Z.eqb_spec b 32), (Z.eqb_spec b 9); done || lia. }
    rewrite Eb, IH by (done || lia).
    by replace (p + 1 + length bl) with (p + S (length bl)) by lia.
Qed.

(** A number in memory, as [atoi] reads it: blanks, an optional sign, digits. *)
Definition numeral (neg : bool) (ds : list Z) : list Z := (if neg then [45] else []) ++ ds.

Lemma atoi_spec p bl (neg : bool) ds z :
  bytes_at m p (bl ++ numeral neg ds ++ [z]) -> Forall blank bl -> Forall digit ds ->
  ds <> [] -> ~ digit z -> decimal ds < 2 ^ 31 ->
  atoi m p = Some (if neg then - decimal ds else decimal ds).
Proof.
  intros H Hb Hd Hne Hz Hlt. unfold atoi.
  pose proof (bytes_fuel _ _ _ H) as Hf. unfold numeral in *. rewrite !length_app in Hf. simpl in Hf.
  apply bytes_at_app in H as [H1 H2].
  assert (Hpos : 0 <= decimal ds) by (apply foldl_decimal_mono; [done|lia]).
  destruct neg; simpl in H2, Hf.
  - destruct H2 as [H2 H3]. rewrite (ato_skip_spec _ _ bl 45).
    + simpl. rewrite (ato_digits_spec _ _ 0 ds z); [|done..|lia|lia|done]. simpl. fold (decimal ds).
      rewrite i32_id by (unfold is_i32; lia). done.
    + apply bytes_at_app. split; [done|]. split; done.
    + done.
    + unfold blank. lia.
    + lia.
  - destruct ds as [|d ds]; [done|]. pose proof Hd as [Hd1 _]%Forall_cons. unfold digit in Hd1.
    rewrite (ato_skip_spec _ _ bl d).
    + destruct (Z.eqb_spec d 45); [lia|]. destruct (Z.eqb_spec d 43); [lia|]. simpl.
      rewrite (ato_digits_spec _ _ 0 (d :: ds) z); [done|done..|simpl in *; lia|lia|done].
    + apply bytes_at_app. split; [done|]. destruct H2 as [H2 _]. split; done.
    + done.
    + unfold blank. lia.
    + lia.
Qed.

End numbers.

(** ** Deciding the predicates on a concrete memory *)

Definition place (p : Z) (l : list Z) : cmem := list_to_map (zip (seqZ p (length l)) l).

Fixpoint bytes_atb (m : cmem) (p : Z) (l : list Z) : bool :=
  match l with
  | [] => true
  | x :: l => bool_decide (m !! p = Some x) && bytes_atb m (p + 1) l
  end.

Lemma bytes_atb_spec m p l : bytes_atb m p l = true -> bytes_at m p l.
Proof.
  revert p. induction l as [|x l IH]; intros p; simpl; [done|].
  intros [H1 H2]%andb_true_iff. apply bool_decide_eq_true in H1. split; auto.
Qed.

Definition cstrb (m : cmem) (p : Z) (l : list Z) : bool :=
  bytes_atb m p (l ++ [0]) && forallb (fun c => (0 <? c) && (c <? 256)) l.

Lemma cstrb_spec m p l : cstrb m p l = true -> cstr m p l.
Proof.
  intros [H1 H2]%andb_true_iff. split; [by apply bytes_atb_spec|].
  apply Forall_forall. intros x Hx. rewrite forallb_forall in H2.
  apply list_elem_of_In, H2 in Hx. btests. done.
Qed.

Definition mappedb (m : cmem) (p : Z) (n : nat) : bool :=
  forallb (fun a => bool_decide (is_Some (m !! a))) (seqZ p n).

Lemma mappedb_spec m p n : mappedb m p n = true -> mapped m p n.
Proof.
  intros H a Ha. unfold mappedb in H. rewrite forallb_forall in H.
  apply (bool_decide_eq_true (is_Some (m !! a))), H, list_elem_of_In, elem_of_seqZ. lia.
Qed.
