(* ===== verification/Printf.v ===== *)
(** * Formatted output (lib/libxc/doprnt.c, sprintf.c) *)

From S2P Require Import Prelude CString.

Definition MAXSTR : Z := 80.

(** ** Conversion of numbers

    [temp[1..k]] are the digits of [num], the last one first; [temp[0]] is the
    terminator. *)

Fixpoint fill_temp (k : nat) (dig next : Z -> Z) (num : Z) : list Z :=
  match k with
  | O => []
  | S k => u8 (dig num) :: fill_temp k dig next (next num)
  end.

(** [for (i = top; temp[i] == '0'; i--);] *)
Fixpoint skip_zeros (temp : list Z) (i : nat) : nat :=
  match i with
  | O => O
  | S i' => if bool_decide (temp !! i = Some 48) then skip_zeros temp i' else i
  end.

(** The bytes written to [str]: [temp[i]] down to [temp[0]]. *)
Definition prt_out (temp : list Z) (top : nat) : list Z :=
  let i := skip_zeros temp top in
  let i := if (i =? 0)%nat then 1%nat else i in
  reverse (take (S i) temp).

Definition prtl10 (num : Z) : list Z :=
  prt_out (0 :: fill_temp 10 (fun num => Z.rem num 10 + 48) (fun num => Z.quot num 10) num) 10.

(** After the loop, [temp[11] &= '3']. *)
Definition prtl8 (num : Z) : list Z :=
  let temp := 0 :: fill_temp 11 (fun num => Z.land num 7 + 48) (fun num => Z.shiftr num 3) num in
  prt_out (alter (fun c => Z.land c 51) 11%nat temp) 11.

Definition lower_hex : list Z := seqZ 48 10 ++ seqZ 97 6.
Definition upper_hex : list Z := seqZ 48 10 ++ seqZ 65 6.

Definition prtl16 (num : Z) : list Z :=
  prt_out (0 :: fill_temp 8 (fun num => nth (Z.to_nat (Z.land num 15)) lower_hex 0)
                  (fun num => Z.shiftr num 4) num) 8.

Definition prtX16 (num : Z) : list Z :=
  prt_out (0 :: fill_temp 8 (fun num => nth (Z.to_nat (Z.land num 15)) upper_hex 0)
                  (fun num => Z.shiftr num 4) num) 8.

Definition prtl2 (num : Z) : list Z :=
  prt_out (0 :: fill_temp 32 (fun num => if Z.rem num 2 =? 0 then 48 else 49)
                  (fun num => Z.shiftr num 1) num) 32.

(** ** The parts of a conversion specification *)

(** [while ('0' <= *fmt && *fmt <= '9') n = n * 10 + *fmt++ - '0'] *)
Fixpoint scan_number (fuel : nat) (m : cmem) (fmt n : Z) : option (Z * Z) :=
  match fuel with
  | O => None
  | S fuel =>
      c ← cld m fmt;
      if (48 <=? c) && (c <=? 57)
      then scan_number fuel m (fmt + 1) (i32 (n * 10 + c - 48))
      else Some (fmt, n)
  end.

(** [va_arg(ap, int)] *)
Definition va_arg (ap : list Z) : option (Z * list Z) :=
  match ap with a :: ap => Some (a, ap) | [] => None end.

Record spec : Type := mkspec { leftjust : bool; fill : Z; fmin : Z; fmax : Z }.

Definition parse_spec (m : cmem) (fmt : Z) (ap : list Z) : option (Z * list Z * spec) :=
  c ← cld m fmt;
  let leftjust := c =? 45 in
  let fmt := if leftjust then fmt + 1 else fmt in
  c ← cld m fmt;
  let fill := if c =? 48 then 48 else 32 in
  let fmt := if c =? 48 then fmt + 1 else fmt in
  c ← cld m fmt;
  '(fmt, ap, fmin) ←
    (if c =? 42 then '(a, ap) ← va_arg ap; Some (fmt + 1, ap, a)
     else '(fmt, n) ← scan_number (scan_fuel m) m fmt 0; Some (fmt, ap, n));
  c ← cld m fmt;
  '(fmt, ap, fmax) ←
    (if c =? 46 then
       let fmt := fmt + 1 in
       c ← cld m fmt;
       if c =? 42 then '(a, ap) ← va_arg ap; Some (fmt + 1, ap, a)
       else '(fmt, n) ← scan_number (scan_fuel m) m fmt 0; Some (fmt, ap, n)
     else Some (fmt, ap, 0));
  Some (fmt, ap, mkspec leftjust fill fmin fmax).

(** ** The switch on the conversion character *)

(** Where [str] points: the local array [string], memory, or the literal
    ["(null)"]. *)
Inductive strptr : Type := InString | AtPtr (p : Z) | InNull.

(** Writing the bytes [l] to [string]; the array has 20 bytes. *)
Fixpoint fill_string (string : cmem) (i : Z) (l : list Z) : option cmem :=
  match l with
  | [] => Some string
  | c :: l => string ← cst string i c; fill_string string (i + 1) l
  end.

(** [while (larg < 0) { larg -= 1000000000L; ++digit1; }]: the third
    subtraction wraps around at the latest. *)
Fixpoint unsign (fuel : nat) (larg digit1 : Z) : option (Z * Z) :=
  if larg <? 0 then
    match fuel with
    | O => None
    | S fuel => unsign fuel (i32 (larg - 1000000000)) (digit1 + 1)
    end
  else Some (larg, digit1).

Section doprnt.
(** The character output function and the state it works on. *)
Context {X : Type} (func : cmem -> X -> Z -> option (cmem * X)).

Record conv : Type := mkconv {
  cv_m : cmem; cv_x : X; cv_ap : list Z; cv_string : cmem; cv_str : strptr;
  cv_sign : Z; cv_spec : spec;
}.

Definition convert (m : cmem) (x : X) (f : Z) (ap : list Z) (string : cmem) (sp : spec)
  : option conv :=
  let no_max := mkspec (leftjust sp) (fill sp) (fmin sp) 0 in
  let number (prt : Z -> list Z) :=
    '(larg, ap) ← va_arg ap;
    string ← fill_string string 0 (prt larg);
    Some (mkconv m x ap string InString 0 no_max) in
  if f =? 99 (* c *) then
    '(a, ap) ← va_arg ap;
    string ← fill_string string 0 [a; 0];
    Some (mkconv m x ap string InString 0 (mkspec (leftjust sp) 32 (fmin sp) 0))
  else if f =? 115 (* s *) then
    '(str, ap) ← va_arg ap;
    Some (mkconv m x ap string (if str =? NULL then InNull else AtPtr str) 0
            (mkspec (leftjust sp) 32 (fmin sp) (fmax sp)))
  else if f =? 100 (* d *) then
    '(larg, ap) ← va_arg ap;
    let sign := if larg <? 0 then 45 else 0 in
    let larg := if larg <? 0 then i32 (- larg) else larg in
    string ← fill_string string 0 (prtl10 larg);
    Some (mkconv m x ap string InString sign sp)
  else if f =? 117 (* u *) then
    '(larg, ap) ← va_arg ap;
    '(larg, digit1) ← unsign 3 larg 0;
    string ← fill_string string 0 (prtl10 larg);
    c ← cld string 0;
    string ← cst string 0 (c + digit1);
    Some (mkconv m x ap string InString 0 no_max)
  else if f =? 111 (* o *) then number prtl8
  else if f =? 88 (* X *) then number prtX16
  else if f =? 120 (* x *) then number prtl16
  else if f =? 98 (* b *) then number prtl2
  else
    '(m, x) ← func m x f;
    Some (mkconv m x ap string InString 0 sp).

(** ** Output of the field *)

Definition str_at (m : cmem) (string : cmem) (str : strptr) (i : Z) : option Z :=
  match str with
  | InString => cld string i
  | AtPtr p => cld m (p + i)
  | InNull => [40; 110; 117; 108; 108; 41; 0] !! Z.to_nat i
  end.

Fixpoint str_length (fuel : nat) (m string : cmem) (str : strptr) (length : Z) : option Z :=
  match fuel with
  | O => None
  | S fuel =>
      c ← str_at m string str length;
      if c =? 0 then Some length else str_length fuel m string str (length + 1)
  end.

(** [for (i = 0; i < leading; i++) ( *func) (farg, fill)] *)
Fixpoint emit_fill (k : nat) (m : cmem) (x : X) (c : Z) : option (cmem * X) :=
  match k with
  | O => Some (m, x)
  | S k => '(m, x) ← func m x c; emit_fill k m x c
  end.

(** [for (i = 0; i < length; i++) ( *func) (farg, str[i])] *)
Fixpoint emit_str (k : nat) (m : cmem) (x : X) (string : cmem) (str : strptr) (i : Z)
  : option (cmem * X) :=
  match k with
  | O => Some (m, x)
  | S k =>
      c ← str_at m string str i;
      '(m, x) ← func m x c;
      emit_str k m x string str (i + 1)
  end.

Definition emit_field (v : conv) : option (cmem * X) :=
  let '(mkconv m x _ string str sign sp) := v in
  length ← str_length (scan_fuel m + 20) m string str 0;
  let fmin := if (MAXSTR <? fmin sp) || (fmin sp <? 0) then 0 else fmin sp in
  let fmax := if (MAXSTR <? fmax sp) || (fmax sp <? 0) then 0 else fmax sp in
  let length := if negb (fmax =? 0) && (fmax <? length) then fmax else length in
  let leading :=
    if negb (fmax =? 0) || negb (fmin =? 0) then
      let leading := if negb (fmin =? 0) then fmin - length else 0 in
      if sign =? 45 then leading - 1 else leading
    else 0 in
  '(m, x) ← (if (sign =? 45) && (fill sp =? 48) then func m x sign else Some (m, x));
  '(m, x) ← (if leftjust sp then Some (m, x) else emit_fill (Z.to_nat leading) m x (fill sp));
  '(m, x) ← (if (sign =? 45) && (fill sp =? 32) then func m x sign else Some (m, x));
  '(m, x) ← emit_str (Z.to_nat length) m x string str 0;
  if leftjust sp then emit_fill (Z.to_nat leading) m x (fill sp) else Some (m, x).

(** ** The loop over the format

    Each round consumes at least one byte of the format. *)
Fixpoint doprnt_loop (fuel : nat) (m : cmem) (x : X) (fmt : Z) (ap : list Z) (string : cmem)
  : option (cmem * X) :=
  match fuel with
  | O => None
  | S fuel =>
      c ← cld m fmt;
      let fmt := fmt + 1 in
      if negb (c =? 37) then
        if c =? 0 then Some (m, x)
        else '(m, x) ← func m x c; doprnt_loop fuel m x fmt ap string
      else
        c ← cld m fmt;
        if c =? 37 then
          '(m, x) ← func m x c; doprnt_loop fuel m x (fmt + 1) ap string
        else
          '(fmt, ap, sp) ← parse_spec m fmt ap;
          f ← cld m fmt;
          let fmt := fmt + 1 in
          if f =? 0 then func m x 37
          else
            v ← convert m x f ap string sp;
            '(m, x) ← emit_field v;
            doprnt_loop fuel m x fmt (cv_ap v) (cv_string v)
  end.

(** [string] is what the stack holds when the function is entered. *)
Definition doprnt (m : cmem) (x : X) (fmt : Z) (ap : list Z) (string : cmem) : option (cmem * X) :=
  doprnt_loop (scan_fuel m) m x fmt ap string.

End doprnt.

(** The output function of [sprintf]: [*( *cpp)++ = c]. *)
Definition sprntf (m : cmem) (s : Z) (ac : Z) : option (cmem * Z) :=
  m ← cst m s ac; Some (m, s + 1).

Definition sprintf (m : cmem) (str fmt : Z) (ap : list Z) (string : cmem) : option (cmem * Z) :=
  '(m, s) ← doprnt sprntf m str fmt ap string;
  m ← cst m s 0;
  Some (m, str).
