(* ===== verification/PrintfSpec.v ===== *)
(** * What formatted output writes *)

From S2P Require Import Prelude CString CStringSpec Printf.

Local Coercion Z.of_nat : nat >-> Z.
Local Arguments Z.eqb : simpl never.
Local Arguments Z.ltb : simpl never.
Local Arguments Z.leb : simpl never.
Local Arguments Z.add : simpl never.
Local Arguments Z.sub : simpl never.
Local Arguments Z.mul : simpl never.
Local Arguments Z.pow : simpl never.

(** ** Digits in a base *)

(** The value of a digit character. *)
Definition dv (c : Z) : Z :=
  if (48 <=? c) && (c <=? 57) then c - 48
  else if (97 <=? c) && (c <=? 102) then c - 87
  else if (65 <=? c) && (c <=? 70) then c - 55
  else 0.

(** The value of a text, most significant digit first, and of a list of
    digits, least significant digit first. *)
Definition value (b : Z) (l : list Z) : Z := foldl (fun n c => n * b + dv c) 0 l.
Definition rvalue (b : Z) (l : list Z) : Z := foldr (fun c n => dv c + b * n) 0 l.

Lemma value_snoc b l c : value b (l ++ [c]) = value b l * b + dv c.
Proof. unfold value. by rewrite foldl_app. Qed.

Lemma value_reverse b l : value b (reverse l) = rvalue b l.
Proof.
  induction l as [|c l IH]; [done|]. rewrite reverse_cons, value_snoc, IH. simpl. lia.
Qed.

Lemma rvalue_zeros b k : rvalue b (replicate k 48) = 0.
Proof.
  induction k as [|k IH]; [done|]. simpl. rewrite IH. change (dv 48) with 0. lia.
Qed.

Lemma rvalue_app b l1 l2 : rvalue b l2 = 0 -> rvalue b (l1 ++ l2) = rvalue b l1.
Proof. intros H. induction l1 as [|c l1 IH]; simpl; [done|]. by rewrite IH. Qed.

Lemma length_fill_temp k dig next num : length (fill_temp k dig next num) = k.
Proof. revert num. induction k as [|k IH]; intros num; simpl; auto. Qed.

(** The digits the loop stores are those of [num] in base [b]. *)
Lemma fill_value b dig next (P : Z -> Prop) k num : 0 < b ->
  (forall x, P x -> dv (u8 (dig x)) = x mod b /\ next x = x / b /\ P (next x)) ->
  P num -> rvalue b (fill_temp k dig next num) = num mod b ^ k.
Proof.
  intros Hb H. revert num. induction k as [|k IH]; intros num Hn; simpl.
  - change (Z.of_nat 0) with 0. rewrite Z.pow_0_r. by rewrite Z.mod_1_r.
  - destruct (H num Hn) as (E1 & E2 & E3). rewrite IH, E1, E2 by done.
    rewrite Nat2Z.inj_succ, Z.pow_succ_r by lia. rewrite Z.rem_mul_r; [done|lia|].
    apply Z.pow_pos_nonneg; lia.
Qed.

Lemma fill_Forall (Q : Z -> Prop) dig next (P : Z -> Prop) k num :
  (forall x, P x -> Q (u8 (dig x)) /\ P (next x)) -> P num -> Forall Q (fill_temp k dig next num).
Proof.
  intros H. revert num. induction k as [|k IH]; intros num Hn; simpl; constructor.
  - by apply H.
  - by apply IH, H.
Qed.

Lemma skip_zeros_spec ds k : (k <= length ds)%nat ->
  let i := skip_zeros (0 :: ds) k in
  (i <= k)%nat /\ take k ds = take i ds ++ replicate (k - i) 48 /\
  (i = 0%nat \/ ds !! (i - 1)%nat <> Some 48).
Proof.
  induction k as [|k IH]; intros Hk; simpl; [split_and!; auto|].
  case_bool_decide as E.
  - destruct (IH ltac:(lia)) as (H1 & H2 & H3). split_and!; [lia| |done].
    rewrite (take_S_r ds k 48 E), H2, <- app_assoc.
    rewrite Nat.sub_succ_l by exact H1.
    rewrite replicate_S_end. done.
  - split_and!; [lia| |]. 
    + by rewrite Nat.sub_diag, app_nil_r.
    + right. by replace (S k - 1)%nat with k by lia.
Qed.

(** The text of a number: its digits without leading zeros, but at least one. *)
Lemma prt_out_spec b ds k : 0 < b -> length ds = k -> (0 < k)%nat ->
  exists os, prt_out (0 :: ds) k = os ++ [0] /\ value b os = rvalue b ds /\ os <> [] /\
    (forall Q : Z -> Prop, Forall Q ds -> Forall Q os) /\ (length os <= k)%nat /\
    (head os = Some 48 -> length os = 1%nat).
Proof.
  intros Hb Hl Hk. unfold prt_out.
  destruct (skip_zeros_spec ds k) as (H1 & H2 & H3); [lia|].
  set (i := skip_zeros (0 :: ds) k) in *. rewrite (take_ge ds k) in H2 by lia.
  set (j := if (i =? 0)%nat then 1%nat else i).
  assert (Hj : (1 <= j <= k)%nat) by (unfold j; destruct (Nat.eqb_spec i 0); lia).
  exists (reverse (take j ds)). cbn [take]. rewrite reverse_cons.
  assert (Hz : rvalue b (take j ds) = rvalue b ds).
  { unfold j. destruct (Nat.eqb_spec i 0) as [E|E].
    - rewrite H2, E. rewrite Nat.sub_0_r, take_0. simpl. rewrite take_replicate, !rvalue_zeros. done.
    - rewrite H2 at 2. symmetry. apply rvalue_app, rvalue_zeros. }
  split_and!; [done| | | | |].
  - by rewrite value_reverse.
  - intros E. apply (f_equal length) in E. rewrite length_reverse, length_take in E. simpl in E. lia.
  - intros Q HQ. rewrite Forall_reverse. by apply Forall_take.
  - rewrite length_reverse, length_take. lia.
  - rewrite length_reverse, length_take. intros E. unfold j in *.
    destruct (Nat.eqb_spec i 0) as [Ei|Ei]; [lia|]. destruct H3 as [H3|H3]; [lia|].
    exfalso. apply H3. destruct (lookup_lt_is_Some_2 ds (i - 1)) as [c Hc]; [lia|].
    replace i with (S (i - 1)) in E by lia. rewrite (take_S_r ds (i - 1) c Hc), reverse_snoc in E.
    simpl in E. congruence.
Qed.

(** What a number is printed as: the [value] in base [b] of its text. *)
Definition prints (b : Z) (Q : Z -> Prop) (v : Z) (n : nat) (out : list Z) : Prop :=
  exists os, out = os ++ [0] /\ value b os = v /\ os <> [] /\ Forall Q os /\
    (length os <= n)%nat /\ (head os = Some 48 -> length os = 1%nat).

Lemma prt_prints b (Q P : Z -> Prop) dig next k num : 0 < b -> (0 < k)%nat ->
  (forall x, P x -> dv (u8 (dig x)) = x mod b /\ next x = x / b /\ P (next x)) ->
  (forall x, P x -> Q (u8 (dig x))) -> P num ->
  prints b Q (num mod b ^ k) k (prt_out (0 :: fill_temp k dig next num) k).
Proof.
  intros Hb Hk H HQ Hn.
  destruct (prt_out_spec b (fill_temp k dig next num) k) as (os & E1 & E2 & E3 & E4 & E5 & E6);
    [done|apply length_fill_temp|done|].
  exists os. split_and!; [done| |done| |done|done].
  - rewrite E2. apply (fill_value _ _ _ P); done.
  - apply E4. apply (fill_Forall _ _ _ P); [|done]. intros x Hx. split; [by apply HQ|by apply H].
Qed.

Definition xdigit (c : Z) : Prop := digit c \/ 97 <= c <= 102.
Definition Xdigit (c : Z) : Prop := digit c \/ 65 <= c <= 70.

Lemma prtl10_prints num : 0 <= num < 10 ^ 10 -> prints 10 digit num 10 (prtl10 num).
Proof.
  intros H. rewrite <- (Z.mod_small num (10 ^ 10%nat)) at 1 by (exact H).
  apply (prt_prints 10 digit (fun x => 0 <= x)); [lia|lia| | |lia].
  - intros x Hx. rewrite Z.rem_mod_nonneg, Z.quot_div_nonneg by lia.
    pose proof (Z.mod_pos_bound x 10). split_and!; [|done|by apply Z.div_pos].
    rewrite u8_char by lia. unfold dv.
    destruct (Z.leb_spec 48 (x mod 10 + 48)), (Z.leb_spec (x mod 10 + 48) 57); simpl; lia.
  - intros x Hx. rewrite Z.rem_mod_nonneg by lia. pose proof (Z.mod_pos_bound x 10).
    rewrite u8_char by lia. unfold digit. lia.
Qed.

(** A statement on the 16 hexadecimal digits. *)
Lemma hex_cases (Q : Z -> Prop) x : 0 <= x < 16 ->
  Forall Q (seqZ 0 16) -> Q x.
Proof. intros Hx H. rewrite Forall_forall in H. apply H, elem_of_seqZ. lia. Qed.

Lemma hex_prints tab (Q : Z -> Prop) num :
  Forall (fun x => let c := u8 (nth (Z.to_nat x) tab 0) in dv c = x /\ Q c) (seqZ 0 16) ->
  prints 16 Q (u32 num) 8
    (prt_out (0 :: fill_temp 8 (fun num => nth (Z.to_nat (Z.land num 15)) tab 0)
                     (fun num => Z.shiftr num 4) num) 8).
Proof.
  intros H. apply (prt_prints 16 Q (fun _ => True)); [lia|lia| | |done];
    intros x _; change 15 with (Z.ones 4); rewrite Z.land_ones by lia;
    pose proof (Z.mod_pos_bound x (2 ^ 4)).
  - rewrite Z.shiftr_div_pow2 by lia. change (2 ^ 4) with 16 in *. split_and!; [|done|done].
    apply (hex_cases (fun y => dv (u8 (nth (Z.to_nat y) tab 0)) = y)); [lia|].
    eapply Forall_impl; [exact H|]. intros y Hy. apply Hy.
  - change (2 ^ 4) with 16 in *.
    apply (hex_cases (fun y => Q (u8 (nth (Z.to_nat y) tab 0)))); [lia|].
    eapply Forall_impl; [exact H|]. intros y Hy. apply Hy.
Qed.

Ltac hexdigit :=
  split; [vm_compute; reflexivity|];
  first [left; vm_compute; split; discriminate | right; vm_compute; split; discriminate].

Lemma prtl16_prints num : prints 16 xdigit (u32 num) 8 (prtl16 num).
Proof.
  apply hex_prints. change (seqZ 0 16) with [0; 1; 2; 3; 4; 5; 6; 7; 8; 9; 10; 11; 12; 13; 14; 15].
  repeat (apply Forall_cons; split; [hexdigit|]). apply Forall_nil. done.
Qed.

Lemma prtX16_prints num : prints 16 Xdigit (u32 num) 8 (prtX16 num).
Proof.
  apply hex_prints. change (seqZ 0 16) with [0; 1; 2; 3; 4; 5; 6; 7; 8; 9; 10; 11; 12; 13; 14; 15].
  repeat (apply Forall_cons; split; [hexdigit|]). apply Forall_nil. done.
Qed.

Lemma prtl2_prints num : prints 2 digit (u32 num) 32 (prtl2 num).
Proof.
  apply (prt_prints 2 digit (fun _ => True)); [lia|lia| | |done]; intros x _.
  - rewrite Z.shiftr_div_pow2 by lia. change (2 ^ 1) with 2. split_and!; [|done|done].
    pose proof (Z.rem_mod_eq_0 x 2). pose proof (Z.mod_pos_bound x 2).
    destruct (Z.eqb_spec (Z.rem x 2) 0) as [E|E].
    + change (dv (u8 48)) with 0. lia.
    + change (dv (u8 49)) with 1. lia.
  - destruct (Z.rem x 2 =? 0); vm_compute; split; discriminate.
Qed.

(** Octal: the eleventh digit has two bits. *)

Lemma fill_temp_snoc k dig next num :
  fill_temp (S k) dig next num = fill_temp k dig next num ++ [u8 (dig (Nat.iter k next num))].
Proof.
  revert num. induction k as [|k IH]; intros num; [done|].
  change (fill_temp (S (S k)) dig next num) with (u8 (dig num) :: fill_temp (S k) dig next (next num)).
  rewrite IH, Nat.iter_succ_r. done.
Qed.

Lemma rvalue_snoc b l c : rvalue b (l ++ [c]) = rvalue b l + b ^ length l * dv c.
Proof.
  induction l as [|x l IH]; simpl rvalue.
  - change (Z.of_nat (length (@nil Z))) with 0. rewrite Z.pow_0_r. lia.
  - rewrite IH. simpl length. rewrite Nat2Z.inj_succ, Z.pow_succ_r by lia. lia.
Qed.

Lemma iter_shiftr n k num : 0 <= n -> Nat.iter k (fun x => Z.shiftr x n) num = num / 2 ^ (n * k).
Proof.
  intros Hn. rewrite <- Z.shiftr_div_pow2 by lia. revert num. induction k as [|k IH]; intros num.
  - replace (n * 0%nat) with 0 by lia. by rewrite Z.shiftr_0_r.
  - rewrite Nat.iter_succ, IH, Z.shiftr_shiftr by lia. f_equal. lia.
Qed.

Lemma oct_cases (Q : Z -> Prop) x : 0 <= x < 8 -> Forall Q [0; 1; 2; 3; 4; 5; 6; 7] -> Q x.
Proof. intros Hx H. rewrite Forall_forall in H. apply H. set_solver by lia. Qed.


Lemma oct_digit x : let c := u8 (Z.land x 7 + 48) in
  dv c = x mod 8 /\ digit c /\ dv (Z.land c 51) = x mod 4 /\ digit (Z.land c 51).
Proof.
  change 7 with (Z.ones 3). rewrite Z.land_ones by lia. change (2 ^ 3) with 8.
  replace (x mod 4) with ((x mod 8) mod 4).
  - apply (oct_cases (fun y => let c := u8 (y + 48) in
      dv c = y /\ digit c /\ dv (Z.land c 51) = y mod 4 /\ digit (Z.land c 51))).
    + apply Z.mod_pos_bound. lia.
    + repeat (apply Forall_cons; split; [unfold digit; vm_compute; repeat split; discriminate|]).
      by apply Forall_nil.
  - symmetry. apply Znumtheory.Zmod_div_mod; [lia|lia|]. by exists 2.
Qed.

Lemma prtl8_prints num : prints 8 digit (u32 num) 11 (prtl8 num).
Proof.
  unfold prtl8. rewrite fill_temp_snoc. change (alter ?f 11%nat (0 :: ?l)) with (0 :: alter f 10%nat l).
  set (dig := fun num => Z.land num 7 + 48). set (next := fun num => Z.shiftr num 3).
  set (x := Nat.iter 10 next num).
  assert (Ex : x = num / 8 ^ 10) by (unfold x, next; rewrite iter_shiftr by lia; done).
  rewrite alter_app_r_alt by (rewrite length_fill_temp; lia).
  rewrite length_fill_temp. change (10 - 10)%nat with 0%nat. cbn [alter list_alter].
  set (c := Z.land (u8 (dig x)) 51). destruct (oct_digit x) as (_ & _ & Hc1 & Hc2).
  assert (Hd : forall y, True -> dv (u8 (dig y)) = y mod 8 /\ next y = y / 8 /\ True).
  { intros y _. split_and!; [apply oct_digit| |done]. unfold next. by rewrite Z.shiftr_div_pow2 by lia. }
  destruct (prt_out_spec 8 (fill_temp 10 dig next num ++ [c]) 11) as (os & E1 & E2 & E3 & E4 & E5 & E6);
    [lia|rewrite length_app, length_fill_temp; done|lia|].
  exists os. split_and!; [done| |done| |done|done].
  - rewrite E2, rvalue_snoc, length_fill_temp, (fill_value 8 dig next (fun _ => True)) by (done || lia).
    unfold c. unfold dig. rewrite Hc1, Ex. unfold u32. change (2 ^ 32) with (8 ^ 10 * 4).
    rewrite Z.rem_mul_r by lia. change (8 ^ 10%nat) with (8 ^ 10). lia.
  - apply E4, Forall_app. split.
    + apply (fill_Forall _ _ _ (fun _ => True)); [|done]. intros y _. split; [apply oct_digit|done].
    + constructor; [exact Hc2|constructor].
Qed.

(** ** %u: negative longs are made positive by subtracting 10^9 *)

Definition unsigned_text (larg : Z) : option (list Z) :=
  '(larg, digit1) ← unsign 3 larg 0;
  match prtl10 larg with
  | c :: l => Some (u8 (c + digit1) :: l)
  | [] => None
  end.

Lemma unsign_spec larg : is_i32 larg ->
  exists x d, unsign 3 larg 0 = Some (x, d) /\ 0 <= d <= 3 /\
    u32 larg = x + d * 1000000000 /\ 0 <= x < 2 ^ 31 /\ (0 < d -> 1000000000 <= x).
Proof.
  unfold is_i32. intros H.
  assert (Hw : forall x, - 2 ^ 31 <= x < 0 ->
    i32 (x - 1000000000) = if x <? -1147483648 then x - 1000000000 + 2 ^ 32 else x - 1000000000).
  { intros x Hx. unfold i32. destruct (Z.ltb_spec x (-1147483648)).
    - replace (x - 1000000000 + 2 ^ 31) with (x - 1000000000 + 2 ^ 31 + 2 ^ 32 + (-1) * 2 ^ 32) by lia.
      rewrite Z.mod_add, Z.mod_small; lia.
    - rewrite Z.mod_small; lia. }
  assert (Hu : u32 larg = if larg <? 0 then larg + 2 ^ 32 else larg).
  { unfold u32. destruct (Z.ltb_spec larg 0).
    - replace larg with (larg + 2 ^ 32 + (-1) * 2 ^ 32) at 1 by lia. rewrite Z.mod_add, Z.mod_small; lia.
    - rewrite Z.mod_small; lia. }
  rewrite Hu. cbn [unsign].
  destruct (Z.ltb_spec larg 0); [|exists larg, 0; split_and!; [done|lia..]].
  rewrite (Hw larg) by lia. destruct (Z.ltb_spec larg (-1147483648)).
  { destruct (Z.ltb_spec (larg - 1000000000 + 2 ^ 32) 0); [lia|].
    eexists _, _. split_and!; [done|lia..]. }
  destruct (Z.ltb_spec (larg - 1000000000) 0); [|lia].
  rewrite Hw by lia. destruct (Z.ltb_spec (larg - 1000000000) (-1147483648)).
  { destruct (Z.ltb_spec (larg - 1000000000 - 1000000000 + 2 ^ 32) 0); [lia|].
    eexists _, _. split_and!; [done|lia..]. }
  destruct (Z.ltb_spec (larg - 1000000000 - 1000000000) 0); [|lia].
  rewrite Hw by lia. destruct (Z.ltb_spec (larg - 1000000000 - 1000000000) (-1147483648)); [|lia].
  destruct (Z.ltb_spec (larg - 1000000000 - 1000000000 - 1000000000 + 2 ^ 32) 0); [lia|].
  eexists _, _. split_and!; [done|lia..].
Qed.

Lemma foldl_value b l n : foldl (fun n c => n * b + dv c) n l = n * b ^ length l + value b l.
Proof.
  unfold value. revert n. induction l as [|c l IH]; intros n; simpl.
  - change (Z.of_nat 0) with 0. rewrite Z.pow_0_r. lia.
  - rewrite (IH (n * b + dv c)), (IH (0 * b + dv c)), Nat2Z.inj_succ, Z.pow_succ_r by lia. lia.
Qed.

Lemma value_cons b c l : value b (c :: l) = dv c * b ^ length l + value b l.
Proof. unfold value at 1. simpl. rewrite foldl_value. lia. Qed.

Lemma dv_digit c : digit c -> dv c = c - 48.
Proof.
  unfold digit, dv. intros H. destruct (Z.leb_spec 48 c), (Z.leb_spec c 57); simpl; lia.
Qed.

Lemma value_bound l : Forall digit l -> 0 <= value 10 l < 10 ^ length l.
Proof.
  induction l as [|c l IH]; intros H.
  - split; [done|]. vm_compute. reflexivity.
  - apply Forall_cons in H as [Hc H]. specialize (IH H). rewrite value_cons, dv_digit by done.
    simpl length. rewrite Nat2Z.inj_succ, Z.pow_succ_r by lia. unfold digit in Hc. nia.
Qed.

Lemma value_decimal l : Forall digit l -> value 10 l = decimal l.
Proof.
  unfold value, decimal. generalize 0. induction l as [|c l IH]; intros n H; simpl; [done|].
  apply Forall_cons in H as [Hc H]. rewrite dv_digit by done. by apply IH.
Qed.

Lemma unsigned_text_spec larg : is_i32 larg ->
  exists out, unsigned_text larg = Some out /\ prints 10 digit (u32 larg) 10 out.
Proof.
  intros H. destruct (unsign_spec larg H) as (x & d & E & Hd & Hu & Hx & Hbig).
  unfold unsigned_text. rewrite E. cbn -[prtl10 u8].
  destruct (prtl10_prints x) as (os & Eo & Hv & Hne & HF & Hl & Hh); [lia|].
  destruct os as [|c os]; [done|]. rewrite Eo. cbn -[u8]. eexists. split; [done|].
  pose proof HF as [Hc HF']%Forall_cons. unfold digit in Hc.
  pose proof (value_bound os HF') as Hb. rewrite value_cons, dv_digit in Hv by done.
  destruct (decide (d = 0)) as [->|Hd0].
  - rewrite u8_char by lia. replace (c + 0) with c by lia. exists (c :: os).
    split_and!; [done| |done|done|done|done]. rewrite value_cons, dv_digit by done. lia.
  - assert (Hlen : length os = 9%nat).
    { simpl in Hl. assert (~ (length os <= 8)%nat); [|lia]. intros H8.
      assert (10 ^ length os <= 10 ^ 8) by (apply Z.pow_le_mono_r; lia). nia. }
    rewrite Hlen in *. change (10 ^ 9%nat) with 1000000000 in *.
    pose proof (u32_range larg) as Hr. unfold is_u32 in Hr. change (2 ^ 32) with 4294967296 in Hr.
    assert (Hcd : digit (c + d)) by (unfold digit; nia).
    rewrite u8_char by (unfold digit in Hcd; lia). exists ((c + d) :: os). split_and!.
    + done.
    + rewrite value_cons, dv_digit, Hlen by done. change (10 ^ 9%nat) with 1000000000. lia.
    + done.
    + by constructor.
    + simpl. lia.
    + simpl. intros [= E48]. exfalso. assert (c = 48) by lia. assert (d = 0) by lia. lia.
Qed.

(** ** Output through sprintf *)

Definition byte (c : Z) : Prop := 0 <= c < 256.

Lemma written_mapped m m' p l q k : written m m' p l -> mapped m q k -> mapped m' q k.
Proof.
  intros [H1 H2] Hm a Ha. destruct (decide (p <= a < p + length l)) as [E|E].
  - by apply (bytes_at_mapped _ _ _ H1).
  - rewrite H2 by lia. auto.
Qed.

Lemma mapped_sub m p n q k : mapped m p n -> p <= q -> q + Z.of_nat k <= p + Z.of_nat n -> mapped m q k.
Proof. intros H H1 H2 a Ha. apply H. lia. Qed.

Lemma sprntf_eq m s c : byte c -> is_Some (m !! s) -> sprntf m s c = Some (<[s := c]> m, s + 1).
Proof. intros Hc Hs. unfold sprntf. by rewrite cst_mapped, u8_char. Qed.

Lemma emit_fill_outs k m s c : byte c -> mapped m s k ->
  exists m', emit_fill sprntf k m s c = Some (m', s + k) /\ written m m' s (replicate k c).
Proof.
  revert m s. induction k as [|k IH]; intros m s Hc Hm; cbn [emit_fill replicate].
  - exists m. split; [do 2 f_equal; simpl; lia|apply written_nil].
  - rewrite sprntf_eq by (done || (apply Hm; lia)). simpl.
    destruct (IH (<[s := c]> m) (s + 1) Hc) as (m' & E & Hw).
    { intros a Ha. apply lookup_insert_is_Some'. right. apply Hm. lia. }
    rewrite E. exists m'. split; [do 2 f_equal; lia|]. by apply written_cons.
Qed.

Lemma emit_str_outs l m s string i : bytes_at string i l -> Forall byte l -> mapped m s (length l) ->
  exists m', emit_str sprntf (length l) m s string InString i = Some (m', s + length l) /\
    written m m' s l.
Proof.
  revert m s i. induction l as [|c l IH]; intros m s i Hb Hc Hm; cbn [emit_str length].
  - exists m. split; [do 2 f_equal; simpl; lia|apply written_nil].
  - destruct Hb as [Hb Hb']. apply Forall_cons in Hc as [Hc Hl]. cbn [str_at]. unfold cld at 1.
    rewrite Hb. simpl. rewrite sprntf_eq by (done || (apply Hm; simpl; lia)). simpl. destruct (IH (<[s := c]> m) (s + 1) (i + 1) Hb' Hl) as (m' & E & Hw).
    { intros a Ha. apply lookup_insert_is_Some'. right. apply Hm. simpl. lia. }
    rewrite E. exists m'. split; [do 2 f_equal; lia|]. by apply written_cons.
Qed.

Lemma fill_string_spec l string i : Forall byte l -> mapped string i (length l) ->
  exists string', fill_string string i l = Some string' /\ written string string' i l.
Proof.
  revert string i. induction l as [|c l IH]; intros string i Hc Hm; cbn [fill_string].
  - exists string. split; [done|apply written_nil].
  - apply Forall_cons in Hc as [Hc Hl]. rewrite cst_mapped by (apply Hm; simpl; lia).
    rewrite u8_char by done. simpl. destruct (IH (<[i := c]> string) (i + 1) Hl) as (s' & E & Hw).
    { intros a Ha. apply lookup_insert_is_Some'. right. apply Hm. simpl. lia. }
    exists s'. split; [done|]. by apply written_cons.
Qed.

Lemma str_length_spec l fuel m string i : bytes_at string i (l ++ [0]) -> Forall char l ->
  (length l < fuel)%nat -> str_length fuel m string InString i = Some (i + length l).
Proof.
  revert fuel i. induction l as [|c l IH]; intros fuel i Hb Hc Hf; (destruct fuel as [|fuel]; [lia|]);
    destruct Hb as [Hb Hb']; cbn [str_length str_at]; unfold cld; rewrite Hb; simpl.
  - f_equal. lia.
  - apply Forall_cons in Hc as [Hc Hl]. unfold char in Hc. destruct (Z.eqb_spec c 0); [lia|].
    rewrite IH by (done || (simpl in Hf; lia)). f_equal. lia.
Qed.

(** The text of a field: sign, fill and digits. *)
Definition field (sp : spec) (neg : bool) (os : list Z) : list Z :=
  let lead := replicate (Z.to_nat (fmin sp - length os - (if neg then 1 else 0))) (fill sp) in
  (if neg && (fill sp =? 48) then [45] else []) ++
  (if leftjust sp then [] else lead) ++
  (if neg && (fill sp =? 32) then [45] else []) ++
  os ++
  (if leftjust sp then lead else []).

Lemma opt_char_outs (b : bool) c m s : byte c -> mapped m s (if b then 1 else 0) ->
  exists m', (if b then sprntf m s c else Some (m, s)) =
    Some (m', s + length (if b then [c] else [])) /\ written m m' s (if b then [c] else []).
Proof.
  intros Hc Hm. destruct b.
  - rewrite sprntf_eq by (done || (apply Hm; lia)). eexists. split; [do 2 f_equal|].
    apply written_cons, written_nil.
  - exists m. split; [do 2 f_equal; simpl; lia|apply written_nil].
Qed.

Lemma opt_fill_outs (b : bool) k c m s : byte c -> mapped m s (if b then k else 0) ->
  exists m', (if b then emit_fill sprntf k m s c else Some (m, s)) =
    Some (m', s + length (if b then replicate k c else [])) /\
    written m m' s (if b then replicate k c else []).
Proof.
  intros Hc Hm. destruct b.
  - rewrite length_replicate. by apply emit_fill_outs.
  - exists m. split; [do 2 f_equal; simpl; lia|apply written_nil].
Qed.

Definition good_spec (sp : spec) : Prop :=
  0 <= fmin sp <= MAXSTR /\ fmax sp = 0 /\ (fill sp = 32 \/ fill sp = 48).

Lemma sign_char_eq (neg b : bool) m s :
  (if neg && b then sprntf m s (if neg then 45 else 0) else Some (m, s)) =
  (if neg && b then sprntf m s 45 else Some (m, s)).
Proof. by destruct neg. Qed.

Lemma emit_field_outs (m : cmem) (s : Z) ap string (neg : bool) sp os :
  good_spec sp -> bytes_at string 0 (os ++ [0]) -> Forall char os -> (length os < 20)%nat ->
  mapped m s (length (field sp neg os)) ->
  exists m', emit_field sprntf (mkconv m s ap string InString (if neg then 45 else 0) sp) =
    Some (m', s + length (field sp neg os)) /\ written m m' s (field sp neg os).
Proof.
  intros (Hmin & Hmax & Hfill) Hs Hc Hlen Hm. unfold emit_field. unfold MAXSTR in *.
  rewrite (str_length_spec os) by (done || lia). cbn [mbind option_bind]. rewrite Hmax.
  assert (Hb : byte (fill sp)) by (unfold byte; destruct Hfill as [E|E]; rewrite E; lia).
  assert (H45 : byte 45) by (unfold byte; lia).
  replace ((80 <? fmin sp) || (fmin sp <? 0)) with false
    by (destruct (Z.ltb_spec 80 (fmin sp)), (Z.ltb_spec (fmin sp) 0); lia || done).
  replace (0 + length os) with (Z.of_nat (length os)) by lia.
  change ((80 <? 0) || (0 <? 0)) with false. cbv iota. change (negb (0 =? 0)) with false. cbn [andb orb].
  unfold field in *. set (lead := Z.to_nat (fmin sp - length os - if neg then 1 else 0)) in *.
  assert (El : Z.to_nat (if negb (fmin sp =? 0)
     then (if (if neg then 45 else 0) =? 45
           then (if negb (fmin sp =? 0) then fmin sp - length os else 0) - 1
           else if negb (fmin sp =? 0) then fmin sp - length os else 0) else 0) = lead).
  { unfold lead. destruct (Z.eqb_spec (fmin sp) 0), neg; simpl; lia. }
  rewrite El, Nat2Z.id. replace ((if neg then 45 else 0) =? 45) with neg by (by destruct neg).
  rewrite sign_char_eq.
  set (p1 := if neg && (fill sp =? 48) then [45] else []) in *.
  set (p2 := if leftjust sp then [] else replicate lead (fill sp)) in *.
  set (p3 := if neg && (fill sp =? 32) then [45] else []) in *.
  set (p4 := if leftjust sp then replicate lead (fill sp) else []) in *.
  rewrite !length_app in Hm |- *.
  destruct (opt_char_outs (neg && (fill sp =? 48)) 45 m s H45) as (m1 & E1 & W1).
  { fold p1. eapply mapped_sub; [exact Hm|lia|]. unfold p1. destruct (neg && (fill sp =? 48)); simpl; lia. }
  fold p1 in E1, W1. rewrite E1. cbn [mbind option_bind].
  assert (F2 : exists m2, (if leftjust sp then Some (m1, s + length p1)
      else emit_fill sprntf lead m1 (s + length p1) (fill sp)) =
      Some (m2, s + length p1 + length p2) /\ written m1 m2 (s + length p1) p2).
  { assert (Hm1 : mapped m1 (s + length p1) (length p2)).
    { eapply written_mapped; [exact W1|]. eapply mapped_sub; [exact Hm|lia|lia]. }
    unfold p2 in *. destruct (leftjust sp).
    - exists m1. split; [do 2 f_equal; simpl; lia|apply written_nil].
    - rewrite length_replicate in *. by apply emit_fill_outs. }
  destruct F2 as (m2 & E2 & W2). rewrite E2. cbn [mbind option_bind].
  rewrite sign_char_eq.
  pose proof (written_app _ _ _ _ _ _ _ W1 eq_refl W2) as W12.
  destruct (opt_char_outs (neg && (fill sp =? 32)) 45 m2 (s + length p1 + length p2) H45) as (m3 & E3 & W3).
  { fold p3. eapply written_mapped; [exact W12|]. eapply mapped_sub; [exact Hm|lia|].
    unfold p3. destruct (neg && (fill sp =? 32)); simpl; lia. }
  fold p3 in E3, W3. rewrite E3. cbn [mbind option_bind].
  assert (W123 : written m m3 s ((p1 ++ p2) ++ p3)).
  { eapply written_app; [exact W12| |exact W3]. rewrite length_app. lia. }
  destruct (emit_str_outs os m3 (s + length p1 + length p2 + length p3) string 0) as (m4 & E4 & W4).
  { by apply bytes_at_app in Hs as [? _]. }
  { eapply Forall_impl; [exact Hc|]. unfold char, byte. lia. }
  { eapply written_mapped; [exact W123|]. eapply mapped_sub; [exact Hm|lia|lia]. }
  rewrite E4. cbn [mbind option_bind].
  assert (W1234 : written m m4 s (((p1 ++ p2) ++ p3) ++ os)).
  { eapply written_app; [exact W123| |exact W4]. rewrite !length_app. lia. }
  destruct (opt_fill_outs (leftjust sp) lead (fill sp) m4
    (s + length p1 + length p2 + length p3 + length os) Hb) as (m5 & E5 & W5).
  { eapply written_mapped; [exact W1234|]. eapply mapped_sub; [exact Hm|lia|].
    unfold p4. destruct (leftjust sp); rewrite ?length_replicate; simpl; lia. }
  fold p4 in E5, W5. rewrite E5. exists m5. split; [do 2 f_equal; lia|].
  rewrite !(assoc_L (++)). eapply written_app; [exact W1234| |exact W5]. rewrite !length_app. lia.
Qed.

(** ** A whole conversion *)

Definition flags (left zero : bool) : list Z :=
  (if left then [45] else []) ++ (if zero then [48] else []).

Lemma scan_number_spec (m : cmem) fuel p n l z :
  bytes_at m p (l ++ [z]) -> Forall digit l -> ~ digit z -> (length l < fuel)%nat ->
  0 <= n -> foldl (fun n c => n * 10 + (c - 48)) n l < 2 ^ 31 ->
  scan_number fuel m p n = Some (p + length l, foldl (fun n c => n * 10 + (c - 48)) n l).
Proof.
  revert fuel p n. induction l as [|c l IH]; intros fuel p n Hp Hd Hz Hf Hn Hb;
    (destruct fuel as [|fuel]; [lia|]); cbn [scan_number]; unfold cld; destruct Hp as [Hp Hp'];
    rewrite Hp; simpl.
  - unfold digit in Hz. destruct (Z.leb_spec 48 z), (Z.leb_spec z 57); simpl; try lia;
      do 2 f_equal; lia.
  - apply Forall_cons in Hd as [Hc Hd]. simpl in Hf, Hb.
    unfold digit in Hc. destruct (Z.leb_spec 48 c), (Z.leb_spec c 57); try lia. simpl.
    pose proof (foldl_decimal_mono l (n * 10 + (c - 48)) Hd).
    rewrite i32_id by (unfold is_i32; lia). replace (n * 10 + c - 48) with (n * 10 + (c - 48)) by lia.
    rewrite IH by (done || lia). do 2 f_equal. lia.
Qed.

Lemma parse_spec_spec (m : cmem) fmt left zero ws f ap :
  bytes_at m fmt (flags left zero ++ ws ++ [f]) -> Forall digit ws -> 57 < f ->
  decimal ws < 2 ^ 31 -> (zero = false -> head ws <> Some 48) ->
  parse_spec m fmt ap =
  Some (fmt + length (flags left zero ++ ws), ap, mkspec left (if zero then 48 else 32) (decimal ws) 0).
Proof.
  intros Hb Hd Hf Hw Hz. pose proof (bytes_fuel _ _ _ Hb) as Hfu.
  rewrite !length_app in Hfu. simpl in Hfu.
  unfold flags in *. rewrite <- app_assoc in Hb. apply bytes_at_app in Hb as [B1 B2].
  apply bytes_at_app in B2 as [B2 B3].
  assert (Hfirst : exists c, m !! (fmt + length (if left then [45] else []) + length (if zero then [48] else [])) = Some c
            /\ (c <> 48 \/ zero = true) /\ c <> 45 /\ c <> 42).
  { destruct ws as [|w ws]; destruct B3 as [B3 _].
    - exists f. split_and!; [done|left; lia|lia|lia].
    - pose proof Hd as [Hw1 _]%Forall_cons. unfold digit in Hw1. exists w. split_and!; [done| |lia|lia].
      destruct zero; [by right|]. left. intros ->. by apply Hz. }
  destruct Hfirst as (c & Hc & Hc48 & Hc45 & Hc42).
  unfold parse_spec, cld.
  assert (E1 : exists c1, m !! fmt = Some c1 /\ (c1 =? 45) = left).
  { destruct left; simpl in *.
    - exists 45. by destruct B1 as [-> _].
    - replace (fmt + 0%nat) with fmt in * by lia. destruct zero; simpl in *.
      + exists 48. by destruct B2 as [-> _].
      + replace (fmt + 0%nat) with fmt in * by lia. exists c. split; [done|]. by apply Z.eqb_neq. }
  destruct E1 as (c1 & E1 & E1'). rewrite E1. cbn [mbind option_bind]. rewrite E1'.
  set (p1 := if left then fmt + 1 else fmt).
  assert (Ep1 : p1 = fmt + length (if left then [45] else [])) by (unfold p1; destruct left; simpl; lia).
  assert (E2 : exists c2, m !! p1 = Some c2 /\ (c2 =? 48) = zero).
  { rewrite Ep1. destruct zero; simpl in *.
    - exists 48. by destruct B2 as [-> _].
    - destruct Hc48 as [Hc48|]; [|done]. rewrite Z.add_0_r in Hc. exists c. split; [done|].
      by apply Z.eqb_neq. }
  destruct E2 as (c2 & E2 & E2'). rewrite E2. cbn [mbind option_bind]. rewrite E2'.
  set (p2 := if zero then p1 + 1 else p1).
  assert (Ep2 : p2 = fmt + length (if left then [45] else []) + length (if zero then [48] else [])).
  { unfold p2. rewrite Ep1. destruct zero; simpl; lia. }
  rewrite <- Ep2 in *. rewrite Hc. cbn [mbind option_bind].
  destruct (Z.eqb_spec c 42); [done|].
  rewrite (scan_number_spec m _ p2 0 ws f); [|done|done|unfold digit; lia|lia|lia|done].
  cbn [mbind option_bind]. apply bytes_at_app in B3 as [_ [B3 _]]. rewrite B3. cbn [mbind option_bind].
  destruct (Z.eqb_spec f 46); [lia|]. rewrite Ep2, !length_app, !Nat2Z.inj_add, !Z.add_assoc. done.
Qed.

Lemma decimal_pos l : Forall digit l -> 0 <= decimal l.
Proof. intros H. apply foldl_decimal_mono; [done|lia]. Qed.

Lemma length_field_bound sp (neg : bool) os : 0 <= fmin sp <= MAXSTR -> (length os <= 10)%nat ->
  (length (field sp neg os) <= 80)%nat.
Proof.
  unfold field, MAXSTR. intros H1 H2. rewrite !length_app.
  destruct (leftjust sp), neg, (fill sp =? 48) eqn:E1, (fill sp =? 32) eqn:E2;
    simpl; rewrite ?length_replicate; lia.
Qed.

Lemma sprintf_d_spec (m : cmem) str fmt left zero ws n string :
  cstr m fmt (37 :: (flags left zero ++ ws) ++ [100]) -> Forall digit ws ->
  decimal ws <= MAXSTR -> (zero = false -> head ws <> Some 48) ->
  - 2 ^ 31 < n < 2 ^ 31 -> mapped string 0 20 -> mapped m str 81 ->
  apart str 81 fmt (length (flags left zero ++ ws) + 3) ->
  exists m' os, sprintf m str fmt [n] string = Some (m', str) /\
    prints 10 digit (Z.abs n) 10 (os ++ [0]) /\
    written m m' str (field (mkspec left (if zero then 48 else 32) (decimal ws) 0) (n <? 0) os ++ [0]).
Proof.
  intros [Hfmt HF] Hd Hw Hz Hn Hst Hdst Hap. unfold MAXSTR in *. pose proof (decimal_pos ws Hd) as Hw0.
  pose proof (bytes_fuel _ _ _ Hfmt) as Hfu. simpl in Hfu. rewrite !length_app in Hfu. simpl in Hfu.
  destruct Hfmt as [H37 Hfmt]. apply bytes_at_app in Hfmt as [Hfmt Hnul]. rewrite length_app in Hnul. simpl length in Hnul.
  set (sp := mkspec left (if zero then 48 else 32) (decimal ws) 0).
  assert (Habs : prints 10 digit (Z.abs n) 10 (prtl10 (if n <? 0 then i32 (- n) else n))).
  { replace (if n <? 0 then i32 (- n) else n) with (Z.abs n).
    - apply prtl10_prints. lia.
    - destruct (Z.ltb_spec n 0); [rewrite i32_id by (unfold is_i32; lia)|]; lia. }
  destruct Habs as (os & Eo & Hv & Hne & HQ & Hl & Hh).
  assert (Hchar : Forall char os).
  { eapply Forall_impl; [exact HQ|]. unfold digit, char. lia. }
  destruct (fill_string_spec (os ++ [0]) string 0) as (string' & Es & Ws).
  { apply Forall_app. split; [eapply Forall_impl; [exact Hchar|]; unfold char, byte; lia|].
    constructor; [unfold byte; lia|constructor]. }
  { rewrite length_app. eapply mapped_sub; [exact Hst|lia|simpl; lia]. }
  assert (Hgood : good_spec sp) by (unfold good_spec, sp, MAXSTR; simpl; destruct zero; auto with lia).
  pose proof (length_field_bound sp (n <? 0) os ltac:(unfold MAXSTR; simpl; lia) Hl) as Hlen.
  destruct (emit_field_outs m str [] string' (n <? 0) sp os) as (m1 & E1 & W1);
    [done|apply Ws|done|lia|eapply mapped_sub; [exact Hdst|lia|lia]|].
  set (text := field sp (n <? 0) os) in *.
  assert (Hap' : forall a, fmt <= a < fmt + length (flags left zero ++ ws) + 3 -> m1 !! a = m !! a).
  { intros a Ha. apply W1. unfold apart in Hap. lia. }
  set (L := length (flags left zero ++ ws)) in *.
  assert (Hrun : doprnt sprntf m str fmt [n] string = Some (m1, str + length text)).
  { unfold doprnt. destruct (scan_fuel m) as [|[|fuel]]; [lia|lia|].
    cbn [doprnt_loop]. unfold cld. rewrite H37. cbn [mbind option_bind].
    change (negb (37 =? 37)) with false. cbv iota.
    rewrite (parse_spec_spec m (fmt + 1) left zero ws 100 [n]) by (rewrite ?app_assoc; done || lia).
    assert (Hc : exists c, m !! (fmt + 1) = Some c /\ c <> 37).
    { pose proof (bytes_at_mapped _ _ _ Hfmt (fmt + 1)) as [c Hc]; [rewrite length_app; simpl; lia|].
      exists c. split; [done|]. intros ->. apply Forall_cons in HF as [_ HF].
      destruct (flags left zero ++ ws) as [|x l] eqn:El; destruct Hfmt as [Hx _]; [congruence|].
      assert (x = 37) by congruence. subst x.
      unfold flags in El. destruct left, zero; simpl in El; try done.
      destruct ws as [|w ws]; [done|]. simplify_eq/=. apply Forall_cons in Hd as [Hd _].
      unfold digit in Hd. lia. }
    destruct Hc as (c & Hc & Hc37). rewrite Hc. cbn [mbind option_bind].
    destruct (Z.eqb_spec c 37); [done|]. fold L.
    apply bytes_at_app in Hfmt as [_ [Hf _]]. fold L in Hf. rewrite Hf.
    cbn [mbind option_bind]. change (100 =? 0) with false. cbv iota.
    unfold convert. change (100 =? 99) with false. change (100 =? 115) with false.
    change (100 =? 100) with true. cbv iota. cbn [va_arg mbind option_bind].
    rewrite Eo, Es. cbn [mbind option_bind].
    replace (mkconv m str [] string' InString (if n <? 0 then 45 else 0)
      {| leftjust := left; fill := if zero then 48 else 32; fmin := decimal ws; fmax := 0 |})
      with (mkconv m str [] string' InString (if n <? 0 then 45 else 0) sp) by done.
    rewrite E1. cbn [mbind option_bind cv_ap cv_string doprnt_loop]. unfold cld.
    assert (Hend : m1 !! (fmt + 1 + L + 1) = Some 0).
    { rewrite Hap' by lia. destruct Hnul as [Hnul _]. rewrite <- Hnul. f_equal. lia. }
    rewrite Hend. done. }
  unfold sprintf. rewrite Hrun. cbn [mbind option_bind].
  rewrite cst_mapped; [|apply (written_mapped _ _ _ _ str 81 W1 Hdst); lia]. cbn [mbind option_bind].
  eexists _, os. split_and!; [done| |].
  - exists os. done.
  - eapply written_app; [exact W1|done|]. apply written_cons, written_nil.
Qed.
