(* ===== verification/Qsort.v ===== *)
(** * qsort (lib/libxc/qsort.c)

    The array is [n] elements of [es] bytes from address [a] on; the caller's
    comparison function is a function of the bytes of two elements. *)

From S2P Require Import Prelude CString.

Section qsort.
Context (qscmp : list Z -> list Z -> Z) (es : Z).

(** [do { c = *ri; *ri++ = *rj; *rj++ = c; } while (--n)] *)
Fixpoint qsexc_loop (n : nat) (m : cmem) (ri rj : Z) : option cmem :=
  match n with
  | O => Some m
  | S n =>
      c ← cld m ri;
      d ← cld m rj;
      m ← cst m ri d;
      m ← cst m rj c;
      qsexc_loop n m (ri + 1) (rj + 1)
  end.

Definition qsexc (m : cmem) (i j : Z) : option cmem := qsexc_loop (Z.to_nat es) m i j.

Fixpoint qstexc_loop (n : nat) (m : cmem) (ri rj rk : Z) : option cmem :=
  match n with
  | O => Some m
  | S n =>
      c ← cld m ri;
      x ← cld m rk;
      m ← cst m ri x;
      y ← cld m rj;
      m ← cst m rk y;
      m ← cst m rj c;
      qstexc_loop n m (ri + 1) (rj + 1) (rk + 1)
  end.

Definition qstexc (m : cmem) (i j k : Z) : option cmem := qstexc_loop (Z.to_nat es) m i j k.

(** [( *qscmp) (p, q)] *)
Fixpoint rdblk (n : nat) (m : cmem) (p : Z) : option (list Z) :=
  match n with
  | O => Some []
  | S n => c ← cld m p; l ← rdblk n m (p + 1); Some (c :: l)
  end.

Definition compare (m : cmem) (p q : Z) : option Z :=
  x ← rdblk (Z.to_nat es) m p;
  y ← rdblk (Z.to_nat es) m q;
  Some (qscmp x y).

(** The part of the [for (;;)] loop of [qs1] from the label [loop] on; [again true]
    is [goto loop], [again false] the next round of the [for]. *)
Definition from_loop (again : bool -> cmem -> Z -> Z -> Z -> Z -> option (cmem * Z * Z))
    (m : cmem) (i j lp hp : Z) : option (cmem * Z * Z) :=
  if hp <? j then
    c ← compare m hp j;
    if c =? 0 then
      m ← qsexc m (hp + es) j;
      again true m i j lp (hp + es)
    else if 0 <? c then
      if i =? lp then
        m ← qstexc m i (hp + es) j;
        again true m (lp + es) j (lp + es) (hp + es)
      else
        m ← qsexc m i j;
        again false m (i + es) (j - es) lp hp
    else again true m i (j - es) lp hp
  else if i =? lp then Some (m, lp, hp)
  else
    m ← qstexc m j (lp - es) i;
    again false m i (hp - es) (lp - es) (hp - es).

(** The loop; [at_loop] is true at the label.  Each round takes one element out
    of the two unexamined parts, so there are at most as many rounds as
    elements.  The result is the memory, [lp] and [hp]. *)
Fixpoint partition (fuel : nat) (at_loop : bool) (m : cmem) (i j lp hp : Z)
  : option (cmem * Z * Z) :=
  match fuel with
  | O => None
  | S fuel =>
      if negb at_loop && (i <? lp) then
        c ← compare m i lp;
        if c =? 0 then
          m ← qsexc m i (lp - es);
          partition fuel false m i j (lp - es) hp
        else if c <? 0 then partition fuel false m (i + es) j lp hp
        else from_loop (partition fuel) m i j lp hp
      else from_loop (partition fuel) m i j lp hp
  end.

(** The recursive call and the [goto start] are both calls here. *)
Fixpoint qs1 (fuel : nat) (m : cmem) (a l : Z) : option cmem :=
  match fuel with
  | O => None
  | S fuel =>
      let n := u32 (l - a) in
      if n <=? es then Some m
      else
        let n := es * (n / (2 * es)) in
        '(m, lp, hp) ← partition (S (Z.to_nat (l - a))) false m a (l - es) (a + n) (a + n);
        if l - hp <=? lp - a then
          m ← qs1 fuel m (hp + es) l;
          qs1 fuel m a lp
        else
          m ← qs1 fuel m a lp;
          qs1 fuel m (hp + es) l
  end.

Definition qsort (m : cmem) (a n : Z) : option cmem :=
  qs1 (S (Z.to_nat n)) m a (a + u32 (n * es)).

End qsort.
