(* ===== verification/QsortSpec.v ===== *)
(** * qsort sorts

    The array in memory is a list of blocks of bytes; the exchanges of the code
    are swaps of the list, and the two loops keep the usual invariants of
    quicksort with three parts. *)

From S2P Require Import Prelude CString CStringSpec Qsort.

Local Coercion Z.of_nat : nat >-> Z.

Definition isbyte (c : Z) : Prop := 0 <= c < 256.

(** ** Elements by index *)

Definition blk (L : list (list Z)) (k : Z) : list Z := L !!! Z.to_nat k.

Definition swap (L : list (list Z)) (i j : Z) : list (list Z) :=
  <[Z.to_nat i := blk L j]> (<[Z.to_nat j := blk L i]> L).

Section blocks.
Implicit Types L : list (list Z).

Lemma blk_insert L i x k : 0 <= i < length L -> 0 <= k ->
  blk (<[Z.to_nat i := x]> L) k = if decide (k = i) then x else blk L k.
Proof.
  intros Hi Hk. unfold blk. case_decide as E.
  - subst. apply list_lookup_total_insert_eq. lia.
  - apply list_lookup_total_insert_ne. lia.
Qed.

Lemma length_swap L i j : length (swap L i j) = length L.
Proof. unfold swap. by rewrite !length_insert. Qed.

Lemma blk_swap L i j k : 0 <= i < length L -> 0 <= j < length L -> 0 <= k ->
  blk (swap L i j) k = if decide (k = i) then blk L j else if decide (k = j) then blk L i else blk L k.
Proof.
  intros Hi Hj Hk. unfold swap. rewrite blk_insert by (rewrite ?length_insert; lia).
  case_decide; [done|]. by rewrite blk_insert.
Qed.

Lemma swap_Permutation L i j : 0 <= i < length L -> 0 <= j < length L -> swap L i j ≡ₚ L.
Proof.
  intros Hi Hj. unfold swap. apply Permutation_insert_swap; unfold blk;
    apply list_lookup_lookup_total_lt; lia.
Qed.

End blocks.

(** [shuffled a b L L']: [L'] is [L] with elements between [a] and [b] swapped. *)
Inductive shuffled (a b : Z) (L : list (list Z)) : list (list Z) -> Prop :=
| shuffled_refl : shuffled a b L L
| shuffled_step L' i j : shuffled a b L L' -> a <= i < b -> a <= j < b ->
    shuffled a b L (swap L' i j).

Section shuffled.
Implicit Types L : list (list Z).

Lemma shuffled_length a b L L' : shuffled a b L L' -> length L' = length L.
Proof. induction 1; [done|]. by rewrite length_swap. Qed.

Lemma shuffled_Permutation a b L L' : 0 <= a -> b <= length L -> shuffled a b L L' -> L' ≡ₚ L.
Proof.
  intros Ha Hb. induction 1 as [|L' i j H IH Hi Hj]; [done|].
  rewrite <- IH. pose proof (shuffled_length _ _ _ _ H). apply swap_Permutation; lia.
Qed.

Lemma shuffled_outside a b L L' k : 0 <= a -> b <= length L -> shuffled a b L L' ->
  0 <= k -> k < a \/ b <= k -> blk L' k = blk L k.
Proof.
  intros Ha Hb. induction 1 as [|L' i j H IH Hi Hj]; intros Hk Ho; [done|].
  pose proof (shuffled_length _ _ _ _ H). rewrite blk_swap by lia.
  rewrite !decide_False by lia. by apply IH.
Qed.

(** What holds of all elements of the part still does. *)
Lemma shuffled_all a b L L' (P : list Z -> Prop) : 0 <= a -> b <= length L -> shuffled a b L L' ->
  (forall k, a <= k < b -> P (blk L k)) -> forall k, a <= k < b -> P (blk L' k).
Proof.
  intros Ha Hb. induction 1 as [|L' i j H IH Hi Hj]; intros HP k Hk; [auto|].
  pose proof (shuffled_length _ _ _ _ H). rewrite blk_swap by lia.
  repeat case_decide; auto.
Qed.

Lemma shuffled_trans a b L L' L'' : shuffled a b L L' -> shuffled a b L' L'' -> shuffled a b L L''.
Proof. intros H. induction 1; [done|]. by constructor. Qed.

Lemma shuffled_wider a b a' b' L L' : a' <= a -> b <= b' -> shuffled a b L L' -> shuffled a' b' L L'.
Proof. intros Ha Hb. induction 1; constructor; [done|lia|lia]. Qed.

End shuffled.

(** ** Exchanges in memory *)

Section exchange.
Implicit Types m : cmem.

Lemma qsexc_loop_spec n m p q X Y :
  length X = n -> length Y = n -> bytes_at m p X -> bytes_at m q Y ->
  Forall isbyte X -> Forall isbyte Y -> (p = q \/ apart p n q n) ->
  exists m', qsexc_loop n m p q = Some m' /\ bytes_at m' p Y /\ bytes_at m' q X /\
    forall a, ~ p <= a < p + n -> ~ q <= a < q + n -> m' !! a = m !! a.
Proof.
  revert m p q X Y. induction n as [|n IH]; intros m p q X Y LX LY HX HY BX BY Hap.
  - destruct X, Y; try done. exists m. done.
  - destruct X as [|x X], Y as [|y Y]; try done. destruct HX as [Hx HX], HY as [Hy HY].
    apply Forall_cons in BX as [Bx BX]. apply Forall_cons in BY as [By BY]. unfold apart in Hap.
    cbn [qsexc_loop]. unfold cld. rewrite Hx. cbn [mbind option_bind]. rewrite Hy. cbn [mbind option_bind].
    rewrite (cst_mapped m p y) by (by exists x). cbn [mbind option_bind].
    rewrite cst_mapped by (apply lookup_insert_is_Some'; right; by exists y). cbn [mbind option_bind].
    rewrite !u8_char by done.
    destruct (IH (<[q := x]> (<[p := y]> m)) (p + 1) (q + 1) X Y) as (m' & E & H1 & H2 & H3);
      [simpl in LX; lia|simpl in LY; lia| | |done|done| |].
    + eapply bytes_at_same; [exact HX|]. intros a Ha. simpl in LX. rewrite !lookup_insert_ne by lia. done.
    + eapply bytes_at_same; [exact HY|]. intros a Ha. simpl in LY. rewrite !lookup_insert_ne by lia. done.
    + unfold apart. lia.
    + exists m'. split; [done|].
      assert (Ep : m' !! p = Some y).
      { rewrite H3 by lia. destruct (decide (p = q)) as [->|Hne].
        - rewrite lookup_insert_eq. congruence.
        - rewrite lookup_insert_ne by done. apply lookup_insert_eq. }
      assert (Eq : m' !! q = Some x) by (rewrite H3 by lia; apply lookup_insert_eq).
      split_and!; [by split|by split|]. intros a Ha1 Ha2. rewrite H3 by lia.
      by rewrite !lookup_insert_ne by lia.
Qed.

Lemma qstexc_loop_spec n m p q r X Y Z :
  length X = n -> length Y = n -> length Z = n ->
  bytes_at m p X -> bytes_at m q Y -> bytes_at m r Z ->
  Forall isbyte X -> Forall isbyte Y -> Forall isbyte Z ->
  apart p n q n -> apart p n r n -> (q = r \/ apart q n r n) ->
  exists m', qstexc_loop n m p q r = Some m' /\ bytes_at m' p Z /\ bytes_at m' q X /\
    (q <> r -> bytes_at m' r Y) /\
    forall a, ~ p <= a < p + n -> ~ q <= a < q + n -> ~ r <= a < r + n -> m' !! a = m !! a.
Proof.
  revert m p q r X Y Z.
  induction n as [|n IH]; intros m p q r X Y Z LX LY LZ HX HY HZ BX BY BZ A1 A2 A3.
  - destruct X, Y, Z; try done. exists m. done.
  - destruct X as [|x X], Y as [|y Y], Z as [|z Z]; try done.
    destruct HX as [Hx HX], HY as [Hy HY], HZ as [Hz HZ].
    apply Forall_cons in BX as [Bx BX]. apply Forall_cons in BY as [By BY].
    apply Forall_cons in BZ as [Bz BZ]. unfold apart in A1, A2, A3. simpl in LX, LY, LZ.
    cbn [qstexc_loop]. unfold cld. rewrite Hx. cbn [mbind option_bind]. rewrite Hz. cbn [mbind option_bind].
    rewrite (cst_mapped m p z) by (by exists x). cbn [mbind option_bind].
    rewrite lookup_insert_ne by lia. rewrite Hy. cbn [mbind option_bind].
    rewrite cst_mapped by (apply lookup_insert_is_Some'; right; by exists z). cbn [mbind option_bind].
    rewrite cst_mapped by (do 2 (apply lookup_insert_is_Some'; right); by exists y).
    cbn [mbind option_bind]. rewrite !u8_char by done.
    destruct (IH (<[q := x]> (<[r := y]> (<[p := z]> m))) (p + 1) (q + 1) (r + 1) X Y Z)
      as (m' & E & H1 & H2 & H3 & H4); [lia|lia|lia| | | |done|done|done|unfold apart; lia..|].
    + eapply bytes_at_same; [exact HX|]. intros a Ha. by rewrite !lookup_insert_ne by lia.
    + eapply bytes_at_same; [exact HY|]. intros a Ha. by rewrite !lookup_insert_ne by lia.
    + eapply bytes_at_same; [exact HZ|]. intros a Ha. by rewrite !lookup_insert_ne by lia.
    + exists m'. split; [done|].
      assert (Ep : m' !! p = Some z).
      { rewrite H4 by lia. rewrite !lookup_insert_ne by lia. apply lookup_insert_eq. }
      assert (Eq : m' !! q = Some x) by (rewrite H4 by lia; apply lookup_insert_eq).
      split_and!; [by split|by split| |].
      * intros Hne. split; [|apply H3; lia]. rewrite H4 by lia.
        rewrite lookup_insert_ne by done. apply lookup_insert_eq.
      * intros a Ha1 Ha2 Ha3. rewrite H4 by lia. by rewrite !lookup_insert_ne by lia.
Qed.

End exchange.

(** ** The array *)

Section array.
Context (qscmp : list Z -> list Z -> Z) (es : Z) (Hes : 0 < es) (base : Z).
Implicit Types (m : cmem) (L : list (list Z)).

(** The address of element [k]. *)
Definition ptr (k : Z) : Z := base + es * k.

Definition array m L : Prop :=
  forall k, 0 <= k < length L ->
    Z.of_nat (length (blk L k)) = es /\ Forall isbyte (blk L k) /\ bytes_at m (ptr k) (blk L k).

(** Nothing but the array changes. *)
Definition only_array m m' L : Prop := same_but m m' base (es * length L).

Lemma ptr_next k : ptr k + es = ptr (k + 1).
Proof. unfold ptr. lia. Qed.
Lemma ptr_prev k : ptr k - es = ptr (k - 1).
Proof. unfold ptr. lia. Qed.
Lemma ptr_ltb x y : (ptr x <? ptr y) = (x <? y).
Proof. unfold ptr. destruct (Z.ltb_spec x y); [apply Z.ltb_lt|apply Z.ltb_ge]; nia. Qed.
Lemma ptr_eqb x y : (ptr x =? ptr y) = (x =? y).
Proof. unfold ptr. destruct (Z.eqb_spec x y); [apply Z.eqb_eq|apply Z.eqb_neq]; nia. Qed.
Lemma ptr_apart x y : x <> y -> apart (ptr x) (Z.to_nat es) (ptr y) (Z.to_nat es).
Proof. unfold apart, ptr. intros. destruct (decide (x < y)); nia. Qed.

Lemma array_bytes m L k : array m L -> 0 <= k < length L ->
  length (blk L k) = Z.to_nat es /\ Forall isbyte (blk L k) /\ bytes_at m (ptr k) (blk L k).
Proof. intros H Hk. destruct (H k Hk) as (H1 & H2 & H3). split_and!; [lia|done|done]. Qed.

(** An address of element [k] is in no other element. *)
Lemma array_keep m m' L L' (S : Z -> Prop) : array m L -> length L' = length L ->
  (forall a, (forall k, S k -> ~ ptr k <= a < ptr k + Z.to_nat es) -> m' !! a = m !! a) ->
  (forall k, 0 <= k < length L -> S k ->
     Z.of_nat (length (blk L' k)) = es /\ Forall isbyte (blk L' k) /\ bytes_at m' (ptr k) (blk L' k)) ->
  (forall k, 0 <= k < length L -> ~ S k -> blk L' k = blk L k) -> (forall k, Decision (S k)) ->
  array m' L'.
Proof.
  intros Ha Hl Hsame HS HnS Hdec k Hk. rewrite Hl in Hk.
  destruct (decide (S k)) as [Hs|Hs]; [by apply HS|].
  rewrite (HnS k Hk Hs). destruct (Ha k Hk) as (H1 & H2 & H3). split_and!; [done|done|].
  eapply bytes_at_same; [exact H3|]. intros a Hr. apply Hsame. intros j Hj Hin.
  assert (j <> k) by congruence. pose proof (ptr_apart j k H) as Hap. unfold apart in Hap. lia.
Qed.

Lemma qsexc_spec m L i j : array m L -> 0 <= i < length L -> 0 <= j < length L ->
  exists m', qsexc es m (ptr i) (ptr j) = Some m' /\ array m' (swap L i j) /\ only_array m m' L.
Proof.
  intros Ha Hi Hj. destruct (array_bytes m L i Ha Hi) as (LI & BI & AI).
  destruct (array_bytes m L j Ha Hj) as (LJ & BJ & AJ).
  destruct (qsexc_loop_spec (Z.to_nat es) m (ptr i) (ptr j) (blk L i) (blk L j))
    as (m' & E & H1 & H2 & H3); try done.
  { destruct (decide (i = j)) as [->|Hne]; [by left|right; by apply ptr_apart]. }
  exists m'. split_and!; [done| |].
  - apply (array_keep m m' L (swap L i j) (fun k => k = i \/ k = j)); [done|apply length_swap| | | |].
    + intros a Hk. apply H3; apply Hk; auto.
    + intros k Hk Hs. rewrite blk_swap by lia. repeat case_decide; subst; try lia; split_and!; try done; lia.
    + intros k Hk Hs. rewrite blk_swap by lia. rewrite !decide_False by tauto. done.
    + intros k. apply _.
  - intros a Hr. apply H3; unfold ptr; nia.
Qed.

Lemma qstexc_spec m L i j k : array m L ->
  0 <= i < length L -> 0 <= j < length L -> 0 <= k < length L -> i <> j -> i <> k ->
  exists m', qstexc es m (ptr i) (ptr j) (ptr k) = Some m' /\
    array m' (swap (swap L i k) j k) /\ only_array m m' L.
Proof.
  intros Ha Hi Hj Hk Hij Hik. destruct (array_bytes m L i Ha Hi) as (LI & BI & AI).
  destruct (array_bytes m L j Ha Hj) as (LJ & BJ & AJ). destruct (array_bytes m L k Ha Hk) as (LK & BK & AK).
  destruct (qstexc_loop_spec (Z.to_nat es) m (ptr i) (ptr j) (ptr k) (blk L i) (blk L j) (blk L k))
    as (m' & E & H1 & H2 & H3 & H4); try done; [by apply ptr_apart..| |].
  { destruct (decide (j = k)) as [->|Hne]; [by left|right; by apply ptr_apart]. }
  exists m'. split_and!; [done| |].
  - apply (array_keep m m' L _ (fun x => x = i \/ x = j \/ x = k));
      [done|by rewrite !length_swap| | | |].
    + intros a Hr. apply H4; apply Hr; auto.
    + intros x Hx Hs. rewrite !blk_swap by (rewrite ?length_swap; lia).
      repeat case_decide; subst; try lia; split_and!; try done; try lia; try (apply H3; unfold ptr; nia).
    + intros x Hx Hs. rewrite !blk_swap by (rewrite ?length_swap; lia).
      rewrite !decide_False by tauto. done.
    + intros x. apply _.
  - intros a Hr. apply H4; unfold ptr; nia.
Qed.

Lemma rdblk_spec n m p l : length l = n -> bytes_at m p l -> rdblk n m p = Some l.
Proof.
  revert p l. induction n as [|n IH]; intros p l Hl Hb; destruct l as [|c l]; try done.
  destruct Hb as [Hc Hb]. cbn [rdblk]. unfold cld. rewrite Hc. cbn [mbind option_bind].
  rewrite (IH (p + 1) l) by (done || (simpl in Hl; lia)). done.
Qed.

Lemma compare_spec m L i j : array m L -> 0 <= i < length L -> 0 <= j < length L ->
  compare qscmp es m (ptr i) (ptr j) = Some (qscmp (blk L i) (blk L j)).
Proof.
  intros Ha Hi Hj. destruct (array_bytes m L i Ha Hi) as (LI & BI & AI).
  destruct (array_bytes m L j Ha Hj) as (LJ & BJ & AJ). unfold compare.
  rewrite (rdblk_spec _ m (ptr i) _ LI AI). cbn [mbind option_bind].
  by rewrite (rdblk_spec _ m (ptr j) _ LJ AJ).
Qed.

End array.

(** ** The comparison function orders the elements *)

Class ordering (cmp : list Z -> list Z -> Z) : Prop := {
  ord_antisym : forall x y, cmp x y < 0 <-> 0 < cmp y x;
  ord_trans : forall x y z, cmp x y <= 0 -> cmp y z <= 0 -> cmp x z <= 0;
}.

Section ordering.
Context {cmp : list Z -> list Z -> Z} `{!ordering cmp}.

Lemma ord_eq_sym x y : cmp x y = 0 -> cmp y x = 0.
Proof. pose proof (ord_antisym x y). pose proof (ord_antisym y x). lia. Qed.

Lemma ord_le_flip x y : cmp x y <= 0 <-> 0 <= cmp y x.
Proof. pose proof (ord_antisym x y). pose proof (ord_antisym y x). lia. Qed.

Lemma ord_lt_le x y z : cmp x y < 0 -> cmp y z <= 0 -> cmp x z < 0.
Proof.
  intros H1 H2. assert (cmp x z <= 0) by (eapply ord_trans; [|exact H2]; lia).
  destruct (decide (cmp x z = 0)) as [E|E]; [|lia].
  apply ord_eq_sym in E. assert (cmp y x <= 0) by (eapply ord_trans; [exact H2|lia]).
  apply ord_antisym in H1. lia.
Qed.

Lemma ord_le_lt x y z : cmp x y <= 0 -> cmp y z < 0 -> cmp x z < 0.
Proof.
  intros H1 H2. assert (cmp x z <= 0) by (eapply ord_trans; [exact H1|lia]).
  destruct (decide (cmp x z = 0)) as [E|E]; [|lia].
  apply ord_eq_sym in E. assert (cmp z y <= 0) by (eapply ord_trans; [|exact H1]; lia).
  apply ord_antisym in H2. lia.
Qed.

(** Comparing with an element equal to the pivot is comparing with the pivot. *)
Lemma ord_eq_r x y p : cmp y p = 0 ->
  (cmp x y = 0 <-> cmp x p = 0) /\ (cmp x y < 0 <-> cmp x p < 0).
Proof.
  intros E. pose proof (ord_eq_sym _ _ E) as E'.
  assert (L1 : cmp x y < 0 -> cmp x p < 0) by (intros; eapply ord_lt_le; [done|lia]).
  assert (L2 : cmp x p < 0 -> cmp x y < 0) by (intros; eapply ord_lt_le; [done|lia]).
  assert (M1 : cmp x y <= 0 -> cmp x p <= 0) by (intros; eapply ord_trans; [done|lia]).
  assert (M2 : cmp x p <= 0 -> cmp x y <= 0) by (intros; eapply ord_trans; [done|lia]).
  lia.
Qed.

Lemma ord_eq_l x y p : cmp y p = 0 ->
  (cmp y x = 0 <-> cmp x p = 0) /\ (0 < cmp y x <-> cmp x p < 0).
Proof.
  intros E. destruct (ord_eq_r x y p E) as [H1 H2].
  pose proof (ord_antisym x y). pose proof (ord_antisym y x). lia.
Qed.

End ordering.

(** ** One partition *)

Section partition.
Context (qscmp : list Z -> list Z -> Z) `{!ordering qscmp} (es : Z) (Hes : 0 < es) (base : Z).
Context (A l : Z) (piv : list Z).
Implicit Types (m : cmem) (L : list (list Z)).

Notation P := (ptr es base).

(** Smaller elements below [i], equal ones from [lp] to [hp], greater ones
    above [j]. *)
Record parts L (i lp hp j : Z) : Prop := {
  pt_order : 0 <= A <= i /\ i <= lp /\ lp <= hp /\ hp <= j /\ j < l /\ l <= length L;
  pt_small : forall k, A <= k < i -> qscmp (blk L k) piv < 0;
  pt_equal : forall k, lp <= k <= hp -> qscmp (blk L k) piv = 0;
  pt_great : forall k, j < k < l -> 0 < qscmp (blk L k) piv;
}.

(** What the loop achieves. *)
Definition parted m L (r : option (cmem * Z * Z)) : Prop :=
  exists m' L' lp hp, r = Some (m', P lp, P hp) /\ array es base m' L' /\
    only_array es base m m' L /\ shuffled A l L L' /\ parts L' lp lp hp hp.

Lemma parted_step m m1 L L1 r :
  only_array es base m m1 L -> shuffled A l L L1 -> parted m1 L1 r -> parted m L r.
Proof.
  intros Ho Hs (m' & L' & lp & hp & E & Ha & Ho' & Hs' & Hp). exists m', L', lp, hp.
  split_and!; [done|done| |by eapply shuffled_trans|done].
  eapply same_but_trans; [exact Ho|]. unfold only_array in *.
  by rewrite <- (shuffled_length _ _ _ _ Hs).
Qed.

Lemma parted_swap m m1 L i j r : A <= i < l -> A <= j < l ->
  only_array es base m m1 L -> parted m1 (swap L i j) r -> parted m L r.
Proof.
  intros. eapply parted_step; [done| |done]. apply shuffled_step; [apply shuffled_refl|done|done].
Qed.

Lemma parted_rotate m m1 L i j k r : A <= i < l -> A <= j < l -> A <= k < l ->
  only_array es base m m1 L -> parted m1 (swap (swap L i k) j k) r -> parted m L r.
Proof.
  intros. eapply parted_step; [done| |done].
  apply shuffled_step; [apply shuffled_step; [apply shuffled_refl|done|done]|done|done].
Qed.

(** Discharge the conditions on elements of a swapped array. *)
Ltac elements :=
  intros k' Hk'; rewrite ?blk_swap by (rewrite ?length_swap; lia);
  repeat case_decide; subst; try lia; auto with lia.

Definition ready_at L (at_loop : bool) (i lp : Z) : Prop :=
  at_loop = true -> i < lp -> 0 < qscmp (blk L i) piv.

Lemma from_loop_spec again (M : Z) m L i j lp hp :
  (forall b m L i j lp hp, array es base m L -> parts L i lp hp j -> ready_at L b i lp ->
     (lp - i) + (j - hp) < M -> parted m L (again b m (P i) (P j) (P lp) (P hp))) ->
  array es base m L -> parts L i lp hp j -> (i < lp -> 0 < qscmp (blk L i) piv) ->
  (lp - i) + (j - hp) <= M ->
  parted m L (from_loop qscmp es again m (P i) (P j) (P lp) (P hp)).
Proof.
  intros IH Ha [Ho Hs He Hg] Hi HM. unfold from_loop. rewrite ptr_ltb by done.
  destruct (Z.ltb_spec hp j) as [Hj|Hj].
  - rewrite (compare_spec qscmp es Hes base m L) by (done || lia). cbn [mbind option_bind].
    destruct (ord_eq_l (blk L j) (blk L hp) piv) as [C1 C2]; [apply He; lia|].
    rewrite !ptr_next, ?ptr_prev, ptr_eqb by done.
    destruct (Z.eqb_spec (qscmp (blk L hp) (blk L j)) 0) as [Ec|Ec].
    + destruct (qsexc_spec es Hes base m L (hp + 1) j) as (m' & E & Ha' & Ho'); [done|lia|lia|].
      rewrite E. cbn [mbind option_bind]. apply (parted_swap m m' L (hp + 1) j); [lia|lia|done|].
      apply IH; [done| | |lia].
      * split; rewrite ?length_swap; [lia|elements..].
      * intros _ Hlt. rewrite blk_swap by lia. rewrite !decide_False by lia. auto.
    + destruct (Z.ltb_spec 0 (qscmp (blk L hp) (blk L j))) as [Hc|Hc].
      * apply C2 in Hc. destruct (Z.eqb_spec i lp) as [->|Hne].
        -- destruct (qstexc_spec es Hes base m L lp (hp + 1) j) as (m' & E & Ha' & Ho'); [done|lia..|].
           rewrite E. cbn [mbind option_bind].
           apply (parted_rotate m m' L lp (hp + 1) j); [lia..|done|].
           apply IH; [done| |intros _ ?; lia|lia].
           split; rewrite ?length_swap; [lia|elements..].
        -- destruct (qsexc_spec es Hes base m L i j) as (m' & E & Ha' & Ho'); [done|lia|lia|].
           rewrite E. cbn [mbind option_bind]. apply (parted_swap m m' L i j); [lia|lia|done|].
           apply IH; [done| |intros ?; done|lia].
           split; rewrite ?length_swap; [lia|elements..].
      * apply IH; [done| |intros _; done|lia].
        split; [lia|done|done|]. intros k Hk. destruct (decide (k = j)) as [->|]; [lia|apply Hg; lia].
  - assert (j = hp) as -> by lia. rewrite ptr_eqb by done. destruct (Z.eqb_spec i lp) as [->|Hne].
    + exists m, L, lp, hp. split_and!; [done|done|by intros a _|apply shuffled_refl|done].
    + rewrite !ptr_prev.
      destruct (qstexc_spec es Hes base m L hp (lp - 1) i) as (m' & E & Ha' & Ho'); [done|lia..|].
      rewrite E. cbn [mbind option_bind].
      apply (parted_rotate m m' L hp (lp - 1) i); [lia..|done|].
      apply IH; [done| |intros ?; done|lia].
      split; rewrite ?length_swap; [lia|elements..].
Qed.

Lemma partition_spec (fuel : nat) at_loop m L i j lp hp :
  array es base m L -> parts L i lp hp j -> ready_at L at_loop i lp ->
  (lp - i) + (j - hp) < fuel ->
  parted m L (partition qscmp es fuel at_loop m (P i) (P j) (P lp) (P hp)).
Proof.
  revert at_loop m L i j lp hp.
  induction fuel as [|fuel IH]; intros at_loop m L i j lp hp Ha Hp Hr Hf;
    pose proof (pt_order _ _ _ _ _ Hp) as Ho; [lia|].
  cbn [partition]. rewrite ptr_ltb by done.
  assert (Hloop : (i < lp -> 0 < qscmp (blk L i) piv) ->
    parted m L (from_loop qscmp es (partition qscmp es fuel) m (P i) (P j) (P lp) (P hp))).
  { intros Hi. apply (from_loop_spec _ fuel); [|done|done|done|lia]. intros. by apply IH. }
  destruct at_loop; cbn [negb andb]; [by apply Hloop, Hr|].
  destruct (Z.ltb_spec i lp) as [Hi|Hi]; [|apply Hloop; lia].
  rewrite (compare_spec qscmp es Hes base m L) by (done || lia). cbn [mbind option_bind].
  pose proof Hp as [_ Hs He Hg].
  destruct (ord_eq_r (blk L i) (blk L lp) piv) as [C1 C2]; [apply He; lia|].
  rewrite ptr_next, ptr_prev.
  destruct (Z.eqb_spec (qscmp (blk L i) (blk L lp)) 0) as [Ec|Ec].
  - destruct (qsexc_spec es Hes base m L i (lp - 1)) as (m' & E & Ha' & Ho'); [done|lia|lia|].
    rewrite E. cbn [mbind option_bind]. apply (parted_swap m m' L i (lp - 1)); [lia|lia|done|].
    apply IH; [done| |intros ?; done|lia].
    split; rewrite ?length_swap; [lia|elements..].
    replace (lp - 1) with i by lia. tauto.
  - destruct (Z.ltb_spec (qscmp (blk L i) (blk L lp)) 0) as [Hc|Hc].
    + apply IH; [done| |intros ?; done|lia].
      split; [lia| |done|done]. intros k Hk. destruct (decide (k = i)) as [->|]; [lia|apply Hs; lia].
    + apply Hloop. lia.
Qed.

End partition.

(** ** The whole sort *)

Section sort.
Context (qscmp : list Z -> list Z -> Z) `{!ordering qscmp} (es : Z) (Hes : 0 < es) (base : Z).
Implicit Types (m : cmem) (L : list (list Z)).

Notation P := (ptr es base).

(** The part from [A] to [l] is in order. *)
Definition in_order L (A l : Z) : Prop :=
  forall x y, A <= x -> x <= y -> y < l -> qscmp (blk L x) (blk L y) <= 0.

Lemma ord_refl x : qscmp x x = 0.
Proof. pose proof (ord_antisym x x). lia. Qed.

Lemma in_order_shuffled L L' A l a b : 0 <= a -> b <= length L -> shuffled a b L L' ->
  l <= a \/ b <= A -> 0 <= A -> in_order L A l -> in_order L' A l.
Proof.
  intros H1 H2 Hs Hd HA Ho x y Hx Hxy Hy.
  rewrite !(shuffled_outside a b L L') by (done || lia). by apply Ho.
Qed.

(** Two sorted parts around the elements equal to the pivot. *)
Lemma in_order_join L A lp hp l piv : A <= lp -> lp <= hp -> hp < l ->
  (forall k, A <= k < lp -> qscmp (blk L k) piv < 0) ->
  (forall k, lp <= k <= hp -> qscmp (blk L k) piv = 0) ->
  (forall k, hp < k < l -> 0 < qscmp (blk L k) piv) ->
  in_order L A lp -> in_order L (hp + 1) l -> in_order L A l.
Proof.
  intros H1 H2 H3 Hs He Hg O1 O2 x y Hx Hxy Hy.
  destruct (decide (y < lp)); [apply O1; lia|].
  destruct (decide (hp < x)); [apply O2; lia|].
  assert (Lx : qscmp (blk L x) piv <= 0).
  { destruct (decide (x < lp)); [pose proof (Hs x)|pose proof (He x)]; lia. }
  assert (Ly : qscmp piv (blk L y) <= 0).
  { apply ord_le_flip. destruct (decide (y <= hp)); [pose proof (He y)|pose proof (Hg y)]; lia. }
  by eapply ord_trans.
Qed.

Lemma same_but_length m m' L L' : length L' = length L ->
  only_array es base m m' L' -> only_array es base m m' L.
Proof. unfold only_array. by intros ->. Qed.

(** What holds of each element of one of the three parts is kept by the sorting
    of the outer two. *)
Lemma parts_kept (Q : list Z -> Prop) L1 L2 L3 A lp hp l a1 b1 a2 b2 a b :
  (a1, b1, a2, b2) = (A, lp, hp + 1, l) \/ (a1, b1, a2, b2) = (hp + 1, l, A, lp) ->
  0 <= A -> A <= lp -> lp <= hp -> hp < l -> l <= length L1 -> length L2 = length L1 ->
  shuffled a1 b1 L1 L2 -> shuffled a2 b2 L2 L3 ->
  (a = A /\ b = lp \/ a = lp /\ b = hp + 1 \/ a = hp + 1 /\ b = l) ->
  (forall k, a <= k < b -> Q (blk L1 k)) -> forall k, a <= k < b -> Q (blk L3 k).
Proof.
  intros Hab H0 H1 H2 H3 H4 Hl2 S2 S3 Hcase HQ.
  assert (K2 : forall k, a <= k < b -> Q (blk L2 k)).
  { destruct (decide (a = a1 /\ b = b1)) as [[-> ->]|Hne].
    - eapply shuffled_all; [| |exact S2|exact HQ]; destruct Hab as [[= -> -> -> ->]|[= -> -> -> ->]]; lia.
    - intros k Hk. rewrite (shuffled_outside a1 b1 L1 L2);
        [by apply HQ| | |done| |]; destruct Hab as [[= -> -> -> ->]|[= -> -> -> ->]]; lia. }
  destruct (decide (a = a2 /\ b = b2)) as [[-> ->]|Hne].
  - eapply shuffled_all; [| |exact S3|exact K2]; destruct Hab as [[= -> -> -> ->]|[= -> -> -> ->]]; lia.
  - intros k Hk. rewrite (shuffled_outside a2 b2 L2 L3);
      [by apply K2| | |done| |]; destruct Hab as [[= -> -> -> ->]|[= -> -> -> ->]]; lia.
Qed.

(** The two recursive sorts, in either order, finish the job. *)
Lemma qs1_join m L m1 L1 A lp hp l piv :
  only_array es base m m1 L -> shuffled A l L L1 -> 0 <= A -> l <= length L ->
  (0 <= A <= lp /\ lp <= lp /\ lp <= hp /\ hp <= hp /\ hp < l /\ l <= length L) /\
  (forall k, A <= k < lp -> qscmp (blk L1 k) piv < 0) /\
  (forall k, lp <= k <= hp -> qscmp (blk L1 k) piv = 0) /\
  (forall k, hp < k < l -> 0 < qscmp (blk L1 k) piv) ->
  forall m2 L2 m3 L3 a1 b1 a2 b2,
    (a1, b1, a2, b2) = (A, lp, hp + 1, l) \/ (a1, b1, a2, b2) = (hp + 1, l, A, lp) ->
    array es base m3 L3 -> only_array es base m1 m2 L1 -> shuffled a1 b1 L1 L2 -> in_order L2 a1 b1 ->
    only_array es base m2 m3 L2 -> shuffled a2 b2 L2 L3 -> in_order L3 a2 b2 ->
    array es base m3 L3 /\ only_array es base m m3 L /\ shuffled A l L L3 /\ in_order L3 A l.
Proof.
  intros Ho1 Hs1 H0 Hlen (Hord & Hsm & Heq & Hgr) m2 L2 m3 L3 a1 b1 a2 b2 Hab Ha3 O2 S2 I2 O3 S3 I3.
  pose proof (shuffled_length _ _ _ _ Hs1) as Hl1. pose proof (shuffled_length _ _ _ _ S2) as Hl2.
  split_and!; [done| | |].
  - eapply same_but_trans; [exact Ho1|]. eapply same_but_trans.
    + eapply (same_but_length _ _ _ _ Hl1). exact O2.
    + eapply same_but_length; [|exact O3]. congruence.
  - eapply shuffled_trans; [exact Hs1|]. eapply shuffled_trans.
    + eapply shuffled_wider; [| |exact S2]; destruct Hab as [[= -> -> -> ->]|[= -> -> -> ->]]; lia.
    + eapply shuffled_wider; [| |exact S3]; destruct Hab as [[= -> -> -> ->]|[= -> -> -> ->]]; lia.
  - assert (I2' : in_order L3 a1 b1).
    { eapply in_order_shuffled; [| |exact S3| | |exact I2];
        destruct Hab as [[= -> -> -> ->]|[= -> -> -> ->]]; lia. }
    apply (in_order_join L3 A lp hp l piv); [lia|lia|lia| | | | |].
    + apply (parts_kept (fun b => qscmp b piv < 0) L1 L2 L3 A lp hp l a1 b1 a2 b2);
        (done || lia || auto).
    + intros k Hk. apply (parts_kept (fun b => qscmp b piv = 0) L1 L2 L3 A lp hp l a1 b1 a2 b2 lp (hp + 1));
        try (done || lia || auto). intros k' Hk'. apply Heq. lia.
    + intros k Hk. apply (parts_kept (fun b => 0 < qscmp b piv) L1 L2 L3 A lp hp l a1 b1 a2 b2 (hp + 1) l);
        try (done || lia || auto). intros k' Hk'. apply Hgr. lia.
    + destruct Hab as [[= -> -> -> ->]|[= -> -> -> ->]]; done.
    + destruct Hab as [[= -> -> -> ->]|[= -> -> -> ->]]; done.
Qed.

Lemma qs1_spec fuel m L A l :
  array es base m L -> 0 <= A -> A <= l -> l <= length L -> es * length L < 2 ^ 32 ->
  l - A < Z.of_nat fuel ->
  exists m' L', qs1 qscmp es fuel m (P A) (P l) = Some m' /\ array es base m' L' /\
    only_array es base m m' L /\ shuffled A l L L' /\ in_order L' A l.
Proof.
  revert m L A l. induction fuel as [|fuel IH]; intros m L A l Ha H0 Hl Hlen Hsz Hf; [lia|].
  cbn [qs1]. replace (P l - P A) with (es * (l - A)) by (unfold ptr; lia).
  rewrite u32_id by (unfold is_u32; nia).
  destruct (Z.leb_spec (es * (l - A)) es) as [Hsmall|Hbig].
  { exists m, L. split_and!; [done|done|by intros a _|apply shuffled_refl|].
    intros x y Hx Hxy Hy. assert (x = y) as -> by nia. rewrite ord_refl. lia. }
  assert (Hn : 2 <= l - A) by nia.
  replace (es * (l - A) / (2 * es)) with ((l - A) / 2)
    by (rewrite (Z.mul_comm 2 es), Z.div_mul_cancel_l by lia; done).
  set (h := (l - A) / 2). assert (Hh : 1 <= h < l - A) by (unfold h; Z.div_mod_to_equations; lia).
  replace (P A + es * h) with (P (A + h)) by (unfold ptr; lia). rewrite ptr_prev.
  destruct (partition_spec qscmp es Hes base A l (blk L (A + h))
    (S (Z.to_nat (es * (l - A)))) false m L A (l - 1) (A + h) (A + h))
    as (m1 & L1 & lp & hp & E & Ha1 & Ho1 & Hs1 & [Hord Hsm Heq Hgr]); [done| |done|nia|].
  { split; [lia|intros; lia| |intros; lia]. intros k Hk. assert (k = A + h) as -> by lia. apply ord_refl. }
  rewrite E. cbn [mbind option_bind]. rewrite ptr_next.
  pose proof (shuffled_length _ _ _ _ Hs1) as Hl1. rewrite Hl1 in Hord.
  case_match.
  - destruct (IH m1 L1 (hp + 1) l) as (m2 & L2 & E2 & Ha2 & O2 & S2 & I2); [done|lia|lia|lia|lia|lia|].
    rewrite E2. cbn [mbind option_bind]. pose proof (shuffled_length _ _ _ _ S2) as Hl2.
    destruct (IH m2 L2 A lp) as (m3 & L3 & E3 & Ha3 & O3 & S3 & I3); [done|lia|lia|lia|lia|lia|].
    exists m3, L3. split; [exact E3|]. apply (qs1_join m L m1 L1 A lp hp l (blk L (A + h)) Ho1 Hs1 H0 Hlen (conj Hord (conj Hsm (conj Heq Hgr))) m2 L2 m3 L3 (hp + 1) l A lp); [by right|done..].
  - destruct (IH m1 L1 A lp) as (m2 & L2 & E2 & Ha2 & O2 & S2 & I2); [done|lia|lia|lia|lia|lia|].
    rewrite E2. cbn [mbind option_bind]. pose proof (shuffled_length _ _ _ _ S2) as Hl2.
    destruct (IH m2 L2 (hp + 1) l) as (m3 & L3 & E3 & Ha3 & O3 & S3 & I3); [done|lia|lia|lia|lia|lia|].
    exists m3, L3. split; [exact E3|]. apply (qs1_join m L m1 L1 A lp hp l (blk L (A + h)) Ho1 Hs1 H0 Hlen (conj Hord (conj Hsm (conj Heq Hgr))) m2 L2 m3 L3 A lp (hp + 1) l); [by left|done..].
Qed.

End sort.
