(* ===== verification/LibProps.v ===== *)
(** * Properties of the C library's strings and formatted output *)

From S2P Require Import Prelude CString CStringSpec Printf PrintfSpec Qsort QsortSpec.

Local Coercion Z.of_nat : nat >-> Z.

(** A memory with two strings and a buffer. *)
Definition page : cmem :=
  place 100 [104; 101; 108; 108; 111; 0] ∪ place 200 [108; 111; 0] ∪
  place 300 (replicate 90 0) ∪ place 400 [37; 48; 54; 100; 0].

(** ** strstr *)

(** strstr. Searching a string for a non-empty one always terminates and
    returns the address of the first place where it occurs, and NULL exactly
    when it occurs nowhere. *)
Theorem strstr_first m s t l l2 :
  cstr m s l -> cstr m t l2 -> l2 <> [] ->
  exists r, strstr m s t = Some r /\ first_occurrence s l l2 r.
Proof.
  intros H1 H2 H3. apply strstr_loop_spec; [done..|]. apply cstr_fuel in H1. lia.
Qed.

(** strstr_first on a memory with the strings hello and lo. *)
Lemma strstr_first_witness :
  exists r, strstr page 100 200 = Some r /\
    first_occurrence 100 [104; 101; 108; 108; 111] [108; 111] r.
Proof.
  apply (strstr_first page 100 200 [104; 101; 108; 108; 111] [108; 111]).
  - apply cstrb_spec. vm_compute. reflexivity.
  - apply cstrb_spec. vm_compute. reflexivity.
  - discriminate.
Defined.

(** ** strncat *)

(** C22: strncat. Appending at most [n] bytes of a string leaves the two
    strings joined at the destination, with a terminator, and writes to no
    byte other than the [min n (length l2) + 1] after the first string. *)
Theorem strncat_appends m s1 s2 n l1 l2 :
  cstr m s1 l1 -> cstr m s2 l2 -> 0 <= n ->
  mapped m (s1 + length l1) (S (min (Z.to_nat n) (length l2))) ->
  apart s1 (length l1 + S (min (Z.to_nat n) (length l2))) s2 (S (length l2)) ->
  exists m', strncat m s1 s2 n = Some (m', s1) /\
    cstr m' s1 (l1 ++ take (Z.to_nat n) l2) /\ cstr m' s2 l2 /\
    same_but m m' (s1 + length l1) (S (min (Z.to_nat n) (length l2))).
Proof.
  intros H1 H2 Hn Hm Hap. unfold apart in Hap.
  pose proof (cstr_fuel _ _ _ H1). pose proof (cstr_fuel _ _ _ H2). unfold strncat.
  rewrite (strend_spec m _ s1 l1) by (done || lia). cbn [mbind option_bind].
  destruct (strncat_copy_spec m (scan_fuel m) (s1 + length l1) s2 n l2) as (m' & E & W);
    [done|done|done|unfold apart; lia|lia|].
  rewrite E. cbn [mbind option_bind]. exists m'. destruct W as [W1 W2].
  rewrite length_app, length_take in W2. simpl in W2.
  assert (Hs : same_but m m' (s1 + length l1) (S (min (Z.to_nat n) (length l2)))).
  { intros a Ha. apply W2. lia. }
  split_and!; [done| | |done].
  - destruct H1 as [H1 H1'], H2 as [_ H2']. split.
    + rewrite <- app_assoc. apply bytes_at_app. split; [|done].
      apply bytes_at_app in H1 as [H1 _]. eapply bytes_at_same; [exact H1|].
      intros a Ha. apply Hs. lia.
    + apply Forall_app. split; [done|]. by apply Forall_take.
  - eapply cstr_same; [exact H2|]. intros a Ha. apply Hs. lia.
Qed.

(** strncat_appends for two bytes of a string and an empty destination. *)
Lemma strncat_appends_witness :
  exists m', strncat page 300 100 2 = Some (m', 300) /\ cstr m' 300 [104; 101] /\
    cstr m' 100 [104; 101; 108; 108; 111] /\ same_but page m' 300 3.
Proof.
  apply (strncat_appends page 300 100 2 [] [104; 101; 108; 108; 111]).
  - apply cstrb_spec. vm_compute. reflexivity.
  - apply cstrb_spec. vm_compute. reflexivity.
  - lia.
  - apply mappedb_spec. vm_compute. reflexivity.
  - right. vm_compute. discriminate.
Defined.

(** ** sprintf and atoi *)

Lemma decimal_zeros k l : decimal (replicate k 48 ++ l) = decimal l.
Proof.
  unfold decimal. rewrite foldl_app. f_equal.
  induction k as [|k IH]; [done|]. simpl. exact IH.
Qed.

(** The text of a field is one that [atoi] reads. *)
Lemma field_numeral sp (neg : bool) os :
  good_spec sp -> (leftjust sp = true -> fill sp = 32) -> Forall digit os -> os <> [] ->
  exists bl ds z rest, field sp neg os ++ [0] = bl ++ numeral neg ds ++ z :: rest /\
    Forall blank bl /\ Forall digit ds /\ ds <> [] /\ ~ digit z /\ decimal ds = decimal os.
Proof.
  intros (_ & _ & Hf) Hl Hd Hne. unfold field, numeral.
  set (k := Z.to_nat (fmin sp - length os - if neg then 1 else 0)).
  destruct (leftjust sp).
  - rewrite (Hl eq_refl). change (32 =? 48) with false. change (32 =? 32) with true.
    rewrite andb_false_r, andb_true_r. destruct k as [|k].
    + exists [], os, 0, []. split_and!; [|constructor|done|done|unfold digit; lia|done].
      cbn [replicate app]. rewrite app_nil_r, <- app_assoc. done.
    + exists [], os, 32, (replicate k 32 ++ [0]).
      split_and!; [|constructor|done|done|unfold digit; lia|done].
      cbn [replicate app]. rewrite <- !app_assoc. done.
  - destruct Hf as [Hf|Hf]; rewrite Hf.
    + change (32 =? 48) with false. change (32 =? 32) with true.
      rewrite andb_false_r, andb_true_r. exists (replicate k 32), os, 0, [].
      split_and!; [|by apply Forall_replicate; left|done|done|unfold digit; lia|done].
      cbn [app]. rewrite app_nil_r, <- !app_assoc. done.
    + change (48 =? 48) with true. change (48 =? 32) with false.
      rewrite andb_false_r, andb_true_r. exists [], (replicate k 48 ++ os), 0, [].
      split_and!; [|constructor| | |unfold digit; lia|apply decimal_zeros].
      * cbn [app]. rewrite app_nil_r, <- !app_assoc. done.
      * apply Forall_app. split; [|done]. apply Forall_replicate. unfold digit. lia.
      * by destruct k.
Qed.

(** C20: sprintf and atoi. Printing an integer with "%d", with any of the flags
    "-" and "0" (not both) and any width up to 80, writes a terminated text of
    at most 81 bytes from which [atoi] reads the integer back.  The integer is not - 2^31, the one that is not printed
    right; the width is not written with a leading zero unless that is the flag, and the text and the format are apart. *)
Theorem sprintf_atoi_roundtrip m str fmt left zero ws n string :
  cstr m fmt (37 :: (flags left zero ++ ws) ++ [100]) -> Forall digit ws ->
  decimal ws <= MAXSTR -> (zero = false -> head ws <> Some 48) -> (left = true -> zero = false) ->
  - 2 ^ 31 < n < 2 ^ 31 -> mapped string 0 20 -> mapped m str 81 ->
  apart str 81 fmt (length (flags left zero ++ ws) + 3) ->
  exists m', sprintf m str fmt [n] string = Some (m', str) /\ atoi m' str = Some n /\
    same_but m m' str 81.
Proof.
  intros Hfmt Hws Hw Hz Hlz Hn Hst Hd Hap.
  destruct (sprintf_d_spec m str fmt left zero ws n string) as (m' & os & E & Hp & Hwr);
    [done..|].
  exists m'. split; [done|]. destruct Hp as (os' & Eo & Hv & Hne & HQ & Hl & _).
  apply app_inj_2 in Eo as [<- _]; [|done].
  set (sp := mkspec left (if zero then 48 else 32) (decimal ws) 0) in *.
  pose proof (decimal_pos ws Hws).
  assert (Hg : good_spec sp) by (unfold good_spec, sp; simpl; destruct zero; auto with lia).
  assert (Hlen : (length (field sp (n <? 0)%Z os) <= 80)%nat) by (apply length_field_bound; [simpl; lia|done]).
  rewrite (value_decimal os HQ) in Hv. split.
  - destruct (field_numeral sp (n <? 0) os) as (bl & ds & z & rest & Et & Hbl & Hds & Hdn & Hz' & Hv');
      [done| |done|done|].
    { simpl. intros ->. by rewrite Hlz. }
    rewrite Et in Hwr. destruct Hwr as [Hwr _].
    replace (bl ++ numeral (n <? 0) ds ++ z :: rest)
      with ((bl ++ numeral (n <? 0) ds ++ [z]) ++ rest) in Hwr by (rewrite <- !app_assoc; done).
    apply bytes_at_app in Hwr as [Hwr _].
    rewrite (atoi_spec m' str bl (n <? 0) ds z) by (done || lia).
    rewrite Hv', Hv. destruct (Z.ltb_spec n 0); f_equal; lia.
  - intros a Ha. apply Hwr. rewrite length_app. simpl. lia.
Qed.

(** sprintf_atoi_roundtrip for -1234 and the format "%06d". *)
Lemma sprintf_atoi_roundtrip_witness :
  exists m', sprintf page 300 400 [-1234] (place 0 (replicate 20 7)) = Some (m', 300) /\
    atoi m' 300 = Some (-1234) /\ same_but page m' 300 81.
Proof.
  apply (sprintf_atoi_roundtrip page 300 400 false true [54] (-1234) (place 0 (replicate 20 7))).
  - apply cstrb_spec. vm_compute. reflexivity.
  - constructor; [vm_compute; split; discriminate|constructor].
  - vm_compute. discriminate.
  - discriminate.
  - discriminate.
  - lia.
  - apply mappedb_spec. vm_compute. reflexivity.
  - apply mappedb_spec. vm_compute. reflexivity.
  - left. vm_compute. discriminate.
Defined.

(** The most negative integer is its own negation: its digits come out below '0', as "-./,),(-*,(". *)
Example sprintf_most_negative :
  match sprintf page 300 400 [- 2 ^ 31] (place 0 (replicate 20 7)) with
  | Some (m', _) => bytes_at m' 300 [45; 46; 47; 44; 41; 44; 40; 45; 42; 44; 40; 0]
  | None => False
  end.
Proof. apply bytes_atb_spec. vm_compute. reflexivity. Qed.

(** ** Numbers in a base *)

(** A conversion that left the text [out] in the local array [string]. *)
Definition converted {X} (r : option (conv (X := X))) (ap : list Z) (out : list Z) : Prop :=
  exists v, r = Some v /\ cv_ap v = ap /\ cv_str v = InString /\ cv_sign v = 0 /\
    fmax (cv_spec v) = 0 /\ bytes_at (cv_string v) 0 out.

(** The base, the digits and the greatest length for a conversion character. *)
Definition radix (f : Z) : option (Z * (Z -> Prop) * nat) :=
  if f =? 120 then Some (16, xdigit, 8%nat)
  else if f =? 88 then Some (16, Xdigit, 8%nat)
  else if f =? 111 then Some (8, digit, 11%nat)
  else if f =? 117 then Some (10, digit, 10%nat)
  else None.

Lemma prints_fill b (Q : Z -> Prop) v n out (string : cmem) :
  prints b Q v n out -> (forall c, Q c -> byte c) -> (n < 20)%nat -> mapped string 0 20 ->
  exists string', fill_string string 0 out = Some string' /\ bytes_at string' 0 out.
Proof.
  intros (os & -> & _ & _ & HQ & Hl & _) Hb Hn Hs.
  destruct (fill_string_spec (os ++ [0]) string 0) as (string' & E & W & _).
  - apply Forall_app. split; [by eapply Forall_impl|]. constructor; [unfold byte; lia|constructor].
  - eapply mapped_sub; [exact Hs|lia|rewrite length_app; simpl; lia].
  - by exists string'.
Qed.

Lemma unsigned_text_fill larg (string : cmem) out : is_i32 larg -> unsigned_text larg = Some out ->
  mapped string 0 20 -> prints 10 digit (u32 larg) 10 out ->
  exists x d s1 c s2, unsign 3 larg 0 = Some (x, d) /\ fill_string string 0 (prtl10 x) = Some s1 /\
    cld s1 0 = Some c /\ cst s1 0 (c + d) = Some s2 /\ bytes_at s2 0 out.
Proof.
  intros Hi E Hm Hp. destruct (unsign_spec larg Hi) as (x & d & Eu & Hd & _ & Hx & _).
  unfold unsigned_text in E. rewrite Eu in E. cbn [mbind option_bind] in E.
  destruct (prints_fill 10 digit x 10 (prtl10 x) string) as (s1 & Es & Hs1);
    [apply prtl10_prints; lia|unfold digit, byte; lia|lia|done|].
  destruct (prtl10 x) as [|c l] eqn:El; [done|]. injection E as <-. destruct Hs1 as [Hc Hl].
  exists x, d, s1, c. eexists. split_and!; [done|by rewrite El|done| |].
  - apply cst_mapped. by exists c.
  - split; [apply lookup_insert_eq|]. eapply bytes_at_same; [exact Hl|].
    intros a Ha. apply lookup_insert_ne. lia.
Qed.

(** number conversions. For the formats "%x", "%X", "%o" and "%u" the text
    left in the local array consists of digits of the base whose value is the
    argument as an unsigned 32-bit number; it has no leading zeros, at least one
    digit, and fits the array. *)
Theorem numbers_in_base {X} (func : cmem -> X -> Z -> option (cmem * X)) m x f larg ap string sp b Q n :
  radix f = Some (b, Q, n) -> is_i32 larg -> mapped string 0 20 ->
  exists out, converted (convert func m x f (larg :: ap) string sp) ap out /\
    prints b Q (u32 larg) n out.
Proof.
  unfold radix. intros Hr Hi Hm.
  assert (Hhex : forall c, xdigit c \/ Xdigit c \/ digit c -> byte c)
    by (unfold xdigit, Xdigit, digit, byte; lia).
  destruct (Z.eqb_spec f 120) as [->|H1]; [|destruct (Z.eqb_spec f 88) as [->|H2];
    [|destruct (Z.eqb_spec f 111) as [->|H3]; [|destruct (Z.eqb_spec f 117) as [->|H4]; [|done]]]];
    injection Hr as <- <- <-.
  - pose proof (prtl16_prints larg) as Hp. exists (prtl16 larg). split; [|done].
    destruct (prints_fill _ _ _ _ _ string Hp) as (s' & E & Hs); [auto|lia|done|].
    unfold convert. cbn -[prtl8 prtl16 prtX16 fill_string]. rewrite E. eexists. split; [reflexivity|]. by split_and!.
  - pose proof (prtX16_prints larg) as Hp. exists (prtX16 larg). split; [|done].
    destruct (prints_fill _ _ _ _ _ string Hp) as (s' & E & Hs); [auto|lia|done|].
    unfold convert. cbn -[prtl8 prtl16 prtX16 fill_string]. rewrite E. eexists. split; [reflexivity|]. by split_and!.
  - pose proof (prtl8_prints larg) as Hp. exists (prtl8 larg). split; [|done].
    destruct (prints_fill _ _ _ _ _ string Hp) as (s' & E & Hs); [auto|lia|done|].
    unfold convert. cbn -[prtl8 prtl16 prtX16 fill_string]. rewrite E. eexists. split; [reflexivity|]. by split_and!.
  - destruct (unsigned_text_spec larg Hi) as (out & E & Hp). exists out. split; [|done].
    destruct (unsigned_text_fill larg string out Hi E Hm Hp) as (y & d & s1 & c & s2 & E1 & E2 & E3 & E4 & E5).
    unfold convert. cbn -[unsign prtl10 cst cld fill_string]. rewrite E1. cbn [mbind option_bind]. rewrite E2.
    cbn [mbind option_bind]. rewrite E3. cbn [mbind option_bind]. rewrite E4.
    eexists. split; [reflexivity|]. by split_and!.
Qed.

(** numbers_in_base for "%u" and the argument -1. *)
Lemma numbers_in_base_witness :
  exists out, converted (convert sprntf page 300 117 [-1] (place 0 (replicate 20 7))
                           (mkspec false 32 0 0)) [] out /\
    prints 10 digit 4294967295 10 out.
Proof.
  apply (numbers_in_base sprntf page 300 117 (-1) [] (place 0 (replicate 20 7))
           (mkspec false 32 0 0) 10 digit 10).
  - reflexivity.
  - unfold is_i32. lia.
  - apply mappedb_spec. vm_compute. reflexivity.
Defined.

(** "%b" of a number from 2^19 on writes past the end of the array. *)
Lemma printf_b_overflows :
  convert sprntf page 300 98 [2 ^ 19] (place 0 (replicate 20 7)) (mkspec false 32 0 0) = None.
Proof. vm_compute. reflexivity. Qed.

(** ** qsort *)

Lemma StronglySorted_by_index {A} (R : A -> A -> Prop) (l : list A) :
  (forall i j x y, (i < j)%nat -> l !! i = Some x -> l !! j = Some y -> R x y) -> StronglySorted R l.
Proof.
  induction l as [|z l IH]; intros H; constructor.
  - apply IH. intros i j x y Hij Hx Hy. by apply (H (S i) (S j)); [lia|..].
  - apply Forall_forall. intros y [j Hy]%list_elem_of_lookup. by apply (H 0%nat (S j)); [lia|..].
Qed.

(** C21: qsort. For a comparison function that is a total preorder, [qsort]
    terminates, leaves a permutation of the elements in ascending order, and
    writes only to the array. *)
Theorem qsort_sorts cmp `{!ordering cmp} es m a n L :
  0 < es -> array es a m L -> Z.of_nat (length L) = n -> es * n < 2 ^ 32 ->
  exists m' L', qsort cmp es m a n = Some m' /\ array es a m' L' /\
    L' ≡ₚ L /\ StronglySorted (fun x y => cmp x y <= 0) L' /\ same_but m m' a (es * n).
Proof.
  intros Hes Ha <- Hsz. unfold qsort. rewrite u32_id by (unfold is_u32; nia).
  destruct (qs1_spec cmp es Hes a (S (Z.to_nat (length L))) m L 0 (length L))
    as (m' & L' & E & Ha' & Ho & Hs & Hin); [done|lia..|].
  exists m', L'. unfold ptr in E. replace (a + es * 0) with a in E by lia.
  replace (a + length L * es) with (a + es * length L) by lia.
  pose proof (shuffled_length _ _ _ _ Hs) as Hl.
  split_and!; [done|done|by eapply shuffled_Permutation| |done].
  apply StronglySorted_by_index. intros i j x y Hij Hx Hy.
  pose proof (lookup_lt_Some _ _ _ Hy). specialize (Hin i j ltac:(lia) ltac:(lia) ltac:(lia)).
  unfold blk in Hin. rewrite !Nat2Z.id in Hin.
  by rewrite (list_lookup_total_correct _ _ _ Hx), (list_lookup_total_correct _ _ _ Hy) in Hin.
Qed.

(** Comparison of the first bytes. *)
Definition bytecmp (x y : list Z) : Z := hd 0 x - hd 0 y.

#[export] Instance bytecmp_ordering : ordering bytecmp.
Proof. split; unfold bytecmp; intros; lia. Qed.

Lemma hello_array : array 1 100 page [[104]; [101]; [108]; [108]; [111]].
Proof.
  intros k Hk. change (Z.of_nat (length _)) with 5 in Hk.
  assert (k = 0 \/ k = 1 \/ k = 2 \/ k = 3 \/ k = 4) as Hc by lia.
  destruct Hc as [-> | [-> | [-> | [-> | ->]]]];
    (split_and!; [reflexivity|repeat constructor; discriminate|apply bytes_atb_spec; vm_compute; reflexivity]).
Qed.

(** qsort_sorts on the letters of hello. *)
Lemma qsort_sorts_witness :
  exists m' L', qsort bytecmp 1 page 100 5 = Some m' /\ array 1 100 m' L' /\
    L' ≡ₚ [[104]; [101]; [108]; [108]; [111]] /\
    StronglySorted (fun x y => bytecmp x y <= 0) L' /\ same_but page m' 100 5.
Proof.
  apply (qsort_sorts bytecmp 1 page 100 5 [[104]; [101]; [108]; [108]; [111]]).
  - lia.
  - exact hello_array.
  - reflexivity.
  - lia.
Defined.

(** The first occurrence of an empty string is not found. *)
Lemma strstr_empty_pattern :
  strstr page 100 105 = Some NULL.
Proof. vm_compute. reflexivity. Qed.
