(* ===== verification/Sys.v ===== *)
(** * The kernel together with the tables built on it

    Mailboxes, buffer pools and the network tables are globals of their own;
    their routines call the system calls of the kernel.  The state here is the
    kernel with these tables, and [kcall] runs a kernel program on it. *)

From S2P Require Import Prelude Prog Queue Interrupt Memory Kernel.

(** ** Mailboxes (include/mailbox.h) *)

Inductive mboxstate : Type := MAILBOX_FREE | MAILBOX_ALLOC.

#[export] Instance mboxstate_eq_dec : EqDecision mboxstate.
Proof. solve_decision. Defined.

Record mbox : Type := mkmbox {
  mb_sender : Z;
  mb_receiver : Z;
  mb_max : Z;
  mb_count : Z;
  mb_start : Z;
  mb_state : mboxstate;
  mb_msgs : Z;
}.

(** ** Buffer pools (include/bufpool.h) *)

Definition NPOOL : Z := 8.
Definition POOL_MAX_BUFSIZE : Z := 2048.
Definition POOL_MIN_BUFSIZE : Z := 8.
Definition POOL_MAX_NBUFS : Z := 8192.

Inductive bfpstate : Type := BFPFREE | BFPUSED.

#[export] Instance bfpstate_eq_dec : EqDecision bfpstate.
Proof. solve_decision. Defined.

Record bfpentry : Type := mkbfpentry {
  bf_state : bfpstate;
  bf_bufsize : Z;
  bf_nbuf : Z;
  bf_head : Z;
  bf_next : Z;
  bf_freebuf : Z;
}.

(** ** The whole state *)

Record sysst : Type := mksysst {
  kern : kernel;
  mboxtab : gmap Z mbox;
  mboxtabsem : Z;
  nextmbx : Z;
  bfptab : gmap Z bfpentry;
}.

Definition set_kern (v : kernel) (s : sysst) : sysst :=
  mksysst v (mboxtab s) (mboxtabsem s) (nextmbx s) (bfptab s).
Definition set_mboxtab (v : gmap Z mbox) (s : sysst) : sysst :=
  mksysst (kern s) v (mboxtabsem s) (nextmbx s) (bfptab s).
Definition set_mboxtabsem (v : Z) (s : sysst) : sysst :=
  mksysst (kern s) (mboxtab s) v (nextmbx s) (bfptab s).
Definition set_nextmbx (v : Z) (s : sysst) : sysst :=
  mksysst (kern s) (mboxtab s) (mboxtabsem s) v (bfptab s).
Definition set_bfptab (v : gmap Z bfpentry) (s : sysst) : sysst :=
  mksysst (kern s) (mboxtab s) (mboxtabsem s) (nextmbx s) v.

(** ** Kernel calls *)

#[export] Instance kern_part : Part kern set_kern.
Proof. split; [done| |done]. by intros []. Qed.

Definition kcall {A} (p : prog kernel A) : prog sysst A := zoom kern set_kern p.

(** What a kernel program does, seen from the whole state. *)
Lemma run_kcall {A} (p : prog kernel A) s : run (kcall p) s = on_part kern set_kern s (run p (kern s)).
Proof. apply (run_zoom kern set_kern). Qed.

Lemma run_kcall_bind {A B} (p : prog kernel A) (g : A -> prog sysst B) s k a :
  run p (kern s) = Returned k a -> run (kcall p ≫= g) s = run (g a) (set_kern k s).
Proof. apply (run_zoom_bind kern set_kern). Qed.

(** ** Accesses *)

(** [mboxtab[box]] and assignments to its fields *)
Definition mb (box : Z) : prog sysst mbox := readopt (fun s => mboxtab s !! box).
Definition upd_mb (box : Z) (f : mbox -> mbox) : prog sysst unit :=
  lift (fun s => e ← mboxtab s !! box; Some (set_mboxtab (<[box := f e]> (mboxtab s)) s, tt)).

Lemma run_mb_bind {B} box e (g : mbox -> prog sysst B) s :
  mboxtab s !! box = Some e -> run (mb box ≫= g) s = run (g e) s.
Proof. apply (run_readopt_bind (fun s => mboxtab s !! box)). Qed.

Definition bf (id : Z) : prog sysst bfpentry := readopt (fun s => bfptab s !! id).
Definition upd_bf (id : Z) (f : bfpentry -> bfpentry) : prog sysst unit :=
  lift (fun s => e ← bfptab s !! id; Some (set_bfptab (<[id := f e]> (bfptab s)) s, tt)).

Lemma run_bf_bind {B} id e (g : bfpentry -> prog sysst B) s :
  bfptab s !! id = Some e -> run (bf id ≫= g) s = run (g e) s.
Proof. apply (run_readopt_bind (fun s => bfptab s !! id)). Qed.

Lemma run_upd_bf_bind {B} id f e (g : unit -> prog sysst B) s : bfptab s !! id = Some e ->
  run (upd_bf id f ≫= g) s = run (g tt) (set_bfptab (<[id := f e]> (bfptab s)) s).
Proof. intros E. unfold upd_bf. erewrite run_lift_bind; [done|]. by rewrite E. Qed.

Lemma run_upd_mb_bind {B} box f e (g : unit -> prog sysst B) s : mboxtab s !! box = Some e ->
  run (upd_mb box f ≫= g) s = run (g tt) (set_mboxtab (<[box := f e]> (mboxtab s)) s).
Proof. intros E. unfold upd_mb. erewrite run_lift_bind; [done|]. by rewrite E. Qed.

(** A word of memory *)
Definition load (a : Z) : prog sysst Z := gets (fun s => ld (mem (kern s)) a).
Definition store (a v : Z) : prog sysst unit :=
  modify (fun s => set_kern (set_mem (st (mem (kern s)) a v) (kern s)) s).

(** [memget], [memfree] disable interrupts around the body modelled in the heap. *)
Definition k_memget (nbytes : Z) : prog kernel Z :=
  lift (fun k => '(M, r) ← memget (mem k) nbytes; Some (set_mem M k, r)).
Definition k_memfree (p nbytes : Z) : prog kernel Z :=
  lift (fun k => '(M, r) ← memfree (mem k) p nbytes; Some (set_mem M k, r)).
