(* ===== verification/Mailbox.v ===== *)
(** * Mailboxes (mailbox/mailboxInit.c, mailboxAlloc.c, mailboxFree.c,
      mailboxSend.c, mailboxReceive.c, mailboxCount.c), and [sysinit] (system/initialize.c), which
      sets them up *)

From S2P Require Import Prelude Prog Queue Interrupt Memory Kernel Thread Semaphore Clock Lifecycle Sys.

Definition set_mb_state (v : mboxstate) (e : mbox) : mbox :=
  mkmbox (mb_sender e) (mb_receiver e) (mb_max e) (mb_count e) (mb_start e) v (mb_msgs e).
Definition set_mb_msgs (v : Z) (e : mbox) : mbox :=
  mkmbox (mb_sender e) (mb_receiver e) (mb_max e) (mb_count e) (mb_start e) (mb_state e) v.
Definition set_mb_max (v : Z) (e : mbox) : mbox :=
  mkmbox (mb_sender e) (mb_receiver e) v (mb_count e) (mb_start e) (mb_state e) (mb_msgs e).
Definition set_mb_sems (snd rcv : Z) (e : mbox) : mbox :=
  mkmbox snd rcv (mb_max e) (mb_count e) (mb_start e) (mb_state e) (mb_msgs e).
Definition set_mb_fill (count start : Z) (e : mbox) : mbox :=
  mkmbox (mb_sender e) (mb_receiver e) (mb_max e) count start (mb_state e) (mb_msgs e).

(** [for (i = 0; i < NMAILBOX; i++) mboxtab[i].state = MAILBOX_FREE] *)
Fixpoint mbox_free_all (n : nat) : prog sysst unit :=
  match n with
  | O => mret tt
  | S n => mbox_free_all n;; upd_mb (Z.of_nat n) (set_mb_state MAILBOX_FREE)
  end.

Definition mailboxInit : prog sysst Z :=
  s ← kcall (semcreate 1);
  modify (set_mboxtabsem s);;
  mbox_free_all (Z.to_nat NMAILBOX);;
  mret OK.

(** The body of the loop for a free mailbox [box]. *)
Definition mailboxSetup (box count : Z) : prog sysst Z :=
  sem ← gets mboxtabsem;
  msgs ← kcall (k_memget (u32 (4 * count)));
  upd_mb box (set_mb_msgs msgs);;
  if msgs =? SYSERR then kcall (signal sem);; mret SYSERR
  else
    upd_mb box (set_mb_max count);;
    snd ← kcall (semcreate (i32 count));
    upd_mb box (fun e => set_mb_sems snd (mb_receiver e) e);;
    rcv ← kcall (semcreate 0);
    upd_mb box (fun e => set_mb_sems (mb_sender e) rcv e);;
    e ← mb box;
    if (mb_sender e =? u32 SYSERR) || (mb_receiver e =? u32 SYSERR) then
      kcall (k_memfree (mb_msgs e) (u32 (4 * mb_max e)));;
      kcall (semfree (mb_sender e));;
      kcall (semfree (mb_receiver e));;
      mret SYSERR
    else
      upd_mb box (set_mb_fill 0 0);;
      upd_mb box (set_mb_state MAILBOX_ALLOC);;
      kcall (signal sem);;
      mret box.

(** [n] mailboxes are still to be looked at. *)
Fixpoint mailboxAlloc_loop (n : nat) (count : Z) : prog sysst Z :=
  match n with
  | O => sem ← gets mboxtabsem; kcall (signal sem);; mret SYSERR
  | S n =>
      next ← gets (fun s => (nextmbx s + 1) mod NMAILBOX);
      modify (set_nextmbx next);;
      e ← mb next;
      if decide (mb_state e = MAILBOX_FREE) then mailboxSetup next count
      else mailboxAlloc_loop n count
  end.

Definition mailboxAlloc (count : Z) : prog sysst Z :=
  sem ← gets mboxtabsem;
  kcall (wait sem);;
  mailboxAlloc_loop (Z.to_nat NMAILBOX) count.

Definition mailboxFree (box : Z) : prog sysst Z :=
  if NMAILBOX <=? box then mret SYSERR
  else
    e ← mb box;
    if decide (mb_state e <> MAILBOX_ALLOC) then mret SYSERR
    else
      sem ← gets mboxtabsem;
      kcall (wait sem);;
      e ← mb box;
      r1 ← kcall (semfree (mb_sender e));
      r2 ← (if r1 =? SYSERR then mret SYSERR else e ← mb box; kcall (semfree (mb_receiver e)));
      if (r1 =? SYSERR) || (r2 =? SYSERR) then kcall (signal sem);; mret SYSERR
      else
        e ← mb box;
        r ← kcall (k_memfree (mb_msgs e) (u32 (4 * mb_max e)));
        if r =? SYSERR then kcall (signal sem);; mret SYSERR
        else
          upd_mb box (set_mb_state MAILBOX_FREE);;
          kcall (signal sem);;
          mret OK.

(** [a % b] of unsigned operands *)
Definition umod (a b : Z) : prog sysst Z := if b =? 0 then Fault else mret (a mod b).

(** The section of [mailboxSend] with interrupts disabled. *)
Definition mailboxPut (box mailmsg : Z) : prog sysst unit :=
  e ← mb box;
  i ← umod (u32 (mb_start e + mb_count e)) (mb_max e);
  store (u32 (mb_msgs e + 4 * i)) (u32 mailmsg);;
  upd_mb box (fun e => set_mb_fill (u32 (mb_count e + 1)) (mb_start e) e).

Definition mailboxSend (box mailmsg : Z) : prog sysst Z :=
  if NMAILBOX <=? box then mret SYSERR
  else
    e ← mb box;
    if decide (mb_state e <> MAILBOX_ALLOC) then mret SYSERR
    else
      kcall (wait (mb_sender e));;
      im ← kcall k_disable;
      mailboxPut box mailmsg;;
      kcall (k_restore im);;
      e ← mb box;
      kcall (signal (mb_receiver e));;
      mret OK.

(** The section of [mailboxReceive] with interrupts disabled. *)
Definition mailboxTake (box : Z) : prog sysst Z :=
  e ← mb box;
  w ← load (u32 (mb_msgs e + 4 * mb_start e));
  i ← umod (u32 (mb_start e + 1)) (mb_max e);
  upd_mb box (fun e => set_mb_fill (u32 (mb_count e - 1)) i e);;
  mret (i32 w).

Definition mailboxReceive (box : Z) : prog sysst Z :=
  if NMAILBOX <=? box then mret SYSERR
  else
    e ← mb box;
    if decide (mb_state e <> MAILBOX_ALLOC) then mret SYSERR
    else
      kcall (wait (mb_receiver e));;
      im ← kcall k_disable;
      mailmsg ← mailboxTake box;
      kcall (k_restore im);;
      e ← mb box;
      kcall (signal (mb_sender e));;
      mret mailmsg.

Definition mailboxCount (box : Z) : prog sysst Z :=
  if NMAILBOX <=? box then mret SYSERR
  else
    e ← mb box;
    if decide (mb_state e <> MAILBOX_ALLOC) then mret SYSERR
    else
      im ← kcall k_disable;
      e ← mb box;
      kcall (k_restore im);;
      mret (mb_count e).

(** ** sysinit *)

(** [for (i = 0; i < NPOOL; i++) bfptab[i].state = BFPFREE] *)
Fixpoint pool_free_all (n : nat) : prog sysst unit :=
  match n with
  | O => mret tt
  | S n =>
      pool_free_all n;;
      upd_bf (Z.of_nat n) (fun e => mkbfpentry BFPFREE (bf_bufsize e) (bf_nbuf e) (bf_head e) (bf_next e) (bf_freebuf e))
  end.

(** The calls of [devtab[i].init], in order.  The table is generated from the configuration; [devs] are its functions. *)
Fixpoint init_devices (devs : list (prog sysst Z)) : prog sysst unit :=
  match devs with
  | [] => mret tt
  | init :: devs => init;; init_devices devs
  end.

(** UHEAP_SIZE and USE_TLB are not defined on the ARM platforms. *)
Definition sysinit (end_addr clkfreq clkhandler_addr : Z) (devs : list (prog sysst Z)) : prog sysst Z :=
  kcall (init_tables end_addr);;
  pool_free_all (Z.to_nat NPOOL);;
  kcall (init_clock clkfreq clkhandler_addr);;
  mailboxInit;;
  init_devices devs;;
  mret OK.
