(* ===== verification/BufPool.v ===== *)
(** * Buffer pools (system/bfpalloc.c, bfpfree.c, bufget.c, buffree.c,
      include/bufpool.h)

    A [struct poolbuf] is two words in front of each buffer: [next] at offset 0
    and [poolid] at offset 4. *)

From S2P Require Import Prelude Prog Queue Interrupt Memory Kernel Thread Semaphore Sys.

Definition roundword (b : Z) : Z := Z.land (u32 (3 + b)) (Z.lnot 3).

Definition isbadpool (s : sysst) (p : Z) : bool :=
  (NPOOL <=? p) || (p <? 0)
  || match bfptab s !! p with
     | Some e => bool_decide (bf_state e = BFPFREE)
     | None => true
     end.

Definition set_bf_state (v : bfpstate) (e : bfpentry) : bfpentry :=
  mkbfpentry v (bf_bufsize e) (bf_nbuf e) (bf_head e) (bf_next e) (bf_freebuf e).
Definition set_bf_size (bufsize nbuf : Z) (e : bfpentry) : bfpentry :=
  mkbfpentry (bf_state e) bufsize nbuf (bf_head e) (bf_next e) (bf_freebuf e).
Definition set_bf_head (v : Z) (e : bfpentry) : bfpentry :=
  mkbfpentry (bf_state e) (bf_bufsize e) (bf_nbuf e) v (bf_next e) (bf_freebuf e).
Definition set_bf_next (v : Z) (e : bfpentry) : bfpentry :=
  mkbfpentry (bf_state e) (bf_bufsize e) (bf_nbuf e) (bf_head e) v (bf_freebuf e).
Definition set_bf_freebuf (v : Z) (e : bfpentry) : bfpentry :=
  mkbfpentry (bf_state e) (bf_bufsize e) (bf_nbuf e) (bf_head e) (bf_next e) v.

(** The first free pool from [id] on, or NPOOL. *)
Fixpoint find_pool (n : nat) (id : Z) : prog sysst Z :=
  match n with
  | O => mret id
  | S n =>
      e ← bf id;
      if decide (bf_state e = BFPFREE) then mret id else find_pool n (id + 1)
  end.

(** The loop that links the buffers. *)
Fixpoint link_bufs (n : nat) (bufptr id bufsize : Z) : prog sysst unit :=
  match n with
  | O => mret tt
  | S n =>
      store (u32 (bufptr + 4)) id;;
      store bufptr (u32 (bufptr + bufsize));;
      link_bufs n (u32 (bufptr + bufsize)) id bufsize
  end.

Definition bfpalloc (bufsize nbuf : Z) : prog sysst Z :=
  let bufsize := u32 (roundword bufsize + 8) in
  if (POOL_MAX_BUFSIZE <? bufsize) || (bufsize <? POOL_MIN_BUFSIZE)
     || (POOL_MAX_NBUFS <? nbuf) || (nbuf <? 1)
  then mret SYSERR
  else
    im ← kcall k_disable;
    id ← find_pool (Z.to_nat NPOOL) 0;
    if id =? NPOOL then kcall (k_restore im);; mret SYSERR
    else
      upd_bf id (set_bf_state BFPUSED);;
      fb ← kcall (semcreate 0);
      upd_bf id (set_bf_freebuf fb);;
      if fb =? u32 SYSERR then kcall (k_restore im);; mret SYSERR
      else
        kcall (k_restore im);;
        upd_bf id (set_bf_size bufsize nbuf);;
        bufptr ← kcall (k_memget (u32 (nbuf * bufsize)));
        upd_bf id (set_bf_next (u32 bufptr));;
        upd_bf id (set_bf_head (u32 bufptr));;
        link_bufs (Z.to_nat nbuf) (u32 bufptr) id bufsize;;
        e ← bf id;
        kcall (signaln (bf_freebuf e) nbuf);;
        mret id.

Definition bfpfree (id : Z) : prog sysst Z :=
  bad ← gets (fun s => isbadpool s id);
  if (bad : bool) then mret SYSERR
  else
    im ← kcall k_disable;
    upd_bf id (set_bf_state BFPFREE);;
    e ← bf id;
    r ← kcall (k_memfree (bf_head e) (u32 (bf_nbuf e * bf_bufsize e)));
    if r =? SYSERR then kcall (k_restore im);; mret SYSERR
    else
      e ← bf id;
      r ← kcall (semfree (bf_freebuf e));
      if r =? SYSERR then kcall (k_restore im);; mret SYSERR
      else kcall (k_restore im);; mret OK.

Definition bufget (poolid : Z) : prog sysst Z :=
  bad ← gets (fun s => isbadpool s poolid);
  if (bad : bool) then mret SYSERR
  else
    im ← kcall k_disable;
    e ← bf poolid;
    kcall (wait (bf_freebuf e));;
    e ← bf poolid;
    let bufptr := bf_next e in
    next ← load bufptr;
    upd_bf poolid (set_bf_next next);;
    kcall (k_restore im);;
    store bufptr bufptr;;
    mret (u32 (bufptr + 8)).

Definition buffree (buffer : Z) : prog sysst Z :=
  let bufptr := u32 (buffer - 8) in
  w ← load (u32 (bufptr + 4));
  let poolid := i32 w in
  bad ← gets (fun s => isbadpool s poolid);
  if (bad : bool) then mret SYSERR
  else
    next ← load bufptr;
    if negb (next =? bufptr) then mret SYSERR
    else
      im ← kcall k_disable;
      e ← bf poolid;
      store bufptr (bf_next e);;
      upd_bf poolid (set_bf_next bufptr);;
      kcall (k_restore im);;
      e ← bf poolid;
      kcall (signaln (bf_freebuf e) 1);;
      mret OK.
