(* ===== verification/MailboxSpec.v ===== *)
(** * What the mailbox routines do

    The semaphores appear here through the interface [Counting], which states
    what [wait] and [signal] promise; the kernel's semaphores are an instance. *)

From S2P Require Import Prelude Prog Queue QueueSpec QueueSys Interrupt Memory Kernel Thread Semaphore NoHalt Placement Invariant Sched ThreadSpec SemaphoreSpec Samples KernelProps Sys Mailbox.

Local Coercion Z.of_nat : nat >-> Z.
#[local] Hint Resolve never_Rl : core.

(** ** The interface of the semaphores *)

(** The program returned [a], or gave the processor away and will return [a],
    with the state [s] behind it. *)
Definition done_in {S A} (p : prog S A) (s : S) (a : A) (s' : S) : Prop :=
  run p s = Returned s' a \/
  exists B (p' : prog S B), run p s = Suspended s' (p' ≫= fun _ => mret a).

Definition usable (k : kernel) (s : Z) (e : sement) : Prop :=
  semtab k !! s = Some e /\ sstate e = SUSED /\ 0 <= s < NSEM.

(** Stands for a kernel before and after a semaphore operation. *)
Record semstep (k k' : kernel) (s n : Z) (e : sement) : Prop := {
  ss_inv : KInv k';
  ss_mem : mem k' = mem k;
  ss_sems : semtab k' = <[s := set_scount n e]> (semtab k);
}.

(** Thread [t] waits for semaphore [s]. *)
Definition waits_for (k : kernel) (t s : Z) : Prop :=
  exists e, thrtab k !! t = Some e /\ tstate e = THRWAIT /\ tsem e = s.

Class Counting (wait signal : Z -> prog kernel Z) : Prop := {
  (** A positive count: [wait] takes one and returns. *)
  wait_now : forall k s e, KInv k -> usable k s e -> 0 < scount e ->
    exists k', run (wait s) k = Returned k' OK /\ semstep k k' s (scount e - 1) e;
  (** Otherwise it takes one, and the caller gives the processor away and waits; once it has the processor again the
      call returns and changes nothing but the interrupt mask. *)
  wait_later : forall k s e, KInv k -> usable k s e -> scount e <= 0 -> thrcurrent k <> NULLTHREAD ->
    exists k' p, run (wait s) k = Suspended k' p /\ semstep k k' s (scount e - 1) e /\ waits_for k' (thrcurrent k) s
      /\ forall k2, Rl (thrcurrent k) k' k2 -> exists v, run p k2 = Returned (set_irq v k2) OK /\ KInv (set_irq v k2);
  (** [signal] adds one; it may give the processor away afterwards. *)
  signal_adds : forall k s e, KInv k -> usable k s e -> scount e < 2 ^ 31 - 1 ->
    exists k', ((exists a, run (signal s) k = Returned k' a) \/ (exists p, run (signal s) k = Suspended k' p))
      /\ semstep k k' s (scount e + 1) e;
  (** No thread is waiting: [signal] returns at once. *)
  signal_now : forall k s e, KInv k -> usable k s e -> 0 <= scount e < 2 ^ 31 - 1 ->
    exists k', run (signal s) k = Returned k' OK /\ semstep k k' s (scount e + 1) e;
}.

Lemma usable_good k s e : usable k s e -> isbadsem k s = false.
Proof.
  intros (E & Hu & Hs). unfold isbadsem. rewrite E, Hu. destruct (Z.leb_spec NSEM s); [lia|done].
Qed.

#[export] Instance kernel_counting : Counting wait signal.
Proof.
  split.
  - intros k s e [qs HI] Hu Hpos. pose proof (usable_good _ _ _ Hu) as Hb. destruct Hu as (E & Hu & _).
    destruct (first_stretch (fun _ _ => False)
      (fun a _ k' => a = OK /\ semstep k k' s (scount e - 1) e) (wait s) k (nohalt_wait s))
      as [(k' & a & Er & -> & H)|(k' & p & _ & [])]; [|by exists k'].
    eapply (kwp_wait (thrcurrent k) _ k qs s e); try done; [lia| | |].
    + intros _ k' [H1 H2 H3 (_ & _ & _ & H4)] Hs _. split; [done|]. split; [by exists qs|done|done].
    + intros. lia.
    + by intros k0' k' qs' [? []].
  - intros k s e [qs HI] Hu Hneg Hn. pose proof (usable_good _ _ _ Hu) as Hb. destruct Hu as (E & Hu & _).
    set (c := thrcurrent k).
    assert (H : kwp (fun k0 k' => k0 = k -> semstep k k' s (scount e - 1) e /\ waits_for k' c s) (Rl c)
      (fun r k0' k' => r = OK /\ KInv k' /\ exists v, k' = set_irq v k0') (wait s) k k).
    { eapply (kwp_wait c _ k qs s e); try done.
      - intros Hp. lia.
      - intros k1 qs1 k' qs' _ [(e0 & l & ec & E0 & El & Ec & Es1 & Et1 & _) _ _] HI' Hsw Hne (_ & _ & _ & Hm) _.
        rewrite E in E0. injection E0 as <-. split; [split; [by exists qs'|done|by rewrite (sw_sems _ _ _ _ _ Hsw)]|].
        destruct (sw_old _ _ _ _ _ Hsw) as (ec1 & e' & Ec1 & E' & Hst & _ & _ & Hsem).
        rewrite Et1 in Ec1. fold c in Ec1. rewrite lookup_insert_eq in Ec1. injection Ec1 as <-. simpl in *.
        exists e'. split_and!; [done|by apply Hst|done].
      - intros k0' k' qs' _ Hv [S1 _ _ _]. split_and!; [done|by exists qs'|done]. }
    destruct (first_stretch (fun _ _ => True) (fun _ _ _ => scount e > 0) (wait s) k (nohalt_wait s))
      as [(k' & a & _ & Hx)|(k' & p & Er & _)]; [|lia|].
    { eapply (kwp_wait c _ k qs s e); try done; [by intros Hp; lia|by intros k0' k' qs' [? []]]. }
    apply wp_run in H. rewrite Er in H. destruct H as [HG Hk]. destruct (HG eq_refl) as [HS HW].
    exists k', p. split_and!; [done..|]. intros k2 HR. specialize (Hk k2 HR). apply wp_run in Hk.
    pose proof (nohalt_run p k2 (nohalt_suspended _ _ _ _ (nohalt_wait s) Er)) as Hh.
    pose proof (atmost_suspended _ _ _ _ 0 (atmost_wait s) Er) as Hst.
    destruct (run p k2) as [k3 a|k3 p3|k3|] eqn:E3; [|by destruct (atmost_stays _ _ _ _ Hst E3)|by destruct (Hh k3)|done].
    destruct Hk as (-> & HI3 & v & ->). by exists v.
  - intros k s e [qs HI] Hu Hmax. pose proof (usable_good _ _ _ Hu) as Hb. destruct Hu as (E & Hu & _).
    set (P := fun k' => semstep k k' s (scount e + 1) e).
    assert (Hw : forall t k1 qs1 k' qs', woken k qs s t k1 qs1 -> KInvq k' qs' ->
      switched (thrcurrent k) k1 qs1 k' qs' -> others (thrcurrent k) k k' -> P k').
    { intros t k1 qs1 k' qs' [(e0 & l & lr & et & E0 & _ & _ & _ & Es1 & _) _ _ _] HI' Hsw (_ & _ & _ & Hm).
      rewrite E in E0. injection E0 as <-. split; [by exists qs'|done|].
      by rewrite (sw_sems _ _ _ _ _ Hsw). }
    destruct (first_stretch (fun _ => P) (fun _ _ => P) (signal s) k (nohalt_signal s))
      as [(k' & a & Er & H)|(k' & p & Er & H)]; [|exists k'; eauto..].
    eapply (kwp_signal (thrcurrent k) _ k qs s e); try done; [auto|..].
    + intros _ k' [H1 H2 H3 (_ & _ & _ & H4)] Hs _. split; [by exists qs|done|done].
    + intros t k1 qs1 k' qs' _ Hwk HI' Hsw _ Ho. eauto.
    + intros t k1 qs1 k' qs' _ Hwk [H1 H2 H3 H4] Hsw. eauto.
    + by intros k0' k' qs' [? []].
  - intros k s e [qs HI] Hu Hpos. pose proof (usable_good _ _ _ Hu) as Hb. destruct Hu as (E & Hu & _).
    destruct (first_stretch (fun _ _ => False)
      (fun a _ k' => a = OK /\ semstep k k' s (scount e + 1) e) (signal s) k (nohalt_signal s))
      as [(k' & a & Er & -> & H)|(k' & p & _ & [])]; [|by exists k'].
    eapply (kwp_signal (thrcurrent k) _ k qs s e); try done; [lia|..].
    + intros _ k' [H1 H2 H3 (_ & _ & _ & H4)] Hs _. split; [done|]. split; [by exists qs|done|done].
    + intros. lia.
    + intros. lia.
    + by intros k0' k' qs' [? []].
Qed.

(** ** The messages a mailbox holds *)

Definition slot (e : mbox) (i : Z) : Z := mb_msgs e + 4 * (i mod mb_max e).

Record mbox_at (s : sysst) (box : Z) (e : mbox) (q : list Z) : Prop := {
  ma_entry : mboxtab s !! box = Some e;
  ma_state : mb_state e = MAILBOX_ALLOC;
  ma_count : mb_count e = length q;
  ma_fits : length q <= mb_max e;
  ma_start : 0 <= mb_start e < mb_max e;
  ma_max : mb_max e < 2 ^ 30;
  ma_msgs : 0 <= mb_msgs e /\ mb_msgs e + 4 * mb_max e <= 2 ^ 32;
  ma_slots : forall (i : nat) x, q !! i = Some x ->
    is_i32 x /\ ld (mem (kern s)) (slot e (mb_start e + i)) = u32 x;
}.

Lemma i32_u32 x : is_i32 x -> i32 (u32 x) = x.
Proof.
  unfold is_i32, i32, u32. intros H. rewrite Zplus_mod_idemp_l. rewrite Z.mod_small; lia.
Qed.

Lemma u32_i32 x : u32 (i32 x) = u32 x.
Proof.
  unfold u32, i32. rewrite <- (Zminus_mod_idemp_l). rewrite Zmod_mod, Zminus_mod_idemp_l.
  f_equal. lia.
Qed.

(** Different positions of the ring are different slots. *)
Lemma slot_ne e x y : 0 < mb_max e -> x < y < x + mb_max e -> slot e x <> slot e y.
Proof. intros Hm H E. apply (mod_apart (mb_max e) x y Hm H). unfold slot in E. lia. Qed.

Lemma slot_range e i : 0 < mb_max e -> 0 <= mb_msgs e -> mb_msgs e + 4 * mb_max e <= 2 ^ 32 ->
  u32 (mb_msgs e + 4 * (i mod mb_max e)) = slot e i.
Proof.
  intros H1 H2 H3. apply u32_id. pose proof (Z.mod_pos_bound i (mb_max e) H1). unfold is_u32, slot. lia.
Qed.

(** Anything but the memory may change. *)
Lemma mbox_at_kern s s' box e q : mbox_at s box e q -> mboxtab s' !! box = Some e ->
  mem (kern s') = mem (kern s) -> mbox_at s' box e q.
Proof. intros [] E Em. split; try done. by rewrite Em. Qed.

Lemma mailboxPut_spec s box e q m : mbox_at s box e q -> length q < mb_max e ->
  exists s' e', run (mailboxPut box m) s = Returned s' tt /\ mbox_at s' box e' (q ++ [i32 m]) /\
    mb_sender e' = mb_sender e /\ mb_receiver e' = mb_receiver e /\ mb_max e' = mb_max e /\
    s' = set_mboxtab (<[box := e']> (mboxtab s))
           (set_kern (set_mem (st (mem (kern s)) (slot e (mb_start e + mb_count e)) (u32 m)) (kern s)) s).
Proof.
  intros [A1 A2 A3 A4 A5 A6 [A7 A8] A9] Hlt.
  unfold mailboxPut, umod. unfold mb. rewrite (run_readopt_bind _ _ _ e) by done.
  destruct (Z.eqb_spec (mb_max e) 0); [lia|].
  rewrite (u32_id (mb_start e + mb_count e)) by (unfold is_u32; lia).
  change (run (mret ?a ≫= ?g) ?s) with (run (g a) s). cbn beta.
  rewrite slot_range by lia. unfold store. rewrite run_modify_bind.
  unfold upd_mb, lift. cbn [run]. cbn [mboxtab set_kern]. rewrite A1. cbn [mbind option_bind run].
  eexists _, (set_mb_fill (u32 (mb_count e + 1)) (mb_start e) e). split; [reflexivity|]. split_and!; [|done..].
  split; cbn [mboxtab set_mboxtab mb_state mb_count mb_max mb_start mb_msgs set_mb_fill kern set_kern mem set_mem].
  - apply lookup_insert_eq.
  - done.
  - rewrite length_app, A3. simpl. rewrite u32_id by (unfold is_u32; lia). lia.
  - rewrite length_app. simpl. lia.
  - done.
  - done.
  - done.
  - intros i x Hx. change (slot (set_mb_fill _ _ e) ?y) with (slot e y). rewrite ld_st.
    apply lookup_app_Some in Hx as [Hx|[Hi Hx]].
    + pose proof (lookup_lt_Some _ _ _ Hx). rewrite decide_False; [by apply A9|].
      intros E. symmetry in E. revert E. apply slot_ne; lia.
    + apply list_lookup_singleton_Some in Hx as [Hi0 <-]. split; [apply i32_range|].
      rewrite decide_True; [by rewrite u32_i32|]. f_equal. lia.
Qed.

Lemma mailboxTake_spec s box e x q : mbox_at s box e (x :: q) ->
  exists s' e', run (mailboxTake box) s = Returned s' x /\ mbox_at s' box e' q /\
    mb_sender e' = mb_sender e /\ mb_receiver e' = mb_receiver e /\ mb_max e' = mb_max e /\
    s' = set_mboxtab (<[box := e']> (mboxtab s)) s.
Proof.
  intros [A1 A2 A3 A4 A5 A6 [A7 A8] A9]. simpl in A3, A4.
  unfold mailboxTake, umod. unfold mb. rewrite (run_readopt_bind _ _ _ e) by done.
  unfold load. rewrite run_gets_bind. destruct (Z.eqb_spec (mb_max e) 0); [lia|].
  rewrite (u32_id (mb_start e + 1)) by (unfold is_u32; lia).
  change (run (mret ?a ≫= ?g) ?s) with (run (g a) s). cbn beta.
  unfold upd_mb. rewrite run_bind. unfold lift. cbn [run]. rewrite A1.
  cbn [mbind option_bind run obind mret prog_ret].
  assert (Hw : i32 (ld (mem (kern s)) (u32 (mb_msgs e + 4 * mb_start e))) = x).
  { destruct (A9 0%nat x eq_refl) as [Hx Hl]. rewrite <- (Z.mod_small (mb_start e) (mb_max e)) by lia.
    rewrite slot_range by lia. replace (mb_start e + 0%nat) with (mb_start e) in Hl by lia.
    rewrite Hl. by apply i32_u32. }
  rewrite Hw. eexists _, (set_mb_fill (u32 (mb_count e - 1)) ((mb_start e + 1) mod mb_max e) e).
  split; [reflexivity|]. split_and!; [|done..].
  pose proof (Z.mod_pos_bound (mb_start e + 1) (mb_max e)) as Hb.
  split; cbn [mboxtab set_mboxtab mb_state mb_count mb_max mb_start mb_msgs set_mb_fill kern set_kern mem set_mem].
  - apply lookup_insert_eq.
  - done.
  - rewrite A3, u32_id by (unfold is_u32; lia). lia.
  - lia.
  - lia.
  - done.
  - done.
  - intros i y Hy. destruct (A9 (S i) y Hy) as [Hr Hl]. split; [done|]. rewrite <- Hl. f_equal.
    unfold slot. cbn [mb_msgs mb_max set_mb_fill]. rewrite Zplus_mod_idemp_l.
    replace (mb_start e + 1 + i) with (mb_start e + S i) by lia. done.
Qed.

(** ** Whole calls *)

Lemma done_in_run {S A} (p p1 : prog S A) s s1 a s' :
  run p s = run p1 s1 -> done_in p1 s1 a s' -> done_in p s a s'.
Proof. unfold done_in. by intros ->. Qed.


Lemma run_returned_bind {S A B} (p : prog S A) (g : A -> prog S B) s s' a :
  run p s = Returned s' a -> run (p ≫= g) s = run (g a) s'.
Proof. intros E. by rewrite run_bind, E. Qed.

Lemma KInv_irq k v : KInv k -> vic_ok v -> KInv (set_irq v k).
Proof. intros [qs H] Hv. exists qs. by apply KInvq_irq. Qed.

Lemma KInv_mem k M : KInv k -> KInv (set_mem M k).
Proof. intros [qs [H1 H2 H3 H4]]. exists qs. by split. Qed.

Lemma KInv_vic k : KInv k -> vic_ok (irq k).
Proof. intros [qs H]. apply (ki_ctl _ _ H). Qed.

Lemma usable_other k k' s n e t et :
  semstep k k' s n e -> usable k t et -> t <> s -> usable k' t et.
Proof. intros [_ _ Hs] (E & Hu & Hr) Hne. split_and!; [|done|lia..]. by rewrite Hs, lookup_insert_ne. Qed.

Section calls.
Context {wait' signal' : Z -> prog kernel Z} `{!Counting wait' signal'}.

(** The last step of both calls: [signal(sem); return a]. *)
Lemma signal_last s sem e (a : Z) : KInv (kern s) -> usable (kern s) sem e -> scount e < 2 ^ 31 - 1 ->
  exists k', done_in (kcall (signal' sem);; mret a) s a (set_kern k' s) /\
    semstep (kern s) k' sem (scount e + 1) e.
Proof.
  intros HI Hu Hm. destruct (signal_adds (kern s) sem e HI Hu Hm) as (k' & [[x E]|[p E]] & H);
    exists k'; (split; [|done]).
  - left. by rewrite (run_kcall_bind _ _ _ _ _ E).
  - right. exists Z, (kcall p). by rewrite run_bind, run_kcall, E.
Qed.

Lemma wait_first {B} s sem e (g : Z -> prog sysst B) : KInv (kern s) -> usable (kern s) sem e ->
  0 < scount e ->
  exists k', run (kcall (wait' sem) ≫= g) s = run (g OK) (set_kern k' s) /\
    semstep (kern s) k' sem (scount e - 1) e.
Proof.
  intros HI Hu Hp. destruct (wait_now (kern s) sem e HI Hu Hp) as (k' & E & H).
  exists k'. split; [|done]. by apply run_kcall_bind.
Qed.

End calls.

(** A section between [disable] and [restore]. *)
Lemma critical {A B} (p : prog sysst A) (g : A -> prog sysst B) s a s1 :
  run p (set_kern (set_irq (vic_disable_interrupts (irq (kern s))) (kern s)) s) = Returned s1 a ->
  run (im ← kcall k_disable; x ← p; kcall (k_restore im);; g x) s =
  run (g a) (set_kern (set_irq (vic_set_irqmask (mask (kern s)) (irq (kern s1))) (kern s1)) s1).
Proof.
  intros E. erewrite run_kcall_bind by reflexivity. rewrite (run_returned_bind _ _ _ _ _ E).
  by erewrite run_kcall_bind by reflexivity.
Qed.

(** What the semaphores of a mailbox have done: one token from [s1] to [s2]. *)
Definition token_moved (k k' : kernel) (s1 s2 : Z) (e1 e2 : sement) : Prop :=
  semtab k' = <[s2 := set_scount (scount e2 + 1) e2]> (<[s1 := set_scount (scount e1 - 1) e1]> (semtab k)).

(** The end of both calls: a section on the mailbox [p] that leaves the semaphores alone, then [signal]. *)
Lemma section_signals (p : prog sysst Z) (sem_of : mbox -> Z) s box e e' er r s3 :
  KInv (kern s) -> let s2 := set_kern (set_irq (vic_disable_interrupts (irq (kern s))) (kern s)) s in
  run p s2 = Returned s3 r -> mboxtab s3 !! box = Some e' -> sem_of e' = sem_of e ->
  (exists M, kern s3 = set_mem M (kern s2)) ->
  usable (kern s) (sem_of e) er -> scount er < 2 ^ 31 - 1 ->
  exists k', done_in (im ← kcall k_disable; x ← p; kcall (k_restore im);; e ← mb box; kcall (signal (sem_of e));; mret x) s r
      (set_kern k' s3) /\ KInv k' /\ mem k' = mem (kern s3) /\
    semtab k' = <[sem_of e := set_scount (scount er + 1) er]> (semtab (kern s)).
Proof.
  intros HI s2 E3 Ee' Es [M Hk3] Hu Hmax.
  set (s4 := set_kern (set_irq (vic_set_irqmask (mask (kern s)) (irq (kern s3))) (kern s3)) s3).
  assert (HI4 : KInv (kern s4)).
  { subst s4. cbn. rewrite Hk3. apply KInv_irq.
    - by apply KInv_mem, KInv_irq; [|apply vic_ok_disable, KInv_vic].
    - by apply vic_ok_set, vic_ok_disable, KInv_vic. }
  assert (Hsem4 : semtab (kern s4) = semtab (kern s)) by (subst s4; cbn; by rewrite Hk3).
  assert (Hu4 : usable (kern s4) (sem_of e) er) by (destruct Hu as (A1 & A2 & A3); split; [by rewrite Hsem4|done]).
  destruct (signal_last s4 (sem_of e) er r HI4 Hu4 Hmax) as (k5 & Hd & S5).
  exists k5. split_and!; [|exact (ss_inv _ _ _ _ _ S5)|exact (ss_mem _ _ _ _ _ S5)|by rewrite (ss_sems _ _ _ _ _ S5), Hsem4].
  eapply done_in_run; [|exact Hd].
  rewrite (critical p (fun x => e ← mb box; kcall (signal (sem_of e));; mret x) s r s3 E3). fold s4.
  rewrite (run_mb_bind box e') by exact Ee'. by rewrite Es.
Qed.

(** What is behind [wait] in the two calls *)
Definition send_rest (box m : Z) : prog sysst Z :=
  im ← kcall k_disable; mailboxPut box m;; kcall (k_restore im);; e ← mb box; kcall (signal (mb_receiver e));; mret OK.
Definition receive_rest (box : Z) : prog sysst Z :=
  im ← kcall k_disable; x ← mailboxTake box; kcall (k_restore im);; e ← mb box; kcall (signal (mb_sender e));; mret x.

Lemma send_rest_spec s box m e q er :
  KInv (kern s) -> mbox_at s box e q -> length q < mb_max e ->
  usable (kern s) (mb_receiver e) er -> scount er < 2 ^ 31 - 1 ->
  exists s' e', done_in (send_rest box m) s OK s' /\ KInv (kern s') /\ mbox_at s' box e' (q ++ [i32 m]) /\
    semtab (kern s') = <[mb_receiver e := set_scount (scount er + 1) er]> (semtab (kern s)) /\
    (forall b, b <> box -> mboxtab s' !! b = mboxtab s !! b).
Proof.
  intros HI Hat Hlt Hr Hmax. set (s2 := set_kern (set_irq (vic_disable_interrupts (irq (kern s))) (kern s)) s).
  assert (Hat2 : mbox_at s2 box e q) by (eapply mbox_at_kern; [exact Hat|apply Hat|done]).
  destruct (mailboxPut_spec s2 box e q m Hat2 Hlt) as (s3 & e' & E3 & Hat3 & Es & Er & _ & Hs3).
  destruct (section_signals (mailboxPut box m;; mret OK) mb_receiver s box e e' er OK s3) as (k' & Hd & HI' & Hm & Hsem);
    [done|cbv zeta; fold s2; by rewrite run_bind, E3|apply Hat3|done|by subst s3; eexists|done|done|].
  exists (set_kern k' s3), e'. split_and!; [|done| |done|].
  - eapply done_in_run; [|exact Hd]. unfold send_rest.
    erewrite (run_kcall_bind k_disable) by reflexivity. erewrite (run_kcall_bind k_disable) by reflexivity. fold s2.
    rewrite (run_returned_bind _ _ _ _ _ E3). rewrite (run_returned_bind (mailboxPut box m;; mret OK) _ s2 s3 OK); [done|].
    by rewrite run_bind, E3.
  - eapply mbox_at_kern; [exact Hat3|apply Hat3|done].
  - intros b Hb. subst s3. cbn. by rewrite lookup_insert_ne.
Qed.

Lemma receive_rest_spec s box e x q es :
  KInv (kern s) -> mbox_at s box e (x :: q) -> usable (kern s) (mb_sender e) es -> scount es < 2 ^ 31 - 1 ->
  exists s' e', done_in (receive_rest box) s x s' /\ KInv (kern s') /\ mbox_at s' box e' q /\
    semtab (kern s') = <[mb_sender e := set_scount (scount es + 1) es]> (semtab (kern s)) /\
    (forall b, b <> box -> mboxtab s' !! b = mboxtab s !! b).
Proof.
  intros HI Hat Hs Hmax. set (s2 := set_kern (set_irq (vic_disable_interrupts (irq (kern s))) (kern s)) s).
  assert (Hat2 : mbox_at s2 box e (x :: q)) by (eapply mbox_at_kern; [exact Hat|apply Hat|done]).
  destruct (mailboxTake_spec s2 box e x q Hat2) as (s3 & e' & E3 & Hat3 & Es & Er & _ & Hs3).
  destruct (section_signals (mailboxTake box) mb_sender s box e e' es x s3) as (k' & Hd & HI' & Hm & Hsem);
    [done|done|apply Hat3|done|subst s3; exists (mem (kern s)); subst s2; by destruct s as [[]]|done|done|].
  exists (set_kern k' s3), e'. split_and!; [exact Hd|done| |done|].
  - eapply mbox_at_kern; [exact Hat3|apply Hat3|done].
  - intros b Hb. subst s3. cbn. by rewrite lookup_insert_ne.
Qed.

(** The guards of both calls *)
Lemma mailboxSend_run s box m e q : box < NMAILBOX -> mbox_at s box e q ->
  run (mailboxSend box m) s = run (kcall (wait (mb_sender e)) ≫= fun _ => send_rest box m) s.
Proof.
  intros Hbox Hat. unfold mailboxSend. destruct (Z.leb_spec NMAILBOX box); [lia|]. rewrite (run_mb_bind box e) by apply Hat.
  by rewrite decide_False by (intros Hx; by apply Hx, (ma_state _ _ _ _ Hat)).
Qed.
Lemma mailboxReceive_run s box e q : box < NMAILBOX -> mbox_at s box e q ->
  run (mailboxReceive box) s = run (kcall (wait (mb_receiver e)) ≫= fun _ => receive_rest box) s.
Proof.
  intros Hbox Hat. unfold mailboxReceive. destruct (Z.leb_spec NMAILBOX box); [lia|]. rewrite (run_mb_bind box e) by apply Hat.
  by rewrite decide_False by (intros Hx; by apply Hx, (ma_state _ _ _ _ Hat)).
Qed.

(** [wait] gives the processor away; the rest of the call runs in the state the thread finds. *)
Lemma wait_gives_away {B} s sem e (g : Z -> prog sysst B) : KInv (kern s) -> usable (kern s) sem e -> scount e <= 0 ->
  thrcurrent (kern s) <> NULLTHREAD ->
  exists k' p, run (kcall (wait sem) ≫= g) s = Suspended (set_kern k' s) p /\ semstep (kern s) k' sem (scount e - 1) e /\
    waits_for k' (thrcurrent (kern s)) sem /\
    forall s2, Rl (thrcurrent (kern s)) k' (kern s2) ->
      exists v, run p s2 = run (g OK) (set_kern (set_irq v (kern s2)) s2) /\ KInv (set_irq v (kern s2)).
Proof.
  intros HI Hu Hle Hn. destruct (wait_later (kern s) sem e HI Hu Hle Hn) as (k' & p & E & HS & HW & Hp).
  exists k', (kcall p ≫= g). split_and!; [by rewrite run_bind, run_kcall, E|done..|].
  intros s2 HR. destruct (Hp _ HR) as (v & E2 & HI2). exists v. split; [|done]. by apply run_kcall_bind.
Qed.

Lemma mailboxSend_spec s box m e q es er :
  KInv (kern s) -> 0 <= box < NMAILBOX -> mbox_at s box e q -> length q < mb_max e ->
  usable (kern s) (mb_sender e) es -> 0 < scount es ->
  usable (kern s) (mb_receiver e) er -> scount er < 2 ^ 31 - 1 -> mb_sender e <> mb_receiver e ->
  exists s' e', done_in (mailboxSend box m) s OK s' /\ KInv (kern s') /\
    mbox_at s' box e' (q ++ [i32 m]) /\
    token_moved (kern s) (kern s') (mb_sender e) (mb_receiver e) es er /\
    (forall b, b <> box -> mboxtab s' !! b = mboxtab s !! b).
Proof.
  intros HI Hbox Hat Hlt Hs Hpos Hr Hmax Hne.
  destruct (wait_first s (mb_sender e) es (fun _ => send_rest box m) HI Hs Hpos) as (k1 & E1 & S1).
  destruct (send_rest_spec (set_kern k1 s) box m e q er) as (s' & e' & Hd & HI' & Hat' & Hsem & Hb);
    [exact (ss_inv _ _ _ _ _ S1)|eapply mbox_at_kern; [exact Hat|apply Hat|exact (ss_mem _ _ _ _ _ S1)]|done|
     by eapply usable_other|done|].
  exists s', e'. split_and!; [|done|done| |done].
  - eapply done_in_run; [|exact Hd]. by rewrite (mailboxSend_run s box m e q), E1 by (lia || done).
  - unfold token_moved. rewrite Hsem. by rewrite <- (ss_sems _ _ _ _ _ S1).
Qed.

Lemma mailboxReceive_spec s box e x q es er :
  KInv (kern s) -> 0 <= box < NMAILBOX -> mbox_at s box e (x :: q) ->
  usable (kern s) (mb_receiver e) er -> 0 < scount er ->
  usable (kern s) (mb_sender e) es -> scount es < 2 ^ 31 - 1 -> mb_sender e <> mb_receiver e ->
  exists s' e', done_in (mailboxReceive box) s x s' /\ KInv (kern s') /\ mbox_at s' box e' q /\
    token_moved (kern s) (kern s') (mb_receiver e) (mb_sender e) er es /\
    (forall b, b <> box -> mboxtab s' !! b = mboxtab s !! b).
Proof.
  intros HI Hbox Hat Hr Hpos Hs Hmax Hne.
  destruct (wait_first s (mb_receiver e) er (fun _ => receive_rest box) HI Hr Hpos) as (k1 & E1 & S1).
  destruct (receive_rest_spec (set_kern k1 s) box e x q es) as (s' & e' & Hd & HI' & Hat' & Hsem & Hb);
    [exact (ss_inv _ _ _ _ _ S1)|eapply mbox_at_kern; [exact Hat|apply Hat|exact (ss_mem _ _ _ _ _ S1)]|
     by eapply usable_other|done|].
  exists s', e'. split_and!; [|done|done| |done].
  - eapply done_in_run; [|exact Hd]. by rewrite (mailboxReceive_run s box e (x :: q)), E1 by (lia || done).
  - unfold token_moved. rewrite Hsem. by rewrite <- (ss_sems _ _ _ _ _ S1).
Qed.

(** ** Concrete kernels with semaphores for mailboxes and buffer pools *)

(** Thread 1 has a semaphore with count 0 and one with count 2. *)
Definition tokens : kernel := after (run (semcreate 2) semd).

Lemma tokens_inv : KInv tokens.
Proof.
  unfold tokens. apply safe_returned; [apply semcreate_safe; [exact semd_inv|unfold is_i32; lia]|].
  vm_compute. reflexivity.
Qed.

Lemma tokens_sender : usable tokens 2 (mksement SUSED 2 104).
Proof. split; [vm_compute; reflexivity|done]. Qed.

Lemma tokens_receiver : usable tokens 1 (mksement SUSED 0 102).
Proof. split; [vm_compute; reflexivity|done]. Qed.

Definition waited : kernel := after (run (wait 2) tokens).
Definition signalled : kernel := after (run (signal 1) waited).

Lemma waited_inv : KInv waited.
Proof.
  unfold waited. apply safe_returned; [apply wait_safe; [exact tokens_inv|lia|]|vm_compute; reflexivity].
  vm_compute. discriminate.
Qed.

Lemma waited_receiver : semtab waited !! 1 = Some (mksement SUSED 0 102).
Proof. vm_compute. reflexivity. Qed.

Lemma signalled_inv : KInv signalled.
Proof.
  unfold signalled. apply safe_returned; [|vm_compute; reflexivity].
  apply signal_safe; [exact waited_inv|lia|].
  intros e. rewrite waited_receiver. intros [= <-]. reflexivity.
Qed.

Lemma signalled_sems : usable signalled 2 (mksement SUSED 1 104) /\ usable signalled 1 (mksement SUSED 1 102).
Proof. split; (split; [vm_compute; reflexivity|done]). Qed.

