(* ===== verification/MailboxProps.v ===== *)
(** * Properties of mailboxes *)

From S2P Require Import Prelude Prog Queue QueueSpec QueueSys Interrupt Memory Kernel Thread Semaphore Lifecycle NoHalt Placement Invariant Sched ThreadSpec SemaphoreSpec BootSpec LifecycleSpec Samples KernelProps Sys Mailbox MailboxSpec.

Local Coercion Z.of_nat : nat >-> Z.

(** ** Boot *)

Lemma mbox_free_all_run n : forall s, (forall i, 0 <= i < Z.of_nat n -> is_Some (mboxtab s !! i)) ->
  exists tab, run (mbox_free_all n) s = Returned (set_mboxtab tab s) tt /\
    (forall i, 0 <= i < Z.of_nat n -> mb_state <$> tab !! i = Some MAILBOX_FREE) /\
    (forall i, ~ 0 <= i < Z.of_nat n -> tab !! i = mboxtab s !! i).
Proof.
  induction n as [|n IH]; intros s Hs.
  - exists (mboxtab s). split; [by destruct s|]. split; [lia|done].
  - destruct (IH s) as (tab & E & H1 & H2); [intros i Hi; apply Hs; lia|].
    destruct (Hs (Z.of_nat n)) as [e Ee]; [lia|].
    exists (<[Z.of_nat n := set_mb_state MAILBOX_FREE e]> tab). split_and!.
    + cbn [mbox_free_all]. rewrite run_bind, E. cbn [obind]. unfold upd_mb, lift. cbn [run mboxtab set_mboxtab].
      rewrite H2, Ee by lia. done.
    + intros i Hi. rewrite lookup_insert. case_decide; [done|]. apply H1. lia.
    + intros i Hi. rewrite lookup_insert_ne by lia. apply H2. lia.
Qed.

Lemma pool_free_all_run n : forall s, (forall i, 0 <= i < Z.of_nat n -> is_Some (bfptab s !! i)) ->
  exists tab, run (pool_free_all n) s = Returned (set_bfptab tab s) tt /\
    (forall i, 0 <= i < Z.of_nat n -> bf_state <$> tab !! i = Some BFPFREE) /\
    (forall i, ~ 0 <= i < Z.of_nat n -> tab !! i = bfptab s !! i).
Proof.
  induction n as [|n IH]; intros s Hs.
  - exists (bfptab s). split; [by destruct s|]. split; [lia|done].
  - destruct (IH s) as (tab & E & H1 & H2); [intros i Hi; apply Hs; lia|].
    destruct (Hs (Z.of_nat n)) as [e Ee]; [lia|]. eexists (<[Z.of_nat n := _]> tab). split_and!.
    + cbn [pool_free_all]. rewrite run_bind, E. cbn [obind]. unfold upd_bf, lift. cbn [run bfptab set_bfptab].
      rewrite H2, Ee by lia. reflexivity.
    + intros i Hi. rewrite lookup_insert. case_decide; [done|]. apply H1. lia.
    + intros i Hi. rewrite lookup_insert_ne by lia. apply H2. lia.
Qed.

Lemma keeps_semcreate t n : keeps tim t (semcreate n).
Proof.
  assert (U : forall i g, keeps tim t (upd_sem i g)).
  { intros i g. apply keeps_lift. intros k k' []. by destruct (semtab k !! i); intros [= <-]. }
  assert (L : forall m, keeps tim t (semalloc_loop m)).
  { induction m as [|m IH]; [done|]. cbn [semalloc_loop]. apply keeps_bind; [done|intros i].
    apply keeps_bind; [by apply keeps_modify|intros _]. apply keeps_bind; [apply keeps_readopt|intros e].
    destruct (decide _); [|done]. by apply keeps_bind. }
  unfold semcreate. apply keeps_bind; [apply keeps_disable, _|intros im]. apply keeps_bind; [apply L|intros s].
  destruct (negb _ && _); repeat (apply keeps_bind; [first [done|apply U|apply keeps_restore, _]|intros ?]); done.
Qed.

(** The semaphore of the mailbox table is the only one in use. *)
Definition one_semaphore (k : kernel) (m : Z) : Prop :=
  forall s e, semtab k !! s = Some e -> if decide (s = m) then sstate e = SUSED /\ scount e = 1 else sstate e = SFREE /\ scount e = 0.

Lemma mailboxInit_boots s : KInv (kern s) -> fresh (kern s) -> (forall i, 0 <= i < NMAILBOX -> is_Some (mboxtab s !! i)) ->
  exists s', run mailboxInit s = Returned s' OK /\ KInv (kern s') /\ thrtab (kern s') = thrtab (kern s) /\
    thrcurrent (kern s') = thrcurrent (kern s) /\ mem (kern s') = mem (kern s) /\ tim (kern s') = tim (kern s) /\
    0 <= mboxtabsem s' < NSEM /\ one_semaphore (kern s') (mboxtabsem s') /\
    (forall i, 0 <= i < NMAILBOX -> mb_state <$> mboxtab s' !! i = Some MAILBOX_FREE) /\ bfptab s' = bfptab s.
Proof.
  intros [qs HI] Hf Hb. set (k := kern s) in *.
  destruct (first_stretch never (fun m _ k' => KInv k' /\ thrcurrent k' = thrcurrent k /\ thrtab k' = thrtab k /\ mem k' = mem k
      /\ 0 <= m < NSEM /\ one_semaphore k' m) (semcreate 1) k (nohalt_semcreate 1))
    as [(k' & m & E & HI' & Hc & Ht & Hm & Hr & Hone)|(k' & p & _ & [])].
  { eapply (kwp_semcreate _ _ k qs); [done|done|unfold is_i32; lia|..].
    - intros k' _ Hall. destruct (proj2 (pl_semdom _ _ _ _ _ _ _ (ki_placed _ _ HI) 0)) as [e E]; [done|]. destruct (fr_sem _ Hf _ _ E). by rewrite (Hall ltac:(lia) _ _ E) in *.
    - intros k' m e [S1 S2 _ (_ & _ & _ & Hm)] _ Hr E _ Hs Ht. split_and!; [by exists qs|done|done|done|lia|lia|].
      intros x ex. rewrite Hs, lookup_insert. case_decide as Hx.
      + intros [= <-]. by rewrite decide_True by done.
      + intros Ex. rewrite decide_False by done. by apply (fr_sem _ Hf _ _ Ex). }
  set (s1 := set_mboxtabsem m (set_kern k' s)).
  destruct (mbox_free_all_run (Z.to_nat NMAILBOX) s1) as (tab & E2 & H1 & H2); [done|].
  exists (set_mboxtab tab s1). split_and!; try done.
  - unfold mailboxInit. rewrite (run_kcall_bind _ _ _ _ _ E), run_modify_bind, run_bind. fold s1. by rewrite E2.
  - pose proof (keeps_run _ _ _ k (keeps_semcreate (tim k) 1) eq_refl) as Hk. by rewrite E in Hk.
  - apply Hr.
  - apply Hr.
Qed.

Lemma kernel_init_parts end_addr clkfreq handler k k' :
  run (kernel_init end_addr clkfreq handler) k = Returned k' OK ->
  exists k1, run (init_tables end_addr) k = Returned k1 tt /\ run (init_clock clkfreq handler) k1 = Returned k' tt.
Proof.
  unfold kernel_init. rewrite run_bind. destruct (run (init_tables end_addr) k) as [k1 []| | |]; try done.
  cbn [obind]. rewrite run_bind. destruct (run (init_clock clkfreq handler) k1) as [k2 []| | |] eqn:E; try done.
  cbn [obind]. cbn. intros [= <-]. by exists k1.
Qed.

(** C14: sysinit_boots.  From the state the loader leaves, with the tables in memory and a heap of more than sixteen bytes, [sysinit]
    reaches the loop over the device table, without an access outside the tables of the kernel, in a state with the invariant of the
    kernel: the null thread runs, every other thread is free, one semaphore is in use, the one of the mailbox table, with count 1; the
    timer is started, the whole heap is one free block, and every mailbox and every buffer pool is free.  What is left of [sysinit] is
    to call the initialisation of each device, which are parameters, and to return OK. *)
Theorem sysinit_boots end_addr clkfreq handler devs s :
  unbooted (kern s) -> 0 < memheap (mem (kern s)) -> memheap (mem (kern s)) + 7 < 2 ^ 32 ->
  0 <= maxaddr (mem (kern s)) < 2 ^ 32 -> memheap (mem (kern s)) + 16 < maxaddr (mem (kern s)) ->
  (forall i, 0 <= i < NMAILBOX -> is_Some (mboxtab s !! i)) -> (forall i, 0 <= i < NPOOL -> is_Some (bfptab s !! i)) ->
  exists s', run (sysinit end_addr clkfreq handler devs) s = run (init_devices devs;; mret OK) s' /\
    let k := kern s' in let M := mem k in
    KInv k /\ thrcurrent k = NULLTHREAD /\ (forall t e, thrtab k !! t = Some e -> t <> NULLTHREAD -> tstate e = THRFREE) /\
    0 <= mboxtabsem s' < NSEM /\ one_semaphore k (mboxtabsem s') /\ tm_started (tim k) = true /\
    memheap M = roundmb (memheap (mem (kern s))) /\ maxaddr M = truncmb (maxaddr (mem (kern s))) /\
    stacks_ok k [(memheap M, maxaddr M - memheap M)] [] [] /\
    (forall i, 0 <= i < NMAILBOX -> mb_state <$> mboxtab s' !! i = Some MAILBOX_FREE) /\
    (forall i, 0 <= i < NPOOL -> bf_state <$> bfptab s' !! i = Some BFPFREE).
Proof.
  intros Hu H1 H2 H3 H4 Hm Hp.
  destruct (kernel_init_boots end_addr clkfreq handler (kern s) Hu H1 H2 H3 H4) as (k2 & E & HI & Hf & Ht & M1 & M2 & Hst).
  destruct (kernel_init_parts _ _ _ _ _ E) as (k1 & E1 & E2).
  destruct (pool_free_all_run (Z.to_nat NPOOL) (set_kern k1 s)) as (tab & Ep & P1 & _); [exact Hp|].
  set (s1 := set_bfptab tab (set_kern k1 s)).
  destruct (mailboxInit_boots (set_kern k2 s1)) as (s' & Em & HI' & T1 & T2 & T3 & T4 & T5 & T6 & T7 & T8); [done..|].
  exists s'. split.
  - unfold sysinit. rewrite (run_kcall_bind _ _ _ _ _ E1), run_bind, Ep. cbn [obind]. fold s1.
    rewrite (run_kcall_bind _ _ s1 k2 tt E2), run_bind, Em. done.
  - cbn [kern set_kern] in *. cbv zeta. rewrite T3. split_and!; try done.
    + rewrite T2. apply Hf.
    + rewrite T1. apply Hf.
    + apply T5.
    + apply T5.
    + by rewrite T4.
    + eapply stacks_ok_same; [exact Hst|done|]. intros t. rewrite T1. by destruct (thrtab k2 !! t).
    + intros i Hi. rewrite T8. by apply P1.
Qed.

(** The state before [sysinit]: the tables hold zeroes. *)
Definition unbooted_sys : sysst :=
  mksysst blank (list_to_map ((fun i => (Z.of_nat i, mkmbox 0 0 0 0 0 MAILBOX_FREE 0)) <$> seq 0 (Z.to_nat NMAILBOX))) 0 0
    (list_to_map ((fun i => (Z.of_nat i, mkbfpentry BFPFREE 0 0 0 0 0)) <$> seq 0 (Z.to_nat NPOOL))).

Lemma table_entry {A} (e : A) n i : 0 <= i < Z.of_nat n ->
  is_Some ((list_to_map ((fun i => (Z.of_nat i, e)) <$> seq 0 n) : gmap Z A) !! i).
Proof.
  intros Hi. apply not_eq_None_Some. intros Hn. apply not_elem_of_list_to_map in Hn. apply Hn.
  rewrite <- list_fmap_compose, list_elem_of_fmap. exists (Z.to_nat i). split; [simpl; lia|]. apply elem_of_seq. lia.
Qed.

Lemma sysinit_boots_witness : exists s', run (sysinit 0x18000 64000 0x9000 []) unbooted_sys = Returned s' OK /\
  thrcurrent (kern s') = NULLTHREAD /\ one_semaphore (kern s') (mboxtabsem s').
Proof.
  destruct (sysinit_boots 0x18000 64000 0x9000 [] unbooted_sys blank_unbooted) as (s' & E & _ & H1 & _ & _ & H2 & _);
    [simpl; lia..|intros i Hi; by apply table_entry|intros i Hi; by apply table_entry|].
  exists s'. by split_and!.
Defined.

(** ** Sending and receiving *)

(** C23: mailboxSend_delivers.  [mailboxSend] of [m] to an allocated mailbox takes one from the count of the senders'
    semaphore.  When that count was positive and the mailbox has room, the call puts the message behind those that the mailbox holds, adds one to the count of the
    receivers' semaphore and returns OK, at once or after a receiver with a higher priority has run.  When the count was not positive the
    caller gives the processor away and waits, with the mailbox table as it was; whenever it gets the processor back, with room for a
    message, the rest of the call does the same.  Other mailboxes are not touched. *)
Theorem mailboxSend_delivers s box m e q es : let c := thrcurrent (kern s) in
  KInv (kern s) -> 0 <= box < NMAILBOX -> mbox_at s box e q -> usable (kern s) (mb_sender e) es ->
  mb_sender e <> mb_receiver e ->
  let delivers p s2 e2 q2 sems := forall er, length q2 < mb_max e2 -> usable (kern s2) (mb_receiver e2) er ->
    scount er < 2 ^ 31 - 1 ->
    exists s' e', done_in p s2 OK s' /\ KInv (kern s') /\ mbox_at s' box e' (q2 ++ [i32 m]) /\
      semtab (kern s') = <[mb_receiver e2 := set_scount (scount er + 1) er]> sems /\
      (forall b, b <> box -> mboxtab s' !! b = mboxtab s2 !! b) in
  let taken := <[mb_sender e := set_scount (scount es - 1) es]> (semtab (kern s)) in
  if 0 <? scount es then delivers (mailboxSend box m) s e q taken
  else c <> NULLTHREAD -> exists s1 p, run (mailboxSend box m) s = Suspended s1 p /\ KInv (kern s1) /\
    mboxtab s1 = mboxtab s /\ mem (kern s1) = mem (kern s) /\ semtab (kern s1) = taken /\ waits_for (kern s1) c (mb_sender e) /\
    forall s2 e2 q2, Rl c (kern s1) (kern s2) -> mbox_at s2 box e2 q2 -> delivers p s2 e2 q2 (semtab (kern s2)).
Proof.
  intros c HI Hbox Hat Hs Hne delivers taken. destruct (Z.ltb_spec 0 (scount es)) as [Hpos|Hle].
  - intros er Hlt Hr Hmax.
    destruct (mailboxSend_spec s box m e q es er) as (s' & e' & Hd & HI' & Hat' & Hsem & Hb); [done..|].
    exists s', e'. by split_and!.
  - intros Hn.
    destruct (wait_gives_away s (mb_sender e) es (fun _ => send_rest box m) HI Hs Hle Hn) as (k1 & p & E & HS & HW & Hp).
    exists (set_kern k1 s), p. split_and!; [by rewrite (mailboxSend_run s box m e q), E by (lia || done)|apply HS|done|apply HS|apply HS|done|].
    intros s2 e2 q2 HR Hat2 er Hlt Hr Hmax. destruct (Hp s2 HR) as (v & E2 & HI2).
    destruct (send_rest_spec (set_kern (set_irq v (kern s2)) s2) box m e2 q2 er) as (s' & e' & Hd & HI' & Hat' & Hsem & Hb); [done| |done..|].
    { eapply mbox_at_kern; [exact Hat2|apply Hat2|done]. }
    exists s', e'. split_and!; [by eapply done_in_run|done..].
Qed.

(** C24: mailboxReceive_takes.  [mailboxReceive] from an allocated mailbox takes one from the count of the receivers' semaphore.  When
    that count was positive the call returns the oldest message, leaves the others in their order and adds one to the count of the senders'
    semaphore.  When it was not positive the caller gives the processor away and waits, with the mailbox table as it was; whenever it
    gets the processor back, with a message in the mailbox, the rest of the call does the same.  Other mailboxes are not touched. *)
Theorem mailboxReceive_takes s box e q er : let c := thrcurrent (kern s) in
  KInv (kern s) -> 0 <= box < NMAILBOX -> mbox_at s box e q -> usable (kern s) (mb_receiver e) er ->
  mb_sender e <> mb_receiver e ->
  let takes p s2 e2 q2 sems := forall x q' es, q2 = x :: q' -> usable (kern s2) (mb_sender e2) es -> scount es < 2 ^ 31 - 1 ->
    exists s' e', done_in p s2 x s' /\ KInv (kern s') /\ mbox_at s' box e' q' /\
      semtab (kern s') = <[mb_sender e2 := set_scount (scount es + 1) es]> sems /\
      (forall b, b <> box -> mboxtab s' !! b = mboxtab s2 !! b) in
  let taken := <[mb_receiver e := set_scount (scount er - 1) er]> (semtab (kern s)) in
  if 0 <? scount er then takes (mailboxReceive box) s e q taken
  else c <> NULLTHREAD -> exists s1 p, run (mailboxReceive box) s = Suspended s1 p /\ KInv (kern s1) /\
    mboxtab s1 = mboxtab s /\ mem (kern s1) = mem (kern s) /\ semtab (kern s1) = taken /\ waits_for (kern s1) c (mb_receiver e) /\
    forall s2 e2 q2, Rl c (kern s1) (kern s2) -> mbox_at s2 box e2 q2 -> takes p s2 e2 q2 (semtab (kern s2)).
Proof.
  intros c HI Hbox Hat Hr Hne takes taken. destruct (Z.ltb_spec 0 (scount er)) as [Hpos|Hle].
  - intros x q' es -> Hs Hmax.
    destruct (mailboxReceive_spec s box e x q' es er) as (s' & e' & Hd & HI' & Hat' & Hsem & Hb); [done..|].
    exists s', e'. by split_and!.
  - intros Hn.
    destruct (wait_gives_away s (mb_receiver e) er (fun _ => receive_rest box) HI Hr Hle Hn) as (k1 & p & E & HS & HW & Hp).
    exists (set_kern k1 s), p. split_and!; [by rewrite (mailboxReceive_run s box e q), E by (lia || done)|apply HS|done|apply HS|apply HS|done|].
    intros s2 e2 q2 HR Hat2 x q' es -> Hs Hmax. destruct (Hp s2 HR) as (v & E2 & HI2).
    destruct (receive_rest_spec (set_kern (set_irq v (kern s2)) s2) box e2 x q' es) as (s' & e' & Hd & HI' & Hat' & Hsem & Hb); [done| |done..|].
    { eapply mbox_at_kern; [exact Hat2|apply Hat2|done]. }
    exists s', e'. split_and!; [by eapply done_in_run|done..].
Qed.

(** ** Concrete mailboxes *)

(** A mailbox with two slots. *)
Definition box_entry (count : Z) : mbox := mkmbox 2 1 2 count 1 MAILBOX_ALLOC 0x30000.

Definition empty_box : sysst := mksysst tokens {[5 := box_entry 0]} 3 5 ∅.

Lemma empty_box_at : mbox_at empty_box 5 (box_entry 0) [].
Proof. split; try done. Qed.

(** A mailbox with one message, at position 1 of the ring. *)
Definition full_box : sysst :=
  mksysst (set_mem (st (mem signalled) 0x30004 42) signalled) {[5 := box_entry 1]} 3 5 ∅.

Lemma full_box_at : mbox_at full_box 5 (box_entry 1) [42].
Proof.
  split; try done. intros i x Hx. apply list_lookup_singleton_Some in Hx as [-> <-].
  split; [done|]. vm_compute. reflexivity.
Qed.

Local Opaque tokens waited signalled.

Lemma mailboxSend_delivers_witness :
  exists s' e', done_in (mailboxSend 5 42) empty_box OK s' /\ KInv (kern s') /\ mbox_at s' 5 e' ([] ++ [i32 42]).
Proof.
  pose proof (mailboxSend_delivers empty_box 5 42 (box_entry 0) [] (mksement SUSED 2 104) tokens_inv) as H. cbv zeta in H.
  destruct (fun H1 H2 => H H1 empty_box_at tokens_sender H2 (mksement SUSED 0 102)) as (s' & e' & Hd & HI & Hat & _).
  - unfold NMAILBOX. lia.
  - discriminate.
  - simpl. lia.
  - exact tokens_receiver.
  - simpl. lia.
  - exists s', e'. split; [exact Hd|]. split; [exact HI|exact Hat].
Defined.

Lemma mailboxReceive_takes_witness :
  exists s' e', done_in (mailboxReceive 5) full_box 42 s' /\ KInv (kern s') /\ mbox_at s' 5 e' [].
Proof.
  pose proof (mailboxReceive_takes full_box 5 (box_entry 1) [42] (mksement SUSED 1 102) (KInv_mem _ _ signalled_inv)) as H.
  cbv zeta in H.
  destruct (fun H1 H2 => H H1 full_box_at (proj2 signalled_sems) H2 42 [] (mksement SUSED 1 104) eq_refl) as (s' & e' & Hd & HI & Hat & _).
  - unfold NMAILBOX. lia.
  - discriminate.
  - exact (proj1 signalled_sems).
  - simpl. lia.
  - exists s', e'. split; [exact Hd|]. split; [exact HI|exact Hat].
Defined.

(** ** When no semaphore is left *)

Definition state_of {A} (s : sysst) (o : outcome sysst A) : sysst :=
  match o with Returned s' _ | Suspended s' _ | Halted s' => s' | Faulted => s end.
Definition value_of {A} (o : outcome sysst A) : option A :=
  match o with Returned _ a => Some a | _ => None end.

(** Every semaphore of the kernel is in use; number 1, which protects the
    mailbox table, has count 1. *)
Definition no_sems : sysst :=
  mksysst (set_semtab ((fun e => set_scount 1 (set_sstate SUSED e)) <$> semtab semd) semd)
    (list_to_map ((fun i => (i, mkmbox 0 0 0 0 0 MAILBOX_FREE 0)) <$> seqZ 0 NMAILBOX)) 1 0 ∅.

(** [mailboxAlloc] returns without signalling the semaphore of the table. *)
Lemma mailboxAlloc_keeps_lock :
  let o := run (mailboxAlloc 4) no_sems in
  value_of o = Some SYSERR /\
  scount <$> semtab (kern (state_of no_sems o)) !! 1 = Some 0.
Proof. vm_compute. split; reflexivity. Qed.
