(* ===== verification/BufPoolProps.v ===== *)
(** * Properties of buffer pools

    The free buffers of a pool form a chain through memory that the code uses
    as a stack; a buffer in use points to itself. *)

From S2P Require Import Prelude Prog Queue QueueSpec QueueSys Interrupt Memory Kernel Thread Semaphore NoHalt Placement Invariant Sched ThreadSpec SemaphoreSpec Samples KernelProps Sys BufPool MailboxSpec.

Local Coercion Z.of_nat : nat >-> Z.
#[local] Hint Resolve never_Rl : core.

(** [signaln] adds to the count; it reschedules afterwards. *)
Lemma signaln_adds k s e count : KInv k -> usable k s e -> 0 < count -> scount e + count < 2 ^ 31 ->
  exists k' e', ((exists a, run (signaln s count) k = Returned k' a)
                 \/ (exists p, run (signaln s count) k = Suspended k' p))
    /\ KInv k' /\ mem k' = mem k /\ semtab k' !! s = Some e' /\ scount e' = scount e + count.
Proof.
  intros [qs HI] Hu Hpos Hmax. pose proof (usable_good _ _ _ Hu) as Hb. destruct Hu as (E & Hu & _).
  pose proof (ki_ctl _ _ HI) as [_ Hv].
  set (P := fun k' => exists e', KInv k' /\ mem k' = mem k /\ semtab k' !! s = Some e' /\ scount e' = scount e + count).
  destruct (first_stretch (fun _ => P) (fun _ _ => P) (signaln s count) k (nohalt_signaln s count))
    as [(k' & a & Er & e' & H)|(k' & p & Er & e' & H)]; [|exists k', e'; eauto..].
  unfold signaln. kstep. kstep. change (isbadsem _ s) with (isbadsem k s). rewrite Hb.
  destruct (Z.leb_spec count 0); [lia|]. simpl orb. cbv iota.
  set (k1 := set_irq _ k). assert (HI1 : KInvq k1 qs) by (by apply KInvq_irq).
  apply kwp_bind. eapply (kwp_signaln_loop _ _ _ _ k1 qs e HI1 E Hu); [lia|by apply others_eq|].
  intros k' qs' e' HI' Hc' Hirq' Ho' E' Hcnt. destruct (ki_curr _ _ HI') as (ec & Ec & _).
  simpl in Hc'. rewrite Hc' in Ec. replace (Z.of_nat (Z.to_nat count)) with count in Hcnt by lia.
  eapply (kwp_resched_exit _ _ _ _ qs' ec _ (irq k)); [auto|by apply KInvq_pre|done|done|exact Ec|done|done|..].
  - intros k2 qs2 HI2 Hsw _ (_ & _ & _ & Hm). exists e'. split_and!; [by exists qs2|done| |done].
    by rewrite (sw_sems _ _ _ _ _ Hsw).
  - intros k2 qs2 [HI2 _ _ (_ & _ & _ & Hm)] Hsw. exists e'. split_and!; [by exists qs2|done| |done].
    by rewrite (sw_sems _ _ _ _ _ Hsw).
  - by intros k0' k2 qs2 [? []].
Qed.

(** ** The chain of free buffers *)

Fixpoint chain (M : memory) (p : Z) (fl : list Z) : Prop :=
  match fl with
  | [] => True
  | b :: fl => p = b /\ chain M (ld M b) fl
  end.

(** The headers of the buffers [bs] of pool [id] do not overlap. *)
Record headers (M : memory) (id : Z) (bs : list Z) : Prop := {
  hd_nodup : NoDup bs;
  hd_range : forall b, b ∈ bs -> 0 <= b /\ b + 8 < 2 ^ 32;
  hd_id : forall b, b ∈ bs -> ld M (b + 4) = id;
  hd_apart : forall b b', b ∈ bs -> b' ∈ bs -> b + 4 <> b';
}.

(** Pool [id] has the free buffers [fl] and the buffers [used] given out. *)
Record pool_at (s : sysst) (id : Z) (e : bfpentry) (fl used : list Z) : Prop := {
  po_entry : bfptab s !! id = Some e;
  po_state : bf_state e = BFPUSED;
  po_id : 0 <= id < NPOOL;
  po_chain : chain (mem (kern s)) (bf_next e) fl;
  po_used : forall b, b ∈ used -> ld (mem (kern s)) b = b;
  po_headers : headers (mem (kern s)) id (fl ++ used);
}.

Lemma chain_st M p fl a v : a ∉ fl -> chain M p fl -> chain (st M a v) p fl.
Proof.
  revert p. induction fl as [|b fl IH]; intros p Ha; [done|]. intros [-> H]. split; [done|].
  rewrite ld_st, decide_False by set_solver. apply IH; [set_solver|done].
Qed.

Lemma headers_st M id bs a v : a ∈ bs -> headers M id bs -> headers (st M a v) id bs.
Proof.
  intros Ha [H1 H2 H3 H4]. split; [done|done| |done]. intros b Hb.
  rewrite ld_st, decide_False; [by apply H3|]. intros ->. by apply (H4 b (b + 4) Hb Ha).
Qed.

Lemma headers_perm M id bs bs' : bs ≡ₚ bs' -> headers M id bs -> headers M id bs'.
Proof.
  intros Hp [H1 H2 H3 H4]. split.
  - by rewrite <- Hp.
  - intros b. rewrite <- Hp. apply H2.
  - intros b. rewrite <- Hp. apply H3.
  - intros b b'. rewrite <- Hp. apply H4.
Qed.

(** Taking a buffer off the chain, in memory. *)
Lemma pool_pop s s' id e b fl used :
  pool_at s id e (b :: fl) used ->
  bfptab s' = <[id := set_bf_next (ld (mem (kern s)) b) e]> (bfptab s) ->
  mem (kern s') = st (mem (kern s)) b b ->
  pool_at s' id (set_bf_next (ld (mem (kern s)) b) e) fl (b :: used).
Proof.
  intros [H1 H2 H3 [Hb H4] H5 H6] Et Em. pose proof (hd_nodup _ _ _ H6) as Hnd.
  rewrite <- app_comm_cons in Hnd. apply NoDup_cons in Hnd as [Hni _]. split; try done.
  - rewrite Et. apply lookup_insert_eq.
  - rewrite Em. apply chain_st; [set_solver|done].
  - rewrite Em. intros b' Hb'. rewrite ld_st. case_decide as E; [done|]. apply H5. set_solver.
  - rewrite Em. apply headers_st; [set_solver|]. eapply headers_perm; [|exact H6].
    simpl. by rewrite Permutation_middle.
Qed.

Lemma pool_push s s' id e b fl used :
  pool_at s id e fl (b :: used) ->
  bfptab s' = <[id := set_bf_next b e]> (bfptab s) ->
  mem (kern s') = st (mem (kern s)) b (bf_next e) ->
  pool_at s' id (set_bf_next b e) (b :: fl) used.
Proof.
  intros [H1 H2 H3 H4 H5 H6] Et Em. pose proof (hd_nodup _ _ _ H6) as Hnd.
  rewrite NoDup_app, NoDup_cons in Hnd. destruct Hnd as (_ & Hd & Hni & _).
  split; try done.
  - rewrite Et. apply lookup_insert_eq.
  - rewrite Em. split; [done|]. rewrite ld_st, decide_True by done. apply chain_st; [|done].
    intros Hb. apply (Hd b Hb). by left.
  - rewrite Em. intros b' Hb'. rewrite ld_st, decide_False; [apply H5; by right|]. by intros ->.
  - rewrite Em. apply headers_st; [set_solver|]. eapply headers_perm; [|exact H6].
    simpl. by rewrite Permutation_middle.
Qed.

Lemma isbadpool_good s id e fl used : pool_at s id e fl used -> isbadpool s id = false.
Proof.
  intros [H1 H2 H3 _ _ _]. unfold isbadpool. rewrite H1, H2.
  destruct (Z.leb_spec NPOOL id), (Z.ltb_spec id 0); lia || done.
Qed.

(** With a buffer available, [bufget] returns the address behind
    the header of the first free buffer, which is in use from then on; the other
    free buffers stay free, in their order, and those in use stay in use. *)
Theorem bufget_pops s id e b fl used es :
  KInv (kern s) -> pool_at s id e (b :: fl) used -> usable (kern s) (bf_freebuf e) es -> 0 < scount es ->
  exists s' e', run (bufget id) s = Returned s' (b + 8) /\ KInv (kern s') /\
    pool_at s' id e' fl (b :: used) /\
    semtab (kern s') = <[bf_freebuf e := set_scount (scount es - 1) es]> (semtab (kern s)) /\
    (forall p, p <> id -> bfptab s' !! p = bfptab s !! p) /\ mem (kern s') = st (mem (kern s)) b b.
Proof.
  intros HI Hp Hu Hpos. pose proof (hd_range _ _ _ (po_headers _ _ _ _ _ Hp) b ltac:(set_solver)) as Hr.
  pose proof (proj1 (po_chain _ _ _ _ _ Hp)) as Hb.
  unfold bufget. rewrite run_gets_bind, (isbadpool_good _ _ _ _ _ Hp).
  erewrite run_kcall_bind by reflexivity. set (k1 := set_irq _ (kern s)).
  rewrite (run_bf_bind id e) by apply Hp.
  assert (HI1 : KInv k1) by (apply KInv_irq; [done|by apply vic_ok_disable, KInv_vic]).
  destruct (wait_now k1 (bf_freebuf e) es HI1 Hu Hpos) as (k2 & E2 & S2).
  rewrite (run_kcall_bind _ _ (set_kern k1 s) k2 OK E2). rewrite (run_bf_bind id e) by apply Hp.
  unfold load. rewrite run_gets_bind. cbn [kern set_kern].
  rewrite (run_upd_bf_bind id _ e) by apply Hp. erewrite run_kcall_bind by reflexivity.
  unfold store. rewrite run_modify_bind. rewrite Hb, u32_id by (unfold is_u32; lia).
  change (mem k2) with (mem k2). rewrite (ss_mem _ _ _ _ _ S2). change (mem k1) with (mem (kern s)).
  eexists _, _. split; [reflexivity|]. split_and!.
  - cbn [kern set_kern set_bfptab]. apply KInv_mem, KInv_irq; [apply S2|].
    by apply vic_ok_set, KInv_vic, S2.
  - apply (pool_pop s _ id e b fl used Hp); [done|].
    cbn [kern set_kern set_bfptab mem set_mem set_irq]. by rewrite (ss_mem _ _ _ _ _ S2).
  - cbn [kern set_kern set_bfptab semtab set_mem set_irq]. exact (ss_sems _ _ _ _ _ S2).
  - intros p Hne. cbn [bfptab set_kern set_bfptab]. by rewrite lookup_insert_ne.
  - cbn [kern set_kern set_bfptab mem set_mem set_irq]. by rewrite (ss_mem _ _ _ _ _ S2).
Qed.

(** The header of a buffer, as [buffree] reads it. *)
Lemma pool_header s id e fl used b : pool_at s id e fl used -> b ∈ fl ++ used ->
  u32 (b + 8 - 8) = b /\ u32 (b + 4) = b + 4 /\ i32 (ld (mem (kern s)) (b + 4)) = id.
Proof.
  intros Hp Hb. pose proof (hd_range _ _ _ (po_headers _ _ _ _ _ Hp) b Hb) as Hr.
  replace (b + 8 - 8) with b by lia. rewrite !u32_id by (unfold is_u32; lia).
  rewrite (hd_id _ _ _ (po_headers _ _ _ _ _ Hp) b Hb). split_and!; [done|done|].
  apply i32_id. pose proof (po_id _ _ _ _ _ Hp). unfold NPOOL, is_i32 in *. lia.
Qed.

(** The state in which [buffree] of a buffer in use signals. *)
Definition put_back (s : sysst) (id b : Z) (e : bfpentry) : sysst :=
  let k1 := set_irq (vic_disable_interrupts (irq (kern s))) (kern s) in
  set_bfptab (<[id := set_bf_next b e]> (bfptab s))
    (set_kern (set_irq (vic_set_irqmask (mask (kern s)) (irq k1))
       (set_mem (st (mem (kern s)) b (bf_next e)) k1)) s).

Lemma buffree_run s id e fl used b : pool_at s id e fl (b :: used) ->
  run (buffree (b + 8)) s = run (kcall (signaln (bf_freebuf e) 1);; mret OK) (put_back s id b e).
Proof.
  intros Hp. destruct (pool_header s id e fl (b :: used) b Hp ltac:(set_solver)) as (E1 & E2 & E3).
  pose proof (po_used _ _ _ _ _ Hp b ltac:(by left)) as Hself.
  unfold buffree, load, store. rewrite E1, E2, run_gets_bind, E3, run_gets_bind.
  rewrite (isbadpool_good _ _ _ _ _ Hp), run_gets_bind, Hself, Z.eqb_refl. cbn [negb].
  erewrite run_kcall_bind by reflexivity. rewrite (run_bf_bind id e) by apply Hp.
  rewrite run_modify_bind, (run_upd_bf_bind id _ e) by apply Hp.
  erewrite run_kcall_bind by reflexivity.
  rewrite (run_bf_bind id (set_bf_next b e)) by apply lookup_insert_eq. done.
Qed.

Lemma put_back_inv s id b e : KInv (kern s) -> KInv (kern (put_back s id b e)).
Proof.
  intros HI. apply KInv_irq; [apply KInv_mem, KInv_irq; [done|]|apply vic_ok_set]; by apply vic_ok_disable, KInv_vic.
Qed.

(** [buffree] of a buffer that is in use makes it the first
    free buffer of its pool, and one more buffer available; it refuses a buffer
    that is free already and changes nothing. *)
Theorem buffree_pushes s id e b fl used es :
  KInv (kern s) -> pool_at s id e fl used -> usable (kern s) (bf_freebuf e) es ->
  scount es + 1 < 2 ^ 31 ->
  (forall used', used = b :: used' ->
     exists s' e' es', done_in (buffree (b + 8)) s OK s' /\ KInv (kern s') /\
       pool_at s' id e' (b :: fl) used' /\
       semtab (kern s') !! bf_freebuf e = Some es' /\ scount es' = scount es + 1 /\
       (forall p, p <> id -> bfptab s' !! p = bfptab s !! p)) /\
  (b ∈ fl -> ld (mem (kern s)) b <> b -> run (buffree (b + 8)) s = Returned s SYSERR).
Proof.
  intros HI Hp Hu Hmax. split.
  - intros used' ->. pose proof (put_back_inv s id b e HI) as HI1. pose proof (buffree_run _ _ _ _ _ _ Hp) as Hrun.
    set (s1 := put_back s id b e) in *.
    assert (Hp1 : pool_at s1 id (set_bf_next b e) (b :: fl) used') by (by apply (pool_push s)).
    destruct (signaln_adds (kern s1) (bf_freebuf e) es 1 HI1 Hu) as (k2 & es' & Hr & HI2 & Hm & Es & Hc);
      [lia|lia|].
    exists (set_kern k2 s1), (set_bf_next b e), es'. split_and!; [|done| |done|done|].
    + eapply done_in_run; [exact Hrun|]. destruct Hr as [[a Hr]|[p Hr]].
      * left. by rewrite (run_kcall_bind _ _ _ _ _ Hr).
      * right. exists Z, (kcall p). by rewrite run_bind, run_kcall, Hr.
    + destruct Hp1 as [P1 P2 P3 P4 P5 P6]. split; try done; cbn [kern set_kern]; by rewrite Hm.
    + intros p Hne. unfold s1. cbn [bfptab set_kern set_bfptab put_back]. by rewrite lookup_insert_ne.
  - intros Hb Hne. destruct (pool_header s id e fl used b Hp ltac:(set_solver)) as (E1 & E2 & E3).
    unfold buffree, load. rewrite E1, E2, run_gets_bind, E3, run_gets_bind.
    rewrite (isbadpool_good _ _ _ _ _ Hp), run_gets_bind.
    destruct (Z.eqb_spec (ld (mem (kern s)) b) b); [done|]. done.
Qed.

(** ** A pool with two buffers *)

Definition pool_words (M : memory) : memory :=
  st (st (st (st M 0x30000 0x30010) 0x30004 3) 0x30010 0x30020) 0x30014 3.

Definition pool_entry (next : Z) : bfpentry := mkbfpentry BFPUSED 16 2 0x30000 next 2.

Definition two_bufs : sysst :=
  mksysst (set_mem (pool_words (mem tokens)) tokens) ∅ 0 0 {[3 := pool_entry 0x30000]}.

Lemma two_bufs_at : pool_at two_bufs 3 (pool_entry 0x30000) [0x30000; 0x30010] [].
Proof.
  split; [done|done|done| |intros b Hb; inversion Hb|].
  - cbn [kern two_bufs mem set_mem]. unfold pool_words. split; [done|]. rewrite !ld_st. done.
  - split.
    + repeat constructor; set_solver.
    + intros b Hb. assert (b = 0x30000 \/ b = 0x30010) as [-> | ->] by set_solver; lia.
    + intros b Hb. cbn [kern two_bufs mem set_mem]. unfold pool_words.
      assert (b = 0x30000 \/ b = 0x30010) as [-> | ->] by set_solver; rewrite !ld_st; done.
    + intros b b' Hb Hb'. assert (b = 0x30000 \/ b = 0x30010) as [-> | ->] by set_solver;
        assert (b' = 0x30000 \/ b' = 0x30010) as [-> | ->] by set_solver; lia.
Qed.

Lemma two_bufs_inv : KInv (kern two_bufs).
Proof. apply KInv_mem. exact tokens_inv. Qed.

Local Opaque tokens.

(** bufget_pops on it. *)
Lemma bufget_pops_witness :
  exists s' e', run (bufget 3) two_bufs = Returned s' (0x30000 + 8) /\ KInv (kern s') /\
    pool_at s' 3 e' [0x30010] [0x30000] /\
    semtab (kern s') = <[2 := set_scount (2 - 1) (mksement SUSED 2 104)]> (semtab (kern two_bufs)) /\
    (forall p, p <> 3 -> bfptab s' !! p = bfptab two_bufs !! p) /\
    mem (kern s') = st (mem (kern two_bufs)) 0x30000 0x30000.
Proof.
  apply (bufget_pops two_bufs 3 (pool_entry 0x30000) 0x30000 [0x30010] [] (mksement SUSED 2 104)).
  - exact two_bufs_inv.
  - exact two_bufs_at.
  - exact tokens_sender.
  - simpl. lia.
Defined.

(** One buffer in use. *)
Definition one_buf : sysst :=
  mksysst (set_mem (st (pool_words (mem tokens)) 0x30000 0x30000) tokens) ∅ 0 0
    {[3 := set_bf_next 0x30010 (pool_entry 0x30000)]}.

Lemma one_buf_at : pool_at one_buf 3 (set_bf_next 0x30010 (pool_entry 0x30000)) [0x30010] [0x30000].
Proof.
  assert (E : ld (mem (kern two_bufs)) 0x30000 = 0x30010).
  { exact (eq_sym (proj1 (proj2 (po_chain _ _ _ _ _ two_bufs_at)))). }
  rewrite <- E at 1. apply (pool_pop two_bufs one_buf 3 (pool_entry 0x30000)); [exact two_bufs_at| |done].
  rewrite E. reflexivity.
Qed.

(** buffree_pushes on it: giving the buffer back. *)
Lemma buffree_pushes_witness :
  exists s' e' es', done_in (buffree (0x30000 + 8)) one_buf OK s' /\ KInv (kern s') /\
    pool_at s' 3 e' [0x30000; 0x30010] [] /\
    semtab (kern s') !! 2 = Some es' /\ scount es' = 2 + 1 /\
    (forall p, p <> 3 -> bfptab s' !! p = bfptab one_buf !! p).
Proof.
  apply (buffree_pushes one_buf 3 (set_bf_next 0x30010 (pool_entry 0x30000)) 0x30000 [0x30010] [0x30000]
    (mksement SUSED 2 104)).
  - apply KInv_mem. exact tokens_inv.
  - exact one_buf_at.
  - exact tokens_sender.
  - simpl. lia.
  - reflexivity.
Defined.

(** ** When the heap is exhausted *)

Definition pool_result {A} (o : outcome sysst A) : option A :=
  match o with Returned _ a => Some a | _ => None end.

(** No free memory. *)
Definition no_heap : sysst :=
  mksysst (set_mem (mkmemory ∅ 0 0 0x20000 0x40000) semd) ∅ 0 0
    (list_to_map ((fun i => (i, mkbfpentry BFPFREE 0 0 0 0 0)) <$> seqZ 0 NPOOL)).

(** [bfpalloc] does not look at the result of [memget]: it reports success. *)
Lemma bfpalloc_ignores_failure : pool_result (run (bfpalloc 16 1) no_heap) = Some 0.
Proof. vm_compute. reflexivity. Qed.
