(* ===== verification/NetAddr.v ===== *)
(** * Network addresses and the Internet checksum (include/network.h,
      network/netaddr/netaddrequal.c, netaddrmask.c, netaddrhost.c,
      network/net/netChksum.c, network/ipv4/dot2ipv4.c)

    The processor is little-endian: a 16-bit quantity in memory has its low byte
    first, and [hs2net] exchanges the bytes. *)

From S2P Require Import Prelude CString.

Definition u16 (z : Z) : Z := z mod 2 ^ 16.

Definition hs2net (x : Z) : Z :=
  Z.lor (Z.land (Z.shiftr x 8) 0xff) (Z.shiftl (Z.land x 0xff) 8).
Definition net2hs (x : Z) : Z := hs2net x.

Definition NET_MAX_ALEN : Z := 6.
Definition ETHER_TYPE_IPv4 : Z := 0x0800.
Definition NETADDR_ETHERNET : Z := 1.
Definition NETADDR_IPv4 : Z := ETHER_TYPE_IPv4.
Definition IPv4_ADDR_LEN : Z := 4.
Definition ETH_ADDR_LEN : Z := 6.

(** The array [addr] has [NET_MAX_ALEN] bytes; an access outside is a fault. *)
Record netaddr : Type := mknetaddr { na_type : Z; na_len : Z; na_addr : list Z }.

#[export] Instance netaddr_eq_dec : EqDecision netaddr.
Proof. solve_decision. Defined.

(** [memcmp] of two such arrays *)
Fixpoint addr_cmp (n : nat) (l1 l2 : list Z) : option Z :=
  match n with
  | O => Some 0
  | S n =>
      match l1, l2 with
      | x :: l1, y :: l2 => if negb (x =? y) then Some (x - y) else addr_cmp n l1 l2
      | _, _ => None
      end
  end.

Definition netaddrequal (a b : netaddr) : option bool :=
  if negb (na_type a =? na_type b) then Some false
  else if negb (na_len a =? na_len b) then Some false
  else
    c ← addr_cmp (Z.to_nat (na_len a)) (na_addr a) (na_addr b);
    Some (if negb (0 =? c) then false else true).

(** The loop of [netaddrmask] and of [netaddrhost]. *)
Fixpoint addr_and (n : nat) (f : Z -> Z) (l mask : list Z) : option (list Z) :=
  match n with
  | O => Some l
  | S n =>
      match l, mask with
      | x :: l, y :: mask => r ← addr_and n f l mask; Some (Z.land x (f y) :: r)
      | _, _ => None
      end
  end.

Definition netaddrmask (a mask : netaddr) : option (netaddr * Z) :=
  if negb (na_type a =? na_type mask) then Some (a, SYSERR)
  else if negb (na_len a =? na_len mask) then Some (a, SYSERR)
  else
    l ← addr_and (Z.to_nat (na_len a)) (fun y => y) (na_addr a) (na_addr mask);
    Some (mknetaddr (na_type a) (na_len a) l, OK).

Definition netaddrhost (a mask : netaddr) : option (netaddr * Z) :=
  if negb (na_type a =? na_type mask) then Some (a, SYSERR)
  else if negb (na_len a =? na_len mask) then Some (a, SYSERR)
  else
    l ← addr_and (Z.to_nat (na_len a)) Z.lnot (na_addr a) (na_addr mask);
    Some (mknetaddr (na_type a) (na_len a) l, OK).

(** ** netChksum *)

(** [while (len > 1)]: the sum, and where the left-over byte is. *)
Fixpoint chk_words (fuel : nat) (m : cmem) (ptr len sum : Z) : option (Z * Z * Z) :=
  match fuel with
  | O => None
  | S fuel =>
      if 1 <? len then
        lo ← cld m ptr;
        hi ← cld m (ptr + 1);
        chk_words fuel m (ptr + 2) (len - 2) (u32 (sum + (lo + 256 * hi)))
      else Some (ptr, len, sum)
  end.

(** [while (sum >> 16) sum = (sum >> 16) + (sum & 0xFFFF)]: two rounds are enough
    for 32 bits. *)
Fixpoint chk_fold (fuel : nat) (sum : Z) : option Z :=
  if Z.shiftr sum 16 =? 0 then Some sum
  else
    match fuel with
    | O => None
    | S fuel => chk_fold fuel (u32 (Z.shiftr sum 16 + Z.land sum 0xFFFF))
    end.

Definition netChksum (m : cmem) (data len : Z) : option Z :=
  '(ptr, len, sum) ← chk_words (S (Z.to_nat len)) m data len 0;
  sum ← (if 0 <? len then c ← cld m ptr; Some (u32 (sum + net2hs (Z.shiftl c 8))) else Some sum);
  sum ← chk_fold 2 sum;
  Some (u16 (Z.lnot sum)).

(** ** dot2ipv4 *)

(** [ip->addr[count] = temp] *)
Definition set_octet (ip : netaddr) (count temp : Z) : option netaddr :=
  if (count <? 0) || (NET_MAX_ALEN <=? count) then None
  else Some (mknetaddr (na_type ip) (na_len ip) (<[Z.to_nat count := u8 temp]> (na_addr ip))).

Fixpoint dot2ipv4_loop (fuel : nat) (m : cmem) (str : Z) (ip : netaddr) (count temp : Z)
  : option (netaddr * option (Z * Z)) :=
  match fuel with
  | O => None
  | S fuel =>
      if count <? IPv4_ADDR_LEN then
        c ← cld m str;
        if c =? 0 then Some (ip, Some (count, temp))
        else
          d ← isdigit c;
          if (d : bool) then dot2ipv4_loop fuel m (str + 1) ip count (u32 (temp * 10 + (c - 48)))
          else if 46 =? c then
            ip ← set_octet ip count temp;
            dot2ipv4_loop fuel m (str + 1) ip (count + 1) 0
          else Some (ip, None)
      else Some (ip, Some (count, temp))
  end.

Definition dot2ipv4 (m : cmem) (str : Z) (ip : netaddr) : option (netaddr * Z) :=
  if str =? NULL then Some (ip, SYSERR)
  else
    '(ip, r) ← dot2ipv4_loop (scan_fuel m) m str ip 0 0;
    match r with
    | None => Some (ip, SYSERR)
    | Some (count, temp) =>
        ip ← set_octet ip count temp;
        Some (mknetaddr NETADDR_IPv4 IPv4_ADDR_LEN (na_addr ip), OK)
    end.
