(* ===== verification/NetAddrSpec.v ===== *)
(** * Checksums, masks and dotted addresses *)

From S2P Require Import Prelude CString CStringSpec NetAddr.

Local Coercion Z.of_nat : nat >-> Z.

(** ** The checksum *)

(** The sum of the 16-bit words of a block, low byte first; an odd byte counts
    as a word. *)
Fixpoint wsum (l : list Z) : Z :=
  match l with
  | [] => 0
  | [x] => x
  | lo :: hi :: l => lo + 256 * hi + wsum l
  end.

(** The number of 1 to 65535 that is congruent to [s] modulo 65535, and 0 for 0:
    the value of a one's complement sum. *)
Definition ones (s : Z) : Z := if s =? 0 then 0 else (s - 1) mod 65535 + 1.

Definition ubyte (c : Z) : Prop := 0 <= c < 256.

(** Induction on lists, two elements at a time. *)
Lemma list_ind2 {A} (P : list A -> Prop) :
  P [] -> (forall x, P [x]) -> (forall x y l, P l -> P (x :: y :: l)) -> forall l, P l.
Proof.
  intros H0 H1 H2 l. enough (P l /\ forall x, P (x :: l)) by tauto.
  induction l as [|y l [IH1 IH2]]; [by split|]. split; [done|]. intros x. by apply H2.
Qed.

Lemma wsum_bound l : Forall ubyte l -> 0 <= wsum l /\ 2 * wsum l <= 65535 * (length l + 1).
Proof.
  induction l as [|x|x y l IH] using list_ind2; intros H; simpl.
  - lia.
  - apply Forall_cons in H as [Hx _]. unfold ubyte in Hx. lia.
  - apply Forall_cons in H as [Hx H]. apply Forall_cons in H as [Hy H]. unfold ubyte in Hx, Hy.
    specialize (IH H). lia.
Qed.

Lemma chk_words_spec m p l sum fuel :
  bytes_at m p l -> Forall ubyte l -> (length l < fuel)%nat -> 0 <= sum -> sum + wsum l < 2 ^ 32 ->
  exists p' n s, chk_words fuel m p (length l) sum = Some (p', n, s) /\
    (n = 0 /\ s = sum + wsum l \/ n = 1 /\ exists x, m !! p' = Some x /\ ubyte x /\ s + x = sum + wsum l).
Proof.
  revert p sum fuel. induction l as [|x|x y l IH] using list_ind2; intros p sum fuel Hb Hu Hf Hs Hm.
  - destruct fuel as [|fuel]; [simpl in Hf; lia|]. exists p, 0, sum. split; [done|]. left. simpl. lia.
  - destruct fuel as [|fuel]; [simpl in Hf; lia|]. destruct Hb as [Hx _]. apply Forall_cons in Hu as [Hux _].
    exists p, 1, sum. split; [done|]. right. split; [done|]. by exists x.
  - destruct fuel as [|fuel]; [simpl in Hf; lia|]. destruct Hb as [Hx [Hy Hb]].
    apply Forall_cons in Hu as [Hux Hu]. apply Forall_cons in Hu as [Huy Hu].
    pose proof (wsum_bound l Hu) as Hw. simpl in Hm, Hf. unfold ubyte in Hux, Huy.
    cbn [chk_words]. destruct (Z.ltb_spec 1 (length (x :: y :: l))); [|simpl in *; lia].
    unfold cld. rewrite Hx. cbn [mbind option_bind]. rewrite Hy. cbn [mbind option_bind].
    rewrite u32_id by (unfold is_u32; lia).
    replace (length (x :: y :: l) - 2) with (Z.of_nat (length l)) by (simpl; lia).
    destruct (IH (p + 2) (sum + (x + 256 * y)) fuel) as (p' & n & s & E & H').
    + by replace (p + 2) with (p + 1 + 1) by lia.
    + done.
    + lia.
    + lia.
    + lia.
    + exists p', n, s. split; [done|]. simpl.
      replace (sum + (x + 256 * y + wsum l)) with (sum + (x + 256 * y) + wsum l) by lia. done.
Qed.

Lemma chk_step s : 0 <= s < 2 ^ 32 ->
  let s' := u32 (Z.shiftr s 16 + Z.land s 0xFFFF) in
  s' = s / 65536 + s mod 65536 /\ s' mod 65535 = s mod 65535 /\ (0 < s -> 0 < s') /\ 0 <= s' <= 131070.
Proof.
  intros Hs. replace (Z.land s 0xFFFF) with (s mod 65536) by exact (eq_sym (Z.land_ones s 16 ltac:(lia))).
  rewrite Z.shiftr_div_pow2 by lia. change (2 ^ 16) with 65536. pose proof (Z.div_mod s 65536 ltac:(lia)) as Hd.
  pose proof (Z.mod_pos_bound s 65536 ltac:(lia)) as Hm.
  assert (Hq : 0 <= s / 65536 < 65536) by (split; [apply Z.div_pos; lia|apply Z.div_lt_upper_bound; lia]).
  cbv zeta. rewrite u32_id by (unfold is_u32; lia). split_and!; [done| |lia|lia|lia].
  rewrite <- (Z.mod_add (s / 65536 + s mod 65536) (s / 65536) 65535) by lia. f_equal. lia.
Qed.

Lemma ones_small s : 0 <= s < 65536 -> ones s = s.
Proof. intros H. unfold ones. destruct (Z.eqb_spec s 0); [lia|]. rewrite Z.mod_small; lia. Qed.

Lemma ones_cong s t : 0 < s -> 0 < t -> s mod 65535 = t mod 65535 -> ones s = ones t.
Proof.
  intros Hs Ht E. unfold ones. destruct (Z.eqb_spec s 0), (Z.eqb_spec t 0); try lia. f_equal.
  rewrite (Zminus_mod s), (Zminus_mod t), E. done.
Qed.

Lemma chk_fold_spec s : 0 <= s < 2 ^ 32 -> chk_fold 2 s = Some (ones s).
Proof.
  intros Hs. assert (Hz : forall x, 0 <= x -> (Z.shiftr x 16 =? 0) = (x <? 65536)).
  { intros x Hx. rewrite Z.shiftr_div_pow2 by lia. change (2 ^ 16) with 65536.
    destruct (Z.ltb_spec x 65536); [rewrite Z.div_small by lia; done|]. apply Z.eqb_neq.
    assert (1 <= x / 65536) by (apply Z.div_le_lower_bound; lia). lia. }
  cbn [chk_fold]. rewrite Hz by lia. destruct (Z.ltb_spec s 65536); [by rewrite ones_small by lia|].
  destruct (chk_step s Hs) as (_ & Hc1 & Hp1 & Hb1).
  set (s1 := u32 (Z.shiftr s 16 + Z.land s 0xFFFF)) in *. rewrite Hz by lia.
  destruct (Z.ltb_spec s1 65536).
  - rewrite <- (ones_small s1) by lia. f_equal. apply ones_cong; [lia|lia|done].
  - destruct (chk_step s1 ltac:(lia)) as (E2 & Hc2 & Hp2 & Hn).
    set (s2 := u32 (Z.shiftr s1 16 + Z.land s1 0xFFFF)) in *.
    assert (Hb2 : s2 < 65536) by (clear Hc1 Hc2; Z.div_mod_to_equations; lia). rewrite Hz by lia.
    destruct (Z.ltb_spec s2 65536); [|lia]. rewrite <- (ones_small s2) by lia. f_equal.
    apply ones_cong; [lia|lia|congruence].
Qed.

Lemma ones_range s : 0 <= s -> 0 <= ones s <= 65535.
Proof.
  intros H. unfold ones. destruct (Z.eqb_spec s 0); [lia|].
  pose proof (Z.mod_pos_bound (s - 1) 65535). lia.
Qed.

Lemma net2hs_byte c : ubyte c -> net2hs (Z.shiftl c 8) = c.
Proof.
  unfold ubyte. intros H. unfold net2hs, hs2net. rewrite Z.shiftr_shiftl_l by lia. simpl (8 - 8).
  rewrite Z.shiftl_0_r. change 0xff with (Z.ones 8). rewrite !Z.land_ones by lia.
  rewrite (Z.mod_small c) by lia. rewrite !Z.shiftl_mul_pow2 by lia.
  rewrite Z.mod_mul by lia. apply Z.lor_0_r.
Qed.

(** The checksum is the complement of the one's complement sum. *)
Lemma netChksum_spec m p l : bytes_at m p l -> Forall ubyte l -> Z.of_nat (length l) < 2 ^ 17 ->
  netChksum m p (length l) = Some (65535 - ones (wsum l)).
Proof.
  intros Hb Hu Hl. pose proof (wsum_bound l Hu) as Hw. unfold netChksum. rewrite Nat2Z.id.
  destruct (chk_words_spec m p l 0 (S (length l)) Hb Hu) as (p' & n & s & E & H); [lia|lia|lia|].
  rewrite E. cbn [mbind option_bind].
  assert (Hs : (if 0 <? n then c ← cld m p'; Some (u32 (s + net2hs (Z.shiftl c 8))) else Some s)
               = Some (wsum l)).
  { destruct H as [[-> ->]|[-> (x & Hx & Hux & Hsx)]]; [done|]. unfold cld. rewrite Hx.
    cbn [mbind option_bind]. change (0 <? 1) with true. cbv iota. rewrite net2hs_byte by done.
    rewrite u32_id by (unfold is_u32; lia). f_equal. lia. }
  rewrite Hs. cbn [mbind option_bind]. rewrite chk_fold_spec by lia. cbn [mbind option_bind].
  pose proof (ones_range (wsum l)). f_equal. unfold u16, Z.lnot.
  replace (Z.pred (- ones (wsum l))) with (65535 - ones (wsum l) + (-1) * 65536) by lia.
  rewrite Z.mod_add by lia. apply Z.mod_small. lia.
Qed.

Lemma wsum_app l1 l2 : Nat.even (length l1) = true -> wsum (l1 ++ l2) = wsum l1 + wsum l2.
Proof.
  induction l1 as [|x|x y l1 IH] using list_ind2; intros H; [done|done|].
  cbn [app wsum]. rewrite IH by done. lia.
Qed.

Lemma wsum_word x y l : wsum (x :: y :: l) = x + 256 * y + wsum l.
Proof. done. Qed.
