(* ===== verification/Net.v ===== *)
(** * Interfaces, packets and the tables of the network (include/network.h,
      route.h, arp.h, network/net/netGetbuf.c, netFreebuf.c)

    The state is the kernel with mailboxes and buffer pools, and the globals of
    the network.  A packet is a buffer of the pool [netpool]; its fields and its
    bytes are in memory.  A [struct netif *] is the address of an interface, the
    key of [netiftab]; a pointer into [rttab] or [arptab] is an index, its
    [NULL] is [None]. *)

From S2P Require Import Prelude Prog Queue Interrupt Memory Kernel Thread Semaphore CString Sys Mailbox BufPool NetAddr.

(** ** Bytes of memory: words are little-endian *)

Definition ldb (M : memory) (a : Z) : Z :=
  Z.land (Z.shiftr (ld M (a - a mod 4)) (8 * (a mod 4))) 0xff.
Definition stb (M : memory) (a v : Z) : memory :=
  st M (a - a mod 4)
    (Z.lor (Z.land (ld M (a - a mod 4)) (Z.lnot (Z.shiftl 0xff (8 * (a mod 4)))))
           (Z.shiftl (u8 v) (8 * (a mod 4)))).

(** A [ushort], and [n] bytes from [a] on. *)
Definition ldh (M : memory) (a : Z) : Z := ldb M a + 256 * ldb M (a + 1).
Definition sth (M : memory) (a v : Z) : memory := stb (stb M a v) (a + 1) (Z.shiftr v 8).

Fixpoint ldbs (M : memory) (a : Z) (n : nat) : list Z :=
  match n with
  | O => []
  | S n => ldb M a :: ldbs M (a + 1) n
  end.
Fixpoint stbs (M : memory) (a : Z) (l : list Z) : memory :=
  match l with
  | [] => M
  | x :: l => stbs (stb M a x) (a + 1) l
  end.

(** ** Interfaces *)

Inductive netstate : Type := NET_FREE | NET_ALLOC.

#[export] Instance netstate_eq_dec : EqDecision netstate.
Proof. solve_decision. Defined.

Record netif : Type := mknetif {
  nf_dev : Z;
  nf_state : netstate;
  nf_mtu : Z;
  nf_linkhdrlen : Z;
  nf_ip : netaddr;
  nf_mask : netaddr;
  nf_gateway : netaddr;
  nf_ipbrc : netaddr;
  nf_hwaddr : netaddr;
  nf_hwbrc : netaddr;
  nf_recvthr : list Z;
  nf_nin : Z;
  nf_nproc : Z;
  nf_capture : Z;
}.

(** ** The route table *)

Inductive rtstate : Type := RT_FREE | RT_USED | RT_PEND.

#[export] Instance rtstate_eq_dec : EqDecision rtstate.
Proof. solve_decision. Defined.

Definition RT_NENTRY : nat := 32.
Definition RT_NQUEUE : Z := 32.

Record rtEntry : Type := mkrtEntry {
  rt_state : rtstate;
  rt_masklen : Z;
  rt_dst : netaddr;
  rt_gateway : netaddr;
  rt_mask : netaddr;
  rt_nif : Z;
}.

(** ** The ARP table *)

Definition ARP_FREE : Z := 0.
Definition ARP_USED : Z := 1.
Definition ARP_UNRESOLVED : Z := 1.
Definition ARP_RESOLVED : Z := 3.
Definition ARP_NENTRY : nat := 32.
Definition ARP_NTHRWAIT : nat := 10.
Definition ARP_MAX_LOOKUP : nat := 5.
Definition ARP_MSG_RESOLVED : Z := 1.
Definition ARP_TTL_UNRESOLVED : Z := 5.
Definition ARP_TTL_RESOLVED : Z := 300.
Definition ARP_NQUEUE : Z := 32.
Definition ARP_OP_RQST : Z := 1.
Definition ARP_OP_REPLY : Z := 2.
Definition ARP_CONST_HDR_LEN : Z := 8.
Definition ARP_HWTYPE_ETHERNET : Z := 1.
Definition ETHER_TYPE_ARP : Z := 0x0806.

Record arpEntry : Type := mkarpEntry {
  ae_state : Z;
  ae_nif : Z;
  ae_hwaddr : netaddr;
  ae_praddr : netaddr;
  ae_expires : Z;
  ae_waiting : list Z;
  ae_count : Z;
}.

(** ** The state *)

Record netst : Type := mknetst {
  sys : sysst;
  netiftab : gmap Z netif;
  netpool : Z;
  rttab : list rtEntry;
  rtqueue : Z;
  arptab : list arpEntry;
  arpqueue : Z;
}.

Definition set_sys (v : sysst) (n : netst) : netst :=
  mknetst v (netiftab n) (netpool n) (rttab n) (rtqueue n) (arptab n) (arpqueue n).
Definition set_netiftab (v : gmap Z netif) (n : netst) : netst :=
  mknetst (sys n) v (netpool n) (rttab n) (rtqueue n) (arptab n) (arpqueue n).
Definition set_rttab (v : list rtEntry) (n : netst) : netst :=
  mknetst (sys n) (netiftab n) (netpool n) v (rtqueue n) (arptab n) (arpqueue n).
Definition set_rtqueue (v : Z) (n : netst) : netst :=
  mknetst (sys n) (netiftab n) (netpool n) (rttab n) v (arptab n) (arpqueue n).
Definition set_arptab (v : list arpEntry) (n : netst) : netst :=
  mknetst (sys n) (netiftab n) (netpool n) (rttab n) (rtqueue n) v (arpqueue n).
Definition set_arpqueue (v : Z) (n : netst) : netst :=
  mknetst (sys n) (netiftab n) (netpool n) (rttab n) (rtqueue n) (arptab n) v.

Definition nkern (n : netst) : kernel := kern (sys n).
Definition set_nkern (k : kernel) (n : netst) : netst := set_sys (set_kern k (sys n)) n.

#[export] Instance sys_part : Part sys set_sys.
Proof. split; [done| |done]. by intros []. Qed.
#[export] Instance nkern_part : Part nkern set_nkern.
Proof. split; [done| |done]. by intros [[]]. Qed.

(** Calls of the kernel, and of mailboxes and buffer pools. *)
Definition ncall {A} (p : prog kernel A) : prog netst A := zoom nkern set_nkern p.
Definition scall {A} (p : prog sysst A) : prog netst A := zoom sys set_sys p.

Lemma run_ncall_bind {A B} (p : prog kernel A) (g : A -> prog netst B) n k a :
  run p (nkern n) = Returned k a -> run (ncall p ≫= g) n = run (g a) (set_nkern k n).
Proof. apply (run_zoom_bind nkern set_nkern). Qed.

Lemma run_scall_bind {A B} (p : prog sysst A) (g : A -> prog netst B) n s a :
  run p (sys n) = Returned s a -> run (scall p ≫= g) n = run (g a) (set_sys s n).
Proof. apply (run_zoom_bind sys set_sys). Qed.

(** An expression that may be undefined. *)
Definition opt {S A} (o : option A) : prog S A := match o with Some a => Ret a | None => Fault end.

Lemma run_opt_bind {S A B} (o : option A) (g : A -> prog S B) s a :
  o = Some a -> run (opt o ≫= g) s = run (g a) s.
Proof. by intros ->. Qed.

(** [netiftab], [rttab] and [arptab] *)
Definition nif (p : Z) : prog netst netif := readopt (fun n => netiftab n !! p).
Definition rt (i : nat) : prog netst rtEntry := readopt (fun n => rttab n !! i).
Definition upd_rt (i : nat) (f : rtEntry -> rtEntry) : prog netst unit :=
  lift (fun n => e ← rttab n !! i; Some (set_rttab (<[i := f e]> (rttab n)) n, tt)).
Definition ae (i : nat) : prog netst arpEntry := readopt (fun n => arptab n !! i).
Definition upd_ae (i : nat) (f : arpEntry -> arpEntry) : prog netst unit :=
  lift (fun n => e ← arptab n !! i; Some (set_arptab (<[i := f e]> (arptab n)) n, tt)).

Lemma run_rt_bind {B} i e (g : rtEntry -> prog netst B) n :
  rttab n !! i = Some e -> run (rt i ≫= g) n = run (g e) n.
Proof. apply (run_readopt_bind (fun n => rttab n !! i)). Qed.

Lemma run_upd_rt_bind {B} i f e (g : unit -> prog netst B) n : rttab n !! i = Some e ->
  run (upd_rt i f ≫= g) n = run (g tt) (set_rttab (<[i := f e]> (rttab n)) n).
Proof. intros E. unfold upd_rt. erewrite run_lift_bind; [done|]. by rewrite E. Qed.

Lemma run_ae_bind {B} i e (g : arpEntry -> prog netst B) n :
  arptab n !! i = Some e -> run (ae i ≫= g) n = run (g e) n.
Proof. apply (run_readopt_bind (fun n => arptab n !! i)). Qed.

Lemma run_upd_ae_bind {B} i f e (g : unit -> prog netst B) n : arptab n !! i = Some e ->
  run (upd_ae i f ≫= g) n = run (g tt) (set_arptab (<[i := f e]> (arptab n)) n).
Proof. intros E. unfold upd_ae. erewrite run_lift_bind; [done|]. by rewrite E. Qed.

(** Memory *)
Definition nload (a : Z) : prog netst Z := gets (fun n => ld (mem (nkern n)) a).
Definition ngets {A} (f : memory -> A) : prog netst A := gets (fun n => f (mem (nkern n))).
Definition nputs (f : memory -> memory) : prog netst unit :=
  modify (fun n => set_nkern (set_mem (f (mem (nkern n))) (nkern n)) n).
Definition nstore (a v : Z) : prog netst unit := nputs (fun M => st M a v).

(** [memcpy] of the first [len] bytes of the array of an address. *)
Definition addr_bytes (a : netaddr) (len : Z) : prog netst (list Z) :=
  if Z.of_nat (length (na_addr a)) <? len then Fault else mret (take (Z.to_nat len) (na_addr a)).
Definition put_addr (p : Z) (a : netaddr) (len : Z) : prog netst unit :=
  l ← addr_bytes a len; nputs (fun M => stbs M p l).

(** ** Packets: the offsets of [struct packet] *)

Definition pkt_nif (p : Z) : Z := p.
Definition pkt_len (p : Z) : Z := p + 4.
Definition pkt_linkhdr (p : Z) : Z := p + 8.
Definition pkt_nethdr (p : Z) : Z := p + 12.
Definition pkt_curr (p : Z) : Z := p + 16.
Definition pkt_data (p : Z) : Z := p + 22.
Definition sizeof_packet : Z := 24.
Definition NET_MAX_PKTLEN : Z := 1598.

(** [bzero] on memory *)
Definition zero (M : memory) (a n : Z) : memory := stbs M a (replicate (Z.to_nat n) 0).

Definition netGetbuf : prog netst Z :=
  pool ← gets netpool;
  pkt ← scall (bufget pool);
  if pkt =? SYSERR then mret SYSERR
  else
    nputs (fun M => zero M pkt (sizeof_packet + NET_MAX_PKTLEN));;
    nstore (pkt_nif pkt) NULL;;
    nstore (pkt_len pkt) 0;;
    nstore (pkt_curr pkt) (u32 (pkt_data pkt + NET_MAX_PKTLEN));;
    mret pkt.

Definition netFreebuf (pkt : Z) : prog netst Z := scall (buffree pkt).

(** A zeroed [struct netaddr], and a table after [bzero]. *)
Definition netaddr0 : netaddr := mknetaddr 0 0 (replicate (Z.to_nat NET_MAX_ALEN) 0).
Definition rtEntry0 : rtEntry := mkrtEntry RT_FREE 0 netaddr0 netaddr0 netaddr0 NULL.
Definition arpEntry0 : arpEntry := mkarpEntry ARP_FREE NULL netaddr0 netaddr0 0 (replicate ARP_NTHRWAIT 0) 0.
