(* ===== verification/Route.v ===== *)
(** * The route table (network/route/rtInit.c, rtAlloc.c, rtAdd.c, rtDefault.c,
      rtLookup.c, rtRemove.c, rtClear.c, rtRecv.c) *)

From S2P Require Import Prelude Prog Queue Interrupt Memory Kernel Thread Semaphore CString Sys Mailbox BufPool NetAddr Net Lifecycle.

Definition set_rt_state (v : rtstate) (e : rtEntry) : rtEntry :=
  mkrtEntry v (rt_masklen e) (rt_dst e) (rt_gateway e) (rt_mask e) (rt_nif e).
Definition set_rt_masklen (v : Z) (e : rtEntry) : rtEntry :=
  mkrtEntry (rt_state e) v (rt_dst e) (rt_gateway e) (rt_mask e) (rt_nif e).
Definition set_rt_dst (v : netaddr) (e : rtEntry) : rtEntry :=
  mkrtEntry (rt_state e) (rt_masklen e) v (rt_gateway e) (rt_mask e) (rt_nif e).
Definition set_rt_gateway (v : netaddr) (e : rtEntry) : rtEntry :=
  mkrtEntry (rt_state e) (rt_masklen e) (rt_dst e) v (rt_mask e) (rt_nif e).
Definition set_rt_mask (v : netaddr) (e : rtEntry) : rtEntry :=
  mkrtEntry (rt_state e) (rt_masklen e) (rt_dst e) (rt_gateway e) v (rt_nif e).
Definition set_rt_nif (v : Z) (e : rtEntry) : rtEntry :=
  mkrtEntry (rt_state e) (rt_masklen e) (rt_dst e) (rt_gateway e) (rt_mask e) v.

(** [e.gateway.type = v] *)
Definition set_na_type (v : Z) (a : netaddr) : netaddr := mknetaddr v (na_len a) (na_addr a).

(** ** rtAlloc *)

Fixpoint rtAlloc_loop (n i : nat) : prog netst (option nat) :=
  match n with
  | O => mret None
  | S n =>
      e ← rt i;
      if decide (rt_state e = RT_FREE) then upd_rt i (set_rt_state RT_PEND);; mret (Some i)
      else rtAlloc_loop n (S i)
  end.

Definition rtAlloc : prog netst (option nat) :=
  im ← ncall k_disable;
  r ← rtAlloc_loop RT_NENTRY 0;
  ncall (k_restore im);;
  mret r.

(** ** rtAdd *)

(** [while (octet > 0)]: the bits of one octet; eight rounds are enough. *)
Fixpoint octet_bits (fuel : nat) (octet length : Z) : option Z :=
  if 0 <? octet then
    match fuel with
    | O => None
    | S fuel =>
        octet_bits fuel (Z.shiftr octet 1)
          (if negb (Z.land octet 1 =? 0) then u16 (length + 1) else length)
    end
  else Some length.

(** The loop over the octets of the mask: [n] are left, from [addr[i]] on. *)
Fixpoint mask_bits (n : nat) (l : list Z) (length : Z) : option Z :=
  match n with
  | O => Some length
  | S n =>
      match l with
      | [] => None
      | octet :: l => length ← octet_bits 8 octet length; mask_bits n l length
      end
  end.

Definition rtAdd (dst gate mask : option netaddr) (nif : Z) : prog netst Z :=
  match dst, mask with
  | Some dst, Some mask =>
      if nif =? NULL then mret SYSERR
      else
        r ← rtAlloc;
        match r with
        | None => mret SYSERR
        | Some i =>
            upd_rt i (set_rt_dst dst);;
            e ← rt i;
            '(d, _) ← opt (netaddrmask (rt_dst e) mask);
            upd_rt i (set_rt_dst d);;
            match gate with
            | None => upd_rt i (fun e => set_rt_gateway (set_na_type NULL (rt_gateway e)) e)
            | Some gate => upd_rt i (set_rt_gateway gate)
            end;;
            upd_rt i (set_rt_mask mask);;
            upd_rt i (set_rt_nif nif);;
            length ← opt (mask_bits (Z.to_nat (na_len mask)) (na_addr mask) 0);
            upd_rt i (set_rt_masklen length);;
            upd_rt i (set_rt_state RT_USED);;
            mret OK
        end
  | _, _ => mret SYSERR
  end.

(** ** rtDefault *)

(** Is there a used entry with this mask? *)
Fixpoint rtDefault_loop (n i : nat) (mask : netaddr) : prog netst bool :=
  match n with
  | O => mret false
  | S n =>
      e ← rt i;
      found ← (if decide (rt_state e = RT_USED) then opt (netaddrequal (rt_mask e) mask)
               else mret false);
      if (found : bool) then mret true else rtDefault_loop n (S i) mask
  end.

(** The bytes of the local [mask] beyond its length keep what the stack held. *)
Definition rtDefault (garbage : list Z) (gate : option netaddr) (nif : Z) : prog netst Z :=
  match gate with
  | None => mret SYSERR
  | Some gate =>
      if (nif =? NULL) || (NET_MAX_ALEN <? na_len gate) then mret SYSERR
      else
        let len := Z.to_nat (na_len gate) in
        let mask := mknetaddr (na_type gate) (na_len gate) (replicate len 0 ++ drop len garbage) in
        exists' ← rtDefault_loop RT_NENTRY 0 mask;
        if (exists' : bool) then mret OK
        else
          r ← rtAlloc;
          match r with
          | None => mret SYSERR
          | Some i =>
              upd_rt i (set_rt_dst mask);;
              upd_rt i (set_rt_gateway gate);;
              upd_rt i (set_rt_mask mask);;
              upd_rt i (set_rt_nif nif);;
              upd_rt i (set_rt_masklen 0);;
              upd_rt i (set_rt_state RT_USED);;
              mret OK
          end
  end.

(** ** rtLookup *)

Fixpoint rtLookup_loop (n i : nat) (addr : netaddr) (rtptr : option nat) : prog netst (option nat) :=
  match n with
  | O => mret rtptr
  | S n =>
      e ← rt i;
      rtptr ← (if decide (rt_state e = RT_USED) then
                 '(masked, _) ← opt (netaddrmask addr (rt_mask e));
                 equal ← opt (netaddrequal masked (rt_dst e));
                 if (equal : bool) then
                   match rtptr with
                   | None => mret (Some i)
                   | Some j => b ← rt j; mret (if rt_masklen b <? rt_masklen e then Some i else Some j)
                   end
                 else mret rtptr
               else mret rtptr);
      rtLookup_loop n (S i) addr rtptr
  end.

Definition rtLookup (addr : netaddr) : prog netst (option nat) :=
  im ← ncall k_disable;
  rtptr ← rtLookup_loop RT_NENTRY 0 addr None;
  ncall (k_restore im);;
  mret rtptr.

(** ** rtRemove, rtClear *)

Fixpoint rtRemove_loop (n i : nat) (dst : netaddr) : prog netst unit :=
  match n with
  | O => mret tt
  | S n =>
      e ← rt i;
      hit ← (if decide (rt_state e = RT_USED) then opt (netaddrequal dst (rt_dst e)) else mret false);
      (if (hit : bool) then upd_rt i (set_rt_state RT_FREE);; upd_rt i (set_rt_nif NULL) else mret tt);;
      rtRemove_loop n (S i) dst
  end.

Definition rtRemove (dst : option netaddr) : prog netst Z :=
  match dst with
  | None => mret SYSERR
  | Some dst =>
      im ← ncall k_disable;
      rtRemove_loop RT_NENTRY 0 dst;;
      ncall (k_restore im);;
      mret OK
  end.

Fixpoint rtClear_loop (n i : nat) (nif : Z) : prog netst unit :=
  match n with
  | O => mret tt
  | S n =>
      e ← rt i;
      (if bool_decide (rt_state e = RT_USED) && (nif =? rt_nif e)
       then upd_rt i (set_rt_state RT_FREE);; upd_rt i (set_rt_nif NULL) else mret tt);;
      rtClear_loop n (S i) nif
  end.

Definition rtClear (nif : Z) : prog netst Z :=
  if nif =? NULL then mret SYSERR
  else
    im ← ncall k_disable;
    rtClear_loop RT_NENTRY 0 nif;;
    ncall (k_restore im);;
    mret OK.

(** ** rtRecv *)

Definition rtRecv (pkt : Z) : prog netst Z :=
  if pkt =? NULL then mret SYSERR
  else
    im ← ncall k_disable;
    q ← gets rtqueue;
    c ← scall (mailboxCount q);
    if RT_NQUEUE <=? c then ncall (k_restore im);; netFreebuf pkt;; mret OK
    else
      r ← scall (mailboxSend q pkt);
      if r =? SYSERR then ncall (k_restore im);; netFreebuf pkt;; mret SYSERR
      else ncall (k_restore im);; mret OK.

(** ** rtInit *)

Definition NET_THR_PRIO : Z := 30.
Definition NET_THR_STK : Z := 4096.

Fixpoint rtInit_loop (n i : nat) : prog netst unit :=
  match n with
  | O => mret tt
  | S n => upd_rt i (fun _ => rtEntry0);; upd_rt i (set_rt_state RT_FREE);; rtInit_loop n (S i)
  end.

Section init.

(** The addresses of [userret] and of the thread's procedure. *)
Variables initret rtDaemon : Z.

Definition rtInit : prog netst Z :=
  rtInit_loop RT_NENTRY 0;;
  q ← scall (mailboxAlloc RT_NQUEUE);
  modify (set_rtqueue (u32 q));;
  if u32 q =? u32 SYSERR then mret SYSERR
  else
    tid ← ncall (create initret rtDaemon NET_THR_STK NET_THR_PRIO
                   [114; 116; 68; 97; 101; 109; 111; 110; 0] []);
    ncall (ready tid RESCHED_NO);;
    mret OK.

End init.
