(* ===== verification/RouteSpec.v ===== *)
(** * What the routines of the route table do *)

From S2P Require Import Prelude Prog Queue Interrupt Memory Kernel Sys NetAddr NetAddrSpec Net Route.
Local Arguments Z.eqb : simpl never.
Local Arguments Z.ltb : simpl never.

(** ** Sections with interrupts disabled that work on the table *)

Lemma rt_section {A B} (p : prog netst A) (g : A -> prog netst B) n t a :
  vic_ok (irq (nkern n)) ->
  (forall m, rttab m = rttab n -> run p m = Returned (set_rttab t m) a) ->
  run (im ← ncall k_disable; x ← p; ncall (k_restore im);; g x) n = run (g a) (set_rttab t n).
Proof.
  intros Hv Hp. erewrite run_ncall_bind by reflexivity.
  rewrite run_bind, Hp by done. cbn [obind]. erewrite run_ncall_bind by reflexivity.
  f_equal. destruct n as [[[] ? ? ? ?] ? ? ? ? ? ?]. unfold set_nkern, set_rttab, set_sys, set_kern, set_irq, nkern in *.
  simpl in *. by rewrite restore_disable.
Qed.

(** ** Addresses *)

Record wf_addr (a : netaddr) : Prop := {
  wa_len : 0 <= na_len a <= NET_MAX_ALEN;
  wa_arr : length (na_addr a) = Z.to_nat NET_MAX_ALEN;
  wa_bytes : Forall ubyte (na_addr a);
}.

Definition kind (a : netaddr) : Z * Z := (na_type a, na_len a).
(** The octets that count, and those left by a mask. *)
Definition octets (a : netaddr) : list Z := take (Z.to_nat (na_len a)) (na_addr a).
Definition under (a mask : netaddr) : list Z := zip_with Z.land (octets a) (octets mask).

Lemma addr_cmp_spec n l1 l2 : (n <= length l1)%nat -> (n <= length l2)%nat ->
  exists c, addr_cmp n l1 l2 = Some c /\ (c = 0 <-> take n l1 = take n l2).
Proof.
  revert l1 l2. induction n as [|n IH]; intros [|x l1] [|y l2] H1 H2; simpl in *; try lia;
    try (by exists 0).
  destruct (Z.eqb_spec x y) as [->|Hne]; simpl.
  - destruct (IH l1 l2) as (c & E & Hc); [lia|lia|]. exists c. split; [done|]. rewrite Hc.
    split; [by intros ->|by intros [=]].
  - exists (x - y). split; [done|]. split; [lia|by intros [= ? ?]].
Qed.

Lemma netaddrequal_spec a b : wf_addr a -> wf_addr b ->
  netaddrequal a b = Some (bool_decide (kind a = kind b /\ octets a = octets b)).
Proof.
  intros [Ha1 Ha2 _] [Hb1 Hb2 _]. unfold netaddrequal, kind, octets.
  destruct (Z.eqb_spec (na_type a) (na_type b)) as [Et|Et]; simpl.
  2:{ by rewrite bool_decide_eq_false_2 by (intros [[= ? ?] _]; done). }
  destruct (Z.eqb_spec (na_len a) (na_len b)) as [El|El]; simpl.
  2:{ by rewrite bool_decide_eq_false_2 by (intros [[= ? ?] _]; done). }
  destruct (addr_cmp_spec (Z.to_nat (na_len a)) (na_addr a) (na_addr b)) as (c & -> & Hc);
    [unfold NET_MAX_ALEN in *; lia..|].
  cbn [mbind option_bind]. f_equal. rewrite <- El, Et.
  destruct (Z.eqb_spec 0 c) as [Ec|Ec]; simpl; symmetry.
  - apply bool_decide_eq_true_2. split; [done|]. by apply Hc.
  - apply bool_decide_eq_false_2. intros [_ E]. apply Hc in E. lia.
Qed.

Lemma addr_and_spec n f l m : (n <= length l)%nat -> (n <= length m)%nat ->
  addr_and n f l m = Some (zip_with (fun x y => Z.land x (f y)) (take n l) (take n m) ++ drop n l).
Proof.
  revert l m. induction n as [|n IH]; intros [|x l] [|y m] H1 H2; simpl in *; try lia; try done.
  by rewrite IH by lia.
Qed.

Lemma land_byte x y : ubyte x -> ubyte y -> ubyte (Z.land x y).
Proof.
  unfold ubyte. intros Hx Hy. split; [apply Z.land_nonneg; lia|].
  assert (E : Z.land x y = Z.land x y mod 2 ^ 8); [|rewrite E; apply Z.mod_pos_bound; lia].
  rewrite <- Z.land_ones, <- Z.land_assoc, Z.land_ones, (Z.mod_small y) by lia. done.
Qed.

Lemma land_bytes l m : Forall ubyte l -> Forall ubyte m -> Forall ubyte (zip_with Z.land l m).
Proof.
  intros Hl. revert m. induction Hl as [|x l Hx Hl IH]; intros [|y m] Hm; simpl; try by constructor.
  apply Forall_cons in Hm as [Hy Hm]. constructor; [by apply land_byte|by apply IH].
Qed.

Lemma octets_bytes a : wf_addr a -> Forall ubyte (octets a).
Proof. intros [_ _ H]. by apply Forall_take. Qed.

Lemma octets_length a : wf_addr a -> length (octets a) = Z.to_nat (na_len a).
Proof. intros [H1 H2 _]. unfold octets. rewrite length_take. unfold NET_MAX_ALEN in *. lia. Qed.

Lemma netaddrmask_spec a m : wf_addr a -> wf_addr m ->
  exists a' r, netaddrmask a m = Some (a', r) /\ wf_addr a' /\ kind a' = kind a /\
    octets a' = if decide (kind a = kind m) then under a m else octets a.
Proof.
  intros Ha Hm. pose proof (wa_len _ Ha) as Ha1. pose proof (wa_arr _ Ha) as Ha2. pose proof (wa_arr _ Hm) as Hm2.
  unfold netaddrmask, kind.
  destruct (Z.eqb_spec (na_type a) (na_type m)) as [Et|Et]; simpl.
  2:{ exists a, SYSERR. rewrite decide_False by (intros [= ? ?]; done). done. }
  destruct (Z.eqb_spec (na_len a) (na_len m)) as [El|El]; simpl.
  2:{ exists a, SYSERR. rewrite decide_False by (intros [= ? ?]; done). done. }
  rewrite addr_and_spec by (unfold NET_MAX_ALEN in *; lia). cbn [mbind option_bind].
  eexists _, OK. split; [done|]. rewrite decide_True by (by rewrite Et, El).
  assert (Hl : length (zip_with Z.land (octets a) (octets m)) = Z.to_nat (na_len a)).
  { rewrite length_zip_with, !octets_length by done. lia. }
  assert (Hz : zip_with (fun x y => Z.land x y) (take (Z.to_nat (na_len a)) (na_addr a))
                 (take (Z.to_nat (na_len a)) (na_addr m)) = under a m).
  { unfold under, octets. by rewrite El. }
  rewrite Hz. split_and!; [split; simpl|done|].
  - done.
  - unfold under. rewrite length_app, Hl, length_drop. unfold NET_MAX_ALEN in *. lia.
  - apply Forall_app. split; [apply land_bytes; by apply octets_bytes|]. apply Forall_drop, Ha.
  - unfold octets at 1. simpl. rewrite take_app_le by (unfold under; lia). apply take_ge.
    unfold under. lia.
Qed.

(** ** The length of a mask *)

Fixpoint nbits (n : nat) (x : Z) : Z :=
  match n with
  | O => 0
  | S n => Z.b2z (Z.testbit x 0) + nbits n (Z.shiftr x 1)
  end.

(** The number of ones in the octets of the mask. *)
Definition mask_length (m : netaddr) : Z := foldr (fun x s => nbits 8 x + s) 0 (octets m).

Lemma nbits_range n x : 0 <= nbits n x <= Z.of_nat n.
Proof.
  revert x. induction n as [|n IH]; intros x; [simpl; lia|]. cbn [nbits]. specialize (IH (Z.shiftr x 1)).
  destruct (Z.testbit x 0); simpl; lia.
Qed.

Lemma nbits_0 n : nbits n 0 = 0.
Proof. induction n as [|n IH]; [done|]. exact IH. Qed.

Lemma octet_bits_spec n x len : 0 <= x < 2 ^ Z.of_nat n -> 0 <= len -> len + Z.of_nat n < 2 ^ 16 ->
  octet_bits n x len = Some (len + nbits n x).
Proof.
  revert x len. induction n as [|n IH]; intros x len Hx Hl Hb.
  - simpl in *. destruct (Z.ltb_spec 0 x); [lia|]. f_equal. lia.
  - cbn [octet_bits nbits]. destruct (Z.ltb_spec 0 x).
    + assert (Ho : negb (Z.land x 1 =? 0) = Z.testbit x 0).
      { change 1 with (Z.ones 1). rewrite Z.land_ones by lia. change (2 ^ 1) with 2.
        rewrite Z.bit0_odd, Zodd_mod. destruct (Z.eqb_spec (x mod 2) 0) as [E|E].
        - by rewrite E.
        - pose proof (Z.mod_pos_bound x 2). replace (x mod 2) with 1 by lia. done. }
      rewrite Ho. rewrite IH; [|rewrite Z.shiftr_div_pow2 by lia; change (2 ^ 1) with 2;
        rewrite Nat2Z.inj_succ, Z.pow_succ_r in Hx by lia;
        split; [apply Z.div_pos; lia|apply Z.div_lt_upper_bound; lia]|..].
      * f_equal. destruct (Z.testbit x 0); simpl Z.b2z; [|lia]. unfold u16. rewrite Z.mod_small by lia. lia.
      * destruct (Z.testbit x 0); [|done]. unfold u16. rewrite Z.mod_small by lia. lia.
      * destruct (Z.testbit x 0); [|lia]. unfold u16. rewrite Z.mod_small by lia. lia.
    + replace x with 0 by lia. rewrite Z.shiftr_0_l, nbits_0. simpl. f_equal. lia.
Qed.

Lemma mask_bits_spec n l len : (n <= length l)%nat -> Forall ubyte l -> 0 <= len -> len + 8 * Z.of_nat n < 2 ^ 16 ->
  mask_bits n l len = Some (len + foldr (fun x s => nbits 8 x + s) 0 (take n l)).
Proof.
  revert l len. induction n as [|n IH]; intros l len Hn Hu Hl Hb; [simpl; f_equal; lia|].
  destruct l as [|x l]; simpl in Hn; [lia|]. apply Forall_cons in Hu as [Hx Hu]. unfold ubyte in Hx.
  pose proof (nbits_range 8 x). cbn [mask_bits take foldr].
  rewrite octet_bits_spec by lia. cbn [mbind option_bind]. rewrite IH by (done || lia). f_equal. lia.
Qed.

(** ** Entries *)

(** The address belongs to the network of a used entry. *)
Definition matches (addr : netaddr) (e : rtEntry) : Prop :=
  rt_state e = RT_USED /\ kind addr = kind (rt_dst e) /\ under addr (rt_mask e) = octets (rt_dst e).

Record entry_ok (e : rtEntry) : Prop := {
  eo_dst : wf_addr (rt_dst e);
  eo_mask : wf_addr (rt_mask e);
  eo_kind : kind (rt_dst e) = kind (rt_mask e);
  eo_masklen : rt_masklen e = mask_length (rt_mask e);
  eo_net : under (rt_dst e) (rt_mask e) = octets (rt_dst e);
}.

Definition table_ok (tab : list rtEntry) : Prop :=
  length tab = RT_NENTRY /\ Forall (fun e => rt_state e = RT_USED -> entry_ok e) tab.

Lemma table_ok_entry tab i e : table_ok tab -> tab !! i = Some e -> rt_state e = RT_USED -> entry_ok e.
Proof. intros [_ H] E. rewrite Forall_lookup in H. exact (H i e E). Qed.

Lemma table_ok_insert tab i e : table_ok tab -> (rt_state e = RT_USED -> entry_ok e) -> table_ok (<[i := e]> tab).
Proof. intros [H1 H2] He. split; [by rewrite length_insert|]. by apply Forall_insert. Qed.

(** ** rtLookup *)

(** [r] is what a search for [addr] among the first [i] entries gives: the first
    of the matching entries with the longest mask. *)
Definition best (tab : list rtEntry) (addr : netaddr) (r : option nat) (i : nat) : Prop :=
  match r with
  | None => forall j e, (j < i)%nat -> tab !! j = Some e -> ~ matches addr e
  | Some b => (b < i)%nat /\ exists eb, tab !! b = Some eb /\ matches addr eb /\
      forall j e, (j < i)%nat -> tab !! j = Some e -> matches addr e ->
        rt_masklen e <= rt_masklen eb /\ ((j < b)%nat -> rt_masklen e < rt_masklen eb)
  end.

Lemma lt_S_cases (j i : nat) : (j < S i)%nat -> (j < i)%nat \/ j = i.
Proof. lia. Qed.

Lemma best_skip tab addr r i e : best tab addr r i -> tab !! i = Some e -> ~ matches addr e ->
  best tab addr r (S i).
Proof.
  destruct r as [b|]; simpl.
  - intros (Hb & eb & Eb & Hm & H) Ei Hn. split; [lia|]. exists eb. split_and!; [done|done|].
    intros j e' Hj Ej Hmj. apply lt_S_cases in Hj as [Hj| ->]; [eauto|]. congruence.
  - intros H Ei Hn j e' Hj Ej. apply lt_S_cases in Hj as [Hj| ->]; [eauto|]. congruence.
Qed.

Lemma best_take tab addr r i e : best tab addr r i -> tab !! i = Some e -> matches addr e ->
  match r with Some b => exists eb, tab !! b = Some eb /\ rt_masklen eb < rt_masklen e | None => True end ->
  best tab addr (Some i) (S i).
Proof.
  intros H Ei Hm Hr. split; [lia|]. exists e. split_and!; [done|done|].
  intros j e' Hj Ej Hmj. apply lt_S_cases in Hj as [Hj| ->].
  - destruct r as [b|]; [|by destruct (H j e' Hj Ej)].
    destruct Hr as (eb & Eb & Hlt). destruct H as (_ & eb' & Eb' & _ & H). rewrite Eb in Eb'.
    injection Eb' as <-. destruct (H j e' Hj Ej Hmj). lia.
  - rewrite Ei in Ej. injection Ej as <-. lia.
Qed.

Lemma best_keep tab addr b eb i e : best tab addr (Some b) i -> tab !! b = Some eb -> tab !! i = Some e ->
  rt_masklen e <= rt_masklen eb -> best tab addr (Some b) (S i).
Proof.
  intros (Hb & eb' & Eb' & Hm & H) Eb Ei Hle. rewrite Eb in Eb'. injection Eb' as <-.
  split; [lia|]. exists eb. split_and!; [done|done|]. intros j e' Hj Ej Hmj.
  apply lt_S_cases in Hj as [Hj| ->]; [by apply H|]. rewrite Ei in Ej. injection Ej as <-. lia.
Qed.

(** What the loop finds out about one used entry. *)
Lemma match_test addr e : wf_addr addr -> entry_ok e -> rt_state e = RT_USED ->
  exists a r b, netaddrmask addr (rt_mask e) = Some (a, r) /\ netaddrequal a (rt_dst e) = Some b /\
    (b = true <-> matches addr e).
Proof.
  intros Ha [Hd Hm Hk _ _] Hu. destruct (netaddrmask_spec addr (rt_mask e) Ha Hm) as (a & r & E & Hwa & Hka & Ho).
  exists a, r, (bool_decide (kind a = kind (rt_dst e) /\ octets a = octets (rt_dst e))).
  split_and!; [done|by apply netaddrequal_spec|]. rewrite bool_decide_eq_true, Hka, Ho, Hk. unfold matches.
  rewrite Hk. case_decide; [tauto|]. split; [intros [? _]; done|intros (_ & ? & _); done].
Qed.

Lemma rtLookup_loop_spec tab addr n i r s :
  table_ok tab -> rttab s = tab -> wf_addr addr -> (n + i = length tab)%nat -> best tab addr r i ->
  exists r', run (rtLookup_loop n i addr r) s = Returned s r' /\ best tab addr r' (length tab).
Proof.
  intros Ht Es Ha. revert i r. induction n as [|n IH]; intros i r Hn Hb.
  - exists r. split; [done|]. by replace (length tab) with i by lia.
  - destruct (lookup_lt_is_Some_2 tab i ltac:(lia)) as [e Ei].
    cbn [rtLookup_loop]. rewrite (run_rt_bind i e) by (by rewrite Es). rewrite run_bind.
    assert (Hnext : forall r', best tab addr r' (S i) ->
      exists r'', run (rtLookup_loop n (S i) addr r') s = Returned s r'' /\ best tab addr r'' (length tab)).
    { intros r' Hr'. apply IH; [lia|done]. }
    destruct (decide (rt_state e = RT_USED)) as [Hu|Hu].
    2:{ apply Hnext. apply (best_skip _ _ _ _ e); [done|done|]. by intros [? _]. }
    destruct (match_test addr e Ha (table_ok_entry _ _ _ Ht Ei Hu) Hu) as (a & x & b & E1 & E2 & Hiff).
    rewrite (run_opt_bind _ _ _ _ E1). cbn beta iota. rewrite (run_opt_bind _ _ _ _ E2).
    destruct b.
    2:{ apply Hnext. apply (best_skip _ _ _ _ e); [done|done|]. by intros Hm%Hiff. }
    assert (Hm : matches addr e) by (by apply Hiff). destruct r as [b|].
    + destruct Hb as (Hlt & eb & Eb & Hrest). rewrite (run_rt_bind b eb) by (by rewrite Es).
      assert (Hb : best tab addr (Some b) i) by (split; [done|]; by exists eb).
      apply Hnext. destruct (Z.ltb_spec (rt_masklen eb) (rt_masklen e)).
      * apply (best_take _ _ _ _ e Hb Ei Hm). by exists eb.
      * by apply (best_keep _ _ _ eb _ e).
    + apply Hnext. by apply (best_take _ _ _ _ e Hb Ei Hm).
Qed.

Lemma set_rttab_id n : set_rttab (rttab n) n = n.
Proof. by destruct n. Qed.

Lemma rtLookup_spec addr n : vic_ok (irq (nkern n)) -> table_ok (rttab n) -> wf_addr addr ->
  exists r, run (rtLookup addr) n = Returned n r /\ best (rttab n) addr r RT_NENTRY.
Proof.
  intros Hv Ht Ha. pose proof (proj1 Ht) as Hl.
  assert (H : forall m, rttab m = rttab n -> exists r', run (rtLookup_loop RT_NENTRY 0 addr None) m = Returned m r'
    /\ best (rttab n) addr r' RT_NENTRY).
  { intros m Hm. rewrite <- Hl. apply rtLookup_loop_spec; [done|done|done|lia|]. simpl. lia. }
  assert (Hr : exists r, best (rttab n) addr r RT_NENTRY /\ forall m, rttab m = rttab n ->
    run (rtLookup_loop RT_NENTRY 0 addr None) m = Returned m r).
  { destruct (H n eq_refl) as (r & E & Hb). exists r. split; [done|]. intros m Hm.
    destruct (H m Hm) as (r' & E' & Hb'). rewrite E'. f_equal. revert Hb Hb'.
    destruct r as [b|], r' as [b'|]; simpl; [|intros (Hb & eb & Eb & Hme & _) Hn; by destruct (Hn b eb Hb Eb)
      |intros Hn (Hb & eb & Eb & Hme & _); by destruct (Hn b' eb Hb Eb)|done].
    intros (Hb & eb & Eb & Hme & Hx) (Hb' & eb' & Eb' & Hme' & Hx').
    destruct (Hx b' eb' Hb' Eb' Hme'), (Hx' b eb Hb Eb Hme). f_equal. lia. }
  destruct Hr as (r & Hb & Hr). exists r. split; [|done]. unfold rtLookup.
  rewrite (rt_section _ _ n (rttab n) r Hv); [by rewrite set_rttab_id|].
  intros m Hm. rewrite (Hr m Hm). by rewrite <- Hm, set_rttab_id.
Qed.

(** ** rtAlloc *)

Definition first_free (tab : list rtEntry) (i : nat) (e : rtEntry) : Prop :=
  tab !! i = Some e /\ rt_state e = RT_FREE /\
  forall j ej, (j < i)%nat -> tab !! j = Some ej -> rt_state ej <> RT_FREE.
Definition none_free (tab : list rtEntry) : Prop := Forall (fun e => rt_state e <> RT_FREE) tab.

Lemma rtAlloc_loop_spec tab n i : (n + i = length tab)%nat ->
  (forall j ej, (j < i)%nat -> tab !! j = Some ej -> rt_state ej <> RT_FREE) ->
  (none_free tab /\ forall s, rttab s = tab -> run (rtAlloc_loop n i) s = Returned s None) \/
  exists b e, first_free tab b e /\ forall s, rttab s = tab ->
    run (rtAlloc_loop n i) s = Returned (set_rttab (<[b := set_rt_state RT_PEND e]> tab) s) (Some b).
Proof.
  revert i. induction n as [|n IH]; intros i Hn Hf.
  - left. split; [|done]. apply Forall_lookup. intros j e Ej. apply (Hf j); [|done].
    apply lookup_lt_Some in Ej. lia.
  - destruct (lookup_lt_is_Some_2 tab i ltac:(lia)) as [e Ei].
    destruct (decide (rt_state e = RT_FREE)) as [He|He].
    + right. exists i, e. split; [done|]. intros s Es. cbn [rtAlloc_loop].
      rewrite (run_rt_bind i e) by (by rewrite Es). rewrite decide_True by done.
      rewrite (run_upd_rt_bind i _ e) by (by rewrite Es). by rewrite Es.
    + destruct (IH (S i)) as [[Hx H]|(b & eb & Hb & H)]; [lia| | |].
      * intros j ej Hj Ej. apply lt_S_cases in Hj as [Hj| ->]; [by apply (Hf j)|congruence].
      * left. split; [done|]. intros s Es. cbn [rtAlloc_loop]. rewrite (run_rt_bind i e) by (by rewrite Es).
        rewrite decide_False by done. by apply H.
      * right. exists b, eb. split; [done|]. intros s Es. cbn [rtAlloc_loop].
        rewrite (run_rt_bind i e) by (by rewrite Es). rewrite decide_False by done. by apply H.
Qed.

Lemma rtAlloc_spec n : vic_ok (irq (nkern n)) -> length (rttab n) = RT_NENTRY ->
  (none_free (rttab n) /\ run rtAlloc n = Returned n None) \/
  exists i e, first_free (rttab n) i e /\
    run rtAlloc n = Returned (set_rttab (<[i := set_rt_state RT_PEND e]> (rttab n)) n) (Some i).
Proof.
  intros Hv Hl. destruct (rtAlloc_loop_spec (rttab n) RT_NENTRY 0) as [[Hx H]|(b & e & Hb & H)]; [lia|lia| |].
  - left. split; [done|]. unfold rtAlloc. rewrite (rt_section _ _ n (rttab n) None Hv); [by rewrite set_rttab_id|].
    intros m Hm. rewrite (H m Hm). by rewrite <- Hm, set_rttab_id.
  - right. exists b, e. split; [done|]. unfold rtAlloc.
    by rewrite (rt_section _ _ n (<[b := set_rt_state RT_PEND e]> (rttab n)) (Some b) Hv).
Qed.

(** Two assignments to the fields of one entry are one. *)
Lemma run_upd_rt_in {B} i f e tab (g : unit -> prog netst B) n : (i < length tab)%nat ->
  run (upd_rt i f ≫= g) (set_rttab (<[i := e]> tab) n) = run (g tt) (set_rttab (<[i := f e]> tab) n).
Proof.
  intros Hi. rewrite (run_upd_rt_bind i f e) by (simpl; by apply list_lookup_insert_eq).
  simpl. by rewrite list_insert_insert_eq.
Qed.

Lemma run_rt_in {B} i e tab (g : rtEntry -> prog netst B) n : (i < length tab)%nat ->
  run (rt i ≫= g) (set_rttab (<[i := e]> tab) n) = run (g e) (set_rttab (<[i := e]> tab) n).
Proof. intros Hi. apply run_rt_bind. simpl. by apply list_lookup_insert_eq. Qed.

(** ** rtAdd *)

(** The entry [rtAdd] makes: [old] was in its place. *)
Definition route_entry (old : rtEntry) (d : netaddr) (gate : option netaddr) (mask : netaddr) (nif : Z) : rtEntry :=
  mkrtEntry RT_USED (mask_length mask) d
    (match gate with None => set_na_type NULL (rt_gateway old) | Some g => g end) mask nif.

Lemma rtAdd_spec dst gate mask nif n :
  vic_ok (irq (nkern n)) -> length (rttab n) = RT_NENTRY -> wf_addr dst -> wf_addr mask -> nif <> NULL ->
  (none_free (rttab n) /\ run (rtAdd (Some dst) gate (Some mask) nif) n = Returned n SYSERR) \/
  exists i e d r, first_free (rttab n) i e /\ netaddrmask dst mask = Some (d, r) /\
    run (rtAdd (Some dst) gate (Some mask) nif) n =
    Returned (set_rttab (<[i := route_entry e d gate mask nif]> (rttab n)) n) OK.
Proof.
  intros Hv Hl Hd Hm Hnif. unfold rtAdd. destruct (Z.eqb_spec nif NULL); [done|].
  destruct (rtAlloc_spec n Hv Hl) as [[Hf E]|(i & e & Hf & E)].
  - left. split; [done|]. by rewrite run_bind, E.
  - right. destruct (netaddrmask_spec dst mask Hd Hm) as (d & r & Em & _).
    exists i, e, d, r. split_and!; [done|done|]. rewrite run_bind, E. cbn [obind].
    assert (Hi : (i < length (rttab n))%nat) by (by eapply lookup_lt_Some, Hf).
    rewrite run_upd_rt_in by done. rewrite run_rt_in by done. cbn [rt_dst set_rt_dst].
    rewrite (run_opt_bind _ _ _ _ Em). cbn beta iota. rewrite run_upd_rt_in by done.
    assert (Hbits : mask_bits (Z.to_nat (na_len mask)) (na_addr mask) 0 = Some (mask_length mask)).
    { pose proof (wa_len _ Hm). pose proof (wa_arr _ Hm). unfold NET_MAX_ALEN in *.
      rewrite mask_bits_spec; [|lia|apply Hm|lia|lia]. f_equal. }
    destruct gate as [g|]; rewrite !run_upd_rt_in, (run_opt_bind _ _ _ _ Hbits), !run_upd_rt_in by done; done.
Qed.

(** The entry is a good one if network and mask are of a kind. *)
Lemma route_entry_ok old dst d r gate mask nif : wf_addr dst -> wf_addr mask -> kind dst = kind mask ->
  netaddrmask dst mask = Some (d, r) ->
  entry_ok (route_entry old d gate mask nif) /\ kind d = kind dst /\ octets d = under dst mask.
Proof.
  intros Hd Hm Hk E. destruct (netaddrmask_spec dst mask Hd Hm) as (d' & r' & E' & Hw & Hkd & Ho).
  rewrite E in E'. injection E' as <- <-. rewrite decide_True in Ho by done.
  split; [|done]. split; simpl; [done|done|congruence|done|].
  unfold under at 1. rewrite Ho. unfold under. generalize (octets dst) (octets mask).
  intros l m. revert m. induction l as [|x l IH]; intros [|y m]; simpl; [done..|].
  by rewrite IH, <- Z.land_assoc, Z.land_diag.
Qed.

(** ** rtRemove and rtClear *)

Definition rt_drop (e : rtEntry) : rtEntry := set_rt_nif NULL (set_rt_state RT_FREE e).

Lemma run_drop {B} l1 e l2 (g : unit -> prog netst B) s : rttab s = l1 ++ e :: l2 ->
  run ((upd_rt (length l1) (set_rt_state RT_FREE);; upd_rt (length l1) (set_rt_nif NULL)) ≫= g) s
  = run (g tt) (set_rttab (l1 ++ rt_drop e :: l2) s).
Proof.
  intros E. assert (Hl : rttab s !! length l1 = Some e) by (rewrite E; by apply list_lookup_middle).
  rewrite run_bind, (run_upd_rt_bind _ _ e) by done. unfold upd_rt, lift. cbn [run rttab set_rttab].
  rewrite E, insert_app_r_alt, Nat.sub_diag by lia. simpl (<[0%nat := _]> _).
  rewrite list_lookup_middle by done. cbn [mbind option_bind run obind].
  rewrite insert_app_r_alt, Nat.sub_diag by lia. done.
Qed.

(** A loop over the table that replaces each entry [e] by [f e]. *)
Lemma sweep (loop : nat -> nat -> prog netst unit) (P : rtEntry -> Prop) (f : rtEntry -> rtEntry) :
  (forall i, loop O i = mret tt) ->
  (forall n l1 e l2 s, P e -> rttab s = l1 ++ e :: l2 ->
    run (loop (S n) (length l1)) s = run (loop n (S (length l1))) (set_rttab (l1 ++ f e :: l2) s)) ->
  forall l1 l2 s, Forall P l2 -> rttab s = l1 ++ l2 ->
    run (loop (length l2) (length l1)) s = Returned (set_rttab (l1 ++ (f <$> l2)) s) tt.
Proof.
  intros H0 HS l1 l2. revert l1. induction l2 as [|e l2 IH]; intros l1 s Hf Es.
  - simpl. rewrite H0. simpl. by rewrite <- Es, set_rttab_id.
  - apply Forall_cons in Hf as [He Hf]. cbn [length fmap list_fmap]. rewrite (HS _ l1 e l2) by done.
    specialize (IH (l1 ++ [f e]) (set_rttab (l1 ++ f e :: l2) s) Hf). rewrite <- !app_assoc, length_app in IH.
    simpl in IH. rewrite Nat.add_1_r in IH. by rewrite IH.
Qed.

(** Nothing to change. *)
Lemma set_rttab_same l1 e l2 s : rttab s = l1 ++ e :: l2 -> set_rttab (l1 ++ e :: l2) s = s.
Proof. intros <-. apply set_rttab_id. Qed.

(** Does [rtRemove(dst)] remove the entry, does [rtClear(nif)]? *)
Definition removed (dst : netaddr) (e : rtEntry) : Prop :=
  rt_state e = RT_USED /\ kind dst = kind (rt_dst e) /\ octets dst = octets (rt_dst e).
Definition cleared (nif : Z) (e : rtEntry) : Prop := rt_state e = RT_USED /\ nif = rt_nif e.

#[export] Instance removed_dec dst e : Decision (removed dst e).
Proof. unfold removed. apply _. Defined.
#[export] Instance cleared_dec nif e : Decision (cleared nif e).
Proof. unfold cleared. apply _. Defined.

Lemma rtRemove_spec dst n : vic_ok (irq (nkern n)) -> table_ok (rttab n) -> wf_addr dst ->
  run (rtRemove (Some dst)) n =
  Returned (set_rttab ((fun e => if decide (removed dst e) then rt_drop e else e) <$> rttab n) n) OK.
Proof.
  intros Hv [Hl Hf] Hd. unfold rtRemove. erewrite (rt_section _ _ n _ tt Hv); [done|]. intros m Hm. rewrite <- Hl.
  apply (sweep (fun n i => rtRemove_loop n i dst) (fun e => rt_state e = RT_USED -> entry_ok e) _) with (l1 := []);
    [done| |done|done].
  intros k l1 e l2 s He Es. cbn [rtRemove_loop].
  rewrite (run_rt_bind _ e) by (rewrite Es; by apply list_lookup_middle).
  destruct (decide (rt_state e = RT_USED)) as [Hu|Hu].
  - rewrite (run_opt_bind _ _ _ _ (netaddrequal_spec _ _ Hd (eo_dst _ (He Hu)))).
    case_bool_decide as Hb.
    + rewrite (run_drop l1 e l2) by done. by rewrite decide_True.
    + rewrite decide_False by (unfold removed; tauto). by rewrite set_rttab_same.
  - rewrite decide_False by (unfold removed; tauto). by rewrite set_rttab_same.
Qed.

Lemma rtClear_spec nif n : vic_ok (irq (nkern n)) -> length (rttab n) = RT_NENTRY -> nif <> NULL ->
  run (rtClear nif) n =
  Returned (set_rttab ((fun e => if decide (cleared nif e) then rt_drop e else e) <$> rttab n) n) OK.
Proof.
  intros Hv Hl Hn. unfold rtClear. destruct (Z.eqb_spec nif NULL); [done|].
  erewrite (rt_section _ _ n _ tt Hv); [done|]. intros m Hm. rewrite <- Hl.
  apply (sweep (fun n i => rtClear_loop n i nif) (fun _ => True)) with (l1 := []);
    [done| |by apply Forall_true|done].
  intros k l1 e l2 s _ Es. cbn [rtClear_loop].
  rewrite (run_rt_bind _ e) by (rewrite Es; by apply list_lookup_middle).
  assert (Hb : bool_decide (rt_state e = RT_USED) && (nif =? rt_nif e) = bool_decide (cleared nif e)).
  { unfold cleared. destruct (Z.eqb_spec nif (rt_nif e)); repeat case_bool_decide; tauto. }
  rewrite Hb. destruct (decide (cleared nif e)) as [Hc|Hc].
  - rewrite bool_decide_eq_true_2 by done. by rewrite (run_drop l1 e l2).
  - rewrite bool_decide_eq_false_2 by done. by rewrite set_rttab_same.
Qed.

Lemma table_ok_fmap f tab : table_ok tab -> (forall e, f e = e \/ rt_state (f e) <> RT_USED) ->
  table_ok (f <$> tab).
Proof.
  intros [Hl H] Hf. split; [by rewrite length_fmap|]. apply Forall_fmap. eapply Forall_impl; [exact H|].
  simpl. intros e He Hu. destruct (Hf e) as [E|E]; [rewrite E in *; auto|done].
Qed.

Lemma rtInit_loop_spec n : length (rttab n) = RT_NENTRY ->
  run (rtInit_loop RT_NENTRY 0) n = Returned (set_rttab (replicate RT_NENTRY rtEntry0) n) tt.
Proof.
  intros Hl. rewrite <- Hl. rewrite (sweep rtInit_loop (fun _ => True) (fun _ => rtEntry0)) with (l1 := []);
    [|done| |by apply Forall_true|done].
  - rewrite Hl. do 2 f_equal. change ([] ++ ?l) with l. rewrite <- Hl. generalize (rttab n). clear.
    intros l. by induction l as [|e l IH]; [|rewrite fmap_cons, IH].
  - intros k l1 e l2 s _ Es. cbn [rtInit_loop].
    assert (H1 : rttab s !! length l1 = Some e) by (rewrite Es; by apply list_lookup_middle).
    rewrite (run_upd_rt_bind _ _ e) by done.
    rewrite (run_upd_rt_bind _ _ rtEntry0) by (simpl; apply list_lookup_insert_eq; by eapply lookup_lt_Some).
    simpl. rewrite list_insert_insert_eq, Es, insert_app_r_alt, Nat.sub_diag by lia. done.
Qed.

(** ** rtDefault *)

(** The zero mask the code builds for a gateway. *)
Definition default_mask (garbage : list Z) (gate : netaddr) : netaddr :=
  mknetaddr (na_type gate) (na_len gate)
    (replicate (Z.to_nat (na_len gate)) 0 ++ drop (Z.to_nat (na_len gate)) garbage).

Lemma default_mask_wf garbage gate : wf_addr gate -> length garbage = Z.to_nat NET_MAX_ALEN ->
  Forall ubyte garbage -> wf_addr (default_mask garbage gate).
Proof.
  intros [H1 _ _] Hg Hb. split; simpl; [done| |].
  - rewrite length_app, length_replicate, length_drop. unfold NET_MAX_ALEN in *. lia.
  - apply Forall_app. split; [|by apply Forall_drop]. apply Forall_replicate. unfold ubyte. lia.
Qed.

Lemma default_mask_octets garbage gate : octets (default_mask garbage gate) = replicate (Z.to_nat (na_len gate)) 0.
Proof. unfold octets. simpl. rewrite take_app_le by (by rewrite length_replicate). apply take_ge. by rewrite length_replicate. Qed.

Lemma rtDefault_loop_spec tab mask n i : table_ok tab -> wf_addr mask -> (n + i = length tab)%nat ->
  exists b : bool, forall s, rttab s = tab -> run (rtDefault_loop n i mask) s = Returned s b.
Proof.
  intros Ht Hm. revert i. induction n as [|n IH]; intros i Hn; [by exists false|].
  destruct (lookup_lt_is_Some_2 tab i ltac:(lia)) as [e Ei].
  destruct (IH (S i) ltac:(lia)) as [b Hb]. cbn [rtDefault_loop].
  destruct (decide (rt_state e = RT_USED)) as [Hu|Hu].
  - pose proof (netaddrequal_spec _ _ (eo_mask _ (table_ok_entry _ _ _ Ht Ei Hu)) Hm) as E.
    case_bool_decide as Hc.
    + exists true. intros s Es. rewrite (run_rt_bind i e) by (by rewrite Es). rewrite decide_True by done.
      by rewrite (run_opt_bind _ _ _ _ E).
    + exists b. intros s Es. rewrite (run_rt_bind i e) by (by rewrite Es). rewrite decide_True by done.
      rewrite (run_opt_bind _ _ _ _ E). by apply Hb.
  - exists b. intros s Es. rewrite (run_rt_bind i e) by (by rewrite Es). rewrite decide_False by done. by apply Hb.
Qed.

(** [rtDefault] leaves the table alone or enters a route for every address. *)
Lemma rtDefault_spec garbage gate nif n :
  vic_ok (irq (nkern n)) -> table_ok (rttab n) -> wf_addr gate -> nif <> NULL ->
  length garbage = Z.to_nat NET_MAX_ALEN -> Forall ubyte garbage ->
  (exists r, run (rtDefault garbage (Some gate) nif) n = Returned n r) \/
  exists i e, first_free (rttab n) i e /\
    run (rtDefault garbage (Some gate) nif) n =
    Returned (set_rttab (<[i := mkrtEntry RT_USED 0 (default_mask garbage gate) gate (default_mask garbage gate) nif]>
      (rttab n)) n) OK.
Proof.
  intros Hv Ht Hg Hnif Hl Hb. unfold rtDefault. destruct (Z.eqb_spec nif NULL); [done|].
  pose proof (wa_len _ Hg). destruct (Z.ltb_spec NET_MAX_ALEN (na_len gate)); [lia|]. simpl orb. cbv iota.
  fold (default_mask garbage gate). pose proof (default_mask_wf garbage gate Hg Hl Hb) as Hm.
  destruct (rtDefault_loop_spec (rttab n) (default_mask garbage gate) RT_NENTRY 0 Ht Hm) as [b Hloop];
    [rewrite (proj1 Ht); lia|].
  rewrite run_bind, Hloop by done. cbn [obind]. destruct b; [left; by eexists|].
  destruct (rtAlloc_spec n Hv (proj1 Ht)) as [[Hf E]|(i & e & Hf & E)].
  - left. eexists. by rewrite run_bind, E.
  - right. exists i, e. split; [done|]. rewrite run_bind, E. cbn [obind].
    assert (Hi : (i < length (rttab n))%nat) by (by eapply lookup_lt_Some, Hf).
    by rewrite !run_upd_rt_in.
Qed.

Lemma default_entry_ok garbage gate nif : wf_addr gate -> length garbage = Z.to_nat NET_MAX_ALEN ->
  Forall ubyte garbage ->
  entry_ok (mkrtEntry RT_USED 0 (default_mask garbage gate) gate (default_mask garbage gate) nif).
Proof.
  intros Hg Hl Hb. pose proof (default_mask_wf garbage gate Hg Hl Hb). split; simpl; [done|done|done| |].
  - unfold mask_length. rewrite default_mask_octets. by induction (Z.to_nat (na_len gate)) as [|k IH]; simpl.
  - unfold under. rewrite default_mask_octets. by induction (Z.to_nat (na_len gate)) as [|k IH]; simpl; [|rewrite IH].
Qed.
