(* ===== verification/NetProps.v ===== *)
(** * Properties of the checksum and of the route table *)

From S2P Require Import Prelude Prog Queue Interrupt Memory Kernel CString CStringSpec NetAddr NetAddrSpec Sys MailboxSpec Net Route RouteSpec.

Local Coercion Z.of_nat : nat >-> Z.
Local Arguments Z.eqb : simpl never.
Local Arguments Z.ltb : simpl never.

(** ** The Internet checksum *)

Lemma ones_max s : 0 < s -> s mod 65535 = 0 -> ones s = 65535.
Proof.
  intros Hs E. rewrite (ones_cong s 65535 Hs) by (done || lia). apply ones_small. lia.
Qed.

Lemma ones_mod s : 0 <= s -> ones s mod 65535 = s mod 65535.
Proof.
  intros Hs. unfold ones. destruct (Z.eqb_spec s 0); [by subst|].
  rewrite Zplus_mod_idemp_l. f_equal. lia.
Qed.

Lemma checksum_word s : 0 <= s -> ones (s + (65535 - ones s)) = 65535.
Proof.
  intros Hs. pose proof (ones_range s Hs) as Hr. pose proof (ones_mod s Hs) as Hm.
  apply ones_max.
  - destruct (Z.eqb_spec s 0) as [-> |]; [done|]. lia.
  - replace (s + (65535 - ones s)) with (s - ones s + 1 * 65535) by lia. rewrite Z.mod_add by lia.
    by rewrite Zminus_mod, Hm, Z.sub_diag.
Qed.

(** Changing one word of a block that verifies. *)
Lemma changed_word s w w' : 0 <= s -> 0 <= w < 65536 -> 0 <= w' < 65536 -> ones (s + w) = 65535 ->
  ones (s + w') = 65535 -> w' = w \/ w = 0 /\ w' = 65535 \/ w = 65535 /\ w' = 0.
Proof.
  intros Hs Hw Hw' E E'. pose proof (ones_mod (s + w) ltac:(lia)) as M. pose proof (ones_mod (s + w') ltac:(lia)) as M'.
  rewrite E in M. rewrite E' in M'. change (65535 mod 65535) with 0 in *. symmetry in M, M'.
  apply Z.mod_divide in M as [a Ha]; [|lia]. apply Z.mod_divide in M' as [b Hb]; [|lia].
  assert (Hd : w' - w = 65535 * (b - a)) by lia. assert (-1 <= b - a <= 1) by lia.
  assert (b - a = -1 \/ b - a = 0 \/ b - a = 1) as [F|[F|F]] by lia; rewrite F in Hd; lia.
Qed.

(** C33: netChksum_verifies.  Let a block of bytes have a 16-bit field at an even
    offset.  With the field zero, [netChksum] returns a 16-bit number; stored in
    the field (low byte first), it makes [netChksum] of the block 0, which is how
    receivers check it; and then any other value of any one word of the block
    makes the check fail, except that the all-zeros and the all-ones word are not
    told apart.  Both loops terminate for every block of up to 128K bytes. *)
Theorem netChksum_verifies m p l1 l2 :
  Nat.even (length l1) = true -> Forall ubyte (l1 ++ l2) -> length l1 + length l2 + 2 < 2 ^ 17 ->
  bytes_at m p (l1 ++ [0; 0] ++ l2) ->
  exists c, netChksum m p (length (l1 ++ [0; 0] ++ l2)) = Some c /\ 0 <= c < 65536 /\
    let block := l1 ++ [c mod 256; c / 256] ++ l2 in
    (forall m', bytes_at m' p block -> netChksum m' p (length block) = Some 0) /\
    (forall m' k1 k2 lo hi lo' hi', block = k1 ++ [lo; hi] ++ k2 -> Nat.even (length k1) = true ->
      ubyte lo' -> ubyte hi' -> bytes_at m' p (k1 ++ [lo'; hi'] ++ k2) ->
      netChksum m' p (length block) = Some 0 ->
      lo' = lo /\ hi' = hi \/ lo = 0 /\ hi = 0 /\ lo' = 255 /\ hi' = 255
      \/ lo = 255 /\ hi = 255 /\ lo' = 0 /\ hi' = 0).
Proof.
  intros Hev Hu Hlen Hb. apply Forall_app in Hu as [Hu1 Hu2].
  assert (Hz : forall l x y, Forall ubyte l -> ubyte x -> ubyte y -> Forall ubyte (x :: y :: l)) by 
    (intros; constructor; [done|by constructor]).
  assert (H0 : ubyte 0) by (unfold ubyte; lia).
  set (S := wsum l1 + wsum l2). pose proof (wsum_bound l1 Hu1). pose proof (wsum_bound l2 Hu2).
  assert (HS : 0 <= S) by lia. pose proof (ones_range S HS).
  exists (65535 - ones S). split; [|split; [lia|]].
  { rewrite netChksum_spec; [|done|apply Forall_app; simpl; auto|rewrite !length_app; simpl; lia].
    rewrite wsum_app by done. cbn [app]. rewrite wsum_word. do 2 f_equal; lia || (f_equal; lia). }
  set (c := 65535 - ones S) in *. set (block := l1 ++ [c mod 256; c / 256] ++ l2). cbv zeta.
  assert (Hc : ubyte (c mod 256) /\ ubyte (c / 256)).
  { unfold ubyte. split; [apply Z.mod_pos_bound; lia|]. split; [apply Z.div_pos; lia|apply Z.div_lt_upper_bound; lia]. }
  assert (Hub : Forall ubyte block) by (apply Forall_app; simpl; destruct Hc; auto).
  assert (Hlb : Z.of_nat (length block) < 2 ^ 17) by (unfold block; rewrite !length_app; simpl; lia).
  assert (Hw : wsum block = S + c).
  { unfold block. rewrite wsum_app by done. cbn [app]. rewrite wsum_word.
    pose proof (Z.div_mod c 256 ltac:(lia)). lia. }
  assert (Hones : ones (wsum block) = 65535) by (rewrite Hw; by apply checksum_word).
  split; [intros m' Hm'; by rewrite netChksum_spec, Hones|].
  intros m' k1 k2 lo hi lo' hi' Eb Hk Hlo' Hhi' Hm' E'.
  rewrite Eb in Hub, Hones, E'. apply Forall_app in Hub as [Hk1 Hub]. apply Forall_cons in Hub as [Hlo Hub].
  apply Forall_cons in Hub as [Hhi Hk2].
  assert (El : length (k1 ++ [lo; hi] ++ k2) = length (k1 ++ [lo'; hi'] ++ k2)) by (by rewrite !length_app).
  rewrite El in E'. rewrite Eb, El in Hlb.
  rewrite netChksum_spec in E'; [|done|apply Forall_app; simpl; auto|done]. injection E' as E'.
  rewrite !wsum_app in * by done. cbn [app] in *. rewrite !wsum_word in *.
  pose proof (wsum_bound k1 Hk1). pose proof (wsum_bound k2 Hk2). unfold ubyte in *.
  destruct (changed_word (wsum k1 + wsum k2) (lo + 256 * hi) (lo' + 256 * hi')) as [F|[F|F]]; [lia|lia|lia| | |lia|lia|lia].
  - by replace (wsum k1 + wsum k2 + (lo + 256 * hi)) with
      (wsum k1 + (lo + 256 * hi + wsum [] + wsum k2)) by (simpl; lia).
  - replace (wsum k1 + wsum k2 + (lo' + 256 * hi')) with (wsum k1 + (lo' + 256 * hi' + wsum k2)) by lia. lia.
Qed.

Lemma netChksum_verifies_witness :
  let m := list_to_map (zip (seqZ 100 6) [0x45; 0x00; 0; 0; 0x01; 0x7f]) : cmem in
  exists c, netChksum m 100 6 = Some c /\ 0 <= c < 65536 /\
    (forall m', bytes_at m' 100 ([0x45; 0x00] ++ [c mod 256; c / 256] ++ [0x01; 0x7f]) -> netChksum m' 100 6 = Some 0).
Proof.
  intros m. destruct (netChksum_verifies m 100 [0x45; 0x00] [0x01; 0x7f]) as (c & E & Hc & H & _).
  - reflexivity.
  - repeat constructor; unfold ubyte; simpl; lia.
  - simpl. lia.
  - repeat split.
  - exists c. split; [exact E|]. split; [exact Hc|exact H].
Defined.

(** ** The route table *)

(** Calls that change the table, with the interface they are made for. *)
Inductive rtop : Type :=
| RtAdd (dst gate mask : option netaddr) (nif : Z)
| RtDefault (garbage : list Z) (gate : option netaddr) (nif : Z)
| RtRemove (dst : option netaddr)
| RtClear (nif : Z).

Definition run_rtop (o : rtop) : prog netst Z :=
  match o with
  | RtAdd dst gate mask nif => rtAdd dst gate mask nif
  | RtDefault garbage gate nif => rtDefault garbage gate nif
  | RtRemove dst => rtRemove dst
  | RtClear nif => rtClear nif
  end.

Fixpoint run_rtops (os : list rtop) : prog netst unit :=
  match os with
  | [] => mret tt
  | o :: os => run_rtop o;; run_rtops os
  end.

(** The addresses are well-formed, and network and mask of the same kind. *)
Definition rtop_ok (o : rtop) : Prop :=
  match o with
  | RtAdd (Some dst) _ (Some mask) _ => wf_addr dst /\ wf_addr mask /\ kind dst = kind mask
  | RtDefault garbage (Some gate) _ =>
      wf_addr gate /\ length garbage = Z.to_nat NET_MAX_ALEN /\ Forall ubyte garbage
  | RtRemove (Some dst) => wf_addr dst
  | _ => True
  end.

Lemma rtop_spec o n : vic_ok (irq (nkern n)) -> table_ok (rttab n) -> rtop_ok o ->
  exists t r, run (run_rtop o) n = Returned (set_rttab t n) r /\ table_ok t.
Proof.
  intros Hv Ht Ho. pose proof (proj1 Ht) as Hl.
  assert (Hid : forall (p : prog netst Z) r, run p n = Returned n r ->
    exists t r, run p n = Returned (set_rttab t n) r /\ table_ok t).
  { intros p r E. exists (rttab n), r. by rewrite set_rttab_id. }
  destruct o as [[dst|] gate [mask|] nif|garbage [gate|] nif|[dst|]|nif]; cbn [run_rtop rtop_ok] in *;
    try (by eapply Hid).
  - destruct Ho as (Hd & Hm & Hk). destruct (decide (nif = NULL)) as [-> |Hn]; [by eapply Hid|].
    destruct (rtAdd_spec dst gate mask nif n Hv Hl Hd Hm Hn) as [[_ E]|(i & e & d & r & _ & Em & E)]; [by eapply Hid|].
    rewrite E. do 2 eexists. split; [done|]. apply table_ok_insert; [done|]. intros _.
    exact (proj1 (route_entry_ok _ dst d r _ _ _ Hd Hm Hk Em)).
  - destruct Ho as (Hg & Hl' & Hb). destruct (decide (nif = NULL)) as [-> |Hn]; [by eapply Hid|].
    destruct (rtDefault_spec garbage gate nif n Hv Ht Hg Hn Hl' Hb) as [[r E]|(i & e & _ & E)]; [by eapply Hid|].
    rewrite E. do 2 eexists. split; [done|]. apply table_ok_insert; [done|]. intros _. by apply default_entry_ok.
  - rewrite rtRemove_spec by done. do 2 eexists. split; [done|]. apply table_ok_fmap; [done|].
    intros e. case_decide; [by right|by left].
  - destruct (decide (nif = NULL)) as [-> |Hn]; [by eapply Hid|]. rewrite rtClear_spec by done.
    do 2 eexists. split; [done|]. apply table_ok_fmap; [done|]. intros e. case_decide; [by right|by left].
Qed.

Lemma rtops_spec os n : vic_ok (irq (nkern n)) -> table_ok (rttab n) -> Forall rtop_ok os ->
  exists t, run (run_rtops os) n = Returned (set_rttab t n) tt /\ table_ok t.
Proof.
  intros Hv. intros Ht Ho. revert n Hv Ht. induction Ho as [|o os Ho _ IH]; intros n Hv Ht.
  - exists (rttab n). by rewrite set_rttab_id.
  - destruct (rtop_spec o n Hv Ht Ho) as (t & r & E & Ht'). cbn [run_rtops]. rewrite run_bind, E. cbn [obind].
    destruct (IH (set_rttab t n)) as (t' & E' & Ht''); [done|done|]. by exists t'.
Qed.

Lemma table0_ok : table_ok (replicate RT_NENTRY rtEntry0).
Proof. split; [done|]. by apply Forall_replicate. Qed.

(** C39: rtLookup_longest_prefix.  Initialise the route table and make any calls of
    [rtAdd], [rtDefault], [rtRemove] and [rtClear] on it: none of them faults or
    touches anything but the table.  In the table they leave, [rtLookup] of an
    address returns the entry with the longest mask among the used entries whose
    network the address belongs to, the first of them if there are several, and
    NULL exactly when it belongs to none; the mask length of every used entry is
    the number of ones in its mask. *)
Theorem rtLookup_longest_prefix n os addr :
  vic_ok (irq (nkern n)) -> length (rttab n) = RT_NENTRY -> Forall rtop_ok os -> wf_addr addr ->
  exists t r, run (rtInit_loop RT_NENTRY 0;; run_rtops os) n = Returned (set_rttab t n) tt /\
    run (rtLookup addr) (set_rttab t n) = Returned (set_rttab t n) r /\
    (forall e, e ∈ t -> rt_state e = RT_USED -> rt_masklen e = mask_length (rt_mask e)) /\
    match r with
    | None => forall e, e ∈ t -> ~ matches addr e
    | Some i => exists ei, t !! i = Some ei /\ matches addr ei /\
        forall j e, t !! j = Some e -> matches addr e ->
          rt_masklen e <= rt_masklen ei /\ ((j < i)%nat -> rt_masklen e < rt_masklen ei)
    end.
Proof.
  intros Hv Hl Ho Ha. destruct (rtops_spec os (set_rttab (replicate RT_NENTRY rtEntry0) n) Hv table0_ok Ho)
    as (t & E & Ht). change (set_rttab t (set_rttab _ n)) with (set_rttab t n) in E.
  destruct (rtLookup_spec addr (set_rttab t n) Hv Ht Ha) as (r & E2 & Hb). exists t, r.
  split; [by rewrite run_bind, rtInit_loop_spec|]. split; [done|]. destruct Ht as [Hlen Hf]. split.
  { intros e He Hu. rewrite Forall_forall in Hf. exact (eo_masklen _ (Hf e He Hu)). }
  change (rttab (set_rttab t n)) with t in Hb. rewrite <- Hlen in Hb. destruct r as [i|].
  - destruct Hb as (_ & ei & Ei & Hm & H). exists ei. split_and!; [done|done|]. intros j e Ej. apply H; [|done].
    by eapply lookup_lt_Some.
  - intros e [j Ej]%list_elem_of_lookup. apply (Hb j); [|done]. by eapply lookup_lt_Some.
Qed.

(** [rtAdd] of a network with its mask fails, and then changes
    nothing, exactly when no entry of the table is free.  Otherwise it takes the
    first free entry and changes no other; from then on every address of the
    network is found by [rtLookup] and gets a route at least as specific, and
    this one if no used entry with a mask as long matches. *)
Theorem rtAdd_routes n dst gate mask nif :
  vic_ok (irq (nkern n)) -> table_ok (rttab n) -> wf_addr dst -> wf_addr mask -> kind dst = kind mask ->
  nif <> NULL ->
  (none_free (rttab n) /\ run (rtAdd (Some dst) gate (Some mask) nif) n = Returned n SYSERR) \/
  exists i old e n', first_free (rttab n) i old /\ n' = set_rttab (<[i := e]> (rttab n)) n /\
    run (rtAdd (Some dst) gate (Some mask) nif) n = Returned n' OK /\ table_ok (rttab n') /\
    rt_state e = RT_USED /\ rt_nif e = nif /\ (forall g, gate = Some g -> rt_gateway e = g) /\
    (gate = None -> na_type (rt_gateway e) = NULL) /\
    forall addr, wf_addr addr -> kind addr = kind dst -> under addr mask = under dst mask ->
      exists j ej, run (rtLookup addr) n' = Returned n' (Some j) /\ rttab n' !! j = Some ej /\
        mask_length mask <= rt_masklen ej /\
        ((forall k ek, rttab n !! k = Some ek -> matches addr ek -> rt_masklen ek < mask_length mask) -> j = i).
Proof.
  intros Hv Ht Hd Hm Hk Hn. pose proof (proj1 Ht) as Hl.
  destruct (rtAdd_spec dst gate mask nif n Hv Hl Hd Hm Hn) as [?|(i & old & d & r & Hf & Em & E)]; [by left|].
  right. set (e := route_entry old d gate mask nif) in *.
  destruct (route_entry_ok old dst d r gate mask nif Hd Hm Hk Em) as (He & Hkd & Hod).
  assert (Ht' : table_ok (<[i := e]> (rttab n))) by (by apply table_ok_insert).
  assert (Hi : (i < length (rttab n))%nat) by (by eapply lookup_lt_Some, Hf).
  exists i, old, e, (set_rttab (<[i := e]> (rttab n)) n).
  split_and!; [done|done|done|done|done|done|by intros g ->|by intros ->|].
  intros addr Ha Hka Hu. assert (Hme : matches addr e).
  { split_and!; [done|simpl; congruence|]. change (under addr mask = octets d). congruence. }
  destruct (rtLookup_spec addr (set_rttab (<[i := e]> (rttab n)) n) Hv Ht' Ha) as (r' & E' & Hb). cbn [rttab set_rttab] in Hb.
  assert (Ei : <[i:=e]> (rttab n) !! i = Some e) by (by apply list_lookup_insert_eq).
  destruct r' as [j|]; [|by destruct (Hb i e ltac:(lia) Ei)].
  destruct Hb as (Hj & ej & Ej & Hmj & Hbest). destruct (Hbest i e ltac:(lia) Ei Hme) as [Hle Hlt].
  exists j, ej. split_and!; [done|done|exact Hle|]. intros Hother.
  destruct (decide (j = i)) as [|Hne]; [done|]. exfalso. cbn [rttab set_rttab] in Ej.
  rewrite list_lookup_insert_ne in Ej by done. specialize (Hother j ej Ej Hmj). simpl in Hle. lia.
Qed.

(** Witnesses: a kernel with an empty network. *)
Definition sample_net : netst :=
  mknetst (mksysst tokens ∅ 0 0 ∅) ∅ 0 (replicate RT_NENTRY rtEntry0) 0 [] 0.
Definition ip4 (a b c d : Z) : netaddr := mknetaddr NETADDR_IPv4 4 [a; b; c; d; 0; 0].

Lemma ip4_wf a b c d : ubyte a -> ubyte b -> ubyte c -> ubyte d -> wf_addr (ip4 a b c d).
Proof.
  intros. split; [unfold NET_MAX_ALEN; simpl; lia|done|]. simpl.
  repeat (apply Forall_cons; split; [done || (unfold ubyte; lia)|]). constructor.
Qed.

Ltac ip4_solve := apply ip4_wf; unfold ubyte; lia.

Lemma sample_vic : vic_ok (irq (nkern sample_net)).
Proof. exact (KInv_vic _ tokens_inv). Qed.

Lemma rtLookup_longest_prefix_witness :
  let os := [RtAdd (Some (ip4 10 0 0 7)) None (Some (ip4 255 0 0 0)) 1;
             RtDefault [1; 2; 3; 4; 5; 6] (Some (ip4 10 0 0 1)) 1;
             RtAdd (Some (ip4 10 1 0 0)) (Some (ip4 10 0 0 2)) (Some (ip4 255 255 0 0)) 2] in
  exists t r, run (rtInit_loop RT_NENTRY 0;; run_rtops os) sample_net = Returned (set_rttab t sample_net) tt /\
    run (rtLookup (ip4 10 1 2 3)) (set_rttab t sample_net) = Returned (set_rttab t sample_net) r.
Proof.
  intros os. destruct (rtLookup_longest_prefix sample_net os (ip4 10 1 2 3)) as (t & r & E1 & E2 & _).
  - exact sample_vic.
  - reflexivity.
  - apply Forall_cons. split; [split; [ip4_solve|split; [ip4_solve|reflexivity]]|].
    apply Forall_cons. split; [split; [ip4_solve|split; [reflexivity|repeat constructor; unfold ubyte; lia]]|].
    apply Forall_cons. split; [split; [ip4_solve|split; [ip4_solve|reflexivity]]|]. apply Forall_nil. exact I.
  - ip4_solve.
  - exists t, r. split; [exact E1|exact E2].
Defined.

Lemma rtAdd_routes_witness :
  (none_free (rttab sample_net) \/
   exists i old, first_free (rttab sample_net) i old) /\ nkern sample_net = tokens.
Proof.
  split; [|reflexivity].
  destruct (rtAdd_routes sample_net (ip4 10 0 0 7) None (ip4 255 0 0 0) 1) as [[H _]|(i & old & e & n' & H & _)].
  - exact sample_vic.
  - exact table0_ok.
  - ip4_solve.
  - ip4_solve.
  - reflexivity.
  - intros H. discriminate H.
  - left. exact H.
  - right. exists i, old. exact H.
Defined.
