(* ===== verification/Arp.v ===== *)
(** * ARP (network/arp/arpInit.c, arpAlloc.c, arpFree.c, arpNotify.c,
      arpGetEntry.c, arpSendRqst.c, arpSendReply.c, arpLookup.c, arpRecv.c) and
      network/net/netSend.c *)

From S2P Require Import Prelude Prog Queue Interrupt Memory Kernel Thread Clock Message Semaphore CString Sys Mailbox BufPool NetAddr Net Lifecycle Route.

Definition set_ae_state (v : Z) (e : arpEntry) : arpEntry :=
  mkarpEntry v (ae_nif e) (ae_hwaddr e) (ae_praddr e) (ae_expires e) (ae_waiting e) (ae_count e).
Definition set_ae_nif (v : Z) (e : arpEntry) : arpEntry :=
  mkarpEntry (ae_state e) v (ae_hwaddr e) (ae_praddr e) (ae_expires e) (ae_waiting e) (ae_count e).
Definition set_ae_hwaddr (v : netaddr) (e : arpEntry) : arpEntry :=
  mkarpEntry (ae_state e) (ae_nif e) v (ae_praddr e) (ae_expires e) (ae_waiting e) (ae_count e).
Definition set_ae_praddr (v : netaddr) (e : arpEntry) : arpEntry :=
  mkarpEntry (ae_state e) (ae_nif e) (ae_hwaddr e) v (ae_expires e) (ae_waiting e) (ae_count e).
Definition set_ae_expires (v : Z) (e : arpEntry) : arpEntry :=
  mkarpEntry (ae_state e) (ae_nif e) (ae_hwaddr e) (ae_praddr e) v (ae_waiting e) (ae_count e).
Definition set_ae_wait (waiting : list Z) (count : Z) (e : arpEntry) : arpEntry :=
  mkarpEntry (ae_state e) (ae_nif e) (ae_hwaddr e) (ae_praddr e) (ae_expires e) waiting count.

(** ** arpAlloc *)

(** [None] is the pointer [SYSERR]. *)
Fixpoint arpAlloc_loop (n i : nat) (minexpires : option nat) : prog netst (option nat) :=
  match n with
  | O =>
      match minexpires with
      | None => mret None
      | Some m => upd_ae m (fun _ => arpEntry0);; upd_ae m (set_ae_state ARP_USED);; mret (Some m)
      end
  | S n =>
      e ← ae i;
      if ARP_FREE =? ae_state e then upd_ae i (set_ae_state ARP_USED);; mret (Some i)
      else
        minexpires ← match minexpires with
                     | None => mret (Some i)
                     | Some m => em ← ae m; mret (if ae_expires e <? ae_expires em then Some i else Some m)
                     end;
        arpAlloc_loop n (S i) minexpires
  end.

Definition arpAlloc : prog netst (option nat) := arpAlloc_loop ARP_NENTRY 0 None.

(** ** arpNotify *)

(** [waiting] has [ARP_NTHRWAIT] elements, an access beyond it faults: one round
    more than it has elements is enough.  The result tells whether a [send] failed. *)
Fixpoint arpNotify_loop (fuel : nat) (entry i : nat) (msg : Z) : prog netst bool :=
  match fuel with
  | O => Fault
  | S fuel =>
      e ← ae entry;
      if (Z.of_nat i <? ae_count e) then
        tid ← opt (ae_waiting e !! i);
        r ← ncall (send tid msg);
        if r =? SYSERR then mret true else arpNotify_loop fuel entry (S i) msg
      else mret false
  end.

Definition arpNotify (entry : option nat) (msg : Z) : prog netst Z :=
  match entry with
  | None => mret SYSERR
  | Some entry =>
      im ← ncall k_disable;
      failed ← arpNotify_loop (S ARP_NTHRWAIT) entry 0 msg;
      if (failed : bool) then ncall (k_restore im);; mret SYSERR
      else
        upd_ae entry (fun e => set_ae_wait (ae_waiting e) 0 e);;
        upd_ae entry (fun e => set_ae_wait (replicate ARP_NTHRWAIT 0) (ae_count e) e);;
        ncall (k_restore im);;
        mret OK
  end.

(** ** arpFree *)

Definition arpFree (entry : option nat) : prog netst Z :=
  match entry with
  | None => mret SYSERR
  | Some i =>
      e ← ae i;
      (if ARP_UNRESOLVED =? ae_state e then arpNotify (Some i) TIMEOUT;; mret tt else mret tt);;
      upd_ae i (fun _ => arpEntry0);;
      upd_ae i (set_ae_state ARP_FREE);;
      mret OK
  end.

(** ** arpGetEntry *)

Fixpoint arpGetEntry_loop (n i : nat) (praddr : netaddr) : prog netst (option nat) :=
  match n with
  | O => mret None
  | S n =>
      e ← ae i;
      if Z.land ARP_USED (ae_state e) =? 0 then arpGetEntry_loop n (S i) praddr
      else
        now ← gets (fun n => clktime (nkern n));
        if ae_expires e <? now then arpFree (Some i);; arpGetEntry_loop n (S i) praddr
        else
          equal ← opt (netaddrequal (ae_praddr e) praddr);
          if (equal : bool) then mret (Some i) else arpGetEntry_loop n (S i) praddr
  end.

Definition arpGetEntry (praddr : netaddr) : prog netst (option nat) :=
  im ← ncall k_disable;
  r ← arpGetEntry_loop ARP_NENTRY 0 praddr;
  ncall (k_restore im);;
  mret r.

(** ** The ARP header at [arp]: offsets of [struct arpPkt] *)

Definition arp_hwtype (arp : Z) : Z := arp.
Definition arp_prtype (arp : Z) : Z := arp + 2.
Definition arp_hwalen (arp : Z) : Z := arp + 4.
Definition arp_pralen (arp : Z) : Z := arp + 5.
Definition arp_op (arp : Z) : Z := arp + 6.
Definition arp_addrs (arp : Z) : Z := arp + 8.

Definition ARP_ADDR_SHA (hwalen pralen : Z) : Z := 0.
Definition ARP_ADDR_SPA (hwalen pralen : Z) : Z := hwalen.
Definition ARP_ADDR_DHA (hwalen pralen : Z) : Z := hwalen + pralen.
Definition ARP_ADDR_DPA (hwalen pralen : Z) : Z := 2 * hwalen + pralen.

(** [memcpy(a.addr, p, len)] into the array of a local address: at most its six
    bytes; the bytes beyond are what the stack held. *)
Definition get_addr (garbage : list Z) (type len p : Z) : prog netst netaddr :=
  if NET_MAX_ALEN <? len then Fault
  else
    l ← ngets (fun M => ldbs M p (Z.to_nat len));
    mret (mknetaddr type len (l ++ drop (Z.to_nat len) garbage)).

(** A copy within memory, byte by byte in ascending order. *)
Fixpoint copy_bytes (M : memory) (dst src : Z) (n : nat) : memory :=
  match n with
  | O => M
  | S n => copy_bytes (stb M dst (ldb M src)) (dst + 1) (src + 1) n
  end.

Section arp.

(** The devices: [write(dev, buf, len)], and [snoopCapture(cap, pkt)]. *)
Variable devwrite : Z -> Z -> Z -> prog netst Z.
Variable snoopCapture : Z -> Z -> prog netst Z.

(** ** netSend

    [lookup] stands for [arpLookup], which itself sends requests with this
    function but always with a hardware address.  The copy of the source
    address to a local string has no effect outside and is left out. *)
Definition netSend_with (lookup : Z -> option netaddr -> prog netst (Z * netaddr))
    (pkt : Z) (hwaddr praddr : option netaddr) (type : Z) : prog netst Z :=
  if pkt =? NULL then mret SYSERR
  else
    netptr ← nload (pkt_nif pkt);
    if netptr =? NULL then mret SYSERR
    else
      e ← nif netptr;
      if decide (nf_state e <> NET_ALLOC) then mret SYSERR
      else
        curr ← nload (pkt_curr pkt);
        nstore (pkt_curr pkt) (u32 (curr - nf_linkhdrlen e));;
        len ← nload (pkt_len pkt);
        nstore (pkt_len pkt) (u32 (len + nf_linkhdrlen e));;
        ether ← nload (pkt_curr pkt);
        nputs (fun M => sth M (ether + 12) (hs2net type));;
        put_addr (ether + 6) (nf_hwaddr e) (na_len (nf_hwaddr e));;
        '(result, dst) ← match hwaddr with
                         | Some a => mret (OK, a)
                         | None => lookup netptr praddr
                         end;
        if negb (result =? OK) then mret result
        else
          put_addr ether dst (na_len dst);;
          e ← nif netptr;
          curr ← nload (pkt_curr pkt);
          len ← nload (pkt_len pkt);
          r ← devwrite (nf_dev e) curr len;
          if r =? SYSERR then mret SYSERR
          else
            e ← nif netptr;
            (if negb (nf_capture e =? NULL) then snoopCapture (nf_capture e) pkt;; mret tt else mret tt);;
            mret OK.

(** A call with a hardware address, which looks nothing up. *)
Definition netSend_hw (pkt : Z) (hwaddr : netaddr) (type : Z) : prog netst Z :=
  netSend_with (fun _ _ => Fault) pkt (Some hwaddr) None type.

(** ** arpSendRqst *)

Definition arpSendRqst (entry : option nat) : prog netst Z :=
  match entry with
  | None => mret SYSERR
  | Some i =>
      e ← ae i;
      let netptr := ae_nif e in
      pkt ← netGetbuf;
      if pkt =? SYSERR then mret SYSERR
      else
        nstore (pkt_nif pkt) netptr;;
        nf ← nif netptr;
        nstore (pkt_len pkt) (ARP_CONST_HDR_LEN + na_len (nf_hwaddr nf) * 2 + na_len (nf_ip nf) * 2);;
        len ← nload (pkt_len pkt);
        curr ← nload (pkt_curr pkt);
        nstore (pkt_curr pkt) (u32 (curr - len));;
        arp ← nload (pkt_curr pkt);
        nputs (fun M => sth M (arp_hwtype arp) (hs2net (na_type (nf_hwaddr nf))));;
        nputs (fun M => sth M (arp_prtype arp) (hs2net (na_type (nf_ip nf))));;
        nputs (fun M => stb M (arp_hwalen arp) (na_len (nf_hwaddr nf)));;
        nputs (fun M => stb M (arp_pralen arp) (na_len (nf_ip nf)));;
        nputs (fun M => sth M (arp_op arp) (hs2net ARP_OP_RQST));;
        hl ← ngets (fun M => ldb M (arp_hwalen arp));
        pl ← ngets (fun M => ldb M (arp_pralen arp));
        put_addr (arp_addrs arp + ARP_ADDR_SHA hl pl) (nf_hwaddr nf) hl;;
        put_addr (arp_addrs arp + ARP_ADDR_SPA hl pl) (nf_ip nf) pl;;
        e ← ae i;
        put_addr (arp_addrs arp + ARP_ADDR_DPA hl pl) (ae_praddr e) pl;;
        nf ← nif netptr;
        result ← netSend_hw pkt (nf_hwbrc nf) ETHER_TYPE_ARP;
        r ← netFreebuf pkt;
        if r =? SYSERR then mret SYSERR else mret result
  end.

(** ** arpSendReply *)

(** [garbage] is what the local [dst] held. *)
Definition arpSendReply (garbage : list Z) (pkt : Z) : prog netst Z :=
  if pkt =? NULL then mret SYSERR
  else
    netptr ← nload (pkt_nif pkt);
    arp ← nload (pkt_curr pkt);
    nputs (fun M => sth M (arp_op arp) (hs2net ARP_OP_REPLY));;
    hl ← ngets (fun M => ldb M (arp_hwalen arp));
    pl ← ngets (fun M => ldb M (arp_pralen arp));
    let addrs := arp_addrs arp in
    nputs (fun M => copy_bytes M (addrs + ARP_ADDR_DHA hl pl) (addrs + ARP_ADDR_SHA hl pl) (Z.to_nat hl));;
    nputs (fun M => copy_bytes M (addrs + ARP_ADDR_DPA hl pl) (addrs + ARP_ADDR_SPA hl pl) (Z.to_nat pl));;
    nf ← nif netptr;
    put_addr (addrs + ARP_ADDR_SHA hl pl) (nf_hwaddr nf) hl;;
    put_addr (addrs + ARP_ADDR_SPA hl pl) (nf_ip nf) pl;;
    t ← ngets (fun M => ldh M (arp_hwtype arp));
    dst ← get_addr garbage (net2hs t) hl (addrs + ARP_ADDR_DHA hl pl);
    netSend_hw pkt dst ETHER_TYPE_ARP.

(** ** arpLookup *)

(** The part of a round with interrupts disabled, up to the test of the state:
    the entry, existing or new. *)
Definition arpFindOrMake (netptr : Z) (praddr : netaddr) : prog netst (option nat) :=
  entry ← arpGetEntry praddr;
  match entry with
  | Some i => mret (Some i)
  | None =>
      entry ← arpAlloc;
      match entry with
      | None => mret None
      | Some i =>
          upd_ae i (set_ae_state ARP_UNRESOLVED);;
          upd_ae i (set_ae_nif netptr);;
          upd_ae i (set_ae_praddr praddr);;
          now ← gets (fun n => clktime (nkern n));
          upd_ae i (set_ae_expires (u32 (now + ARP_TTL_UNRESOLVED)));;
          upd_ae i (fun e => set_ae_wait (ae_waiting e) 0 e);;
          mret (Some i)
      end
  end.

Fixpoint arpLookup_loop (lookups : nat) (netptr : Z) (praddr hwaddr : netaddr) : prog netst (Z * netaddr) :=
  match lookups with
  | O => mret (SYSERR, hwaddr)
  | S lookups =>
      im ← ncall k_disable;
      entry ← arpFindOrMake netptr praddr;
      match entry with
      | None => ncall (k_restore im);; mret (SYSERR, hwaddr)
      | Some i =>
          e ← ae i;
          if ARP_RESOLVED =? ae_state e then mret (OK, ae_hwaddr e)
          else if Z.of_nat ARP_NTHRWAIT <=? ae_count e then ncall (k_restore im);; mret (SYSERR, hwaddr)
          else
            tid ← ncall gettid;
            (if ae_count e <? 0 then Fault
             else upd_ae i (fun e => set_ae_wait (<[Z.to_nat (ae_count e) := tid]> (ae_waiting e)) (ae_count e) e));;
            upd_ae i (fun e => set_ae_wait (ae_waiting e) (i32 (ae_count e + 1)) e);;
            e ← ae i;
            now ← gets (fun n => clktime (nkern n));
            let ttl := i32 (u32 ((ae_expires e - now) * CLKTICKS_PER_SEC)) in
            ncall (k_restore im);;
            r ← arpSendRqst (Some i);
            if r =? SYSERR then mret (SYSERR, hwaddr)
            else
              ncall recvclr;;
              m ← ncall (recvtime ttl);
              if (m =? TIMEOUT) || (m =? SYSERR) then mret (SYSERR, hwaddr)
              else arpLookup_loop lookups netptr praddr hwaddr
      end
  end.

(** [hwaddr] is the caller's buffer: the result has what it holds afterwards. *)
Definition arpLookup (netptr : Z) (praddr hwaddr : option netaddr) : prog netst (Z * option netaddr) :=
  match praddr, hwaddr with
  | Some praddr, Some hwaddr =>
      if netptr =? NULL then mret (SYSERR, Some hwaddr)
      else
        '(r, hw) ← arpLookup_loop ARP_MAX_LOOKUP netptr praddr hwaddr;
        mret (r, Some hw)
  | _, _ => mret (SYSERR, hwaddr)
  end.

(** [garbage] is what the local [addr] of [netSend] holds. *)
Definition netSend (garbage : netaddr) (pkt : Z) (hwaddr praddr : option netaddr) (type : Z) : prog netst Z :=
  netSend_with (fun netptr praddr =>
      '(r, hw) ← arpLookup netptr praddr (Some garbage);
      hw ← opt hw;
      mret (r, hw)) pkt hwaddr praddr type.

(** ** arpRecv *)

(** The update of an existing entry for the sender. *)
Definition arpUpdate (entry : option nat) (sha : netaddr) : prog netst unit :=
  match entry with
  | None => mret tt
  | Some i =>
      upd_ae i (set_ae_hwaddr sha);;
      now ← gets (fun n => clktime (nkern n));
      upd_ae i (set_ae_expires (u32 (now + ARP_TTL_RESOLVED)));;
      e ← ae i;
      if ARP_UNRESOLVED =? ae_state e then
        upd_ae i (set_ae_state ARP_RESOLVED);;
        arpNotify (Some i) ARP_MSG_RESOLVED;;
        mret tt
      else mret tt
  end.

(** A new entry for the sender; whether there was one to be had. *)
Definition arpEnter (netptr : Z) (sha spa : netaddr) : prog netst bool :=
  entry ← arpAlloc;
  match entry with
  | None => mret false
  | Some i =>
      upd_ae i (set_ae_state ARP_RESOLVED);;
      upd_ae i (set_ae_nif netptr);;
      upd_ae i (set_ae_hwaddr sha);;
      upd_ae i (set_ae_praddr spa);;
      now ← gets (fun n => clktime (nkern n));
      upd_ae i (set_ae_expires (u32 (now + ARP_TTL_RESOLVED)));;
      mret true
  end.

(** What the arrays of the locals [sha], [spa] and [dpa] held. *)
Definition arpRecv (gsha gspa gdpa : list Z) (pkt : Z) : prog netst Z :=
  if pkt =? NULL then mret SYSERR
  else
    curr ← nload (pkt_curr pkt);
    nstore (pkt_nethdr pkt) curr;;
    let arp := curr in
    netptr ← nload (pkt_nif pkt);
    if (netptr =? NULL) || (arp =? NULL) then netFreebuf pkt;; mret SYSERR
    else
      hwtype ← ngets (fun M => ldh M (arp_hwtype arp));
      hwalen ← ngets (fun M => ldb M (arp_hwalen arp));
      if negb (ARP_HWTYPE_ETHERNET =? net2hs hwtype) || negb (ETH_ADDR_LEN =? hwalen)
      then netFreebuf pkt;; mret SYSERR
      else
        prtype ← ngets (fun M => ldh M (arp_prtype arp));
        pralen ← ngets (fun M => ldb M (arp_pralen arp));
        if negb (ETHER_TYPE_IPv4 =? net2hs prtype) || negb (IPv4_ADDR_LEN =? pralen)
        then netFreebuf pkt;; mret SYSERR
        else
          sha ← get_addr gsha (net2hs hwtype) hwalen (arp_addrs arp);
          spa ← get_addr gspa (net2hs prtype) pralen (arp_addrs arp + hwalen);
          im ← ncall k_disable;
          entry ← arpGetEntry spa;
          arpUpdate entry sha;;
          dpa ← get_addr gdpa (net2hs prtype) pralen (arp_addrs arp + (hwalen * 2 + pralen));
          nf ← nif netptr;
          mine ← opt (netaddrequal (nf_ip nf) dpa);
          if (mine : bool) then
            ok ← (match entry with
                  | Some _ => mret true
                  | None => np ← nload (pkt_nif pkt); arpEnter np sha spa
                  end);
            if negb (ok : bool) then ncall (k_restore im);; netFreebuf pkt;; mret SYSERR
            else
              op ← ngets (fun M => ldh M (arp_op arp));
              if ARP_OP_RQST =? net2hs op then
                q ← gets arpqueue;
                c ← scall (mailboxCount q);
                if ARP_NQUEUE <=? c then ncall (k_restore im);; netFreebuf pkt;; mret SYSERR
                else
                  scall (mailboxSend q pkt);;
                  ncall (k_restore im);;
                  mret OK
              else ncall (k_restore im);; netFreebuf pkt;; mret OK
          else ncall (k_restore im);; netFreebuf pkt;; mret OK.

End arp.

(** ** arpInit *)

Fixpoint arpInit_loop (n i : nat) : prog netst unit :=
  match n with
  | O => mret tt
  | S n => upd_ae i (fun _ => arpEntry0);; upd_ae i (set_ae_state ARP_FREE);; arpInit_loop n (S i)
  end.

Section init.

(** The addresses of [userret] and of the thread's procedure. *)
Variables initret arpDaemon : Z.

Definition arpInit : prog netst Z :=
  arpInit_loop ARP_NENTRY 0;;
  q ← scall (mailboxAlloc ARP_NQUEUE);
  modify (set_arpqueue (u32 q));;
  if u32 q =? u32 SYSERR then mret SYSERR
  else
    tid ← ncall (create initret arpDaemon NET_THR_STK NET_THR_PRIO
                   [97; 114; 112; 68; 97; 101; 109; 111; 110; 0] []);
    ncall (ready tid RESCHED_NO);;
    mret OK.

End init.
