(* ===== verification/ArpSpec.v ===== *)
(** * What the routines of the ARP table do *)

From S2P Require Import Prelude Prog Queue QueueSpec QueueSys Interrupt Memory Kernel Thread Semaphore Clock Message NoHalt Placement Invariant Sched ThreadSpec SemaphoreSpec MessageSpec KillSpec KernelProps CString Sys Mailbox BufPool MailboxSpec BufPoolProps NetAddr NetAddrSpec Net Route RouteSpec Arp.

Local Arguments Z.eqb : simpl never.
Local Arguments Z.ltb : simpl never.
Local Arguments Z.leb : simpl never.

(** ** Sections with interrupts disabled *)

Definition off (n : netst) : netst :=
  set_nkern (set_irq (vic_disable_interrupts (irq (nkern n))) (nkern n)) n.

(** A section that changes the tables of the network, but not the kernel. *)
Lemma table_section {A B} (h : netst -> netst) (p : prog netst A) (g : A -> prog netst B) n a :
  vic_ok (irq (nkern n)) -> (forall k m, h (set_nkern k m) = set_nkern k (h m)) ->
  run p (off n) = Returned (h (off n)) a ->
  run (im ← ncall k_disable; x ← p; ncall (k_restore im);; g x) n = run (g a) (h n).
Proof.
  intros Hv Hh Hp. erewrite run_ncall_bind by reflexivity. fold (off n).
  rewrite run_bind, Hp. cbn [obind]. erewrite run_ncall_bind by reflexivity. f_equal.
  unfold off. rewrite Hh, (part_get_set (get := nkern)), (part_set_set (set := set_nkern)).
  transitivity (h (set_nkern (nkern n) n)); [|by rewrite (part_set_get (get := nkern))].
  rewrite Hh. f_equal. unfold set_irq. cbn [irq]. rewrite restore_disable by done. by destruct (nkern n).
Qed.

Lemma vic_ok_off n : vic_ok (irq (nkern n)) -> vic_ok (irq (nkern (off n))).
Proof. done. Qed.

(** ** Entries *)

Definition used (e : arpEntry) : bool := negb (Z.land ARP_USED (ae_state e) =? 0).
Definition expired (now : Z) (e : arpEntry) : bool := ae_expires e <? now.
Definition is_for (pr : netaddr) (e : arpEntry) : Prop :=
  kind (ae_praddr e) = kind pr /\ octets (ae_praddr e) = octets pr.

#[export] Instance is_for_dec pr e : Decision (is_for pr e).
Proof. unfold is_for. apply _. Defined.

Record ae_ok (e : arpEntry) : Prop := {
  ao_state : ae_state e = ARP_FREE \/ ae_state e = ARP_UNRESOLVED \/ ae_state e = ARP_RESOLVED;
  ao_praddr : used e = true -> wf_addr (ae_praddr e);
  ao_waiting : length (ae_waiting e) = ARP_NTHRWAIT;
  ao_count : 0 <= ae_count e <= Z.of_nat ARP_NTHRWAIT;
}.

Definition arp_ok (tab : list arpEntry) : Prop := length tab = ARP_NENTRY /\ Forall ae_ok tab.

(** No thread waits for an entry that has expired. *)
Definition calm (now : Z) (e : arpEntry) : Prop :=
  used e = true -> expired now e = true -> ae_state e = ARP_UNRESOLVED -> ae_count e = 0.

(** The first used entry for [pr] that has not expired. *)
Definition first_for (now : Z) (pr : netaddr) (tab : list arpEntry) (i : nat) (e : arpEntry) : Prop :=
  tab !! i = Some e /\ used e = true /\ expired now e = false /\ is_for pr e /\
  forall j ej, (j < i)%nat -> tab !! j = Some ej -> used ej = true -> expired now ej = false -> ~ is_for pr ej.

(** The search of [arpGetEntry]: the table it leaves, and the entry found. *)
Fixpoint scan (now : Z) (pr : netaddr) (tab : list arpEntry) : list arpEntry * option nat :=
  match tab with
  | [] => ([], None)
  | e :: tab =>
      if used e && negb (expired now e) && bool_decide (is_for pr e) then (e :: tab, Some O)
      else
        let '(tab', r) := scan now pr tab in
        ((if used e && expired now e then arpEntry0 else e) :: tab', S <$> r)
  end.

Lemma scan_first now pr tab i e : first_for now pr tab i e -> (scan now pr tab).2 = Some i.
Proof.
  revert i. induction tab as [|x tab IH]; intros i (Ei & Hu & Hx & Hf & Hall); [done|].
  destruct i as [|i]; simpl in *.
  - injection Ei as ->. by rewrite Hu, Hx, bool_decide_eq_true_2.
  - specialize (IH i). destruct (scan now pr tab) as [t r]. simpl in *.
    rewrite IH; [|split_and!; try done; intros j ej Hj Ej; apply (Hall (S j)); [lia|done]].
    destruct (used x) eqn:Ux; [|done]. destruct (expired now x) eqn:Xx; [done|].
    rewrite bool_decide_eq_false_2 by (apply (Hall O x); [lia|done..]). done.
Qed.

(** The search depends on kind and octets only. *)
Lemma scan_ext now a b tab : kind a = kind b -> octets a = octets b -> scan now a tab = scan now b tab.
Proof.
  intros Hk Ho. induction tab as [|x tab IH]; simpl; [done|]. rewrite IH.
  rewrite (bool_decide_ext (is_for a x) (is_for b x)); [done|]. unfold is_for. by rewrite Hk, Ho.
Qed.

Lemma scan_found now pr tab i : (scan now pr tab).2 = Some i ->
  exists e, first_for now pr tab i e /\ (scan now pr tab).1 !! i = Some e.
Proof.
  revert i. induction tab as [|x tab IH]; intros i E; [done|]. simpl in *.
  destruct (used x && negb (expired now x) && bool_decide (is_for pr x)) eqn:Hc.
  - injection E as <-. exists x. btests. apply bool_decide_eq_true in H0. split; [|done]. split_and!; try done. lia.
  - destruct (scan now pr tab) as [t r]. simpl in *. destruct r as [i'|]; [|done]. injection E as <-.
    destruct (IH i' eq_refl) as (e & (Ei & Hu & Hx & Hf & Hall) & E'). exists e. split; [|done].
    split_and!; try done. intros [|j] ej Hj Ej Uj Xj Fj; [|by apply (Hall j ej); [lia|..]].
    injection Ej as ->. rewrite Uj, Xj, bool_decide_eq_true_2 in Hc by done. done.
Qed.

Lemma scan_none now pr tab : (scan now pr tab).2 = None ->
  forall e, e ∈ tab -> used e = true -> expired now e = false -> ~ is_for pr e.
Proof.
  intros E e [i Ei]%list_elem_of_lookup Hu Hx Hf. revert i Ei E.
  induction tab as [|x tab IH]; intros i Ei; [done|]. simpl.
  destruct (used x && negb (expired now x) && bool_decide (is_for pr x)) eqn:Hc; [done|].
  destruct (scan now pr tab) as [t [r|]]; [done|]. intros _. destruct i as [|i]; [|by apply (IH i)].
  injection Ei as ->. rewrite Hu, Hx, bool_decide_eq_true_2 in Hc by done. done.
Qed.

Lemma arpEntry0_ok : ae_ok arpEntry0.
Proof. split; [by left|done|done|simpl; lia]. Qed.

Lemma scan_ok now pr tab : Forall ae_ok tab -> Forall ae_ok (scan now pr tab).1.
Proof.
  induction 1 as [|x tab Hx Ht IH]; simpl; [done|].
  destruct (used x && _ && _); [by constructor|]. destruct (scan now pr tab) as [t r]. simpl in *.
  constructor; [|done]. destruct (used x && expired now x); [apply arpEntry0_ok|done].
Qed.

Lemma scan_length now pr tab : length (scan now pr tab).1 = length tab.
Proof.
  induction tab as [|x tab IH]; simpl; [done|]. destruct (used x && _ && _); [done|].
  destruct (scan now pr tab) as [t r]. simpl in *. by rewrite IH.
Qed.

(** Every entry the search leaves is an old one or empty. *)
Lemma scan_entries now pr tab j e : (scan now pr tab).1 !! j = Some e -> tab !! j = Some e \/ e = arpEntry0.
Proof.
  revert j. induction tab as [|x tab IH]; intros j; simpl; [done|].
  destruct (used x && _ && _); [by left|]. destruct (scan now pr tab) as [t r]. destruct j as [|j]; simpl.
  - intros [= <-]. destruct (used x && expired now x); auto.
  - apply IH.
Qed.

(** ** arpFree and arpGetEntry *)

Lemma set_arptab_id n : set_arptab (arptab n) n = n.
Proof. by destruct n. Qed.

(** Assignments to the fields of one entry. *)
Lemma run_upd_ae_in {B} i f e tab (g : unit -> prog netst B) n : (i < length tab)%nat ->
  run (upd_ae i f ≫= g) (set_arptab (<[i := e]> tab) n) = run (g tt) (set_arptab (<[i := f e]> tab) n).
Proof.
  intros Hi. rewrite (run_upd_ae_bind i f e) by (simpl; by apply list_lookup_insert_eq).
  simpl. by rewrite list_insert_insert_eq.
Qed.

Lemma run_upd_ae_first {B} i f e (g : unit -> prog netst B) n : arptab n !! i = Some e ->
  run (upd_ae i f ≫= g) n = run (g tt) (set_arptab (<[i := f e]> (arptab n)) n).
Proof. apply run_upd_ae_bind. Qed.

Lemma run_ae_in {B} i e tab (g : arpEntry -> prog netst B) n : (i < length tab)%nat ->
  run (ae i ≫= g) (set_arptab (<[i := e]> tab) n) = run (g e) (set_arptab (<[i := e]> tab) n).
Proof. intros Hi. apply run_ae_bind. simpl. by apply list_lookup_insert_eq. Qed.

(** With no thread waiting, [arpNotify] only clears the list. *)
Lemma arpNotify_idle i e msg n : vic_ok (irq (nkern n)) -> arptab n !! i = Some e -> ae_count e = 0 ->
  run (arpNotify (Some i) msg) n =
  Returned (set_arptab (<[i := set_ae_wait (replicate ARP_NTHRWAIT 0) 0 e]> (arptab n)) n) OK.
Proof.
  intros Hv Ei Hc. assert (Hi : (i < length (arptab n))%nat) by (by eapply lookup_lt_Some).
  unfold arpNotify. erewrite run_ncall_bind by reflexivity. fold (off n).
  rewrite run_bind. cbn [arpNotify_loop]. rewrite (run_ae_bind i e) by done. rewrite Hc.
  change (Z.of_nat 0 <? 0) with false. cbn [run mret prog_ret obind].
  rewrite (run_upd_ae_first i _ e) by done. rewrite run_upd_ae_in by done.
  erewrite run_ncall_bind by reflexivity. cbn [run mret prog_ret].
  f_equal. destruct n as [[[] ? ? ? ?] ? ? ? ? ? ?]. unfold off, set_nkern, set_arptab, set_sys, set_kern, set_irq, nkern in *.
  simpl in *. by rewrite restore_disable.
Qed.

Lemma arpFree_spec i e n : vic_ok (irq (nkern n)) -> arptab n !! i = Some e ->
  (ae_state e = ARP_UNRESOLVED -> ae_count e = 0) ->
  run (arpFree (Some i)) n = Returned (set_arptab (<[i := arpEntry0]> (arptab n)) n) OK.
Proof.
  intros Hv Ei Hc. assert (Hi : (i < length (arptab n))%nat) by (by eapply lookup_lt_Some).
  unfold arpFree. rewrite (run_ae_bind i e) by done. rewrite run_bind.
  destruct (Z.eqb_spec ARP_UNRESOLVED (ae_state e)) as [Es|Es].
  - rewrite run_bind, (arpNotify_idle i e) by auto. cbn [obind run mret prog_ret].
    rewrite run_upd_ae_in by done. by rewrite run_upd_ae_in by done.
  - cbn [obind run mret prog_ret]. rewrite (run_upd_ae_first i _ e) by done. by rewrite run_upd_ae_in by done.
Qed.

Lemma arpGetEntry_loop_spec pr l1 l2 n : vic_ok (irq (nkern n)) -> wf_addr pr -> arptab n = l1 ++ l2 ->
  Forall ae_ok l2 -> Forall (calm (clktime (nkern n))) l2 ->
  let '(t, r) := scan (clktime (nkern n)) pr l2 in
  run (arpGetEntry_loop (length l2) (length l1) pr) n =
  Returned (set_arptab (l1 ++ t) n) (Nat.add (length l1) <$> r).
Proof.
  intros Hv Hp. revert l1 n Hv. induction l2 as [|e l2 IH]; intros l1 n Hv En Hok Hcalm.
  { simpl. by rewrite <- En, set_arptab_id. }
  apply Forall_cons in Hok as [Hoe Hok]. apply Forall_cons in Hcalm as [Hce Hcalm].
  set (now := clktime (nkern n)) in *. assert (Ei : arptab n !! length l1 = Some e) by (rewrite En; by apply list_lookup_middle).
  assert (Hnext : forall e' m, arptab m = l1 ++ e' :: l2 -> nkern m = nkern n ->
    let '(t, r) := scan now pr l2 in
    run (arpGetEntry_loop (length l2) (S (length l1)) pr) m
    = Returned (set_arptab (l1 ++ e' :: t) m) (Nat.add (length l1) <$> (S <$> r))).
  { intros e' m Em Ek. specialize (IH (l1 ++ [e']) m). rewrite Ek in IH. fold now in IH.
    specialize (IH Hv). rewrite <- app_assoc in IH. specialize (IH Em Hok Hcalm).
    destruct (scan now pr l2) as [t r]. rewrite length_app, Nat.add_1_r in IH. rewrite IH.
    rewrite <- app_assoc. cbn [app]. f_equal. destruct r; [|done]. simpl. f_equal. lia. }
  cbn [length arpGetEntry_loop scan]. rewrite (run_ae_bind _ e) by done. unfold used.
  destruct (Z.land ARP_USED (ae_state e) =? 0) eqn:Hu; cbn [negb andb].
  { specialize (Hnext e n En eq_refl). destruct (scan now pr l2) as [t r]. exact Hnext. }
  assert (Huse : used e = true) by (unfold used; by rewrite Hu).
  rewrite run_gets_bind. fold now. unfold expired. destruct (ae_expires e <? now) eqn:Hx; cbn [negb andb].
  { rewrite run_bind, (arpFree_spec _ e) by (done || by apply Hce). cbn [obind].
    rewrite En, insert_app_r_alt, Nat.sub_diag by lia. cbn [insert list_insert].
    specialize (Hnext arpEntry0 (set_arptab (l1 ++ arpEntry0 :: l2) n) eq_refl eq_refl).
    destruct (scan now pr l2) as [t r]. exact Hnext. }
  rewrite (run_opt_bind _ _ _ _ (netaddrequal_spec _ _ (ao_praddr _ Hoe Huse) Hp)).
  rewrite (bool_decide_ext (kind (ae_praddr e) = kind pr /\ _) (is_for pr e)) by done.
  case_bool_decide as Hf.
  - cbn [fmap option_fmap option_map]. rewrite Nat.add_0_r, <- En, set_arptab_id. done.
  - specialize (Hnext e n En eq_refl). destruct (scan now pr l2) as [t r]. exact Hnext.
Qed.

Lemma arpGetEntry_spec pr n : vic_ok (irq (nkern n)) -> wf_addr pr -> arp_ok (arptab n) ->
  Forall (calm (clktime (nkern n))) (arptab n) ->
  let '(t, r) := scan (clktime (nkern n)) pr (arptab n) in
  run (arpGetEntry pr) n = Returned (set_arptab t n) r.
Proof.
  intros Hv Hp [Hl Hok] Hc. pose proof (arpGetEntry_loop_spec pr [] (arptab n) (off n) Hv Hp eq_refl Hok Hc) as H.
  change (clktime (nkern (off n))) with (clktime (nkern n)) in H.
  destruct (scan (clktime (nkern n)) pr (arptab n)) as [t r]. cbn [length app] in H. rewrite Hl in H.
  unfold arpGetEntry. rewrite (table_section (set_arptab t) _ _ _ r Hv); [done|done|].
  rewrite H. f_equal. by destruct r.
Qed.

(** ** arpAlloc *)

Definition free_first (tab : list arpEntry) (i : nat) (e : arpEntry) : Prop :=
  tab !! i = Some e /\ ae_state e = ARP_FREE /\
  forall j ej, (j < i)%nat -> tab !! j = Some ej -> ae_state ej <> ARP_FREE.

(** The first of the entries among the first [m] that expire first. *)
Definition oldest (tab : list arpEntry) (m i : nat) (e : arpEntry) : Prop :=
  (i < m)%nat /\ tab !! i = Some e /\ forall j ej, (j < m)%nat -> tab !! j = Some ej ->
    ae_expires e <= ae_expires ej /\ ((j < i)%nat -> ae_expires e < ae_expires ej).

(** What [arpAlloc] puts where it allocates. *)
Definition taken (e : arpEntry) : arpEntry :=
  set_ae_state ARP_USED (if ae_state e =? ARP_FREE then e else arpEntry0).

Lemma oldest_next tab i e r : tab !! i = Some e ->
  match r with None => i = O | Some m => exists em, oldest tab i m em end ->
  exists x ex, (forall n, arptab n = tab -> run (match r with
      | None => mret (Some i)
      | Some m => em ← ae m; mret (if ae_expires e <? ae_expires em then Some i else Some m)
      end) n = Returned n (Some x)) /\ oldest tab (S i) x ex.
Proof.
  intros Ei. destruct r as [m|].
  - intros (em & Hm & Em & Hall). destruct (Z.ltb_spec (ae_expires e) (ae_expires em)).
    + exists i, e. split.
      { intros n En. rewrite (run_ae_bind m em) by (by rewrite En). by destruct (Z.ltb_spec (ae_expires e) (ae_expires em)); [|lia]. }
      split_and!; [lia|done|]. intros j ej Hj Ej. apply lt_S_cases in Hj as [Hj| ->].
      * destruct (Hall j ej Hj Ej). lia.
      * rewrite Ei in Ej. injection Ej as <-. lia.
    + exists m, em. split.
      { intros n En. rewrite (run_ae_bind m em) by (by rewrite En). by destruct (Z.ltb_spec (ae_expires e) (ae_expires em)); [lia|]. }
      split_and!; [lia|done|]. intros j ej Hj Ej. apply lt_S_cases in Hj as [Hj| ->]; [by apply Hall|].
      rewrite Ei in Ej. injection Ej as <-. lia.
  - intros ->. exists O, e. split; [done|]. split_and!; [lia|done|]. intros j ej Hj Ej.
    replace j with O in * by lia. rewrite Ei in Ej. injection Ej as <-. lia.
Qed.

Lemma arpAlloc_loop_spec tab n i r : (n + i = length tab)%nat -> (0 < length tab)%nat ->
  (forall j ej, (j < i)%nat -> tab !! j = Some ej -> ae_state ej <> ARP_FREE) ->
  match r with None => i = O | Some m => exists em, oldest tab i m em end ->
  exists x ex, (free_first tab x ex \/ Forall (fun e => ae_state e <> ARP_FREE) tab /\ oldest tab (length tab) x ex) /\
    forall s, arptab s = tab -> run (arpAlloc_loop n i r) s = Returned (set_arptab (<[x := taken ex]> tab) s) (Some x).
Proof.
  intros Hn Hpos. revert i r Hn. induction n as [|n IH]; intros i r Hn Hnf Hr.
  - simpl in Hn. subst i. destruct r as [m|]; [|lia]. destruct Hr as (em & Hold). exists m, em. split.
    + right. split; [|done]. apply Forall_lookup. intros j e Ej. apply (Hnf j); [by eapply lookup_lt_Some|done].
    + destruct Hold as (Hm & Em & _). intros s Es. cbn [arpAlloc_loop].
      rewrite (run_upd_ae_first m _ em) by (by rewrite Es). rewrite Es, run_upd_ae_in by done. unfold taken.
      destruct (Z.eqb_spec (ae_state em) ARP_FREE) as [F|F]; [by destruct (Hnf m em Hm Em)|done].
  - destruct (lookup_lt_is_Some_2 tab i ltac:(lia)) as [e Ei].
    destruct (Z.eqb_spec ARP_FREE (ae_state e)) as [Hf|Hf].
    + exists i, e. split; [left; done|]. intros s Es. cbn [arpAlloc_loop].
      rewrite (run_ae_bind i e) by (by rewrite Es). rewrite <- Hf. change (ARP_FREE =? ARP_FREE) with true. cbv iota.
      rewrite (run_upd_ae_first i _ e) by (by rewrite Es). rewrite Es. unfold taken. by rewrite <- Hf.
    + destruct (oldest_next tab i e r Ei Hr) as (x & ex & Hrun & Hold).
      destruct (IH (S i) (Some x)) as (y & ey & Hy & H); [lia| |by exists ex|].
      { intros j ej Hj Ej. apply lt_S_cases in Hj as [Hj| ->]; [by apply (Hnf j)|]. congruence. }
      exists y, ey. split; [done|]. intros s Es. cbn [arpAlloc_loop].
      rewrite (run_ae_bind i e) by (by rewrite Es). destruct (Z.eqb_spec ARP_FREE (ae_state e)); [done|].
      rewrite run_bind, Hrun by done. cbn [obind]. by apply H.
Qed.

Lemma arpAlloc_spec n : length (arptab n) = ARP_NENTRY ->
  exists i e, run arpAlloc n = Returned (set_arptab (<[i := taken e]> (arptab n)) n) (Some i) /\ arptab n !! i = Some e /\
    (free_first (arptab n) i e \/
     Forall (fun e => ae_state e <> ARP_FREE) (arptab n) /\ oldest (arptab n) (length (arptab n)) i e).
Proof.
  intros Hl. destruct (arpAlloc_loop_spec (arptab n) ARP_NENTRY 0 None) as (i & e & H & Hrun);
    [lia|rewrite Hl; unfold ARP_NENTRY; lia|lia|done|].
  exists i, e. split_and!; [by apply Hrun| |done]. destruct H as [H|[_ H]]; apply H.
Qed.

(** ** arpNotify *)

(** The program returns or gives the processor away, in a state that satisfies [Q]. *)
Definition ends {S A} (p : prog S A) (s : S) (Q : S -> Prop) : Prop :=
  match run p s with
  | Returned s' _ | Suspended s' _ => Q s'
  | Halted _ | Faulted => False
  end.

Lemma ends_bind {S A B} (p : prog S A) (g : A -> prog S B) s Q :
  match run p s with
  | Returned s' a => ends (g a) s' Q
  | Suspended s' _ => Q s'
  | Halted _ | Faulted => False
  end -> ends (p ≫= g) s Q.
Proof. unfold ends. rewrite run_bind. by destruct (run p s). Qed.

Lemma ends_run {S A} (p p' : prog S A) s s' Q : run p s = run p' s' -> ends p' s' Q -> ends p s Q.
Proof. unfold ends. by intros ->. Qed.

Lemma ends_zoom {S T A} (get : T -> S) (set : S -> T -> T) `{!Part get set} (p : prog S A) t (Q : T -> Prop) :
  ends p (get t) (fun s => Q (set s t)) -> ends (zoom get set p) t Q.
Proof. unfold ends. rewrite run_zoom by done. by destruct (run p (get t)). Qed.

(** Nothing but threads, queues and the scheduler's variables may differ. *)
Definition same_rest (k k' : kernel) : Prop :=
  KInv k' /\ mem k' = mem k /\ semtab k' = semtab k /\ clktime k' = clktime k.

Lemma same_rest_trans k k1 k2 : same_rest k k1 -> same_rest k1 k2 -> same_rest k k2.
Proof. intros (_ & A1 & A2 & A3) (B0 & B1 & B2 & B3). split_and!; [done|congruence..]. Qed.

Lemma send_ends k tid msg : KInv k ->
  match run (send tid msg) k with
  | Returned k' _ | Suspended k' _ => same_rest k k'
  | Halted _ | Faulted => False
  end.
Proof.
  intros [qs HI]. pose proof (keeps_run _ _ _ k (keeps_send semtab (semtab k) tid msg) eq_refl) as Hs.
  pose proof (keeps_run _ _ _ k (keeps_send clktime (clktime k) tid msg) eq_refl) as Hc.
  pose proof (keeps_run _ _ _ k (keeps_send mem (mem k) tid msg) eq_refl) as Hm.
  destruct (first_stretch (fun _ => KInv) (fun _ _ => KInv) (send tid msg) k (nohalt_send tid msg))
    as [(k' & a & E & H)|(k' & p & E & H)]; [|rewrite E in *; done..].
  apply (kwp_send_any (thrcurrent k) _ k k qs); [by intros s s' []|done|done|by apply others_eq|..].
  - intros k' qs' HI' _. by exists qs'.
  - intros r k' qs' [H1 _ _ _]. by exists qs'.
  - by intros r k0' k' qs' [? []].
Qed.

(** The state after [arpNotify] or any of the switches in it: the table but for
    the entry's list of waiting threads, and the memory, are as before. *)
Definition notified (n : netst) (i : nat) (e : arpEntry) (n' : netst) : Prop :=
  exists k w c, same_rest (nkern n) k /\ length w = ARP_NTHRWAIT /\ 0 <= c <= Z.of_nat ARP_NTHRWAIT /\
    n' = set_arptab (<[i := set_ae_wait w c e]> (arptab n)) (set_nkern k n).

Lemma arpNotify_loop_ends fuel i j msg n e : KInv (nkern n) -> arptab n !! i = Some e -> ae_ok e ->
  (j <= ARP_NTHRWAIT)%nat -> (j + fuel = S ARP_NTHRWAIT)%nat ->
  match run (arpNotify_loop fuel i j msg) n with
  | Returned n' _ | Suspended n' _ => exists k, same_rest (nkern n) k /\ n' = set_nkern k n
  | Halted _ | Faulted => False
  end.
Proof.
  intros HI Ei Ho. revert j n HI Ei. induction fuel as [|fuel IH]; intros j n HI Ei Hj Hf; [lia|].
  cbn [arpNotify_loop]. rewrite (run_ae_bind i e) by done.
  destruct (Z.ltb_spec (Z.of_nat j) (ae_count e)) as [Hc|Hc].
  2:{ exists (nkern n). split; [done|]. by rewrite (part_set_get (get := nkern)). }
  pose proof (ao_count _ Ho). pose proof (ao_waiting _ Ho) as Hw.
  destruct (lookup_lt_is_Some_2 (ae_waiting e) j ltac:(lia)) as [tid Et].
  rewrite (run_opt_bind _ _ _ _ Et), run_bind. unfold ncall. rewrite (run_zoom nkern set_nkern).
  pose proof (send_ends (nkern n) tid msg HI) as Hs.
  destruct (run (send tid msg) (nkern n)) as [k r|k p| |]; cbn [on_part obind]; [|by exists k|done|done].
  destruct (r =? SYSERR); [by exists k|].
  specialize (IH (S j) (set_nkern k n)). rewrite (part_get_set (get := nkern)) in IH.
  specialize (IH (proj1 Hs) Ei ltac:(lia) ltac:(lia)).
  destruct (run (arpNotify_loop fuel i (S j) msg) (set_nkern k n)) as [n' ?|n' ?| |]; [| |done|done];
    (destruct IH as (k' & H1 & ->); exists k'; split; [by eapply same_rest_trans|done]).
Qed.

Lemma same_rest_irq k k' v : same_rest k k' -> vic_ok v -> same_rest k (set_irq v k').
Proof. intros (H1 & H2) Hv. split; [by apply KInv_irq|done]. Qed.

Lemma arpNotify_ends i msg n e : KInv (nkern n) -> arptab n !! i = Some e -> ae_ok e ->
  match run (arpNotify (Some i) msg) n with
  | Returned n' _ | Suspended n' _ => notified n i e n'
  | Halted _ | Faulted => False
  end.
Proof.
  intros HI Ei Ho. unfold arpNotify. erewrite run_ncall_bind by reflexivity. fold (off n).
  assert (HIo : KInv (nkern (off n))).
  { unfold off. rewrite (part_get_set (get := nkern)). apply KInv_irq; [done|]. by apply vic_ok_disable, KInv_vic. }
  pose proof (arpNotify_loop_ends (S ARP_NTHRWAIT) i 0 msg (off n) e HIo Ei Ho ltac:(lia) ltac:(lia)) as Hl.
  assert (Hi : (i < length (arptab n))%nat) by (by eapply lookup_lt_Some).
  assert (Hsame : forall k, same_rest (nkern (off n)) k -> same_rest (nkern n) k).
  { intros k (H1 & H2 & H3 & H4). by split_and!. }
  assert (Hkeep : forall k, same_rest (nkern n) k -> notified n i e (set_nkern k n)).
  { intros k Hk. exists k, (ae_waiting e), (ae_count e). split_and!; [done|apply Ho|apply Ho|apply Ho|].
    replace (set_ae_wait (ae_waiting e) (ae_count e) e) with e by (by destruct e).
    rewrite list_insert_id by done. by destruct n as [[[]]]. }
  rewrite run_bind. destruct (run (arpNotify_loop _ i 0 msg) (off n)) as [n1 f|n1 p| |]; cbn [obind]; [| |done|done];
    destruct Hl as (k & Hk%Hsame & ->); change (set_nkern k (off n)) with (set_nkern k n); [|by apply Hkeep].
  assert (Hir : forall im, same_rest (nkern n) (set_irq (vic_set_irqmask im (irq k)) k)).
  { intros im. apply same_rest_irq; [done|]. by apply vic_ok_set, KInv_vic, Hk. }
  destruct f.
  - erewrite run_ncall_bind by reflexivity. cbn [run mret prog_ret].
    rewrite (part_set_set (set := set_nkern)). by apply Hkeep.
  - rewrite (run_upd_ae_first i _ e) by done. rewrite run_upd_ae_in by done.
    erewrite run_ncall_bind by reflexivity. cbn [run mret prog_ret].
    eexists _, (replicate ARP_NTHRWAIT 0), 0. split_and!; [by apply Hir|done|done|unfold ARP_NTHRWAIT; lia|done].
Qed.

(** ** arpLookup of a resolved entry *)

Lemma arpLookup_spec devwrite snoopCapture netptr pr buf n i e :
  vic_ok (irq (nkern n)) -> wf_addr pr -> arp_ok (arptab n) -> Forall (calm (clktime (nkern n))) (arptab n) ->
  netptr <> NULL -> first_for (clktime (nkern n)) pr (arptab n) i e -> ae_state e = ARP_RESOLVED ->
  run (arpLookup devwrite snoopCapture netptr (Some pr) (Some buf)) n =
  Returned (set_arptab (scan (clktime (nkern n)) pr (arptab n)).1 (off n)) (OK, Some (ae_hwaddr e)).
Proof.
  intros Hv Hp Ht Hc Hn Hf Hs. unfold arpLookup. destruct (Z.eqb_spec netptr NULL); [done|].
  rewrite run_bind. change ARP_MAX_LOOKUP with 5%nat. cbn [arpLookup_loop].
  erewrite run_ncall_bind by reflexivity. fold (off n). unfold arpFindOrMake.
  pose proof (arpGetEntry_spec pr (off n) Hv Hp Ht Hc) as Hg.
  change (clktime (nkern (off n))) with (clktime (nkern n)) in Hg. change (arptab (off n)) with (arptab n) in Hg.
  pose proof (scan_first _ _ _ _ _ Hf) as Hr. destruct (scan_found _ _ _ _ Hr) as (e' & Hf' & Et).
  assert (e' = e) as -> by (destruct Hf as (E1 & _), Hf' as (E2 & _); congruence).
  destruct (scan (clktime (nkern n)) pr (arptab n)) as [t r]. simpl in Hr, Et. subst r.
  rewrite run_bind, run_bind, Hg. cbn [obind run mret prog_ret].
  rewrite (run_ae_bind i e) by done. rewrite Hs. done.
Qed.

(** ** Bytes of memory *)

Lemma ldb_range M a : ubyte (ldb M a).
Proof. unfold ldb, ubyte. change 0xff with (Z.ones 8). rewrite Z.land_ones by lia. apply Z.mod_pos_bound. lia. Qed.

(** A word written in front of the bytes. *)
Lemma ldb_st M w v a : w mod 4 = 0 -> w + 4 <= a -> ldb (st M w v) a = ldb M a.
Proof.
  intros Hw Ha. unfold ldb. rewrite ld_st_ne; [done|].
  pose proof (Z.mod_pos_bound a 4). intros E. lia.
Qed.

Lemma ldbs_st M w v a n : w mod 4 = 0 -> w + 4 <= a -> ldbs (st M w v) a n = ldbs M a n.
Proof.
  intros Hw. revert a. induction n as [|n IH]; intros a Ha; [done|]. cbn [ldbs].
  by rewrite ldb_st, IH by lia.
Qed.

Lemma ldbs_length M a n : length (ldbs M a n) = n.
Proof. revert a. induction n as [|n IH]; intros a; [done|]. simpl. by rewrite IH. Qed.

Lemma ldbs_app M a n m : ldbs M a (n + m) = ldbs M a n ++ ldbs M (a + Z.of_nat n) m.
Proof.
  revert a. induction n as [|n IH]; intros a.
  - simpl. by rewrite Z.add_0_r.
  - cbn [ldbs Nat.add app]. rewrite IH. by replace (a + Z.of_nat (S n)) with (a + 1 + Z.of_nat n) by lia.
Qed.

Lemma ldbs_bytes M a n : Forall ubyte (ldbs M a n).
Proof. revert a. induction n as [|n IH]; intros a; constructor; [apply ldb_range|apply IH]. Qed.

(** Part of a block, and one byte of it. *)
Lemma ldbs_part M a n i m l : ldbs M a n = l -> (i + m <= n)%nat ->
  ldbs M (a + Z.of_nat i) m = take m (drop i l).
Proof.
  intros <- H. replace n with (i + (m + (n - i - m)))%nat by lia.
  rewrite !ldbs_app, drop_app_length', take_app_length' by (by rewrite ldbs_length). done.
Qed.

Lemma ldbs_byte M a n i l x : ldbs M a n = l -> l !! i = Some x -> ldb M (a + Z.of_nat i) = x.
Proof.
  intros E Ex. assert (Hi : (i < n)%nat) by (rewrite <- (ldbs_length M a n), E; by eapply lookup_lt_Some).
  pose proof (ldbs_part M a n i 1 l E ltac:(lia)) as H. rewrite (drop_S _ _ _ Ex) in H. simpl in H. congruence.
Qed.

(** ** Buffers *)

Lemma signaln_ends k s count : KInv k -> 0 <= s ->
  (forall e, semtab k !! s = Some e -> scount e + count < 2 ^ 31) -> ends (signaln s count) k (fun _ => True).
Proof.
  intros HI Hs Hm. unfold ends. pose proof (wp_run _ _ _ _ _ _ (signaln_safe k s count HI Hs Hm)) as H.
  pose proof (nohalt_run _ k (nohalt_signaln s count)) as Hh.
  destruct (run (signaln s count) k) as [| |k'|]; [done|done|by destruct (Hh k')|done].
Qed.

(** A store that touches no header. *)
Lemma pool_at_st s s' id e fl used a v : pool_at s id e fl used ->
  (forall b, b ∈ fl ++ used -> a <> b /\ a <> b + 4) ->
  bfptab s' = bfptab s -> mem (kern s') = st (mem (kern s)) a v -> pool_at s' id e fl used.
Proof.
  intros [H1 H2 H3 H4 H5 [G1 G2 G3 G4]] Ha Et Em. split; [by rewrite Et|done|done| | |].
  - rewrite Em. apply chain_st; [|done]. intros Hin. destruct (Ha a ltac:(set_solver)). done.
  - intros b Hb. rewrite Em, ld_st_ne; [by apply H5|]. apply Ha. set_solver.
  - rewrite Em. split; [done|done| |done]. intros b Hb. rewrite ld_st_ne; [by apply G3|]. by apply Ha.
Qed.

Lemma pool_at_mem s s' id e fl used : pool_at s id e fl used ->
  bfptab s' = bfptab s -> mem (kern s') = mem (kern s) -> pool_at s' id e fl used.
Proof. intros [H1 H2 H3 H4 H5 H6] Et Em. split; [by rewrite Et|done|done|by rewrite Em..]. Qed.

(** Releasing a packet buffer that is in use. *)
Lemma buffree_ends s id e fl used b : KInv (kern s) -> pool_at s id e fl (b :: used) -> 0 <= bf_freebuf e ->
  (forall es, semtab (kern s) !! bf_freebuf e = Some es -> scount es + 1 < 2 ^ 31) ->
  ends (buffree (b + 8)) s (fun _ => True).
Proof.
  intros HI Hp Hf Hm. eapply ends_run; [by eapply buffree_run|].
  apply ends_bind. rewrite run_kcall.
  pose proof (signaln_ends (kern (put_back s id b e)) (bf_freebuf e) 1 (put_back_inv _ _ _ _ HI) Hf Hm) as H.
  unfold ends in H. by destruct (run (signaln _ 1) _).
Qed.
