(* ===== verification/ArpProps.v ===== *)
(** * Properties of ARP *)

From S2P Require Import Prelude Prog Queue Interrupt Memory Kernel Thread Semaphore Placement Invariant ThreadSpec CString Sys Mailbox BufPool MailboxSpec BufPoolProps NetAddr NetAddrSpec Net Route RouteSpec NetProps Arp ArpSpec.

Local Arguments Z.eqb : simpl never.
Local Arguments Z.ltb : simpl never.
Local Arguments Z.leb : simpl never.

(** ** The packet *)

(** The packet at [pkt], received on interface [netptr], is an ARP reply from
    hardware address [sha] and protocol address [spa] to [tpa]. *)
Record arp_reply (n : netst) (pkt curr netptr : Z) (sha spa tpa : list Z) : Prop := {
  rp_pkt : 0 < pkt /\ pkt mod 4 = 0;
  rp_curr : ld (mem (nkern n)) (pkt_curr pkt) = curr /\ pkt_data pkt <= curr;
  rp_nif : ld (mem (nkern n)) (pkt_nif pkt) = netptr /\ netptr <> NULL;
  rp_bytes : exists tha, ldbs (mem (nkern n)) curr 28 = [0; 1; 8; 0; 6; 4; 0; 2] ++ sha ++ spa ++ tha ++ tpa
    /\ length sha = 6%nat /\ length spa = 4%nat /\ length tha = 6%nat /\ length tpa = 4%nat;
}.

Lemma reply_header M curr sha spa tha tpa :
  ldbs M curr 28 = [0; 1; 8; 0; 6; 4; 0; 2] ++ sha ++ spa ++ tha ++ tpa ->
  length sha = 6%nat -> length spa = 4%nat -> length tha = 6%nat -> length tpa = 4%nat ->
  ldh M (arp_hwtype curr) = 256 /\ ldb M (arp_hwalen curr) = 6 /\ ldh M (arp_prtype curr) = 8 /\
  ldb M (arp_pralen curr) = 4 /\ ldh M (arp_op curr) = 512 /\ ldbs M (arp_addrs curr) 6 = sha /\
  ldbs M (arp_addrs curr + 6) 4 = spa /\ ldbs M (arp_addrs curr + (6 * 2 + 4)) 4 = tpa.
Proof.
  intros E L1 L2 L3 L4. unfold ldh, arp_hwtype, arp_hwalen, arp_prtype, arp_pralen, arp_op, arp_addrs.
  assert (B : forall (i : nat) x, ([0; 1; 8; 0; 6; 4; 0; 2] ++ sha ++ spa ++ tha ++ tpa) !! i = Some x ->
    ldb M (curr + Z.of_nat i) = x) by (intros i x; apply (ldbs_byte _ _ _ _ _ _ E)).
  assert (P : forall i m, (i + m <= 28)%nat -> ldbs M (curr + Z.of_nat i) m =
    take m (drop i ([0; 1; 8; 0; 6; 4; 0; 2] ++ sha ++ spa ++ tha ++ tpa))) by (intros i m; by apply ldbs_part).
  pose proof (B 0%nat _ eq_refl : ldb M (curr + 0) = 0) as B0. pose proof (B 1%nat _ eq_refl : ldb M (curr + 1) = 1) as B1.
  pose proof (B 2%nat _ eq_refl : ldb M (curr + 2) = 8) as B2. pose proof (B 3%nat _ eq_refl : ldb M (curr + 3) = 0) as B3.
  pose proof (B 4%nat _ eq_refl : ldb M (curr + 4) = 6) as B4. pose proof (B 5%nat _ eq_refl : ldb M (curr + 5) = 4) as B5.
  pose proof (B 6%nat _ eq_refl : ldb M (curr + 6) = 0) as B6. pose proof (B 7%nat _ eq_refl : ldb M (curr + 7) = 2) as B7.
  rewrite Z.add_0_r in B0. replace (curr + 2 + 1) with (curr + 3) by lia. replace (curr + 6 + 1) with (curr + 7) by lia.
  rewrite B0, B1, B2, B3, B4, B5, B6, B7. split_and!; [done..| | |].
  - change (curr + 8) with (curr + Z.of_nat 8). rewrite P by lia. cbn [app drop]. by apply take_app_length'.
  - replace (curr + 8 + 6) with (curr + Z.of_nat 14) by lia. rewrite P by lia.
    rewrite app_assoc, drop_app_length' by (rewrite length_app, L1; done). by apply take_app_length'.
  - replace (curr + 8 + (6 * 2 + 4)) with (curr + Z.of_nat 24) by lia. rewrite P by lia.
    rewrite !app_assoc, drop_app_length' by (rewrite !length_app, L1, L2, L3; done). apply take_ge. lia.
Qed.

(** The local copy of an address in a packet. *)
Definition addr_of (garbage : list Z) (type : Z) (l : list Z) : netaddr :=
  mknetaddr type (Z.of_nat (length l)) (l ++ drop (length l) garbage).

Lemma addr_of_wf g t l : length g = Z.to_nat NET_MAX_ALEN -> Forall ubyte g -> Forall ubyte l ->
  (length l <= Z.to_nat NET_MAX_ALEN)%nat -> wf_addr (addr_of g t l).
Proof.
  intros H1 H2 H3 H4. split; simpl; [unfold NET_MAX_ALEN in *; lia| |].
  - rewrite length_app, length_drop. lia.
  - apply Forall_app. split; [done|by apply Forall_drop].
Qed.

Lemma addr_of_octets g t l : octets (addr_of g t l) = l.
Proof. unfold octets. simpl. rewrite Nat2Z.id. apply take_app_length. Qed.

Lemma run_get_addr {B} g t len p l (k : netaddr -> prog netst B) n :
  ldbs (mem (nkern n)) p (Z.to_nat len) = l -> 0 <= len <= NET_MAX_ALEN ->
  run (get_addr g t len p ≫= k) n = run (k (addr_of g t l)) n.
Proof.
  intros E Hl. rewrite run_bind. unfold get_addr. destruct (Z.ltb_spec NET_MAX_ALEN len); [lia|].
  assert (Hlen : length l = Z.to_nat len) by (rewrite <- E; apply ldbs_length).
  unfold ngets. rewrite run_gets_bind, E. cbn [run mret prog_ret obind]. unfold addr_of.
  by rewrite Hlen, Z2Nat.id by lia.
Qed.

(** ** What a table has learned *)

(** From [now] on and until [now + ARP_TTL_RESOLVED] the table has the hardware
    address [sha] for [pr]. *)
Definition learned (now : Z) (sha : list Z) (pr : netaddr) (tab : list arpEntry) : Prop :=
  exists i e, tab !! i = Some e /\ ae_state e = ARP_RESOLVED /\ octets (ae_hwaddr e) = sha /\ is_for pr e /\
    ae_expires e = now + ARP_TTL_RESOLVED /\
    forall j ej, (j < i)%nat -> tab !! j = Some ej -> used ej = true -> expired now ej = false -> ~ is_for pr ej.

(** The entry [e] after the sender's reply. *)
Definition resolved_entry (now : Z) (sha : netaddr) (e : arpEntry) (w : list Z) (c : Z) : arpEntry :=
  mkarpEntry ARP_RESOLVED (ae_nif e) sha (ae_praddr e) (u32 (now + ARP_TTL_RESOLVED)) w c.

Lemma resolved_learned now sha pr tab i e w c : (i < length tab)%nat -> is_for pr e ->
  0 <= now -> now + ARP_TTL_RESOLVED < 2 ^ 32 ->
  (forall j ej, j <> i -> tab !! j = Some ej -> used ej = true -> expired now ej = false -> is_for pr ej -> (i < j)%nat) ->
  learned now (octets sha) pr (<[i := resolved_entry now sha e w c]> tab).
Proof.
  intros Hi Hf Hn Hm Hall. exists i, (resolved_entry now sha e w c). split_and!; [by apply list_lookup_insert_eq|done..| |].
  - simpl. apply u32_id. unfold is_u32, ARP_TTL_RESOLVED in *. lia.
  - intros j ej Hj Ej Hu Hx Hfj. rewrite list_lookup_insert_ne in Ej by lia.
    pose proof (Hall j ej ltac:(lia) Ej Hu Hx Hfj). lia.
Qed.

(** A lookup while the knowledge is fresh. *)
Lemma learned_first now sha pr tab now' : learned now sha pr tab -> now <= now' <= now + ARP_TTL_RESOLVED ->
  exists i e, first_for now' pr tab i e /\ ae_state e = ARP_RESOLVED /\ octets (ae_hwaddr e) = sha.
Proof.
  intros (i & e & Ei & Hs & Ho & Hf & Hx & Hall) Hn. exists i, e. unfold first_for. split_and!; try done.
  - unfold used. by rewrite Hs.
  - unfold expired. rewrite Hx. apply Z.ltb_ge. lia.
  - intros j ej Hj Ej Hu Hxj. apply (Hall j ej Hj Ej Hu). unfold expired in *. apply Z.ltb_ge in Hxj. apply Z.ltb_ge. lia.
Qed.

(** ** Parts of arpRecv *)

Lemma arpUpdate_ends i sha n e : KInv (nkern n) -> arptab n !! i = Some e -> ae_ok e -> used e = true ->
  match run (arpUpdate (Some i) sha) n with
  | Returned n' _ | Suspended n' _ => exists k w c, same_rest (nkern n) k /\ length w = ARP_NTHRWAIT /\
      0 <= c <= Z.of_nat ARP_NTHRWAIT /\
      n' = set_arptab (<[i := resolved_entry (clktime (nkern n)) sha e w c]> (arptab n)) (set_nkern k n)
  | Halted _ | Faulted => False
  end.
Proof.
  intros HI Ei Ho Hu. assert (Hi : (i < length (arptab n))%nat) by (by eapply lookup_lt_Some).
  unfold arpUpdate. rewrite (run_upd_ae_first i _ e) by done. rewrite run_gets_bind, run_upd_ae_in, run_ae_in by done.
  cbn [ae_state set_ae_expires set_ae_hwaddr]. change (clktime (nkern (set_arptab _ n))) with (clktime (nkern n)).
  set (e1 := set_ae_expires _ _). destruct (Z.eqb_spec ARP_UNRESOLVED (ae_state e)) as [Es|Es].
  - rewrite run_upd_ae_in by done. set (e2 := set_ae_state ARP_RESOLVED e1).
    set (n1 := set_arptab (<[i := e2]> (arptab n)) n). rewrite run_bind.
    assert (Ho2 : ae_ok e2).
    { destruct Ho as [H1 H2 H3 H4]. split; simpl; [by right; right| |done|done]. intros _. by apply H2. }
    pose proof (arpNotify_ends i ARP_MSG_RESOLVED n1 e2 HI ltac:(simpl; by apply list_lookup_insert_eq) Ho2) as Hn.
    destruct (run (arpNotify (Some i) ARP_MSG_RESOLVED) n1) as [n'|n'| |]; cbn [obind]; [| |done|done];
      (destruct Hn as (k & w & c & Hk & Hw & Hc & ->); exists k, w, c; split_and!; [done|done|lia|lia|];
       unfold n1; simpl arptab; by rewrite list_insert_insert_eq).
  - exists (nkern n), (ae_waiting e), (ae_count e). split_and!; [done|apply Ho|apply Ho|apply Ho|].
    assert (Hr : ae_state e = ARP_RESOLVED).
    { destruct (ao_state _ Ho) as [H|[H|H]]; [|done|done]. unfold used in Hu. by rewrite H in Hu. }
    rewrite (part_set_get (get := nkern)). unfold e1, resolved_entry. rewrite <- Hr. done.
Qed.

Lemma arpEnter_run netptr sha spa n i e :
  run arpAlloc n = Returned (set_arptab (<[i := taken e]> (arptab n)) n) (Some i) -> (i < length (arptab n))%nat ->
  exists w c e', run (arpEnter netptr sha spa) n = Returned (set_arptab (<[i := e']> (arptab n)) n) true /\
    e' = resolved_entry (clktime (nkern n)) sha (set_ae_praddr spa (set_ae_nif netptr e)) w c /\
    (ae_ok e -> length w = ARP_NTHRWAIT /\ 0 <= c <= Z.of_nat ARP_NTHRWAIT).
Proof.
  intros E Hi. exists (ae_waiting (taken e)), (ae_count (taken e)). eexists. split; [|split; [reflexivity|]].
  - unfold arpEnter. rewrite run_bind, E. cbn [obind]. rewrite !run_upd_ae_in, run_gets_bind, run_upd_ae_in by done.
    cbn [run mret prog_ret]. unfold taken, resolved_entry. by destruct (ae_state e =? ARP_FREE).
  - intros [_ _ H1 H2]. unfold taken. destruct (ae_state e =? ARP_FREE); simpl; [done|]. unfold ARP_NTHRWAIT. split; [done|lia].
Qed.

(** The end: interrupts are restored and the packet is released. *)
Section release.
Context (id : Z) (pe : bfpentry) (fl used : list Z) (b : Z).

Record packet_buffer (n : netst) : Prop := {
  pb_pool : pool_at (sys n) id pe fl (b :: used);
  pb_sem : 0 <= bf_freebuf pe;
  pb_count : forall es, semtab (nkern n) !! bf_freebuf pe = Some es -> scount es + 1 < 2 ^ 31;
}.

Lemma packet_buffer_rest n n' : packet_buffer n -> same_rest (nkern n) (nkern n') ->
  bfptab (sys n') = bfptab (sys n) -> packet_buffer n'.
Proof.
  intros [H1 H2 H3] (_ & Hm & Hs & _) Hb. split; [by eapply pool_at_mem|done|by rewrite Hs].
Qed.

Lemma release_ends im (r : Z) n : KInv (nkern n) -> packet_buffer n ->
  ends (ncall (k_restore im);; netFreebuf (b + 8);; mret r) n (fun n' => arptab n' = arptab n).
Proof.
  intros HI Hp. set (n1 := set_nkern (set_irq (vic_set_irqmask im (irq (nkern n))) (nkern n)) n).
  eapply ends_run; [by erewrite run_ncall_bind by reflexivity|]. fold n1. apply ends_bind.
  assert (HI1 : KInv (nkern n1)).
  { unfold n1. rewrite (part_get_set (get := nkern)). apply KInv_irq; [done|]. by apply vic_ok_set, KInv_vic. }
  assert (Hp1 : packet_buffer n1) by (apply (packet_buffer_rest n); [done|by split_and!|done]).
  pose proof (buffree_ends (sys n1) id pe fl used b HI1 (pb_pool _ Hp1) (pb_sem _ Hp1) (pb_count _ Hp1)) as Hb.
  unfold netFreebuf, scall. rewrite (run_zoom sys set_sys). unfold ends in Hb.
  by destruct (run (buffree (b + 8)) (sys n1)).
Qed.

End release.

(** ** arpRecv of a reply *)

Definition garbage_ok (g : list Z) : Prop := length g = Z.to_nat NET_MAX_ALEN /\ Forall ubyte g.

(** What [arpRecv] has made of the table when it returns or gives the processor away. *)
Definition knows (now : Z) (sha : list Z) (pr : netaddr) (n : netst) : Prop :=
  arp_ok (arptab n) /\ learned now sha pr (arptab n).

Lemma resolved_ok now sha e w c : wf_addr (ae_praddr e) -> length w = ARP_NTHRWAIT ->
  0 <= c <= Z.of_nat ARP_NTHRWAIT -> ae_ok (resolved_entry now sha e w c).
Proof. intros. split; simpl; [by right; right|done|done|done]. Qed.

Lemma arp_ok_insert tab i e : arp_ok tab -> ae_ok e -> arp_ok (<[i := e]> tab).
Proof. intros [H1 H2] He. split; [by rewrite length_insert|by apply Forall_insert]. Qed.

(** The sender has an entry. *)
Lemma found_knows now sha pr tab i e w c (sh : netaddr) :
  arp_ok tab -> (scan now pr tab).2 = Some i -> first_for now pr tab i e -> octets sh = sha ->
  0 <= now -> now + ARP_TTL_RESOLVED < 2 ^ 32 -> length w = ARP_NTHRWAIT -> 0 <= c <= Z.of_nat ARP_NTHRWAIT ->
  arp_ok (<[i := resolved_entry now sh e w c]> (scan now pr tab).1) /\
  learned now sha pr (<[i := resolved_entry now sh e w c]> (scan now pr tab).1).
Proof.
  intros [Hl Ht] Hr Hf <- Hn Hm Hw Hc. pose proof Hf as (Ei & Hu & _ & His & Hall).
  assert (Ho : ae_ok e) by (rewrite Forall_lookup in Ht; by eapply Ht). split.
  - apply arp_ok_insert; [|apply resolved_ok; [by apply Ho|done..]]. split; [by rewrite scan_length|by apply scan_ok].
  - apply resolved_learned; [rewrite scan_length; by eapply lookup_lt_Some|done..|].
    intros j ej Hne Ej Huj Hxj Hfj. destruct (decide (i < j)%nat) as [|Hlt]; [done|].
    apply scan_entries in Ej as [Ej| ->]; [|done]. by destruct (Hall j ej ltac:(lia) Ej Huj Hxj).
Qed.

(** The sender has none, and gets the allocated entry. *)
Lemma new_knows now sha pr spa tab i e w c (sh : netaddr) netptr :
  arp_ok tab -> (scan now pr tab).2 = None -> (scan now pr tab).1 !! i = Some e -> octets sh = sha ->
  wf_addr spa -> kind spa = kind pr -> octets spa = octets pr ->
  0 <= now -> now + ARP_TTL_RESOLVED < 2 ^ 32 -> (ae_ok e -> length w = ARP_NTHRWAIT /\ 0 <= c <= Z.of_nat ARP_NTHRWAIT) ->
  let e' := resolved_entry now sh (set_ae_praddr spa (set_ae_nif netptr e)) w c in
  arp_ok (<[i := e']> (scan now pr tab).1) /\ learned now sha pr (<[i := e']> (scan now pr tab).1).
Proof.
  intros [Hl Ht] Hr Ei <- Hs Hk Hos Hn Hm Hw. pose proof (scan_ok now pr tab Ht) as Ht'.
  assert (Ho : ae_ok e) by (rewrite Forall_lookup in Ht'; by eapply Ht'). destruct (Hw Ho) as [Hw1 Hw2]. split.
  - apply arp_ok_insert; [|by apply resolved_ok]. split; [by rewrite scan_length|done].
  - apply resolved_learned; [by eapply lookup_lt_Some|done|done|done|].
    intros j ej _ Ej Huj Hxj Hfj. apply scan_entries in Ej as [Ej| ->]; [|done].
    destruct (scan_none _ _ _ Hr ej); [by eapply list_elem_of_lookup_2|done..].
Qed.

Section reply.
Context (n : netst) (pkt curr netptr : Z) (nf : netif) (sha spa tpa gsha gspa gdpa : list Z).
Context (id : Z) (pe : bfpentry) (fl used_bufs : list Z) (b : Z) (pr : netaddr).

Hypothesis Hinv : KInv (nkern n).
Hypothesis Htab : arp_ok (arptab n).
Hypothesis Hcalm : Forall (calm (clktime (nkern n))) (arptab n).
Hypothesis Hnow : 0 <= clktime (nkern n) /\ clktime (nkern n) + ARP_TTL_RESOLVED < 2 ^ 32.
Hypothesis Hreply : arp_reply n pkt curr netptr sha spa tpa.
Hypothesis Hnif : netiftab n !! netptr = Some nf.
Hypothesis Hip : wf_addr (nf_ip nf).
Hypothesis Hgarb : garbage_ok gsha /\ garbage_ok gspa /\ garbage_ok gdpa.
Hypothesis Hbuf : packet_buffer id pe fl used_bufs b n.
Hypothesis Hpkt : pkt = b + 8.
Hypothesis Hapart : forall x, x ∈ fl ++ b :: used_bufs -> pkt_nethdr pkt <> x /\ pkt_nethdr pkt <> x + 4.
Hypothesis Hpr : wf_addr pr /\ kind pr = (NETADDR_IPv4, IPv4_ADDR_LEN) /\ octets pr = spa.

(** The sender is known, or the reply is for this interface. *)
Hypothesis Hsender : (exists i e, first_for (clktime (nkern n)) pr (arptab n) i e) \/
  kind (nf_ip nf) = (NETADDR_IPv4, IPv4_ADDR_LEN) /\ octets (nf_ip nf) = tpa.

Let now : Z := clktime (nkern n).
Let M1 : memory := st (mem (nkern n)) (pkt_nethdr pkt) curr.
Let n1 : netst := set_nkern (set_mem M1 (nkern n)) n.

(** The state after the header was read, and the rest of the program. *)
Lemma arpRecv_header :
  ldh M1 (arp_hwtype curr) = 256 /\ ldb M1 (arp_hwalen curr) = 6 /\ ldh M1 (arp_prtype curr) = 8 /\
  ldb M1 (arp_pralen curr) = 4 /\ ldh M1 (arp_op curr) = 512 /\ ldbs M1 (arp_addrs curr) 6 = sha /\
  ldbs M1 (arp_addrs curr + 6) 4 = spa /\ ldbs M1 (arp_addrs curr + (6 * 2 + 4)) 4 = tpa.
Proof.
  destruct Hreply as [[Hp1 Hp2] [Hc1 Hc2] _ (tha & Hb & L1 & L2 & L3 & L4)].
  eapply reply_header; [|exact L1|exact L2|exact L3|exact L4]. rewrite <- Hb.
  apply ldbs_st; unfold pkt_nethdr, pkt_data in *; [|lia].
  rewrite Z.add_mod, Hp2 by lia. done.
Qed.

Let n2 : netst := off n1.
Let A_sha : netaddr := addr_of gsha ARP_HWTYPE_ETHERNET sha.
Let A_spa : netaddr := addr_of gspa NETADDR_IPv4 spa.
Let A_dpa : netaddr := addr_of gdpa NETADDR_IPv4 tpa.
Let im : Z := mask (nkern n1).

(** A request is queued, then the packet is released. *)
Definition arpRecv_reply : prog netst Z :=
  op ← ngets (fun M => ldh M (arp_op curr));
  if ARP_OP_RQST =? net2hs op then
    q ← gets arpqueue;
    c ← scall (mailboxCount q);
    if ARP_NQUEUE <=? c then ncall (k_restore im);; netFreebuf pkt;; mret SYSERR
    else scall (mailboxSend q pkt);; ncall (k_restore im);; mret OK
  else ncall (k_restore im);; netFreebuf pkt;; mret OK.

(** After the test of the destination. *)
Definition arpRecv_mine (entry : option nat) (mine : bool) : prog netst Z :=
  if mine then
    ok ← (match entry with
          | Some _ => mret true
          | None => np ← nload (pkt_nif pkt); arpEnter np A_sha A_spa
          end);
    if negb (ok : bool) then ncall (k_restore im);; netFreebuf pkt;; mret SYSERR
    else arpRecv_reply
  else ncall (k_restore im);; netFreebuf pkt;; mret OK.

(** From the update of the sender's entry on. *)
Definition arpRecv_rest (entry : option nat) : prog netst Z :=
  dpa ← get_addr gdpa NETADDR_IPv4 4 (arp_addrs curr + (6 * 2 + 4));
  nf ← nif netptr;
  mine ← opt (netaddrequal (nf_ip nf) dpa);
  arpRecv_mine entry mine.

Lemma arpRecv_start : run (arpRecv gsha gspa gdpa pkt) n =
  run (entry ← arpGetEntry A_spa; arpUpdate entry A_sha;; arpRecv_rest entry) n2.
Proof.
  destruct arpRecv_header as (H1 & H2 & H3 & H4 & H5 & H6 & H7 & H8).
  destruct Hreply as [[Hp1 Hp2] [Hc1 Hc2] [Hi1 Hi2] _].
  unfold arpRecv, nload, nstore, nputs, ngets. destruct (Z.eqb_spec pkt NULL) as [E0|_]; [unfold NULL in E0; lia|].
  rewrite run_gets_bind, Hc1, run_modify_bind, run_gets_bind.
  change (set_nkern (set_mem (st (mem (nkern n)) (pkt_nethdr pkt) curr) (nkern n)) n) with n1.
  assert (Hm : mem (nkern n1) = M1) by done. rewrite Hm.
  replace (ld M1 (pkt_nif pkt)) with netptr
    by (unfold M1, pkt_nif, pkt_nethdr in *; by rewrite ld_st_ne by lia).
  destruct (Z.eqb_spec netptr NULL); [done|]. destruct (Z.eqb_spec curr NULL); [unfold pkt_data, NULL in *; lia|].
  cbn [orb]. rewrite run_gets_bind, Hm, H1, run_gets_bind, Hm, H2.
  change (negb (ARP_HWTYPE_ETHERNET =? net2hs 256) || negb (ETH_ADDR_LEN =? 6)) with false. cbv iota.
  rewrite run_gets_bind, Hm, H3, run_gets_bind, Hm, H4.
  change (negb (ETHER_TYPE_IPv4 =? net2hs 8) || negb (IPv4_ADDR_LEN =? 4)) with false. cbv iota.
  rewrite (run_get_addr _ _ _ _ sha) by (by rewrite ?Hm || (unfold NET_MAX_ALEN; lia)).
  rewrite (run_get_addr _ _ _ _ spa) by (by rewrite ?Hm || (unfold NET_MAX_ALEN; lia)).
  erewrite run_ncall_bind by reflexivity. done.
Qed.

(** What the rest relies on. *)
Record underway (m : netst) : Prop := {
  uw_inv : KInv (nkern m);
  uw_mem : mem (nkern m) = M1;
  uw_nif : netiftab m = netiftab n;
  uw_buf : packet_buffer id pe fl used_bufs b m;
  uw_clock : clktime (nkern m) = now;
}.

Lemma underway_n2 : underway n2.
Proof.
  assert (HI : KInv (nkern n2)).
  { unfold n2, off, n1. rewrite !(part_get_set (get := nkern)). apply KInv_irq; [by apply KInv_mem|].
    exact (KInv_vic _ Hinv). }
  split; [done|done|done| |done]. destruct Hbuf as [B1 B2 B3]. split; [|done|done].
  by apply (pool_at_st (sys n) (sys n2) id pe fl (b :: used_bufs) (pkt_nethdr pkt) curr).
Qed.

Lemma underway_rest m t k : underway m -> same_rest (nkern m) k -> underway (set_arptab t (set_nkern k m)).
Proof.
  intros [U1 U2 U3 U4 U5] Hk. pose proof Hk as (K1 & K2 & K3 & K4).
  split; [exact K1|by rewrite <- U2, <- K2|done| |by rewrite <- U5, <- K4].
  by eapply packet_buffer_rest; [exact U4|exact Hk|].
Qed.

Lemma underway_tab m t : underway m -> underway (set_arptab t m).
Proof. intros [U1 U2 U3 [B1 B2 B3] U5]. split; try done. Qed.

(** Is the packet for this interface? *)
Lemma run_mine entry m : underway m ->
  exists mine : bool, (mine = true <-> kind (nf_ip nf) = (NETADDR_IPv4, IPv4_ADDR_LEN) /\ octets (nf_ip nf) = tpa) /\
  run (arpRecv_rest entry) m = run (arpRecv_mine entry mine) m.
Proof.
  intros U. destruct arpRecv_header as (_ & _ & _ & _ & _ & _ & _ & H8).
  assert (Ht : length tpa = 4%nat) by (by destruct Hreply as [_ _ _ (tha & _ & _ & _ & _ & ?)]).
  assert (Hw : wf_addr A_dpa).
  { destruct Hgarb as (_ & _ & [? ?]). apply addr_of_wf; [done|done| |unfold NET_MAX_ALEN; lia]. rewrite <- H8. apply ldbs_bytes. }
  exists (bool_decide (kind (nf_ip nf) = kind A_dpa /\ octets (nf_ip nf) = octets A_dpa)). split.
  - rewrite bool_decide_eq_true. unfold A_dpa. rewrite addr_of_octets. unfold kind at 2. simpl. by rewrite Ht.
  - unfold arpRecv_rest. rewrite (run_get_addr _ _ _ _ tpa) by (by rewrite ?(uw_mem _ U) || (unfold NET_MAX_ALEN; lia)).
    unfold nif at 1. rewrite (run_readopt_bind _ _ _ nf) by (by rewrite (uw_nif _ U)).
    by rewrite (run_opt_bind _ _ _ _ (netaddrequal_spec _ _ Hip Hw)).
Qed.

(** A reply is not queued for an answer. *)
Lemma reply_done m : underway m -> ends arpRecv_reply m (fun m' => arptab m' = arptab m).
Proof.
  intros U. destruct arpRecv_header as (_ & _ & _ & _ & H5 & _). unfold arpRecv_reply, ngets.
  eapply ends_run; [rewrite run_gets_bind, (uw_mem _ U), H5; reflexivity|].
  change (ARP_OP_RQST =? net2hs 512) with false. cbv iota. rewrite Hpkt. apply (release_ends id pe fl used_bufs); apply U.
Qed.

Lemma rest_found i m : underway m -> ends (arpRecv_rest (Some i)) m (fun m' => arptab m' = arptab m).
Proof.
  intros U. destruct (run_mine (Some i) m U) as (mine & _ & E).
  eapply ends_run; [exact E|]. destruct mine; [by apply reply_done|].
  unfold arpRecv_mine. rewrite Hpkt. apply (release_ends id pe fl used_bufs); apply U.
Qed.

Lemma arpRecv_knows : ends (arpRecv gsha gspa gdpa pkt) n (knows now sha pr).
Proof.
  destruct arpRecv_header as (_ & _ & _ & _ & _ & H6 & H7 & _). pose proof underway_n2 as U2.
  assert (Hlen : length sha = 6%nat /\ length spa = 4%nat) by (destruct Hreply as [_ _ _ (tha & _ & ? & ? & _)]; done).
  assert (Hsp : wf_addr A_spa).
  { destruct Hgarb as (_ & [? ?] & _). apply addr_of_wf; [done|done| |unfold NET_MAX_ALEN; lia]. rewrite <- H7. apply ldbs_bytes. }
  destruct Hpr as (Hpw & Hpk & Hpo).
  assert (Hk : kind A_spa = kind pr) by (rewrite Hpk; unfold kind; simpl; by destruct Hlen as [_ ->]).
  assert (Ho : octets A_spa = octets pr) by (rewrite Hpo; apply addr_of_octets).
  eapply ends_run; [exact arpRecv_start|]. apply ends_bind.
  pose proof (arpGetEntry_spec A_spa n2 (KInv_vic _ (uw_inv _ U2)) Hsp Htab Hcalm) as Hg.
  change (clktime (nkern n2)) with now in Hg. change (arptab n2) with (arptab n) in Hg. rewrite (scan_ext _ _ pr) in Hg by done.
  destruct (scan now pr (arptab n)) as [t r] eqn:Es. rewrite Hg. apply ends_bind.
  assert (Et : (scan now pr (arptab n)).1 = t) by (by rewrite Es). assert (Er : (scan now pr (arptab n)).2 = r) by (by rewrite Es).
  destruct r as [i|].
  - destruct (scan_found _ _ _ _ Er) as (e & Hf & Ei). rewrite Et in Ei.
    assert (Hoe : ae_ok e) by (pose proof (scan_ok now pr _ (proj2 Htab)) as Hs; rewrite Et, Forall_lookup in Hs; by eapply Hs).
    pose proof (arpUpdate_ends i A_sha (set_arptab t n2) e (uw_inv _ U2) Ei Hoe (proj1 (proj2 Hf))) as Hu.
    assert (Hkn : forall w c, length w = ARP_NTHRWAIT -> 0 <= c <= Z.of_nat ARP_NTHRWAIT ->
      arp_ok (<[i := resolved_entry now A_sha e w c]> t) /\ learned now sha pr (<[i := resolved_entry now A_sha e w c]> t)).
    { intros w c Hw Hc. rewrite <- Et. apply found_knows; try done; [apply addr_of_octets|apply Hnow|apply Hnow]. }
    destruct (run (arpUpdate (Some i) A_sha) (set_arptab t n2)) as [n'|n'| |]; [| |done|done];
      destruct Hu as (k & w & c & Hsr & Hw & Hc & ->); [|by apply Hkn].
    pose proof (rest_found i _ (underway_rest _ (<[i := resolved_entry now A_sha e w c]> t) k (underway_tab _ t U2) Hsr)) as He.
    unfold ends in *. destruct (run (arpRecv_rest (Some i)) _) as [n'|n'| |]; [| |done|done];
      unfold knows; rewrite He; by apply Hkn.
  - assert (Hmine : kind (nf_ip nf) = (NETADDR_IPv4, IPv4_ADDR_LEN) /\ octets (nf_ip nf) = tpa).
    { destruct Hsender as [(i & e & Hf)|H]; [|done]. apply scan_first in Hf. fold now in Hf. congruence. }
    destruct (run_mine None _ (underway_tab _ t U2)) as (mine & Hm & E).
    eapply ends_run; [exact E|]. destruct mine; [|by apply Hm in Hmine].
    destruct (arpAlloc_spec (set_arptab t n2)) as (i & e & Ea & Ei & _);
      [simpl; rewrite <- Et, scan_length; apply Htab|]. simpl arptab in Ei.
    assert (Hi : (i < length t)%nat) by (by eapply lookup_lt_Some).
    destruct (arpEnter_run (ld M1 (pkt_nif pkt)) A_sha A_spa _ i e Ea Hi) as (w & c & e' & En & -> & Hwc).
    change (clktime (nkern (set_arptab t n2))) with now in En. rewrite <- Et in Ei.
    destruct (new_knows now sha pr A_spa (arptab n) i e w c A_sha (ld M1 (pkt_nif pkt)) Htab Er Ei
      (addr_of_octets _ _ _) Hsp Hk Ho (proj1 Hnow) (proj2 Hnow) Hwc) as [Hok Hle]. rewrite Et in Hok, Hle.
    unfold arpRecv_mine. apply ends_bind. unfold nload. rewrite run_gets_bind.
    change (mem (nkern (set_arptab t n2))) with M1. rewrite En. cbn [negb].
    pose proof (reply_done _ (underway_tab _ (<[i := resolved_entry now A_sha
      (set_ae_praddr A_spa (set_ae_nif (ld M1 (pkt_nif pkt)) e)) w c]> t) U2)) as He.
    unfold ends in *. destruct (run arpRecv_reply _) as [n'|n'| |]; [| |done|done];
      unfold knows; rewrite He; by split.
Qed.

(** C40: arp_reply_resolves.  A thread receives an ARP reply in a packet buffer;
    the sender has an entry in the table, or the reply is addressed to the
    interface.  [arpRecv] neither faults nor halts; and as soon as it returns or
    gives the processor away (it wakes the threads that wait for the entry), any
    [arpLookup] of the sender's address in the following [ARP_TTL_RESOLVED] seconds
    finds the sender's hardware address at once, as long as the table is the same
    and no thread waits for an expired entry. *)
Theorem arp_reply_resolves : ends (arpRecv gsha gspa gdpa pkt) n (fun n' =>
  arp_ok (arptab n') /\
  forall m devwrite snoopCapture np buf, arptab m = arptab n' -> vic_ok (irq (nkern m)) ->
    Forall (calm (clktime (nkern m))) (arptab m) ->
    clktime (nkern n) <= clktime (nkern m) <= clktime (nkern n) + ARP_TTL_RESOLVED -> np <> NULL ->
    exists m' hw, run (arpLookup devwrite snoopCapture np (Some pr) (Some buf)) m = Returned m' (OK, Some hw) /\
      octets hw = sha).
Proof.
  pose proof arpRecv_knows as H. unfold ends in *.
  destruct (run (arpRecv gsha gspa gdpa pkt) n) as [n'|n'| |]; [| |done|done]; destruct H as [Hok Hle]; (split; [done|]);
    intros m dw sc np buf Em Hv Hc Hn Hnp; (destruct (learned_first now sha pr (arptab n') (clktime (nkern m)) Hle Hn)
      as (i & e & Hf & Hs & Ho)); rewrite <- Em in *; eexists _, (ae_hwaddr e);
    (split; [eapply (arpLookup_spec dw sc np pr buf m i e); try done; apply Hpr|done]).
Qed.

End reply.

(** ** arpAlloc *)

(** [arpAlloc] always finds an entry: the first free
    one, or, when none is free, the first of those that expire first, which it
    clears; it changes no other entry. *)
Theorem arpAlloc_evicts_oldest n : length (arptab n) = ARP_NENTRY ->
  exists i e e', arptab n !! i = Some e /\ run arpAlloc n = Returned (set_arptab (<[i := e']> (arptab n)) n) (Some i) /\
    ae_state e' = ARP_USED /\
    (ae_state e = ARP_FREE /\ e' = set_ae_state ARP_USED e /\
       (forall j ej, (j < i)%nat -> arptab n !! j = Some ej -> ae_state ej <> ARP_FREE) \/
     e' = set_ae_state ARP_USED arpEntry0 /\ forall j ej, arptab n !! j = Some ej -> ae_state ej <> ARP_FREE /\
       ae_expires e <= ae_expires ej /\ ((j < i)%nat -> ae_expires e < ae_expires ej)).
Proof.
  intros Hl. destruct (arpAlloc_spec n Hl) as (i & e & E & Ei & H). exists i, e, (taken e).
  split_and!; [done|done|done|]. unfold taken. destruct H as [(_ & Hf & Hall)|[Hnf (_ & _ & Hold)]].
  - left. rewrite Hf. done.
  - right. rewrite Forall_lookup in Hnf. split.
    + by rewrite (proj2 (Z.eqb_neq _ _) (Hnf i e Ei)).
    + intros j ej Ej. split; [by eapply Hnf|]. apply Hold; [by eapply lookup_lt_Some|done].
Qed.

(** ** Witnesses *)

(** A buffer in use at 0x30000 with a packet from the interface at 0x50000: a
    reply from 10.0.0.9 to 10.0.0.7. *)
Definition reply_bytes : list Z :=
  [0; 1; 8; 0; 6; 4; 0; 2] ++ [2; 0; 0; 0; 0; 9] ++ [10; 0; 0; 9] ++ [2; 0; 0; 0; 0; 7] ++ [10; 0; 0; 7].
Definition reply_mem : memory :=
  stbs (st (st (st (st (mkmemory ∅ 0 0 0 0) 0x30000 0x30000) 0x30004 3) 0x30008 0x50000) 0x30018 0x3002c)
    0x3002c reply_bytes.
Definition reply_pool : bfpentry := mkbfpentry BFPUSED 1632 1 0x30000 0 2.
Definition reply_sys : sysst := mksysst (set_mem reply_mem tokens) ∅ 0 0 {[3 := reply_pool]}.
Definition reply_nif : netif :=
  mknetif 0 NET_ALLOC 1500 14 (ip4 10 0 0 7) (ip4 255 0 0 0) netaddr0 netaddr0 netaddr0 netaddr0 [] 0 0 0.
(** An unresolved entry for the sender, for which thread 1 waits. *)
Definition reply_entry : arpEntry :=
  mkarpEntry ARP_UNRESOLVED 0x50000 netaddr0 (ip4 10 0 0 9) 5 (1 :: replicate 9 0) 1.
Definition reply_net : netst :=
  mknetst reply_sys {[0x50000 := reply_nif]} 3 [] 0 (arpEntry0 :: reply_entry :: replicate 30 arpEntry0) 0.

Lemma reply_clock : clktime tokens = 0.
Proof. vm_compute. reflexivity. Qed.
#[local] Opaque tokens.

Lemma reply_words : (ld reply_mem 0x30000 = 0x30000 /\ ld reply_mem 0x30004 = 3) /\
  (ld reply_mem 0x30008 = 0x50000 /\ ld reply_mem 0x30018 = 0x3002c) /\ ldbs reply_mem 0x3002c 28 = reply_bytes.
Proof. vm_compute. split_and!; reflexivity. Qed.

Lemma reply_arp : arp_reply reply_net 0x30008 0x3002c 0x50000 [2; 0; 0; 0; 0; 9] [10; 0; 0; 9] [10; 0; 0; 7].
Proof.
  destruct reply_words as (_ & [W1 W2] & W3). split.
  - split; [lia|reflexivity].
  - split; [exact W2|unfold pkt_data; lia].
  - split; [exact W1|unfold NULL; lia].
  - exists [2; 0; 0; 0; 0; 7]. split; [exact W3|split_and!; reflexivity].
Qed.

Lemma reply_packet : packet_buffer 3 reply_pool [] [] 0x30000 reply_net.
Proof.
  destruct reply_words as ([W1 W2] & _). split; [|unfold reply_pool; simpl bf_freebuf; lia|].
  - split; [reflexivity|reflexivity|unfold NPOOL; lia|exact I| |].
    + intros b Hb%list_elem_of_singleton. subst b. exact W1.
    + split; [apply NoDup_singleton|..].
      * intros b Hb%list_elem_of_singleton. subst b. lia.
      * intros b Hb%list_elem_of_singleton. subst b. exact W2.
      * intros b b' Hb%list_elem_of_singleton Hb'%list_elem_of_singleton. subst b b'. lia.
  - intros es Es. change (semtab tokens !! 2 = Some es) in Es. rewrite (proj1 tokens_sender) in Es.
    injection Es as <-. simpl. lia.
Qed.

Lemma reply_table : arp_ok (arptab reply_net).
Proof.
  split; [done|]. apply Forall_cons. split; [apply arpEntry0_ok|]. apply Forall_cons.
  split; [|apply Forall_replicate, arpEntry0_ok].
  split; [by right; left|intros _; ip4_solve|done|unfold ARP_NTHRWAIT; simpl; lia].
Qed.

Lemma reply_now : clktime (nkern reply_net) = 0.
Proof. exact reply_clock. Qed.

Lemma reply_calm : Forall (calm (clktime (nkern reply_net))) (arptab reply_net).
Proof.
  rewrite reply_now. apply Forall_cons. split; [intros H; discriminate H|].
  apply Forall_cons. split; [intros _ H; discriminate H|]. apply Forall_replicate. intros H. discriminate H.
Qed.

Lemma reply_inv : KInv (nkern reply_net).
Proof. exact (KInv_mem _ _ tokens_inv). Qed.

Lemma reply_range : 0 <= clktime (nkern reply_net) /\ clktime (nkern reply_net) + ARP_TTL_RESOLVED < 2 ^ 32.
Proof. rewrite reply_now. unfold ARP_TTL_RESOLVED. lia. Qed.

Lemma garbage0_ok : garbage_ok (replicate 6 0).
Proof. split; [done|]. apply Forall_replicate. unfold ubyte. lia. Qed.

Lemma reply_apart x : x ∈ [] ++ [0x30000] -> pkt_nethdr 0x30008 <> x /\ pkt_nethdr 0x30008 <> x + 4.
Proof. intros Hx%list_elem_of_singleton. subst x. unfold pkt_nethdr. lia. Qed.

Lemma reply_sender : wf_addr (ip4 10 0 0 9) /\ kind (ip4 10 0 0 9) = (NETADDR_IPv4, IPv4_ADDR_LEN) /\
  octets (ip4 10 0 0 9) = [10; 0; 0; 9].
Proof. split; [ip4_solve|done]. Qed.

Lemma arp_reply_resolves_witness :
  ends (arpRecv (replicate 6 0) (replicate 6 0) (replicate 6 0) 0x30008) reply_net (fun n' =>
    arp_ok (arptab n') /\
    forall m devwrite snoopCapture np buf, arptab m = arptab n' -> vic_ok (irq (nkern m)) ->
      Forall (calm (clktime (nkern m))) (arptab m) ->
      clktime (nkern reply_net) <= clktime (nkern m) <= clktime (nkern reply_net) + ARP_TTL_RESOLVED -> np <> NULL ->
      exists m' hw, run (arpLookup devwrite snoopCapture np (Some (ip4 10 0 0 9)) (Some buf)) m
        = Returned m' (OK, Some hw) /\ octets hw = [2; 0; 0; 0; 0; 9]).
Proof.
  eapply (arp_reply_resolves reply_net 0x30008 0x3002c 0x50000 reply_nif
    [2; 0; 0; 0; 0; 9] [10; 0; 0; 9] [10; 0; 0; 7] _ _ _ 3 reply_pool [] [] 0x30000 (ip4 10 0 0 9)
    reply_inv reply_table reply_calm reply_range reply_arp).
  - reflexivity.
  - ip4_solve.
  - exact (conj garbage0_ok (conj garbage0_ok garbage0_ok)).
  - exact reply_packet.
  - reflexivity.
  - exact reply_apart.
  - exact reply_sender.
  - right. split; reflexivity.
Defined.

Lemma arpAlloc_evicts_oldest_witness : exists i e e', arptab reply_net !! i = Some e /\
  run arpAlloc reply_net = Returned (set_arptab (<[i := e']> (arptab reply_net)) reply_net) (Some i).
Proof.
  destruct (arpAlloc_evicts_oldest reply_net) as (i & e & e' & H1 & H2 & _); [reflexivity|].
  exists i, e, e'. split; [exact H1|exact H2].
Defined.
