(* ===== verification/Loopback.v ===== *)
(** * The loopback device (device/loopback/loopbackInit.c, loopbackOpen.c,
      loopbackClose.c, loopbackGetc.c, loopbackPutc.c, loopbackRead.c,
      loopbackWrite.c, loopbackControl.c, include/loopback.h)

    The device is named by its minor number; its buffer is a list of
    [LOOP_BUFFER] characters, an access outside it faults.  The caller's buffer
    is the list of its characters. *)

From S2P Require Import Prelude Prog Queue Interrupt Memory Kernel Thread Semaphore CString.

Definition LOOP_BUFFER : Z := 1024.
Definition LOOP_CTRL_SET_FLAG : Z := 1.
Definition LOOP_CTRL_CLR_FLAG : Z := 2.

Inductive loopstate : Type := LOOP_STATE_FREE | LOOP_STATE_ALLOC.

#[export] Instance loopstate_eq_dec : EqDecision loopstate.
Proof. solve_decision. Defined.

Record loopback : Type := mkloopback {
  lb_state : loopstate;
  lb_index : Z;
  lb_flags : Z;
  lb_sem : Z;
  lb_buffer : list Z;
}.

Record loopst : Type := mkloopst { lkern : kernel; looptab : gmap Z loopback }.

Definition set_lkern (k : kernel) (s : loopst) : loopst := mkloopst k (looptab s).
Definition set_looptab (t : gmap Z loopback) (s : loopst) : loopst := mkloopst (lkern s) t.

#[export] Instance lkern_part : Part lkern set_lkern.
Proof. split; [done| |done]. by intros []. Qed.

Definition lcall {A} (p : prog kernel A) : prog loopst A := zoom lkern set_lkern p.

(** [looptab[minor]] and assignments to its fields *)
Definition lb (minor : Z) : prog loopst loopback := readopt (fun s => looptab s !! minor).
Definition upd_lb (minor : Z) (f : loopback -> loopback) : prog loopst unit :=
  lift (fun s => e ← looptab s !! minor; Some (set_looptab (<[minor := f e]> (looptab s)) s, tt)).

Definition set_lb_state (v : loopstate) (e : loopback) : loopback :=
  mkloopback v (lb_index e) (lb_flags e) (lb_sem e) (lb_buffer e).
Definition set_lb_index (v : Z) (e : loopback) : loopback :=
  mkloopback (lb_state e) v (lb_flags e) (lb_sem e) (lb_buffer e).
Definition set_lb_flags (v : Z) (e : loopback) : loopback :=
  mkloopback (lb_state e) (lb_index e) v (lb_sem e) (lb_buffer e).
Definition set_lb_sem (v : Z) (e : loopback) : loopback :=
  mkloopback (lb_state e) (lb_index e) (lb_flags e) v (lb_buffer e).
Definition set_lb_buffer (v : list Z) (e : loopback) : loopback :=
  mkloopback (lb_state e) (lb_index e) (lb_flags e) (lb_sem e) v.

(** The remainder of C truncates towards zero. *)
Definition crem (a b : Z) : Z := Z.rem a b.

(** [buffer[i]] *)
Definition buf_get (l : list Z) (i : Z) : option Z := if i <? 0 then None else l !! Z.to_nat i.
Definition buf_put (l : list Z) (i c : Z) : option (list Z) :=
  if (i <? 0) || (Z.of_nat (length l) <=? i) then None else Some (<[Z.to_nat i := u8 c]> l).

Definition loopbackInit (minor : Z) : prog loopst Z :=
  upd_lb minor (set_lb_state LOOP_STATE_FREE);;
  upd_lb minor (set_lb_index 0);;
  mret OK.

Definition loopbackOpen (minor : Z) : prog loopst Z :=
  im ← lcall k_disable;
  e ← lb minor;
  if decide (LOOP_STATE_FREE <> lb_state e) then lcall (k_restore im);; mret SYSERR
  else
    upd_lb minor (set_lb_state LOOP_STATE_ALLOC);;
    s ← lcall (semcreate 0);
    upd_lb minor (set_lb_sem s);;
    upd_lb minor (set_lb_buffer (replicate (Z.to_nat LOOP_BUFFER) 0));;
    upd_lb minor (set_lb_flags 0);;
    lcall (k_restore im);;
    mret OK.

Definition loopbackClose (minor : Z) : prog loopst Z :=
  im ← lcall k_disable;
  e ← lb minor;
  if decide (LOOP_STATE_ALLOC <> lb_state e) then lcall (k_restore im);; mret SYSERR
  else
    lcall (semfree (lb_sem e));;
    upd_lb minor (set_lb_state LOOP_STATE_FREE);;
    lcall (k_restore im);;
    mret OK.

Definition loopbackGetc (minor : Z) : prog loopst Z :=
  e ← lb minor;
  lcall (wait (lb_sem e));;
  im ← lcall k_disable;
  e ← lb minor;
  let i := lb_index e in
  upd_lb minor (set_lb_index (crem (i32 (i + 1)) LOOP_BUFFER));;
  lcall (k_restore im);;
  readopt (fun s => e ← looptab s !! minor; buf_get (lb_buffer e) i).

Definition loopbackPutc (minor ch : Z) : prog loopst Z :=
  im ← lcall k_disable;
  e ← lb minor;
  n ← lcall (semcount (lb_sem e));
  if LOOP_BUFFER <=? n then lcall (k_restore im);; mret SYSERR
  else
    n ← lcall (semcount (lb_sem e));
    let i := crem (i32 (lb_index e + n)) LOOP_BUFFER in
    lift (fun s => e ← looptab s !! minor;
                   l ← buf_put (lb_buffer e) i ch;
                   Some (set_looptab (<[minor := set_lb_buffer l e]> (looptab s)) s, tt));;
    e ← lb minor;
    lcall (signal (lb_sem e));;
    lcall (k_restore im);;
    mret OK.

(** [n] characters are still to be read; those read, in order. *)
Fixpoint loopbackRead_loop (n : nat) (minor : Z) : prog loopst (list Z) :=
  match n with
  | O => mret []
  | S n => c ← loopbackGetc minor; l ← loopbackRead_loop n minor; mret (u8 c :: l)
  end.

(** The result with the contents of the buffer. *)
Definition loopbackRead (minor len : Z) : prog loopst (Z * list Z) :=
  e ← lb minor;
  if decide (LOOP_STATE_ALLOC <> lb_state e) then mret (SYSERR, [])
  else l ← loopbackRead_loop (Z.to_nat len) minor; mret (Z.of_nat (length l), l).

(** The number of characters accepted. *)
Fixpoint loopbackWrite_loop (l : list Z) (minor i : Z) : prog loopst Z :=
  match l with
  | [] => mret i
  | c :: l =>
      r ← loopbackPutc minor c;
      if r =? SYSERR then mret i else loopbackWrite_loop l minor (i + 1)
  end.

Definition loopbackWrite (minor : Z) (buf : list Z) : prog loopst Z :=
  e ← lb minor;
  if decide (LOOP_STATE_ALLOC <> lb_state e) then mret SYSERR
  else loopbackWrite_loop buf minor 0.

Definition loopbackControl (minor func arg1 : Z) : prog loopst Z :=
  e ← lb minor;
  if decide (LOOP_STATE_ALLOC <> lb_state e) then mret SYSERR
  else if func =? LOOP_CTRL_SET_FLAG then
    upd_lb minor (set_lb_flags (i32 (Z.lor (lb_flags e) arg1)));; mret (lb_flags e)
  else if func =? LOOP_CTRL_CLR_FLAG then
    upd_lb minor (set_lb_flags (i32 (Z.land (lb_flags e) (Z.lnot arg1))));; mret (Z.land (lb_flags e) arg1)
  else mret SYSERR.
