(* ===== verification/LoopProps.v ===== *)
(** * The loopback device is a bounded first-in first-out queue

    [loop_at s minor q]: the device is open and its ring holds the characters
    [q], as many as its semaphore counts. *)

From S2P Require Import Prelude Prog Queue QueueSpec QueueSys Interrupt Memory Kernel Thread Semaphore NoHalt Placement Invariant Sched ThreadSpec SemaphoreSpec KernelProps Samples Sys MailboxSpec CString Loopback.

Local Coercion Z.of_nat : nat >-> Z.
Local Arguments Z.eqb : simpl never.
Local Arguments Z.ltb : simpl never.
Local Arguments Z.leb : simpl never.

(** ** The ring *)

Record ring (e : loopback) (q : list Z) : Prop := {
  rg_alloc : lb_state e = LOOP_STATE_ALLOC;
  rg_len : Z.of_nat (length (lb_buffer e)) = LOOP_BUFFER;
  rg_index : 0 <= lb_index e < LOOP_BUFFER;
  rg_fits : Z.of_nat (length q) <= LOOP_BUFFER;
  rg_at : forall (i : nat) x, q !! i = Some x ->
    buf_get (lb_buffer e) ((lb_index e + i) mod LOOP_BUFFER) = Some x;
  rg_chars : Forall (fun x => u8 x = x) q;
}.

Record loop_at (s : loopst) (minor : Z) (q : list Z) : Prop := {
  la_inv : KInv (lkern s);
  la_open : exists e es, looptab s !! minor = Some e /\ ring e q /\
    usable (lkern s) (lb_sem e) es /\ scount es = Z.of_nat (length q);
}.

Lemma crem_mod a : 0 <= a < 2 ^ 31 -> crem (i32 a) LOOP_BUFFER = a mod LOOP_BUFFER.
Proof. intros H. unfold crem. rewrite i32_id by (unfold is_i32; lia). apply Z.rem_mod_nonneg; unfold LOOP_BUFFER; lia. Qed.

Lemma buf_get_put l l' i j c : buf_put l i c = Some l' ->
  buf_get l' j = if decide (i = j) then Some (u8 c) else buf_get l j.
Proof.
  unfold buf_put, buf_get. destruct (Z.ltb_spec i 0), (Z.leb_spec (Z.of_nat (length l)) i); try done.
  cbn [orb]. intros [= <-]. case_decide as E.
  - subst j. destruct (Z.ltb_spec i 0); [lia|]. apply list_lookup_insert_eq. lia.
  - destruct (Z.ltb_spec j 0); [done|]. apply list_lookup_insert_ne. lia.
Qed.

Lemma ring_put e q c : ring e q -> Z.of_nat (length q) < LOOP_BUFFER ->
  exists l, buf_put (lb_buffer e) (crem (i32 (lb_index e + length q)) LOOP_BUFFER) c = Some l /\
    ring (set_lb_buffer l e) (q ++ [u8 c]).
Proof.
  intros [H1 H2 H3 H4 H5 H6] Hlt. unfold LOOP_BUFFER in H3, Hlt. rewrite crem_mod by lia.
  pose proof (Z.mod_pos_bound (lb_index e + length q) LOOP_BUFFER ltac:(done)) as Hb.
  set (i := (lb_index e + length q) mod LOOP_BUFFER) in *.
  destruct (buf_put (lb_buffer e) i c) as [l|] eqn:El.
  2: { exfalso. revert El. unfold buf_put. destruct (Z.ltb_spec i 0); [lia|].
       destruct (Z.leb_spec (Z.of_nat (length (lb_buffer e))) i); [lia|done]. }
  exists l. split; [done|]. split; cbn; [done| |done| | |].
  - rewrite <- H2. unfold buf_put in El. destruct (_ || _); [done|]. injection El as <-. by rewrite length_insert.
  - rewrite length_app. cbn. unfold LOOP_BUFFER. lia.
  - intros j x Hj. rewrite (buf_get_put _ _ _ _ _ El).
    apply lookup_app_Some in Hj as [Hj|[Hge Hj]].
    + rewrite decide_False; [by apply H5|]. apply lookup_lt_Some in Hj. intros E. symmetry in E. revert E.
      apply mod_apart; [done|]. unfold LOOP_BUFFER. lia.
    + apply list_lookup_singleton_Some in Hj as [Hj <-]. rewrite decide_True; [done|]. subst i. f_equal. lia.
  - apply Forall_app. split; [done|]. constructor; [|done]. apply Z.mod_mod. lia.
Qed.

Lemma ring_get e x q : ring e (x :: q) ->
  buf_get (lb_buffer e) (lb_index e) = Some x /\
  ring (set_lb_index (crem (i32 (lb_index e + 1)) LOOP_BUFFER) e) q.
Proof.
  intros [H1 H2 H3 H4 H5 H6]. cbn in H4. apply Forall_cons in H6 as [_ H6]. split.
  - specialize (H5 0%nat x eq_refl). by rewrite Z.add_0_r, Z.mod_small in H5.
  - unfold LOOP_BUFFER in H3. rewrite crem_mod by lia.
    split; cbn; [done|done| |unfold LOOP_BUFFER in *; lia| |done].
    + by apply Z.mod_pos_bound.
    + intros i y Hi. rewrite Zplus_mod_idemp_l. specialize (H5 (S i) y Hi). rewrite <- H5. do 2 f_equal. lia.
Qed.

(** ** The calls *)

Lemma run_lb_bind {B} minor e (g : loopback -> prog loopst B) s :
  looptab s !! minor = Some e -> run (lb minor ≫= g) s = run (g e) s.
Proof. intros E. by apply run_readopt_bind. Qed.

Lemma run_lcall_bind {A B} (p : prog kernel A) (g : A -> prog loopst B) s k a :
  run p (lkern s) = Returned k a -> run (lcall p ≫= g) s = run (g a) (set_lkern k s).
Proof. apply (run_zoom_bind lkern set_lkern). Qed.

Lemma run_semcount k n es : usable k n es -> run (semcount n) k = Returned k (scount es).
Proof.
  intros Hu. unfold semcount. rewrite run_gets_bind, (usable_good _ _ _ Hu). unfold sem.
  by rewrite (run_readopt_bind _ _ _ es) by apply Hu.
Qed.

Lemma KInv_masked k : KInv k -> KInv (set_irq (vic_disable_interrupts (irq k)) k).
Proof. intros H. apply KInv_irq; [done|]. by apply vic_ok_disable, KInv_vic. Qed.

Lemma KInv_unmasked k v : KInv k -> KInv (set_irq (vic_set_irqmask v (irq k)) k).
Proof. intros H. apply KInv_irq; [done|]. by apply vic_ok_set, KInv_vic. Qed.
#[local] Hint Resolve KInv_masked KInv_unmasked : core.

(** A character is appended; a full ring refuses it. *)
Lemma loopbackPutc_spec s minor q c : loop_at s minor q ->
  exists s', if decide (Z.of_nat (length q) < LOOP_BUFFER)
    then run (loopbackPutc minor c) s = Returned s' OK /\ loop_at s' minor (q ++ [u8 c])
    else run (loopbackPutc minor c) s = Returned s' SYSERR /\ loop_at s' minor q.
Proof.
  intros [HI (e & es & E & Hr & Hu & Hn)]. unfold loopbackPutc.
  erewrite run_lcall_bind by reflexivity. rewrite (run_lb_bind _ e) by done.
  erewrite run_lcall_bind by (apply (run_semcount _ _ es); exact Hu). rewrite Hn.
  case_decide as Hlt.
  - destruct (Z.leb_spec LOOP_BUFFER (length q)); [lia|].
    erewrite run_lcall_bind by (apply (run_semcount _ _ es); exact Hu). rewrite Hn.
    destruct (ring_put e q c Hr Hlt) as (l & El & Hr'). cbn [looptab set_lkern lkern].
    rewrite (run_lift_bind _ _ _ (set_looptab (<[minor := set_lb_buffer l e]> (looptab s))
      (set_lkern (set_irq (vic_disable_interrupts (irq (lkern s))) (lkern s)) s)) tt).
    2: { cbn [looptab set_lkern]. rewrite E. cbn [mbind option_bind]. by rewrite El. }
    rewrite (run_lb_bind _ (set_lb_buffer l e)) by apply lookup_insert_eq.
    destruct (signal_now (wait := wait) (set_irq (vic_disable_interrupts (irq (lkern s))) (lkern s)) (lb_sem e) es)
      as (k' & Es & [Hs1 Hs2 Hs3]); [auto|exact Hu|unfold LOOP_BUFFER in Hlt; lia|].
    rewrite (run_lcall_bind _ _ _ k' OK) by exact Es. erewrite run_lcall_bind by reflexivity.
    eexists. split; [reflexivity|]. split; [cbn; auto|].
    exists (set_lb_buffer l e), (set_scount (scount es + 1) es). split_and!; [apply lookup_insert_eq|done| |].
    + split; [|apply Hu]. cbn. rewrite Hs3. apply lookup_insert_eq.
    + cbn. rewrite length_app, Hn. cbn. lia.
  - destruct (Z.leb_spec LOOP_BUFFER (length q)); [|lia]. erewrite run_lcall_bind by reflexivity.
    eexists. split; [reflexivity|]. split; [exact (KInv_unmasked _ _ (KInv_masked _ HI))|]. by exists e, es.
Qed.

(** The oldest character is taken. *)
Lemma loopbackGetc_spec s minor x q : loop_at s minor (x :: q) ->
  exists s', run (loopbackGetc minor) s = Returned s' x /\ loop_at s' minor q.
Proof.
  intros [HI (e & es & E & Hr & Hu & Hn)]. unfold loopbackGetc. rewrite (run_lb_bind _ e) by done.
  destruct (wait_now (signal := signal) (lkern s) (lb_sem e) es HI Hu) as (k' & Es & [Hs1 Hs2 Hs3]);
    [cbn in Hn; lia|].
  rewrite (run_lcall_bind _ _ _ k' OK) by exact Es. erewrite run_lcall_bind by reflexivity.
  rewrite (run_lb_bind _ e) by done. destruct (ring_get _ _ _ Hr) as [Hx Hr'].
  set (e' := set_lb_index _ e) in Hr'. unfold upd_lb. cbn zeta.
  erewrite run_lift_bind by (cbn [looptab set_lkern]; rewrite E; reflexivity).
  erewrite run_lcall_bind by reflexivity.
  eexists. split.
  { unfold readopt. cbn [run looptab set_lkern set_looptab]. rewrite lookup_insert_eq. cbn [mbind option_bind].
    cbn [lb_buffer set_lb_index]. rewrite Hx. reflexivity. }
  split; [exact (KInv_unmasked _ _ (KInv_masked _ Hs1))|]. exists e', (set_scount (scount es - 1) es). split_and!; [apply lookup_insert_eq|done| |].
  - split; [|apply Hu]. cbn. rewrite Hs3. apply lookup_insert_eq.
  - cbn. cbn in Hn. lia.
Qed.

Lemma loopbackWrite_loop_spec l s minor q i : loop_at s minor q ->
  let n := (length l `min` (Z.to_nat LOOP_BUFFER - length q))%nat in
  exists s', run (loopbackWrite_loop l minor i) s = Returned s' (i + Z.of_nat n) /\
    loop_at s' minor (q ++ (u8 <$> take n l)).
Proof.
  revert s q i. induction l as [|c l IH]; intros s q i H n; cbn [loopbackWrite_loop].
  - exists s. subst n. cbn. by rewrite Z.add_0_r, app_nil_r.
  - destruct (loopbackPutc_spec s minor q c H) as [s1 H1]. case_decide as Hlt; destruct H1 as [E1 H1];
      rewrite run_bind, E1; cbn [obind].
    + change (OK =? SYSERR) with false. cbn match.
      destruct (IH s1 (q ++ [u8 c]) (i + 1) H1) as (s2 & E2 & H2). exists s2.
      assert (Hn : n = S (length l `min` (Z.to_nat LOOP_BUFFER - length (q ++ [u8 c])))).
      { subst n. rewrite length_app, !length_cons, length_nil. unfold LOOP_BUFFER in *. lia. }
      rewrite Hn. split; [rewrite E2, <- Z.add_assoc, Nat2Z.inj_succ; by rewrite <- (Z.add_1_l (Z.of_nat _))|]. cbn. by rewrite <- app_assoc in H2.
    + exists s1. change (SYSERR =? SYSERR) with true. assert (n = 0%nat) as ->.
      { subst n. unfold LOOP_BUFFER in *. lia. }
      cbn. by rewrite Z.add_0_r, app_nil_r.
Qed.

Lemma loop_at_char s minor x q : loop_at s minor (x :: q) -> u8 x = x.
Proof. intros [_ (e & es & _ & Hr & _)]. apply (Forall_cons_1 _ _ _ (rg_chars _ _ Hr)). Qed.

Lemma loop_at_alloc s minor q : loop_at s minor q ->
  exists e, looptab s !! minor = Some e /\ lb_state e = LOOP_STATE_ALLOC.
Proof. intros [_ (e & es & E & Hr & _)]. exists e. split; [done|]. apply Hr. Qed.

Lemma loopbackRead_loop_spec n s minor q : loop_at s minor q -> (n <= length q)%nat ->
  exists s', run (loopbackRead_loop n minor) s = Returned s' (take n q) /\ loop_at s' minor (drop n q).
Proof.
  revert s q. induction n as [|n IH]; intros s q H Hn; cbn [loopbackRead_loop]; [by exists s|].
  destruct q as [|x q]; [cbn in Hn; lia|].
  destruct (loopbackGetc_spec _ _ _ _ H) as (s1 & E1 & H1). rewrite run_bind, E1. cbn [obind].
  destruct (IH s1 q H1) as (s2 & E2 & H2); [cbn in Hn; lia|]. rewrite run_bind, E2. cbn [obind].
  rewrite (loop_at_char _ _ _ _ H). by exists s2.
Qed.

(** The device without blocked readers is a first-in first-out queue of 1024
    characters.  A write to an open device that holds [q] accepts the characters
    of the buffer until the ring is full, returns how many it accepted and never
    blocks; a read of no more characters than the device then holds does not block
    either, returns their number and the oldest characters first, and leaves the
    rest. *)
Theorem loopback_fifo s minor q l m : loop_at s minor q ->
  let n := (length l `min` (Z.to_nat LOOP_BUFFER - length q))%nat in
  let held := q ++ (u8 <$> take n l) in
  (m <= length held)%nat ->
  exists s1 s2, run (loopbackWrite minor l) s = Returned s1 (Z.of_nat n) /\ loop_at s1 minor held /\
    run (loopbackRead minor (Z.of_nat m)) s1 = Returned s2 (Z.of_nat m, take m held) /\
    loop_at s2 minor (drop m held).
Proof.
  intros H n held Hm. destruct (loopbackWrite_loop_spec l s minor q 0 H) as (s1 & E1 & H1).
  fold n in E1, H1. fold held in H1. destruct (loopbackRead_loop_spec m s1 minor held H1 Hm) as (s2 & E2 & H2).
  exists s1, s2. split_and!; [|done| |done].
  - destruct (loop_at_alloc _ _ _ H) as (e & Ee & Ha). unfold loopbackWrite.
    rewrite (run_lb_bind _ e) by done. rewrite decide_False by (intros Hx; by apply Hx). exact E1.
  - destruct (loop_at_alloc _ _ _ H1) as (e & Ee & Ha). unfold loopbackRead.
    rewrite (run_lb_bind _ e) by done. rewrite decide_False by (intros Hx; by apply Hx).
    rewrite Nat2Z.id, run_bind, E2. cbn [obind]. change (run (mret ?x) ?t) with (Returned t x).
    by rewrite length_take, Nat.min_l.
Qed.

(** ** Concrete devices *)

(** Device 0, open and empty, on the semaphore of [semd]; its next character
    goes to position [i]. *)
Definition fresh_loop (i : Z) : loopst :=
  mkloopst semd {[ 0 := mkloopback LOOP_STATE_ALLOC i 0 1 (replicate 1024 0) ]}.

Lemma semd_sem : usable semd 1 (mksement SUSED 0 102).
Proof. split; [vm_compute; reflexivity|done]. Qed.

Lemma fresh_loop_at i : 0 <= i < LOOP_BUFFER -> loop_at (fresh_loop i) 0 [].
Proof.
  intros Hi. split; [exact semd_inv|]. eexists _, _. split; [apply lookup_singleton_eq|].
  split; [|split; [exact semd_sem|done]]. by split.
Qed.

Lemma loopback_fifo_witness :
  exists s1 s2, run (loopbackWrite 0 [72; 105; 33]) (fresh_loop 1022) = Returned s1 3 /\
    loop_at s1 0 [72; 105; 33] /\
    run (loopbackRead 0 2) s1 = Returned s2 (2, [72; 105]) /\ loop_at s2 0 [33].
Proof.
  apply (loopback_fifo (fresh_loop 1022) 0 [] [72; 105; 33] 2).
  - apply fresh_loop_at. unfold LOOP_BUFFER. lia.
  - vm_compute. lia.
Defined.


(** [loopbackPutc] with a reader blocked in [loopbackGetc]: the count of the
    semaphore is negative then, so the character goes to a position before the
    one the reader looks at.  The reader at position 5 of an empty device gets
    the old content 0 instead of the character 65; at position 0 the store is
    outside the buffer. *)
Theorem loopback_blocked_reader_misses :
  match run (loopbackGetc 0) (fresh_loop 5) with
  | Suspended s1 reader =>
      match run (loopbackPutc 0 65) s1 with
      | Suspended s2 _ =>
          match run reader s2 with
          | Returned _ c => c = 0
          | _ => False
          end
      | _ => False
      end
  | _ => False
  end /\
  match run (loopbackGetc 0) (fresh_loop 0) with
  | Suspended s1 _ => run (loopbackPutc 0 65) s1 = Faulted
  | _ => False
  end.
Proof. vm_compute. split; reflexivity. Qed.
