(* ===== verification/Lexan.v ===== *)
(** * The lexical analyser of the shell (shell/lexan.c, include/shell.h)

    The line and the token buffer are in the byte memory of CString.v, the
    array of token pointers is a list. *)

From S2P Require Import Prelude CString.

Definition SHELL_MAXTOK : Z := 16.

Definition isEndOfLine (c : Z) : bool := (c =? 0) || (c =? 13) || (c =? 10).
Definition isQuote (c : Z) : bool := (c =? 34) || (c =? 39).
Definition isOtherSpecial (c : Z) : bool := (c =? 60) || (c =? 62) || (c =? 38).
Definition isWhitespace (c : Z) : bool := (c =? 32) || (c =? 9).

(** [ushort] *)
Definition ushort (z : Z) : Z := z mod 2 ^ 16.

(** [tok[n] = p] *)
Definition tok_put (tok : list Z) (n p : Z) : option (list Z) :=
  if Z.of_nat (length tok) <=? n then None else Some (<[Z.to_nat n := p]> tok).

(** [while (isWhitespace(line[i]) && i < linelen) i++;] *)
Fixpoint lex_skip (fuel : nat) (m : cmem) (line linelen i : Z) : option Z :=
  match fuel with
  | O => None
  | S fuel =>
      c ← cld m (line + i);
      if isWhitespace c && (i <? linelen) then lex_skip fuel m line linelen (ushort (i + 1)) else Some i
  end.

(** [while (!stop(line[i]) && i < linelen) *tokbuf++ = line[i++];] *)
Fixpoint lex_copy (stop : Z -> bool) (fuel : nat) (m : cmem) (line linelen i tokbuf : Z)
  : option (cmem * Z * Z) :=
  match fuel with
  | O => None
  | S fuel =>
      c ← cld m (line + i);
      if negb (stop c) && (i <? linelen) then
        m ← cst m tokbuf c;
        lex_copy stop fuel m line linelen (ushort (i + 1)) (tokbuf + 1)
      else Some (m, i, tokbuf)
  end.

(** The loops stop at [linelen] at the latest. *)
Definition lex_fuel (linelen : Z) : nat := S (Z.to_nat linelen).

(** The token that starts at [line[i]], without its terminator: memory, [i]
    and [tokbuf] behind it, or [None] for a syntax error. *)
Definition lex_token (m : cmem) (line linelen i tokbuf : Z) : option (cmem * option (Z * Z)) :=
  c ← cld m (line + i);
  m ← cst m tokbuf c;
  let i := ushort (i + 1) in
  let tokbuf := tokbuf + 1 in
  if isQuote c then
    '(m, i, tokbuf) ← lex_copy (fun x => (c =? x) || isEndOfLine x) (lex_fuel linelen) m line linelen i tokbuf;
    d ← cld m (line + i);
    if c =? d then m ← cst m tokbuf d; Some (m, Some (ushort (i + 1), tokbuf + 1))
    else Some (m, None)
  else
    c ← cld m (line + (i - 1));
    if isOtherSpecial c then Some (m, Some (i, tokbuf))
    else
    '(m, i, tokbuf) ← lex_copy (fun x => isEndOfLine x || isQuote x || isOtherSpecial x || isWhitespace x)
                        (lex_fuel linelen) m line linelen i tokbuf;
    if linelen <=? i then Some (m, None) else Some (m, Some (i, tokbuf)).

(** The outer loop: memory, the pointers and the value returned. *)
Fixpoint lexan_loop (fuel : nat) (m : cmem) (line linelen tokbuf : Z) (tok : list Z) (ntok i : Z)
  : option (cmem * list Z * Z) :=
  match fuel with
  | O => None
  | S fuel =>
      if (i <? linelen) && (ntok <? SHELL_MAXTOK) then
        i ← lex_skip (lex_fuel linelen) m line linelen i;
        c ← cld m (line + i);
        if isEndOfLine c || (linelen <=? i) then Some (m, tok, ntok)
        else
          tok ← tok_put tok ntok tokbuf;
          '(m, r) ← lex_token m line linelen i tokbuf;
          match r with
          | None => Some (m, tok, SYSERR)
          | Some (i, tokbuf) =>
              m ← cst m tokbuf 0;
              lexan_loop fuel m line linelen (tokbuf + 1) tok (ntok + 1) i
          end
      else Some (m, tok, ntok)
  end.

(** Every iteration makes a token. *)
Definition lexan (m : cmem) (line linelen tokbuf : Z) (tok : list Z) : option (cmem * list Z * Z) :=
  lexan_loop (S (Z.to_nat SHELL_MAXTOK)) m line linelen tokbuf tok 0 0.
