(* ===== verification/LexanProps.v ===== *)
(** * The lexical analyser splits a line into words

    [words] is the division of a line into tokens, on lists; [lexan] computes it
    and lays the tokens out as C strings in the token buffer. *)

From S2P Require Import Prelude CString CStringSpec Lexan.

Local Coercion Z.of_nat : nat >-> Z.
Local Arguments Z.eqb : simpl never.
Local Arguments Z.ltb : simpl never.
Local Arguments Z.leb : simpl never.
Local Arguments Z.sub : simpl never.
Local Arguments Z.add : simpl never.

(** Equal results up to arithmetic. *)
Local Ltac zsome := apply f_equal, f_equal2; [apply f_equal2; [reflexivity|]|]; simpl; lia.

(** ** The reference *)

(** The longest prefix without a character that stops it, and the rest. *)
Fixpoint upto (stop : Z -> bool) (l : list Z) : list Z * list Z :=
  match l with
  | [] => ([], [])
  | x :: r => if stop x then ([], l) else let '(a, b) := upto stop r in (x :: a, b)
  end.

Definition closes (c x : Z) : bool := (c =? x) || isEndOfLine x.
Definition ends_word (x : Z) : bool := isEndOfLine x || isQuote x || isOtherSpecial x || isWhitespace x.
Definition solid (x : Z) : bool := negb (isWhitespace x).

(** The token that starts the line, with its quotes, and the rest of the line.
    A quoted string must be closed; a word must not end the line. *)
Definition word (c : Z) (l : list Z) : option (list Z * list Z) :=
  if isQuote c then
    match upto (closes c) l with
    | (a, d :: r) => if c =? d then Some (c :: a ++ [d], r) else None
    | (_, []) => None
    end
  else if isOtherSpecial c then Some ([c], l)
  else match upto ends_word l with
       | (_, []) => None
       | (a, r) => Some (c :: a, r)
       end.

(** At most [n] tokens; [None] is a syntax error. *)
Fixpoint words (n : nat) (l : list Z) : option (list (list Z)) :=
  match n with
  | O => Some []
  | S n =>
      match (upto solid l).2 with
      | [] => Some []
      | c :: r =>
          if isEndOfLine c then Some []
          else '(w, r) ← word c r; ws ← words n r; Some (w :: ws)
      end
  end.

Section upto.
Context (stop : Z -> bool).

Lemma upto_app l a b : upto stop l = (a, b) -> l = a ++ b.
Proof.
  revert a b. induction l as [|x l IH]; simpl; intros a b; [by intros [= <- <-]|].
  destruct (stop x); [by intros [= <- <-]|]. destruct (upto stop l) as [a' b']. intros [= <- <-].
  by rewrite (IH a' b' eq_refl).
Qed.

Lemma upto_Forall l a b : upto stop l = (a, b) -> Forall (fun x => stop x = false) a.
Proof.
  revert a b. induction l as [|x l IH]; simpl; intros a b; [by intros [= <- <-]|].
  destruct (stop x) eqn:Ex; [by intros [= <- <-]|]. destruct (upto stop l) as [a' b']. intros [= <- <-].
  constructor; [done|]. by eapply IH.
Qed.
End upto.

(** ** The loops *)

(** [m'] is [m] with some mapped bytes of the block of [n] bytes at [p] changed. *)
Definition writes (m m' : cmem) (p n : Z) : Prop :=
  same_but m m' p n /\ forall a, is_Some (m !! a) -> is_Some (m' !! a).

Lemma writes_refl m p n : writes m m p n.
Proof. by split. Qed.

Lemma writes_insert m p v : writes m (<[p := v]> m) p 1.
Proof.
  split; [apply same_but_insert; lia|]. intros a Ha. apply lookup_insert_is_Some'. by right.
Qed.

Lemma writes_weaken m m' p n k : writes m m' p n -> n <= k -> writes m m' p k.
Proof. intros [H1 H2] Hk. split; [|done]. eapply same_but_weaken; [done|lia..]. Qed.

(** Two neighbouring writes. *)
Lemma writes_join m1 m2 m3 p n k : 0 <= n -> 0 <= k ->
  writes m1 m2 p n -> writes m2 m3 (p + n) k -> writes m1 m3 p (n + k).
Proof. intros Hn Hk [H1 H1'] [H2 H2']. split; [|auto]. intros a Ha. rewrite H2, H1; [done|lia..]. Qed.

Lemma mapped_writes m m' p n q (k : nat) : writes m m' p n -> mapped m q k -> mapped m' q k.
Proof. intros [_ H] Hm a Ha. auto. Qed.

Lemma mapped_tail m p n (k : nat) : mapped m p (n + k) -> mapped m (p + n) k.
Proof. intros H a Ha. apply H. lia. Qed.

Lemma cst_char m p c n : 0 <= c < 256 -> mapped m p (S n) -> cst m p c = Some (<[p := c]> m).
Proof. intros Hc Hm. rewrite cst_mapped by (apply Hm; lia). by rewrite u8_char. Qed.

Lemma ushort_id z : 0 <= z < 2 ^ 16 -> ushort z = z.
Proof. apply Z.mod_small. Qed.

Section loops.
Context (line linelen z : Z).
Hypothesis Hlen : 0 <= linelen < 2 ^ 16 - 1.

(** [rest m i r]: the characters [r] of the line are still to be read. *)
Definition rest (m : cmem) (i : Z) (r : list Z) : Prop :=
  bytes_at m (line + i) (r ++ [z]) /\ 0 <= i /\ i + length r = linelen.

Lemma rest_cons m i c r : rest m i (c :: r) ->
  cld m (line + i) = Some c /\ i < linelen /\ ushort (i + 1) = i + 1 /\ rest m (i + 1) r.
Proof.
  intros ((H1 & H2) & Hi & Hl). simpl in Hl. split_and!; [done|lia|apply ushort_id; lia|].
  split_and!; [|lia..]. by replace (line + (i + 1)) with (line + i + 1) by lia.
Qed.

Lemma rest_nil m i : rest m i [] -> cld m (line + i) = Some z /\ i = linelen.
Proof. intros ([H _] & _ & Hl). simpl in Hl. split; [done|lia]. Qed.

Lemma rest_app m i a b : rest m i (a ++ b) -> rest m (i + length a) b.
Proof.
  intros (H & Hi & Hl). rewrite <- app_assoc in H. apply bytes_at_app in H as [_ H].
  rewrite length_app in Hl. split_and!; [|lia..]. by replace (line + (i + length a)) with (line + i + length a) by lia.
Qed.

Lemma rest_fuel m i r : rest m i r -> (length r < lex_fuel linelen)%nat.
Proof. intros (_ & ? & ?). unfold lex_fuel. lia. Qed.

(** Where the tokens go: mapped and away from the line. *)
Definition room (m : cmem) (p : Z) (n : nat) : Prop := mapped m p n /\ apart line (linelen + 1) p n.

Lemma room_le m p n k : room m p n -> (k <= n)%nat -> room m p k.
Proof. intros [H1 H2] Hk. split; [|unfold apart in *; lia]. intros a Ha. apply H1. lia. Qed.

Lemma room_next m m' p n k : room m p (n + k) -> writes m m' p n -> room m' (p + n) k.
Proof.
  intros [H1 H2] Hw. split; [|unfold apart in *; lia].
  eapply mapped_writes; [done|]. by apply mapped_tail.
Qed.

Lemma rest_writes m m' i r p (n : nat) : rest m i r -> writes m m' p n -> room m p n -> rest m' i r.
Proof.
  intros (H & Hi & Hl) [Hs _] [_ Ha]. split_and!; [|done..]. eapply bytes_at_same; [done|].
  intros a Hx. rewrite length_app in Hx. simpl in Hx. apply Hs. unfold apart in Ha. lia.
Qed.

Lemma lex_skip_spec fuel m i r : rest m i r -> (length r < fuel)%nat ->
  lex_skip fuel m line linelen i = Some (i + length (upto solid r).1).
Proof.
  revert fuel i. induction r as [|c r IH]; intros fuel i H Hf; spend fuel.
  - apply rest_nil in H as [Hc ->]. rewrite Hc. simpl. rewrite Z.ltb_irrefl, andb_false_r. f_equal. lia.
  - apply rest_cons in H as (Hc & Hi & Hu & H). rewrite Hc. simpl. rewrite (proj2 (Z.ltb_lt _ _) Hi), andb_true_r.
    unfold solid at 1. destruct (isWhitespace c); simpl; [|f_equal; lia].
    simpl in Hf. rewrite Hu, IH by (done || lia). destruct (upto solid r). simpl. f_equal. lia.
Qed.

(** One character copied. *)
Lemma copy_char m i c r p n : rest m i (c :: r) -> 0 <= c < 256 -> room m p (S n) ->
  let m1 := <[p := c]> m in
  cst m p c = Some m1 /\ writes m m1 p 1 /\ rest m1 (i + 1) r /\ room m1 (p + 1) n /\
  cld m1 (line + i) = Some c.
Proof.
  intros H Hc Hr m1. assert (Hw : writes m m1 p 1%nat) by apply writes_insert.
  assert (H1 : rest m1 i (c :: r)) by (eapply rest_writes; [done..|]; eapply room_le; [done|lia]).
  destruct (rest_cons _ _ _ _ H1) as (Ec & _ & _ & H1'). split_and!; [|done|done| |done].
  - eapply cst_char; [done|apply Hr].
  - by apply (room_next m m1 p 1 n).
Qed.

Lemma lex_copy_spec stop fuel m i r p a b : rest m i r -> (length r < fuel)%nat ->
  Forall (fun x => 0 <= x < 256) r -> upto stop r = (a, b) -> room m p (length a) ->
  exists m', lex_copy stop fuel m line linelen i p = Some (m', i + length a, p + length a) /\
    bytes_at m' p a /\ writes m m' p (length a).
Proof.
  revert fuel m i p a. induction r as [|c r IH]; intros fuel m i p a H Hf Hch Eu Hr; spend fuel.
  - injection Eu as <- <-. apply rest_nil in H as [Hc ->]. rewrite Hc. simpl.
    rewrite Z.ltb_irrefl, andb_false_r. exists m. split_and!; [zsome|done|apply writes_refl].
  - destruct (rest_cons _ _ _ _ H) as (Hc & Hi & Hu & _). rewrite Hc. simpl.
    rewrite (proj2 (Z.ltb_lt _ _) Hi), andb_true_r. simpl in Eu, Hf. destruct (stop c); simpl.
    { injection Eu as <- <-. exists m. split_and!; [zsome|done|apply writes_refl]. }
    destruct (upto stop r) as [a' b'] eqn:Eu'. injection Eu as <- <-. apply Forall_cons in Hch as [Hc8 Hch].
    destruct (copy_char _ _ _ _ _ _ H Hc8 Hr) as (Es & Hw & H' & Hr' & _). rewrite Es. simpl. rewrite Hu.
    destruct (IH fuel _ (i + 1) (p + 1) a' H' ltac:(lia) Hch eq_refl Hr') as (m' & E' & Hb & Hs).
    exists m'. rewrite E'. split_and!.
    + zsome.
    + split; [|done]. rewrite (proj1 Hs) by lia. apply lookup_insert_eq.
    + eapply (writes_weaken _ _ _ (1 + length a')); [|simpl; lia].
      by eapply writes_join; [lia..| |].
Qed.

Lemma word_app c r w r' : word c r = Some (w, r') -> c :: r = w ++ r'.
Proof.
  unfold word. destruct (isQuote c).
  - destruct (upto (closes c) r) as [a [|d b]] eqn:E; [done|]. destruct (Z.eqb_spec c d); [|done].
    intros [= <- <-]. apply upto_app in E as ->. simpl. by rewrite <- app_assoc.
  - destruct (isOtherSpecial c); [by intros [= <- <-]|].
    destruct (upto ends_word r) as [a [|d b]] eqn:E; [done|]. intros [= <- <-]. by apply upto_app in E as ->.
Qed.

(** What [lex_token] has done when it is behind the first character and [a]. *)
Lemma lex_run stop m i c r p a b : rest m i (c :: r) -> Forall (fun x => 0 <= x < 256) (c :: r) ->
  upto stop r = (a, b) -> room m p (S (length a)) ->
  exists m', lex_copy stop (lex_fuel linelen) (<[p := c]> m) line linelen (i + 1) (p + 1)
      = Some (m', i + 1 + length a, p + 1 + length a) /\
    bytes_at m' p (c :: a) /\ writes m m' p (1 + length a) /\ rest m' (i + 1 + length a) b.
Proof.
  intros H Hch Eu Hr. apply Forall_cons in Hch as [Hc8 Hch].
  destruct (copy_char _ _ _ _ _ _ H Hc8 Hr) as (Es & Hw & H' & Hr' & _).
  destruct (lex_copy_spec _ _ _ _ _ _ _ _ H' (rest_fuel _ _ _ H') Hch Eu Hr') as (m' & E' & Hb & Hs).
  exists m'. split_and!; [done| | |].
  - split; [|done]. rewrite (proj1 Hs) by lia. apply lookup_insert_eq.
  - by eapply writes_join; [lia..| |].
  - apply rest_app. rewrite <- (upto_app _ _ _ _ Eu). by eapply rest_writes.
Qed.

(** The next character of the token. *)
Lemma append_char m p l c : bytes_at m p l -> 0 <= c < 256 -> room m (p + length l) 1 ->
  exists m1, cst m (p + length l) c = Some m1 /\ bytes_at m1 p (l ++ [c]) /\ writes m m1 (p + length l) 1.
Proof.
  intros Hb Hc Hr. exists (<[p + length l := c]> m). pose proof (writes_insert m (p + length l) c) as Hw.
  split_and!; [by apply (cst_char _ _ _ 0), Hr| |done].
  apply bytes_at_app. split; [|by split; [apply lookup_insert_eq|]].
  eapply bytes_at_same; [done|]. intros a Ha. apply (proj1 Hw). lia.
Qed.

Lemma lex_quoted m i c r p : isQuote z = false -> isQuote c = true -> rest m i (c :: r) ->
  Forall (fun x => 0 <= x < 256) (c :: r) -> room m p (length (c :: r)) ->
  exists m1 a b, upto (closes c) r = (a, b) /\
    lex_copy (closes c) (lex_fuel linelen) (<[p := c]> m) line linelen (i + 1) (p + 1)
      = Some (m1, i + 1 + length a, p + 1 + length a) /\
    match b with
    | [] => exists d, cld m1 (line + (i + 1 + length a)) = Some d /\ d <> c /\ writes m m1 p (length (c :: r))
    | d :: _ => cld m1 (line + (i + 1 + length a)) = Some d /\ ushort (i + 1 + length a + 1) = i + 1 + length a + 1 /\
        writes m m1 p (length (c :: r)) /\
        exists m', cst m1 (p + 1 + length a) d = Some m' /\ bytes_at m' p (c :: a ++ [d]) /\
          writes m m' p (length (c :: a ++ [d]))
    end.
Proof.
  intros Hz Hq H Hch Hr. destruct (upto (closes c) r) as [a b] eqn:Eu. pose proof (upto_app _ _ _ _ Eu) as ->.
  assert (Hlen1 : length (c :: a ++ b) = (S (length a) + length b)%nat) by (simpl; rewrite length_app; lia).
  destruct (lex_run (closes c) m i c (a ++ b) p a b H Hch Eu) as (m1 & E & Hb & Hs & Hrest).
  { eapply room_le; [done|lia]. }
  assert (Hsall : writes m m1 p (length (c :: a ++ b))) by (eapply writes_weaken; [done|lia]).
  exists m1, a, b. split_and!; [done..|]. destruct b as [|d b].
  - destruct (rest_nil _ _ Hrest) as [Ez _]. exists z. split_and!; [done|congruence|done].
  - destruct (rest_cons _ _ _ _ Hrest) as (Ed & _ & Hu' & _). split_and!; [done..|].
    rewrite Forall_cons, Forall_app, Forall_cons in Hch. destruct (append_char m1 p (c :: a) d) as (m' & Es & Hb' & Hw').
    { done. }
    { tauto. }
    { eapply (room_next m m1); [eapply room_le; [done|rewrite Hlen1; simpl; lia]|].
      eapply writes_weaken; [exact Hs|simpl; lia]. }
    exists m'. split_and!; [|done|].
    + by replace (p + 1 + length a) with (p + length (c :: a)) by (simpl; lia).
    + replace (Z.of_nat (length (c :: a ++ [d]))) with (length (c :: a) + 1).
      * eapply writes_join; [lia..| |done]. eapply writes_weaken; [exact Hs|simpl; lia].
      * rewrite app_comm_cons, length_app. simpl. lia.
Qed.

Lemma lex_token_spec m i c r p : isQuote z = false -> rest m i (c :: r) ->
  Forall (fun x => 0 <= x < 256) (c :: r) -> room m p (length (c :: r)) ->
  match word c r with
  | Some (w, r') => exists m', lex_token m line linelen i p = Some (m', Some (i + length w, p + length w)) /\
      bytes_at m' p w /\ writes m m' p (length w)
  | None => exists m', lex_token m line linelen i p = Some (m', None) /\ writes m m' p (length (c :: r))
  end.
Proof.
  intros Hz H Hch Hr. pose proof Hch as [Hc8 Hch']%Forall_cons.
  destruct (rest_cons _ _ _ _ H) as (Ec & Hi & Hu & _).
  destruct (copy_char _ _ _ _ _ _ H Hc8 Hr) as (Es & Hw & H' & Hr' & Ec1).
  unfold lex_token. rewrite Ec. cbn [mbind option_bind]. rewrite Es. cbn [mbind option_bind].
  rewrite Hu. replace (i + 1 - 1) with i by lia. rewrite Ec1. unfold word. cbn [mbind option_bind].
  destruct (isQuote c) eqn:Hq; [|destruct (isOtherSpecial c) eqn:Ho].
  - destruct (lex_quoted m i c r p Hz Hq H Hch Hr) as (m1 & a & b & -> & E & Hb).
    unfold closes in E. rewrite E. cbn [mbind option_bind]. destruct b as [|d b].
    + destruct Hb as (d & -> & Hd & Hs). cbn [mbind option_bind].
      destruct (Z.eqb_spec c d); [congruence|]. by exists m1.
    + destruct Hb as (-> & -> & Hs & m' & Es' & Hb & Hs'). cbn [mbind option_bind].
      destruct (Z.eqb_spec c d); [|by exists m1]. rewrite Es'. cbn [mbind option_bind]. exists m'.
      split_and!; [|done..]. do 3 apply f_equal. apply f_equal2; simpl; rewrite length_app; simpl; lia.
  - exists (<[p := c]> m). split_and!; [done| |done]. split; [apply lookup_insert_eq|done].
  - destruct (upto ends_word r) as [a b] eqn:Eu. pose proof (upto_app _ _ _ _ Eu) as ->.
    destruct (lex_run ends_word m i c (a ++ b) p a b H Hch Eu) as (m' & E & Hb & Hs & Hrest).
    { eapply room_le; [done|]. simpl. rewrite length_app. lia. }
    unfold ends_word in E at 1. rewrite E. cbn [mbind option_bind]. destruct b as [|d b].
    + destruct (rest_nil _ _ Hrest) as [_ Hl]. destruct (Z.leb_spec linelen (i + 1 + length a)); [|lia].
      exists m'. split; [done|]. eapply writes_weaken; [done|]. simpl. rewrite length_app. lia.
    + destruct (rest_cons _ _ _ _ Hrest) as (_ & Hl & _). destruct (Z.leb_spec linelen (i + 1 + length a)); [lia|].
      exists m'. split_and!; [|done|eapply writes_weaken; [done|simpl; lia]].
      do 3 apply f_equal. apply f_equal2; simpl; lia.
Qed.

(** The strings [ws] lie one behind the other from [p] on; [ps] points to them. *)
Fixpoint laid (m : cmem) (p : Z) (ws : list (list Z)) (ps : list Z) : Prop :=
  match ws, ps with
  | [], [] => True
  | w :: ws, q :: ps => q = p /\ cstr m p w /\ laid m (p + length w + 1) ws ps
  | _, _ => False
  end.

Lemma word_chars c r w r' : isEndOfLine c = false -> Forall (fun x => 0 <= x < 256) (c :: r) ->
  word c r = Some (w, r') -> Forall char w.
Proof.
  assert (Hch : forall x, isEndOfLine x = false -> 0 <= x < 256 -> char x).
  { unfold isEndOfLine, char. intros x H Hx. destruct (Z.eqb_spec x 0); [done|lia]. }
  assert (Hall : forall stop l a b, (forall x, stop x = false -> isEndOfLine x = false) ->
    Forall (fun x => 0 <= x < 256) l -> upto stop l = (a, b) -> Forall char a).
  { intros stop l a b Hst Hl E. pose proof (upto_Forall _ _ _ _ E) as Ha. rewrite (upto_app _ _ _ _ E) in Hl.
    apply Forall_app in Hl as [Hl _].
    rewrite Forall_forall in *. intros x Hx. apply Hch; auto. }
  intros Hc Hf. pose proof Hf as [Hc8 Hr]%Forall_cons. unfold word. destruct (isQuote c).
  - destruct (upto (closes c) r) as [a [|d b]] eqn:E; [done|]. destruct (Z.eqb_spec c d) as [<-|]; [|done].
    intros [= <- <-]. rewrite Forall_cons, Forall_app, Forall_singleton. split_and!; auto.
    eapply Hall; [|done|done]. unfold closes. intros x Hx. by apply orb_false_elim in Hx as [_ ?].
  - destruct (isOtherSpecial c); [intros [= <- <-]; auto|].
    destruct (upto ends_word r) as [a [|d b]] eqn:E; [done|]. intros [= <- <-]. constructor; [auto|].
    eapply Hall; [|done|done]. unfold ends_word. intros x Hx. by destruct (isEndOfLine x).
Qed.

Lemma tok_put_here pre x tl p : tok_put (pre ++ x :: tl) (length pre) p = Some (pre ++ p :: tl).
Proof.
  unfold tok_put. rewrite length_app. simpl. destruct (Z.leb_spec (length pre + S (length tl))%nat (length pre)); [lia|].
  rewrite Nat2Z.id. f_equal. rewrite <- (Nat.add_0_r (length pre)) at 1. by rewrite insert_app_r.
Qed.

(** A token with its terminator. *)
Lemma lex_finish m m1 i w r' p n : bytes_at m1 p w -> writes m m1 p (length w) -> Forall char w ->
  rest m i (w ++ r') -> room m p (length w + S n) ->
  exists m2, cst m1 (p + length w) 0 = Some m2 /\ cstr m2 p w /\ writes m m2 p (length w + 1) /\
    rest m2 (i + length w) r' /\ room m2 (p + length w + 1) n.
Proof.
  intros Hb Hw Hch H Hr. destruct (append_char m1 p w 0 Hb) as (m2 & Es & Hb2 & Hw2); [lia| |].
  { eapply (room_next m m1); [eapply room_le; [done|lia]|done]. }
  assert (Hw' : writes m m2 p (length w + 1)) by (eapply writes_join; [lia..|done|done]).
  exists m2. split_and!; [done|by split|done| |].
  - apply rest_app. apply (rest_writes m m2 _ _ p (length w + 1)); [done| |eapply room_le; [done|lia]].
    eapply writes_weaken; [done|lia].
  - replace (p + length w + 1) with (p + (length w + 1)%nat) by lia. eapply (room_next m m2).
    + eapply room_le; [done|lia].
    + eapply writes_weaken; [done|lia].
Qed.

(** What [lexan_loop] returns when [words] gives [o]. *)
Definition lexed (o : option (list (list Z))) (res : option (cmem * list Z * Z))
    (m : cmem) (p : Z) (k : Z) (pre tl : list Z) : Prop :=
  match o with
  | Some ws => exists m' ps, res = Some (m', pre ++ ps ++ drop (length ps) tl, Z.of_nat (length pre + length ws)) /\
      laid m' p ws ps /\ writes m m' p k
  | None => exists m' tok', res = Some (m', tok', SYSERR) /\ writes m m' p k
  end.

Lemma lexed_nil m p k pre tl : lexed (Some []) (Some (m, pre ++ tl, Z.of_nat (length pre))) m p k pre tl.
Proof. exists m, []. split_and!; [|done|apply writes_refl]. by rewrite Nat.add_0_r. Qed.

(** A token [w] in front of the others. *)
Lemma lexed_cons o res m m2 p k k' w pre x tl : 0 <= k ->
  cstr m2 p w -> writes m m2 p (length w + 1) -> length w + 1 + k <= k' ->
  lexed o res m2 (p + length w + 1) k (pre ++ [p]) tl ->
  lexed (ws ← o; Some (w :: ws)) res m p k' pre (x :: tl).
Proof.
  intros Hk Hc Hw Hle. assert (Hj : forall m', writes m2 m' (p + length w + 1) k -> writes m m' p k').
  { intros m' Hw'. eapply (writes_weaken _ _ _ (length w + 1 + k)); [|done].
    eapply writes_join; [lia..|done|]. by rewrite Z.add_assoc. }
  destruct o as [ws|]; simpl.
  - intros (m' & ps & -> & Hl & Hw'). exists m', (p :: ps). split_and!; [|done| |done|by apply Hj].
    + simpl. rewrite <- app_assoc. simpl. do 2 f_equal. rewrite length_app. simpl. lia.
    + eapply cstr_same; [done|]. intros a Ha. apply (proj1 Hw'). lia.
  - intros (m' & tok' & -> & Hw'). exists m', tok'. split; [done|by apply Hj].
Qed.

Local Arguments lex_skip : simpl never.
Local Arguments lex_token : simpl never.
Local Arguments tok_put : simpl never.
Local Arguments cld : simpl never.

Lemma lexan_loop_spec n fuel m i r p pre tl : isQuote z = false -> rest m i r ->
  Forall (fun x => 0 <= x < 256) r -> room m p (length r + n) ->
  length pre + n = SHELL_MAXTOK -> (n <= length tl)%nat -> (n < fuel)%nat ->
  lexed (words n r) (lexan_loop fuel m line linelen p (pre ++ tl) (length pre) i) m p (length r + n) pre tl.
Proof.
  intros Hz. revert fuel m i r p pre tl.
  induction n as [|n IH]; intros fuel m i r p pre tl H Hch Hr Hn Htl Hf; spend fuel.
  { destruct (Z.ltb_spec (length pre) SHELL_MAXTOK); [lia|]. rewrite andb_false_r. apply lexed_nil. }
  destruct (Z.ltb_spec (length pre) SHELL_MAXTOK); [|lia]. rewrite andb_true_r.
  destruct (Z.ltb_spec i linelen).
  2: { destruct r; [apply lexed_nil|]. destruct H as (_ & _ & H). simpl in H. lia. }
  rewrite (lex_skip_spec _ _ _ _ H (rest_fuel _ _ _ H)). cbn [mbind option_bind].
  destruct (upto solid r) as [sp r1] eqn:Es. cbn [fst snd]. pose proof (upto_app _ _ _ _ Es) as ->.
  apply rest_app in H. apply Forall_app in Hch as [_ Hch]. rewrite length_app in Hr |- *.
  destruct r1 as [|c r2].
  { destruct (rest_nil _ _ H) as [Ez Hi]. rewrite Ez. cbn [mbind option_bind].
    rewrite Hi, Z.leb_refl, orb_true_r. apply lexed_nil. }
  destruct (rest_cons _ _ _ _ H) as (Ec & Hi & _). rewrite Ec. cbn [mbind option_bind].
  destruct (Z.leb_spec linelen (i + length sp)); [lia|]. rewrite orb_false_r.
  destruct (isEndOfLine c) eqn:He; [apply lexed_nil|].
  destruct tl as [|x tl]; [simpl in Htl; lia|]. rewrite tok_put_here. cbn [mbind option_bind].
  pose proof (lex_token_spec m (i + length sp) c r2 p Hz H Hch) as Ht.
  destruct (word c r2) as [[w r3]|] eqn:Ew.
  - pose proof (word_app _ _ _ _ Ew) as Ea. destruct Ht as (m1 & -> & Hb & Hw); [eapply room_le; [done|lia]|].
    cbn [mbind option_bind]. rewrite Ea in H, Hch, Hr |- *. rewrite length_app in Hr |- *.
    destruct (lex_finish m m1 (i + length sp) w r3 p (length r3 + n) Hb Hw) as (m2 & -> & Hc & Hw2 & Hrest2 & Hr2);
      [rewrite <- Ea in Hch; by eapply word_chars|done|eapply room_le; [done|lia]|].
    cbn [mbind option_bind]. apply Forall_app in Hch as [_ Hch].
    eapply (lexed_cons _ _ m m2 p (length r3 + n)); [lia|done..|lia|].
    replace (pre ++ p :: tl) with ((pre ++ [p]) ++ tl) by by rewrite <- app_assoc.
    replace (length pre + 1) with (Z.of_nat (length (pre ++ [p]))) by (rewrite length_app; simpl; lia).
    apply IH; [done|done|done| |simpl in Htl; lia|lia]. rewrite length_app. simpl. lia.
  - destruct Ht as (m1 & -> & Hw); [eapply room_le; [done|lia]|]. cbn [mbind option_bind].
    exists m1, (pre ++ p :: tl). split; [done|]. eapply writes_weaken; [done|lia].
Qed.

End loops.

(** C29: lexan_tokenizes. [lexan] of a line of [length l] characters divides it
    into the tokens of [words]: blanks separate, a quoted string and each of the
    characters <, > and & is a token of its own, an end of line or the sixteenth
    token stops.  The tokens are laid out as C strings one behind the other in the
    token buffer, the array points to them, their number is returned, and nothing
    but the first [length l + SHELL_MAXTOK] bytes of the buffer is written.  A
    quoted string that is not closed and a word that runs to the end of the line
    give [SYSERR].  The byte behind the line, which [lexan] reads too, must not be
    a quote. *)
Theorem lexan_tokenizes m line l z p tok :
  bytes_at m line (l ++ [z]) -> isQuote z = false -> Forall (fun x => 0 <= x < 256) l ->
  length l < 2 ^ 16 - 1 -> SHELL_MAXTOK <= length tok ->
  mapped m p (length l + Z.to_nat SHELL_MAXTOK) ->
  apart line (length l + 1) p (length l + SHELL_MAXTOK) ->
  match words (Z.to_nat SHELL_MAXTOK) l with
  | Some ws => exists m' ps, lexan m line (length l) p tok
        = Some (m', ps ++ drop (length ps) tok, Z.of_nat (length ws)) /\
      laid m' p ws ps /\ same_but m m' p (length l + SHELL_MAXTOK)
  | None => exists m' tok', lexan m line (length l) p tok = Some (m', tok', SYSERR) /\
      same_but m m' p (length l + SHELL_MAXTOK)
  end.
Proof.
  intros Hb Hz Hch Hlen Htok Hm Ha.
  assert (H : lexed (words (Z.to_nat SHELL_MAXTOK) l) (lexan m line (length l) p tok) m p
    (length l + Z.to_nat SHELL_MAXTOK) [] tok).
  { apply (lexan_loop_spec line (length l) z ltac:(lia) (Z.to_nat SHELL_MAXTOK) (S (Z.to_nat SHELL_MAXTOK))
      m 0 l p [] tok Hz); [|done| |done|lia|lia].
    - split_and!; [by rewrite Z.add_0_r|lia..].
    - split; [done|]. unfold apart, SHELL_MAXTOK in *. lia. }
  unfold lexed in H. destruct (words _ l) as [ws|].
  - destruct H as (m' & ps & E & Hl & Hw). exists m', ps. split_and!; [done..|apply Hw].
  - destruct H as (m' & tok' & E & Hw). exists m', tok'. split; [done|apply Hw].
Qed.

(** A line of 14 characters at 100: ls  -a <'a b' and an end of line, with room for the
    tokens at 200. *)
Definition a_line : list Z := [108; 115; 32; 32; 45; 97; 32; 60; 39; 97; 32; 98; 39; 10].
Definition line_mem (l : list Z) (z : Z) : cmem :=
  list_to_map (zip (seqZ 100 (length l + 1)) (l ++ [z])) ∪
  list_to_map (zip (seqZ 200 (length l + 16)) (replicate (length l + 16) 255)).

Lemma a_line_words : words 16 a_line = Some [[108; 115]; [45; 97]; [60]; [39; 97; 32; 98; 39]].
Proof. reflexivity. Qed.

Lemma lexan_tokenizes_witness :
  exists m' ps, lexan (line_mem a_line 0) 100 14 200 (replicate 16 0) = Some (m', ps ++ drop (length ps) (replicate 16 0), 4) /\
    laid m' 200 [[108; 115]; [45; 97]; [60]; [39; 97; 32; 98; 39]] ps /\
    same_but (line_mem a_line 0) m' 200 30.
Proof.
  refine (lexan_tokenizes (line_mem a_line 0) 100 a_line 0 200 (replicate 16 0) _ _ _ _ _ _ _).
  - vm_compute. tauto.
  - reflexivity.
  - repeat (constructor; [lia|]); constructor.
  - simpl. lia.
  - done.
  - intros a Ha. change (Z.of_nat _) with 30 in Ha. assert (H : a ∈ seqZ 200 30) by (apply elem_of_seqZ; lia).
    clear Ha. revert a H. apply Forall_forall. vm_compute. repeat (constructor; [by eexists|]); constructor.
  - unfold apart. simpl. lia.
Defined.

(** The line of 3 characters (a quote, a, b) is not closed; [lexan] looks at the
    byte behind it and, when that is a quote, takes it as the end of the string. *)
Theorem lexan_reads_past_line :
  words 16 [34; 97; 98] = None /\
  exists m tok, lexan (line_mem [34; 97; 98] 34) 100 3 200 (replicate 16 0) = Some (m, tok, 1).
Proof. split; [reflexivity|]. vm_compute. by eexists _, _. Qed.
