(* ===== verification/Tcp.v ===== *)
(** * Connections of TCP (include/tcp.h, device/tcp/tcpSeqdiff.c,
      tcpRecvValid.c, tcpSendWindow.c, tcpRecvOpts.c and the parts of
      tcpRecvData.c, tcpRecvAck.c, tcpRecvRtt.c, tcpRead.c, tcpWrite.c and tcpSendRxt.c that
      compute on the transmission control block)

    The transmission control block is a record of the groups of fields the header
    has.  The fields [rcvup] and [sndup] are used by no code and are left out.
    [NULL] stored in a flag field is 0. *)

From S2P Require Import Prelude CString Memory NetAddr Net.

(** ** Constants *)

Definition TCP_HDR_LEN : Z := 20.
Definition TCP_MAXSEQ : Z := 0xFFFFFFFF.
Definition TCP_FREE : Z := 0.
Definition TCP_ALLOC : Z := 1.
Definition TCP_IBLEN : Z := 16384.
Definition TCP_OBLEN : Z := 16384.
Definition TCP_INIT_MSS : Z := 1440 + TCP_HDR_LEN.
Definition TCP_INIT_WND : Z := TCP_INIT_MSS.
Definition TCP_MAX_WND : Z := 65535.
Definition TCP_PASSIVE : Z := 0.
Definition TCP_ACTIVE : Z := 1.

Definition TCP_CTRL_URG : Z := 0x20.
Definition TCP_CTRL_ACK : Z := 0x10.
Definition TCP_CTRL_PSH : Z := 0x08.
Definition TCP_CTRL_RST : Z := 0x04.
Definition TCP_CTRL_SYN : Z := 0x02.
Definition TCP_CTRL_FIN : Z := 0x01.

Definition TCP_OPT_END : Z := 0.
Definition TCP_OPT_NOP : Z := 1.
Definition TCP_OPT_MSS : Z := 2.
Definition TCP_OPT_MSS_SIZE : Z := 6.
Definition TCP_OPT_MSS_LEN : Z := 4.

Definition TCP_FLG_SYN : Z := 0x01.
Definition TCP_FLG_FIN : Z := 0x02.
Definition TCP_FLG_SNDACK : Z := 0x04.
Definition TCP_FLG_SNDDATA : Z := 0x08.
Definition TCP_FLG_SNDRST : Z := 0x10.
Definition TCP_FLG_PERSIST : Z := 0x20.

Definition TCP_ERR_RESET : Z := -2.
Definition TCP_ERR_CLOSING : Z := -4.
Definition TCP_ERR_NOCONN : Z := -5.
Definition TCP_ERR_NOSPEC : Z := -6.

Definition TCP_EVT_TIMEWT : Z := 1.
Definition TCP_EVT_RXT : Z := 2.
Definition TCP_EVT_PERSIST : Z := 3.
Definition TCP_TWOMSL : Z := 5 * 1000.
Definition TCP_PST_INITTIME : Z := 3 * 1000.
Definition TCP_PST_MAXTIME : Z := 64 * 1000.
Definition TCP_RXT_MAXCOUNT : Z := 10.
Definition TCP_RXT_INITTIME : Z := 500.
Definition TCP_RXT_MINTIME : Z := 100.
Definition TCP_RXT_MAXTIME : Z := 32 * 1000.

(** ** Widths, flags and sequence numbers *)

(** [x & f] as a condition, [x |= f], [x &= ~f] *)
Definition has (x f : Z) : bool := negb (Z.land x f =? 0).
Definition raise (x f : Z) : Z := Z.lor x f.
Definition clear (x f : Z) : Z := Z.land x (Z.lnot f).

Definition seqlt (a b : Z) : bool := i32 (i32 a - i32 b) <? 0.
Definition seqlte (a b : Z) : bool := i32 (i32 a - i32 b) <=? 0.
Definition seqadd (a b : Z) : Z := u32 (a + b) mod TCP_MAXSEQ.

Definition tcpSeqdiff (first second : Z) : Z :=
  if (first <? TCP_MAXSEQ / 2) && (TCP_MAXSEQ / 2 <? second) then u32 (TCP_MAXSEQ - first + second)
  else if (second <? TCP_MAXSEQ / 2) && (TCP_MAXSEQ / 2 <? first) then u32 (TCP_MAXSEQ - first + second)
  else u32 (first - second).

Definition offset2octets (x : Z) : Z := Z.shiftr x 4 * 4.
Definition octets2offset (x : Z) : Z := u8 (Z.shiftl (x / 4) 4).

(** ** Transmission control blocks *)

Inductive tcpstate : Type :=
| TCP_CLOSED | TCP_LISTEN | TCP_SYNSENT | TCP_SYNRECV | TCP_ESTAB | TCP_FINWT1
| TCP_FINWT2 | TCP_CLOSEWT | TCP_CLOSING | TCP_LASTACK | TCP_TIMEWT.

#[export] Instance tcpstate_eq_dec : EqDecision tcpstate.
Proof. solve_decision. Defined.

(** Connection details *)
Record tcbconn : Type := mktcbconn {
  tc_dev : Z;
  tc_state : tcpstate;
  tc_devstate : Z;
  tc_mutex : Z;
  tc_localpt : Z;
  tc_remotept : Z;
  tc_localip : netaddr;
  tc_remoteip : netaddr;
  tc_opentype : Z;
  tc_openclose : Z;
}.

(** Receive variables *)
Record tcbrcv : Type := mktcbrcv {
  rcvnxt : Z;
  rcvwnd : Z;
  rcvfin : Z;
  rcvmss : Z;
  rcvflg : Z;
}.

(** Receive buffer *)
Record tcbin : Type := mktcbin {
  readers : Z;
  istart : Z;
  icount : Z;
  inxt : Z;
  ibuf : list Z;
  imark : list bool;
  ibytes : Z;
}.

(** Send variables *)
Record tcbsnd : Type := mktcbsnd {
  snduna : Z;
  sndnxt : Z;
  sndwnd : Z;
  sndcwn : Z;
  sndsst : Z;
  sndwl1 : Z;
  sndwl2 : Z;
  iss : Z;
  sndfin : Z;
  sndmss : Z;
  sndflg : Z;
  sndrtt : Z;
  sndrtd : Z;
  rxttime : Z;
  rxtcount : Z;
  psttime : Z;
}.

(** Send buffer *)
Record tcbout : Type := mktcbout {
  writers : Z;
  ostart : Z;
  ocount : Z;
  obuf : list Z;
  obytes : Z;
}.

Record tcb : Type := mktcb {
  conn : tcbconn;
  rcv : tcbrcv;
  inb : tcbin;
  sndv : tcbsnd;
  outb : tcbout;
}.

Definition on_conn (f : tcbconn -> tcbconn) (t : tcb) : tcb := mktcb (f (conn t)) (rcv t) (inb t) (sndv t) (outb t).
Definition on_rcv (f : tcbrcv -> tcbrcv) (t : tcb) : tcb := mktcb (conn t) (f (rcv t)) (inb t) (sndv t) (outb t).
Definition on_inb (f : tcbin -> tcbin) (t : tcb) : tcb := mktcb (conn t) (rcv t) (f (inb t)) (sndv t) (outb t).
Definition on_sndv (f : tcbsnd -> tcbsnd) (t : tcb) : tcb := mktcb (conn t) (rcv t) (inb t) (f (sndv t)) (outb t).
Definition on_outb (f : tcbout -> tcbout) (t : tcb) : tcb := mktcb (conn t) (rcv t) (inb t) (sndv t) (f (outb t)).

Definition set_tc_dev (v : Z) : tcb -> tcb :=
  on_conn (fun r => mktcbconn v (tc_state r) (tc_devstate r) (tc_mutex r) (tc_localpt r) (tc_remotept r) (tc_localip r) (tc_remoteip r) (tc_opentype r) (tc_openclose r)).
Definition set_tc_state (v : tcpstate) : tcb -> tcb :=
  on_conn (fun r => mktcbconn (tc_dev r) v (tc_devstate r) (tc_mutex r) (tc_localpt r) (tc_remotept r) (tc_localip r) (tc_remoteip r) (tc_opentype r) (tc_openclose r)).
Definition set_tc_devstate (v : Z) : tcb -> tcb :=
  on_conn (fun r => mktcbconn (tc_dev r) (tc_state r) v (tc_mutex r) (tc_localpt r) (tc_remotept r) (tc_localip r) (tc_remoteip r) (tc_opentype r) (tc_openclose r)).
Definition set_tc_mutex (v : Z) : tcb -> tcb :=
  on_conn (fun r => mktcbconn (tc_dev r) (tc_state r) (tc_devstate r) v (tc_localpt r) (tc_remotept r) (tc_localip r) (tc_remoteip r) (tc_opentype r) (tc_openclose r)).
Definition set_tc_localpt (v : Z) : tcb -> tcb :=
  on_conn (fun r => mktcbconn (tc_dev r) (tc_state r) (tc_devstate r) (tc_mutex r) v (tc_remotept r) (tc_localip r) (tc_remoteip r) (tc_opentype r) (tc_openclose r)).
Definition set_tc_remotept (v : Z) : tcb -> tcb :=
  on_conn (fun r => mktcbconn (tc_dev r) (tc_state r) (tc_devstate r) (tc_mutex r) (tc_localpt r) v (tc_localip r) (tc_remoteip r) (tc_opentype r) (tc_openclose r)).
Definition set_tc_localip (v : netaddr) : tcb -> tcb :=
  on_conn (fun r => mktcbconn (tc_dev r) (tc_state r) (tc_devstate r) (tc_mutex r) (tc_localpt r) (tc_remotept r) v (tc_remoteip r) (tc_opentype r) (tc_openclose r)).
Definition set_tc_remoteip (v : netaddr) : tcb -> tcb :=
  on_conn (fun r => mktcbconn (tc_dev r) (tc_state r) (tc_devstate r) (tc_mutex r) (tc_localpt r) (tc_remotept r) (tc_localip r) v (tc_opentype r) (tc_openclose r)).
Definition set_tc_opentype (v : Z) : tcb -> tcb :=
  on_conn (fun r => mktcbconn (tc_dev r) (tc_state r) (tc_devstate r) (tc_mutex r) (tc_localpt r) (tc_remotept r) (tc_localip r) (tc_remoteip r) v (tc_openclose r)).
Definition set_tc_openclose (v : Z) : tcb -> tcb :=
  on_conn (fun r => mktcbconn (tc_dev r) (tc_state r) (tc_devstate r) (tc_mutex r) (tc_localpt r) (tc_remotept r) (tc_localip r) (tc_remoteip r) (tc_opentype r) v).

Definition set_rcvnxt (v : Z) : tcb -> tcb :=
  on_rcv (fun r => mktcbrcv v (rcvwnd r) (rcvfin r) (rcvmss r) (rcvflg r)).
Definition set_rcvwnd (v : Z) : tcb -> tcb :=
  on_rcv (fun r => mktcbrcv (rcvnxt r) v (rcvfin r) (rcvmss r) (rcvflg r)).
Definition set_rcvfin (v : Z) : tcb -> tcb :=
  on_rcv (fun r => mktcbrcv (rcvnxt r) (rcvwnd r) v (rcvmss r) (rcvflg r)).
Definition set_rcvmss (v : Z) : tcb -> tcb :=
  on_rcv (fun r => mktcbrcv (rcvnxt r) (rcvwnd r) (rcvfin r) v (rcvflg r)).
Definition set_rcvflg (v : Z) : tcb -> tcb :=
  on_rcv (fun r => mktcbrcv (rcvnxt r) (rcvwnd r) (rcvfin r) (rcvmss r) v).

Definition set_readers (v : Z) : tcb -> tcb :=
  on_inb (fun r => mktcbin v (istart r) (icount r) (inxt r) (ibuf r) (imark r) (ibytes r)).
Definition set_istart (v : Z) : tcb -> tcb :=
  on_inb (fun r => mktcbin (readers r) v (icount r) (inxt r) (ibuf r) (imark r) (ibytes r)).
Definition set_icount (v : Z) : tcb -> tcb :=
  on_inb (fun r => mktcbin (readers r) (istart r) v (inxt r) (ibuf r) (imark r) (ibytes r)).
Definition set_inxt (v : Z) : tcb -> tcb :=
  on_inb (fun r => mktcbin (readers r) (istart r) (icount r) v (ibuf r) (imark r) (ibytes r)).
Definition set_ibuf (v : list Z) : tcb -> tcb :=
  on_inb (fun r => mktcbin (readers r) (istart r) (icount r) (inxt r) v (imark r) (ibytes r)).
Definition set_imark (v : list bool) : tcb -> tcb :=
  on_inb (fun r => mktcbin (readers r) (istart r) (icount r) (inxt r) (ibuf r) v (ibytes r)).
Definition set_ibytes (v : Z) : tcb -> tcb :=
  on_inb (fun r => mktcbin (readers r) (istart r) (icount r) (inxt r) (ibuf r) (imark r) v).

Definition set_snduna (v : Z) : tcb -> tcb :=
  on_sndv (fun r => mktcbsnd v (sndnxt r) (sndwnd r) (sndcwn r) (sndsst r) (sndwl1 r) (sndwl2 r) (iss r) (sndfin r) (sndmss r) (sndflg r) (sndrtt r) (sndrtd r) (rxttime r) (rxtcount r) (psttime r)).
Definition set_sndnxt (v : Z) : tcb -> tcb :=
  on_sndv (fun r => mktcbsnd (snduna r) v (sndwnd r) (sndcwn r) (sndsst r) (sndwl1 r) (sndwl2 r) (iss r) (sndfin r) (sndmss r) (sndflg r) (sndrtt r) (sndrtd r) (rxttime r) (rxtcount r) (psttime r)).
Definition set_sndwnd (v : Z) : tcb -> tcb :=
  on_sndv (fun r => mktcbsnd (snduna r) (sndnxt r) v (sndcwn r) (sndsst r) (sndwl1 r) (sndwl2 r) (iss r) (sndfin r) (sndmss r) (sndflg r) (sndrtt r) (sndrtd r) (rxttime r) (rxtcount r) (psttime r)).
Definition set_sndcwn (v : Z) : tcb -> tcb :=
  on_sndv (fun r => mktcbsnd (snduna r) (sndnxt r) (sndwnd r) v (sndsst r) (sndwl1 r) (sndwl2 r) (iss r) (sndfin r) (sndmss r) (sndflg r) (sndrtt r) (sndrtd r) (rxttime r) (rxtcount r) (psttime r)).
Definition set_sndsst (v : Z) : tcb -> tcb :=
  on_sndv (fun r => mktcbsnd (snduna r) (sndnxt r) (sndwnd r) (sndcwn r) v (sndwl1 r) (sndwl2 r) (iss r) (sndfin r) (sndmss r) (sndflg r) (sndrtt r) (sndrtd r) (rxttime r) (rxtcount r) (psttime r)).
Definition set_sndwl1 (v : Z) : tcb -> tcb :=
  on_sndv (fun r => mktcbsnd (snduna r) (sndnxt r) (sndwnd r) (sndcwn r) (sndsst r) v (sndwl2 r) (iss r) (sndfin r) (sndmss r) (sndflg r) (sndrtt r) (sndrtd r) (rxttime r) (rxtcount r) (psttime r)).
Definition set_sndwl2 (v : Z) : tcb -> tcb :=
  on_sndv (fun r => mktcbsnd (snduna r) (sndnxt r) (sndwnd r) (sndcwn r) (sndsst r) (sndwl1 r) v (iss r) (sndfin r) (sndmss r) (sndflg r) (sndrtt r) (sndrtd r) (rxttime r) (rxtcount r) (psttime r)).
Definition set_iss (v : Z) : tcb -> tcb :=
  on_sndv (fun r => mktcbsnd (snduna r) (sndnxt r) (sndwnd r) (sndcwn r) (sndsst r) (sndwl1 r) (sndwl2 r) v (sndfin r) (sndmss r) (sndflg r) (sndrtt r) (sndrtd r) (rxttime r) (rxtcount r) (psttime r)).
Definition set_sndfin (v : Z) : tcb -> tcb :=
  on_sndv (fun r => mktcbsnd (snduna r) (sndnxt r) (sndwnd r) (sndcwn r) (sndsst r) (sndwl1 r) (sndwl2 r) (iss r) v (sndmss r) (sndflg r) (sndrtt r) (sndrtd r) (rxttime r) (rxtcount r) (psttime r)).
Definition set_sndmss (v : Z) : tcb -> tcb :=
  on_sndv (fun r => mktcbsnd (snduna r) (sndnxt r) (sndwnd r) (sndcwn r) (sndsst r) (sndwl1 r) (sndwl2 r) (iss r) (sndfin r) v (sndflg r) (sndrtt r) (sndrtd r) (rxttime r) (rxtcount r) (psttime r)).
Definition set_sndflg (v : Z) : tcb -> tcb :=
  on_sndv (fun r => mktcbsnd (snduna r) (sndnxt r) (sndwnd r) (sndcwn r) (sndsst r) (sndwl1 r) (sndwl2 r) (iss r) (sndfin r) (sndmss r) v (sndrtt r) (sndrtd r) (rxttime r) (rxtcount r) (psttime r)).
Definition set_sndrtt (v : Z) : tcb -> tcb :=
  on_sndv (fun r => mktcbsnd (snduna r) (sndnxt r) (sndwnd r) (sndcwn r) (sndsst r) (sndwl1 r) (sndwl2 r) (iss r) (sndfin r) (sndmss r) (sndflg r) v (sndrtd r) (rxttime r) (rxtcount r) (psttime r)).
Definition set_sndrtd (v : Z) : tcb -> tcb :=
  on_sndv (fun r => mktcbsnd (snduna r) (sndnxt r) (sndwnd r) (sndcwn r) (sndsst r) (sndwl1 r) (sndwl2 r) (iss r) (sndfin r) (sndmss r) (sndflg r) (sndrtt r) v (rxttime r) (rxtcount r) (psttime r)).
Definition set_rxttime (v : Z) : tcb -> tcb :=
  on_sndv (fun r => mktcbsnd (snduna r) (sndnxt r) (sndwnd r) (sndcwn r) (sndsst r) (sndwl1 r) (sndwl2 r) (iss r) (sndfin r) (sndmss r) (sndflg r) (sndrtt r) (sndrtd r) v (rxtcount r) (psttime r)).
Definition set_rxtcount (v : Z) : tcb -> tcb :=
  on_sndv (fun r => mktcbsnd (snduna r) (sndnxt r) (sndwnd r) (sndcwn r) (sndsst r) (sndwl1 r) (sndwl2 r) (iss r) (sndfin r) (sndmss r) (sndflg r) (sndrtt r) (sndrtd r) (rxttime r) v (psttime r)).
Definition set_psttime (v : Z) : tcb -> tcb :=
  on_sndv (fun r => mktcbsnd (snduna r) (sndnxt r) (sndwnd r) (sndcwn r) (sndsst r) (sndwl1 r) (sndwl2 r) (iss r) (sndfin r) (sndmss r) (sndflg r) (sndrtt r) (sndrtd r) (rxttime r) (rxtcount r) v).

Definition set_writers (v : Z) : tcb -> tcb :=
  on_outb (fun r => mktcbout v (ostart r) (ocount r) (obuf r) (obytes r)).
Definition set_ostart (v : Z) : tcb -> tcb :=
  on_outb (fun r => mktcbout (writers r) v (ocount r) (obuf r) (obytes r)).
Definition set_ocount (v : Z) : tcb -> tcb :=
  on_outb (fun r => mktcbout (writers r) (ostart r) v (obuf r) (obytes r)).
Definition set_obuf (v : list Z) : tcb -> tcb :=
  on_outb (fun r => mktcbout (writers r) (ostart r) (ocount r) v (obytes r)).
Definition set_obytes (v : Z) : tcb -> tcb :=
  on_outb (fun r => mktcbout (writers r) (ostart r) (ocount r) (obuf r) v).

(** The header of a segment, in host order. *)
Record tcpPkt : Type := mktcpPkt {
  th_srcpt : Z;
  th_dstpt : Z;
  th_seqnum : Z;
  th_acknum : Z;
  th_offset : Z;
  th_control : Z;
  th_window : Z;
  th_chksum : Z;
  th_urgent : Z;
}.

Definition set_th_control (v : Z) (h : tcpPkt) : tcpPkt :=
  mktcpPkt (th_srcpt h) (th_dstpt h) (th_seqnum h) (th_acknum h) (th_offset h) v (th_window h)
    (th_chksum h) (th_urgent h).

(** [tcpSeglen(tcp, tcplen)] stored in a [ushort] *)
Definition tcpSeglen (h : tcpPkt) (tcplen : Z) : Z := u16 (tcplen - offset2octets (th_offset h)).

(** ** tcpRecvValid: the answer, the control bits and [pkt->len] afterwards *)

Definition in_window (t : tcb) (s : Z) : bool := seqlte (rcvnxt (rcv t)) s && seqlt s (rcvwnd (rcv t)).

Definition tcpRecvValid (h : tcpPkt) (tcplen len : Z) (t : tcb) : bool * Z * Z :=
  let seglen := tcpSeglen h tcplen in
  let availwnd := tcpSeqdiff (rcvwnd (rcv t)) (rcvnxt (rcv t)) in
  let seglen := if has (th_control h) TCP_CTRL_SYN then u16 (seglen + 1) else seglen in
  let seglen := if has (th_control h) TCP_CTRL_FIN then u16 (seglen + 1) else seglen in
  let result :=
    if seglen =? 0 then
      if availwnd =? 0 then th_seqnum h =? rcvnxt (rcv t) else in_window t (th_seqnum h)
    else
      if availwnd =? 0 then false
      else in_window t (th_seqnum h) || in_window t (seqadd (th_seqnum h) (seglen - 1)) in
  if availwnd =? 0
  then (result, clear (th_control h) (Z.lor TCP_CTRL_PSH (Z.lor TCP_CTRL_SYN TCP_CTRL_FIN)), u32 (len - seglen))
  else (result, th_control h, len).

(** ** tcpSendWindow: the block and the window *)

Definition tcpSendWindow (t : tcb) : tcb * Z :=
  let window := u16 (TCP_IBLEN - icount (inb t)) in
  match tc_state (conn t) with
  | TCP_CLOSED => (t, 0)
  | TCP_LISTEN | TCP_SYNSENT | TCP_SYNRECV => (set_rcvwnd (seqadd (rcvnxt (rcv t)) window) t, window)
  | _ =>
      let unused := u16 (tcpSeqdiff (rcvwnd (rcv t)) (rcvnxt (rcv t))) in
      let window := if (window * 4 <? TCP_IBLEN) || (window <? rcvmss (rcv t)) then 0 else window in
      if unused <? window then (set_rcvwnd (seqadd (rcvnxt (rcv t)) window) t, window)
      else (t, unused)
  end.

(** ** The data of a segment goes into the receive buffer (tcpRecvData) *)

(** [for (i = 0; i < seglen; i++)]: [n] rounds are left. *)
Fixpoint store_loop (n : nat) (M : memory) (data start i : Z) (t : tcb) : tcb :=
  match n with
  | O => t
  | S n =>
      let index := Z.to_nat (u32 (start + i) mod TCP_IBLEN) in
      store_loop n M data start (i + 1)
        (set_imark (<[index := true]> (imark (inb t))) (set_ibuf (<[index := ldb M (data + i)]> (ibuf (inb t))) t))
  end.

(** The loop over the data that is there already.  The result tells whether it
    stopped at a FIN.  [icount] grows to [TCP_IBLEN] at most. *)
Fixpoint gather_loop (fuel : nat) (t : tcb) : option (tcb * bool) :=
  match fuel with
  | O => None
  | S fuel =>
      if icount (inb t) <? TCP_IBLEN then
        mark ← imark (inb t) !! Z.to_nat (inxt (inb t));
        if (mark : bool) then
          let t := set_icount (icount (inb t) + 1) t in
          let t := set_ibytes (u32 (ibytes (inb t) + 1)) t in
          let t := set_inxt (u32 (inxt (inb t) + 1) mod TCP_IBLEN) t in
          let t := set_rcvnxt (seqadd (rcvnxt (rcv t)) 1) t in
          if has (rcvflg (rcv t)) TCP_FLG_FIN && (rcvnxt (rcv t) =? rcvfin (rcv t)) then Some (t, true)
          else gather_loop fuel t
        else Some (t, false)
      else Some (t, false)
  end.

Definition gather_fuel : nat := S (Z.to_nat TCP_IBLEN).

(** [n] octets stored at the start of the window can be acknowledged. *)
Definition take_in (n : Z) (t : tcb) : tcb :=
  let t := set_icount (u32 (icount (inb t) + n)) t in
  let t := set_ibytes (u32 (ibytes (inb t) + n)) t in
  let t := set_inxt (u32 (inxt (inb t) + n) mod TCP_IBLEN) t in
  set_rcvnxt (seqadd (rcvnxt (rcv t)) n) t.

(** [seglen] octets at [data] go to the position [start]: the block, the control
    bits, and whether that was the start of the window. *)
Definition store_data (M : memory) (data start seglen control : Z) (t : tcb) : option (tcb * Z * bool) :=
  let t := store_loop (Z.to_nat seglen) M data start 0 t in
  if start =? inxt (inb t) then
    '(t, fin) ← gather_loop gather_fuel (take_in seglen t);
    Some (t, if (fin : bool) then raise control TCP_CTRL_FIN else control, true)
  else Some (t, control, false).

(** A segment with data, in a state in which data is accepted: the same and
    [seglen]. *)
Definition store_segment (M : memory) (tcp : Z) (h : tcpPkt) (seglen : Z) (t : tcb) : option (tcb * Z * bool * Z) :=
  let data := tcp + offset2octets (th_offset h) in
  let '(offset, data, seglen, start) :=
    if seqlt (th_seqnum h) (rcvnxt (rcv t)) then
      let offset := tcpSeqdiff (rcvnxt (rcv t)) (th_seqnum h) in
      (offset, data + offset, u16 (seglen - offset), inxt (inb t))
    else
      let offset := tcpSeqdiff (th_seqnum h) (rcvnxt (rcv t)) in
      (offset, data, seglen, u32 (inxt (inb t) + offset) mod TCP_IBLEN) in
  let window := u32 (tcpSeqdiff (rcvwnd (rcv t)) (rcvnxt (rcv t)) - offset) in
  let '(seglen, control) :=
    if window <? seglen then (u16 window, clear (th_control h) TCP_CTRL_FIN) else (seglen, th_control h) in
  r ← store_data M data start seglen control t;
  Some (r, seglen).

(** ** The loops over the buffers in tcpRead and tcpWrite *)

(** At most [n] octets for the caller. *)
Fixpoint read_loop (n : nat) (t : tcb) : option (tcb * list Z) :=
  match n with
  | O => Some (t, [])
  | S n =>
      if 0 <? icount (inb t) then
        c ← ibuf (inb t) !! Z.to_nat (istart (inb t));
        let t := set_imark (<[Z.to_nat (istart (inb t)) := false]> (imark (inb t))) t in
        let t := set_istart (u32 (istart (inb t) + 1) mod TCP_IBLEN) t in
        let t := set_icount (icount (inb t) - 1) t in
        '(t, l) ← read_loop n t;
        Some (t, c :: l)
      else Some (t, [])
  end.

(** The octets that did not fit are left. *)
Fixpoint write_loop (l : list Z) (t : tcb) : tcb * list Z :=
  match l with
  | [] => (t, [])
  | c :: r =>
      if ocount (outb t) <? TCP_OBLEN then
        let index := Z.to_nat (u32 (ostart (outb t) + ocount (outb t)) mod TCP_OBLEN) in
        write_loop r (set_ocount (ocount (outb t) + 1) (set_obuf (<[index := u8 c]> (obuf (outb t))) t))
      else (t, l)
  end.
