(* ===== verification/TcpStream.v ===== *)
(** * The receiver of TCP delivers the stream of the sender

    [f] gives the octet the sender has at each sequence number.  [Rcv f d t]: the
    receive buffer of [t] holds octets of that stream, at the ring positions given
    by [d]; the first [icount] of them, which end before [rcvnxt], are buffered for the
    reader, those marked behind it came out of order.  Sequence numbers stay below
    [SEQLIM], before they wrap around. *)

From S2P Require Import Prelude CString Memory NetAddr Net Tcp.

Local Arguments Z.eqb : simpl never.
Local Arguments Z.ltb : simpl never.
Local Arguments Z.leb : simpl never.
Local Arguments Z.add : simpl never.
Local Arguments Z.sub : simpl never.
Local Arguments Z.modulo : simpl never.
Local Arguments Z.to_nat : simpl never.

Definition SEQLIM : Z := 2 ^ 31 - 2 ^ 16.

Lemma IBLEN_val : TCP_IBLEN = 16384.
Proof. done. Qed.
Lemma SEQLIM_val : SEQLIM = 2 ^ 31 - 2 ^ 16.
Proof. done. Qed.

(** ** Sequence numbers that do not wrap *)

Lemma seqlt_spec a b : 0 <= a < 2 ^ 31 -> 0 <= b < 2 ^ 31 -> seqlt a b = (a <? b).
Proof.
  intros Ha Hb. unfold seqlt. rewrite !i32_id by (unfold is_i32; rewrite ?i32_id by (unfold is_i32; lia); lia).
  destruct (Z.ltb_spec (a - b) 0), (Z.ltb_spec a b); lia || done.
Qed.

Lemma seqlte_spec a b : 0 <= a < 2 ^ 31 -> 0 <= b < 2 ^ 31 -> seqlte a b = (a <=? b).
Proof.
  intros Ha Hb. unfold seqlte. rewrite !i32_id by (unfold is_i32; rewrite ?i32_id by (unfold is_i32; lia); lia).
  destruct (Z.leb_spec (a - b) 0), (Z.leb_spec a b); lia || done.
Qed.

Lemma seqadd_spec a n : 0 <= a -> 0 <= n -> a + n < 2 ^ 31 -> seqadd a n = a + n.
Proof.
  intros Ha Hn H. unfold seqadd, TCP_MAXSEQ. rewrite u32_id by (unfold is_u32; lia). apply Z.mod_small. lia.
Qed.

Lemma tcpSeqdiff_spec a b : 0 <= b <= a -> a < 2 ^ 31 -> tcpSeqdiff a b = a - b.
Proof.
  intros Hb Ha. unfold tcpSeqdiff. change (TCP_MAXSEQ / 2) with (2 ^ 31 - 1).
  destruct (Z.ltb_spec (2 ^ 31 - 1) a), (Z.ltb_spec (2 ^ 31 - 1) b); try lia. rewrite !andb_false_r.
  apply u32_id. unfold is_u32. lia.
Qed.

(** ** The ring *)

(** The position of the octet with sequence number [s]. *)
Definition at_seq (d s : Z) : nat := Z.to_nat ((d + s) mod TCP_IBLEN).

Lemma at_seq_lt d s (A : Type) (l : list A) : Z.of_nat (length l) = TCP_IBLEN -> (at_seq d s < length l)%nat.
Proof. intros H. unfold at_seq. pose proof (Z.mod_pos_bound (d + s) TCP_IBLEN ltac:(done)). lia. Qed.

Lemma at_seq_ne d s s' : s < s' < s + TCP_IBLEN -> at_seq d s <> at_seq d s'.
Proof.
  intros H E. unfold at_seq in E. pose proof (Z.mod_pos_bound (d + s) TCP_IBLEN ltac:(done)).
  pose proof (Z.mod_pos_bound (d + s') TCP_IBLEN ltac:(done)).
  apply (mod_apart TCP_IBLEN (d + s) (d + s')); [done|lia|lia].
Qed.

Lemma at_seq_next d s : at_seq d (s + TCP_IBLEN) = at_seq d s.
Proof. unfold at_seq. rewrite Z.add_assoc. replace TCP_IBLEN with (1 * TCP_IBLEN) at 1 by lia. by rewrite Z.mod_add. Qed.

Lemma ring_add d s i : 0 <= i < 2 ^ 31 -> u32 ((d + s) mod TCP_IBLEN + i) mod TCP_IBLEN = (d + (s + i)) mod TCP_IBLEN.
Proof.
  intros Hi. pose proof (Z.mod_pos_bound (d + s) TCP_IBLEN ltac:(done)). unfold TCP_IBLEN in *.
  rewrite u32_id by (unfold is_u32; lia). rewrite Zplus_mod_idemp_l. f_equal. lia.
Qed.

Section stream.
Context (f : Z -> Z) (d : Z).

Record Rcv (t : tcb) : Prop := {
  rv_ibuf : Z.of_nat (length (ibuf (inb t))) = TCP_IBLEN;
  rv_imark : Z.of_nat (length (imark (inb t))) = TCP_IBLEN;
  rv_icount : 0 <= icount (inb t) <= TCP_IBLEN;
  rv_inxt : inxt (inb t) = (d + rcvnxt (rcv t)) mod TCP_IBLEN;
  rv_istart : istart (inb t) = (d + (rcvnxt (rcv t) - icount (inb t))) mod TCP_IBLEN;
  rv_rcvnxt : 0 <= rcvnxt (rcv t) <= rcvwnd (rcv t);
  rv_rcvwnd : rcvwnd (rcv t) <= rcvnxt (rcv t) - icount (inb t) + TCP_IBLEN;
  rv_lim : rcvnxt (rcv t) <= SEQLIM;
  rv_ready : forall s, rcvnxt (rcv t) - icount (inb t) <= s < rcvnxt (rcv t) ->
    ibuf (inb t) !! at_seq d s = Some (f s);
  rv_ahead : forall s, rcvnxt (rcv t) <= s < rcvnxt (rcv t) - icount (inb t) + TCP_IBLEN ->
    imark (inb t) !! at_seq d s = Some true -> ibuf (inb t) !! at_seq d s = Some (f s) /\ s < rcvwnd (rcv t) /\ s < SEQLIM;
}.

(** ** Storing the octets of a segment *)

(** [n] octets from [s] on are stored, the others stay. *)
Lemma store_loop_spec n M data start i t s : start = (d + s) mod TCP_IBLEN -> 0 <= i -> i + Z.of_nat n <= TCP_IBLEN ->
  Z.of_nat (length (ibuf (inb t))) = TCP_IBLEN -> Z.of_nat (length (imark (inb t))) = TCP_IBLEN ->
  exists b m, store_loop n M data start i t = set_imark m (set_ibuf b t) /\
    length b = length (ibuf (inb t)) /\ length m = length (imark (inb t)) /\
    (forall x, s + i <= x < s + i + Z.of_nat n -> b !! at_seq d x = Some (ldb M (data + (x - s))) /\ m !! at_seq d x = Some true) /\
    (forall x, s + i + Z.of_nat n - TCP_IBLEN <= x < s + i \/ s + i + Z.of_nat n <= x < s + i + TCP_IBLEN ->
       b !! at_seq d x = ibuf (inb t) !! at_seq d x /\ m !! at_seq d x = imark (inb t) !! at_seq d x).
Proof.
  intros -> Hi. revert i t Hi. induction n as [|n IH]; intros i t Hi Hn Hb Hm.
  - exists (ibuf (inb t)), (imark (inb t)). split; [by destruct t as [? ? [] ? ?]|]. split_and!; [done..| |done].
    intros x Hx. lia.
  - cbn [store_loop]. rewrite ring_add by (unfold TCP_IBLEN in *; lia). fold (at_seq d (s + i)).
    set (b1 := <[at_seq d (s + i) := ldb M (data + i)]> (ibuf (inb t))).
    set (m1 := <[at_seq d (s + i) := true]> (imark (inb t))).
    destruct (IH (i + 1) (set_imark m1 (set_ibuf b1 t))) as (b & m & E & Lb & Lm & Hin & Hout);
      [lia|lia|by cbn; unfold b1; rewrite length_insert|by cbn; unfold m1; rewrite length_insert|].
    cbn [inb set_imark set_ibuf on_inb ibuf imark] in Lb, Lm, Hout.
    exists b, m. split; [by rewrite E|]. split; [rewrite Lb; apply length_insert|].
    split; [rewrite Lm; apply length_insert|]. split.
    + intros x Hx. destruct (decide (x = s + i)) as [->|Hne].
      * destruct (Hout (s + i)) as [-> ->]; [lia|]. unfold b1, m1.
        rewrite !list_lookup_insert_eq by by apply at_seq_lt. split; [|done]. do 3 f_equal. lia.
      * apply Hin. lia.
    + intros x Hx. destruct (Hout x) as [-> ->]; [lia|]. unfold b1, m1.
      assert (Hne : at_seq d (s + i) <> at_seq d x).
      { destruct Hx; [apply not_eq_sym|]; apply at_seq_ne; lia. }
      by rewrite !list_lookup_insert_ne.
Qed.

(** [n] octets more are buffered for the reader, in the same window. *)
Record advanced (n : Z) (t t' : tcb) : Prop := {
  ad_n : 0 <= n;
  ad_rcvnxt : rcvnxt (rcv t') = rcvnxt (rcv t) + n;
  ad_icount : icount (inb t') = icount (inb t) + n;
  ad_rcvwnd : rcvwnd (rcv t') = rcvwnd (rcv t);
}.

Lemma advanced_trans n n' t t' t'' : advanced n t t' -> advanced n' t' t'' -> advanced (n + n') t t''.
Proof. intros [] []. split; lia. Qed.

(** ** Gathering what came out of order *)

Lemma gather_loop_spec fuel t : Rcv t -> TCP_IBLEN - icount (inb t) < Z.of_nat fuel ->
  exists n t' fin, gather_loop fuel t = Some (t', fin) /\ Rcv t' /\ advanced n t t'.
Proof.
  revert t. induction fuel as [|fuel IH]; intros t H Hf; [destruct H; lia|]. pose proof H as [H1 H2 H3 H4 H5 H6 H7 H8 H9 H10].
  cbn [gather_loop]. destruct (Z.ltb_spec (icount (inb t)) TCP_IBLEN) as [Hlt|]; [|by exists 0, t, false; split_and!; [..|split; lia]].
  rewrite H4. fold (at_seq d (rcvnxt (rcv t))).
  destruct (lookup_lt_is_Some_2 (imark (inb t)) (at_seq d (rcvnxt (rcv t)))) as [b Eb]; [by apply at_seq_lt|].
  rewrite Eb. cbn [mbind option_bind]. destruct b; [|by exists 0, t, false; split_and!; [..|split; lia]].
  destruct (H10 (rcvnxt (rcv t))) as (Ef & Hw & Hl); [lia|done|].
  pose proof IBLEN_val. pose proof SEQLIM_val.
  set (t1 := set_rcvnxt _ _). assert (Hadv : advanced 1 t t1).
  { split; cbn; [lia| |done|done]. apply seqadd_spec; lia. }
  assert (HR : Rcv t1).
  { pose proof Hadv as [_ A1 A2 A3]. split; rewrite ?A1, ?A2, ?A3; cbn; try done; try lia.
    - rewrite H4, ring_add by lia. done.
    - rewrite H5. f_equal. lia.
    - intros s Hs. destruct (decide (s = rcvnxt (rcv t))) as [->|]; [done|]. apply H9. lia.
    - intros s Hs. apply H10. lia. }
  destruct (_ && _); [by exists 1, t1, true|].
  destruct (IH t1 HR) as (n & t' & fin & E & HR' & Hadv'); [destruct Hadv; lia|].
  exists (1 + n), t', fin. split_and!; [done..|]. by eapply advanced_trans.
Qed.

(** ** A segment *)

(** The octets of the segment at [data] are those of the stream. *)
Definition carries (M : memory) (data : Z) (s n : Z) : Prop :=
  0 <= s /\ s + n <= SEQLIM /\ forall x, s <= x < s + n -> ldb M (data + (x - s)) = f x.

(** [n] octets from [s] on stored in the window. *)
Lemma Rcv_store M data t s n : Rcv t -> carries M data s (Z.of_nat n) ->
  rcvnxt (rcv t) <= s -> s + Z.of_nat n <= rcvwnd (rcv t) ->
  let t' := store_loop n M data ((d + s) mod TCP_IBLEN) 0 t in
  Rcv t' /\ rcv t' = rcv t /\ icount (inb t') = icount (inb t) /\ inxt (inb t') = inxt (inb t) /\
  (forall x, s <= x < s + Z.of_nat n -> imark (inb t') !! at_seq d x = Some true).
Proof.
  intros [H1 H2 H3 H4 H5 H6 H7 H8 H9 H10] (Hs0 & Hsl & Hf) Hs Hn t'.
  destruct (store_loop_spec n M data _ 0 t s eq_refl) as (b & m & E & Lb & Lm & Hin & Hout); try done; [lia|].
  subst t'. rewrite E. rewrite Z.add_0_r in Hin, Hout.
  split_and!; [|done..|intros x Hx; by apply Hin].
  split; cbn; rewrite ?Lb, ?Lm; try done.
  - intros x Hx. destruct (Hout x) as [-> _]; [lia|]. by apply H9.
  - intros x Hx. destruct (decide (s <= x < s + Z.of_nat n)) as [Hy|Hy].
    + destruct (Hin x Hy) as [-> _]. intros _. rewrite Hf by lia. split_and!; [done|lia..].
    + destruct (Hout x) as [-> ->]; [lia|]. by apply H10.
Qed.

Lemma Rcv_take_in t n : Rcv t -> 0 <= n <= rcvwnd (rcv t) - rcvnxt (rcv t) -> rcvnxt (rcv t) + n <= SEQLIM ->
  (forall x, rcvnxt (rcv t) <= x < rcvnxt (rcv t) + n -> imark (inb t) !! at_seq d x = Some true) ->
  Rcv (take_in n t) /\ advanced n t (take_in n t).
Proof.
  intros [H1 H2 H3 H4 H5 H6 H7 H8 H9 H10] Hn Hl Hm. pose proof IBLEN_val. pose proof SEQLIM_val.
  assert (Hadv : advanced n t (take_in n t)).
  { split; cbn; [lia| | |done]; [apply seqadd_spec; lia|]. apply u32_id. unfold is_u32. lia. }
  split; [|done]. pose proof Hadv as [_ A1 A2 A3]. split; rewrite ?A1, ?A2, ?A3; cbn; try done; try lia.
  - rewrite H4, ring_add by lia. done.
  - rewrite H5. f_equal. lia.
  - intros s Hs. destruct (decide (s < rcvnxt (rcv t))); [apply H9; lia|]. apply H10; [lia|]. apply Hm. lia.
  - intros s Hs. apply H10. lia.
Qed.

(** The segment has octets that may be new, and none beyond the window unless it
    starts in the window. *)
Definition acceptable (t : tcb) (s n : Z) : Prop :=
  rcvnxt (rcv t) <= s < rcvwnd (rcv t) \/ s < rcvnxt (rcv t) <= s + n /\ s + n <= rcvwnd (rcv t).

Lemma carries_drop M data s n k m : carries M data s n -> 0 <= k -> 0 <= m -> k + m <= n -> carries M (data + k) (s + k) m.
Proof.
  intros (H1 & H2 & H3) Hk Hm Hle. split_and!; [lia..|]. intros x Hx. rewrite <- H3 by lia. f_equal. lia.
Qed.

(** [m] octets of the stream from [s] on, in the window. *)
Lemma store_data_spec M data start s m c t : Rcv t -> start = (d + s) mod TCP_IBLEN ->
  carries M data s m -> 0 <= m -> rcvnxt (rcv t) <= s -> s + m <= rcvwnd (rcv t) ->
  s < rcvnxt (rcv t) + TCP_IBLEN ->
  exists k t' c' b, store_data M data start m c t = Some (t', c', b) /\ Rcv t' /\ advanced k t t' /\
    (s = rcvnxt (rcv t) -> m <= k).
Proof.
  intros H -> Hc Hm Hs Hw Hi. pose proof IBLEN_val. pose proof SEQLIM_val. pose proof Hc as (_ & Hl & _).
  destruct (Rcv_store M data t s (Z.to_nat m) H) as (HR1 & Er & Eic & Ein & Hmk);
    [by rewrite Z2Nat.id|done|lia|]. rewrite Z2Nat.id in Hmk by done.
  unfold store_data. set (t1 := store_loop _ _ _ _ _ t) in *.
  assert (Hadv1 : advanced 0 t t1) by (split; rewrite ?Er, ?Eic; lia).
  rewrite Ein, (rv_inxt _ H). destruct (Z.eqb_spec ((d + s) mod TCP_IBLEN) ((d + rcvnxt (rcv t)) mod TCP_IBLEN)) as [E|E].
  - assert (s = rcvnxt (rcv t)) as ->.
    { destruct (decide (s = rcvnxt (rcv t))); [done|]. symmetry in E. apply mod_apart in E as []; [done|lia]. }
    destruct (Rcv_take_in t1 m HR1) as [HR2 Hadv2]; [rewrite Er; lia|rewrite Er; lia|by rewrite Er|].
    destruct (gather_loop_spec gather_fuel (take_in m t1) HR2) as (n & t' & fin & Eg & H' & Hadv).
    { destruct (rv_icount _ HR2). change (Z.of_nat gather_fuel) with (TCP_IBLEN + 1). lia. }
    rewrite Eg. cbn [mbind option_bind]. eexists (0 + (m + n)), t', _, true. split_and!; [done..| |].
    + eapply advanced_trans; [done|]. by eapply advanced_trans.
    + intros _. destruct Hadv. lia.
  - exists 0, t1, c, false. split_and!; [done..|]. intros ->. by destruct E.
Qed.

Lemma store_segment_spec M tcp h n t : Rcv t -> 0 <= n < 2 ^ 16 ->
  carries M (tcp + offset2octets (th_offset h)) (th_seqnum h) n -> acceptable t (th_seqnum h) n ->
  exists k t' c b m, store_segment M tcp h n t = Some (t', c, b, m) /\ Rcv t' /\ advanced k t t' /\
    (th_seqnum h = rcvnxt (rcv t) -> Z.min n (rcvwnd (rcv t) - rcvnxt (rcv t)) <= k).
Proof.
  intros H Hn Hc Ha. pose proof H as [H1 H2 H3 H4 H5 H6 H7 H8 _ _].
  pose proof IBLEN_val. pose proof SEQLIM_val. pose proof Hc as (Hs0 & Hsl & _).
  unfold store_segment. set (s := th_seqnum h) in *. set (data := tcp + _) in *.
  assert (Hb : s < 2 ^ 31 /\ rcvwnd (rcv t) < 2 ^ 31) by lia.
  rewrite (tcpSeqdiff_spec (rcvwnd (rcv t))), seqlt_spec by lia.
  assert (Hfin : forall data' start s1 m c, start = (d + s1) mod TCP_IBLEN -> carries M data' s1 m -> 0 <= m ->
    rcvnxt (rcv t) <= s1 -> s1 + m <= rcvwnd (rcv t) -> s1 < rcvnxt (rcv t) + TCP_IBLEN ->
    (s = rcvnxt (rcv t) -> s1 = s /\ Z.min n (rcvwnd (rcv t) - rcvnxt (rcv t)) <= m) ->
    exists k t' c' b m', (r ← store_data M data' start m c t; Some (r, m)) = Some (t', c', b, m') /\
      Rcv t' /\ advanced k t t' /\ (s = rcvnxt (rcv t) -> Z.min n (rcvwnd (rcv t) - rcvnxt (rcv t)) <= k)).
  { intros data' start s1 m c E1 E2 E3 E4 E5 E6 E7.
    destruct (store_data_spec M data' start s1 m c t H E1 E2 E3 E4 E5 E6) as (k & t' & c' & b & E & HR & Hadv & Hk).
    rewrite E. eexists k, t', c', b, m. split_and!; [done..|]. intros Hs. destruct (E7 Hs) as [-> ?].
    specialize (Hk Hs). lia. }
  destruct (Z.ltb_spec s (rcvnxt (rcv t))) as [Hlt|Hge].
  - destruct Ha as [|[Ha1 Ha2]]; [lia|]. rewrite tcpSeqdiff_spec by lia. set (o := rcvnxt (rcv t) - s).
    assert (Eo : s + o = rcvnxt (rcv t)) by lia. unfold u16. rewrite (Z.mod_small (n - o)) by lia.
    destruct (Z.ltb_spec (u32 (rcvwnd (rcv t) - rcvnxt (rcv t) - o)) (n - o)) as [Hw|Hw].
    + assert (o <= rcvwnd (rcv t) - rcvnxt (rcv t)) by (unfold u32 in Hw; destruct (Z.lt_ge_cases (rcvwnd (rcv t) - rcvnxt (rcv t) - o) 0); [|lia]; rewrite <- (Z.mod_add _ 1), Z.mod_small in Hw; lia).
      rewrite u32_id in Hw |- * by (unfold is_u32; lia). rewrite Z.mod_small by lia.
      eapply (Hfin _ _ (s + o)); [by rewrite H4, Eo|eapply carries_drop; [done|lia..]|lia..].
    + eapply (Hfin _ _ (s + o)); [by rewrite H4, Eo|eapply carries_drop; [done|lia..]|lia..].
  - destruct Ha as [Ha|]; [|lia]. rewrite tcpSeqdiff_spec by lia. set (o := s - rcvnxt (rcv t)).
    rewrite H4, ring_add by lia. replace (rcvnxt (rcv t) + o) with s by lia.
    rewrite u32_id by (unfold is_u32; lia).
    destruct (Z.ltb_spec (rcvwnd (rcv t) - rcvnxt (rcv t) - o) n) as [Hw|Hw].
    + unfold u16. rewrite Z.mod_small by lia.
      eapply (Hfin _ _ s); [done| |lia..].
      replace data with (data + 0) by lia. replace s with (s + 0) by lia. eapply carries_drop; [done|lia..].
    + by eapply (Hfin _ _ s); [..|lia|lia|lia|lia|lia].
Qed.

(** ** Acceptance, the window and the reader *)

Lemma in_window_spec t s : Rcv t -> 0 <= s < 2 ^ 31 ->
  in_window t s = (rcvnxt (rcv t) <=? s) && (s <? rcvwnd (rcv t)).
Proof.
  intros [] Hs. pose proof IBLEN_val. pose proof SEQLIM_val. unfold in_window.
  by rewrite seqlte_spec, seqlt_spec by lia.
Qed.

(** What [tcpRecvValid] lets through, when the SYN bit is not set. *)
Lemma tcpRecvValid_acceptable h tcplen len t c len' : Rcv t ->
  has (th_control h) TCP_CTRL_SYN = false -> let n := tcpSeglen h tcplen in 0 < n < 2 ^ 16 - 1 ->
  0 <= th_seqnum h -> th_seqnum h + n <= SEQLIM ->
  tcpRecvValid h tcplen len t = (true, c, len') -> acceptable t (th_seqnum h) n.
Proof.
  intros H Hsyn n Hn H0 Hl. pose proof H as [_ _ H3 _ _ H6 H7 H8 _ _]. pose proof IBLEN_val. pose proof SEQLIM_val.
  unfold tcpRecvValid. rewrite Hsyn. fold n. clearbody n. set (k := if has _ TCP_CTRL_FIN then _ else n).
  assert (Hk : n <= k <= n + 1).
  { subst k. destruct (has (th_control h) TCP_CTRL_FIN); [|split; lia]. unfold u16. rewrite Z.mod_small by lia. lia. }
  clearbody k. rewrite (proj2 (Z.eqb_neq k 0)) by lia. destruct (_ =? 0); [done|]. intros [= E _ _].
  rewrite seqadd_spec, !in_window_spec in E by (done || lia). unfold acceptable.
  apply orb_prop in E as [E|E]; apply andb_prop in E as [E1 E2]; apply Z.leb_le in E1; apply Z.ltb_lt in E2; lia.
Qed.

Lemma tcpSendWindow_spec t : Rcv t -> let t' := (tcpSendWindow t).1 in
  Rcv t' /\ rcvnxt (rcv t') = rcvnxt (rcv t) /\ icount (inb t') = icount (inb t) /\ rcvwnd (rcv t) <= rcvwnd (rcv t').
Proof.
  intros H. pose proof H as [H1 H2 H3 H4 H5 H6 H7 H8 H9 H10]. pose proof IBLEN_val. pose proof SEQLIM_val.
  assert (Hset : forall w, rcvwnd (rcv t) - rcvnxt (rcv t) <= w <= TCP_IBLEN - icount (inb t) ->
    let t' := set_rcvwnd (seqadd (rcvnxt (rcv t)) w) t in
    Rcv t' /\ rcvnxt (rcv t') = rcvnxt (rcv t) /\ icount (inb t') = icount (inb t) /\ rcvwnd (rcv t) <= rcvwnd (rcv t')).
  { intros w Hw t'. assert (E : rcvwnd (rcv t') = rcvnxt (rcv t) + w) by (apply seqadd_spec; lia).
    split_and!; [|done..|lia]. split; rewrite ?E; cbn; try done; try lia.
    intros s Hs Hm. destruct (H10 s Hs Hm) as (? & ? & ?). split_and!; [done|lia..]. }
  unfold tcpSendWindow, u16. rewrite (Z.mod_small (TCP_IBLEN - icount (inb t))) by lia.
  rewrite tcpSeqdiff_spec, (Z.mod_small (_ - _)) by lia.
  assert (Hest : forall w, w <= TCP_IBLEN - icount (inb t) ->
    let t' := (if rcvwnd (rcv t) - rcvnxt (rcv t) <? w then (set_rcvwnd (seqadd (rcvnxt (rcv t)) w) t, w)
               else (t, rcvwnd (rcv t) - rcvnxt (rcv t))).1 in
    Rcv t' /\ rcvnxt (rcv t') = rcvnxt (rcv t) /\ icount (inb t') = icount (inb t) /\ rcvwnd (rcv t) <= rcvwnd (rcv t')).
  { intros w Hw. destruct (Z.ltb_spec (rcvwnd (rcv t) - rcvnxt (rcv t)) w); cbn [fst]; [apply Hset; lia|done]. }
  destruct (tc_state (conn t)); cbn [fst]; [done|apply Hset; lia|apply Hset; lia|apply Hset; lia|apply Hest; destruct (_ || _); lia..].
Qed.

(** The octets that are ready. *)
Definition buffered (t : tcb) : list Z :=
  f <$> seqZ (rcvnxt (rcv t) - icount (inb t)) (icount (inb t)).

Lemma read_loop_spec n t : Rcv t ->
  exists t', read_loop n t = Some (t', take n (buffered t)) /\ Rcv t' /\ rcv t' = rcv t /\ buffered t' = drop n (buffered t).
Proof.
  revert t. induction n as [|n IH]; intros t H; [by exists t|].
  pose proof H as [H1 H2 H3 H4 H5 H6 H7 H8 H9 H10]. pose proof IBLEN_val. cbn [read_loop].
  destruct (Z.ltb_spec 0 (icount (inb t))) as [Hp|Hp].
  2: { exists t. unfold buffered. replace (icount (inb t)) with 0 by lia. done. }
  set (lo := rcvnxt (rcv t) - icount (inb t)) in *. rewrite H5. fold (at_seq d lo). rewrite H9 by lia.
  cbn [mbind option_bind].
  assert (Er : buffered t = f lo :: (f <$> seqZ (lo + 1) (icount (inb t) - 1))).
  { unfold buffered. fold lo. rewrite seqZ_cons by lia. cbn. do 2 f_equal; f_equal; lia. }
  set (t1 := set_icount _ _).
  assert (Er1 : buffered t1 = f <$> seqZ (lo + 1) (icount (inb t) - 1)).
  { unfold buffered. subst t1 lo. cbn. do 2 f_equal. lia. }
  assert (HR : Rcv t1).
  { subst t1. split; cbn; try done; try lia.
    - by rewrite length_insert.
    - rewrite H5, ring_add by lia. f_equal. lia.
    - intros s Hs. apply H9. lia.
    - intros s Hs Hm. destruct (decide (s = lo + TCP_IBLEN)) as [->|].
      + rewrite at_seq_next, list_lookup_insert_eq in Hm by by apply at_seq_lt. done.
      + apply H10; [lia|]. rewrite list_lookup_insert_ne in Hm; [done|]. apply at_seq_ne. lia. }
  destruct (IH t1 HR) as (t' & E & HR' & Ercv & Erd). rewrite E. exists t'. rewrite Er, Er1 in *. cbn.
  by rewrite Ercv.
Qed.

End stream.
