(* ===== verification/TcpProps.v ===== *)
(** * Theorems on TCP: the stream of octets *)

From S2P Require Import Prelude CString Memory NetAddr Net Tcp TcpStream.

(** The critical sections of the receiving side: a segment that
    [tcpRecvValid] accepts is stored, a reader takes octets, a window is
    advertised.  The octets read so far are kept beside the block. *)
Inductive rcv_step (f : Z -> Z) : tcb * list Z -> tcb * list Z -> Prop :=
| step_segment t r M tcp h tcplen len c len' t' c' b m :
    has (th_control h) TCP_CTRL_SYN = false ->
    tcpRecvValid h tcplen len t = (true, c, len') ->
    0 < tcpSeglen h tcplen < 2 ^ 16 - 1 ->
    carries f M (tcp + offset2octets (th_offset h)) (th_seqnum h) (tcpSeglen h tcplen) ->
    store_segment M tcp (set_th_control c h) (tcpSeglen h tcplen) t = Some (t', c', b, m) ->
    rcv_step f (t, r) (t', r)
| step_read t r n t' l : read_loop n t = Some (t', l) -> rcv_step f (t, r) (t', r ++ l)
| step_window t r : rcv_step f (t, r) ((tcpSendWindow t).1, r).

(** A receive buffer that holds nothing, with a window it has room for. *)
Record empty_receiver (t : tcb) : Prop := {
  er_ibuf : Z.of_nat (length (ibuf (inb t))) = TCP_IBLEN;
  er_imark : imark (inb t) = replicate (Z.to_nat TCP_IBLEN) false;
  er_icount : icount (inb t) = 0;
  er_istart : 0 <= istart (inb t) < TCP_IBLEN;
  er_inxt : inxt (inb t) = istart (inb t);
  er_rcvnxt : 0 <= rcvnxt (rcv t) <= SEQLIM;
  er_rcvwnd : rcvnxt (rcv t) <= rcvwnd (rcv t) <= rcvnxt (rcv t) + TCP_IBLEN;
}.

Lemma empty_Rcv f t : empty_receiver t -> Rcv f (istart (inb t) - rcvnxt (rcv t)) t.
Proof.
  intros [H1 H2 H3 H4 H5 H6 H7]. rewrite <- H5. split; rewrite ?H2, ?H3; try done; try lia.
  - rewrite H5. replace (_ - _ + _) with (istart (inb t)) by lia. by rewrite Z.mod_small.
  - rewrite H5. replace (_ - _ + _) with (istart (inb t)) by lia. by rewrite Z.mod_small.
  - intros s _ Hs. by apply lookup_replicate in Hs as [? _].
Qed.

(** The octets up to [rcvnxt] split at the first one that is ready. *)
Lemma delivered_iff f s0 t r k : s0 <= k -> k = rcvnxt (rcv t) - icount (inb t) -> 0 <= icount (inb t) ->
  r ++ buffered f t = f <$> seqZ s0 (rcvnxt (rcv t) - s0) <-> r = f <$> seqZ s0 (k - s0).
Proof.
  intros Hk -> Hi. unfold buffered.
  replace (rcvnxt (rcv t) - s0) with ((rcvnxt (rcv t) - icount (inb t) - s0) + icount (inb t)) by lia.
  rewrite seqZ_app by lia. rewrite fmap_app.
  replace (s0 + (rcvnxt (rcv t) - icount (inb t) - s0)) with (rcvnxt (rcv t) - icount (inb t)) by lia.
  split; [by intros ?%(inj (.++ _))|by intros ->].
Qed.

Definition stream_inv (f : Z -> Z) (d s0 : Z) (c : tcb * list Z) : Prop :=
  Rcv f d c.1 /\ s0 <= rcvnxt (rcv c.1) - icount (inb c.1) /\
  c.2 = f <$> seqZ s0 (rcvnxt (rcv c.1) - icount (inb c.1) - s0).

Lemma stream_inv_step f d s0 c c' : stream_inv f d s0 c -> rcv_step f c c' -> stream_inv f d s0 c'.
Proof.
  intros (H & Hs & Hr) St.
  destruct St as [t r M tcp h tcplen len c len' t' c' b m Hsyn Hv Hn Hc E|t r n t' l E|t r]; cbn [fst snd] in *.
  - destruct (store_segment_spec f d M tcp (set_th_control c h) (tcpSeglen h tcplen) t H) as
      (k & t1 & c1 & b1 & m1 & E1 & H1 & [A1 A2 A3 A4] & _); [lia|exact Hc| |].
    + destruct Hc as (? & ? & _). eapply (tcpRecvValid_acceptable f d h tcplen len t c len'); done.
    + rewrite E1 in E. injection E as -> -> -> ->. unfold stream_inv. cbn [fst snd].
      replace (rcvnxt (rcv t') - icount (inb t')) with (rcvnxt (rcv t) - icount (inb t)) by lia. done.
  - destruct (read_loop_spec f d n t H) as (t1 & E1 & H1 & Er & Erd). rewrite E1 in E. injection E as <- <-.
    unfold stream_inv. cbn [fst snd].
    assert (Hlen : icount (inb t1) = Z.max 0 (icount (inb t) - Z.of_nat n)).
    { apply (f_equal length) in Erd. unfold buffered in Erd. rewrite length_drop, !length_fmap, !length_seqZ in Erd.
      pose proof (rv_icount _ _ _ H). pose proof (rv_icount _ _ _ H1). lia. }
    split; [done|]. pose proof (rv_icount _ _ _ H). rewrite Er. split; [lia|].
    assert (Hd : (r ++ take n (buffered f t)) ++ buffered f t1 = f <$> seqZ s0 (rcvnxt (rcv t1) - s0)).
    { rewrite Erd, <- app_assoc, take_drop, Er. apply (delivered_iff f s0 t r _ Hs eq_refl); [lia|done]. }
    apply (delivered_iff f s0 t1 _ (rcvnxt (rcv t1) - icount (inb t1))) in Hd; [|rewrite Er; lia|done|lia].
    by rewrite Er in Hd.
  - destruct (tcpSendWindow_spec f d t H) as (H1 & E1 & E2 & _). unfold stream_inv. cbn [fst snd].
    by rewrite E1, E2.
Qed.

Lemma stream_inv_steps f t0 c : empty_receiver t0 -> rtc (rcv_step f) (t0, []) c ->
  exists d, stream_inv f d (rcvnxt (rcv t0)) c.
Proof.
  intros H0 Hs. exists (istart (inb t0) - rcvnxt (rcv t0)).
  assert (Hi : stream_inv f (istart (inb t0) - rcvnxt (rcv t0)) (rcvnxt (rcv t0)) (t0, [])).
  { split; [by apply empty_Rcv|]. cbn [fst snd]. rewrite (er_icount _ H0). split; [lia|].
    by replace (_ - 0 - _) with 0 by lia. }
  remember (t0, []) as c0. clear Heqc0 H0. induction Hs as [c|c1 c2 c3 St Hs IH]; [done|].
  apply IH. by eapply stream_inv_step.
Qed.

(** C25: tcp_delivers_stream. The receiver of TCP gives its reader the stream of
    the sender, whatever the segments: they may be lost, repeated, reordered,
    overlap, or reach beyond the window.  After any sequence of segments that
    [tcpRecvValid] accepts and that carry octets of the stream [f], of reads and of
    advertised windows, from an empty receive buffer on, the octets read so far
    followed by those the buffer gives the next reads are exactly the stream from
    the first sequence number expected up to [rcvnxt]; and the buffer can be read.
    Segments carry data, at most 2^16 - 2 octets, and no SYN, and all sequence numbers, of the octets carried and of the first one
    expected, are at most [SEQLIM] = 2^31 - 2^16: [tcpSeqdiff] is wrong when its arguments lie on both sides of 2^31. *)
Theorem tcp_delivers_stream f t0 t r : empty_receiver t0 -> rtc (rcv_step f) (t0, []) (t, r) ->
  rcvnxt (rcv t0) <= rcvnxt (rcv t) /\
  exists t' l, read_loop (Z.to_nat TCP_IBLEN) t = Some (t', l) /\ icount (inb t') = 0 /\
    r ++ l = f <$> seqZ (rcvnxt (rcv t0)) (rcvnxt (rcv t) - rcvnxt (rcv t0)).
Proof.
  intros H0 Hs. destruct (stream_inv_steps f t0 (t, r) H0 Hs) as (d & H & Hlo & Hr). cbn [fst snd] in *.
  pose proof (rv_icount _ _ _ H) as Hi. split; [lia|].
  destruct (read_loop_spec f d (Z.to_nat TCP_IBLEN) t H) as (t' & E & H' & Er & Erd).
  assert (Hlen : (length (buffered f t) <= Z.to_nat TCP_IBLEN)%nat).
  { unfold buffered. rewrite length_fmap, length_seqZ. lia. }
  rewrite take_ge in E by done. rewrite drop_ge in Erd by done. exists t', (buffered f t). split_and!; [done| |].
  - apply (f_equal length) in Erd. unfold buffered in Erd. rewrite length_fmap, length_seqZ in Erd.
    pose proof (rv_icount _ _ _ H'). cbn in Erd. lia.
  - by apply (delivered_iff f _ t r _ Hlo eq_refl); [lia|].
Qed.

(** C26: tcp_in_order_progress. In every state a receiver reaches, a segment with
    data that [tcpRecvValid] accepts is stored, never outside the buffer, and
    moves [rcvnxt] and the count of octets ready by the same amount; when it starts
    at the octet expected next, this is at least the part of it that lies in the
    window.  The segment carries octets of the stream with sequence numbers at most [SEQLIM] = 2^31 - 2^16, at most 2^16 - 2 of them, and no SYN. *)
Theorem tcp_in_order_progress f t0 t r M tcp h tcplen len c len' :
  empty_receiver t0 -> rtc (rcv_step f) (t0, []) (t, r) ->
  has (th_control h) TCP_CTRL_SYN = false -> tcpRecvValid h tcplen len t = (true, c, len') ->
  let n := tcpSeglen h tcplen in
  0 < n < 2 ^ 16 - 1 -> carries f M (tcp + offset2octets (th_offset h)) (th_seqnum h) n ->
  exists k t' c' b m, store_segment M tcp (set_th_control c h) n t = Some (t', c', b, m) /\
    0 <= k /\ rcvnxt (rcv t') = rcvnxt (rcv t) + k /\ icount (inb t') = icount (inb t) + k /\
    (th_seqnum h = rcvnxt (rcv t) -> Z.min n (rcvwnd (rcv t) - rcvnxt (rcv t)) <= k).
Proof.
  intros H0 Hs Hsyn Hv n Hn Hc. destruct (stream_inv_steps f t0 (t, r) H0 Hs) as (d & H & _). cbn [fst] in H.
  destruct (store_segment_spec f d M tcp (set_th_control c h) n t H) as
    (k & t1 & c1 & b1 & m1 & E1 & H1 & [A1 A2 A3 A4] & Hk); [lia|exact Hc| |].
  - destruct Hc as (? & ? & _). eapply (tcpRecvValid_acceptable f d h tcplen len t c len'); done.
  - by exists k, t1, c1, b1, m1.
Qed.

(** ** A connection *)

(** The receiver expects sequence number 1000 and has a window of 1460 octets;
    its ring starts two positions before the end. *)
Definition listener : tcb :=
  mktcb (mktcbconn 0 TCP_ESTAB 1 1 80 1025 netaddr0 netaddr0 0 2) (mktcbrcv 1000 2460 0 1440 1)
    (mktcbin 3 16382 0 16382 (replicate (Z.to_nat TCP_IBLEN) 0) (replicate (Z.to_nat TCP_IBLEN) false) 0)
    (mktcbsnd 500 500 1000 1440 65535 999 500 499 0 1440 1 0 0 500 0 3000)
    (mktcbout 4 0 0 (replicate (Z.to_nat TCP_OBLEN) 0) 0).

Lemma listener_empty : empty_receiver listener.
Proof. split; try done; cbn; unfold SEQLIM, TCP_IBLEN; lia. Qed.

(** The stream is the alphabet; each segment lies behind its header at 0x2000. *)
Definition abc (s : Z) : Z := 65 + (s - 1000) mod 26.
Definition letters (s n : Z) : memory := stbs (mkmemory ∅ 0 0 0 0) 0x2014 (abc <$> seqZ s n).
Definition seg (s : Z) : tcpPkt := mktcpPkt 1025 80 s 500 0x50 TCP_CTRL_ACK 1000 0 0.

(** The segment with the octets from [s] to [s + n] reaches [t]. *)
Definition arrive (s n : Z) (t : tcb) : tcb :=
  match store_segment (letters s n) 0x2000 (seg s) n t with Some (t', _, _, _) => t' | None => t end.

(** The octets 1003 and 1004 come before 1000 to 1002; then all five are read. *)
Definition t1 : tcb := arrive 1003 2 listener.
Definition t2 : tcb := arrive 1000 3 t1.
Definition t3 : tcb := match read_loop 4 t2 with Some (t, _) => t | None => t2 end.

Lemma letters_carry s n : (s, n) = (1003, 2) \/ (s, n) = (1000, 3) -> carries abc (letters s n) 0x2014 s n.
Proof.
  intros [[= -> ->]|[= -> ->]]; (split_and!; [done|vm_compute; discriminate|]; intros x Hx).
  - assert (x = 1003 \/ x = 1004) as [->| ->] by lia; vm_compute; reflexivity.
  - assert (x = 1000 \/ x = 1001 \/ x = 1002) as [->|[->| ->]] by lia; vm_compute; reflexivity.
Qed.

Lemma arrive_step s n t c len' t' c' b m r : (s, n) = (1003, 2) \/ (s, n) = (1000, 3) ->
  tcpRecvValid (seg s) (20 + n) (34 + n) t = (true, c, len') ->
  store_segment (letters s n) 0x2000 (set_th_control c (seg s)) n t = Some (t', c', b, m) ->
  rcv_step abc (t, r) (t', r).
Proof.
  intros Hs Hv Hst. assert (En : tcpSeglen (seg s) (20 + n) = n) by (destruct Hs as [[= -> ->]|[= -> ->]]; done).
  eapply (step_segment abc t r (letters s n) 0x2000 (seg s) (20 + n) (34 + n) c len' t' c' b m); try done; rewrite ?En.
  - destruct Hs as [[= -> ->]|[= -> ->]]; lia.
  - by apply letters_carry.
  - done.
Qed.

Lemma t1_stored : store_segment (letters 1003 2) 0x2000 (set_th_control 16 (seg 1003)) 2 listener = Some (t1, 16, false, 2).
Proof. vm_compute. reflexivity. Qed.
Lemma t2_stored : store_segment (letters 1000 3) 0x2000 (set_th_control 16 (seg 1000)) 3 t1 = Some (t2, 16, true, 3).
Proof. vm_compute. reflexivity. Qed.
Lemma t3_read : read_loop 4 t2 = Some (t3, [65; 66; 67; 68]).
Proof. vm_compute. reflexivity. Qed.
Lemma t1_valid : tcpRecvValid (seg 1003) 22 36 listener = (true, 16, 36).
Proof. vm_compute. reflexivity. Qed.
Lemma t2_valid : tcpRecvValid (seg 1000) 23 37 t1 = (true, 16, 37).
Proof. vm_compute. reflexivity. Qed.

Lemma t1_reached : rtc (rcv_step abc) (listener, []) (t1, []).
Proof. apply rtc_once. eapply (arrive_step 1003 2); [by left|exact t1_valid|exact t1_stored]. Qed.

Lemma t3_reached : rtc (rcv_step abc) (listener, []) (t3, [65; 66; 67; 68]).
Proof.
  etrans; [exact t1_reached|].
  eapply rtc_l; [eapply (arrive_step 1000 3); [by right|exact t2_valid|exact t2_stored]|].
  apply rtc_once. exact (step_read abc t2 [] 4 t3 _ t3_read).
Qed.

Lemma tcp_delivers_stream_witness :
  rcvnxt (rcv listener) <= rcvnxt (rcv t3) /\
  exists t' l, read_loop (Z.to_nat TCP_IBLEN) t3 = Some (t', l) /\ icount (inb t') = 0 /\
    [65; 66; 67; 68] ++ l = abc <$> seqZ (rcvnxt (rcv listener)) (rcvnxt (rcv t3) - rcvnxt (rcv listener)).
Proof. exact (tcp_delivers_stream abc listener t3 [65; 66; 67; 68] listener_empty t3_reached). Defined.

Lemma tcp_in_order_progress_witness :
  exists k t' c' b m, store_segment (letters 1000 3) 0x2000 (set_th_control 16 (seg 1000)) 3 t1 = Some (t', c', b, m) /\
    0 <= k /\ rcvnxt (rcv t') = rcvnxt (rcv t1) + k /\ icount (inb t') = icount (inb t1) + k /\
    (th_seqnum (seg 1000) = rcvnxt (rcv t1) -> Z.min 3 (rcvwnd (rcv t1) - rcvnxt (rcv t1)) <= k).
Proof.
  refine (tcp_in_order_progress abc listener t1 [] (letters 1000 3) 0x2000 (seg 1000) 23 37 16 37
    listener_empty t1_reached _ t2_valid _ _).
  - reflexivity.
  - vm_compute. split; reflexivity.
  - apply letters_carry. by right.
Defined.

(** Across 2^31 the difference of two sequence numbers 20 apart is almost 2^32. *)
Example tcpSeqdiff_straddles : tcpSeqdiff (2 ^ 31 + 10) (2 ^ 31 - 10) = 2 ^ 32 - 21.
Proof. reflexivity. Qed.
