(* ===== verification/TcpTimer.v ===== *)
(** * The timer events of TCP (device/tcp/tcpTimerSched.c, tcpTimerPurge.c,
      tcpTimerRemain.c, tcpTimer.c, include/tcp.h)

    The events are in the table [tcptimertab]; a [struct tcpEvent *] is an index
    into it, [NULL] is [None].  They are linked in a list behind the entry
    [TCP_EVT_HEAD], in which [remain] counts from the event before.  A
    [struct tcb *] is an index of [tcptab].  The number [NTCP] of TCP devices
    comes from the configuration.

    [TCP_NEVENTS] is the text [(3*NTCP)+1]: [x % TCP_NEVENTS] is
    [x % (3*NTCP) + 1]. *)

From S2P Require Import Prelude Prog Queue Interrupt Memory Kernel Thread Semaphore Clock CString Sys NetAddr Net Tcp.

Definition TCP_EVT_HEAD : nat := 0.
Definition TCP_FREQ : Z := 10.

Record tcpEvent : Type := mktcpEvent {
  ev_used : bool;
  ev_time : Z;
  ev_remain : Z;
  ev_type : Z;
  ev_tcb : option Z;
  ev_next : option nat;
}.

Definition set_ev_used (v : bool) (e : tcpEvent) : tcpEvent :=
  mktcpEvent v (ev_time e) (ev_remain e) (ev_type e) (ev_tcb e) (ev_next e).
Definition set_ev_remain (v : Z) (e : tcpEvent) : tcpEvent :=
  mktcpEvent (ev_used e) (ev_time e) v (ev_type e) (ev_tcb e) (ev_next e).
Definition set_ev_next (v : option nat) (e : tcpEvent) : tcpEvent :=
  mktcpEvent (ev_used e) (ev_time e) (ev_remain e) (ev_type e) (ev_tcb e) v.
Definition set_ev_what (time type : Z) (c : Z) (e : tcpEvent) : tcpEvent :=
  mktcpEvent (ev_used e) time (ev_remain e) type (Some c) (ev_next e).

Abbreviation events := (list tcpEvent).

(** Assignment to fields of [tcptimertab[i]] *)
Definition ev_upd (i : nat) (f : tcpEvent -> tcpEvent) (tab : events) : option events :=
  e ← tab !! i; Some (<[i := f e]> tab).

(** ** allocEvent: [nextevt] and the event, or [SYSERR] *)

Fixpoint allocEvent_loop (n : nat) (ntcp nextevt : Z) (tab : events) : option (events * Z * option nat) :=
  match n with
  | O => Some (tab, nextevt, None)
  | S n =>
      let nextevt := (nextevt + 1) mod (3 * ntcp) + 1 in
      if Z.of_nat TCP_EVT_HEAD =? nextevt then allocEvent_loop n ntcp nextevt tab
      else
        e ← tab !! Z.to_nat nextevt;
        if ev_used e then allocEvent_loop n ntcp nextevt tab
        else
          tab ← ev_upd (Z.to_nat nextevt) (set_ev_used true) tab;
          Some (tab, nextevt, Some (Z.to_nat nextevt))
  end.

Definition allocEvent (ntcp nextevt : Z) (tab : events) : option (events * Z * option nat) :=
  allocEvent_loop (Z.to_nat (3 * ntcp + 1)) ntcp nextevt tab.

(** ** tcpTimerSched *)

(** A walk along the list visits each entry of the table once at most. *)
Definition list_fuel (tab : events) : nat := S (length tab).

(** Where the event goes: [prev], [next] and the time that is left. *)
Fixpoint sched_find (fuel : nat) (tab : events) (prev : nat) (next : option nat) (time : Z)
  : option (nat * option nat * Z) :=
  match fuel with
  | O => None
  | S fuel =>
      match next with
      | None => Some (prev, next, time)
      | Some i =>
          e ← tab !! i;
          if ev_remain e <=? time then sched_find fuel tab i (ev_next e) (i32 (time - ev_remain e))
          else Some (prev, next, time)
      end
  end.

(** The event [evt] goes into the delta list. *)
Definition sched_insert (evt : nat) (time : Z) (tab : events) : option events :=
  head ← tab !! TCP_EVT_HEAD;
  '(prev, next, time) ← sched_find (list_fuel tab) tab TCP_EVT_HEAD (ev_next head) time;
  tab ← ev_upd evt (set_ev_next next) tab;
  tab ← ev_upd prev (set_ev_next (Some evt)) tab;
  tab ← ev_upd evt (set_ev_remain time) tab;
  match next with
  | None => Some tab
  | Some i => ev_upd i (fun e => set_ev_remain (i32 (ev_remain e - time)) e) tab
  end.

(** Between [wait] and [signal]: [nextevt], the table and the result. *)
Definition sched_event (ntcp nextevt time : Z) (c type : Z) (tab : events) : option (events * Z * Z) :=
  '(tab, nextevt, evt) ← allocEvent ntcp nextevt tab;
  match evt with
  | None => Some (tab, nextevt, SYSERR)
  | Some evt =>
      tab ← ev_upd evt (set_ev_what time (u8 type) c) tab;
      tab ← sched_insert evt time tab;
      Some (tab, nextevt, OK)
  end.

(** ** tcpTimerPurge, with [NULL] for all types *)

Fixpoint purge_loop (fuel : nat) (c type : Z) (tab : events) (prev : nat) (cur : option nat) (result : Z)
  : option (events * Z) :=
  match fuel with
  | O => None
  | S fuel =>
      match cur with
      | None => Some (tab, result)
      | Some i =>
          e ← tab !! i;
          '(tab, result) ←
            (if bool_decide (ev_tcb e = Some c) && ((u8 type =? 0) || (ev_type e =? u8 type)) then
               let result := if SYSERR =? result then i32 (ev_time e - ev_remain e) else result in
               tab ← match ev_next e with
                     | None => Some tab
                     | Some n => ev_upd n (fun en => set_ev_remain (i32 (ev_remain en + ev_remain e)) en) tab
                     end;
               tab ← ev_upd prev (set_ev_next (ev_next e)) tab;
               tab ← ev_upd i (set_ev_used false) tab;
               Some (tab, result)
             else Some (tab, result));
          e ← tab !! i;
          purge_loop fuel c type tab i (ev_next e) result
      end
  end.

Definition purge_events (c type : Z) (tab : events) : option (events * Z) :=
  head ← tab !! TCP_EVT_HEAD;
  purge_loop (list_fuel tab) c type tab TCP_EVT_HEAD (ev_next head) SYSERR.

(** ** tcpTimerRemain *)

Fixpoint remain_loop (fuel : nat) (c type : Z) (tab : events) (cur : option nat) (time : Z) : option Z :=
  match fuel with
  | O => None
  | S fuel =>
      match cur with
      | None => Some 0
      | Some i =>
          e ← tab !! i;
          let time := i32 (time + ev_remain e) in
          if bool_decide (ev_tcb e = Some c) && (ev_type e =? u8 type) then Some time
          else remain_loop fuel c type tab (ev_next e) time
      end
  end.

Definition remain_of (c type : Z) (tab : events) : option Z :=
  head ← tab !! TCP_EVT_HEAD;
  remain_loop (list_fuel tab) c type tab (ev_next head) 0.

(** ** calcElapsed *)

Definition calcElapsed (clkticks clktime lastticks lasttime : Z) : Z :=
  let ticks :=
    if lasttime =? i32 clktime then i32 (clkticks - lastticks)
    else i32 (CLKTICKS_PER_SEC - lastticks + (clktime - lasttime - 1) * CLKTICKS_PER_SEC + clkticks) in
  i32 (ticks * (CLKTICKS_PER_SEC / 1000)).
