(* ===== verification/TcpTimerProps.v ===== *)
(** * The timer events of TCP: the delta list, and the theorems on it

    [seg tab p l q]: from the pointer [p] on lie the events of [l], each with its
    [remain], and the last one points to [q].  [due b l] are the times at which
    they expire when [b] has passed before the first. *)

From S2P Require Import Prelude Prog Queue Interrupt Memory Kernel Thread Semaphore Clock CString Sys NetAddr Net Tcp TcpTimer.

Local Arguments Z.eqb : simpl never.
Local Arguments Z.leb : simpl never.

Fixpoint seg (tab : events) (p : option nat) (l : list (nat * Z)) (q : option nat) : Prop :=
  match l with
  | [] => p = q
  | (i, r) :: l => p = Some i /\ exists e, tab !! i = Some e /\ ev_remain e = r /\ seg tab (ev_next e) l q
  end.

Fixpoint due (b : Z) (l : list (nat * Z)) : list (nat * Z) :=
  match l with
  | [] => []
  | (i, r) :: l => (i, b + r) :: due (b + r) l
  end.

Definition total (l : list (nat * Z)) : Z := foldr Z.add 0 l.*2.

Section lists.
Implicit Types (tab : events) (l : list (nat * Z)).

Lemma seg_app tab p l1 l2 q : seg tab p (l1 ++ l2) q <-> exists m, seg tab p l1 m /\ seg tab m l2 q.
Proof.
  revert p. induction l1 as [|[i r] l1 IH]; intros p; simpl; [naive_solver|]. setoid_rewrite IH. naive_solver.
Qed.

Lemma seg_frame tab tab' p l q : (forall i, i ∈ l.*1 -> tab' !! i = tab !! i) -> seg tab p l q -> seg tab' p l q.
Proof.
  revert p. induction l as [|[i r] l IH]; intros p Hf; [done|]. simpl in Hf |- *. intros (-> & e & Ee & Er & Hs).
  split; [done|]. exists e. split_and!; [|done|].
  - rewrite Hf; [done|]. left.
  - apply IH; [|done]. intros j Hj. apply Hf. by right.
Qed.

Lemma seg_len tab p l : seg tab p l None -> NoDup l.*1 -> (length l <= length tab)%nat.
Proof.
  intros Hs Hnd. assert (Hsub : forall p l q, seg tab p l q -> forall i, i ∈ l.*1 -> i ∈ seq 0 (length tab)).
  { clear. intros p l q. revert p. induction l as [|[i r] l IH]; intros p; simpl; [set_solver|].
    intros (_ & e & Ee & _ & Hs) j [->|Hj]%elem_of_cons; [|by eapply IH].
    apply elem_of_seq. apply lookup_lt_Some in Ee. lia. }
  rewrite <- (length_fmap fst l), <- (length_seq (length tab) 0). apply submseteq_length, NoDup_submseteq; [done|].
  by eapply Hsub.
Qed.

(** The last event of a segment points elsewhere. *)
Lemma seg_relink tab p l i r q q' e : seg tab p (l ++ [(i, r)]) q -> i ∉ l.*1 -> tab !! i = Some e ->
  seg (<[i := set_ev_next q' e]> tab) p (l ++ [(i, r)]) q'.
Proof.
  intros (m & H1 & H2)%seg_app Hn Ee. apply seg_app. exists m. split.
  - eapply seg_frame; [|done]. intros j Hj. apply list_lookup_insert_ne. by intros ->.
  - simpl in H2. destruct H2 as (-> & e' & Ee' & Er & _). rewrite Ee in Ee'. injection Ee' as <-.
    split; [done|]. exists (set_ev_next q' e). rewrite list_lookup_insert_eq by by eapply lookup_lt_Some. done.
Qed.

Lemma total_cons i r l : total ((i, r) :: l) = r + total l.
Proof. done. Qed.

Lemma due_app b l1 l2 : due b (l1 ++ l2) = due b l1 ++ due (b + total l1) l2.
Proof.
  revert b. induction l1 as [|[i r] l1 IH]; intros b; simpl; [by rewrite Z.add_0_r|].
  rewrite IH, total_cons. do 3 f_equal. lia.
Qed.

Lemma total_nonneg l : Forall (fun x => 0 <= x.2) l -> 0 <= total l.
Proof. induction 1 as [|[i r] l Hr _ IH]; [done|]. rewrite total_cons. simpl in Hr. lia. Qed.

Lemma due_le b l : Forall (fun x => 0 <= x.2) l -> Forall (fun x => b <= x.2 <= b + total l) (due b l).
Proof.
  intros H. revert b. induction H as [|[i r] l Hr H IH]; intros b; [constructor|]. cbn [due]. rewrite total_cons.
  pose proof (total_nonneg _ H). simpl in Hr. constructor; [simpl; lia|].
  eapply Forall_impl; [apply IH|]. simpl. intros x Hx. lia.
Qed.

(** ** Where an event belongs *)

Lemma sched_find_spec fuel tab prev r0 p l time : seg tab p l None -> (length l < fuel)%nat ->
  Forall (fun x => 0 <= x.2) l -> is_i32 time ->
  exists l1 l2 l0 i r q, sched_find fuel tab prev p time = Some (i, q, time - total l1) /\
    l = l1 ++ l2 /\ (prev, r0) :: l1 = l0 ++ [(i, r)] /\ seg tab p l1 q /\ seg tab q l2 None /\
    (0 <= time -> total l1 <= time) /\ match l2 with [] => True | x :: _ => time - total l1 < x.2 end.
Proof.
  revert fuel prev r0 p time. induction l as [|[j rj] l IH]; intros [|fuel] prev r0 p time Hs Hf Hp Ht;
    simpl in Hf; try lia.
  - simpl in Hs. subst p. exists [], [], [], prev, r0, None. simpl. split_and!; try done. by rewrite Z.sub_0_r.
  - simpl in Hs. destruct Hs as (-> & e & Ee & Er & Hs). cbn [sched_find]. rewrite Ee. cbn [mbind option_bind].
    rewrite Er. apply Forall_cons in Hp as [Hj Hp]. simpl in Hj.
    destruct (Z.leb_spec rj time).
    + rewrite i32_id by (unfold is_i32 in *; lia).
      destruct (IH fuel j rj (ev_next e) (time - rj)) as (l1 & l2 & l0 & i & r & q & E & -> & El & S1 & S2 & Hle & Hx);
        [done|lia|done|unfold is_i32 in *; lia|].
      exists ((j, rj) :: l1), l2, ((prev, r0) :: l0), i, r, q. rewrite total_cons. split_and!; try done.
      * rewrite E. do 2 f_equal. lia.
      * simpl. by rewrite El.
      * split; [done|]. by exists e.
      * intros. lia.
      * destruct l2; [done|]. lia.
    + exists [], ((j, rj) :: l), [], prev, r0, (Some j). simpl. change (total []) with 0. rewrite Z.sub_0_r.
      split_and!; try done; first [by exists e | simpl; lia].
Qed.

End lists.

(** ** Updates of the table *)

Lemma ev_upd_spec i f tab e : tab !! i = Some e -> ev_upd i f tab = Some (<[i := f e]> tab).
Proof. unfold ev_upd. by intros ->. Qed.

(** What an update of a link or of [remain] leaves alone. *)
Definition same_what (e e' : tcpEvent) : Prop :=
  ev_used e' = ev_used e /\ ev_time e' = ev_time e /\ ev_type e' = ev_type e /\ ev_tcb e' = ev_tcb e.

Definition relinked (tab tab' : events) : Prop :=
  length tab' = length tab /\
  forall i e, tab !! i = Some e -> exists e', tab' !! i = Some e' /\ same_what e e'.

Lemma relinked_insert tab i e e' : tab !! i = Some e -> same_what e e' -> relinked tab (<[i := e']> tab).
Proof.
  intros Ee Hs. split; [apply length_insert|]. intros j ej Ej. destruct (decide (i = j)) as [->|Hne].
  - exists e'. rewrite list_lookup_insert_eq by by eapply lookup_lt_Some. rewrite Ee in Ej. by injection Ej as <-.
  - exists ej. by rewrite list_lookup_insert_ne.
Qed.

Lemma relinked_trans tab1 tab2 tab3 : relinked tab1 tab2 -> relinked tab2 tab3 -> relinked tab1 tab3.
Proof.
  intros [L1 H1] [L2 H2]. split; [congruence|]. intros i e Ei. destruct (H1 i e Ei) as (e' & E' & S1).
  destruct (H2 i e' E') as (e'' & E'' & S2). exists e''. split; [done|]. unfold same_what in *. naive_solver congruence.
Qed.

(** The event after the new one counts from it. *)
Definition sooner (t : Z) (l : list (nat * Z)) : list (nat * Z) :=
  match l with [] => [] | (i, r) :: l => (i, r - t) :: l end.

Lemma due_sooner b t l : due (b + t) (sooner t l) = due b l.
Proof. destruct l as [|[i r] l]; [done|]. simpl. by replace (b + t + (r - t)) with (b + r) by lia. Qed.

Lemma seg_sooner tab q i r l e t : seg tab q ((i, r) :: l) None -> NoDup (i :: l.*1) -> tab !! i = Some e ->
  seg (<[i := set_ev_remain (r - t) e]> tab) q (sooner t ((i, r) :: l)) None.
Proof.
  intros (-> & e' & Ee' & Er & Hs) Hnd Ee. rewrite Ee in Ee'. injection Ee' as <-. apply NoDup_cons in Hnd as [Hn _].
  split; [done|]. exists (set_ev_remain (r - t) e). rewrite list_lookup_insert_eq by by eapply lookup_lt_Some.
  split_and!; [done..|]. eapply seg_frame; [|done]. intros j Hj. apply list_lookup_insert_ne. by intros ->.
Qed.

(** The links and times after an insertion between [A] and [l2], except for the
    [remain] of the event behind. *)
Lemma seg_put tab A l0 i r q l2 evt ev ei t : A = l0 ++ [(i, r)] -> seg tab (Some TCP_EVT_HEAD) A q -> seg tab q l2 None ->
  NoDup (A.*1 ++ l2.*1) -> evt ∉ A.*1 ++ l2.*1 -> tab !! evt = Some ev -> tab !! i = Some ei ->
  let tab3 := <[evt := set_ev_remain t (set_ev_next q ev)]> (<[i := set_ev_next (Some evt) ei]> (<[evt := set_ev_next q ev]> tab)) in
  seg tab3 (Some TCP_EVT_HEAD) (A ++ [(evt, t)]) q /\ seg tab3 q l2 None.
Proof.
  intros -> HA H2 Hnd Hev Eev Ei tab3. rewrite fmap_app in Hnd, Hev. cbn in Hnd, Hev.
  assert (Hne : i <> evt) by set_solver. assert (Hin : i ∉ l0.*1 /\ i ∉ l2.*1).
  { rewrite <- app_assoc in Hnd. apply NoDup_app in Hnd as (_ & Hd & Hnd'). apply NoDup_cons in Hnd' as [? _].
    split; [|done]. intros Hi. apply (Hd i Hi). set_solver. }
  split.
  - apply seg_app. exists (Some evt). split.
    + eapply seg_frame; [|eapply (seg_relink (<[evt := set_ev_next q ev]> tab) _ l0 i r q (Some evt) ei); [|apply Hin|]].
      * intros j Hj. rewrite fmap_app in Hj. apply list_lookup_insert_ne. intros <-. set_solver.
      * eapply seg_frame; [|done]. intros j Hj. rewrite fmap_app in Hj. apply list_lookup_insert_ne. intros <-. set_solver.
      * by rewrite list_lookup_insert_ne.
    + split; [done|]. eexists. unfold tab3. rewrite list_lookup_insert_eq; [done|].
      rewrite !length_insert. by eapply lookup_lt_Some.
  - eapply seg_frame; [|done]. intros j Hj. unfold tab3.
    rewrite !list_lookup_insert_ne; [done|set_solver..].
Qed.

(** The [remain] of the event behind the new one. *)
Lemma seg_tail tab B q l2 t : seg tab (Some TCP_EVT_HEAD) B q -> seg tab q l2 None -> NoDup (B.*1 ++ l2.*1) ->
  0 <= t -> match l2 with [] => True | x :: _ => t < x.2 < 2 ^ 31 end ->
  exists tab', match q with
    | None => Some tab
    | Some i => ev_upd i (fun e => set_ev_remain (i32 (ev_remain e - t)) e) tab
    end = Some tab' /\ relinked tab tab' /\ seg tab' (Some TCP_EVT_HEAD) (B ++ sooner t l2) None.
Proof.
  intros HB H2 Hnd Ht Hx. destruct l2 as [|[j rj] l2].
  - simpl in H2. subst q. exists tab. split_and!; [done| |by rewrite app_nil_r].
    split; [done|]. intros i e Ei. by exists e.
  - pose proof H2 as (-> & e & Ee & Er & _). simpl in Hx. rewrite (ev_upd_spec _ _ _ e Ee), Er.
    rewrite i32_id by (unfold is_i32; lia). eexists. split_and!; [done|by eapply relinked_insert|].
    apply NoDup_app in Hnd as (_ & Hd & Hnd). apply seg_app. exists (Some j). split; [|by apply seg_sooner].
    eapply seg_frame; [|done]. intros x Hx'. apply list_lookup_insert_ne. intros <-. apply (Hd j Hx'). left.
Qed.

(** An event [evt] that is not in the list goes into it with deadline [time]. *)
Lemma sched_insert_spec tab l evt time head : tab !! TCP_EVT_HEAD = Some head -> seg tab (ev_next head) l None ->
  NoDup (TCP_EVT_HEAD :: l.*1) -> Forall (fun x => 0 <= x.2) l -> Forall (fun x => x.2 < 2 ^ 31) l ->
  0 <= time < 2 ^ 31 ->
  evt ∉ TCP_EVT_HEAD :: l.*1 -> is_Some (tab !! evt) ->
  exists tab' l1 l2 head', l = l1 ++ l2 /\ sched_insert evt time tab = Some tab' /\ relinked tab tab' /\
    tab' !! TCP_EVT_HEAD = Some head' /\
    seg tab' (ev_next head') (l1 ++ (evt, time - total l1) :: sooner (time - total l1) l2) None /\
    total l1 <= time /\ match l2 with [] => True | x :: _ => time - total l1 < x.2 end.
Proof.
  intros Eh Hs Hnd Hp Hmax Ht Hev [ev Eev].
  destruct (sched_find_spec (list_fuel tab) tab TCP_EVT_HEAD (ev_remain head) (ev_next head) l time) as
    (l1 & l2 & l0 & i & r & q & E & -> & El & S1 & S2 & Hle & Hx); [done| |done|unfold is_i32; lia|].
  { unfold list_fuel. apply seg_len in Hs; [lia|]. by apply NoDup_cons in Hnd as [_ ?]. }
  specialize (Hle ltac:(lia)). set (t := time - total l1) in *. set (A := (TCP_EVT_HEAD, ev_remain head) :: l1) in *.
  assert (HA : seg tab (Some TCP_EVT_HEAD) A q) by (split; [done|by exists head]).
  assert (HndA : NoDup (A.*1 ++ l2.*1)) by (cbn; by rewrite <- fmap_app).
  assert (HevA : evt ∉ A.*1 ++ l2.*1) by (cbn; by rewrite <- fmap_app).
  assert (Hi : exists ei, tab !! i = Some ei).
  { rewrite El in HA. apply seg_app in HA as (m & _ & (_ & ei & Ei & _)). by exists ei. }
  destruct Hi as [ei Ei]. assert (Hiev : i <> evt).
  { intros ->. apply HevA. rewrite El, fmap_app. set_solver. }
  destruct (seg_put tab A l0 i r q l2 evt ev ei t El HA S2 HndA HevA Eev Ei) as [S3 S4].
  unfold sched_insert. rewrite Eh. cbn [mbind option_bind]. rewrite E. cbn [mbind option_bind].
  rewrite (ev_upd_spec evt _ _ ev Eev). cbn [mbind option_bind].
  rewrite (ev_upd_spec i _ _ ei) by by rewrite list_lookup_insert_ne. cbn [mbind option_bind].
  rewrite (ev_upd_spec evt _ _ (set_ev_next q ev)).
  2: { rewrite list_lookup_insert_ne by done. apply list_lookup_insert_eq. by eapply lookup_lt_Some. }
  cbn [mbind option_bind]. set (tab3 := <[evt := _]> _) in *.
  assert (Hrl : relinked tab tab3).
  { eapply relinked_trans; [by apply (relinked_insert _ evt ev (set_ev_next q ev))|].
    eapply relinked_trans; [apply (relinked_insert _ i ei (set_ev_next (Some evt) ei)); [by rewrite list_lookup_insert_ne|done]|].
    apply (relinked_insert _ evt (set_ev_next q ev)); [|done]. rewrite list_lookup_insert_ne by done.
    apply list_lookup_insert_eq. by eapply lookup_lt_Some. }
  destruct (seg_tail tab3 (A ++ [(evt, t)]) q l2 t S3 S4) as (tab' & -> & Hrl' & S').
  - rewrite fmap_app, <- app_assoc. cbn [fmap list_fmap app fst].
    apply NoDup_app in HndA as (N1 & N2 & N3). apply NoDup_app. split_and!; [done|set_solver|].
    apply NoDup_cons. split; [set_solver|done].
  - lia.
  - destruct l2 as [|x l2]; [done|]. split; [done|]. apply Forall_app in Hmax as [_ Hmax]. by apply Forall_cons in Hmax as [? _].
  - rewrite <- app_assoc in S'. destruct S' as (_ & head' & Eh' & _ & S').
    exists tab', l1, l2, head'. split_and!; [done|done|by eapply relinked_trans|done..].
Qed.

(** ** Theorems *)

(** The events of [l], in this order, are pending; each has the time it waits
    after the one before. *)
Record timers (tab : events) (l : list (nat * Z)) : Prop := {
  tm_head : exists head, tab !! TCP_EVT_HEAD = Some head /\ seg tab (ev_next head) l None;
  tm_nodup : NoDup (TCP_EVT_HEAD :: l.*1);
  tm_pos : Forall (fun x => 0 <= x.2) l;
  tm_max : Forall (fun x => x.2 < 2 ^ 31) l;
  tm_used : forall i, i ∈ l.*1 -> exists e, tab !! i = Some e /\ ev_used e = true;
}.

(** What [allocEvent] returns: a free event, or none. *)
Lemma allocEvent_loop_spec n ntcp nextevt tab : 0 < ntcp -> Z.of_nat (length tab) = 3 * ntcp + 1 ->
  exists nextevt', allocEvent_loop n ntcp nextevt tab = Some (tab, nextevt', None) \/
    exists i e, allocEvent_loop n ntcp nextevt tab = Some (<[i := set_ev_used true e]> tab, nextevt', Some i) /\
      i <> TCP_EVT_HEAD /\ tab !! i = Some e /\ ev_used e = false.
Proof.
  intros Hn Hlen. revert nextevt. induction n as [|n IH]; intros nextevt; [by exists nextevt; left|]. cbn [allocEvent_loop].
  pose proof (Z.mod_pos_bound (nextevt + 1) (3 * ntcp) ltac:(lia)) as Hb. set (k := (nextevt + 1) mod (3 * ntcp) + 1) in *.
  destruct (Z.eqb_spec (Z.of_nat TCP_EVT_HEAD) k) as [E|E]; [unfold TCP_EVT_HEAD in E; lia|].
  destruct (lookup_lt_is_Some_2 tab (Z.to_nat k)) as [e Ee]; [lia|]. rewrite Ee. cbn [mbind option_bind].
  destruct (ev_used e) eqn:Eu; [apply IH|]. exists k. right. exists (Z.to_nat k), e.
  rewrite (ev_upd_spec _ _ _ e Ee). cbn [mbind option_bind]. split_and!; [done| |done..]. unfold TCP_EVT_HEAD. lia.
Qed.

(** The table after [allocEvent] and the assignments to [time], [type] and
    [tcbptr] has the same list. *)
Lemma timers_fill tab l i e e' : timers tab l -> i <> TCP_EVT_HEAD -> i ∉ l.*1 -> tab !! i = Some e ->
  timers (<[i := e']> tab) l.
Proof.
  intros [(head & Eh & Hs) H2 H3 H4 H5] Hi Hl Ee. split; [|done..|].
  - exists head. rewrite list_lookup_insert_ne by done. split; [done|]. eapply seg_frame; [|done].
    intros j Hj. apply list_lookup_insert_ne. by intros ->.
  - intros j Hj. destruct (H5 j Hj) as (ej & Ej & Hu). exists ej. rewrite list_lookup_insert_ne; [done|]. by intros ->.
Qed.

Lemma due_sched l1 l2 evt time : due 0 (l1 ++ (evt, time - total l1) :: sooner (time - total l1) l2)
  = due 0 l1 ++ (evt, time) :: due (total l1) l2.
Proof.
  rewrite due_app. cbn [due]. rewrite Z.add_0_l. replace (total l1 + (time - total l1)) with time by lia.
  do 2 f_equal. replace time with (total l1 + (time - total l1)) at 1 by lia. apply due_sooner.
Qed.

Lemma sooner_fst t l : (sooner t l).*1 = l.*1.
Proof. by destruct l as [|[j r] l]. Qed.

Lemma sooner_range t l : 0 <= t -> Forall (fun x => 0 <= x.2) l -> Forall (fun x => x.2 < 2 ^ 31) l ->
  match l with [] => True | x :: _ => t < x.2 end ->
  Forall (fun x => 0 <= x.2) (sooner t l) /\ Forall (fun x => x.2 < 2 ^ 31) (sooner t l) /\
  Forall (fun x => t < x.2) (due 0 l).
Proof.
  intros Ht H1 H2 Hx. destruct l as [|[i r] l]; [done|]. apply Forall_cons in H1 as [P1 P2].
  apply Forall_cons in H2 as [M1 M2]. simpl in P1, M1, Hx. cbn [sooner due].
  rewrite !Forall_cons. split_and!; [simpl; lia|done|simpl; lia|done|simpl; lia|].
  eapply Forall_impl; [by apply due_le|]. simpl. intros x. lia.
Qed.

Lemma due_shift b c l : due (b + c) l = (fun x => (x.1, b + x.2)) <$> due c l.
Proof.
  revert c. induction l as [|[i r] l IH]; intros c; [done|]. cbn. rewrite <- Z.add_assoc, IH. done.
Qed.

Lemma timers_insert tab l evt time : timers tab l -> 0 <= time < 2 ^ 31 -> evt ∉ TCP_EVT_HEAD :: l.*1 ->
  (exists e, tab !! evt = Some e /\ ev_used e = true) ->
  exists tab' l' d1 d2, sched_insert evt time tab = Some tab' /\ relinked tab tab' /\ timers tab' l' /\
    due 0 l = d1 ++ d2 /\ due 0 l' = d1 ++ (evt, time) :: d2 /\
    Forall (fun x => x.2 <= time) d1 /\ Forall (fun x => time < x.2) d2.
Proof.
  intros [(head & Eh & Hs) H2 H3 H4 H5] Ht Hev (ev & Eev & Hu).
  destruct (sched_insert_spec tab l evt time head Eh Hs H2 H3 H4 Ht Hev) as
    (tab' & l1 & l2 & head' & -> & E & Hr & Eh' & Hs' & Hle & Hx); [by exists ev|].
  apply Forall_app in H3 as [P1 P2]. apply Forall_app in H4 as [M1 M2]. pose proof (total_nonneg _ P1).
  destruct (sooner_range (time - total l1) l2) as (R1 & R2 & R3); [lia|done..|].
  set (l' := l1 ++ _) in Hs'. exists tab', l', (due 0 l1), (due (total l1) l2). split_and!; [done..| |by apply due_app|by apply due_sched| |].
  - assert (Hin : forall i, i ∈ l'.*1 -> i = evt \/ i ∈ (l1 ++ l2).*1).
    { intros i. unfold l'. rewrite !fmap_app. cbn. rewrite !elem_of_app, elem_of_cons, sooner_fst. naive_solver. }
    split; [by exists head'| | | |].
    + unfold l'. rewrite fmap_app, fmap_cons, sooner_fst, app_comm_cons, <- Permutation_middle.
      rewrite <- app_comm_cons, <- fmap_app. by apply NoDup_cons.
    + apply Forall_app. split; [done|]. constructor; [simpl; lia|done].
    + apply Forall_app. split; [done|]. constructor; [simpl; lia|done].
    + intros i Hi. assert (exists e, tab !! i = Some e /\ ev_used e = true) as (e & Ee & Hue).
      { destruct (Hin i Hi) as [->|]; [by exists ev|by apply H5]. }
      destruct Hr as [_ Hr]. destruct (Hr i e Ee) as (e' & Ee' & Hs1 & _). exists e'. split; [done|]. congruence.
  - eapply Forall_impl; [by apply due_le|]. simpl. intros x. lia.
  - rewrite <- (Z.add_0_r (total l1)), due_shift, Forall_fmap. eapply Forall_impl; [done|]. simpl. intros x. lia.
Qed.

Lemma timers_free tab l i e : timers tab l -> tab !! i = Some e -> ev_used e = false -> i ∉ l.*1.
Proof. intros H Ee Hu Hi. destruct (tm_used _ _ H i Hi) as (e' & Ee' & Hu'). congruence. Qed.

(** C28: tcpTimerSched_deadlines. [tcpTimerSched] either finds no free event and
    changes nothing but [nextevt], or puts an event for the connection into the list: it
    expires after [time], behind all events that expire before or at that time and
    before those that expire later, and the times at which the others expire stay
    as they were. *)
Theorem tcpTimerSched_deadlines ntcp nextevt time c type tab l :
  0 < ntcp -> Z.of_nat (length tab) = 3 * ntcp + 1 -> timers tab l -> 0 <= time < 2 ^ 31 ->
  exists tab' nextevt' r, sched_event ntcp nextevt time c type tab = Some (tab', nextevt', r) /\
    (r = SYSERR /\ tab' = tab \/
     r = OK /\ exists evt e l' d1 d2, tab' !! evt = Some e /\ ev_used e = true /\ ev_tcb e = Some c /\
       ev_type e = u8 type /\ ev_time e = time /\ timers tab' l' /\
       due 0 l = d1 ++ d2 /\ due 0 l' = d1 ++ (evt, time) :: d2 /\
       Forall (fun x => x.2 <= time) d1 /\ Forall (fun x => time < x.2) d2).
Proof.
  intros Hn Hlen H Ht. unfold sched_event, allocEvent.
  destruct (allocEvent_loop_spec (Z.to_nat (3 * ntcp + 1)) ntcp nextevt tab Hn Hlen) as (n' & [->|(i & e & -> & Hi & Ee & Hu)]).
  - exists tab, n', SYSERR. split; [done|]. by left.
  - cbn [mbind option_bind]. pose proof (lookup_lt_Some _ _ _ Ee) as Hlt.
    rewrite (ev_upd_spec _ _ _ (set_ev_used true e)) by by apply list_lookup_insert_eq.
    cbn [mbind option_bind]. rewrite list_insert_insert_eq. set (e1 := set_ev_what _ _ _ _).
    pose proof (timers_free _ _ _ _ H Ee Hu) as Hnl.
    assert (E1 : <[i := e1]> tab !! i = Some e1) by by apply list_lookup_insert_eq.
    destruct (timers_insert (<[i := e1]> tab) l i time) as (tab' & l' & d1 & d2 & -> & Hr & H' & HH);
      [by eapply timers_fill|done|set_solver|by exists e1|].
    cbn [mbind option_bind]. exists tab', n', OK. split; [done|]. right. split; [done|].
    destruct Hr as [_ Hr]. destruct (Hr i e1 E1) as (e' & Ee' & S1 & S2 & S3 & S4).
    exists i, e', l', d1, d2. by rewrite S1, S2, S3, S4.
Qed.

(** ** Concrete tables *)

(** Two events for connection 0, after 100 and 150 milliseconds; the third is free. *)
Definition two_events : events :=
  [mktcpEvent true 0 0 0 None (Some 1%nat); mktcpEvent true 100 100 TCP_EVT_RXT (Some 0) (Some 2%nat);
   mktcpEvent true 150 50 TCP_EVT_PERSIST (Some 0) None; mktcpEvent false 0 0 0 None None].

Lemma two_timers : timers two_events [(1%nat, 100); (2%nat, 50)].
Proof.
  split.
  - eexists. split; [done|]. split; [done|]. eexists. split_and!; [done..|]. split; [done|]. by eexists.
  - apply (bool_decide_unpack _). reflexivity.
  - repeat (constructor; [simpl; lia|]); constructor.
  - repeat (constructor; [simpl; lia|]); constructor.
  - simpl. intros i Hi. set_unfold in Hi. destruct Hi as [->|[->|[]]]; eexists; (split; [done|done]).
Qed.

Lemma tcpTimerSched_deadlines_witness :
  exists tab' nextevt' r, sched_event 1 0 120 1 TCP_EVT_RXT two_events = Some (tab', nextevt', r) /\
    (r = SYSERR /\ tab' = two_events \/
     r = OK /\ exists evt e l' d1 d2, tab' !! evt = Some e /\ ev_used e = true /\ ev_tcb e = Some 1 /\
       ev_type e = u8 TCP_EVT_RXT /\ ev_time e = 120 /\ timers tab' l' /\
       due 0 [(1%nat, 100); (2%nat, 50)] = d1 ++ d2 /\ due 0 l' = d1 ++ (evt, 120) :: d2 /\
       Forall (fun x => x.2 <= 120) d1 /\ Forall (fun x => 120 < x.2) d2).
Proof.
  apply (tcpTimerSched_deadlines 1 0 120 1 TCP_EVT_RXT two_events [(1%nat, 100); (2%nat, 50)]);
    [lia|reflexivity|exact two_timers|lia].
Defined.

(** [tcpTimerPurge] of both events, which are neighbours: [prev] stays on the
    event just removed, so that the second one is marked free but still linked
    behind the head, ready to be allocated again while it is in the list. *)
Theorem tcpTimerPurge_keeps_neighbour : exists tab,
  purge_events 0 0 two_events = Some (tab, 0) /\
  (ev_next <$> tab !! TCP_EVT_HEAD) = Some (Some 2%nat) /\ (ev_used <$> tab !! 2%nat) = Some false.
Proof. eexists. split; [vm_compute; reflexivity|]. done. Qed.

(** With an even number of TCP devices [allocEvent] tries every second event only: it
    fails here with the events 1, 3 and 5 of six free. *)
Theorem allocEvent_misses_free :
  let e u := mktcpEvent u 0 0 0 None None in
  let tab := [e true; e false; e true; e false; e true; e false; e true] in
  allocEvent 2 0 tab = Some (tab, 2, None).
Proof. vm_compute. reflexivity. Qed.

(** With 10 clock ticks in a second the elapsed time is always 0: no event of
    TCP ever expires. *)
Theorem calcElapsed_zero ticks time lastticks lasttime : calcElapsed ticks time lastticks lasttime = 0.
Proof. unfold calcElapsed. change (CLKTICKS_PER_SEC / 1000) with 0. by rewrite Z.mul_0_r. Qed.
