(* ===== verification/Ipv4.v ===== *)
(** * IPv4 and ICMP (network/ipv4/ipv4Send.c, ipv4SendFrag.c, ipv4RecvValid.c,
      ipv4RecvDemux.c, network/icmp/icmpSend.c, icmpDestUnreach.c,
      icmpTimeExceeded.c, icmpRedirect.c, icmpEchoReply.c,
      network/route/rtSend.c)

    Packets are in memory, as in Net.v; the header fields are at their offsets.
    [garbage] and [gaddr] are what locals of the code hold before they are
    assigned. *)

From S2P Require Import Prelude Prog Queue Interrupt Memory Kernel Thread Clock Semaphore CString Sys BufPool NetAddr Net Route Arp.

Definition IPv4_IHL : Z := 0x0F.
Definition IPv4_VER : Z := 0xF0.
Definition IPv4_FLAGS : Z := 0xE000.
Definition IPv4_FROFF : Z := 0x1FFF.
Definition IPv4_TTL : Z := 64.
Definition IPv4_HDR_LEN : Z := 20.
Definition IPv4_MIN_IHL : Z := 5.
Definition IPv4_MAX_IHL : Z := 15.
Definition IPv4_VERSION : Z := 4.
Definition IPv4_PROTO_ICMP : Z := 1.
Definition IPv4_PROTO_TCP : Z := 6.
Definition IPv4_FLAG_MF : Z := 0x2000.
Definition IPv4_FLAG_DF : Z := 0x4000.
Definition IPv4_TOS_ROUTINE : Z := 0x0.

Definition ICMP_HEADER_LEN : Z := 4.
Definition ICMP_DEF_DATALEN : Z := 64.
Definition ICMP_ECHOREPLY : Z := 0.
Definition ICMP_UNREACH : Z := 3.
Definition ICMP_REDIRECT : Z := 5.
Definition ICMP_TIMEEXCD : Z := 11.
Definition ICMP_NET_UNR : Z := 0.
Definition ICMP_HST_UNR : Z := 1.
Definition ICMP_FOFF_DFSET : Z := 4.
Definition ICMP_RNET : Z := 0.
Definition ICMP_RHST : Z := 1.
Definition ICMP_TTL_EXC : Z := 0.

(** Offsets of [struct ipv4Pkt], [struct icmpPkt] and [struct icmpEcho] *)
Definition ip_ver_ihl (ip : Z) : Z := ip.
Definition ip_tos (ip : Z) : Z := ip + 1.
Definition ip_len (ip : Z) : Z := ip + 2.
Definition ip_id (ip : Z) : Z := ip + 4.
Definition ip_flags_froff (ip : Z) : Z := ip + 6.
Definition ip_ttl (ip : Z) : Z := ip + 8.
Definition ip_proto (ip : Z) : Z := ip + 9.
Definition ip_chksum (ip : Z) : Z := ip + 10.
Definition ip_src (ip : Z) : Z := ip + 12.
Definition ip_dst (ip : Z) : Z := ip + 16.
Definition ip_opts (ip : Z) : Z := ip + 20.
Definition icmp_type (icmp : Z) : Z := icmp.
Definition icmp_code (icmp : Z) : Z := icmp + 1.
Definition icmp_chksum (icmp : Z) : Z := icmp + 2.

Definition NETADDR_GLOBAL_ETH_BRC : netaddr :=
  mknetaddr NETADDR_ETHERNET ETH_ADDR_LEN (replicate 6 0xFF).

(** [netChksum] of [n] bytes in memory *)
Definition bytes_of (M : memory) (a n : Z) : cmem :=
  list_to_map (zip (seqZ a n) (ldbs M a (Z.to_nat n))).
Definition chksum_of (M : memory) (a n : Z) : option Z := netChksum (bytes_of M a n) a n.

Definition nchksum (a n : Z) : prog netst Z := readopt (fun s => chksum_of (mem (nkern s)) a n).

(** Stores and loads of fields *)
Definition st8 (a v : Z) : prog netst unit := nputs (fun M => stb M a v).
Definition st16 (a v : Z) : prog netst unit := nputs (fun M => sth M a v).
Definition ld8 (a : Z) : prog netst Z := ngets (fun M => ldb M a).
Definition ld16 (a : Z) : prog netst Z := ngets (fun M => ldh M a).
Definition memmove (dst src n : Z) : prog netst unit := nputs (fun M => copy_bytes M dst src (Z.to_nat n)).

Section ipv4.
Variable devwrite : Z -> Z -> Z -> prog netst Z.
Variable snoopCapture : Z -> Z -> prog netst Z.
Variable gaddr : netaddr.
Variable garbage : list Z.

(** ** ipv4SendFrag

    [unreach] stands for [icmpDestUnreach]. *)

(** The loop over the rest of the data.  A round sends at least 8 bytes when the
    MTU is 28 or more; with less the code does not end, here it faults. *)
Fixpoint frag_loop (fuel : nat) (pkt outpkt outip data dRem froff lastFlag : Z) (nxthop : netaddr) : prog netst unit :=
  match fuel with
  | O => Fault
  | S fuel =>
      if 0 <? dRem then
        netptr ← nload (pkt_nif pkt);
        nf ← nif netptr;
        let dLen := if u32 (nf_mtu nf + IPv4_HDR_LEN) <? Z.land (u32 (dRem + 7)) (Z.lnot 7)
                    then u16 (Z.land (nf_mtu nf - IPv4_HDR_LEN) (Z.lnot 7)) else u16 dRem in
        memmove (ip_opts outip) data dLen;;
        st16 (ip_flags_froff outip) (Z.land (if dLen =? dRem then lastFlag else IPv4_FLAG_MF) froff);;
        f ← ld16 (ip_flags_froff outip);
        st16 (ip_flags_froff outip) (hs2net f);;
        st16 (ip_len outip) (hs2net (IPv4_HDR_LEN + dLen));;
        st16 (ip_chksum outip) 0;;
        c ← nchksum outip IPv4_HDR_LEN;
        st16 (ip_chksum outip) c;;
        l ← ld16 (ip_len outip);
        nstore (pkt_len outpkt) (net2hs l);;
        netSend devwrite snoopCapture gaddr outpkt None (Some nxthop) ETHER_TYPE_IPv4;;
        frag_loop fuel pkt outpkt outip (data + dLen) (u32 (dRem - dLen)) (u16 (froff + dLen / 8)) lastFlag nxthop
      else mret tt
  end.

Definition ipv4SendFrag_with (unreach : Z -> Z -> prog netst Z) (pkt : Z) (nxthop : netaddr) : prog netst Z :=
  if pkt =? NULL then mret SYSERR
  else
    ip ← nload (pkt_curr pkt);
    len ← ld16 (ip_len ip);
    netptr ← nload (pkt_nif pkt);
    nf ← nif netptr;
    if net2hs len <=? nf_mtu nf then
      brc ← opt (netaddrequal (nf_ipbrc nf) nxthop);
      if (brc : bool)
      then netSend devwrite snoopCapture gaddr pkt (Some NETADDR_GLOBAL_ETH_BRC) (Some nxthop) ETHER_TYPE_IPv4
      else netSend devwrite snoopCapture gaddr pkt None (Some nxthop) ETHER_TYPE_IPv4
    else
      fl ← ld16 (ip_flags_froff ip);
      if negb (Z.land (net2hs fl) IPv4_FLAG_DF =? 0) then unreach pkt ICMP_FOFF_DFSET;; mret SYSERR
      else
        v ← ld8 (ip_ver_ihl ip);
        let ihl := Z.land v IPv4_IHL * 4 in
        let data := ip + ihl in
        let dRem := u32 (net2hs len - ihl) in
        let froff := Z.land (net2hs fl) IPv4_FROFF in
        let lastFlag := Z.land (net2hs fl) IPv4_FLAGS in
        let dLen := u16 (Z.land (nf_mtu nf - ihl) (Z.lnot 7)) in
        nstore (pkt_len pkt) (u32 (ihl + dLen));;
        st16 (ip_len ip) (hs2net (ihl + dLen));;
        st16 (ip_flags_froff ip) (Z.land IPv4_FLAG_MF froff);;
        f ← ld16 (ip_flags_froff ip);
        st16 (ip_flags_froff ip) (hs2net f);;
        st16 (ip_chksum ip) 0;;
        c ← nchksum ip ihl;
        st16 (ip_chksum ip) c;;
        netSend devwrite snoopCapture gaddr pkt None (Some nxthop) ETHER_TYPE_IPv4;;
        outpkt ← netGetbuf;
        if outpkt =? SYSERR then mret SYSERR
        else
          netptr ← nload (pkt_nif pkt);
          nf ← nif netptr;
          curr ← nload (pkt_curr outpkt);
          nstore (pkt_curr outpkt) (u32 (curr - nf_mtu nf));;
          outip ← nload (pkt_curr outpkt);
          nstore (pkt_nif outpkt) netptr;;
          memmove outip ip IPv4_HDR_LEN;;
          let dRem := u32 (dRem - dLen) in
          frag_loop (S (Z.to_nat dRem)) pkt outpkt outip (data + dLen) dRem (u16 (froff + dLen / 8)) lastFlag nxthop;;
          netFreebuf outpkt;;
          mret OK.

(** ** ipv4Send *)

(** The header in front of the payload at [pkt_curr pkt]. *)
Definition ipv4_header (pkt : Z) (src dst : netaddr) (proto : Z) : prog netst unit :=
  len ← nload (pkt_len pkt);
  nstore (pkt_len pkt) (u32 (len + IPv4_HDR_LEN));;
  curr ← nload (pkt_curr pkt);
  nstore (pkt_curr pkt) (u32 (curr - IPv4_HDR_LEN));;
  ip ← nload (pkt_curr pkt);
  st8 (ip_ver_ihl ip) (Z.shiftl IPv4_VERSION 4);;
  v ← ld8 (ip_ver_ihl ip);
  st8 (ip_ver_ihl ip) (v + IPv4_HDR_LEN / 4);;
  st8 (ip_tos ip) IPv4_TOS_ROUTINE;;
  len ← nload (pkt_len pkt);
  st16 (ip_len ip) (hs2net len);;
  st16 (ip_id ip) 0;;
  st16 (ip_flags_froff ip) 0;;
  st8 (ip_ttl ip) IPv4_TTL;;
  st8 (ip_proto ip) proto;;
  (if na_type src =? NULL then
     netptr ← nload (pkt_nif pkt);
     nf ← nif netptr;
     put_addr (ip_src ip) (nf_ip nf) IPv4_ADDR_LEN
   else put_addr (ip_src ip) src IPv4_ADDR_LEN);;
  put_addr (ip_dst ip) dst IPv4_ADDR_LEN;;
  st16 (ip_chksum ip) 0;;
  c ← nchksum ip IPv4_HDR_LEN;
  st16 (ip_chksum ip) c.

Definition ipv4Send_with (unreach : Z -> Z -> prog netst Z) (pkt : Z) (src : netaddr) (dst : option netaddr) (proto : Z)
  : prog netst Z :=
  match dst with
  | None => mret SYSERR
  | Some dst =>
      if pkt =? NULL then mret SYSERR
      else if negb (na_type dst =? NETADDR_IPv4) then mret SYSERR
      else
        rtptr ← rtLookup dst;
        match rtptr with
        | None => mret SYSERR
        | Some i =>
            e ← rt i;
            nstore (pkt_nif pkt) (rt_nif e);;
            let nxthop := if na_type (rt_gateway e) =? NULL then dst else rt_gateway e in
            ipv4_header pkt src dst proto;;
            ipv4SendFrag_with unreach pkt nxthop
        end
  end.

(** The header has no DF bit: fragmentation does not call [icmpDestUnreach]. *)
Definition ipv4Send : Z -> netaddr -> option netaddr -> Z -> prog netst Z := ipv4Send_with (fun _ _ => Fault).

(** ** ICMP *)

Definition icmpSend (pkt type code datalen : Z) (dst : option netaddr) : prog netst Z :=
  if pkt =? NULL then mret SYSERR
  else
    curr ← nload (pkt_curr pkt);
    nstore (pkt_curr pkt) (u32 (curr - ICMP_HEADER_LEN));;
    len ← nload (pkt_len pkt);
    nstore (pkt_len pkt) (u32 (len + ICMP_HEADER_LEN));;
    icmp ← nload (pkt_curr pkt);
    st8 (icmp_type icmp) type;;
    st8 (icmp_code icmp) code;;
    st16 (icmp_chksum icmp) 0;;
    c ← nchksum icmp (datalen + ICMP_HEADER_LEN);
    st16 (icmp_chksum icmp) c;;
    ipv4Send pkt (mknetaddr NULL (na_len gaddr) (na_addr gaddr)) dst IPv4_PROTO_ICMP.

(** The start of an error message about [bad]: a packet with its IP header and
    the first octets of its data, and the address of its source. *)
Definition icmp_quote (bad : Z) : prog netst (option (Z * netaddr)) :=
  pkt ← netGetbuf;
  if pkt =? SYSERR then mret None
  else
    ip ← nload (pkt_nethdr bad);
    dst ← get_addr garbage NETADDR_IPv4 IPv4_ADDR_LEN (ip_src ip);
    v ← ld8 (ip_ver_ihl ip);
    let ihl := Z.land v IPv4_IHL * 4 in
    nstore (pkt_len pkt) (ihl + ICMP_DEF_DATALEN);;
    curr ← nload (pkt_curr pkt);
    nstore (pkt_curr pkt) (u32 (curr - (ihl + ICMP_DEF_DATALEN)));;
    curr ← nload (pkt_curr pkt);
    memmove curr ip (ihl + ICMP_DEF_DATALEN);;
    nstore (pkt_curr pkt) (u32 (curr - 4));;
    nstore (pkt_len pkt) (ihl + ICMP_DEF_DATALEN + 4);;
    mret (Some (pkt, dst)).

(** The four octets in front of the quotation are [word]. *)
Definition icmp_error (bad type code : Z) (word : Z -> prog netst unit) : prog netst Z :=
  r ← icmp_quote bad;
  match r with
  | None => mret SYSERR
  | Some (pkt, dst) =>
      curr ← nload (pkt_curr pkt);
      word curr;;
      len ← nload (pkt_len pkt);
      result ← icmpSend pkt type code len (Some dst);
      netFreebuf pkt;;
      mret result
  end.

Definition icmpDestUnreach (unreached code : Z) : prog netst Z :=
  icmp_error unreached ICMP_UNREACH code (fun curr => nputs (fun M => stbs M curr [0; 0; 0; 0])).
Definition icmpTimeExceeded (unreached code : Z) : prog netst Z :=
  icmp_error unreached ICMP_TIMEEXCD code (fun curr => nputs (fun M => stbs M curr [0; 0; 0; 0])).
Definition icmpRedirect (redir code : Z) (route : nat) : prog netst Z :=
  icmp_error redir ICMP_REDIRECT code (fun curr => e ← rt route; put_addr curr (rt_gateway e) IPv4_ADDR_LEN).

Definition ipv4SendFrag : Z -> netaddr -> prog netst Z := ipv4SendFrag_with icmpDestUnreach.

Definition icmpEchoReply (pkt netptr : Z) : prog netst Z :=
  if pkt =? NULL then mret SYSERR
  else
    ip ← nload (pkt_nethdr pkt);
    icmp ← nload (pkt_curr pkt);
    st8 (icmp_type icmp) (hs2net ICMP_ECHOREPLY);;
    dst ← get_addr garbage NETADDR_IPv4 IPv4_ADDR_LEN (ip_src ip);
    nf ← nif netptr;
    ipv4Send pkt (nf_ip nf) (Some dst) IPv4_PROTO_ICMP;;
    mret OK.

(** ** rtSend: a packet for another host is forwarded *)

Definition rtSend (pkt : Z) : prog netst Z :=
  if pkt =? NULL then mret SYSERR
  else
    ip ← nload (pkt_nethdr pkt);
    dst ← get_addr garbage NETADDR_IPv4 IPv4_ADDR_LEN (ip_dst ip);
    route ← rtLookup dst;
    match route with
    | None => icmpDestUnreach pkt ICMP_NET_UNR;; mret SYSERR
    | Some i =>
        e ← rt i;
        netptr ← nload (pkt_nif pkt);
        (if rt_nif e =? netptr then
           if na_type (rt_gateway e) =? NULL then icmpRedirect pkt ICMP_RHST i else icmpRedirect pkt ICMP_RNET i
         else mret OK);;
        t ← ld8 (ip_ttl ip);
        st8 (ip_ttl ip) (t - 1);;
        t ← ld8 (ip_ttl ip);
        if t =? 0 then icmpTimeExceeded pkt ICMP_TTL_EXC;; mret SYSERR
        else
          st16 (ip_chksum ip) 0;;
          c ← nchksum ip IPv4_HDR_LEN;
          st16 (ip_chksum ip) c;;
          e ← rt i;
          nstore (pkt_nif pkt) (rt_nif e);;
          let nxthop := if na_type (rt_gateway e) =? NULL then dst else rt_gateway e in
          r ← ipv4SendFrag pkt nxthop;
          if r =? SYSERR then icmpDestUnreach pkt ICMP_HST_UNR;; mret SYSERR
          else mret OK
    end.

(** ** Receiving *)

Definition ipv4RecvValid (M : memory) (ip : Z) : option bool :=
  let ihl := Z.land (ldb M (ip_ver_ihl ip)) IPv4_IHL in
  c ← chksum_of M ip (4 * ihl);
  Some (if negb (c =? 0) then false
        else if negb (Z.shiftr (Z.land (ldb M (ip_ver_ihl ip)) IPv4_VER) 4 =? IPv4_VERSION) then false
        else if ldh M (ip_len ip) <? IPv4_MIN_IHL * 4 then false
        else if (ihl <? IPv4_MIN_IHL) || (IPv4_MAX_IHL <? ihl) then false
        else true).

(** The interfaces in the order of [netiftab]. *)
Fixpoint ipv4RecvDemux (ifs : list netif) (dst : netaddr) : option bool :=
  match ifs with
  | [] => Some false
  | nf :: ifs =>
      if decide (nf_state nf <> NET_ALLOC) then ipv4RecvDemux ifs dst
      else
        a ← netaddrequal dst (nf_ip nf);
        b ← (if (a : bool) then Some true else netaddrequal dst (nf_ipbrc nf));
        if (b : bool) then Some true else ipv4RecvDemux ifs dst
  end.

End ipv4.
