(* ===== verification/TcpConn.v ===== *)
(** * Connections of TCP: timers and sending (device/tcp/tcpTimerSched.c,
      tcpTimerPurge.c, tcpTimerRemain.c, tcpChksum.c, tcpSend.c, tcpSendAck.c,
      tcpSendSyn.c, tcpSendData.c, tcpSendRxt.c, tcpSendPersist.c, tcpSendRst.c,
      tcpFree.c)

    The state is that of the network with the connections, the timer events and the static
    variables of TCP.  A [struct tcb *] is an index of [tcptab].  The number
    [ntcp] of devices comes from the configuration. *)

From S2P Require Import Prelude Prog Queue Interrupt Memory Kernel Thread Clock Semaphore CString Sys BufPool NetAddr Net Route Arp Ipv4 Tcp TcpTimer.

Record tcpst : Type := mktcpst {
  tnet : netst;
  tcptab : gmap Z tcb;
  tcptimertab : events;
  tcpmutex : Z;
  nextevt : Z;
  nextseq : Z;
  nextport : Z;
}.

Definition set_tnet (v : netst) (s : tcpst) : tcpst :=
  mktcpst v (tcptab s) (tcptimertab s) (tcpmutex s) (nextevt s) (nextseq s) (nextport s).
Definition set_tcptab (v : gmap Z tcb) (s : tcpst) : tcpst :=
  mktcpst (tnet s) v (tcptimertab s) (tcpmutex s) (nextevt s) (nextseq s) (nextport s).
Definition set_timer (tab : events) (evt : Z) (s : tcpst) : tcpst :=
  mktcpst (tnet s) (tcptab s) tab (tcpmutex s) evt (nextseq s) (nextport s).
Definition set_tcpmutex (v : Z) (s : tcpst) : tcpst :=
  mktcpst (tnet s) (tcptab s) (tcptimertab s) v (nextevt s) (nextseq s) (nextport s).
Definition set_nextseq (v : Z) (s : tcpst) : tcpst :=
  mktcpst (tnet s) (tcptab s) (tcptimertab s) (tcpmutex s) (nextevt s) v (nextport s).
Definition set_nextport (v : Z) (s : tcpst) : tcpst :=
  mktcpst (tnet s) (tcptab s) (tcptimertab s) (tcpmutex s) (nextevt s) (nextseq s) v.

#[export] Instance tnet_part : Part tnet set_tnet.
Proof. split; [done| |done]. by intros []. Qed.

(** Calls of the network, and of the kernel. *)
Definition tcall {A} (p : prog netst A) : prog tcpst A := zoom tnet set_tnet p.
Definition tkcall {A} (p : prog kernel A) : prog tcpst A := tcall (ncall p).

(** [tcptab[c]] and assignments to its fields *)
Definition tb (c : Z) : prog tcpst tcb := readopt (fun s => tcptab s !! c).
Definition upd_tb (c : Z) (f : tcb -> tcb) : prog tcpst unit :=
  lift (fun s => t ← tcptab s !! c; Some (set_tcptab (<[c := f t]> (tcptab s)) s, tt)).

(** An update that reads memory, may fault and gives a result *)
Definition tb_with {A} (c : Z) (f : memory -> tcb -> option (tcb * A)) : prog tcpst A :=
  lift (fun s => t ← tcptab s !! c;
                 '(t', a) ← f (mem (nkern (tnet s))) t;
                 Some (set_tcptab (<[c := t']> (tcptab s)) s, a)).

(** [sndflg |= f], [sndflg &= ~f] *)
Definition raise_flg (c f : Z) : prog tcpst unit :=
  upd_tb c (fun t => set_sndflg (raise (sndflg (sndv t)) f) t).
Definition clear_flg (c f : Z) : prog tcpst unit :=
  upd_tb c (fun t => set_sndflg (clear (sndflg (sndv t)) f) t).

(** ** Timer events *)

Section timers.
Variable ntcp : Z.

Definition tcpTimerSched (time : Z) (c : option Z) (type : Z) : prog tcpst Z :=
  match c with
  | None => mret SYSERR
  | Some c =>
      if time <? 0 then mret SYSERR
      else
        m ← gets tcpmutex;
        tkcall (wait m);;
        r ← lift (fun s => '(tab, evt, r) ← sched_event ntcp (nextevt s) time c type (tcptimertab s);
                           Some (set_timer tab evt s, r));
        m ← gets tcpmutex;
        tkcall (signal m);;
        mret r
  end.

End timers.

(** [type] 0 stands for all types. *)
Definition tcpTimerPurge (c type : Z) : prog tcpst Z :=
  m ← gets tcpmutex;
  tkcall (wait m);;
  r ← lift (fun s => '(tab, r) ← purge_events c type (tcptimertab s); Some (set_timer tab (nextevt s) s, r));
  m ← gets tcpmutex;
  tkcall (signal m);;
  mret r.

Definition tcpTimerRemain (c type : Z) : prog tcpst Z :=
  m ← gets tcpmutex;
  tkcall (wait m);;
  r ← readopt (fun s => remain_of c type (tcptimertab s));
  m ← gets tcpmutex;
  tkcall (signal m);;
  mret r.

(** ** Segments in memory: offsets of [struct tcpPkt] and [struct tcpPseudo] *)

Definition tcp_srcpt (tcp : Z) : Z := tcp.
Definition tcp_dstpt (tcp : Z) : Z := tcp + 2.
Definition tcp_seqnum (tcp : Z) : Z := tcp + 4.
Definition tcp_acknum (tcp : Z) : Z := tcp + 8.
Definition tcp_offset (tcp : Z) : Z := tcp + 12.
Definition tcp_control (tcp : Z) : Z := tcp + 13.
Definition tcp_window (tcp : Z) : Z := tcp + 14.
Definition tcp_chksum (tcp : Z) : Z := tcp + 16.
Definition tcp_urgent (tcp : Z) : Z := tcp + 18.
Definition tcp_data (tcp : Z) : Z := tcp + 20.
Definition TCP_PSEUDO_LEN : Z := 12.

(** An [uint], and the conversion of its byte order *)
Definition ldw (M : memory) (a : Z) : Z := ldh M a + 65536 * ldh M (a + 2).
Definition stw (M : memory) (a v : Z) : memory := sth (sth M a v) (a + 2) (Z.shiftr v 16).
Definition ld32 (a : Z) : prog netst Z := ngets (fun M => ldw M a).
Definition st32 (a v : Z) : prog netst unit := nputs (fun M => stw M a v).
Definition hl2net (x : Z) : Z :=
  Z.lor (Z.lor (Z.lor (u32 (Z.shiftl (Z.land x 0xff) 24)) (Z.land (Z.shiftr x 24) 0xff))
               (Z.shiftr (Z.land x 0xff0000) 8)) (Z.shiftl (Z.land x 0xff00) 8).
Definition net2hl : Z -> Z := hl2net.

Definition load_tcp (M : memory) (tcp : Z) : tcpPkt :=
  mktcpPkt (ldh M (tcp_srcpt tcp)) (ldh M (tcp_dstpt tcp)) (ldw M (tcp_seqnum tcp)) (ldw M (tcp_acknum tcp))
    (ldb M (tcp_offset tcp)) (ldb M (tcp_control tcp)) (ldh M (tcp_window tcp)) (ldh M (tcp_chksum tcp))
    (ldh M (tcp_urgent tcp)).

Definition tcphdr (tcp : Z) : prog tcpst tcpPkt := tcall (ngets (fun M => load_tcp M tcp)).

(** The octets in front of the header are overwritten by the pseudo header and
    restored. *)
Definition tcpChksum (pkt len : Z) (src dst : netaddr) : prog netst Z :=
  curr ← nload (pkt_curr pkt);
  let pseu := curr - TCP_PSEUDO_LEN in
  buf ← ngets (fun M => ldbs M pseu (Z.to_nat TCP_PSEUDO_LEN));
  put_addr pseu src IPv4_ADDR_LEN;;
  put_addr (pseu + 4) dst IPv4_ADDR_LEN;;
  st8 (pseu + 8) 0;;
  st8 (pseu + 9) IPv4_PROTO_TCP;;
  st16 (pseu + 10) (hs2net len);;
  sum ← nchksum pseu (len + TCP_PSEUDO_LEN);
  nputs (fun M => stbs M pseu buf);;
  mret sum.

(** ** Sending *)

Section conn.
Variable ntcp : Z.
Variable devwrite : Z -> Z -> Z -> prog netst Z.
Variable snoopCapture : Z -> Z -> prog netst Z.
Variable gaddr : netaddr.

(** [n] octets of the send buffer, from [start + i] on, go to [data]. *)
Fixpoint copy_out (n : nat) (out : list Z) (data start i : Z) (M : memory) : option memory :=
  match n with
  | O => Some M
  | S n =>
      x ← out !! Z.to_nat (u32 (start + i) mod TCP_OBLEN);
      copy_out n out (data + 1) start (i + 1) (stb M data x)
  end.

(** [tcp->f = conv(tcp->f)] for the fields of the header that have a byte order *)
Definition swap_header (conv16 conv32 : Z -> Z) (tcp : Z) : prog netst unit :=
  let swap16 a := v ← ld16 a; st16 a (conv16 v) in
  let swap32 a := v ← ld32 a; st32 a (conv32 v) in
  swap16 (tcp_srcpt tcp);; swap16 (tcp_dstpt tcp);; swap32 (tcp_seqnum tcp);; swap32 (tcp_acknum tcp);;
  swap16 (tcp_window tcp);; swap16 (tcp_urgent tcp).

Definition tcpSend (c ctrl seqnum acknum datastart datalen : Z) : prog tcpst Z :=
  let ctrl := u8 ctrl in
  let datalen := u16 datalen in
  let '(datalen, msslen) :=
    if has ctrl TCP_CTRL_SYN then (u16 (datalen - 1), Z.land (3 + TCP_OPT_MSS_SIZE) (Z.lnot 0x03)) else (datalen, 0) in
  let datalen := if has ctrl TCP_CTRL_FIN then u16 (datalen - 1) else datalen in
  let tcplen := u16 (TCP_HDR_LEN + datalen + msslen) in
  if NET_MAX_PKTLEN <? tcplen then mret SYSERR
  else
    pkt ← tcall netGetbuf;
    if pkt =? SYSERR then mret SYSERR
    else
      curr ← tcall (nload (pkt_curr pkt));
      tcall (nstore (pkt_curr pkt) (u32 (curr - Z.land (tcplen + 0x7) (Z.lnot 0x7))));;
      tcall (nstore (pkt_len pkt) tcplen);;
      tcp ← tcall (nload (pkt_curr pkt));
      t ← tb c;
      tcall (st16 (tcp_srcpt tcp) (tc_localpt (conn t)));;
      tcall (st16 (tcp_dstpt tcp) (tc_remotept (conn t)));;
      tcall (st32 (tcp_seqnum tcp) seqnum);;
      tcall (st32 (tcp_acknum tcp) acknum);;
      tcall (st8 (tcp_offset tcp) (octets2offset (TCP_HDR_LEN + msslen)));;
      tcall (st8 (tcp_control tcp) ctrl);;
      window ← tb_with c (fun _ t => Some (tcpSendWindow t));
      tcall (st16 (tcp_window tcp) window);;
      let data := tcp_data tcp in
      data ← (if negb (msslen =? 0) then
                tcall (st8 data TCP_OPT_MSS);;
                tcall (st8 (data + 1) TCP_OPT_MSS_LEN);;
                tcall (st16 (data + 2) (hs2net (rcvmss (rcv t) + TCP_HDR_LEN)));;
                tcall (st8 (data + 2 + TCP_OPT_MSS_LEN) TCP_OPT_END);;
                mret (data + 2 + TCP_OPT_MSS_LEN + 1)
              else mret data);
      tcall (lift (fun n => M ← copy_out (Z.to_nat datalen) (obuf (outb t)) data datastart 0 (mem (nkern n));
                            Some (set_nkern (set_mem M (nkern n)) n, tt)));;
      tcall (swap_header hs2net hl2net tcp);;
      sum ← tcall (tcpChksum pkt tcplen (tc_localip (conn t)) (tc_remoteip (conn t)));
      tcall (st16 (tcp_chksum tcp) sum);;
      result ← tcall (ipv4Send devwrite snoopCapture gaddr pkt (tc_localip (conn t)) (Some (tc_remoteip (conn t))) IPv4_PROTO_TCP);
      r ← tcall (netFreebuf pkt);
      if r =? SYSERR then mret SYSERR else mret result.

Definition tcpSendAck (c : Z) : prog tcpst Z :=
  clear_flg c TCP_FLG_SNDACK;;
  t ← tb c;
  tcpSend c TCP_CTRL_ACK (sndnxt (sndv t)) (rcvnxt (rcv t)) 0 0.

Definition tcpSendSyn (c : Z) : prog tcpst Z :=
  t ← tb c;
  control ← (if has (sndflg (sndv t)) TCP_FLG_SNDACK then
               clear_flg c TCP_FLG_SNDACK;; mret (Z.lor TCP_CTRL_SYN TCP_CTRL_ACK)
             else mret TCP_CTRL_SYN);
  t ← tb c;
  r ← tcpSend c control (sndnxt (sndv t)) (rcvnxt (rcv t)) NULL 1;
  if r =? SYSERR then mret SYSERR
  else
    upd_tb c (fun t => set_sndnxt (u32 (sndnxt (sndv t) + 1)) t);;
    raise_flg c TCP_FLG_SYN;;
    t ← tb c;
    r ← tcpTimerSched ntcp (rxttime (sndv t)) (Some c) TCP_EVT_RXT;
    if r =? SYSERR then mret SYSERR else mret OK.

(** [if (tcpTimerRemain(...) <= 0) tcpTimerSched(...)] for retransmissions *)
Definition ensure_rxt (c : Z) : prog tcpst unit :=
  r ← tcpTimerRemain c TCP_EVT_RXT;
  if r <=? 0 then t ← tb c; tcpTimerSched ntcp (rxttime (sndv t)) (Some c) TCP_EVT_RXT;; mret tt
  else mret tt.

(** [while (tosend > tcbptr->sndmss)]: what is left to send, sent, and the window
    used.  Each round takes [sndmss], which is not 0, from [tosend]. *)
Fixpoint senddata_loop (fuel : nat) (c tosend sent wndused : Z) : prog tcpst (Z * Z * Z) :=
  match fuel with
  | O => Fault
  | S fuel =>
      t ← tb c;
      if sndmss (sndv t) <? tosend then
        tcpSend c TCP_CTRL_ACK (sndnxt (sndv t)) (rcvnxt (rcv t)) (u32 (ostart (outb t) + wndused) mod TCP_OBLEN)
          (sndmss (sndv t));;
        t ← tb c;
        let mss := sndmss (sndv t) in
        upd_tb c (fun t => set_sndnxt (seqadd (sndnxt (sndv t)) mss) t);;
        senddata_loop fuel c (u32 (tosend - mss)) (u32 (sent + mss)) (u32 (wndused + mss))
      else mret (tosend, sent, wndused)
  end.

Definition tcpSendData (c : Z) : prog tcpst Z :=
  t ← tb c;
  if sndmss (sndv t) =? 0 then mret SYSERR
  else if has (sndflg (sndv t)) TCP_FLG_FIN && seqlt (sndfin (sndv t)) (sndnxt (sndv t)) then mret SYSERR
  else if (0 <? rxtcount (sndv t)) || has (sndflg (sndv t)) TCP_FLG_PERSIST then mret 0
  else if sndwnd (sndv t) =? 0 then
    raise_flg c TCP_FLG_PERSIST;;
    upd_tb c (set_psttime TCP_PST_INITTIME);;
    tcpTimerSched ntcp TCP_PST_INITTIME (Some c) TCP_EVT_PERSIST;;
    mret 0
  else if seqlte (seqadd (snduna (sndv t)) (sndwnd (sndv t))) (sndnxt (sndv t)) then mret 0
  else
    let pending := if has (sndflg (sndv t)) TCP_FLG_FIN then u32 (ocount (outb t) + 1) else ocount (outb t) in
    let wndused := tcpSeqdiff (sndnxt (sndv t)) (snduna (sndv t)) in
    if pending =? wndused then
      (if seqlt (snduna (sndv t)) (sndnxt (sndv t)) then ensure_rxt c else mret tt);;
      mret 0
    else
      let '(tosend, ctrl) :=
        if sndwnd (sndv t) <? pending then (u32 (sndwnd (sndv t) - wndused), TCP_CTRL_ACK)
        else (u32 (pending - wndused),
              if has (sndflg (sndv t)) TCP_FLG_FIN then Z.lor TCP_CTRL_ACK TCP_CTRL_FIN else TCP_CTRL_ACK) in
      '(tosend, sent, wndused) ← senddata_loop (S (Z.to_nat tosend)) c tosend 0 wndused;
      t ← tb c;
      tcpSend c ctrl (sndnxt (sndv t)) (rcvnxt (rcv t)) (u32 (ostart (outb t) + wndused) mod TCP_OBLEN) tosend;;
      let sent := u32 (sent + tosend) in
      upd_tb c (fun t => set_sndnxt (seqadd (sndnxt (sndv t)) tosend) t);;
      ensure_rxt c;;
      (if 0 <? sent then clear_flg c TCP_FLG_SNDACK else mret tt);;
      clear_flg c TCP_FLG_SNDDATA;;
      mret sent.

(** ** tcpFree *)

(** A block after [bzero] *)
Definition tcb0 : tcb :=
  mktcb (mktcbconn 0 TCP_CLOSED 0 0 0 0 netaddr0 netaddr0 0 0) (mktcbrcv 0 0 0 0 0)
    (mktcbin 0 0 0 0 (replicate (Z.to_nat TCP_IBLEN) 0) (replicate (Z.to_nat TCP_IBLEN) false) 0)
    (mktcbsnd 0 0 0 0 0 0 0 0 0 0 0 0 0 0 0 0)
    (mktcbout 0 0 0 (replicate (Z.to_nat TCP_OBLEN) 0) 0).

Definition tcpFree (c : Z) : prog tcpst Z :=
  t ← tb c;
  if decide (tc_state (conn t) = TCP_CLOSED) then tkcall (signal (tc_mutex (conn t)));; mret SYSERR
  else
    im ← tkcall k_disable;
    let temp := tc_mutex (conn t) in
    tkcall (semfree (tc_openclose (conn t)));;
    t ← tb c;
    tkcall (semfree (readers (inb t)));;
    t ← tb c;
    tkcall (semfree (writers (outb t)));;
    tcpTimerPurge c 0;;
    upd_tb c (fun _ => tcb0);;
    upd_tb c (set_tc_state TCP_CLOSED);;
    upd_tb c (set_tc_devstate TCP_FREE);;
    upd_tb c (set_tc_mutex temp);;
    tkcall (k_restore im);;
    t ← tb c;
    tkcall (signal (tc_mutex (conn t)));;
    mret OK.

(** ** Retransmission and probes, called by the timer *)

(** The congestion window after a retransmission; [first] tells whether it was
    the first one. *)
Definition shrink_window (first : bool) (t : tcb) : tcb :=
  let t := if first then set_sndsst (sndcwn (sndv t)) t else t in
  let t := if sndwnd (sndv t) <? sndsst (sndv t) then set_sndsst (Z.shiftr (sndwnd (sndv t)) 1) t
           else set_sndsst (Z.shiftr (sndsst (sndv t)) 1) t in
  let t := if sndsst (sndv t) <? sndmss (sndv t) then set_sndsst (sndmss (sndv t)) t else t in
  set_sndcwn (sndmss (sndv t)) t.

Definition tcpSendRxt (c : Z) : prog tcpst Z :=
  t ← tb c;
  tkcall (wait (tc_mutex (conn t)));;
  t ← tb c;
  if negb (seqlt (snduna (sndv t)) (sndnxt (sndv t))) || has (sndflg (sndv t)) TCP_FLG_PERSIST then
    tkcall (signal (tc_mutex (conn t)));; mret SYSERR
  else
    let first := rxtcount (sndv t) =? 0 in
    upd_tb c (fun t => set_rxtcount (u32 (rxtcount (sndv t) + 1)) t);;
    t ← tb c;
    if TCP_RXT_MAXCOUNT <? rxtcount (sndv t) then tcpFree c;; mret 0
    else
      let time := i32 (Z.shiftl (rxttime (sndv t)) (rxtcount (sndv t))) in
      let time := if TCP_RXT_MAXTIME <? time then TCP_RXT_MAXTIME else time in
      tcpTimerSched ntcp time (Some c) TCP_EVT_RXT;;
      t ← tb c;
      if has (sndflg (sndv t)) TCP_FLG_SYN && (snduna (sndv t) =? iss (sndv t)) then
        let control := if has (rcvflg (rcv t)) TCP_FLG_SYN then Z.lor TCP_CTRL_SYN TCP_CTRL_ACK else TCP_CTRL_SYN in
        tcpSend c control (snduna (sndv t)) (rcvnxt (rcv t)) 0 1;;
        t ← tb c;
        tkcall (signal (tc_mutex (conn t)));;
        mret 1
      else
        let pending := tcpSeqdiff (sndnxt (sndv t)) (snduna (sndv t)) in
        let control :=
          if has (sndflg (sndv t)) TCP_FLG_FIN && seqlte (snduna (sndv t)) (sndfin (sndv t))
             && seqlt (sndfin (sndv t)) (sndnxt (sndv t))
          then Z.lor TCP_CTRL_ACK TCP_CTRL_FIN else TCP_CTRL_ACK in
        let '(tosend, control) :=
          if sndmss (sndv t) <? pending then (sndmss (sndv t), clear control TCP_CTRL_FIN) else (pending, control) in
        tcpSend c control (snduna (sndv t)) (rcvnxt (rcv t)) (ostart (outb t)) tosend;;
        upd_tb c (shrink_window first);;
        t ← tb c;
        tkcall (signal (tc_mutex (conn t)));;
        mret tosend.

Definition tcpSendPersist (c : Z) : prog tcpst Z :=
  t ← tb c;
  tkcall (wait (tc_mutex (conn t)));;
  t ← tb c;
  if ocount (outb t) <=? 0 then
    clear_flg c TCP_FLG_PERSIST;;
    tkcall (signal (tc_mutex (conn t)));;
    mret SYSERR
  else
    upd_tb c (fun t => set_psttime (i32 (Z.shiftl (psttime (sndv t)) 1)) t);;
    upd_tb c (fun t => if TCP_PST_MAXTIME <? psttime (sndv t) then set_psttime TCP_PST_MAXTIME t else t);;
    t ← tb c;
    tcpTimerSched ntcp (psttime (sndv t)) (Some c) TCP_EVT_PERSIST;;
    t ← tb c;
    let tosend := if sndmss (sndv t) <? ocount (outb t) then sndmss (sndv t) else ocount (outb t) in
    tcpSend c TCP_CTRL_ACK (snduna (sndv t)) (rcvnxt (rcv t)) (ostart (outb t)) tosend;;
    t ← tb c;
    tkcall (signal (tc_mutex (conn t)));;
    mret tosend.

(** The timer thread calls this for an event that has expired. *)
Definition tcpTimerTrigger (type c : Z) : prog tcpst unit :=
  if type =? TCP_EVT_TIMEWT then
    t ← tb c; tkcall (wait (tc_mutex (conn t)));; tcpFree c;; mret tt
  else if type =? TCP_EVT_RXT then tcpSendRxt c;; mret tt
  else if type =? TCP_EVT_PERSIST then tcpSendPersist c;; mret tt
  else mret tt.

(** ** tcpSendRst *)

Definition tcpSendRst (pkt : Z) (src dst : netaddr) : prog netst Z :=
  tcp ← nload (pkt_curr pkt);
  len ← nload (pkt_len pkt);
  linkhdr ← nload (pkt_linkhdr pkt);
  let tcplen := u16 (len - (tcp - linkhdr)) in
  h ← ngets (fun M => load_tcp M tcp);
  if has (th_control h) TCP_CTRL_RST then mret OK
  else
    out ← netGetbuf;
    if out =? SYSERR then mret SYSERR
    else
      curr ← nload (pkt_curr out);
      nstore (pkt_curr out) (u32 (curr - TCP_HDR_LEN));;
      len ← nload (pkt_len out);
      nstore (pkt_len out) (u32 (len + TCP_HDR_LEN));;
      outtcp ← nload (pkt_curr out);
      st16 (tcp_srcpt outtcp) (th_dstpt h);;
      st16 (tcp_dstpt outtcp) (th_srcpt h);;
      st8 (tcp_offset outtcp) (octets2offset TCP_HDR_LEN);;
      (if has (th_control h) TCP_CTRL_ACK then
         st8 (tcp_control outtcp) TCP_CTRL_RST;; st32 (tcp_seqnum outtcp) (th_acknum h)
       else
         st32 (tcp_seqnum outtcp) 0;; st8 (tcp_control outtcp) (Z.lor TCP_CTRL_RST TCP_CTRL_ACK));;
      let datalen := tcpSeglen h tcplen in
      let datalen := if has (th_control h) TCP_CTRL_SYN then u16 (datalen + 1) else datalen in
      let datalen := if has (th_control h) TCP_CTRL_FIN then u16 (datalen + 1) else datalen in
      st32 (tcp_acknum outtcp) (u32 (th_seqnum h + datalen));;
      swap_header hs2net hl2net outtcp;;
      sum ← tcpChksum out TCP_HDR_LEN src dst;
      st16 (tcp_chksum outtcp) sum;;
      result ← ipv4Send devwrite snoopCapture gaddr out src (Some dst) IPv4_PROTO_TCP;
      r ← netFreebuf out;
      if r =? SYSERR then mret SYSERR else mret result.

End conn.
