(* ===== verification/TcpRecv.v ===== *)
(** * Connections of TCP: receiving (device/tcp/tcpDemux.c, tcpRecv.c,
      tcpRecvOpts.c, tcpRecvRtt.c, tcpRecvAck.c, tcpRecvData.c, tcpRecvListen.c,
      tcpRecvSynsent.c, tcpRecvOther.c) *)

From S2P Require Import Prelude Prog Queue Interrupt Memory Kernel Thread Clock Semaphore CString Sys BufPool NetAddr Net Route Arp Ipv4 Tcp TcpTimer TcpConn.

(** ** tcpDemux

    The connection matched so far and the level of the match. *)
Fixpoint tcpDemux_loop (n : nat) (i : Z) (dstpt srcpt : Z) (dstip srcip : netaddr) (best : option Z) (level : Z)
  : prog tcpst (option Z) :=
  match n with
  | O => mret best
  | S n =>
      t ← tb i;
      tkcall (wait (tc_mutex (conn t)));;
      t ← tb i;
      '(best, level) ←
        (if decide (tc_state (conn t) = TCP_CLOSED) then mret (best, level)
         else
           let k := conn t in
           '(best, level) ←
             (if (level <? 3) && (tc_localpt k =? dstpt) && (tc_remotept k =? srcpt) then
                a ← opt (netaddrequal (tc_localip k) dstip);
                b ← (if (a : bool) then opt (netaddrequal (tc_remoteip k) srcip) else mret false);
                mret (if (b : bool) then (Some i, 3) else (best, level))
              else mret (best, level));
           '(best, level) ←
             (if (level <? 2) && (tc_localpt k =? dstpt) && (tc_remotept k =? srcpt) then
                a ← opt (netaddrequal (tc_localip k) dstip);
                mret (if (a : bool) && (na_type (tc_remoteip k) =? NULL) then (Some i, 2) else (best, level))
              else mret (best, level));
           if (level <? 1) && (tc_localpt k =? dstpt) && (tc_remotept k =? NULL) then
             a ← opt (netaddrequal (tc_localip k) dstip);
             mret (if (a : bool) && (na_type (tc_remoteip k) =? NULL) then (Some i, 1) else (best, level))
           else mret (best, level));
      tkcall (signal (tc_mutex (conn t)));;
      tcpDemux_loop n (i + 1) dstpt srcpt dstip srcip best level
  end.

(** ** tcpRecvOpts *)

(** The options from [options] to [endopt]; the maximum segment size.  Each
    round goes forward by one octet at least. *)
Fixpoint opts_loop (fuel : nat) (M : memory) (options endopt mss : Z) : option Z :=
  match fuel with
  | O => None
  | S fuel =>
      if negb (ldb M options =? TCP_OPT_END) && (options <? endopt) then
        if ldb M options =? TCP_OPT_MSS then
          let mss := ldb M (options + 2) in
          let mss := u16 (mss + Z.shiftl (ldb M (options + 3)) 8) in
          opts_loop fuel M (options + 4) endopt (u16 (mss - TCP_HDR_LEN))
        else opts_loop fuel M (options + 1) endopt mss
      else Some mss
  end.

Definition tcpRecvOpts (pkt c : Z) : prog tcpst Z :=
  tcp ← tcall (nload (pkt_curr pkt));
  h ← tcphdr tcp;
  let hlen := offset2octets (th_offset h) in
  if hlen =? TCP_HDR_LEN then mret OK
  else
    let options := tcp_data tcp in
    let endopt := options + (hlen - TCP_HDR_LEN) in
    tb_with c (fun M t => mss ← opts_loop (S (Z.to_nat hlen)) M options endopt (sndmss (sndv t));
                          Some (set_sndmss mss t, tt));;
    mret OK.

(** ** tcpRecvRtt *)

(** The round trip time and its deviation, from a sample [rtt]. *)
Definition estimate (rtt : Z) (t : tcb) : tcb :=
  let t := if sndrtt (sndv t) =? 0 then set_sndrtt (i32 (Z.shiftl rtt 3)) t else t in
  let delta := i32 (rtt - Z.shiftr (sndrtt (sndv t)) 3) in
  let t := set_sndrtt (i32 (sndrtt (sndv t) + delta)) t in
  let delta := abs delta in
  let t := set_sndrtd (i32 (sndrtd (sndv t) + (delta - Z.shiftr (sndrtd (sndv t)) 2))) t in
  let t := set_rxttime (Z.shiftr (i32 (Z.shiftr (sndrtt (sndv t)) 2 + sndrtd (sndv t))) 1) t in
  if rxttime (sndv t) <? TCP_RXT_MINTIME then set_rxttime TCP_RXT_MINTIME t else t.

(** Slow start and congestion avoidance; a division by zero faults. *)
Definition grow_window (t : tcb) : option tcb :=
  let cwn := sndcwn (sndv t) in
  let mss := sndmss (sndv t) in
  if cwn <? sndsst (sndv t) then Some (set_sndcwn (u32 (cwn + mss)) t)
  else if cwn =? 0 then None
  else Some (set_sndcwn (u32 (cwn + u32 (mss * mss) / cwn)) t).

Definition tcpRecvRtt (c : Z) : prog tcpst Z :=
  rtt ← tcpTimerPurge c TCP_EVT_RXT;
  t ← tb c;
  (if negb (rtt =? SYSERR) && (rxtcount (sndv t) =? 0) then upd_tb c (estimate rtt) else mret tt);;
  tb_with c (fun _ t => t' ← grow_window t; Some (t', tt));;
  mret OK.

Section recv.
Variable ntcp : Z.
Variable devwrite : Z -> Z -> Z -> prog netst Z.
Variable snoopCapture : Z -> Z -> prog netst Z.
Variable gaddr : netaddr.

(** ** tcpRecvAck *)

(** The octets of data that an acknowledgement covers, without SYN and FIN *)
Definition acked (acknum : Z) (t : tcb) : Z :=
  let amt := tcpSeqdiff acknum (snduna (sndv t)) in
  let amt := if has (sndflg (sndv t)) TCP_FLG_SYN && (snduna (sndv t) =? iss (sndv t)) then u32 (amt - 1) else amt in
  if has (sndflg (sndv t)) TCP_FLG_FIN && seqlt (sndfin (sndv t)) acknum then u32 (amt - 1) else amt.

(** They leave the send buffer. *)
Definition drop_acked (amt : Z) (t : tcb) : tcb :=
  let t := set_ostart (u32 (ostart (outb t) + amt) mod TCP_OBLEN) t in
  let t := set_ocount (u32 (ocount (outb t) - amt)) t in
  set_obytes (u32 (obytes (outb t) + amt)) t.

(** An acknowledgement of new data *)
Definition recv_ack (c : Z) (h : tcpPkt) : prog tcpst unit :=
  t ← tb c;
  if seqlt (snduna (sndv t)) (th_acknum h) && seqlte (th_acknum h) (sndnxt (sndv t)) then
    upd_tb c (drop_acked (acked (th_acknum h) t));;
    t ← tb c;
    (if ocount (outb t) <? TCP_OBLEN then tkcall (signal (writers (outb t)));; mret tt else mret tt);;
    upd_tb c (set_snduna (th_acknum h));;
    upd_tb c (set_rxtcount 0);;
    tcpRecvRtt c;;
    t ← tb c;
    (if seqlt (snduna (sndv t)) (sndnxt (sndv t))
     then tcpTimerSched ntcp (rxttime (sndv t)) (Some c) TCP_EVT_RXT;; mret tt else mret tt);;
    raise_flg c TCP_FLG_SNDDATA
  else mret tt.

(** The send window *)
Definition recv_window (c : Z) (h : tcpPkt) : prog tcpst unit :=
  t ← tb c;
  if seqlt (sndwl1 (sndv t)) (th_seqnum h)
     || ((sndwl1 (sndv t) =? th_seqnum h) && seqlte (sndwl2 (sndv t)) (th_acknum h)) then
    let oldend := seqadd (sndwl2 (sndv t)) (sndwnd (sndv t)) in
    let newend := seqadd (th_acknum h) (th_window h) in
    upd_tb c (set_sndwnd (th_window h));;
    upd_tb c (set_sndwl1 (th_seqnum h));;
    upd_tb c (set_sndwl2 (th_acknum h));;
    if negb (seqlte newend oldend) then
      tcpTimerPurge c TCP_EVT_PERSIST;;
      clear_flg c TCP_FLG_PERSIST;;
      raise_flg c TCP_FLG_SNDDATA
    else mret tt
  else mret tt.

Definition tcpRecvAck (pkt c : Z) : prog tcpst Z :=
  tcp ← tcall (nload (pkt_curr pkt));
  h ← tcphdr tcp;
  recv_ack c h;;
  recv_window c h;;
  t ← tb c;
  (if seqlt (sndnxt (sndv t)) (th_acknum h) then raise_flg c TCP_FLG_SNDACK else mret tt);;
  mret OK.

(** ** tcpRecvData *)

(** The data of the segment; the length that is left. *)
Definition recv_data (c tcp seglen : Z) : prog tcpst Z :=
  t ← tb c;
  if (0 <? seglen) && bool_decide (tc_state (conn t) ∈ [TCP_ESTAB; TCP_FINWT1; TCP_FINWT2]) then
    h ← tcphdr tcp;
    '(control, first, seglen) ←
      tb_with c (fun M t => '(t', control, first, seglen) ← store_segment M tcp h seglen t;
                            Some (t', (control, first, seglen)));
    tcall (st8 (tcp_control tcp) control);;
    (if (first : bool) then
       n ← tkcall (semcount (readers (inb t)));
       (if n <? 1 then tkcall (signal (readers (inb t)));; mret tt else mret tt);;
       raise_flg c TCP_FLG_SNDACK
     else mret tt);;
    mret seglen
  else mret seglen.

(** The change of state for a FIN that is expected next *)
Definition fin_state (c : Z) : prog tcpst unit :=
  t ← tb c;
  let next := upd_tb c (fun t => set_rcvnxt (seqadd (rcvnxt (rcv t)) 1) t) in
  match tc_state (conn t) with
  | TCP_SYNRECV | TCP_ESTAB => next;; upd_tb c (set_tc_state TCP_CLOSEWT)
  | TCP_FINWT1 =>
      next;;
      t ← tb c;
      if seqlt (sndfin (sndv t)) (snduna (sndv t)) then
        tcpTimerSched ntcp TCP_TWOMSL (Some c) TCP_EVT_TIMEWT;;
        tcpTimerPurge c 0;;
        upd_tb c (set_tc_state TCP_TIMEWT)
      else upd_tb c (set_tc_state TCP_CLOSING)
  | TCP_FINWT2 =>
      next;;
      tcpTimerPurge c 0;;
      tcpTimerSched ntcp TCP_TWOMSL (Some c) TCP_EVT_TIMEWT;;
      mret tt
  | TCP_TIMEWT =>
      tcpTimerPurge c 0;;
      tcpTimerSched ntcp TCP_TWOMSL (Some c) TCP_EVT_TIMEWT;;
      raise_flg c TCP_FLG_SNDACK
  | TCP_CLOSEWT | TCP_CLOSING | TCP_LASTACK => raise_flg c TCP_FLG_SNDACK
  | _ => mret tt
  end.

Definition recv_fin (c : Z) (h : tcpPkt) (seglen : Z) : prog tcpst unit :=
  if has (th_control h) TCP_CTRL_FIN then
    t ← tb c;
    (if negb (has (rcvflg (rcv t)) TCP_FLG_FIN) then
       upd_tb c (set_rcvfin (seqadd (th_seqnum h) seglen));;
       upd_tb c (fun t => set_rcvflg (raise (rcvflg (rcv t)) TCP_FLG_FIN) t)
     else mret tt);;
    t ← tb c;
    if rcvnxt (rcv t) =? rcvfin (rcv t) then
      n ← tkcall (semcount (readers (inb t)));
      (if n <? 0 then
         n ← tkcall (semcount (readers (inb t)));
         tkcall (signaln (readers (inb t)) (i32 (n * -1)));; mret tt
       else mret tt);;
      fin_state c;;
      raise_flg c TCP_FLG_SNDACK
    else mret tt
  else mret tt.

Definition tcpRecvData (pkt c : Z) : prog tcpst Z :=
  tcp ← tcall (nload (pkt_curr pkt));
  len ← tcall (nload (pkt_len pkt));
  linkhdr ← tcall (nload (pkt_linkhdr pkt));
  let tcplen := u16 (len - (tcp - linkhdr)) in
  h ← tcphdr tcp;
  seglen ← recv_data c tcp (tcpSeglen h tcplen);
  h ← tcphdr tcp;
  recv_fin c h seglen;;
  t ← tb c;
  (if has (sndflg (sndv t)) TCP_FLG_SNDDATA
   then tcpSendData ntcp devwrite snoopCapture gaddr c;; mret tt else mret tt);;
  t ← tb c;
  (if has (sndflg (sndv t)) TCP_FLG_SNDACK
   then tcpSendAck devwrite snoopCapture gaddr c;; mret tt else mret tt);;
  mret OK.

(** ** tcpRecvListen *)

Definition tcpRecvListen (pkt c : Z) (src : netaddr) : prog tcpst Z :=
  tcp ← tcall (nload (pkt_curr pkt));
  h ← tcphdr tcp;
  if has (th_control h) TCP_CTRL_RST then mret OK
  else if has (th_control h) TCP_CTRL_ACK then raise_flg c TCP_FLG_SNDRST;; mret OK
  else if has (th_control h) TCP_CTRL_SYN then
    upd_tb c (set_rcvnxt (seqadd (th_seqnum h) 1));;
    upd_tb c (set_rcvwnd (seqadd (th_seqnum h) TCP_INIT_WND));;
    upd_tb c (fun t => set_rcvflg (raise (rcvflg (rcv t)) TCP_FLG_SYN) t);;
    raise_flg c TCP_FLG_SNDACK;;
    upd_tb c (fun t => if tc_remotept (conn t) =? NULL then set_tc_remotept (th_srcpt h) t else t);;
    upd_tb c (fun t => if na_type (tc_remoteip (conn t)) =? NULL then set_tc_remoteip src t else t);;
    upd_tb c (set_sndwnd (th_window h));;
    upd_tb c (set_sndwl1 (th_seqnum h));;
    tcpSendSyn ntcp devwrite snoopCapture gaddr c;;
    t ← tb c;
    (if has (sndflg (sndv t)) TCP_FLG_SNDACK
     then tcpSendAck devwrite snoopCapture gaddr c;; mret tt else mret tt);;
    upd_tb c (set_tc_state TCP_SYNRECV);;
    tcpRecvData pkt c
  else mret OK.

(** ** tcpRecvSynsent *)

(** A SYN; [ackAccept] tells whether an acceptable acknowledgement came with it. *)
Definition synsent_syn (pkt c : Z) (h : tcpPkt) (ackAccept : bool) : prog tcpst Z :=
  upd_tb c (set_sndwnd (th_window h));;
  upd_tb c (set_sndwl1 (th_seqnum h));;
  upd_tb c (set_rcvnxt (seqadd (th_seqnum h) 1));;
  upd_tb c (set_rcvwnd (seqadd (th_seqnum h) TCP_INIT_WND));;
  upd_tb c (fun t => set_rcvflg (raise (rcvflg (rcv t)) TCP_FLG_SYN) t);;
  raise_flg c TCP_FLG_SNDACK;;
  (if ackAccept then upd_tb c (set_snduna (th_acknum h));; upd_tb c (set_sndwl2 (th_acknum h)) else mret tt);;
  upd_tb c (set_rxtcount 0);;
  tcpTimerPurge c TCP_EVT_RXT;;
  t ← tb c;
  (if seqlt (snduna (sndv t)) (sndnxt (sndv t))
   then tcpTimerSched ntcp (rxttime (sndv t)) (Some c) TCP_EVT_RXT;; mret tt else mret tt);;
  t ← tb c;
  if seqlt (iss (sndv t)) (snduna (sndv t)) then
    upd_tb c (set_tc_state TCP_ESTAB);;
    tkcall (signal (tc_openclose (conn t)));;
    raise_flg c TCP_FLG_SNDDATA;;
    tcpRecvData pkt c
  else
    upd_tb c (set_tc_state TCP_SYNRECV);;
    tcpSend devwrite snoopCapture gaddr c (Z.lor TCP_CTRL_SYN TCP_CTRL_ACK) (iss (sndv t)) (rcvnxt (rcv t)) NULL 1;;
    tcpRecvData pkt c.

Definition tcpRecvSynsent (pkt c : Z) : prog tcpst Z :=
  tcp ← tcall (nload (pkt_curr pkt));
  h ← tcphdr tcp;
  t ← tb c;
  let ack := has (th_control h) TCP_CTRL_ACK in
  if ack && (seqlte (th_acknum h) (iss (sndv t)) || seqlt (sndnxt (sndv t)) (th_acknum h)) then
    if negb (has (th_control h) TCP_CTRL_RST) then raise_flg c TCP_FLG_SNDRST;; mret OK else mret OK
  else
    let ackAccept := ack && (seqlte (snduna (sndv t)) (th_acknum h) && seqlte (th_acknum h) (sndnxt (sndv t))) in
    if has (th_control h) TCP_CTRL_RST then mret (if ackAccept then TCP_ERR_RESET else OK)
    else if has (th_control h) TCP_CTRL_SYN then synsent_syn pkt c h ackAccept
    else mret OK.

(** ** tcpRecvOther *)

(** [seqlte(sndfin, snduna)]: is the FIN acknowledged? *)
Definition fin_acked (t : tcb) : bool := seqlte (sndfin (sndv t)) (snduna (sndv t)).

(** The acknowledgement, by state; [None] when the segment is processed further,
    otherwise the value returned. *)
Definition other_ack (pkt c : Z) (h : tcpPkt) : prog tcpst (option Z) :=
  let recvack := tcpRecvAck pkt c in
  t ← tb c;
  match tc_state (conn t) with
  | TCP_SYNRECV =>
      if seqlte (snduna (sndv t)) (th_acknum h) && seqlte (th_acknum h) (sndnxt (sndv t)) then
        upd_tb c (set_tc_state TCP_ESTAB);;
        tkcall (signal (tc_openclose (conn t)));;
        recvack;; mret None
      else raise_flg c TCP_FLG_SNDRST;; mret (Some OK)
  | TCP_CLOSEWT | TCP_ESTAB => recvack;; mret None
  | TCP_FINWT1 =>
      recvack;;
      t ← tb c;
      (if fin_acked t then
         tkcall (signal (tc_openclose (conn t)));; upd_tb c (set_tc_state TCP_FINWT2)
       else mret tt);;
      mret None
  | TCP_FINWT2 =>
      recvack;;
      r ← tcpTimerRemain c TCP_EVT_RXT;
      (if r <=? 0 then t ← tb c; tkcall (signal (tc_openclose (conn t)));; mret tt else mret tt);;
      mret None
  | TCP_CLOSING =>
      recvack;;
      t ← tb c;
      (if fin_acked t then
         tkcall (signal (tc_openclose (conn t)));;
         upd_tb c (set_tc_state TCP_FINWT2);;
         tcpTimerSched ntcp TCP_TWOMSL (Some c) TCP_EVT_TIMEWT;; mret tt
       else mret tt);;
      mret None
  | TCP_LASTACK =>
      if fin_acked t then tkcall (signal (tc_openclose (conn t)));; mret (Some TCP_ERR_RESET)
      else mret None
  | TCP_TIMEWT =>
      tcpTimerPurge c 0;;
      tcpTimerSched ntcp TCP_TWOMSL (Some c) TCP_EVT_TIMEWT;;
      mret None
  | _ => mret None
  end.

(** RST in a synchronised state *)
Definition other_rst (c : Z) : prog tcpst (option Z) :=
  t ← tb c;
  match tc_state (conn t) with
  | TCP_SYNRECV =>
      upd_tb c (set_rxtcount 0);;
      tcpTimerPurge c TCP_EVT_RXT;;
      t ← tb c;
      if TCP_PASSIVE =? tc_opentype (conn t)
      then upd_tb c (set_tc_state TCP_LISTEN);; mret (Some OK)
      else mret (Some TCP_ERR_RESET)
  | TCP_ESTAB | TCP_FINWT1 | TCP_FINWT2 | TCP_CLOSEWT | TCP_CLOSING | TCP_LASTACK | TCP_TIMEWT =>
      mret (Some TCP_ERR_RESET)
  | _ => mret None
  end.

Definition tcpRecvOther (pkt c : Z) : prog tcpst Z :=
  tcp ← tcall (nload (pkt_curr pkt));
  len ← tcall (nload (pkt_len pkt));
  linkhdr ← tcall (nload (pkt_linkhdr pkt));
  let tcplen := u16 (len - (tcp - linkhdr)) in
  h ← tcphdr tcp;
  t ← tb c;
  let '(segAccept, control, len') := tcpRecvValid h tcplen len t in
  tcall (st8 (tcp_control tcp) control);;
  tcall (nstore (pkt_len pkt) len');;
  h ← tcphdr tcp;
  if negb segAccept then
    if has (th_control h) TCP_CTRL_RST then mret OK
    else tcpSendAck devwrite snoopCapture gaddr c;; mret OK
  else
    r ← (if has (th_control h) TCP_CTRL_RST then other_rst c else mret None);
    match r with
    | Some r => mret r
    | None =>
        if has (th_control h) TCP_CTRL_SYN then raise_flg c TCP_FLG_SNDRST;; mret TCP_ERR_RESET
        else if negb (has (th_control h) TCP_CTRL_ACK) then mret OK
        else
          r ← other_ack pkt c h;
          match r with
          | Some r => mret r
          | None => tcpRecvData pkt c
          end
    end.

(** ** tcpRecv *)

(** With the mutex of the connection, which is open: by state. *)
Definition tcpRecv_state (pkt c : Z) (src dst : netaddr) : prog tcpst Z :=
  tcpRecvOpts pkt c;;
  t ← tb c;
  result ← match tc_state (conn t) with
           | TCP_LISTEN => tcpRecvListen pkt c src
           | TCP_SYNSENT => tcpRecvSynsent pkt c
           | TCP_CLOSED => mret 0
           | _ => tcpRecvOther pkt c
           end;
  t ← tb c;
  (if has (sndflg (sndv t)) TCP_FLG_SNDRST
   then tcall (tcpSendRst devwrite snoopCapture gaddr pkt src dst);; mret tt else mret tt);;
  if result =? TCP_ERR_RESET then
    r ← tcall (netFreebuf pkt);
    if r =? SYSERR then mret SYSERR else tcpFree c
  else
    t ← tb c;
    tkcall (signal (tc_mutex (conn t)));;
    r ← tcall (netFreebuf pkt);
    if r =? SYSERR then mret SYSERR else mret result.

Definition tcpRecv (pkt : Z) (src dst : netaddr) : prog tcpst Z :=
  tcp ← tcall (nload (pkt_curr pkt));
  len ← tcall (nload (pkt_len pkt));
  linkhdr ← tcall (nload (pkt_linkhdr pkt));
  let tcplen := u16 (len - (tcp - linkhdr)) in
  sum ← tcall (tcpChksum pkt tcplen src dst);
  if negb (sum =? 0) then tcall (netFreebuf pkt);; mret OK
  else
    tcall (swap_header net2hs net2hl tcp);;
    h ← tcphdr tcp;
    c ← tcpDemux_loop (Z.to_nat ntcp) 0 (th_dstpt h) (th_srcpt h) dst src None 0;
    match c with
    | None => tcall (tcpSendRst devwrite snoopCapture gaddr pkt src dst);; tcall (netFreebuf pkt)
    | Some c =>
        t ← tb c;
        tkcall (wait (tc_mutex (conn t)));;
        t ← tb c;
        if decide (tc_state (conn t) = TCP_CLOSED) then
          tcall (tcpSendRst devwrite snoopCapture gaddr pkt src dst);;
          tkcall (signal (tc_mutex (conn t)));;
          tcall (netFreebuf pkt)
        else tcpRecv_state pkt c src dst
    end.

End recv.
