(* ===== verification/TcpDev.v ===== *)
(** * Connections of TCP: the device (device/tcp/tcpInit.c, tcpAlloc.c,
      tcpSetup.c, tcpOpenActive.c, tcpOpen.c, tcpClose.c, tcpRead.c, tcpWrite.c,
      tcpGetc.c, tcpPutc.c, tcpControl.c, tcpTimer.c)

    A device is named by its minor number.  The caller's buffer is the list of its
    octets. *)

From S2P Require Import Prelude Prog Queue Interrupt Memory Kernel Thread Clock Semaphore CString Sys BufPool NetAddr Net Route Arp Ipv4 Tcp TcpTimer TcpConn.

Definition TCP_PSTART : Z := 10000.
Definition TCP_PMAX : Z := 65000.
Definition TCP_SEQINCR : Z := 904.
Definition TCP_CTRL_RECVBYTES : Z := 2.
Definition TCP_CTRL_SENTBYTES : Z := 3.

Definition tcpInit (c : Z) : prog tcpst Z :=
  upd_tb c (fun _ => tcb0);;
  upd_tb c (set_tc_state TCP_CLOSED);;
  upd_tb c (set_tc_devstate TCP_FREE);;
  m ← tkcall (semcreate 1);
  upd_tb c (set_tc_mutex m);;
  if m =? SYSERR then mret SYSERR else mret OK.

(** [n] devices are left; [tcp0] is the number of the first. *)
Fixpoint tcpAlloc_loop (n : nat) (i tcp0 : Z) : prog tcpst Z :=
  match n with
  | O => mret (u16 SYSERR)
  | S n =>
      t ← tb i;
      tkcall (wait (tc_mutex (conn t)));;
      t ← tb i;
      if tc_devstate (conn t) =? TCP_FREE then
        upd_tb i (set_tc_devstate TCP_ALLOC);;
        tkcall (signal (tc_mutex (conn t)));;
        mret (u16 (i + tcp0))
      else
        tkcall (signal (tc_mutex (conn t)));;
        tcpAlloc_loop n (i + 1) tcp0
  end.

Definition tcpIss : prog tcpst Z :=
  seq ← gets nextseq;
  now ← gets (fun s => clktime (nkern (tnet s)));
  let seq := if seq =? 0 then i32 now else seq in
  let seq := i32 (seq + TCP_SEQINCR) in
  modify (set_nextseq seq);;
  mret (u32 seq).

Definition tcpSetup (c : Z) : prog tcpst Z :=
  s ← tkcall (semcreate 0);
  upd_tb c (set_tc_openclose s);;
  upd_tb c (fun t => set_ibytes 0 (set_icount 0 (set_inxt 0 (set_istart 0 t))));;
  s ← tkcall (semcreate 0);
  upd_tb c (set_readers s);;
  upd_tb c (fun t => set_obytes 0 (set_ocount 0 (set_ostart 0 t)));;
  s ← tkcall (semcreate 1);
  upd_tb c (set_writers s);;
  i ← tcpIss;
  upd_tb c (fun t => set_sndwl2 i (set_sndnxt i (set_snduna i (set_iss i t))));;
  upd_tb c (fun t => set_sndcwn TCP_INIT_MSS (set_sndflg 0 (set_sndmss TCP_INIT_MSS t)));;
  upd_tb c (fun t => set_psttime TCP_PST_INITTIME (set_rxtcount 0 (set_rxttime TCP_RXT_INITTIME (set_sndsst TCP_MAX_WND t))));;
  upd_tb c (fun t => set_rcvflg 0 (set_rcvmss (TCP_INIT_MSS - TCP_HDR_LEN) t));;
  t ← tb c;
  if (tc_openclose (conn t) =? SYSERR) || (readers (inb t) =? SYSERR) || (writers (outb t) =? SYSERR)
  then mret SYSERR else mret OK.

Section dev.
Variable ntcp : Z.
Variable devwrite : Z -> Z -> Z -> prog netst Z.
Variable snoopCapture : Z -> Z -> prog netst Z.
Variable gaddr : netaddr.

Definition tcpOpenActive (c : Z) : prog tcpst Z :=
  t ← tb c;
  if (tc_remotept (conn t) =? NULL) || (na_type (tc_remoteip (conn t)) =? NULL)
     || (na_type (tc_localip (conn t)) =? NULL) then mret TCP_ERR_NOSPEC
  else
    r ← tcpSendSyn ntcp devwrite snoopCapture gaddr c;
    if r =? SYSERR then mret SYSERR
    else upd_tb c (set_tc_state TCP_SYNSENT);; mret OK.

(** ** tcpOpen *)

(** The loop of [allocPort] at index [i].  A port that is taken is left for the
    next one and the search starts again, at index 1: no connection can make it
    start again twice. *)
Fixpoint allocPort_loop (fuel : nat) (i port : Z) : prog tcpst Z :=
  match fuel with
  | O => Fault
  | S fuel =>
      if i <? ntcp then
        t ← tb i;
        if negb (bool_decide (tc_state (conn t) = TCP_CLOSED)) && (tc_localpt (conn t) =? port + TCP_PSTART)
        then allocPort_loop fuel 1 (u16 ((port + 1) mod (TCP_PMAX - TCP_PSTART)))
        else allocPort_loop fuel (i + 1) port
      else mret port
  end.

Definition allocPort : prog tcpst Z :=
  port ← gets nextport;
  port ← allocPort_loop (S (Z.to_nat ((ntcp + 2) * (ntcp + 2)))) 0 (u16 ((port + 1) mod (TCP_PMAX - TCP_PSTART)));
  modify (set_nextport port);;
  mret (u16 (port + TCP_PSTART)).

(** The open with the mutex held and the arguments read: whether it goes on to wait for
    the other side. *)
Definition open_locked (c num : Z) (localip remoteip : option netaddr) (localpt remotept mode : Z) : prog tcpst bool :=
  match localip with
  | None =>
      upd_tb c (set_tc_devstate TCP_FREE);;
      t ← tb c;
      tkcall (signal (tc_mutex (conn t)));; mret false
  | Some localip =>
      localpt ← (if localpt =? NULL then allocPort else mret localpt);
      upd_tb c (set_tc_dev num);;
      upd_tb c (set_tc_localpt localpt);;
      upd_tb c (set_tc_localip localip);;
      upd_tb c (set_tc_remotept remotept);;
      upd_tb c (fun t => match remoteip with
                         | None => let a := tc_remoteip (conn t) in
                                   set_tc_remoteip (mknetaddr NULL (na_len a) (na_addr a)) t
                         | Some a => set_tc_remoteip a t
                         end);;
      upd_tb c (set_tc_opentype mode);;
      r ← tcpSetup c;
      if r =? SYSERR then tcpFree c;; mret false
      else if mode =? TCP_PASSIVE then upd_tb c (set_tc_state TCP_LISTEN);; mret true
      else if mode =? TCP_ACTIVE then
        r ← tcpOpenActive c;
        if r =? SYSERR then tcpFree c;; mret false else mret true
      else tcpFree c;; mret false
  end.

(** From the mutex on: whether the device is opened. *)
Definition open_checked (c num : Z) (localip remoteip : option netaddr) (localpt remotept mode : Z) : prog tcpst bool :=
  upd_tb c (set_tc_devstate TCP_ALLOC);;
  t ← tb c;
  if negb (bool_decide (tc_state (conn t) = TCP_CLOSED)) && negb (bool_decide (tc_state (conn t) = TCP_LISTEN))
  then tkcall (signal (tc_mutex (conn t)));; mret false
  else open_locked c num localip remoteip (u16 localpt) (u16 remotept) (u8 mode).

Definition tcpOpen (c num : Z) (localip remoteip : option netaddr) (localpt remotept mode : Z) : prog tcpst Z :=
  t ← tb c;
  tkcall (wait (tc_mutex (conn t)));;
  ok ← open_checked c num localip remoteip localpt remotept mode;
  if negb (ok : bool) then mret SYSERR
  else
    t ← tb c;
    tkcall (signal (tc_mutex (conn t)));;
    t ← tb c;
    tkcall (wait (tc_openclose (conn t)));;
    mret OK.

(** ** tcpClose *)

(** Threads blocked on [s] are released. *)
Definition release (s : Z) : prog tcpst unit :=
  n ← tkcall (semcount s);
  if n <? 0 then n ← tkcall (semcount s); tkcall (signaln s (i32 (n * -1)));; mret tt else mret tt.

(** A FIN is to be sent behind the data. *)
Definition queue_fin (c : Z) : prog tcpst unit :=
  upd_tb c (fun t => set_sndfin (seqadd (snduna (sndv t)) (ocount (outb t))) t);;
  raise_flg c TCP_FLG_FIN.

(** The switch over the state: whether the call goes on. *)
Definition close_state (c : Z) : prog tcpst bool :=
  t ← tb c;
  match tc_state (conn t) with
  | TCP_CLOSED =>
      upd_tb c (set_tc_devstate TCP_FREE);;
      tkcall (signal (tc_mutex (conn t)));; mret false
  | TCP_SYNSENT =>
      release (writers (outb t));;
      t ← tb c; release (readers (inb t));;
      tcpFree c;; mret true
  | TCP_LISTEN => release (readers (inb t));; tcpFree c;; mret true
  | TCP_SYNRECV =>
      queue_fin c;;
      t ← tb c;
      (if ocount (outb t) =? 0
       then raise_flg c TCP_FLG_SNDDATA;; upd_tb c (set_tc_state TCP_FINWT1) else mret tt);;
      mret true
  | TCP_ESTAB => queue_fin c;; raise_flg c TCP_FLG_SNDDATA;; upd_tb c (set_tc_state TCP_FINWT1);; mret true
  | TCP_CLOSEWT => queue_fin c;; raise_flg c TCP_FLG_SNDDATA;; upd_tb c (set_tc_state TCP_LASTACK);; mret true
  | TCP_FINWT1 | TCP_FINWT2 | TCP_CLOSING | TCP_LASTACK | TCP_TIMEWT =>
      tkcall (signal (tc_mutex (conn t)));; mret false
  end.

(** With the mutex held. *)
Definition close_locked (c : Z) : prog tcpst bool :=
  go ← close_state c;
  if (go : bool) then
    t ← tb c;
    (if has (sndflg (sndv t)) TCP_FLG_SNDDATA
     then tcpSendData ntcp devwrite snoopCapture gaddr c;; mret tt else mret tt);;
    mret true
  else mret false.

Definition tcpClose (c : Z) : prog tcpst Z :=
  t ← tb c;
  tkcall (wait (tc_mutex (conn t)));;
  go ← close_locked c;
  if negb (go : bool) then mret SYSERR
  else
    t ← tb c;
    tkcall (signal (tc_mutex (conn t)));;
    t ← tb c;
    tkcall (wait (tc_openclose (conn t)));;
    mret OK.

(** ** tcpRead *)

(** [stateCheck] of tcpRead.c *)
Definition read_check (c : Z) : prog tcpst Z :=
  t ← tb c;
  let closing := tkcall (signal (tc_mutex (conn t)));; mret TCP_ERR_CLOSING in
  match tc_state (conn t) with
  | TCP_CLOSED => tkcall (signal (tc_mutex (conn t)));; mret TCP_ERR_NOCONN
  | TCP_CLOSEWT => if 0 <? icount (inb t) then mret OK else closing
  | TCP_CLOSING | TCP_LASTACK | TCP_TIMEWT => closing
  | _ => mret OK
  end.

(** The rounds in which the reader waits for octets; a round may find none, so
    their number is not bounded by [len]: [rounds] is an argument.  The octets
    read. *)
Fixpoint tcpRead_rounds (rounds : nat) (c len : Z) (l : list Z) : prog tcpst (option (list Z)) :=
  if Z.of_nat (length l) <? len then
    match rounds with
    | O => Fault
    | S rounds =>
        t ← tb c;
        tkcall (wait (readers (inb t)));;
        t ← tb c;
        tkcall (wait (tc_mutex (conn t)));;
        check ← read_check c;
        if negb (check =? OK) then mret None
        else
          l' ← tb_with c (fun _ t => read_loop (Z.to_nat (len - Z.of_nat (length l))) t);
          t ← tb c;
          (if 0 <? icount (inb t) then
             n ← tkcall (semcount (readers (inb t)));
             if n <? 1 then tkcall (signal (readers (inb t)));; mret tt else mret tt
           else mret tt);;
          t ← tb c;
          tkcall (signal (tc_mutex (conn t)));;
          tcpRead_rounds rounds c len (l ++ l')
    end
  else mret (Some l).

Definition tcpRead (rounds : nat) (c len : Z) : prog tcpst (Z * list Z) :=
  t ← tb c;
  tkcall (wait (tc_mutex (conn t)));;
  check ← read_check c;
  if negb (check =? OK) then mret (SYSERR, [])
  else
    t ← tb c;
    tkcall (signal (tc_mutex (conn t)));;
    r ← tcpRead_rounds rounds c len [];
    mret (match r with None => (SYSERR, []) | Some l => (Z.of_nat (length l), l) end).

Definition tcpGetc (rounds : nat) (c : Z) : prog tcpst Z :=
  '(result, l) ← tcpRead rounds c 1;
  if negb (result =? 1) then mret result else opt (head l).

(** ** tcpWrite *)

(** [stateCheck] of tcpWrite.c *)
Definition write_check (c : Z) : prog tcpst Z :=
  t ← tb c;
  match tc_state (conn t) with
  | TCP_CLOSED => tkcall (signal (tc_mutex (conn t)));; mret TCP_ERR_NOCONN
  | TCP_LISTEN =>
      failed ← (if negb (tc_remotept (conn t) =? NULL) && negb (na_type (tc_remoteip (conn t)) =? NULL) then
                  upd_tb c (set_tc_state TCP_SYNSENT);;
                  r ← tcpOpenActive c;
                  if negb (r =? OK) then mret true
                  else
                    t ← tb c;
                    (if has (sndflg (sndv t)) TCP_FLG_SYN
                     then tcpSendSyn ntcp devwrite snoopCapture gaddr c;; mret tt else mret tt);;
                    mret false
                else mret false);
      t ← tb c;
      tkcall (signal (tc_mutex (conn t)));;
      mret (if (failed : bool) then SYSERR else TCP_ERR_NOSPEC)
  | TCP_FINWT1 | TCP_FINWT2 | TCP_CLOSING | TCP_LASTACK | TCP_TIMEWT =>
      tkcall (signal (tc_mutex (conn t)));; mret TCP_ERR_CLOSING
  | _ => mret OK
  end.

(** The octets [l] are still to be written; the error, or [OK]. *)
Fixpoint tcpWrite_rounds (rounds : nat) (c : Z) (l : list Z) : prog tcpst Z :=
  match l with
  | [] => mret OK
  | _ =>
      match rounds with
      | O => Fault
      | S rounds =>
          t ← tb c;
          tkcall (wait (writers (outb t)));;
          t ← tb c;
          tkcall (wait (tc_mutex (conn t)));;
          check ← write_check c;
          t ← tb c;
          if negb (check =? OK) then tkcall (signal (writers (outb t)));; mret check
          else
            l' ← tb_with c (fun _ t => Some (write_loop l t));
            t ← tb c;
            (if ocount (outb t) <? TCP_OBLEN then tkcall (signal (writers (outb t)));; mret tt else mret tt);;
            t ← tb c;
            (if bool_decide (tc_state (conn t) = TCP_ESTAB) || bool_decide (tc_state (conn t) = TCP_CLOSEWT)
             then tcpSendData ntcp devwrite snoopCapture gaddr c;; mret tt else mret tt);;
            t ← tb c;
            tkcall (signal (tc_mutex (conn t)));;
            tcpWrite_rounds rounds c l'
      end
  end.

Definition tcpWrite (rounds : nat) (c : Z) (buf : list Z) : prog tcpst Z :=
  t ← tb c;
  tkcall (wait (tc_mutex (conn t)));;
  check ← write_check c;
  t ← tb c;
  tkcall (signal (tc_mutex (conn t)));;
  if negb (check =? OK) then mret check
  else
    r ← tcpWrite_rounds rounds c buf;
    mret (if r =? OK then Z.of_nat (length buf) else r).

Definition tcpPutc (rounds : nat) (c ch : Z) : prog tcpst Z := tcpWrite rounds c [u8 ch].

(** ** tcpControl *)

Definition tcpControl (c func : Z) : prog tcpst Z :=
  t ← tb c;
  tkcall (wait (tc_mutex (conn t)));;
  t ← tb c;
  let r := if func =? TCP_CTRL_SENTBYTES then i32 (obytes (outb t))
           else if func =? TCP_CTRL_RECVBYTES then i32 (ibytes (inb t)) else SYSERR in
  tkcall (signal (tc_mutex (conn t)));;
  mret r.

(** ** tcpTimer: a round of the timer thread *)

(** The events at the front that have expired are taken out and triggered,
    without the mutex of the list.  Their number is not bounded: a triggered event
    may schedule another. *)
Fixpoint trigger_loop (rounds : nat) : prog tcpst unit :=
  first ← readopt (fun s => head ← tcptimertab s !! TCP_EVT_HEAD;
                            Some (i ← ev_next head; e ← tcptimertab s !! i; Some (i, e)));
  match first with
  | None => mret tt
  | Some (i, e) =>
      if ev_remain e <=? 0 then
        match rounds with
        | O => Fault
        | S rounds =>
            lift (fun s => tab ← ev_upd i (set_ev_used false) (tcptimertab s);
                           tab ← ev_upd TCP_EVT_HEAD (set_ev_next (ev_next e)) tab;
                           Some (set_timer tab (nextevt s) s, tt));;
            m ← gets tcpmutex;
            tkcall (signal m);;
            c ← opt (ev_tcb e);
            tcpTimerTrigger ntcp devwrite snoopCapture gaddr (ev_type e) c;;
            m ← gets tcpmutex;
            tkcall (wait m);;
            trigger_loop rounds
        end
      else mret tt
  end.

(** [elapse] milliseconds have passed. *)
Fixpoint expire_loop (rounds : nat) (elapse : Z) : prog tcpst unit :=
  first ← readopt (fun s => head ← tcptimertab s !! TCP_EVT_HEAD;
                            Some (i ← ev_next head; e ← tcptimertab s !! i; Some (i, e)));
  match first with
  | None => mret tt
  | Some (i, e) =>
      if 0 <? elapse then
        match rounds with
        | O => Fault
        | S rounds =>
            let remain v := lift (fun s => tab ← ev_upd i (set_ev_remain v) (tcptimertab s);
                                           Some (set_timer tab (nextevt s) s, tt)) in
            if elapse <? u32 (ev_remain e) then remain (i32 (ev_remain e - elapse))
            else
              remain 0;;
              trigger_loop rounds;;
              expire_loop rounds (u32 (elapse - ev_remain e))
        end
      else mret tt
  end.

Definition tcpTimer_round (rounds : nat) (elapse : Z) : prog tcpst unit :=
  m ← gets tcpmutex;
  tkcall (wait m);;
  expire_loop rounds elapse;;
  m ← gets tcpmutex;
  tkcall (signal m);;
  mret tt.

End dev.
