(* ===== verification/TcpStates.v ===== *)
(** * The states of a TCP connection

    [moves c R Q p v]: the program [p], started when connection [c] is in state
    [v], changes this state only along the edges of the state diagram.  While the
    program is suspended the others may change it as [R] allows; the mutex of the
    connection keeps it as it is.  [Q] relates the result to the state at the end. *)

From S2P Require Import Prelude Prog Queue Interrupt Memory Kernel Thread Clock Semaphore CString Sys BufPool NetAddr Net Route Arp Ipv4 Tcp TcpTimer TcpConn TcpRecv TcpDev.

(** What may change the state of a connection: a received segment, the calls, and an expired timer. *)
Inductive event : Type := Segment | Open | Send | Close | Timer.

(** The state diagram of RFC 793, by event.  A segment that resets the connection or acknowledges its last FIN closes it. *)
Inductive tcp_edge : event -> tcpstate -> tcpstate -> Prop :=
| open_passive : tcp_edge Open TCP_CLOSED TCP_LISTEN
| open_active : tcp_edge Open TCP_CLOSED TCP_SYNSENT
| open_listen : tcp_edge Open TCP_LISTEN TCP_SYNSENT
| send_listen : tcp_edge Send TCP_LISTEN TCP_SYNSENT
| close_listen : tcp_edge Close TCP_LISTEN TCP_CLOSED
| close_synsent : tcp_edge Close TCP_SYNSENT TCP_CLOSED
| close_synrecv : tcp_edge Close TCP_SYNRECV TCP_FINWT1
| close_estab : tcp_edge Close TCP_ESTAB TCP_FINWT1
| close_closewt : tcp_edge Close TCP_CLOSEWT TCP_LASTACK
| listen_syn : tcp_edge Segment TCP_LISTEN TCP_SYNRECV
| synsent_simul : tcp_edge Segment TCP_SYNSENT TCP_SYNRECV
| synsent_synack : tcp_edge Segment TCP_SYNSENT TCP_ESTAB
| synrecv_ack : tcp_edge Segment TCP_SYNRECV TCP_ESTAB
| synrecv_rst : tcp_edge Segment TCP_SYNRECV TCP_LISTEN
| synrecv_fin : tcp_edge Segment TCP_SYNRECV TCP_CLOSEWT
| estab_fin : tcp_edge Segment TCP_ESTAB TCP_CLOSEWT
| finwt1_ack : tcp_edge Segment TCP_FINWT1 TCP_FINWT2
| finwt1_fin : tcp_edge Segment TCP_FINWT1 TCP_CLOSING
| finwt1_finack : tcp_edge Segment TCP_FINWT1 TCP_TIMEWT
| finwt2_fin : tcp_edge Segment TCP_FINWT2 TCP_TIMEWT
| closing_ack : tcp_edge Segment TCP_CLOSING TCP_TIMEWT
| segment_closes s : s <> TCP_LISTEN -> tcp_edge Segment s TCP_CLOSED
| timer_closes s : tcp_edge Timer s TCP_CLOSED.

(** The two changes of state the code makes beside the diagram: an acknowledged FIN takes CLOSING to FINWT2, where the RFC and the
    comment in tcpRecvOther.c say TIMEWT, and an open that fails closes the connection it found listening. *)
Inductive deviation : event -> tcpstate -> tcpstate -> Prop :=
| closing_finwt2 : deviation Segment TCP_CLOSING TCP_FINWT2
| failed_open : deviation Open TCP_LISTEN TCP_CLOSED.

Definition may (ev : event) (s s' : tcpstate) : Prop := tcp_edge ev s s' \/ deviation ev s s'.

Definition tcp_step (E : tcpstate -> tcpstate -> Prop) (v v' : option tcpstate) : Prop :=
  v' = v \/ exists s s', v = Some s /\ v' = Some s' /\ E s s'.

(** The state of connection [c] *)
Definition state_of (c : Z) (s : tcpst) : option tcpstate := (fun t => tc_state (conn t)) <$> tcptab s !! c.

Section moves.
Context (Ed : tcpstate -> tcpstate -> Prop) (c : Z) (R : option tcpstate -> option tcpstate -> Prop).

Fixpoint moves {A} (Q : A -> option tcpstate -> Prop) (p : prog tcpst A) (v : option tcpstate) : Prop :=
  match p with
  | Ret a => Q a v
  | Fault | Halt => True
  | Get f => forall s, state_of c s = v -> moves Q (f s) v
  | Put s p => tcp_step Ed v (state_of c s) /\ moves Q p (state_of c s)
  | Switch p => forall v', R v v' -> moves Q p v'
  end.

Lemma moves_bind {A B} (p : prog tcpst A) (g : A -> prog tcpst B) Q v :
  moves (fun a => moves Q (g a)) p v -> moves Q (p ≫= g) v.
Proof.
  unfold mbind, prog_bind. revert v. induction p as [a| | |f IH|s p IH|p IH]; intros v; simpl; auto.
  intros [H1 H2]. auto.
Qed.

Lemma moves_mono {A} (p : prog tcpst A) (Q Q' : A -> option tcpstate -> Prop) v :
  (forall a v, Q a v -> Q' a v) -> moves Q p v -> moves Q' p v.
Proof. intros HQ. revert v. induction p as [a| | |f IH|s p IH|p IH]; intros v; simpl; auto. intros [H1 H2]. auto. Qed.

(** What [moves] says of a run up to the next context switch. *)
Lemma moves_run {A} (p : prog tcpst A) Q v s : moves Q p v -> state_of c s = v ->
  match run p s with
  | Returned s' a => rtc (tcp_step Ed) v (state_of c s') /\ Q a (state_of c s')
  | Suspended s' p' => rtc (tcp_step Ed) v (state_of c s') /\ forall v', R (state_of c s') v' -> moves Q p' v'
  | Halted _ | Faulted => True
  end.
Proof.
  revert v s. induction p as [a| | |f IH|s1 p IH|p IH]; intros v s; simpl; auto.
  - intros H <-. by split.
  - intros H Hv. apply IH; [by apply H|done].
  - intros [H1 H2] _. specialize (IH _ s1 H2 eq_refl). destruct (run p s1); [..|done|done];
      (destruct IH as [IH1 IH2]; split; [by eapply rtc_l|done]).
  - intros H <-. by split.
Qed.

(** ** Programs that leave the state alone, while the others do too *)

Definition quiet {A} (p : prog tcpst A) : Prop :=
  forall v (Q : A -> option tcpstate -> Prop), (forall a v', rtc R v v' -> Q a v') -> moves Q p v.

Lemma quiet_bind {A B} (p : prog tcpst A) (g : A -> prog tcpst B) :
  quiet p -> (forall a, quiet (g a)) -> quiet (p ≫= g).
Proof.
  intros Hp Hg v Q HQ. apply moves_bind, Hp. intros a v' Hv. apply Hg. intros b v'' Hv'. apply HQ. by etrans.
Qed.

Lemma quiet_ret {A} (a : A) : quiet (mret a).
Proof. intros v Q HQ. by apply HQ. Qed.
Lemma quiet_fault {A} : quiet (Fault : prog tcpst A).
Proof. done. Qed.
Lemma quiet_gets {A} (f : tcpst -> A) : quiet (gets f).
Proof. intros v Q HQ s _. by apply HQ. Qed.
Lemma quiet_readopt {A} (f : tcpst -> option A) : quiet (readopt f).
Proof. intros v Q HQ s _. destruct (f s); [|done]. by apply HQ. Qed.
Lemma quiet_lift {A} (f : tcpst -> option (tcpst * A)) :
  (forall s s' a, f s = Some (s', a) -> state_of c s' = state_of c s) -> quiet (lift f).
Proof.
  intros Hf v Q HQ s <-. destruct (f s) as [[s' a]|] eqn:E; [|done]. simpl. rewrite (Hf _ _ _ E).
  split; [by left|]. by apply HQ.
Qed.
Lemma quiet_modify (f : tcpst -> tcpst) : (forall s, state_of c (f s) = state_of c s) -> quiet (modify f).
Proof. intros Hf v Q HQ s <-. simpl. rewrite Hf. split; [by left|]. by apply HQ. Qed.

Lemma quiet_tcall {A} (p : prog netst A) : quiet (tcall p).
Proof.
  induction p as [a| | |f IH|s p IH|p IH]; intros v Q HQ; simpl; auto.
  - by apply HQ.
  - intros s _. by apply IH.
  - intros t Ht. change (state_of c (set_tnet s t)) with (state_of c t). rewrite Ht. split; [by left|]. by apply IH.
  - intros v' Hv. apply IH. intros a v'' Hv'. apply HQ. by eapply rtc_l.
Qed.

Lemma quiet_upd c' f : (forall t, tc_state (conn (f t)) = tc_state (conn t)) -> quiet (upd_tb c' f).
Proof.
  intros Hf. apply quiet_lift. intros s s' a. destruct (tcptab s !! c') as [t|] eqn:E; [|done]. intros [= <- <-].
  unfold state_of. simpl. destruct (decide (c' = c)) as [->|Hne].
  - rewrite lookup_insert_eq, E. simpl. by rewrite Hf.
  - by rewrite lookup_insert_ne.
Qed.

Lemma quiet_with {A} c' (f : memory -> tcb -> option (tcb * A)) :
  (forall M t t' a, f M t = Some (t', a) -> tc_state (conn t') = tc_state (conn t)) -> quiet (tb_with c' f).
Proof.
  intros Hf. apply quiet_lift. intros s s' a. destruct (tcptab s !! c') as [t|] eqn:E; [|done]. simpl.
  destruct (f _ t) as [[t' x]|] eqn:Ef; [|done]. intros [= <- <-]. unfold state_of. simpl.
  destruct (decide (c' = c)) as [->|Hne].
  - rewrite lookup_insert_eq, E. simpl. by rewrite (Hf _ _ _ _ Ef).
  - by rewrite lookup_insert_ne.
Qed.

End moves.

Create HintDb quiet.
#[export] Hint Resolve quiet_ret quiet_fault quiet_gets quiet_readopt quiet_tcall : quiet.

Ltac quiet :=
  repeat match goal with
  | |- quiet _ _ _ (_ ≫= _) => apply quiet_bind; [|intros ?]
  | |- quiet _ _ _ (if ?b then _ else _) => destruct b
  | |- quiet _ _ _ (match ?x with _ => _ end) => destruct x
  | |- quiet _ _ _ (upd_tb _ _) => apply quiet_upd; intros ?; solve [done | auto with quiet nocore | by repeat case_match]
  | |- quiet _ _ _ _ => solve [auto with quiet nocore]
  end.
#[export] Hint Extern 1 (quiet _ _ _ (tkcall _)) => apply quiet_tcall : quiet.
#[export] Hint Extern 1 (quiet _ _ _ (tb _)) => apply quiet_readopt : quiet.
#[export] Hint Extern 1 (quiet _ _ _ (tcphdr _)) => apply quiet_tcall : quiet.

(** ** The programs of TCP that leave the state alone *)

Section quiets.
Context (Ed : tcpstate -> tcpstate -> Prop) (c : Z) (R : option tcpstate -> option tcpstate -> Prop).
Context (ntcp : Z) (devwrite : Z -> Z -> Z -> prog netst Z) (snoopCapture : Z -> Z -> prog netst Z) (gaddr : netaddr).
Local Notation quiet := (quiet Ed c R).

Lemma quiet_raise c' f : quiet (raise_flg c' f).
Proof. unfold raise_flg. quiet. Qed.
Lemma quiet_clear c' f : quiet (clear_flg c' f).
Proof. unfold clear_flg. quiet. Qed.

Lemma quiet_timers {A} (f : tcpst -> option (events * Z * A)) :
  quiet (lift (fun s => '(tab, evt, a) ← f s; Some (set_timer tab evt s, a))).
Proof. apply quiet_lift. intros s s' a. destruct (f s) as [[[tab evt] x]|]; [|done]. by intros [= <- <-]. Qed.

Lemma quiet_sched time c' type : quiet (tcpTimerSched ntcp time c' type).
Proof. unfold tcpTimerSched. quiet. apply (quiet_timers (fun s => sched_event ntcp (nextevt s) time _ type (tcptimertab s))). Qed.

Lemma quiet_purge c' type : quiet (tcpTimerPurge c' type).
Proof.
  unfold tcpTimerPurge. quiet. apply quiet_lift. intros s s' r0.
  destruct (purge_events _ _ _) as [[tab r]|]; [|done]. by intros [= <- <-].
Qed.

Lemma quiet_remain c' type : quiet (tcpTimerRemain c' type).
Proof. unfold tcpTimerRemain. quiet. Qed.

End quiets.
#[export] Hint Resolve quiet_raise quiet_clear quiet_sched quiet_purge quiet_remain : quiet.

(** Updates of the block that keep the state *)
Lemma state_window t : tc_state (conn (tcpSendWindow t).1) = tc_state (conn t).
Proof. unfold tcpSendWindow. by repeat case_match. Qed.

Lemma state_store n M data start i t : tc_state (conn (store_loop n M data start i t)) = tc_state (conn t).
Proof. revert i t. induction n as [|n IH]; intros i t; [done|]. simpl. by rewrite IH. Qed.

Lemma state_gather fuel t t' b : gather_loop fuel t = Some (t', b) -> tc_state (conn t') = tc_state (conn t).
Proof.
  revert t. induction fuel as [|fuel IH]; intros t; [done|]. simpl. case_match; [|by intros [= <- <-]].
  destruct (imark (inb t) !! _) as [[]|]; simpl; [|by intros [= <- <-]|done].
  case_match; [by intros [= <- <-]|]. intros H'. by apply IH in H'.
Qed.

Lemma state_data M data start seglen control t t' k b :
  store_data M data start seglen control t = Some (t', k, b) -> tc_state (conn t') = tc_state (conn t).
Proof.
  unfold store_data. case_match; [|intros [= <- <- <-]; apply state_store].
  destruct (gather_loop _ _) as [[t1 fin]|] eqn:E; [|done]. intros [= <- <- <-]. apply state_gather in E.
  rewrite E. apply (state_store _ M data start 0 t).
Qed.

Lemma state_segment M tcp h seglen t t' k b n :
  store_segment M tcp h seglen t = Some (t', k, b, n) -> tc_state (conn t') = tc_state (conn t).
Proof.
  unfold store_segment. repeat case_match; simplify_eq/=.
  all: destruct (store_data _ _ _ _ _ _) as [[[t1 k1] b1]|] eqn:E; [|done]; intros [= <- <- <- <-]; by eapply state_data.
Qed.

Lemma state_grow t t' : grow_window t = Some t' -> tc_state (conn t') = tc_state (conn t).
Proof. unfold grow_window. repeat case_match; by intros [= <-]. Qed.

Lemma state_estimate rtt t : tc_state (conn (estimate rtt t)) = tc_state (conn t).
Proof. unfold estimate. destruct (sndrtt (sndv t) =? 0); cbn zeta; by case_match. Qed.

Lemma state_shrink first t : tc_state (conn (shrink_window first t)) = tc_state (conn t).
Proof. unfold shrink_window. destruct first; cbn zeta; by repeat case_match. Qed.
#[export] Hint Resolve state_estimate state_shrink : quiet.

Section quiets2.
Context (Ed : tcpstate -> tcpstate -> Prop) (c : Z) (R : option tcpstate -> option tcpstate -> Prop).
Context (ntcp : Z) (devwrite : Z -> Z -> Z -> prog netst Z) (snoopCapture : Z -> Z -> prog netst Z) (gaddr : netaddr).
Local Notation quiet := (quiet Ed c R).

Lemma quiet_send c' ctrl seqnum acknum start len :
  quiet (tcpSend devwrite snoopCapture gaddr c' ctrl seqnum acknum start len).
Proof.
  unfold tcpSend. destruct (if has _ TCP_CTRL_SYN then _ else _). quiet.
  apply quiet_with. intros _ t t' r. intros [= H]. by rewrite <- (state_window t), H.
Qed.
Hint Resolve quiet_send : quiet.

Lemma quiet_sendack c' : quiet (tcpSendAck devwrite snoopCapture gaddr c').
Proof. unfold tcpSendAck. quiet. Qed.
Lemma quiet_sendsyn c' : quiet (tcpSendSyn ntcp devwrite snoopCapture gaddr c').
Proof. unfold tcpSendSyn. quiet. Qed.
Lemma quiet_rxt c' : quiet (ensure_rxt ntcp c').
Proof. unfold ensure_rxt. quiet. Qed.
Hint Resolve quiet_rxt : quiet.
Lemma quiet_senddata_loop fuel c' a b d : quiet (senddata_loop devwrite snoopCapture gaddr fuel c' a b d).
Proof. revert a b d. induction fuel as [|fuel IH]; intros a b d; cbn [senddata_loop]; quiet. Qed.
Hint Resolve quiet_senddata_loop : quiet.
Lemma quiet_senddata c' : quiet (tcpSendData ntcp devwrite snoopCapture gaddr c').
Proof. unfold tcpSendData. quiet. Qed.

Lemma quiet_opts pkt c' : quiet (tcpRecvOpts pkt c').
Proof.
  unfold tcpRecvOpts. quiet. apply quiet_with. intros M t t' r. destruct (opts_loop _ _ _ _ _); [|done].
  by intros [= <- <-].
Qed.
Lemma quiet_rtt c' : quiet (tcpRecvRtt c').
Proof.
  unfold tcpRecvRtt. quiet. apply quiet_with. intros _ t t' r. destruct (grow_window t) eqn:E; [|done].
  intros [= <- <-]. by apply state_grow.
Qed.
Hint Resolve quiet_rtt : quiet.
Lemma quiet_recv_ack c' h : quiet (recv_ack ntcp c' h).
Proof. unfold recv_ack. quiet. Qed.
Lemma quiet_recv_window c' h : quiet (recv_window c' h).
Proof. unfold recv_window. quiet. Qed.
Hint Resolve quiet_recv_ack quiet_recv_window : quiet.
Lemma quiet_recvack pkt c' : quiet (tcpRecvAck ntcp pkt c').
Proof. unfold tcpRecvAck. quiet. Qed.
Lemma quiet_recv_data c' tcp seglen : quiet (recv_data c' tcp seglen).
Proof.
  unfold recv_data. quiet. apply quiet_with. intros M t t' r.
  destruct (store_segment _ _ _ _ _) as [[[[t1 k] b] n]|] eqn:E; [|done]. intros [= <- <-]. by eapply state_segment.
Qed.
Lemma quiet_setup c' : quiet (tcpSetup c').
Proof. unfold tcpSetup, tcpIss. quiet. by apply quiet_modify. Qed.
Lemma quiet_allocPort : quiet (allocPort ntcp).
Proof.
  unfold allocPort. quiet; [|by apply quiet_modify].
  generalize (S (Z.to_nat ((ntcp + 2) * (ntcp + 2)))), 0, (u16 ((a + 1) mod (TCP_PMAX - TCP_PSTART))). intros fuel.
  induction fuel as [|fuel IH]; intros i port; cbn [allocPort_loop]; quiet.
Qed.
Lemma quiet_release s : quiet (release s).
Proof. unfold release. quiet. Qed.
Lemma quiet_queue_fin c' : quiet (queue_fin c').
Proof. unfold queue_fin. quiet. Qed.

End quiets2.
#[export] Hint Resolve quiet_send quiet_sendack quiet_sendsyn quiet_senddata quiet_opts quiet_recvack quiet_recv_data
  quiet_setup quiet_allocPort quiet_release quiet_queue_fin : quiet.

(** ** The operations move along the edges *)

(** Any result, in any state *)
Definition Any {A} (a : A) (v : option tcpstate) : Prop := True.

Section rules.
Context (Ed : tcpstate -> tcpstate -> Prop) (c : Z) (R : option tcpstate -> option tcpstate -> Prop).

Lemma moves_any {A} (p : prog tcpst A) v : quiet Ed c R p -> moves Ed c R Any p v.
Proof. intros H. by apply H. Qed.

(** What follows a program that may have lost the mutex leaves the state alone. *)
Lemma moves_seq {A B} (p : prog tcpst A) (g : A -> prog tcpst B) v :
  moves Ed c R Any p v -> (forall a v, moves Ed c R Any (g a) v) -> moves Ed c R Any (p ≫= g) v.
Proof. intros Hp Hg. apply moves_bind. eapply moves_mono; [|exact Hp]. intros a v' _. apply Hg. Qed.

Lemma moves_tb {B} (g : tcb -> prog tcpst B) Q v :
  (forall t, v = Some (tc_state (conn t)) -> moves Ed c R Q (g t) v) -> moves Ed c R Q (tb c ≫= g) v.
Proof.
  intros H. apply moves_bind. intros s Hs. unfold state_of in Hs.
  destruct (tcptab s !! c) as [t|]; [|done]. simpl in *. by apply H.
Qed.

Lemma moves_upd (f : tcb -> tcb) s' (Q : unit -> option tcpstate -> Prop) v :
  (forall t, tc_state (conn (f t)) = s') -> (forall s, v = Some s -> s = s' \/ Ed s s') ->
  Q tt (Some s') -> moves Ed c R Q (upd_tb c f) v.
Proof.
  intros Hf Hs HQ s Hv. unfold state_of in Hv. destruct (tcptab s !! c) as [t|] eqn:E; [|done]. simpl in Hv.
  assert (Hv' : state_of c (set_tcptab (<[c := f t]> (tcptab s)) s) = Some s')
    by (unfold state_of; simpl; rewrite lookup_insert_eq; simpl; by rewrite Hf).
  simpl. rewrite Hv'. split; [|done]. destruct (Hs (tc_state (conn t))) as [<-|He]; [done|by left|].
  right. exists (tc_state (conn t)), s'. done.
Qed.

(** [tcpFree] when the others may change the state meanwhile *)
Lemma moves_free_any v : (forall s, Ed s TCP_CLOSED) -> moves Ed c R Any (tcpFree c) v.
Proof.
  intros He. unfold tcpFree. apply moves_seq; [apply moves_any; quiet|]. intros t v1.
  case_match; [apply moves_any; quiet|].
  do 7 (apply moves_seq; [apply moves_any; quiet|intros ? ?]).
  do 2 (apply moves_seq; [apply (moves_upd _ TCP_CLOSED); [done|intros ? _; right; apply He|done]|intros ? ?]).
  apply moves_any. quiet.
Qed.

End rules.

(** While the state is stable: nobody else changes it. *)
Lemma rtc_same {A} (x y : A) : rtc eq x y -> y = x.
Proof. intros H. induction H; congruence. Qed.

Section stable.
Context (Ed : tcpstate -> tcpstate -> Prop) (c : Z).

Lemma moves_then {A B} (p : prog tcpst A) (g : A -> prog tcpst B) Q v :
  quiet Ed c eq p -> (forall a, moves Ed c eq Q (g a) v) -> moves Ed c eq Q (p ≫= g) v.
Proof. intros Hp Hg. apply moves_bind, Hp. intros a v' Hv. rewrite (rtc_same _ _ Hv). apply Hg. Qed.

Lemma moves_set {B} s s' (g : unit -> prog tcpst B) Q v :
  v = Some s -> s = s' \/ Ed s s' -> moves Ed c eq Q (g tt) (Some s') ->
  moves Ed c eq Q (upd_tb c (set_tc_state s') ≫= g) v.
Proof. intros -> He Hg. apply moves_bind, (moves_upd Ed c eq _ s'); [done| |done]. by intros ? [= <-]. Qed.

Lemma moves_free v : (forall s, v = Some s -> s = TCP_CLOSED \/ Ed s TCP_CLOSED) -> moves Ed c eq Any (tcpFree c) v.
Proof.
  intros He. unfold tcpFree. apply moves_tb. intros t _. case_match; [apply moves_any; quiet|].
  do 7 (apply moves_then; [by quiet|intros ?]). apply moves_bind, (moves_upd Ed c eq _ TCP_CLOSED); [done|exact He|].
  eapply moves_set; [done|by left|]. apply moves_any. quiet.
Qed.

(** A larger diagram *)
Lemma moves_weaken {A} (Ed' : tcpstate -> tcpstate -> Prop) (p : prog tcpst A) (Q : A -> option tcpstate -> Prop) v :
  (forall s s', Ed s s' -> Ed' s s') -> moves Ed c eq Q p v -> moves Ed' c eq Q p v.
Proof.
  intros He. revert v. induction p as [a| | |f IH|s p IH|p IH]; intros v; simpl; auto.
  intros [[H|(s1 & s2 & H1 & H2 & H3)] Hp]; (split; [|by apply IH]); [by left|right; eauto 6].
Qed.

(** A state the diagram does not lead to *)
Lemma moves_avoids {A} (p : prog tcpst A) v x : (forall s, ~ Ed s x) ->
  moves Ed c eq Any p v -> v <> Some x -> moves Ed c eq (fun _ v => v <> Some x) p v.
Proof.
  intros He. revert v. induction p as [a| | |f IH|s p IH|p IH]; intros v; simpl; auto.
  - intros [H Hp] Hv. split; [done|]. apply IH; [done|]. destruct H as [->|(s1 & s2 & -> & -> & H)]; [done|].
    intros [= ->]. by apply (He s1).
  - intros H Hv v' <-. by apply IH; [apply H|].
Qed.

End stable.

(** The rules one after the other; [edge] closes what a change of state leaves. *)
Create HintDb moves.

Ltac edge := first [by left | right; by constructor | right; left; by constructor | right; right; by constructor
  | right; split_and!; [left; by constructor|done|done] | right; split_and!; [right; by constructor|done|done]].
Ltac moves :=
  repeat match goal with
  | |- moves _ _ _ _ (tb _ ≫= _) _ => apply moves_tb; intros ? ?; simplify_eq
  | |- moves _ _ _ _ (upd_tb _ (set_tc_state _) ≫= _) _ => eapply moves_set; [by eauto|edge|]
  | |- moves _ _ _ _ (upd_tb _ (set_tc_state ?s)) _ =>
      apply (moves_upd _ _ _ _ s); [done|by intros ? [= <-]; edge|done]
  | |- moves _ _ _ Any _ _ => solve [apply moves_any; quiet]
  | |- moves _ _ _ _ (_ ≫= _) _ => apply moves_then; [by quiet|intros ?]
  | |- moves _ _ _ Any _ _ => solve [auto with moves nocore]
  | |- moves _ _ _ Any (_ ≫= _) _ => apply moves_seq; [solve [auto with moves nocore]|intros ? ?]
  | |- moves _ _ _ Any ((if _ then _ else _) ≫= _) _ => apply moves_seq; [|intros ? ?]
  | |- moves _ _ _ _ (if ?b then _ else _) _ => destruct b
  end.

(** When the others may change the state too *)
Ltac anyway :=
  repeat match goal with
  | |- moves _ _ _ Any _ _ => solve [apply moves_any; quiet | auto with moves nocore]
  | |- moves _ _ _ Any (_ ≫= _) _ => apply moves_seq; [|intros ? ?]
  | |- moves _ _ _ Any (if ?b then _ else _) _ => destruct b
  | |- moves _ _ _ Any (match ?x with _ => _ end) _ => destruct x
  end.

Section diagram.
Context (ntcp : Z) (devwrite : Z -> Z -> Z -> prog netst Z) (snoopCapture : Z -> Z -> prog netst Z) (gaddr : netaddr).
Context (c : Z).

(** Most of the handling of a segment neither closes the connection nor makes it listen. *)
Definition inner (s s' : tcpstate) : Prop := may Segment s s' /\ s' <> TCP_LISTEN /\ s' <> TCP_CLOSED.

Lemma moves_fin_state v : moves inner c eq Any (fin_state ntcp c) v.
Proof.
  unfold fin_state. apply moves_tb. intros t ->. destruct (tc_state (conn t)); moves.
Qed.
Hint Resolve moves_fin_state : moves.

Lemma moves_recv_fin h seglen v : moves inner c eq Any (recv_fin ntcp c h seglen) v.
Proof. unfold recv_fin. moves. Qed.
Hint Resolve moves_recv_fin : moves.

Lemma moves_recvdata pkt v : moves inner c eq Any (tcpRecvData ntcp devwrite snoopCapture gaddr pkt c) v.
Proof. unfold tcpRecvData. moves. Qed.
Hint Resolve moves_recvdata : moves.

Lemma moves_synsent pkt : moves inner c eq Any (tcpRecvSynsent ntcp devwrite snoopCapture gaddr pkt c) (Some TCP_SYNSENT).
Proof. unfold tcpRecvSynsent, synsent_syn. moves. Qed.

Lemma moves_other_ack pkt h v : moves inner c eq Any (other_ack ntcp pkt c h) v.
Proof. unfold other_ack. apply moves_tb. intros t ->. destruct (tc_state (conn t)); moves. Qed.

(** A handler that asks for the connection to be closed has not left it listening. *)
Definition closable (r : Z) (v : option tcpstate) : Prop := r = TCP_ERR_RESET -> v <> Some TCP_LISTEN.
Definition goes_on (r : option Z) (v : option tcpstate) : Prop :=
  match r with Some r => closable r v | None => v <> Some TCP_LISTEN end.

Lemma inner_avoids {A} (p : prog tcpst A) v : moves inner c eq Any p v -> v <> Some TCP_LISTEN ->
  moves (may Segment) c eq (fun _ v => v <> Some TCP_LISTEN) p v.
Proof.
  intros H Hv. eapply (moves_weaken inner); [by intros ? ? [? _]|]. apply moves_avoids; [|done..]. by intros s (_ & ? & _).
Qed.

Lemma inner_closable (p : prog tcpst Z) v : moves inner c eq Any p v -> v <> Some TCP_LISTEN ->
  moves (may Segment) c eq closable p v.
Proof. intros H Hv. eapply moves_mono; [|by apply inner_avoids]. by intros r w Hw _. Qed.

Lemma moves_listen pkt src :
  moves (may Segment) c eq closable (tcpRecvListen ntcp devwrite snoopCapture gaddr pkt c src) (Some TCP_LISTEN).
Proof.
  unfold tcpRecvListen. do 2 (apply moves_then; [by quiet|intros ?]).
  repeat match goal with |- moves _ _ _ _ (if ?b then _ else _) _ => destruct b end; try done.
  - by apply moves_then; [by quiet|].
  - do 11 (apply moves_then; [by quiet|intros ?]). eapply moves_set; [done|edge|].
    apply inner_closable; [apply moves_recvdata|done].
Qed.

Lemma moves_other_rst v : v <> Some TCP_LISTEN -> moves (may Segment) c eq goes_on (other_rst c) v.
Proof.
  intros Hv. unfold other_rst. apply moves_tb. intros t ->. destruct (tc_state (conn t)) eqn:Et; try done.
  do 2 (apply moves_then; [by quiet|intros ?]). apply moves_tb. intros t' _. case_match; [|done].
  eapply moves_set; [done|edge|done].
Qed.

Lemma moves_other pkt v : v <> Some TCP_LISTEN ->
  moves (may Segment) c eq closable (tcpRecvOther ntcp devwrite snoopCapture gaddr pkt c) v.
Proof.
  intros Hv. unfold tcpRecvOther. do 5 (apply moves_then; [by quiet|intros ?]).
  destruct (tcpRecvValid _ _ _ _) as [[ok control] len]. do 3 (apply moves_then; [by quiet|intros ?]).
  destruct (negb ok); [case_match; [done|by apply moves_then; [by quiet|]]|].
  apply moves_bind. eapply (moves_mono _ _ _ _ goes_on); [|case_match; [by apply moves_other_rst|done]].
  intros [r|] w Hw; [done|]. case_match; [apply moves_then; [by quiet|intros _ _; exact Hw]|]. case_match; [done|].
  apply moves_bind. eapply moves_mono; [|by apply inner_avoids; [apply moves_other_ack|]].
  intros [r|] w' Hw'; [by intros _|]. apply inner_closable; [apply moves_recvdata|done].
Qed.

Lemma moves_recv_state pkt src dst v :
  moves (may Segment) c eq Any (tcpRecv_state ntcp devwrite snoopCapture gaddr pkt c src dst) v.
Proof.
  unfold tcpRecv_state. apply moves_then; [by quiet|intros _]. apply moves_tb. intros t ->.
  apply moves_bind. eapply (moves_mono _ _ _ _ closable).
  - intros r w Hw. do 2 (apply moves_then; [by quiet|intros ?]). destruct (Z.eqb_spec r TCP_ERR_RESET) as [Hr|_]; [|by apply moves_any; quiet].
    apply moves_then; [by quiet|intros ?]. case_match; [done|]. apply moves_free. intros s ->. right. left. constructor.
    intros ->. by apply (Hw Hr).
  - destruct (tc_state (conn t)); lazymatch goal with
      | |- moves _ _ _ _ (tcpRecvListen _ _ _ _ _ _ _) _ => apply moves_listen
      | |- moves _ _ _ _ (tcpRecvSynsent _ _ _ _ _ _) _ => apply inner_closable; [apply moves_synsent|done]
      | |- moves _ _ _ _ (tcpRecvOther _ _ _ _ _ _) _ => by apply moves_other
      | |- _ => done
      end.
Qed.

Lemma moves_openactive ev s : may ev s TCP_SYNSENT \/ s = TCP_SYNSENT ->
  moves (may ev) c eq (fun r v => v = Some s \/ r <> SYSERR) (tcpOpenActive ntcp devwrite snoopCapture gaddr c) (Some s).
Proof.
  intros Hs. unfold tcpOpenActive. apply moves_tb. intros t _. case_match; [by left|].
  apply moves_then; [by quiet|intros ?]. case_match; [by left|].
  eapply moves_set; [done|tauto|by right].
Qed.

Lemma moves_open num localip remoteip localpt remotept mode v :
  moves (may Open) c eq Any (open_checked ntcp devwrite snoopCapture gaddr c num localip remoteip localpt remotept mode) v.
Proof.
  unfold open_checked, open_locked. apply moves_then; [by quiet|intros _]. apply moves_tb. intros t ->.
  destruct (negb _ && negb _) eqn:E; [by apply moves_any; quiet|].
  assert (Hs : tc_state (conn t) = TCP_CLOSED \/ tc_state (conn t) = TCP_LISTEN)
    by (rewrite andb_false_iff, !negb_false_iff, !bool_decide_eq_true in E; done).
  clear E. destruct localip; [|by apply moves_any; quiet].
  do 8 (apply moves_then; [by quiet|intros ?]).
  assert (Hf : moves (may Open) c eq Any (tcpFree c;; mret false) (Some (tc_state (conn t)))).
  { apply moves_seq; [|done]. apply moves_free. intros s [= <-]. destruct Hs as [-> | ->]; edge. }
  case_match; [done|]. case_match; [destruct Hs as [-> | ->]; moves|]. case_match; [|done].
  apply moves_bind. eapply moves_mono; [|apply moves_openactive; left; left; destruct Hs as [-> | ->]; constructor].
  intros r w [->|Hr]; [case_match; done|]. by destruct (Z.eqb_spec r SYSERR).
Qed.

Lemma moves_close v : moves (may Close) c eq Any (close_locked ntcp devwrite snoopCapture gaddr c) v.
Proof.
  assert (Hf : forall s, tcp_edge Close s TCP_CLOSED -> moves (may Close) c eq Any (tcpFree c;; mret true) (Some s)).
  { intros s Hs. apply moves_seq; [|done]. apply moves_free. intros ? [= <-]. right. by left. }
  unfold close_locked, close_state. apply moves_seq; [|intros; moves].
  apply moves_tb. intros t ->. destruct (tc_state (conn t)); moves; apply Hf; constructor.
Qed.

Lemma moves_write v : moves (may Send) c eq Any (write_check ntcp devwrite snoopCapture gaddr c) v.
Proof.
  unfold write_check. apply moves_tb. intros t ->. destruct (tc_state (conn t)); moves.
  apply moves_seq; [eapply moves_mono; [|apply moves_openactive; by right]; done|intros; moves].
Qed.

Lemma moves_trigger R type v : moves (may Timer) c R Any (tcpTimerTrigger ntcp devwrite snoopCapture gaddr type c) v.
Proof.
  assert (Hf : forall w, moves (may Timer) c R Any (tcpFree c) w).
  { intros w. apply moves_free_any. intros s. left. constructor. }
  unfold tcpTimerTrigger, tcpSendRxt, tcpSendPersist. anyway; apply Hf.
Qed.

(** C27: tcp_state_diagram. A connection changes state only along the state diagram of TCP (RFC 793), each operation along the edges of its
    own event: the handler of a received segment, an open, a close and the check before a write, while the mutex of the connection keeps
    the other threads from changing the state, for every segment, argument and state; an expired timer, whatever the other threads do.
    Beside the diagram the code makes two changes, listed in [deviation]: an acknowledged FIN takes CLOSING to FINWT2 instead of TIMEWT,
    and a failed open closes the connection it found listening.  The diagram lets a segment close the connection in every state
    but LISTEN, by a reset or as the last acknowledgement, and a timer in every state. *)
Theorem tcp_state_diagram v :
  (forall pkt src dst, moves (may Segment) c eq Any (tcpRecv_state ntcp devwrite snoopCapture gaddr pkt c src dst) v) /\
  (forall num localip remoteip localpt remotept mode,
    moves (may Open) c eq Any (open_checked ntcp devwrite snoopCapture gaddr c num localip remoteip localpt remotept mode) v) /\
  moves (may Close) c eq Any (close_locked ntcp devwrite snoopCapture gaddr c) v /\
  moves (may Send) c eq Any (write_check ntcp devwrite snoopCapture gaddr c) v /\
  (forall R type, moves (may Timer) c R Any (tcpTimerTrigger ntcp devwrite snoopCapture gaddr type c) v).
Proof.
  split_and!; intros; [apply moves_recv_state|apply moves_open|apply moves_close|apply moves_write|apply moves_trigger].
Qed.

End diagram.
