(* ===== verification/Bytes.v ===== *)
(** * Single bytes of memory, and running programs that load and store them *)

From S2P Require Import Prelude Prog Queue Interrupt Memory Kernel CString CStringSpec Sys NetAddr NetAddrSpec Net ArpSpec Ipv4.

Local Arguments Z.eqb : simpl never.

(** ** Loads after stores *)

Lemma word_of a : exists w i, a = 4 * w + i /\ a mod 4 = i /\ 0 <= i < 4.
Proof. exists (a / 4), (a mod 4). pose proof (Z.mod_pos_bound a 4). pose proof (Z.div_mod a 4). lia. Qed.

Lemma byte_bits x i n : 0 <= n < 8 -> 0 <= i -> Z.testbit (Z.land (Z.shiftr x (8 * i)) 0xff) n = Z.testbit x (n + 8 * i).
Proof.
  intros Hn Hi. change 0xff with (Z.ones 8). rewrite Z.land_spec, Z.shiftr_spec, Z.ones_spec_low by lia. apply andb_true_r.
Qed.

Lemma byte_high x n : 8 <= n -> Z.testbit (Z.land x 0xff) n = false.
Proof. intros Hn. change 0xff with (Z.ones 8). rewrite Z.land_spec, Z.ones_spec_high by lia. apply andb_false_r. Qed.

Lemma u8_high v n : 8 <= n -> Z.testbit (u8 v) n = false.
Proof. intros Hn. unfold u8. change 256 with (2 ^ 8). apply Z.mod_pow2_bits_high. lia. Qed.

(** Bit [m] of the word that [stb] writes for the byte at offset [i] *)
Lemma stb_bits x v i m : 0 <= i -> 0 <= m ->
  Z.testbit (Z.lor (Z.land x (Z.lnot (Z.shiftl 0xff (8 * i)))) (Z.shiftl (u8 v) (8 * i))) m
  = if decide (8 * i <= m < 8 * i + 8) then Z.testbit (u8 v) (m - 8 * i) else Z.testbit x m.
Proof.
  intros Hi Hm. rewrite Z.lor_spec, Z.land_spec, Z.lnot_spec, !Z.shiftl_spec by lia. change 0xff with (Z.ones 8).
  case_decide as H.
  - rewrite Z.ones_spec_low by lia. simpl. by rewrite andb_false_r.
  - destruct (Z_lt_le_dec m (8 * i)).
    + rewrite !(Z.testbit_neg_r _ (m - 8 * i)) by lia. simpl. by rewrite andb_true_r, orb_false_r.
    + rewrite Z.ones_spec_high, u8_high by lia. simpl. by rewrite andb_true_r, orb_false_r.
Qed.

Lemma ldb_stb_eq M a v : ldb (stb M a v) a = u8 v.
Proof.
  unfold ldb, stb. rewrite ld_st, decide_True by done. pose proof (Z.mod_pos_bound a 4).
  apply Z.bits_inj'. intros n Hn. destruct (Z_lt_le_dec n 8).
  - rewrite byte_bits, stb_bits, decide_True by lia. f_equal. lia.
  - by rewrite byte_high, u8_high.
Qed.

Lemma ldb_stb_at M a v b : a = b -> ldb (stb M a v) b = u8 v.
Proof. intros <-. apply ldb_stb_eq. Qed.

Lemma ldb_stb_ne M a v b : a <> b -> ldb (stb M a v) b = ldb M b.
Proof.
  intros Hne. unfold ldb, stb. rewrite ld_st. case_decide as E; [|done]. rewrite <- E.
  pose proof (Z.mod_pos_bound a 4). pose proof (Z.mod_pos_bound b 4).
  apply Z.bits_inj'. intros n Hn. destruct (Z_lt_le_dec n 8).
  - rewrite byte_bits, stb_bits, decide_False, byte_bits by lia. done.
  - by rewrite !byte_high.
Qed.

Lemma ld_st_eq M a v : ld (st M a v) a = v.
Proof. by rewrite ld_st, decide_True. Qed.

Lemma ldb_st_ne M w v a : w mod 4 = 0 -> ~ w <= a < w + 4 -> ldb (st M w v) a = ldb M a.
Proof.
  intros Hw Ha. unfold ldb. rewrite ld_st_ne; [done|]. destruct (word_of a) as (x & i & -> & -> & Hi).
  destruct (word_of w) as (y & j & -> & Hj & _). lia.
Qed.

Lemma ld_stb_ne M w v a : w mod 4 = 0 -> ~ w <= a < w + 4 -> ld (stb M a v) w = ld M w.
Proof.
  intros Hw Ha. unfold stb. apply ld_st_ne. destruct (word_of a) as (x & i & -> & -> & Hi).
  destruct (word_of w) as (y & j & -> & Hj & _). lia.
Qed.

(** Several bytes *)
Lemma ldb_stbs_ne M a l b : ~ a <= b < a + Z.of_nat (length l) -> ldb (stbs M a l) b = ldb M b.
Proof.
  revert M a. induction l as [|x l IH]; intros M a H; [done|]. simpl in *. rewrite IH by lia. apply ldb_stb_ne. lia.
Qed.

Lemma ldb_stbs M a l (i : nat) x : l !! i = Some x -> ldb (stbs M a l) (a + Z.of_nat i) = u8 x.
Proof.
  revert M a i. induction l as [|y l IH]; intros M a i H; [done|]. cbn [stbs]. destruct i as [|i]; simpl in H.
  - injection H as ->. rewrite ldb_stbs_ne by lia. apply ldb_stb_at. lia.
  - replace (a + Z.of_nat (S i)) with (a + 1 + Z.of_nat i) by lia. by apply IH.
Qed.

Lemma ld_stbs_ne M w l a : w mod 4 = 0 -> a + Z.of_nat (length l) <= w \/ w + 4 <= a -> ld (stbs M a l) w = ld M w.
Proof.
  intros Hw. revert M a. induction l as [|x l IH]; intros M a H; [done|]. simpl in *.
  rewrite IH by lia. apply ld_stb_ne; [done|lia].
Qed.

Lemma ldbs_ext M M' a n : (forall b, a <= b < a + Z.of_nat n -> ldb M b = ldb M' b) -> ldbs M a n = ldbs M' a n.
Proof.
  revert a. induction n as [|n IH]; intros a H; [done|]. cbn [ldbs]. f_equal; [apply H; lia|]. apply IH.
  intros b Hb. apply H. lia.
Qed.

Lemma u8_byte x : ubyte x -> u8 x = x.
Proof. unfold ubyte, u8. intros H. apply Z.mod_small. lia. Qed.

(** Bytes written back where they were read *)
Lemma ldb_restore M M' a n b : (~ a <= b < a + Z.of_nat n -> ldb M' b = ldb M b) ->
  ldb (stbs M' a (ldbs M a n)) b = ldb M b.
Proof.
  intros H. destruct (decide (a <= b < a + Z.of_nat n)) as [Hb|Hb].
  - assert (E : ldbs M a n !! Z.to_nat (b - a) = Some (ldb M b)).
    { destruct (ldbs M a n !! Z.to_nat (b - a)) as [x|] eqn:E;
        [|apply lookup_ge_None in E; rewrite ldbs_length in E; lia].
      f_equal. symmetry. replace b with (a + Z.of_nat (Z.to_nat (b - a))) at 1 by lia. by apply (ldbs_byte M a n _ (ldbs M a n)). }
    replace b with (a + Z.of_nat (Z.to_nat (b - a))) at 1 by lia. rewrite (ldb_stbs _ _ _ _ _ E). apply u8_byte, ldb_range.
  - rewrite ldb_stbs_ne by (rewrite ldbs_length; done). auto.
Qed.

(** The octets of a number of 16 bits in network order *)
Lemma hs2net_val x : 0 <= x < 65536 -> hs2net x = x / 256 + 256 * (x mod 256).
Proof.
  intros Hx. unfold hs2net. change 0xff with (Z.ones 8). rewrite !Z.land_ones, Z.shiftr_div_pow2, Z.shiftl_mul_pow2 by lia.
  change (2 ^ 8) with 256. rewrite (Z.mod_small (x / 256)) by (Z.div_mod_to_equations; lia).
  rewrite <- Z.add_nocarry_lor; [lia|]. apply Z.bits_inj'. intros i Hi. rewrite Z.land_spec, Z.bits_0.
  change 256 with (2 ^ 8) at 3. destruct (Z_lt_le_dec i 8).
  - rewrite Z.mul_pow2_bits_low by lia. apply andb_false_r.
  - rewrite <- (Z.mod_small (x / 256) (2 ^ 8)) by (change (2 ^ 8) with 256; Z.div_mod_to_equations; lia).
    rewrite Z.mod_pow2_bits_high by lia. done.
Qed.

Lemma hs2net_high x : 0 <= x < 65536 -> u8 (hs2net x) = x / 256.
Proof. intros Hx. rewrite hs2net_val by done. unfold u8. Z.div_mod_to_equations. lia. Qed.
Lemma hs2net_low x : 0 <= x < 65536 -> u8 (Z.shiftr (hs2net x) 8) = x mod 256.
Proof. intros Hx. rewrite hs2net_val, Z.shiftr_div_pow2 by lia. change (2 ^ 8) with 256. unfold u8. Z.div_mod_to_equations. lia. Qed.

(** Evaluates single bytes after stores to known places. *)
Ltac bytes :=
  repeat first [rewrite ldb_stb_ne by lia | rewrite ldb_stb_at by lia];
  rewrite ?hs2net_high, ?hs2net_low by lia; try done.

(** ** The checksum of bytes in memory *)

Lemma bytes_of_at M a n : bytes_at (bytes_of M a n) a (ldbs M a (Z.to_nat n)).
Proof.
  apply bytes_at_intro. intros i x Hx. unfold bytes_of. apply elem_of_list_to_map.
  - rewrite fst_zip by (rewrite length_seqZ, ldbs_length; done). apply NoDup_seqZ.
  - apply list_elem_of_lookup. exists i. apply lookup_zip_with_Some. exists (a + Z.of_nat i), x. split_and!; [done| |done].
    apply lookup_seqZ. apply lookup_lt_Some in Hx. rewrite ldbs_length in Hx. lia.
Qed.

Lemma chksum_of_spec M a n : 0 <= n < 2 ^ 17 -> chksum_of M a n = Some (65535 - ones (wsum (ldbs M a (Z.to_nat n)))).
Proof.
  intros Hn. unfold chksum_of. rewrite <- (netChksum_spec (bytes_of M a n) a); [|apply bytes_of_at|apply ldbs_bytes|].
  - by rewrite ldbs_length, Z2Nat.id by lia.
  - rewrite ldbs_length. lia.
Qed.

(** ** Running loads and stores *)

(** The state with memory [M] *)
Definition with_mem (n : netst) (M : memory) : netst := set_nkern (set_mem M (nkern n)) n.

Lemma with_mem_self n : with_mem n (mem (nkern n)) = n.
Proof. destruct n as [[[]] ]. done. Qed.

Section run.
Context {B : Type} (n : netst) (M : memory).

Lemma run_nload_bind a (g : Z -> prog netst B) : run (nload a ≫= g) (with_mem n M) = run (g (ld M a)) (with_mem n M).
Proof. done. Qed.
Lemma run_ld8_bind a (g : Z -> prog netst B) : run (ld8 a ≫= g) (with_mem n M) = run (g (ldb M a)) (with_mem n M).
Proof. done. Qed.
Lemma run_ld16_bind a (g : Z -> prog netst B) : run (ld16 a ≫= g) (with_mem n M) = run (g (ldh M a)) (with_mem n M).
Proof. done. Qed.
Lemma run_nputs_bind f (g : unit -> prog netst B) : run (nputs f ≫= g) (with_mem n M) = run (g tt) (with_mem n (f M)).
Proof. done. Qed.
Lemma run_nstore_bind a v (g : unit -> prog netst B) :
  run (nstore a v ≫= g) (with_mem n M) = run (g tt) (with_mem n (st M a v)).
Proof. done. Qed.
Lemma run_st8_bind a v (g : unit -> prog netst B) : run (st8 a v ≫= g) (with_mem n M) = run (g tt) (with_mem n (stb M a v)).
Proof. done. Qed.
Lemma run_st16_bind a v (g : unit -> prog netst B) : run (st16 a v ≫= g) (with_mem n M) = run (g tt) (with_mem n (sth M a v)).
Proof. done. Qed.
Lemma run_nchksum_bind a len (g : Z -> prog netst B) : 0 <= len < 2 ^ 17 ->
  run (nchksum a len ≫= g) (with_mem n M)
  = run (g (65535 - ones (wsum (ldbs M a (Z.to_nat len))))) (with_mem n M).
Proof. intros H. apply (run_readopt_bind (fun s => chksum_of (mem (nkern s)) a len)). by apply chksum_of_spec. Qed.
Lemma run_put_addr_bind p a len (g : unit -> prog netst B) : len <= Z.of_nat (length (na_addr a)) ->
  run (put_addr p a len ≫= g) (with_mem n M) = run (g tt) (with_mem n (stbs M p (take (Z.to_nat len) (na_addr a)))).
Proof. intros H. unfold put_addr, addr_bytes. by rewrite (proj2 (Z.ltb_ge _ _) H). Qed.
Lemma run_nif_bind p nf (g : netif -> prog netst B) : netiftab n !! p = Some nf ->
  run (nif p ≫= g) (with_mem n M) = run (g nf) (with_mem n M).
Proof. intros H. by apply (run_readopt_bind (fun n => netiftab n !! p)). Qed.

End run.
