(* ===== verification/Udp.v ===== *)
(** * UDP (include/udp.h, device/udp)

    The state is that of the network with the control blocks and the static variable of
    [allocPort].  A [struct udp *] is an index of [udptab].  The numbers [nudp] and
    [udp0] of the devices come from the configuration; a device is named by its minor
    number. *)

From S2P Require Import Prelude Prog Queue Interrupt Memory Kernel Thread Clock Semaphore CString Sys BufPool NetAddr Net Route Arp Ipv4.

(** ** Constants *)

Definition UDP_HDR_LEN : Z := 8.
Definition UDP_PSEUDO_LEN : Z := 12.
Definition UDP_MAX_PKTS : Z := 100.
Definition UDP_MAX_DATALEN : Z := 1024.
Definition UDP_PORT_TRACEROUTE : Z := 33434.
Definition UDP_FLAG_INCHDR : Z := 0x01.
Definition UDP_FLAG_NOBLOCK : Z := 0x02.
Definition UDP_FLAG_BINDFIRST : Z := 0x04.
Definition UDP_CTRL_ACCEPT : Z := 1.
Definition UDP_CTRL_BIND : Z := 2.
Definition UDP_CTRL_CLRFLAG : Z := 3.
Definition UDP_CTRL_SETFLAG : Z := 4.
Definition UDP_PSTART : Z := 10000.
Definition UDP_PMAX : Z := 65000.
Definition IPv4_PROTO_UDP : Z := 17.
Definition ICMP_PORT_UNR : Z := 3.

(** ** Control blocks *)

Inductive udpstate : Type := UDP_FREE | UDP_ALLOC | UDP_OPEN.

#[export] Instance udpstate_eq_dec : EqDecision udpstate.
Proof. solve_decision. Defined.

Record udp : Type := mkudp {
  u_dev : Z;
  u_in : list Z;
  u_inPool : Z;
  u_icount : Z;
  u_istart : Z;
  u_isem : Z;
  u_localpt : Z;
  u_remotept : Z;
  u_localip : netaddr;
  u_remoteip : netaddr;
  u_state : udpstate;
  u_flags : Z;
}.

(** A block after [bzero] *)
Definition udp_zero : udp :=
  mkudp 0 (replicate (Z.to_nat UDP_MAX_PKTS) NULL) 0 0 0 0 0 0 netaddr0 netaddr0 UDP_FREE 0.

Definition set_u_dev (v : Z) (u : udp) : udp :=
  mkudp v (u_in u) (u_inPool u) (u_icount u) (u_istart u) (u_isem u) (u_localpt u) (u_remotept u) (u_localip u)
    (u_remoteip u) (u_state u) (u_flags u).
Definition set_u_in (v : list Z) (u : udp) : udp :=
  mkudp (u_dev u) v (u_inPool u) (u_icount u) (u_istart u) (u_isem u) (u_localpt u) (u_remotept u) (u_localip u)
    (u_remoteip u) (u_state u) (u_flags u).
Definition set_u_inPool (v : Z) (u : udp) : udp :=
  mkudp (u_dev u) (u_in u) v (u_icount u) (u_istart u) (u_isem u) (u_localpt u) (u_remotept u) (u_localip u)
    (u_remoteip u) (u_state u) (u_flags u).
Definition set_u_icount (v : Z) (u : udp) : udp :=
  mkudp (u_dev u) (u_in u) (u_inPool u) v (u_istart u) (u_isem u) (u_localpt u) (u_remotept u) (u_localip u)
    (u_remoteip u) (u_state u) (u_flags u).
Definition set_u_istart (v : Z) (u : udp) : udp :=
  mkudp (u_dev u) (u_in u) (u_inPool u) (u_icount u) v (u_isem u) (u_localpt u) (u_remotept u) (u_localip u)
    (u_remoteip u) (u_state u) (u_flags u).
Definition set_u_isem (v : Z) (u : udp) : udp :=
  mkudp (u_dev u) (u_in u) (u_inPool u) (u_icount u) (u_istart u) v (u_localpt u) (u_remotept u) (u_localip u)
    (u_remoteip u) (u_state u) (u_flags u).
Definition set_u_localpt (v : Z) (u : udp) : udp :=
  mkudp (u_dev u) (u_in u) (u_inPool u) (u_icount u) (u_istart u) (u_isem u) v (u_remotept u) (u_localip u)
    (u_remoteip u) (u_state u) (u_flags u).
Definition set_u_remotept (v : Z) (u : udp) : udp :=
  mkudp (u_dev u) (u_in u) (u_inPool u) (u_icount u) (u_istart u) (u_isem u) (u_localpt u) v (u_localip u)
    (u_remoteip u) (u_state u) (u_flags u).
Definition set_u_localip (v : netaddr) (u : udp) : udp :=
  mkudp (u_dev u) (u_in u) (u_inPool u) (u_icount u) (u_istart u) (u_isem u) (u_localpt u) (u_remotept u) v
    (u_remoteip u) (u_state u) (u_flags u).
Definition set_u_remoteip (v : netaddr) (u : udp) : udp :=
  mkudp (u_dev u) (u_in u) (u_inPool u) (u_icount u) (u_istart u) (u_isem u) (u_localpt u) (u_remotept u) (u_localip u)
    v (u_state u) (u_flags u).
Definition set_u_state (v : udpstate) (u : udp) : udp :=
  mkudp (u_dev u) (u_in u) (u_inPool u) (u_icount u) (u_istart u) (u_isem u) (u_localpt u) (u_remotept u) (u_localip u)
    (u_remoteip u) v (u_flags u).
Definition set_u_flags (v : Z) (u : udp) : udp :=
  mkudp (u_dev u) (u_in u) (u_inPool u) (u_icount u) (u_istart u) (u_isem u) (u_localpt u) (u_remotept u) (u_localip u)
    (u_remoteip u) (u_state u) v.

Record udpst : Type := mkudpst {
  unet : netst;
  udptab : gmap Z udp;
  unextport : Z;
}.

Definition set_unet (v : netst) (s : udpst) : udpst := mkudpst v (udptab s) (unextport s).
Definition set_udptab (v : gmap Z udp) (s : udpst) : udpst := mkudpst (unet s) v (unextport s).
Definition set_unextport (v : Z) (s : udpst) : udpst := mkudpst (unet s) (udptab s) v.

#[export] Instance unet_part : Part unet set_unet.
Proof. split; [done| |done]. by intros []. Qed.

(** Calls of the network, of the services and of the kernel *)
Definition ucall {A} (p : prog netst A) : prog udpst A := zoom unet set_unet p.
Definition uscall {A} (p : prog sysst A) : prog udpst A := ucall (scall p).
Definition ukcall {A} (p : prog kernel A) : prog udpst A := ucall (ncall p).

(** [udptab[i]] and assignments to it *)
Definition ub (i : Z) : prog udpst udp := readopt (fun s => udptab s !! i).
Definition upd_ub (i : Z) (f : udp -> option udp) : prog udpst unit :=
  lift (fun s => u ← udptab s !! i; u ← f u; Some (set_udptab (<[i := u]> (udptab s)) s, tt)).
Definition set_ub (i : Z) (f : udp -> udp) : prog udpst unit := upd_ub i (fun u => Some (f u)).

(** Offsets of [struct udpPkt] *)
Definition udp_srcPort (p : Z) : Z := p.
Definition udp_dstPort (p : Z) : Z := p + 2.
Definition udp_len (p : Z) : Z := p + 4.
Definition udp_chksum (p : Z) : Z := p + 6.
Definition udp_data (p : Z) : Z := p + 8.

(** ** udpInit, udpAlloc, udpClose, udpControl *)

Definition udpInit (i : Z) : prog udpst Z := set_ub i (fun _ => udp_zero);; mret OK.

Fixpoint udpAlloc_loop (n : nat) (i udp0 : Z) : prog udpst (option Z) :=
  match n with
  | O => mret None
  | S n =>
      u ← ub i;
      if decide (u_state u = UDP_FREE) then set_ub i (set_u_state UDP_ALLOC);; mret (Some (u16 (i + udp0)))
      else udpAlloc_loop n (i + 1) udp0
  end.

Definition udpAlloc (nudp udp0 : Z) : prog udpst Z :=
  im ← ukcall k_disable;
  r ← udpAlloc_loop (Z.to_nat nudp) 0 udp0;
  ukcall (k_restore im);;
  mret (match r with Some d => d | None => u16 SYSERR end).

Definition udpClose (i : Z) : prog udpst Z :=
  im ← ukcall k_disable;
  u ← ub i;
  uscall (bfpfree (u_inPool u));;
  u ← ub i;
  ukcall (semfree (u_isem u));;
  set_ub i (fun _ => udp_zero);;
  set_ub i (set_u_state UDP_FREE);;
  ukcall (k_restore im);;
  mret OK.

(** The address that [arg2] points to is the argument [addr]. *)
Definition udpControl (i func arg1 : Z) (addr : option netaddr) : prog udpst Z :=
  if func =? UDP_CTRL_ACCEPT then
    set_ub i (set_u_localpt (u16 arg1));;
    match addr with
    | None => mret SYSERR
    | Some a => set_ub i (set_u_localip a);; mret OK
    end
  else if func =? UDP_CTRL_BIND then
    set_ub i (set_u_remotept (u16 arg1));;
    set_ub i (set_u_remoteip (default netaddr0 addr));;
    mret OK
  else if func =? UDP_CTRL_CLRFLAG then
    u ← ub i;
    set_ub i (set_u_flags (u8 (Z.land (u_flags u) (Z.lnot arg1))));;
    mret (u8 (Z.land (u_flags u) arg1))
  else if func =? UDP_CTRL_SETFLAG then
    u ← ub i;
    set_ub i (set_u_flags (u8 (Z.lor (u_flags u) arg1)));;
    mret (u8 (Z.land (u_flags u) arg1))
  else mret SYSERR.

(** ** udpOpen *)

Section port.
Variable nudp : Z.

(** The loop of [allocPort] at index [i].  It leaves a port that is taken, or that of
    traceroute, and starts again at index 1. *)
Fixpoint udp_allocPort_loop (fuel : nat) (i port : Z) : prog udpst Z :=
  match fuel with
  | O => Fault
  | S fuel =>
      if i <? nudp then
        u ← ub i;
        if (u_localpt u =? port + UDP_PSTART) || (UDP_PORT_TRACEROUTE =? port + UDP_PSTART)
        then udp_allocPort_loop fuel 1 (u16 ((port + 1) mod (UDP_PMAX - UDP_PSTART)))
        else udp_allocPort_loop fuel (i + 1) port
      else mret port
  end.

(** Each of the [nudp] ports in use, and that of traceroute, makes the search start
    again once. *)
Definition udp_allocPort : prog udpst Z :=
  port ← gets unextport;
  port ← udp_allocPort_loop (S (Z.to_nat ((nudp + 2) * (nudp + 2)))) 0 (u16 ((port + 1) mod (UDP_PMAX - UDP_PSTART)));
  modify (set_unextport port);;
  mret (u16 (port + UDP_PSTART)).

Definition udpOpen (i dev : Z) (localip remoteip : option netaddr) (localpt remotept : Z) : prog udpst Z :=
  im ← ukcall k_disable;
  u ← ub i;
  if decide (u_state u = UDP_OPEN) then ukcall (k_restore im);; mret SYSERR
  else
    set_ub i (set_u_state UDP_OPEN);;
    set_ub i (set_u_dev dev);;
    set_ub i (set_u_icount 0);;
    set_ub i (set_u_istart 0);;
    s ← ukcall (semcreate 0);
    set_ub i (set_u_isem s);;
    let localpt := u16 localpt in
    let remotept := u16 remotept in
    localpt ← (if localpt =? NULL then udp_allocPort else mret localpt);
    match localip with
    | None => ukcall (k_restore im);; mret SYSERR
    | Some localip =>
        (match remoteip with None => set_ub i (set_u_remoteip netaddr0) | Some _ => mret tt end);;
        set_ub i (set_u_localpt localpt);;
        set_ub i (set_u_remotept remotept);;
        set_ub i (set_u_localip localip);;
        (match remoteip with None => mret tt | Some a => set_ub i (set_u_remoteip a) end);;
        pool ← uscall (bfpalloc NET_MAX_PKTLEN UDP_MAX_PKTS);
        set_ub i (set_u_inPool pool);;
        set_ub i (set_u_flags 0);;
        ukcall (k_restore im);;
        mret OK
    end.

End port.

(** ** udpDemux *)

(** The conditions on entry [u] for the three levels of a match *)
Definition udp_match3 (u : udp) (dstpt srcpt : Z) (dstip srcip : netaddr) : option bool :=
  if (u_localpt u =? dstpt) && (u_remotept u =? srcpt) then
    a ← netaddrequal (u_remoteip u) srcip;
    if (a : bool) then netaddrequal (u_localip u) dstip else Some false
  else Some false.
Definition udp_match2 (u : udp) (dstpt srcpt : Z) (dstip : netaddr) : option bool :=
  if (u_localpt u =? dstpt) && (u_remotept u =? srcpt) then
    a ← netaddrequal (u_localip u) dstip; Some (a && (na_type (u_remoteip u) =? NULL))
  else Some false.
Definition udp_match1 (u : udp) (dstpt : Z) (dstip : netaddr) : option bool :=
  if (u_localpt u =? dstpt) && (u_remotept u =? NULL) then
    a ← netaddrequal (u_localip u) dstip; Some (a && (na_type (u_remoteip u) =? NULL))
  else Some false.

(** [if (level < k && ...)] *)
Definition better (k : Z) (cond : option bool) (i : Z) (best : option Z) (level : Z) : option (option Z * Z) :=
  if level <? k then c ← cond; Some (if (c : bool) then (Some i, k) else (best, level)) else Some (best, level).

Fixpoint udpDemux_loop (n : nat) (i : Z) (tab : gmap Z udp) (dstpt srcpt : Z) (dstip srcip : netaddr)
    (best : option Z) (level : Z) : option (option Z) :=
  match n with
  | O => Some best
  | S n =>
      u ← tab !! i;
      '(best, level) ←
        (if decide (u_state u = UDP_FREE) then Some (best, level)
         else
           '(best, level) ← better 3 (udp_match3 u dstpt srcpt dstip srcip) i best level;
           '(best, level) ← better 2 (udp_match2 u dstpt srcpt dstip) i best level;
           better 1 (udp_match1 u dstpt dstip) i best level);
      udpDemux_loop n (i + 1) tab dstpt srcpt dstip srcip best level
  end.

Definition udpDemux (nudp : Z) (tab : gmap Z udp) (dstpt srcpt : Z) (dstip srcip : netaddr) : option (option Z) :=
  udpDemux_loop (Z.to_nat nudp) 0 tab dstpt srcpt dstip srcip None 0.

(** ** Buffers *)

Definition udpGetbuf (i : Z) : prog udpst Z :=
  u ← ub i;
  udppkt ← uscall (bufget (u_inPool u));
  if udppkt =? SYSERR then mret SYSERR
  else ucall (nputs (fun M => zero M udppkt NET_MAX_PKTLEN));; mret udppkt.

Definition udpFreebuf (udppkt : Z) : prog udpst Z := uscall (buffree udppkt).

(** ** udpChksum

    The octets in front of the header are overwritten by the pseudo header and restored. *)
Definition udpChksum (pkt len : Z) (src dst : netaddr) : prog netst Z :=
  curr ← nload (pkt_curr pkt);
  let pseu := curr - UDP_PSEUDO_LEN in
  buf ← ngets (fun M => ldbs M pseu (Z.to_nat UDP_PSEUDO_LEN));
  put_addr pseu src IPv4_ADDR_LEN;;
  put_addr (pseu + 4) dst IPv4_ADDR_LEN;;
  st8 (pseu + 8) 0;;
  st8 (pseu + 9) IPv4_PROTO_UDP;;
  st16 (pseu + 10) (hs2net len);;
  sum ← nchksum pseu (len + UDP_PSEUDO_LEN);
  nputs (fun M => stbs M pseu buf);;
  mret sum.

(** ** The ring of stored packets *)

(** [in[(istart + icount) % UDP_MAX_PKTS] = tpkt; icount++] *)
Definition udp_store (tpkt : Z) (u : udp) : option udp :=
  let index := Z.rem (u_istart u + u_icount u) UDP_MAX_PKTS in
  if index <? 0 then None
  else Some (set_u_icount (i32 (u_icount u + 1)) (set_u_in (<[Z.to_nat index := tpkt]> (u_in u)) u)).

(** [istart = (istart + 1) % UDP_MAX_PKTS; icount--] *)
Definition udp_advance (u : udp) : udp :=
  set_u_icount (i32 (u_icount u - 1)) (set_u_istart (Z.rem (u_istart u + 1) UDP_MAX_PKTS) u).

Section udp.
Variable nudp : Z.
Variable devwrite : Z -> Z -> Z -> prog netst Z.
Variable snoopCapture : Z -> Z -> prog netst Z.
Variable gaddr : netaddr.
Variable garbage : list Z.

(** ** udpRecv *)

(** A packet for device [i], with interrupts disabled and the mask [im] to restore *)
Definition udp_deliver (i im pkt udppkt : Z) (src dst : netaddr) : prog udpst Z :=
  u ← ub i;
  if UDP_MAX_PKTS <=? u_icount u then ukcall (k_restore im);; ucall (netFreebuf pkt);; mret SYSERR
  else
    (if negb (Z.land UDP_FLAG_BINDFIRST (u_flags u) =? 0) then
       port ← ucall (ld16 (udp_srcPort udppkt));
       set_ub i (set_u_remotept port);;
       set_ub i (set_u_localip dst);;
       set_ub i (set_u_remoteip src);;
       set_ub i (fun u => set_u_flags (u8 (Z.land (u_flags u) (Z.lnot UDP_FLAG_BINDFIRST))) u)
     else mret tt);;
    tpkt ← udpGetbuf i;
    if tpkt =? SYSERR then ucall (netFreebuf pkt);; mret SYSERR
    else
      len ← ucall (ld16 (udp_len udppkt));
      ucall (memmove tpkt udppkt len);;
      upd_ub i (udp_store tpkt);;
      ukcall (k_restore im);;
      u ← ub i;
      ukcall (signal (u_isem u));;
      ucall (netFreebuf pkt);;
      mret OK.

Definition udpRecv (pkt : Z) (src dst : netaddr) : prog udpst Z :=
  udppkt ← ucall (nload (pkt_curr pkt));
  if udppkt =? NULL then ucall (netFreebuf pkt);; mret SYSERR
  else
    len ← ucall (ld16 (udp_len udppkt));
    sum ← ucall (udpChksum pkt (net2hs len) src dst);
    if negb (sum =? 0) then ucall (netFreebuf pkt);; mret SYSERR
    else
      let swap a := v ← ld16 a; st16 a (net2hs v) in
      ucall (swap (udp_srcPort udppkt));;
      ucall (swap (udp_dstPort udppkt));;
      ucall (swap (udp_len udppkt));;
      im ← ukcall k_disable;
      dstpt ← ucall (ld16 (udp_dstPort udppkt));
      srcpt ← ucall (ld16 (udp_srcPort udppkt));
      r ← readopt (fun s => udpDemux nudp (udptab s) dstpt srcpt dst src);
      match r with
      | None =>
          ukcall (k_restore im);;
          ucall (icmpDestUnreach devwrite snoopCapture gaddr garbage pkt ICMP_PORT_UNR);;
          ucall (netFreebuf pkt);;
          mret SYSERR
      | Some i => udp_deliver i im pkt udppkt src dst
      end.

(** ** udpRead: [buf] is the address of the caller's buffer. *)

Definition udpRead (i buf len : Z) : prog udpst Z :=
  im ← ukcall k_disable;
  u ← ub i;
  if negb (Z.land (u_flags u) UDP_FLAG_NOBLOCK =? 0) && (u_icount u <? 1) then ukcall (k_restore im);; mret 0
  else
    ukcall (k_restore im);;
    u ← ub i;
    ukcall (wait (u_isem u));;
    im ← ukcall k_disable;
    u ← ub i;
    udppkt ← (if u_istart u <? 0 then Fault else opt (u_in u !! Z.to_nat (u_istart u)));
    if udppkt =? NULL then ukcall (k_restore im);; mret SYSERR
    else
      set_ub i udp_advance;;
      l ← ucall (ld16 (udp_len udppkt));
      let '(count, data) :=
        if negb (Z.land UDP_FLAG_INCHDR (u_flags u) =? 0) then (l, udppkt) else (l - UDP_HDR_LEN, udp_data udppkt) in
      ukcall (k_restore im);;
      let count := if len <? u32 count then i32 len else count in
      ucall (memmove buf data (u32 count));;
      udpFreebuf udppkt;;
      mret count.

(** ** udpSend, udpWrite *)

Definition udpSend (i datalen buf : Z) : prog udpst Z :=
  let datalen := u16 datalen in
  pkt ← ucall netGetbuf;
  if pkt =? SYSERR then mret SYSERR
  else
    ucall (nstore (pkt_len pkt) (UDP_HDR_LEN + datalen));;
    curr ← ucall (nload (pkt_curr pkt));
    len ← ucall (nload (pkt_len pkt));
    ucall (nstore (pkt_curr pkt) (u32 (curr - Z.land (3 + len) (Z.lnot 0x03))));;
    udppkt ← ucall (nload (pkt_curr pkt));
    u ← ub i;
    ucall (st16 (udp_srcPort udppkt) (hs2net (u_localpt u)));;
    ucall (st16 (udp_dstPort udppkt) (hs2net (u_remotept u)));;
    len ← ucall (nload (pkt_len pkt));
    ucall (st16 (udp_len udppkt) (hs2net len));;
    ucall (st16 (udp_chksum udppkt) 0);;
    ucall (nputs (fun M => zero M (udp_data udppkt) datalen));;
    ucall (memmove (udp_data udppkt) buf datalen);;
    sum ← ucall (udpChksum pkt (u16 (UDP_HDR_LEN + datalen)) (u_localip u) (u_remoteip u));
    ucall (st16 (udp_chksum udppkt) sum);;
    result ← ucall (ipv4Send devwrite snoopCapture gaddr pkt (u_localip u) (Some (u_remoteip u)) IPv4_PROTO_UDP);
    r ← ucall (netFreebuf pkt);
    if r =? SYSERR then mret SYSERR else mret result.

(** [len] octets at [p] are left; every round but the last takes [UDP_MAX_DATALEN]. *)
Fixpoint udpWrite_loop (fuel : nat) (i p len : Z) : prog udpst Z :=
  match fuel with
  | O => Fault
  | S fuel =>
      if 0 <? len then
        if UDP_MAX_DATALEN <? len then
          r ← udpSend i UDP_MAX_DATALEN p;
          if r =? SYSERR then mret SYSERR
          else udpWrite_loop fuel i (p + UDP_MAX_DATALEN) (len - UDP_MAX_DATALEN)
        else
          r ← udpSend i len p;
          if r =? SYSERR then mret SYSERR else udpWrite_loop fuel i p 0
      else mret len
  end.

Definition udpWrite (i buf len : Z) : prog udpst Z :=
  u ← ub i;
  if (u_remotept u =? NULL) || (na_type (u_remoteip u) =? NULL) then mret SYSERR
  else udpWrite_loop (S (S (Z.to_nat (len / UDP_MAX_DATALEN)))) i buf len.

End udp.
