(* ===== verification/ChksumProps.v ===== *)
(** * The checksums of UDP and TCP: what the sender computes, the receiver accepts *)

From S2P Require Import Prelude Prog Queue Interrupt Memory Kernel CString CStringSpec Sys NetAddr NetAddrSpec Net NetProps ArpSpec Ipv4 Bytes Tcp TcpConn Udp.

Local Arguments Z.eqb : simpl never.
Local Arguments Z.ltb : simpl never.

(** Both functions have the same text, up to the number of the protocol. *)
Definition pseudo_chksum (proto pkt len : Z) (src dst : netaddr) : prog netst Z :=
  curr ← nload (pkt_curr pkt);
  let pseu := curr - 12 in
  buf ← ngets (fun M => ldbs M pseu 12);
  put_addr pseu src IPv4_ADDR_LEN;;
  put_addr (pseu + 4) dst IPv4_ADDR_LEN;;
  st8 (pseu + 8) 0;;
  st8 (pseu + 9) proto;;
  st16 (pseu + 10) (hs2net len);;
  sum ← nchksum pseu (len + 12);
  nputs (fun M => stbs M pseu buf);;
  mret sum.

Lemma udp_pseudo : udpChksum = pseudo_chksum IPv4_PROTO_UDP.
Proof. done. Qed.
Lemma tcp_pseudo : tcpChksum = pseudo_chksum IPv4_PROTO_TCP.
Proof. done. Qed.

(** A packet in memory with a segment of [len] octets at [curr], whose record is apart
    from the 12 octets in front of the segment. *)
Definition segment_room (M : memory) (pkt len curr : Z) : Prop :=
  pkt mod 4 = 0 /\ ld M (pkt_curr pkt) = curr /\ (curr <= pkt \/ pkt + sizeof_packet <= curr - 12) /\ 0 <= len < 65536.

(** The pseudo header *)
Definition pseudo_header (proto len : Z) (src dst : netaddr) : list Z :=
  (u8 <$> take 4 (na_addr src)) ++ (u8 <$> take 4 (na_addr dst)) ++ [0; u8 proto; len / 256; len mod 256].

Section pseudo.
Context (n : netst) (M : memory) (proto pkt len curr : Z) (src dst : netaddr).
Context (Hroom : segment_room M pkt len curr).
Context (Hs : (4 <= length (na_addr src))%nat) (Hd : (4 <= length (na_addr dst))%nat).

Let pseu : Z := curr - 12.

Definition pseudo_mem : memory :=
  let M := stbs M pseu (take 4 (na_addr src)) in
  let M := stbs M (pseu + 4) (take 4 (na_addr dst)) in
  sth (stb (stb M (pseu + 8) 0) (pseu + 9) proto) (pseu + 10) (hs2net len).

Lemma pseudo_bytes : ldbs pseudo_mem pseu 12 = pseudo_header proto len src dst.
Proof.
  pose proof Hroom as (_ & _ & _ & Hl). unfold pseudo_mem, pseudo_header.
  destruct (na_addr src) as [|s0 [|s1 [|s2 [|s3 s]]]]; simpl in Hs; [lia..|].
  destruct (na_addr dst) as [|d0 [|d1 [|d2 [|d3 d]]]]; simpl in Hd; [lia..|].
  cbn [take]. rewrite !take_0. cbn [stbs fmap list_fmap app ldbs]. unfold sth. repeat f_equal; bytes.
Qed.

Lemma pseudo_frame b : ~ pseu <= b < pseu + 12 -> ldb pseudo_mem b = ldb M b.
Proof.
  intros Hb. unfold pseudo_mem, sth. rewrite !ldb_stb_ne by lia. rewrite !ldb_stbs_ne; [done|..]; rewrite length_take; lia.
Qed.

Lemma pseudo_run : exists M', run (pseudo_chksum proto pkt len src dst) (with_mem n M)
    = Returned (with_mem n M') (65535 - ones (wsum (pseudo_header proto len src dst ++ ldbs M curr (Z.to_nat len)))) /\
  (forall b, ldb M' b = ldb M b) /\ ld M' (pkt_curr pkt) = curr.
Proof.
  pose proof Hroom as (Hp & Hc & Ha & Hl). exists (stbs pseudo_mem pseu (ldbs M pseu 12)). split_and!.
  - assert (E : ldbs pseudo_mem pseu (Z.to_nat (len + 12))
                = pseudo_header proto len src dst ++ ldbs M curr (Z.to_nat len)).
    { replace (Z.to_nat (len + 12)) with (12 + Z.to_nat len)%nat by lia. rewrite ldbs_app, pseudo_bytes. f_equal.
      replace (pseu + Z.of_nat 12) with curr by (unfold pseu; lia).
      apply ldbs_ext. intros b Hb. apply pseudo_frame. unfold pseu. lia. }
    unfold pseudo_chksum. rewrite run_nload_bind, Hc. cbv zeta. fold pseu.
    rewrite (run_gets_bind (fun n => ldbs (mem (nkern n)) pseu 12)).
    rewrite !run_put_addr_bind by (unfold IPv4_ADDR_LEN; lia). rewrite !run_st8_bind, run_st16_bind.
    rewrite run_nchksum_bind by lia. rewrite <- E. done.
  - intros b. apply ldb_restore. intros Hb. by apply pseudo_frame.
  - assert (Hw : pkt_curr pkt mod 4 = 0) by (unfold pkt_curr; clear - Hp; Z.div_mod_to_equations; lia).
    unfold sizeof_packet in Ha. unfold pseudo_mem, sth. rewrite ld_stbs_ne; [|done|rewrite ldbs_length; unfold pkt_curr, pseu; lia].
    rewrite !ld_stb_ne by (done || unfold pkt_curr, pseu; lia).
    rewrite !ld_stbs_ne; [done|done| |done|]; rewrite length_take; unfold pkt_curr, pseu; lia.
Qed.

End pseudo.

(** A segment with a 16-bit field at offset [off] *)
Lemma segment_split M curr off len : 0 <= off -> off + 2 <= len ->
  ldbs M curr (Z.to_nat len) = ldbs M curr (Z.to_nat off) ++ [ldb M (curr + off); ldb M (curr + off + 1)]
    ++ ldbs M (curr + off + 2) (Z.to_nat (len - off - 2)).
Proof.
  intros Ho Hl. replace (Z.to_nat len) with (Z.to_nat off + (2 + Z.to_nat (len - off - 2)))%nat by lia.
  rewrite !ldbs_app. replace (curr + Z.of_nat (Z.to_nat off)) with (curr + off) by lia. cbn [ldbs app].
  by replace (curr + off + Z.of_nat 2) with (curr + off + 2) by lia.
Qed.

Lemma segment_filled M M1 curr off len c : 0 <= off -> off + 2 <= len -> 0 <= c < 65536 -> (forall b, ldb M1 b = ldb M b) ->
  ldbs (sth M1 (curr + off) c) curr (Z.to_nat len)
  = ldbs M curr (Z.to_nat off) ++ [c mod 256; c / 256] ++ ldbs M (curr + off + 2) (Z.to_nat (len - off - 2)).
Proof.
  intros Ho Hl Hc HM. rewrite (segment_split _ _ off) by done. f_equal; [|f_equal].
  - apply ldbs_ext. intros b Hb. unfold sth. by rewrite !ldb_stb_ne by lia.
  - unfold sth. rewrite (ldb_stb_ne _ _ _ (curr + off)) by lia. rewrite !ldb_stb_eq.
    assert (Hc' : u8 (Z.shiftr c 8) = c / 256)
      by (clear - Hc; rewrite Z.shiftr_div_pow2 by lia; change (2 ^ 8) with 256; unfold u8; Z.div_mod_to_equations; lia).
    by rewrite Hc'.
  - apply ldbs_ext. intros b Hb. unfold sth. by rewrite !ldb_stb_ne by lia.
Qed.

Lemma even_pseudo proto len src dst : (4 <= length (na_addr src))%nat -> (4 <= length (na_addr dst))%nat ->
  length (pseudo_header proto len src dst) = 12%nat.
Proof. intros Hs Hd. unfold pseudo_header. rewrite !length_app, !length_fmap, !length_take, !(Nat.min_l 4) by lia. done. Qed.

Lemma pseudo_roundtrip proto off n M pkt len curr src dst : 0 <= off -> Z.even off = true -> off + 2 <= len ->
  segment_room M pkt len curr -> ldh M (curr + off) = 0 ->
  (4 <= length (na_addr src))%nat -> (4 <= length (na_addr dst))%nat ->
  exists c M1, run (pseudo_chksum proto pkt len src dst) (with_mem n M) = Returned (with_mem n M1) c /\
    (forall b, ldb M1 b = ldb M b) /\
    forall n' M' pkt' curr', segment_room M' pkt' len curr' ->
      ldbs M' curr' (Z.to_nat len) = ldbs (sth M1 (curr + off) c) curr (Z.to_nat len) ->
      exists M'', run (pseudo_chksum proto pkt' len src dst) (with_mem n' M') = Returned (with_mem n' M'') 0.
Proof.
  intros Ho He Hl Hroom Hz Hs Hd.
  destruct (pseudo_run n M proto pkt len curr src dst Hroom Hs Hd) as (M1 & Hrun & Hb & _).
  set (p := pseudo_header proto len src dst) in *. set (c := 65535 - _) in Hrun.
  assert (Hp : length p = 12%nat) by by apply even_pseudo.
  assert (Hw : 0 <= wsum (p ++ ldbs M curr (Z.to_nat len))).
  { apply wsum_bound, Forall_app. split; [|apply ldbs_bytes]. unfold p. rewrite <- (pseudo_bytes M proto pkt len curr) by done.
    apply ldbs_bytes. }
  assert (Hc : 0 <= c < 65536) by (pose proof (ones_range _ Hw); lia).
  exists c, M1. split_and!; [done|done|]. intros n' M' pkt' curr' Hroom' E.
  destruct (pseudo_run n' M' proto pkt' len curr' src dst Hroom' Hs Hd) as (M'' & Hrun' & _ & _).
  exists M''. rewrite Hrun'. f_equal. fold p. rewrite E, (segment_filled M) by done.
  assert (Ez : ldb M (curr + off) = 0 /\ ldb M (curr + off + 1) = 0).
  { unfold ldh in Hz. pose proof (ldb_range M (curr + off)) as H1. pose proof (ldb_range M (curr + off + 1)) as H2.
    unfold ubyte in *. lia. }
  assert (Ev : Nat.even (length (ldbs M curr (Z.to_nat off))) = true).
  { rewrite ldbs_length. apply Z.even_spec in He as [k ->]. apply Nat.even_spec. exists (Z.to_nat k). lia. }
  assert (Es : forall x y, wsum (p ++ ldbs M curr (Z.to_nat off) ++ [x; y]
      ++ ldbs M (curr + off + 2) (Z.to_nat (len - off - 2)))
    = wsum p + wsum (ldbs M curr (Z.to_nat off)) + (x + 256 * y) + wsum (ldbs M (curr + off + 2) (Z.to_nat (len - off - 2)))).
  { intros x y. rewrite !wsum_app by (rewrite ?Hp; done). cbn [wsum]. lia. }
  assert (Ew : wsum (p ++ ldbs M curr (Z.to_nat len)) = wsum p + wsum (ldbs M curr (Z.to_nat off))
      + wsum (ldbs M (curr + off + 2) (Z.to_nat (len - off - 2))))
    by (rewrite (segment_split M curr off len), (proj1 Ez), (proj2 Ez), Es by done; lia).
  rewrite Es. replace (_ + (c mod 256 + 256 * (c / 256)) + _) with (wsum (p ++ ldbs M curr (Z.to_nat len)) + c)
    by (rewrite Ew; pose proof (Z.div_mod c 256); lia).
  unfold c. by rewrite checksum_word.
Qed.

(** C35: segment_chksum_roundtrip.  Let a sender compute the checksum of a UDP or TCP segment whose checksum
    field is 0.  The computation leaves every byte of memory as it was, although it builds the pseudo header in front
    of the segment; and whenever the segment with the result in its field arrives, at any place in
    the memory of a receiver that finds the same addresses, the receiver's computation gives 0, which
    udpRecv and tcpRecv accept. *)
Theorem segment_chksum_roundtrip f off n M pkt len curr src dst :
  (f, off) = (udpChksum, 6) \/ (f, off) = (tcpChksum, 16) -> off + 2 <= len ->
  segment_room M pkt len curr -> ldh M (curr + off) = 0 ->
  (4 <= length (na_addr src))%nat -> (4 <= length (na_addr dst))%nat ->
  exists c M1, run (f pkt len src dst) (with_mem n M) = Returned (with_mem n M1) c /\
    (forall b, ldb M1 b = ldb M b) /\
    forall n' M' pkt' curr', segment_room M' pkt' len curr' ->
      ldbs M' curr' (Z.to_nat len) = ldbs (sth M1 (curr + off) c) curr (Z.to_nat len) ->
      exists M'', run (f pkt' len src dst) (with_mem n' M') = Returned (with_mem n' M'') 0.
Proof.
  intros [[= -> ->]|[= -> ->]] Hl Hroom Hz Hs Hd; [rewrite udp_pseudo|rewrite tcp_pseudo]; by apply pseudo_roundtrip.
Qed.

Definition segment_mem : memory := st (mem (nkern sample_net)) (pkt_curr 0x1000) 0x1400.

Lemma segment_chksum_roundtrip_witness :
  let a := mknetaddr NETADDR_IPv4 4 [10; 0; 0; 1] in
  let b := mknetaddr NETADDR_IPv4 4 [10; 0; 0; 2] in
  exists c M1, run (udpChksum 0x1000 9 a b) (with_mem sample_net segment_mem) = Returned (with_mem sample_net M1) c /\
    (forall b, ldb M1 b = ldb segment_mem b).
Proof.
  intros a b. destruct (segment_chksum_roundtrip udpChksum 6 sample_net segment_mem 0x1000 9 0x1400 a b)
    as (c & M1 & Hr & Hb & _).
  - left. reflexivity.
  - lia.
  - split; [reflexivity|]. split; [vm_compute; reflexivity|]. unfold sizeof_packet. split; [right; lia|lia].
  - vm_compute. reflexivity.
  - vm_compute. lia.
  - vm_compute. lia.
  - exists c, M1. split; [exact Hr|exact Hb].
Defined.
