(* ===== verification/UdpProps.v ===== *)
(** * Properties of UDP *)

From S2P Require Import Prelude Prog Queue Interrupt Memory Kernel Thread Clock Semaphore NoHalt Placement Invariant Sched ThreadSpec SemaphoreSpec KernelProps CString CStringSpec Sys Mailbox MailboxSpec BufPool BufPoolProps NetAddr NetAddrSpec Net NetProps ArpSpec Route Arp Ipv4 Bytes Tcp TcpConn Udp ChksumProps.

Local Arguments Z.eqb : simpl never.
Local Arguments Z.ltb : simpl never.

Lemma u8_range x : 0 <= u8 x < 256.
Proof. unfold u8. apply Z.mod_pos_bound. lia. Qed.

(** ** Copies in memory *)

Lemma copy_ne M d s n a : ~ d <= a < d + Z.of_nat n -> ldb (copy_bytes M d s n) a = ldb M a.
Proof.
  revert M d s. induction n as [|n IH]; intros M d s H; [done|]. cbn [copy_bytes]. rewrite IH by lia. apply ldb_stb_ne. lia.
Qed.

Lemma copy_octets M d s n : d + Z.of_nat n <= s \/ s + Z.of_nat n <= d ->
  ldbs (copy_bytes M d s n) d n = ldbs M s n.
Proof.
  revert M d s. induction n as [|n IH]; intros M d s H; [done|]. cbn [copy_bytes ldbs]. f_equal.
  - rewrite copy_ne, ldb_stb_eq by lia. apply u8_byte, ldb_range.
  - rewrite IH by lia. apply ldbs_ext. intros b Hb. apply ldb_stb_ne. lia.
Qed.

(** ** The ring of packets *)

(** The block holds the packets [q], the oldest first. *)
Record holds (u : udp) (q : list Z) : Prop := {
  ho_in : length (u_in u) = Z.to_nat UDP_MAX_PKTS;
  ho_start : 0 <= u_istart u < UDP_MAX_PKTS;
  ho_count : u_icount u = Z.of_nat (length q);
  ho_fits : Z.of_nat (length q) <= UDP_MAX_PKTS;
  ho_slots : forall (k : nat) p, q !! k = Some p -> u_in u !! Z.to_nat ((u_istart u + Z.of_nat k) mod UDP_MAX_PKTS) = Some p;
}.

Lemma holds_zero : holds udp_zero [].
Proof. split; simpl; unfold UDP_MAX_PKTS; try done; lia. Qed.

Lemma holds_store tpkt u q : holds u q -> Z.of_nat (length q) < UDP_MAX_PKTS ->
  exists l, udp_store tpkt u = Some (set_u_icount (Z.of_nat (length q) + 1) (set_u_in l u)) /\
    holds (set_u_icount (Z.of_nat (length q) + 1) (set_u_in l u)) (q ++ [tpkt]).
Proof.
  intros [Hi Hs Hc Hl Hq] Hlt. rewrite (eq_refl : UDP_MAX_PKTS = 100) in *.
  assert (E : Z.rem (u_istart u + u_icount u) 100 = (u_istart u + Z.of_nat (length q)) mod 100)
    by (rewrite Hc, Z.rem_mod_nonneg; lia).
  pose proof (Z.mod_pos_bound (u_istart u + Z.of_nat (length q)) 100) as Hm.
  assert (Hn : (Z.rem (u_istart u + u_icount u) 100 <? 0) = false) by (apply Z.ltb_ge; lia).
  unfold udp_store. rewrite (eq_refl : UDP_MAX_PKTS = 100), Hn, E, Hc, i32_id by (unfold is_i32; lia).
  eexists. split; [done|]. split; rewrite ?(eq_refl : UDP_MAX_PKTS = 100), ?length_app; simpl.
  - by rewrite length_insert.
  - done.
  - lia.
  - lia.
  - intros k p Hk. apply lookup_app_Some in Hk as [Hk|[Hk1 Hk2]].
    + rewrite list_lookup_insert_ne; [by apply Hq|]. apply lookup_lt_Some in Hk. intros F.
      apply Z2Nat.inj in F; [|lia|apply Z.mod_pos_bound; lia]. symmetry in F. revert F. apply mod_apart; lia.
    + apply list_lookup_singleton_Some in Hk2 as [Hk2 <-]. replace k with (length q) by lia.
      rewrite list_lookup_insert_eq; [done|]. lia.
Qed.

Lemma holds_advance u p q : holds u (p :: q) ->
  u_in u !! Z.to_nat (u_istart u) = Some p /\ holds (udp_advance u) q.
Proof.
  intros [Hi Hs Hc Hl Hq]. rewrite (eq_refl : UDP_MAX_PKTS = 100) in *. simpl in Hc, Hl. split.
  - rewrite <- (Hq 0%nat p) by done. by rewrite Z.add_0_r, Z.mod_small by lia.
  - split; rewrite ?(eq_refl : UDP_MAX_PKTS = 100); simpl; rewrite ?(eq_refl : UDP_MAX_PKTS = 100).
    + done.
    + pose proof (Z.rem_bound_pos (u_istart u + 1) 100). lia.
    + rewrite Hc, i32_id by (unfold is_i32; lia). lia.
    + lia.
    + intros k p' Hk. rewrite <- (Hq (S k) p') by done. rewrite Z.rem_mod_nonneg, Z.add_mod_idemp_l by lia.
      by replace (u_istart u + 1 + Z.of_nat k) with (u_istart u + Z.of_nat (S k)) by lia.
Qed.

(** ** Programs on the state of UDP *)

Definition ukern (s : udpst) : kernel := nkern (unet s).
Definition set_ukern (k : kernel) (s : udpst) : udpst := set_unet (set_nkern k (unet s)) s.
Definition with_umem (s : udpst) (M : memory) : udpst := set_ukern (set_mem M (ukern s)) s.
(** The octets of memory *)
Definition umem (s : udpst) : memory := mem (ukern s).

Section run.
Context {B : Type} (s : udpst).

Lemma run_ukcall_bind {A} (p : prog kernel A) (g : A -> prog udpst B) k a :
  run p (ukern s) = Returned k a -> run (ukcall p ≫= g) s = run (g a) (set_ukern k s).
Proof.
  intros E. unfold ukcall, ucall. apply (run_zoom_bind unet set_unet). unfold ncall. rewrite (run_zoom nkern set_nkern).
  unfold ukern in E. by rewrite E.
Qed.
Lemma run_ucall_bind {A} (p : prog netst A) (g : A -> prog udpst B) n a :
  run p (unet s) = Returned n a -> run (ucall p ≫= g) s = run (g a) (set_unet n s).
Proof. apply (run_zoom_bind unet set_unet). Qed.
Lemma run_ub_bind i u (g : udp -> prog udpst B) : udptab s !! i = Some u -> run (ub i ≫= g) s = run (g u) s.
Proof. apply (run_readopt_bind (fun s => udptab s !! i)). Qed.
Lemma run_upd_ub_bind i f u u' (g : unit -> prog udpst B) : udptab s !! i = Some u -> f u = Some u' ->
  run (upd_ub i f ≫= g) s = run (g tt) (set_udptab (<[i := u']> (udptab s)) s).
Proof. intros E Ef. unfold upd_ub. erewrite run_lift_bind; [done|]. simpl. rewrite E. simpl. by rewrite Ef. Qed.
Lemma run_set_ub_bind i f u (g : unit -> prog udpst B) : udptab s !! i = Some u ->
  run (set_ub i f ≫= g) s = run (g tt) (set_udptab (<[i := f u]> (udptab s)) s).
Proof. intros E. by apply (run_upd_ub_bind i _ u). Qed.
Lemma run_ugets_bind {A} (f : memory -> A) (g : A -> prog udpst B) : run (ucall (ngets f) ≫= g) s = run (g (f (umem s))) s.
Proof. by rewrite (run_ucall_bind (ngets f) _ (unet s) (f (umem s))); [destruct s|]. Qed.
Lemma run_uld16_bind a (g : Z -> prog udpst B) : run (ucall (ld16 a) ≫= g) s = run (g (ldh (umem s) a)) s.
Proof. apply (run_ugets_bind (fun M => ldh M a)). Qed.
Lemma run_uputs_bind f (g : unit -> prog udpst B) : run (ucall (nputs f) ≫= g) s = run (g tt) (with_umem s (f (umem s))).
Proof. done. Qed.

End run.

(** ** Reading *)

(** What is behind [wait] in [udpRead] *)
Definition read_rest (i buf len : Z) : prog udpst Z :=
  im ← ukcall k_disable;
  u ← ub i;
  udppkt ← (if u_istart u <? 0 then Fault else opt (u_in u !! Z.to_nat (u_istart u)));
  if udppkt =? NULL then ukcall (k_restore im);; mret SYSERR
  else
    set_ub i udp_advance;;
    l ← ucall (ld16 (udp_len udppkt));
    let '(count, data) :=
      if negb (Z.land UDP_FLAG_INCHDR (u_flags u) =? 0) then (l, udppkt) else (l - UDP_HDR_LEN, udp_data udppkt) in
    ukcall (k_restore im);;
    let count := if len <? u32 count then i32 len else count in
    ucall (memmove buf data (u32 count));;
    udpFreebuf udppkt;;
    mret count.

(** The octets a reader of packet [p] gets from a device with these flags: from where, and how many *)
Definition payload (flags p : Z) : Z := if Z.land UDP_FLAG_INCHDR flags =? 0 then udp_data p else p.
Definition payload_len (flags l : Z) : Z := if Z.land UDP_FLAG_INCHDR flags =? 0 then l - UDP_HDR_LEN else l.

(** The copy to the caller's buffer, of what there is and fits *)
Lemma read_tail s im buf data len c p : 0 <= c < 65536 -> 0 <= len < 2 ^ 31 -> vic_ok (irq (ukern s)) ->
  exists v, vic_ok v /\ run (ukcall (k_restore im);; let count := if len <? u32 c then i32 len else c in
       ucall (memmove buf data (u32 count));; udpFreebuf p;; mret count) s
    = run (udpFreebuf p;; mret (Z.min len c))
        (with_umem (set_ukern (set_irq v (ukern s)) s) (copy_bytes (umem s) buf data (Z.to_nat (Z.min len c)))).
Proof.
  intros Hc Hl Hv. rewrite (u32_id c) by (unfold is_u32; lia). cbv zeta.
  replace (if len <? c then i32 len else c) with (Z.min len c).
  2:{ destruct (Z.ltb_spec len c); [rewrite i32_id by (unfold is_i32; lia)|]; lia. }
  rewrite (u32_id (Z.min len c)) by (unfold is_u32; lia). exists (vic_set_irqmask im (irq (ukern s))).
  split; [by apply vic_ok_set|]. erewrite run_ukcall_bind by reflexivity. unfold memmove. by rewrite run_uputs_bind.
Qed.

Lemma read_rest_spec s i buf len u p q : udptab s !! i = Some u -> holds u (p :: q) -> p <> NULL ->
  let l := ldh (umem s) (udp_len p) in UDP_HDR_LEN <= l -> 0 <= len < 2 ^ 31 ->
  let n := Z.min len (payload_len (u_flags u) l) in
  vic_ok (irq (ukern s)) ->
  exists v, vic_ok v /\ let M := copy_bytes (umem s) buf (payload (u_flags u) p) (Z.to_nat n) in
    run (read_rest i buf len) s
    = run (udpFreebuf p;; mret n)
        (with_umem (set_udptab (<[i := udp_advance u]> (udptab s)) (set_ukern (set_irq v (ukern s)) s)) M) /\
    holds (udp_advance u) q.
Proof.
  intros E Hh Hp l Hl Hlen n Hv. destruct (holds_advance _ _ _ Hh) as [Hin Hadv]. unfold read_rest.
  erewrite run_ukcall_bind by reflexivity. set (s1 := set_ukern _ s). rewrite (run_ub_bind _ i u) by exact E.
  rewrite (proj2 (Z.ltb_ge _ _) (proj1 (ho_start _ _ Hh))), (run_opt_bind _ _ _ p) by exact Hin.
  rewrite (proj2 (Z.eqb_neq _ _) Hp), (run_set_ub_bind _ i _ u) by exact E. rewrite run_uld16_bind.
  set (s2 := set_udptab _ s1). change (umem s2) with (umem s). fold l.
  assert (Hr : 0 <= l < 65536).
  { unfold l, ldh. pose proof (ldb_range (umem s) (udp_len p)) as H. pose proof (ldb_range (umem s) (udp_len p + 1)) as H'.
    unfold ubyte in *. lia. }
  pose proof (eq_refl : UDP_HDR_LEN = 8). subst n. unfold payload, payload_len.
  destruct (Z.land UDP_FLAG_INCHDR (u_flags u) =? 0); cbn [negb].
  - edestruct (read_tail s2) as (v & Hw & Ev); [|exact Hlen|by apply vic_ok_disable|exists v; split; [exact Hw|split; [exact Ev|done]]]. lia.
  - edestruct (read_tail s2) as (v & Hw & Ev); [|exact Hlen|by apply vic_ok_disable|exists v; split; [exact Hw|split; [exact Ev|done]]]. lia.
Qed.

(** The guard of [udpRead] *)
Lemma read_starts s i buf len u : udptab s !! i = Some u -> vic_ok (irq (ukern s)) ->
  exists v, vic_ok v /\ run (udpRead i buf len) s =
    (if negb (Z.land (u_flags u) UDP_FLAG_NOBLOCK =? 0) && (u_icount u <? 1) then Returned (set_ukern (set_irq v (ukern s)) s) 0
     else run (ukcall (wait (u_isem u)) ≫= fun _ => read_rest i buf len) (set_ukern (set_irq v (ukern s)) s)).
Proof.
  intros E Hv. exists (vic_set_irqmask (mask (ukern s)) (vic_disable_interrupts (irq (ukern s)))).
  split; [by apply vic_ok_set, vic_ok_disable|]. unfold udpRead. erewrite run_ukcall_bind by reflexivity.
  rewrite (run_ub_bind _ i u) by exact E. destruct (_ && _).
  - by erewrite run_ukcall_bind by reflexivity.
  - erewrite run_ukcall_bind by reflexivity. by rewrite (run_ub_bind _ i u) by exact E.
Qed.

Lemma uwait_gives_away {B} s sem e (g : Z -> prog udpst B) : KInv (ukern s) -> usable (ukern s) sem e -> scount e <= 0 ->
  thrcurrent (ukern s) <> NULLTHREAD ->
  exists k' p, run (ukcall (wait sem) ≫= g) s = Suspended (set_ukern k' s) p /\ semstep (ukern s) k' sem (scount e - 1) e /\
    waits_for k' (thrcurrent (ukern s)) sem /\
    forall s2, Rl (thrcurrent (ukern s)) k' (ukern s2) ->
      exists v, run p s2 = run (g OK) (set_ukern (set_irq v (ukern s2)) s2) /\ KInv (set_irq v (ukern s2)).
Proof.
  intros HI Hu Hle Hn. destruct (wait_later (ukern s) sem e HI Hu Hle Hn) as (k' & p & E & HS & HW & Hp).
  exists k', (ukcall p ≫= g). split_and!; [|done..|].
  - rewrite run_bind. unfold ukcall at 1, ucall at 1. rewrite (run_zoom unet set_unet). unfold ncall at 1.
    rewrite (run_zoom nkern set_nkern). change (nkern (unet s)) with (ukern s). by rewrite E.
  - intros s2 HR. destruct (Hp _ HR) as (v & E2 & HI2). exists v. split; [|done]. by apply run_ukcall_bind.
Qed.

(** C38: udpRead_takes.  [udpRead] of at most [len] octets, [len] below 2^31, from a device whose semaphore is in use.  A device that does not block and holds no
    packet returns 0 and nothing changes.  Otherwise the call takes one from the count of the semaphore.  When the count was positive, and the ring holds the
    packets [pk :: q], it copies to the caller's buffer the octets of [pk], the oldest, with or without the UDP header as the flags say,
    as many as there are and fit, and leaves [q] in the ring in its order; what is left of the call is to give the buffer of [pk] back to its
    pool and to return the number of octets.  When the count was not positive the caller gives the processor away and waits, with the ring as
    it was; whenever it gets the processor back, with a packet in the ring, the rest of the call does the same.  The packet has a length of
    at least 8 in its header. *)
Theorem udpRead_takes s i buf len u es : let c := thrcurrent (ukern s) in
  KInv (ukern s) -> udptab s !! i = Some u -> usable (ukern s) (u_isem u) es -> 0 <= len < 2 ^ 31 ->
  let takes p s2 sems := forall u2 pk q, udptab s2 !! i = Some u2 -> holds u2 (pk :: q) -> pk <> NULL ->
    UDP_HDR_LEN <= ldh (umem s2) (udp_len pk) ->
    let n := Z.min len (payload_len (u_flags u2) (ldh (umem s2) (udp_len pk))) in
    let data := payload (u_flags u2) pk in
    exists s' u', run p s2 = run (udpFreebuf pk;; mret n) s' /\ KInv (ukern s') /\ semtab (ukern s') = sems /\
      udptab s' = <[i := u']> (udptab s2) /\ holds u' q /\ u_isem u' = u_isem u2 /\ u_inPool u' = u_inPool u2 /\
      umem s' = copy_bytes (umem s2) buf data (Z.to_nat n) /\
      (buf + n <= data \/ data + n <= buf -> ldbs (umem s') buf (Z.to_nat n) = ldbs (umem s2) data (Z.to_nat n)) in
  let taken := <[u_isem u := set_scount (scount es - 1) es]> (semtab (ukern s)) in
  if negb (Z.land (u_flags u) UDP_FLAG_NOBLOCK =? 0) && (u_icount u <? 1)
  then exists v, run (udpRead i buf len) s = Returned (set_ukern (set_irq v (ukern s)) s) 0
  else if 0 <? scount es then takes (udpRead i buf len) s taken
  else c <> NULLTHREAD -> exists s1 p, run (udpRead i buf len) s = Suspended s1 p /\ KInv (ukern s1) /\
    udptab s1 = udptab s /\ umem s1 = umem s /\ semtab (ukern s1) = taken /\ waits_for (ukern s1) c (u_isem u) /\
    forall s2, Rl c (ukern s1) (ukern s2) -> takes p s2 (semtab (ukern s2)).
Proof.
  intros c HI E Hu Hlen takes taken.
  assert (Hrest : forall p s2 s3 sems, run p s2 = run (read_rest i buf len) s3 -> KInv (ukern s3) -> semtab (ukern s3) = sems ->
    udptab s3 = udptab s2 -> umem s3 = umem s2 -> takes p s2 sems).
  { intros p s2 s3 sems Hrun HI3 Hsem Htab Hmem u2 pk q E2 Hh Hpk Hl n data. rewrite <- Htab in E2. rewrite <- Hmem in Hl.
    destruct (read_rest_spec s3 i buf len u2 pk q E2 Hh Hpk Hl Hlen (KInv_vic _ HI3)) as (v & Hv & Er & Hh').
    rewrite Hmem in Er. fold n data in Er. eexists _, (udp_advance u2). rewrite Hrun. split; [exact Er|]. split_and!; try done.
    - by apply KInv_mem, KInv_irq.
    - cbn. by rewrite Htab.
    - intros Ha. apply (copy_octets (umem s2)). lia. }
  destruct (read_starts s i buf len u E (KInv_vic _ HI)) as (v & Hv & Es). set (s0 := set_ukern (set_irq v (ukern s)) s) in *.
  assert (HI0 : KInv (ukern s0)) by (by apply KInv_irq).
  destruct (negb _ && _); [by exists v|]. destruct (Z.ltb_spec 0 (scount es)) as [Hpos|Hneg].
  - destruct (wait_now (ukern s0) (u_isem u) es HI0 Hu Hpos) as (k' & Ew & S1).
    apply (Hrest _ s (set_ukern k' s0)); [|apply S1|apply S1|done|apply S1].
    rewrite Es. exact (run_ukcall_bind s0 _ (fun _ => read_rest i buf len) k' OK Ew).
  - intros Hn. destruct (uwait_gives_away s0 (u_isem u) es (fun _ => read_rest i buf len) HI0 Hu Hneg Hn)
      as (k1 & p & Ew & HS & HW & Hp).
    exists (set_ukern k1 s0), p. split_and!; [by rewrite Es, Ew|apply HS|done|apply HS|apply HS|done|].
    intros s2 HR. destruct (Hp s2 HR) as (w & E2 & HI2). eapply Hrest; [exact E2|exact HI2|done..].
Qed.

(** ** Delivery *)

(** A device with the flag "bind first" is connected to the sender of the first packet. *)
Definition bound (M : memory) (hdr : Z) (src dst : netaddr) (u : udp) : udp :=
  if Z.land UDP_FLAG_BINDFIRST (u_flags u) =? 0 then u
  else set_u_flags (u8 (Z.land (u_flags u) (Z.lnot UDP_FLAG_BINDFIRST)))
         (set_u_remoteip src (set_u_localip dst (set_u_remotept (ldh M (udp_srcPort hdr)) u))).

Lemma bound_holds M hdr src dst u q : holds u q -> holds (bound M hdr src dst u) q.
Proof. unfold bound. destruct (_ =? 0); [done|]. by intros []. Qed.
Lemma bound_pool M hdr src dst u : u_inPool (bound M hdr src dst u) = u_inPool u /\ u_isem (bound M hdr src dst u) = u_isem u.
Proof. unfold bound. by destruct (_ =? 0). Qed.

Section deliver.
Context (s : udpst) (i im pkt hdr : Z) (src dst : netaddr) (u : udp).
Context (HI : KInv (ukern s)) (Eu : udptab s !! i = Some u).

Lemma deliver_full : UDP_MAX_PKTS <= u_icount u ->
  run (udp_deliver i im pkt hdr src dst) s
  = run (ucall (netFreebuf pkt);; mret SYSERR) (set_ukern (set_irq (vic_set_irqmask im (irq (ukern s))) (ukern s)) s).
Proof.
  intros Hf. unfold udp_deliver. rewrite (run_ub_bind _ i u) by exact Eu. rewrite (proj2 (Z.leb_le _ _) Hf).
  by erewrite run_ukcall_bind by reflexivity.
Qed.

Lemma run_bind_first {B} (g : unit -> prog udpst B) :
  run ((if negb (Z.land UDP_FLAG_BINDFIRST (u_flags u) =? 0) then
       port ← ucall (ld16 (udp_srcPort hdr));
       set_ub i (set_u_remotept port);;
       set_ub i (set_u_localip dst);;
       set_ub i (set_u_remoteip src);;
       set_ub i (fun u => set_u_flags (u8 (Z.land (u_flags u) (Z.lnot UDP_FLAG_BINDFIRST))) u)
     else mret tt) ≫= g) s
  = run (g tt) (set_udptab (<[i := bound (umem s) hdr src dst u]> (udptab s)) s).
Proof.
  unfold bound. destruct (_ =? 0); cbn [negb].
  - replace (set_udptab (<[i := u]> (udptab s)) s) with s; [done|]. rewrite insert_id by exact Eu. by destruct s.
  - rewrite run_bind. rewrite run_uld16_bind.
    do 3 (erewrite run_set_ub_bind by first [exact Eu|apply lookup_insert_eq]).
    unfold set_ub, upd_ub, lift. cbn [run udptab set_udptab]. rewrite lookup_insert_eq. cbn [mbind option_bind run obind].
    by rewrite !insert_insert_eq.
Qed.

Context (q : list Z) (e : bfpentry) (b : Z) (fl used : list Z) (es : sement).
Context (Hq : holds u q) (Hlt : Z.of_nat (length q) < UDP_MAX_PKTS).
Context (Hpool : pool_at (sys (unet s)) (u_inPool u) e (b :: fl) used) (Hes : usable (ukern s) (bf_freebuf e) es).
Context (Hfree : 0 < scount es) (Hb : b mod 4 = 0).
Let len : Z := ldh (umem s) (udp_len hdr).
(** The buffer and the packet are apart. *)
Context (Hlen : UDP_HDR_LEN <= len <= NET_MAX_PKTLEN) (Hapart : b + 8 + NET_MAX_PKTLEN <= hdr \/ hdr + len <= b).

Lemma deliver_stores : exists s' u' e',
  run (udp_deliver i im pkt hdr src dst) s = run (ukcall (signal (u_isem u));; ucall (netFreebuf pkt);; mret OK) s' /\
  KInv (ukern s') /\ semtab (ukern s') = <[bf_freebuf e := set_scount (scount es - 1) es]> (semtab (ukern s)) /\
  udptab s' = <[i := u']> (udptab s) /\ holds u' (q ++ [b + 8]) /\
  (exists l n, u' = set_u_icount n (set_u_in l (bound (umem s) hdr src dst u))) /\
  ldbs (umem s') (b + 8) (Z.to_nat len) = ldbs (umem s) hdr (Z.to_nat len) /\
  bfptab (sys (unet s')) !! u_inPool u = Some e' /\ (forall p, p <> u_inPool u -> bfptab (sys (unet s')) !! p = bfptab (sys (unet s)) !! p).
Proof.
  pose proof (bound_holds (umem s) hdr src dst u q Hq) as Hq1. destruct (bound_pool (umem s) hdr src dst u) as [Bp Bs].
  set (u1 := bound (umem s) hdr src dst u) in *.
  unfold udp_deliver. rewrite (run_ub_bind _ i u) by exact Eu.
  rewrite (proj2 (Z.leb_gt _ _)) by (rewrite (ho_count _ _ Hq); lia).
  rewrite run_bind_first. fold u1. set (s1 := set_udptab _ s).
  destruct (bufget_pops (sys (unet s1)) (u_inPool u) e b fl used es HI Hpool Hes Hfree)
    as (ss & e' & Eb & HI2 & Hp2 & Hsem2 & Hother & Hmem2).
  assert (Hr : 0 <= b /\ b + 8 < 2 ^ 32) by (apply (hd_range _ _ _ (po_headers _ _ _ _ _ Hpool)); set_solver).
  set (s2 := set_unet (set_sys ss (unet s1)) s1).
  assert (Eg : run (udpGetbuf i) s1 = Returned (with_umem s2 (zero (umem s2) (b + 8) NET_MAX_PKTLEN)) (b + 8)).
  { unfold udpGetbuf. rewrite (run_ub_bind _ i u1) by apply lookup_insert_eq. rewrite Bp. unfold uscall.
    rewrite (run_ucall_bind s1 (scall (bufget (u_inPool u))) _ (set_sys ss (unet s1)) (b + 8)).
    2:{ unfold scall. by rewrite (run_zoom sys set_sys), Eb. }
    fold s2. rewrite (proj2 (Z.eqb_neq (b + 8) SYSERR)) by (unfold SYSERR; lia). by rewrite run_uputs_bind. }
  rewrite (run_returned_bind _ _ _ _ _ Eg). rewrite (proj2 (Z.eqb_neq (b + 8) SYSERR)) by (unfold SYSERR; lia).
  set (s3 := with_umem s2 _).
  assert (Hm3 : forall a, ~ b <= a < b + 8 + NET_MAX_PKTLEN -> ldb (umem s3) a = ldb (umem s) a).
  { intros a Ha. change (umem s3) with (zero (umem s2) (b + 8) NET_MAX_PKTLEN). unfold zero.
    rewrite ldb_stbs_ne by (rewrite length_replicate; unfold NET_MAX_PKTLEN in *; lia).
    change (umem s2) with (mem (kern ss)). rewrite Hmem2. apply ldb_st_ne; [done|unfold NET_MAX_PKTLEN in *; lia]. }
  rewrite run_uld16_bind.
  assert (El : ldh (umem s3) (udp_len hdr) = len).
  { unfold len, ldh, udp_len. by rewrite !Hm3 by (unfold NET_MAX_PKTLEN, UDP_HDR_LEN in *; lia). }
  rewrite El. unfold memmove. rewrite run_uputs_bind. set (s4 := with_umem s3 _).
  destruct (holds_store (b + 8) u1 q Hq1 Hlt) as (l & Est & Hq4).
  rewrite (run_upd_ub_bind s4 i _ u1 _ _ (lookup_insert_eq _ _ _) Est).
  erewrite run_ukcall_bind by reflexivity. erewrite run_ub_bind by apply lookup_insert_eq.
  eexists _, _, e'. split; [cbn [u_isem set_u_icount set_u_in]; rewrite Bs; reflexivity|]. split_and!.
  - apply KInv_irq; [by apply KInv_mem, KInv_mem|]. apply vic_ok_set. exact (KInv_vic _ HI2).
  - exact Hsem2.
  - cbn. by rewrite insert_insert_eq.
  - exact Hq4.
  - by eexists _, _.
  - change (umem _) with (copy_bytes (umem s3) (b + 8) hdr (Z.to_nat len)) at 1. rewrite copy_octets by lia.
    apply ldbs_ext. intros a Ha. apply Hm3. lia.
  - apply Hp2.
  - exact Hother.
Qed.

End deliver.

(** The three fields of the header in host order *)
Definition swap (M : memory) (a : Z) : memory := sth M a (net2hs (ldh M a)).
Definition host_order (M : memory) (hdr : Z) : memory :=
  swap (swap (swap M (udp_srcPort hdr)) (udp_dstPort hdr)) (udp_len hdr).

Section recv.
Context (nudp : Z) (devwrite : Z -> Z -> Z -> prog netst Z) (snoopCapture : Z -> Z -> prog netst Z) (gaddr : netaddr) (garbage : list Z).
Context (s : udpst) (pkt i : Z) (src dst : netaddr) (M1 : memory).
Let hdr : Z := ld (umem s) (pkt_curr pkt).
Let M2 : memory := host_order M1 hdr.
(** The packet verifies, and the demultiplexer finds device [i]. *)
Context (Hhdr : hdr <> NULL).
Context (Hsum : run (udpChksum pkt (net2hs (ldh (umem s) (udp_len hdr))) src dst) (unet s) = Returned (with_mem (unet s) M1) 0).
Context (Hdemux : udpDemux nudp (udptab s) (ldh M2 (udp_dstPort hdr)) (ldh M2 (udp_srcPort hdr)) dst src = Some (Some i)).

Lemma recv_starts : run (udpRecv nudp devwrite snoopCapture gaddr garbage pkt src dst) s
  = run (udp_deliver i (mask (ukern s)) pkt hdr src dst)
      (set_ukern (set_mem M2 (set_irq (vic_disable_interrupts (irq (ukern s))) (ukern s))) s).
Proof.
  unfold udpRecv. change (nload (pkt_curr pkt)) with (ngets (fun M => ld M (pkt_curr pkt))). rewrite run_ugets_bind. fold hdr.
  rewrite (proj2 (Z.eqb_neq _ _) Hhdr). rewrite run_uld16_bind, (run_ucall_bind _ _ _ _ _ Hsum).
  rewrite Z.eqb_refl. cbn [negb]. set (s1 := set_unet (with_mem (unet s) M1) s).
  assert (Hsw : forall B (g : unit -> prog udpst B) x a,
    run (ucall (v ← ld16 a; st16 a (net2hs v)) ≫= g) x = run (g tt) (with_umem x (swap (umem x) a))) by done.
  rewrite !Hsw. erewrite run_ukcall_bind by reflexivity. rewrite !run_uld16_bind.
  set (s2 := set_ukern _ _). rewrite (run_readopt_bind _ _ _ (Some i)); [done|]. exact Hdemux.
Qed.


End recv.

(** ** udpDemux *)

(** How well the entry matches a packet: 3 for both ports and addresses, 2 for the ports and
    the local address with no remote address set, 1 for the local port and address with nothing
    remote set, 0 for none. *)
Definition udp_level (dstpt srcpt : Z) (dstip srcip : netaddr) (u : udp) : Z :=
  let local := (u_localpt u =? dstpt) && bool_decide (netaddrequal (u_localip u) dstip = Some true) in
  let anyip := na_type (u_remoteip u) =? NULL in
  if decide (u_state u = UDP_FREE) then 0
  else if local && (u_remotept u =? srcpt) && bool_decide (netaddrequal (u_remoteip u) srcip = Some true) then 3
  else if local && (u_remotept u =? srcpt) && anyip then 2
  else if local && (u_remotept u =? NULL) && anyip then 1
  else 0.

(** The array holds the octets that the length says. *)
Definition addr_full (a : netaddr) : Prop := (Z.to_nat (na_len a) <= length (na_addr a))%nat.

Lemma addr_cmp_total k l l' : (k <= length l)%nat -> (k <= length l')%nat -> is_Some (addr_cmp k l l').
Proof.
  revert l l'. induction k as [|k IH]; intros l l' H H'; simpl; [by eexists|].
  destruct l as [|x l], l' as [|y l']; simpl in *; try lia. case_match; [by eexists|apply IH; lia].
Qed.

Lemma netaddrequal_total a b : addr_full a -> addr_full b -> exists r, netaddrequal a b = Some r.
Proof.
  intros Ha Hb. unfold netaddrequal. case_match; [by eexists|]. destruct (Z.eqb_spec (na_len a) (na_len b)) as [E|]; [|by eexists].
  simpl. destruct (addr_cmp_total (Z.to_nat (na_len a)) (na_addr a) (na_addr b)) as [c ->]; [done|by rewrite E|].
  simpl. by eexists.
Qed.

(** ** Searching a table for the best match

    [loop n i best l] looks at [n] entries from [i] on, with the best match so far and its level. *)
Section best.
Context {E : Type} (tab : gmap Z E) (level : E -> Z) (ok : E -> Prop).
Context (loop : nat -> Z -> option Z -> Z -> option (option Z)).
Hypothesis loop_nil : forall i best l, loop 0 i best l = Some best.
Hypothesis loop_cons : forall n i best l u, tab !! i = Some u -> ok u -> 0 <= l ->
  loop (S n) i best l = if l <? level u then loop n (i + 1) (Some i) (level u) else loop n (i + 1) best l.

Definition entries_ok (i n : Z) : Prop := forall j, i <= j < i + n -> exists u, tab !! j = Some u /\ ok u.

(** [j] is the first of the best matches from [i] on. *)
Definition first_best (i n j : Z) : Prop :=
  i <= j < i + n /\ exists u, tab !! j = Some u /\
  forall k v, i <= k < i + n -> tab !! k = Some v -> level v <= level u /\ (k < j -> level v < level u).

Lemma best_loop n i best l : entries_ok i (Z.of_nat n) -> 0 <= l ->
  exists r, loop n i best l = Some r /\
    (r = best /\ (forall k v, i <= k < i + Z.of_nat n -> tab !! k = Some v -> level v <= l) \/
     exists j, r = Some j /\ first_best i (Z.of_nat n) j /\ forall v, tab !! j = Some v -> l < level v).
Proof.
  revert i best l. induction n as [|n IH]; intros i best l He Hl.
  { exists best. split; [apply loop_nil|]. left. split; [done|lia]. }
  destruct (He i ltac:(lia)) as (u & Hu & Hok). rewrite (loop_cons _ _ _ _ u) by done.
  assert (He' : entries_ok (i + 1) (Z.of_nat n)) by (intros j Hj; apply He; lia).
  destruct (Z.ltb_spec l (level u)) as [Hlt|Hge].
  - destruct (IH (i + 1) (Some i) (level u) He' ltac:(lia)) as (r & Er & Hr). exists r. split; [done|]. right.
    destruct Hr as [[-> Hmax]|(j & -> & (Hj & v & Hv & Hb) & Hgt)].
    + exists i. split_and!; [done| |intros v Hv; by simplify_eq]. split; [lia|]. exists u. split; [done|].
      intros k v Hk Hv. destruct (decide (k = i)) as [->|Hne]; [simplify_eq; lia|].
      pose proof (Hmax k v ltac:(lia) Hv). lia.
    + exists j. pose proof (Hgt v Hv) as Hg. split_and!; [done| |intros w Hw; simplify_eq; lia].
      split; [lia|]. exists v. split; [done|]. intros k w Hk Hw.
      destruct (decide (k = i)) as [->|Hne]; [simplify_eq; lia|]. apply Hb; [lia|done].
  - destruct (IH (i + 1) best l He' Hl) as (r & Er & Hr). exists r. split; [done|].
    destruct Hr as [[-> Hmax]|(j & -> & (Hj & v & Hv & Hb) & Hgt)]; [left|right].
    + split; [done|]. intros k v Hk Hv. destruct (decide (k = i)) as [->|Hne]; [by simplify_eq|]. apply (Hmax k v); [lia|done].
    + exists j. split_and!; [done| |done]. split; [lia|]. exists v. split; [done|]. intros k w Hk Hw.
      pose proof (Hgt v Hv). destruct (decide (k = i)) as [->|Hne]; [simplify_eq; lia|]. apply Hb; [lia|done].
Qed.

(** The search of the whole table *)
Lemma best_match n : 0 <= n -> entries_ok 0 n -> exists r, loop (Z.to_nat n) 0 None 0 = Some r /\
  match r with
  | Some j => first_best 0 n j /\ exists u, tab !! j = Some u /\ 0 < level u
  | None => forall k v, 0 <= k < n -> tab !! k = Some v -> level v <= 0
  end.
Proof.
  intros Hn He. destruct (best_loop (Z.to_nat n) 0 None 0) as (r & -> & Hr); [by rewrite Z2Nat.id|lia|]. exists r. split; [done|].
  rewrite Z2Nat.id in Hr by done. destruct Hr as [[-> Hmax]|(j & -> & Hb & Hgt)]; [done|].
  split; [done|]. destruct Hb as (_ & u & Hu & _). exists u. split; [done|]. by apply Hgt.
Qed.

End best.

Section demux.
Context (tab : gmap Z udp) (dstpt srcpt : Z) (dstip srcip : netaddr).
Context (Hdst : addr_full dstip) (Hsrc : addr_full srcip).
Let level := udp_level dstpt srcpt dstip srcip.

(** One entry: it replaces the best one so far when it matches better. *)
Lemma demux_entry u i best l : addr_full (u_localip u) -> addr_full (u_remoteip u) -> 0 <= l ->
  (if decide (u_state u = UDP_FREE) then Some (best, l)
   else
     '(best, l) ← better 3 (udp_match3 u dstpt srcpt dstip srcip) i best l;
     '(best, l) ← better 2 (udp_match2 u dstpt srcpt dstip) i best l;
     better 1 (udp_match1 u dstpt dstip) i best l)
  = Some (if l <? level u then (Some i, level u) else (best, l)).
Proof.
  intros Hl Hr Hn. destruct (netaddrequal_total _ _ Hl Hdst) as [a Ea].
  destruct (netaddrequal_total _ _ Hr Hsrc) as [b Eb]. unfold level, udp_level.
  case_decide; [by rewrite (proj2 (Z.ltb_ge l 0))|].
  unfold udp_match3, udp_match2, udp_match1, better. rewrite Ea, Eb.
  destruct (u_localpt u =? dstpt), (u_remotept u =? srcpt), (u_remotept u =? NULL), (na_type (u_remoteip u) =? NULL),
    a, b; cbn [andb mbind option_bind bool_decide]; repeat (case_match; simplify_eq/=; try done); lia.
Qed.

Definition udp_full (u : udp) : Prop := addr_full (u_localip u) /\ addr_full (u_remoteip u).

Lemma demux_step n i best l u : tab !! i = Some u -> udp_full u -> 0 <= l ->
  udpDemux_loop (S n) i tab dstpt srcpt dstip srcip best l =
  if l <? level u then udpDemux_loop n (i + 1) tab dstpt srcpt dstip srcip (Some i) (level u)
  else udpDemux_loop n (i + 1) tab dstpt srcpt dstip srcip best l.
Proof.
  intros Hu [Hlo Hre] Hl. cbn [udpDemux_loop]. rewrite Hu. cbn [mbind option_bind].
  rewrite demux_entry by done. cbn [mbind option_bind]. by destruct (l <? level u).
Qed.

(** C36: udpDemux_best_match.  udpDemux finds the device for a packet: the first one among those that match
    best, by ports and addresses, and NULL exactly when no device in use matches. *)
Theorem udpDemux_best_match nudp : 0 <= nudp -> entries_ok tab udp_full 0 nudp ->
  exists r, udpDemux nudp tab dstpt srcpt dstip srcip = Some r /\
    match r with
    | Some j => first_best tab level 0 nudp j /\ exists u, tab !! j = Some u /\ 0 < level u
    | None => forall k v, 0 <= k < nudp -> tab !! k = Some v -> level v = 0
    end.
Proof.
  intros Hn He.
  destruct (best_match tab level udp_full (fun n i => udpDemux_loop n i tab dstpt srcpt dstip srcip)) with (n := nudp)
    as (r & Er & Hr); [done|exact demux_step|done|done|].
  exists r. split; [exact Er|]. destruct r; [done|]. intros k v Hk Hv. pose proof (Hr k v Hk Hv).
  unfold level, udp_level in *. repeat case_match; lia.
Qed.

End demux.

(** A device bound to port 53 only, and one that is connected to the sender *)
Definition demux_here : netaddr := mknetaddr 4 4 [10; 0; 0; 1; 0; 0].
Definition demux_peer : netaddr := mknetaddr 4 4 [10; 0; 0; 2; 0; 0].
Definition demux_tab : gmap Z udp :=
  <[0 := set_u_state UDP_OPEN (set_u_localpt 53 (set_u_localip demux_here udp_zero))]>
  {[1 := set_u_state UDP_OPEN (set_u_remotept 9000 (set_u_remoteip demux_peer
           (set_u_localpt 53 (set_u_localip demux_here udp_zero))))]}.

Lemma udpDemux_best_match_witness :
  exists r, udpDemux 2 demux_tab 53 9000 demux_here demux_peer = Some r /\
    match r with
    | Some j => first_best demux_tab (udp_level 53 9000 demux_here demux_peer) 0 2 j /\ j = 1
    | None => False
    end.
Proof.
  destruct (udpDemux_best_match demux_tab 53 9000 demux_here demux_peer) with (nudp := 2) as (r & E & H).
  - vm_compute. lia.
  - vm_compute. lia.
  - lia.
  - intros j Hj. assert (j = 0 \/ j = 1) as [-> | ->] by lia.
    + eexists. split; [reflexivity|]. split; vm_compute; lia.
    + eexists. split; [reflexivity|]. split; vm_compute; lia.
  - exists r. split; [exact E|]. assert (E' : r = Some 1) by (injection E as <-; vm_compute; reflexivity).
    subst r. split; [apply H|reflexivity].
Defined.

(** ** A device with a pool of two buffers *)

(** The memory of a host with a packet from port 9000 to port 53, without data, and one stored at 0x40000 with four octets *)
Definition inbox_mem : memory :=
  stbs (stbs (st (pool_words (mem tokens)) (pkt_curr 0x1000) 0x1400) 0x1400 [0x23; 0x28; 0; 53; 0; 8; 0xc8; 0x7e])
    0x40000 [0x28; 0x23; 53; 0; 12; 0; 0; 0; 1; 2; 3; 4].

Definition inbox_dev : udp :=
  set_u_isem 2 (set_u_inPool 3 (set_u_state UDP_OPEN (set_u_localpt 53 (set_u_localip demux_here udp_zero)))).

Definition inbox (u : udp) : udpst :=
  mkudpst (mknetst (mksysst (set_mem inbox_mem tokens) ∅ 0 0 {[3 := pool_entry 0x30000]}) ∅ 0 [] 0 [] 0) {[0 := u]} 0.

Lemma inbox_inv u : KInv (ukern (inbox u)).
Proof. apply KInv_mem, tokens_inv. Qed.

Definition one_stored : udp := default udp_zero (udp_store 0x40000 inbox_dev).

Lemma one_stored_holds : holds one_stored [0x40000].
Proof.
  assert (H0 : holds inbox_dev []) by (destruct holds_zero; by split).
  destruct (holds_store 0x40000 inbox_dev [] H0) as (l & E & H); [done|]. unfold one_stored. by rewrite E.
Qed.

Lemma stored_words : ldh inbox_mem 0x40004 = 12 /\ ldbs inbox_mem 0x40008 4 = [1; 2; 3; 4].
Proof. vm_compute. split; reflexivity. Qed.

Lemma udpRead_takes_witness : exists s' u',
  run (udpRead 0 0x50000 100) (inbox one_stored) = run (udpFreebuf 0x40000;; mret 4) s' /\
  udptab s' = <[0 := u']> (udptab (inbox one_stored)) /\ holds u' [] /\ ldbs (umem s') 0x50000 4 = [1; 2; 3; 4].
Proof.
  pose proof (udpRead_takes (inbox one_stored) 0 0x50000 100 one_stored (mksement SUSED 2 104) (inbox_inv _) eq_refl tokens_sender
    ltac:(lia)) as H. cbv zeta in H. change (negb _ && _) with false in H. change (0 <? _) with true in H. cbv iota in H.
  destruct stored_words as [W1 W2].
  assert (Hl : ldh (umem (inbox one_stored)) (udp_len 0x40000) = 12) by exact W1.
  destruct (H one_stored 0x40000 [] eq_refl one_stored_holds) as (s' & u' & E & _ & _ & Et & Hh & _ & _ & _ & Ho);
    [discriminate|rewrite Hl; unfold UDP_HDR_LEN; lia|].
  assert (Ep : payload (u_flags one_stored) 0x40000 = 0x40008) by (vm_compute; reflexivity).
  assert (En : Z.min 100 (payload_len (u_flags one_stored) 12) = 4) by (vm_compute; reflexivity).
  rewrite Hl, En in E, Ho. rewrite Ep in Ho. exists s', u'. split_and!; [exact E|exact Et|exact Hh|].
  change (Z.to_nat 4) with 4%nat in Ho. rewrite Ho by lia. exact W2.
Defined.

Lemma inbox_room : segment_room inbox_mem 0x1000 8 0x1400.
Proof. split; [reflexivity|]. split; [vm_compute; reflexivity|]. unfold sizeof_packet. lia. Qed.

(** What the computation of the checksum leaves, and the words of the pool behind it *)
Lemma inbox_sum : exists M1,
  run (udpChksum 0x1000 8 demux_peer demux_here) (unet (inbox inbox_dev)) = Returned (with_mem (unet (inbox inbox_dev)) M1) 0 /\
  let M2 := host_order M1 0x1400 in
  (ld M2 0x30000 = 0x30010 /\ ld M2 0x30004 = 3 /\ ld M2 0x30010 = 0x30020 /\ ld M2 0x30014 = 3) /\
  ldbs M2 0x1400 8 = [0x28; 0x23; 53; 0; 8; 0; 0xc8; 0x7e].
Proof.
  destruct (pseudo_run (unet (inbox inbox_dev)) inbox_mem IPv4_PROTO_UDP 0x1000 8 0x1400 demux_peer demux_here inbox_room)
    as (M1 & E & _ & _); [simpl; lia..|]. rewrite <- udp_pseudo in E.
  pose proof (with_mem_self (unet (inbox inbox_dev))) as Hself.
  change (mem (nkern (unet (inbox inbox_dev)))) with inbox_mem in Hself. rewrite Hself in E.
  set (o := run (udpChksum 0x1000 8 demux_peer demux_here) (unet (inbox inbox_dev))) in *.
  assert (H : match o with
    | Returned n c => let M2 := host_order (mem (nkern n)) 0x1400 in c = 0 /\
        (ld M2 0x30000 = 0x30010 /\ ld M2 0x30004 = 3 /\ ld M2 0x30010 = 0x30020 /\ ld M2 0x30014 = 3) /\
        ldbs M2 0x1400 8 = [0x28; 0x23; 53; 0; 8; 0; 0xc8; 0x7e]
    | _ => False
    end) by (vm_compute; split_and!; reflexivity).
  exists M1. rewrite E in H. destruct H as (H0 & H). rewrite H0 in E. split; [exact E|exact H].
Qed.

Lemma inbox_pool M : ld M 0x30000 = 0x30010 /\ ld M 0x30004 = 3 /\ ld M 0x30010 = 0x30020 /\ ld M 0x30014 = 3 ->
  pool_at (set_kern (set_mem M (ukern (inbox inbox_dev))) (sys (unet (inbox inbox_dev)))) 3 (pool_entry 0x30000) [0x30000; 0x30010] [].
Proof.
  intros (W1 & W2 & W3 & W4).
  split; [done|done|done| |intros b Hb; inversion Hb|]; cbn [kern set_kern mem set_mem].
  - split; [done|]. rewrite W1. done.
  - split.
    + repeat constructor; set_solver.
    + intros b Hb. assert (b = 0x30000 \/ b = 0x30010) as [-> | ->] by set_solver; lia.
    + intros b Hb. assert (b = 0x30000 \/ b = 0x30010) as [-> | ->] by set_solver; done.
    + intros b b' Hb Hb'. assert (b = 0x30000 \/ b = 0x30010) as [-> | ->] by set_solver;
        assert (b' = 0x30000 \/ b' = 0x30010) as [-> | ->] by set_solver; lia.
Qed.

