(* ===== verification/Tty.v ===== *)
(** * Terminals (include/tty.h, device/tty)

    The state is the kernel, the table of terminals, the keys that the hardware device will
    deliver and the record of what was output.  [getc] of the hardware takes the
    next key; with none left the reader waits for good, and the run ends there with
    [Halt].  A failed read is the key [SYSERR].  The output is the sequence of characters
    given to [putc] of the hardware, with the result [putc_result], and of calls of
    [printf].  [ndevs] is the number of devices, [ttyaddr d] the address of [ttytab[d]].  A [device *] is the number of the device; a terminal is named by its minor
    number.  The octets for the caller's buffer are returned as a list. *)

From S2P Require Import Prelude Prog Queue Interrupt Memory Kernel CString.
From stdpp Require Import strings.

Local Open Scope Z_scope.

Definition TTY_IBLEN : Z := 1024.
Definition TTY_IRAW : Z := 0x01.
Definition TTY_INLCR : Z := 0x02.
Definition TTY_IGNCR : Z := 0x04.
Definition TTY_ICRNL : Z := 0x08.
Definition TTY_ECHO : Z := 0x10.
Definition TTY_ONLCR : Z := 0x01.
Definition TTY_OCRNL : Z := 0x02.
Definition TTY_CTRL_SET_IFLAG : Z := 0x20.
Definition TTY_CTRL_CLR_IFLAG : Z := 0x21.
Definition TTY_CTRL_SET_OFLAG : Z := 0x22.
Definition TTY_CTRL_CLR_OFLAG : Z := 0x23.

Record tty : Type := mktty {
  t_phw : option Z;
  t_iflags : Z;
  t_ieof : bool;
  t_idelim : bool;
  t_in : list Z;
  t_istart : Z;
  t_icount : Z;
  t_oflags : Z;
}.

Definition set_t_phw (v : option Z) (t : tty) : tty :=
  mktty v (t_iflags t) (t_ieof t) (t_idelim t) (t_in t) (t_istart t) (t_icount t) (t_oflags t).
Definition set_t_iflags (v : Z) (t : tty) : tty :=
  mktty (t_phw t) v (t_ieof t) (t_idelim t) (t_in t) (t_istart t) (t_icount t) (t_oflags t).
Definition set_t_ieof (v : bool) (t : tty) : tty :=
  mktty (t_phw t) (t_iflags t) v (t_idelim t) (t_in t) (t_istart t) (t_icount t) (t_oflags t).
Definition set_t_idelim (v : bool) (t : tty) : tty :=
  mktty (t_phw t) (t_iflags t) (t_ieof t) v (t_in t) (t_istart t) (t_icount t) (t_oflags t).
Definition set_t_in (v : list Z) (t : tty) : tty :=
  mktty (t_phw t) (t_iflags t) (t_ieof t) (t_idelim t) v (t_istart t) (t_icount t) (t_oflags t).
Definition set_t_istart (v : Z) (t : tty) : tty :=
  mktty (t_phw t) (t_iflags t) (t_ieof t) (t_idelim t) (t_in t) v (t_icount t) (t_oflags t).
Definition set_t_icount (v : Z) (t : tty) : tty :=
  mktty (t_phw t) (t_iflags t) (t_ieof t) (t_idelim t) (t_in t) (t_istart t) v (t_oflags t).
Definition set_t_oflags (v : Z) (t : tty) : tty :=
  mktty (t_phw t) (t_iflags t) (t_ieof t) (t_idelim t) (t_in t) (t_istart t) (t_icount t) v.

(** A block after [bzero] *)
Definition tty_zero : tty := mktty None 0 false false (replicate (Z.to_nat TTY_IBLEN) 0) 0 0 0.

(** What is output *)
Inductive event : Type :=
| Putc (ch : Z)
| Printf (fmt : string) (args : list Z).

Record con : Type := mkcon {
  ckern : kernel;
  ttytab : gmap Z tty;
  keys : list Z;
  screen : list event;
}.

Definition set_ckern (v : kernel) (s : con) : con := mkcon v (ttytab s) (keys s) (screen s).
Definition set_ttytab (v : gmap Z tty) (s : con) : con := mkcon (ckern s) v (keys s) (screen s).
Definition set_keys (v : list Z) (s : con) : con := mkcon (ckern s) (ttytab s) v (screen s).
Definition set_screen (v : list event) (s : con) : con := mkcon (ckern s) (ttytab s) (keys s) v.

#[export] Instance ckern_part : Part ckern set_ckern.
Proof. split; [done| |done]. by intros []. Qed.

Definition ckcall {A} (p : prog kernel A) : prog con A := zoom ckern set_ckern p.

(** [ttytab[d]] and assignments to it *)
Definition tt_at (d : Z) : prog con tty := readopt (fun s => ttytab s !! d).
Definition upd_tt (d : Z) (f : tty -> option tty) : prog con unit :=
  lift (fun s => t ← ttytab s !! d; t ← f t; Some (set_ttytab (<[d := t]> (ttytab s)) s, tt)).
Definition set_tt (d : Z) (f : tty -> tty) : prog con unit := upd_tt d (fun t => Some (f t)).

(** [in[index]]; an index outside the array faults. *)
Definition in_get (t : tty) (index : Z) : option Z :=
  if index <? 0 then None else t_in t !! Z.to_nat index.
Definition in_set (index ch : Z) (t : tty) : option tty :=
  if (0 <=? index) && (index <? TTY_IBLEN) then Some (set_t_in (<[Z.to_nat index := u8 ch]> (t_in t)) t) else None.

(** ** The devices below *)

Definition phw_getc : prog con Z :=
  l ← gets keys;
  match l with
  | [] => Halt
  | ch :: l => modify (set_keys l);; mret ch
  end.

Definition emit (e : event) : prog con unit := modify (fun s => set_screen (screen s ++ [e]) s).
Definition printf (fmt : string) (args : list Z) : prog con unit := emit (Printf fmt args).

Section tty.
Variable putc_result : Z -> Z.
Variable ndevs : Z.
Variable ttyaddr : Z -> Z.

Definition phw_putc (ch : Z) : prog con Z := emit (Putc ch);; mret (putc_result ch).

(** ** ttyInit, ttyOpen, ttyClose, ttyControl *)

Definition ttyInit (d : Z) : prog con Z := set_tt d (fun _ => tty_zero);; mret OK.

Definition ttyOpen (d dvnum : Z) : prog con Z :=
  if negb ((0 <=? dvnum) && (dvnum <? ndevs)) then printf "ttyOpen: 31: bad device: %d" [dvnum];; mret SYSERR
  else
    im ← ckcall k_disable;
    t ← tt_at d;
    match t_phw t with
    | Some _ => ckcall (k_restore im);; mret SYSERR
    | None =>
        set_tt d (set_t_istart 0);;
        set_tt d (set_t_icount 0);;
        set_tt d (set_t_idelim false);;
        set_tt d (set_t_iflags TTY_ICRNL);;
        set_tt d (set_t_ieof false);;
        set_tt d (set_t_oflags TTY_ONLCR);;
        set_tt d (set_t_phw (Some dvnum));;
        ckcall (k_restore im);;
        mret OK
    end.

Definition ttyClose (d : Z) : prog con Z :=
  im ← ckcall k_disable;
  set_tt d (fun _ => tty_zero);;
  ckcall (k_restore im);;
  mret OK.

Definition ttyControl (d func arg1 : Z) : prog con Z :=
  t ← tt_at d;
  match t_phw t with
  | None => mret SYSERR
  | Some _ =>
      if func =? TTY_CTRL_SET_IFLAG then
        set_tt d (set_t_iflags (u8 (Z.lor (t_iflags t) arg1)));; mret (u8 (Z.land (t_iflags t) arg1))
      else if func =? TTY_CTRL_CLR_IFLAG then
        set_tt d (set_t_iflags (u8 (Z.land (t_iflags t) (Z.lnot arg1))));; mret (u8 (Z.land (t_iflags t) arg1))
      else if func =? TTY_CTRL_SET_OFLAG then
        set_tt d (set_t_oflags (u8 (Z.lor (t_oflags t) arg1)));; mret (u8 (Z.land (t_oflags t) arg1))
      else if func =? TTY_CTRL_CLR_OFLAG then
        set_tt d (set_t_oflags (u8 (Z.land (t_oflags t) (Z.lnot arg1))));; mret (u8 (Z.land (t_oflags t) arg1))
      else mret SYSERR
  end.

(** ** ttyPutc, ttyWrite, ttyEcho *)

Definition flag (x f : Z) : bool := negb (Z.land x f =? 0).

Definition ttyPutc (d ch : Z) : prog con Z :=
  t ← tt_at d;
  match t_phw t with
  | None => mret SYSERR
  | Some _ =>
      if ch =? 10 then
        if flag (t_oflags t) TTY_ONLCR then
          r ← phw_putc 13;
          if r =? SYSERR then mret SYSERR else phw_putc ch
        else phw_putc ch
      else if (ch =? 13) && flag (t_oflags t) TTY_OCRNL then phw_putc 10
      else phw_putc ch
  end.

Fixpoint ttyWrite_loop (d : Z) (buf : list Z) (count : Z) : prog con Z :=
  match buf with
  | [] => mret count
  | ch :: buf =>
      r ← ttyPutc d (u8 ch);
      if r =? SYSERR then mret SYSERR else ttyWrite_loop d buf (count + 1)
  end.
Definition ttyWrite (d : Z) (buf : list Z) : prog con Z := ttyWrite_loop d buf 0.

Definition ttyEcho (d ch : Z) : prog con unit :=
  let ch := u8 ch in
  if (ch =? 8) || (ch =? 0x7F) then ttyPutc d 8;; ttyPutc d 32;; ttyPutc d 8;; mret tt
  else
    p ← readopt (fun _ => isprint ch);
    if (p : bool) then ttyPutc d ch;; mret tt else mret tt.

(** ** ttyRead *)

(** [while ((0 < icount) && (count < len))]: at most [n] characters for the caller's
    buffer.  The index [istart - left] of the raw mode has [left = 0]. *)
Fixpoint fill_loop (n : nat) (d : Z) : prog con (list Z) :=
  match n with
  | O => mret []
  | S n =>
      t ← tt_at d;
      if 0 <? t_icount t then
        ch ← readopt (fun _ => in_get t (t_istart t));
        set_tt d (set_t_icount (t_icount t - 1));;
        set_tt d (set_t_istart (u32 (t_istart t + 1) mod TTY_IBLEN));;
        l ← fill_loop n d;
        mret (ch :: l)
      else mret []
  end.

(** The rest of the caller's buffer in raw mode: [n] characters are missing.  [None] is
    a failed read. *)
Fixpoint raw_loop (n : nat) (d : Z) (l : list Z) : prog con (option (list Z)) :=
  match n with
  | O => mret (Some l)
  | S n =>
      ch ← phw_getc;
      if ch =? SYSERR then mret None
      else
        t ← tt_at d;
        (if flag (t_iflags t) TTY_ECHO then ttyEcho d ch else mret tt);;
        raw_loop n d (l ++ [u8 ch])
  end.

(** [for (i = left+1; i >= 0; i--)]: the [n] rounds that are left of the loop that moves
    the characters from the cursor on to the front, with [i = n - 1]. *)
Fixpoint shift_front (n : nat) (t : tty) : option tty :=
  match n with
  | O => Some t
  | S n' =>
      let base := t_istart t + t_icount t - Z.of_nat n' in
      ch ← in_get t (u32 (base + 1));
      t ← in_set (u32 base) ch t;
      shift_front n' t
  end.

(** [for (i = left; i >= 0; i--)]: the loop that makes room at the cursor. *)
Fixpoint shift_back (n : nat) (left : Z) (t : tty) : option tty :=
  match n with
  | O => Some t
  | S n' =>
      let pos := t_istart t + t_icount t - left + Z.of_nat n' in
      ch ← in_get t (u32 pos mod TTY_IBLEN);
      t ← in_set (u32 (pos + 1) mod TTY_IBLEN) ch t;
      shift_back n' left t
  end.

(** The line is printed, [n] characters from [i] on. *)
Fixpoint show_loop (n : nat) (d i : Z) : prog con unit :=
  match n with
  | O => mret tt
  | S n =>
      t ← tt_at d;
      ch ← readopt (fun _ => in_get t (u32 (t_istart t + i)));
      printf "%c" [ch];;
      show_loop n d (i + 1)
  end.

(** How the [switch] is left: by [continue], or by [break] with the character to echo, if any. *)
Inductive cooked : Type :=
| Continue (left : Z)
| Break (left : Z) (echo : option Z).

(** A character goes into the buffer at [index]. *)
Definition place_char (d index ch : Z) : prog con unit :=
  upd_tt d (in_set (u32 index mod TTY_IBLEN) ch);;
  set_tt d (fun t => set_t_icount (u32 (t_icount t + 1)) t).

(** Backspace or delete *)
Definition key_delete (d left ch : Z) : prog con cooked :=
  t ← tt_at d;
  if t_icount t <? 1 then mret (Continue left)
  else if negb (left =? 0) then
    upd_tt d (shift_front (Z.to_nat (left + 2)));;
    printf "\033[s" [];;
    printf "\033[%dD" [i32 (t_icount t - left)];;
    printf "\033[K" [];;
    set_tt d (fun t => set_t_icount (t_icount t - 1) t);;
    show_loop (Z.to_nat (t_icount t - 1)) d 0;;
    printf "\033[u" [];;
    printf "\033[1D" [];;
    mret (Continue left)
  else
    set_tt d (fun t => set_t_icount (t_icount t - 1) t);;
    mret (Break left (Some ch)).

Definition key_newline (d left : Z) : prog con cooked :=
  t ← tt_at d;
  let ch := if flag (t_iflags t) TTY_INLCR then 13 else 10 in
  place_char d (t_istart t + t_icount t - left) ch;;
  set_tt d (set_t_idelim true);;
  mret (Break left (Some ch)).

Definition key_return (d left : Z) : prog con cooked :=
  t ← tt_at d;
  if flag (t_iflags t) TTY_IGNCR then mret (Continue left)
  else
    let ch := if flag (t_iflags t) TTY_ICRNL then 10 else 13 in
    place_char d (t_istart t + t_icount t + left) ch;;
    set_tt d (set_t_idelim true);;
    mret (Break (left - 1) (Some ch)).

(** Escape sequences: the arrow keys *)
Definition key_escape (d left : Z) : prog con cooked :=
  ch ← phw_getc;
  if ch =? 91 then
    ch ← phw_getc;
    t ← tt_at d;
    if ch =? 67 then
      if 0 <? left then printf "\033[1C" [];; mret (Break (left - 1) None) else mret (Break left None)
    else if ch =? 68 then
      if negb ((u32 left =? t_icount t) || (t_icount t =? 0))
      then printf "\033[1D" [];; mret (Break (left + 1) None) else mret (Break left None)
    else mret (Break left None)
  else mret (Break left None).

(** Any other character *)
Definition key_other (d left ch : Z) : prog con cooked :=
  p ← readopt (fun _ => isprint ch);
  if negb (p : bool) then mret (Continue left)
  else
    t ← tt_at d;
    if negb (left =? 0) then
      upd_tt d (shift_back (Z.to_nat (left + 1)) left);;
      place_char d (t_istart t + t_icount t - left) ch;;
      printf "\033[s" [];;
      printf "\033[%dD" [i32 (t_icount t + 1 - left - 1)];;
      printf "\033[K" [];;
      show_loop (Z.to_nat (t_icount t + 1)) d 0;;
      printf "\033[u" [];;
      printf "\033[1C" [];;
      mret (Continue left)
    else
      place_char d (t_istart t + t_icount t - left) ch;;
      mret (Break left (Some ch)).

Definition cook (d left ch : Z) : prog con cooked :=
  if (ch =? 8) || (ch =? 0x7F) then key_delete d left ch
  else if ch =? 10 then key_newline d left
  else if ch =? 13 then key_return d left
  else if ch =? 4 then set_tt d (set_t_ieof true);; set_tt d (set_t_idelim true);; mret (Break left (Some ch))
  else if ch =? 27 then key_escape d left
  else key_other d left ch.

(** The loop of the cooked mode: whether no read failed.  Each round takes a key. *)
Fixpoint cook_loop (fuel : nat) (d left : Z) : prog con bool :=
  match fuel with
  | O => Fault
  | S fuel =>
      t ← tt_at d;
      if (t_icount t <? TTY_IBLEN) && negb (t_idelim t) then
        ch ← phw_getc;
        if ch =? SYSERR then mret false
        else
          r ← cook d left ch;
          match r with
          | Continue left' => cook_loop fuel d left'
          | Break left' None => cook_loop fuel d left'
          | Break left' (Some ch) =>
              t ← tt_at d;
              (if flag (t_iflags t) TTY_ECHO then ttyEcho d ch else mret tt);;
              if flag (t_iflags t) TTY_IRAW then mret true else cook_loop fuel d left'
          end
      else mret true
  end.

(** The value returned and, when it is not an error, the characters in the caller's
    buffer, of size [len].  The first output is a message with the address of the entry. *)
Definition ttyRead (d len : Z) : prog con (Z * list Z) :=
  t ← tt_at d;
  printf "%d\n" [ttyaddr d];;
  match t_phw t with
  | None => mret (SYSERR, [])
  | Some _ =>
      if t_ieof t then set_tt d (set_t_ieof false);; mret (EOF, [])
      else if flag (t_iflags t) TTY_IRAW then
        l ← fill_loop (Z.to_nat len) d;
        r ← raw_loop (Z.to_nat len - length l) d l;
        mret (match r with None => (SYSERR, []) | Some l => (Z.of_nat (length l), l) end)
      else
        n ← gets (fun s => length (keys s));
        ok ← cook_loop (S n) d 0;
        if negb (ok : bool) then mret (SYSERR, [])
        else
          l ← fill_loop (Z.to_nat len) d;
          t ← tt_at d;
          (if t_icount t =? 0 then set_tt d (set_t_idelim false) else mret tt);;
          if bool_decide (l = []) && t_ieof t then set_tt d (set_t_ieof false);; mret (EOF, [])
          else mret (Z.of_nat (length l), l)
  end.

Definition ttyGetc (d : Z) : prog con Z :=
  '(result, l) ← ttyRead d 1;
  if negb (result =? 1) then mret result else readopt (fun _ => head l).

End tty.
