(* ===== verification/TtyProps.v ===== *)
(** * Properties of terminals: line editing *)

From S2P Require Import Prelude Prog Queue Interrupt Memory Kernel CString CStringSpec NetAddrSpec Samples Tty.
From stdpp Require Import strings.

Local Open Scope Z_scope.
Local Arguments Z.eqb : simpl never.
Local Arguments Z.ltb : simpl never.

(** ** The reference editor

    A line is edited with a cursor: the text in front of it and the text behind it. *)

Inductive key : Type :=
| KChar (c : Z)
| KBack (c : Z)
| KLeft
| KRight.

(** What the keyboard sends *)
Definition sends (k : key) : list Z :=
  match k with
  | KChar c | KBack c => [c]
  | KLeft => [27; 91; 68]
  | KRight => [27; 91; 67]
  end.

Definition edit (l : list Z * list Z) (k : key) : list Z * list Z :=
  let '(b, a) := l in
  match k with
  | KChar c => (b ++ [c], a)
  | KBack _ => (removelast b, a)
  | KLeft => match last b with Some c => (removelast b, c :: a) | None => (b, a) end
  | KRight => match a with c :: a => (b ++ [c], a) | [] => (b, a) end
  end.

(** The keys for which the code follows it: printable characters while the line has less than [m]
    of them; a key that deletes, unless the cursor is at the start of a line
    that is not empty. *)
Definition key_ok (m : Z) (l : list Z * list Z) (k : key) : Prop :=
  match k with
  | KChar c => isprint c = Some true /\ c <> 10 /\ c <> 13 /\ Z.of_nat (length (l.1 ++ l.2)) < m
  | KBack c => (c = 8 \/ c = 127) /\ (l.1 = [] -> l.2 = [])
  | KLeft | KRight => True
  end.

Fixpoint keys_ok (m : Z) (l : list Z * list Z) (ks : list key) : Prop :=
  match ks with
  | [] => True
  | k :: ks => key_ok m l k /\ keys_ok m (edit l k) ks
  end.

(** ** The buffer *)

Lemma in_set_some i ch t : 0 <= i < TTY_IBLEN -> in_set i ch t = Some (set_t_in (<[Z.to_nat i := u8 ch]> (t_in t)) t).
Proof. intros H. unfold in_set. rewrite (proj2 (Z.leb_le _ _)), (proj2 (Z.ltb_lt _ _)) by lia. done. Qed.

Lemma in_get_set i v t j : 0 <= i < Z.of_nat (length (t_in t)) ->
  in_get (set_t_in (<[Z.to_nat i := v]> (t_in t)) t) j = if decide (i = j) then Some v else in_get t j.
Proof.
  intros Hi. unfold in_get. simpl. destruct (Z.ltb_spec j 0); case_decide; try done; try lia.
  - subst j. apply list_lookup_insert_eq. lia.
  - apply list_lookup_insert_ne. lia.
Qed.

(** The text [l] is in the buffer, which does not wrap. *)
Record text (t : tty) (l : list Z) : Prop := {
  tx_len : length (t_in t) = Z.to_nat TTY_IBLEN;
  tx_bytes : Forall ubyte (t_in t);
  tx_start : 0 <= t_istart t;
  tx_count : t_icount t = Z.of_nat (length l);
  tx_room : t_istart t + Z.of_nat (length l) <= 1022;
  tx_text : forall (k : nat) x, l !! k = Some x -> in_get t (t_istart t + Z.of_nat k) = Some x;
}.

(** Only the buffer and its count differ. *)
Definition same (t t' : tty) : Prop := t' = set_t_icount (t_icount t') (set_t_in (t_in t') t).

Lemma in_get_some t j : length (t_in t) = Z.to_nat TTY_IBLEN -> Forall ubyte (t_in t) -> 0 <= j < TTY_IBLEN ->
  exists x, in_get t j = Some x /\ ubyte x.
Proof.
  intros Hl Hb Hj. unfold in_get. rewrite (proj2 (Z.ltb_ge _ _)) by lia.
  destruct (t_in t !! Z.to_nat j) as [x|] eqn:E; [|apply lookup_ge_None in E; unfold TTY_IBLEN in *; lia].
  exists x. split; [done|]. by eapply Forall_lookup_1.
Qed.

(** The characters from [e - (n - 1)] to [e], where [e] is the end of the text, are replaced by
    their successors. *)
Lemma shift_front_spec n t : length (t_in t) = Z.to_nat TTY_IBLEN -> Forall ubyte (t_in t) ->
  let e := t_istart t + t_icount t in
  Z.of_nat n - 1 <= e -> 0 <= e -> e + 1 < TTY_IBLEN ->
  exists l', shift_front n t = Some (set_t_in l' t) /\ length l' = length (t_in t) /\ Forall ubyte l' /\
    forall j, in_get (set_t_in l' t) j = if decide (e - (Z.of_nat n - 1) <= j <= e) then in_get t (j + 1) else in_get t j.
Proof.
  intros Hl Hb e. revert t Hl Hb e. induction n as [|n IH]; intros t Hl Hb e Hn He He1; cbn [shift_front].
  { exists (t_in t). split_and!; [by destruct t|done|done|]. intros j. rewrite decide_False by lia. by destruct t. }
  pose proof (eq_refl : TTY_IBLEN = 1024) as HT. fold e.
  rewrite !u32_id by (unfold is_u32; lia).
  destruct (in_get_some t (e - Z.of_nat n + 1)) as (x & Hx & Hu); [done|done|lia|]. rewrite Hx. cbn [mbind option_bind].
  rewrite in_set_some by lia. cbn [mbind option_bind].
  assert (Hux : u8 x = x) by (unfold u8, ubyte in *; apply Z.mod_small; lia). rewrite Hux.
  set (t1 := set_t_in (<[Z.to_nat (e - Z.of_nat n) := x]> (t_in t)) t).
  destruct (IH t1) as (l' & E & Hl' & Hb' & Hg).
  - simpl. by rewrite length_insert.
  - simpl. by apply Forall_insert.
  - simpl. fold e. lia.
  - done.
  - done.
  - exists l'. rewrite E. split_and!; [done|by rewrite Hl'; simpl; rewrite length_insert|done|].
    intros j. change (set_t_in l' t) with (set_t_in l' t1). rewrite Hg. change (t_istart t1 + t_icount t1) with e.
    unfold t1. rewrite !in_get_set by (unfold TTY_IBLEN in *; lia).
    repeat case_decide; try done; try lia; subst j; rewrite <- Hx; f_equal; lia.
Qed.

(** The [n] characters from the cursor [p] on move one place to the back. *)
Lemma shift_back_spec n lf t : length (t_in t) = Z.to_nat TTY_IBLEN -> Forall ubyte (t_in t) ->
  let p := t_istart t + t_icount t - lf in
  0 <= p -> p + Z.of_nat n < TTY_IBLEN ->
  exists l', shift_back n lf t = Some (set_t_in l' t) /\ length l' = length (t_in t) /\ Forall ubyte l' /\
    forall j, in_get (set_t_in l' t) j = if decide (p + 1 <= j <= p + Z.of_nat n) then in_get t (j - 1) else in_get t j.
Proof.
  intros Hl Hb p. revert t Hl Hb p. induction n as [|n IH]; intros t Hl Hb p Hp Hn; cbn [shift_back].
  { exists (t_in t). split_and!; [by destruct t|done|done|]. intros j. rewrite decide_False by lia. by destruct t. }
  pose proof (eq_refl : TTY_IBLEN = 1024) as HT. fold p.
  rewrite !u32_id by (unfold is_u32; lia). rewrite !Z.mod_small by lia.
  destruct (in_get_some t (p + Z.of_nat n)) as (x & Hx & Hu); [done|done|lia|]. rewrite Hx. cbn [mbind option_bind].
  rewrite in_set_some by lia. cbn [mbind option_bind].
  assert (Hux : u8 x = x) by (unfold u8, ubyte in *; apply Z.mod_small; lia). rewrite Hux.
  set (t1 := set_t_in (<[Z.to_nat (p + Z.of_nat n + 1) := x]> (t_in t)) t).
  destruct (IH t1) as (l' & E & Hl' & Hb' & Hg).
  - simpl. by rewrite length_insert.
  - simpl. by apply Forall_insert.
  - done.
  - simpl. fold p. lia.
  - exists l'. rewrite E. split_and!; [done|by rewrite Hl'; simpl; rewrite length_insert|done|].
    intros j. change (set_t_in l' t) with (set_t_in l' t1). rewrite Hg. change (t_istart t1 + t_icount t1 - lf) with p.
    unfold t1. rewrite !in_get_set by (unfold TTY_IBLEN in *; lia).
    repeat case_decide; try done; try lia; subst j; rewrite <- Hx; f_equal; lia.
Qed.

(** The text after the cursor's neighbour is deleted, or a character inserted *)
Lemma text_delete t b c a : text t (b ++ c :: a) ->
  exists l', shift_front (length a + 2) t = Some (set_t_in l' t) /\
    text (set_t_icount (t_icount t - 1) (set_t_in l' t)) (b ++ a).
Proof.
  intros []. rewrite length_app in *. simpl in *. pose proof (eq_refl : TTY_IBLEN = 1024) as HT.
  destruct (shift_front_spec (length a + 2) t) as (l' & E & Hl & Hb & Hg); [done|done|lia|lia|lia|].
  exists l'. split; [done|]. split; simpl; [by rewrite Hl|done|done|rewrite length_app; lia|rewrite length_app; lia|].
  intros k x Hk. change (in_get (set_t_icount _ ?u)) with (in_get u). rewrite Hg.
  apply lookup_app_Some in Hk as [Hk|[Hk1 Hk2]].
  - pose proof (lookup_lt_Some _ _ _ Hk). rewrite decide_False by lia. apply tx_text0. by apply lookup_app_l_Some.
  - pose proof (lookup_lt_Some _ _ _ Hk2). rewrite decide_True by lia.
    replace (t_istart t + Z.of_nat k + 1) with (t_istart t + Z.of_nat (S k)) by lia. apply tx_text0.
    rewrite lookup_app_r by lia. replace (S k - length b)%nat with (S (k - length b)) by lia. done.
Qed.

(** A character put at the place of the cursor, [b] in front of it, when the text behind it, [a],
    is one place further to the back. *)
Lemma text_put t t0 b c a : length (t_in t) = Z.to_nat TTY_IBLEN -> Forall ubyte (t_in t) -> ubyte c ->
  0 <= t_istart t -> t_istart t + Z.of_nat (length (b ++ a)) < 1022 ->
  (forall (k : nat) x, b !! k = Some x -> in_get t (t_istart t + Z.of_nat k) = Some x) ->
  (forall (k : nat) x, a !! k = Some x -> in_get t (t_istart t + Z.of_nat (length b) + 1 + Z.of_nat k) = Some x) ->
  in_set (t_istart t + Z.of_nat (length b)) c t = Some t0 ->
  text (set_t_icount (Z.of_nat (length (b ++ c :: a))) t0) (b ++ c :: a).
Proof.
  intros Hl Hb Hc Hs Hr Htb Hta E. pose proof (eq_refl : TTY_IBLEN = 1024) as HT. rewrite !length_app in *. simpl in *.
  rewrite in_set_some in E by lia. injection E as <-.
  assert (Huc : u8 c = c) by (unfold u8, ubyte in *; apply Z.mod_small; lia). rewrite Huc.
  split; simpl; [by rewrite length_insert|by apply Forall_insert|done|rewrite length_app; simpl; lia|rewrite length_app; simpl; lia|].
  intros k x Hk. change (in_get (set_t_icount _ ?u)) with (in_get u). rewrite in_get_set by (unfold TTY_IBLEN in *; lia).
  apply lookup_app_Some in Hk as [Hk|[Hk1 Hk2]].
  - pose proof (lookup_lt_Some _ _ _ Hk). rewrite decide_False by lia. by apply Htb.
  - destruct (k - length b)%nat as [|j] eqn:Ej; simpl in Hk2.
    + injection Hk2 as ->. by rewrite decide_True by lia.
    + rewrite decide_False by lia. rewrite <- (Hta j x Hk2). f_equal. lia.
Qed.

Lemma text_append t l c : text t l -> ubyte c -> t_istart t + Z.of_nat (length l) < 1022 ->
  exists t0, in_set (t_istart t + t_icount t) c t = Some t0 /\ text (set_t_icount (t_icount t + 1) t0) (l ++ [c]).
Proof.
  intros [] Hc Hr. pose proof (eq_refl : TTY_IBLEN = 1024) as HT. rewrite tx_count0.
  destruct (in_set (t_istart t + Z.of_nat (length l)) c t) as [t0|] eqn:E; [|rewrite in_set_some in E by lia; done].
  exists t0. split; [done|]. replace (Z.of_nat (length l) + 1) with (Z.of_nat (length (l ++ [c])))
    by (rewrite length_app; simpl; lia).
  apply (text_put t); try done. by rewrite app_nil_r.
Qed.

Lemma text_insert t b c a : text t (b ++ a) -> ubyte c -> t_istart t + Z.of_nat (length (b ++ a)) < 1022 ->
  exists l' t0, shift_back (length a + 1) (Z.of_nat (length a)) t = Some (set_t_in l' t) /\
    in_set (t_istart t + t_icount t - Z.of_nat (length a)) c (set_t_in l' t) = Some t0 /\
    text (set_t_icount (t_icount t + 1) t0) (b ++ c :: a).
Proof.
  intros [] Hc Hr. pose proof (eq_refl : TTY_IBLEN = 1024) as HT. rewrite length_app in *.
  destruct (shift_back_spec (length a + 1) (Z.of_nat (length a)) t) as (l' & E & Hl & Hb & Hg); [done|done|lia|lia|].
  replace (t_istart t + t_icount t - Z.of_nat (length a)) with (t_istart t + Z.of_nat (length b)) in * by lia.
  destruct (in_set (t_istart t + Z.of_nat (length b)) c (set_t_in l' t)) as [t0|] eqn:E0;
    [|rewrite in_set_some in E0 by lia; done].
  exists l', t0. split_and!; [done|done|].
  replace (t_icount t + 1) with (Z.of_nat (length (b ++ c :: a))) by (rewrite length_app; simpl; lia).
  apply (text_put (set_t_in l' t)); simpl; try done; [by rewrite Hl|rewrite length_app; lia|..].
  - intros k x Hk. pose proof (lookup_lt_Some _ _ _ Hk). rewrite Hg, decide_False by lia.
    apply tx_text0. by apply lookup_app_l_Some.
  - intros k x Hk. pose proof (lookup_lt_Some _ _ _ Hk). rewrite Hg, decide_True by lia.
    replace (t_istart t + Z.of_nat (length b) + 1 + Z.of_nat k - 1) with (t_istart t + Z.of_nat (length b + k)) by lia.
    apply tx_text0. rewrite lookup_app_r by lia. by replace (length b + k - length b)%nat with k by lia.
Qed.

(** ** Characters *)

Lemma isprint_range c : isprint c = Some true -> 0 <= c < 128.
Proof.
  unfold isprint, isclass. destruct (Z.ltb_spec c (-1)) as [|Hc]; [done|]. destruct (ctype_ !! _) as [x|] eqn:E; [|done].
  apply lookup_lt_Some in E as Hl. change (length ctype_) with 129%nat in Hl. intros H.
  destruct (decide (c = -1)) as [->|]; [|lia]. vm_compute in E. injection E as <-. by vm_compute in H.
Qed.

Lemma isprint_total c : 0 <= c < 128 -> exists p, isprint c = Some p.
Proof.
  intros Hc. unfold isprint, isclass. rewrite (proj2 (Z.ltb_ge _ _)) by lia.
  destruct (lookup_lt_is_Some_2 ctype_ (Z.to_nat (c + 1))) as [x ->]; [change (length ctype_) with 129%nat; lia|].
  simpl. by eexists.
Qed.

(** ** Running the code *)

Section run.
Context (putc_result ttyaddr : Z -> Z) (d : Z) (K : kernel) (T : gmap Z tty).

(** The terminal is [t], the keys [ks] are still to come, [scr] was output. *)
Definition at_tty (t : tty) (ks : list Z) (scr : list event) : con := mkcon K (<[d := t]> T) ks scr.

Lemma run_tt {B} (g : tty -> prog con B) t ks scr : run (tt_at d ≫= g) (at_tty t ks scr) = run (g t) (at_tty t ks scr).
Proof. unfold tt_at. erewrite run_readopt_bind; [done|]. apply lookup_insert_eq. Qed.

Lemma run_upd {B} f t' (g : unit -> prog con B) t ks scr : f t = Some t' ->
  run (upd_tt d f ≫= g) (at_tty t ks scr) = run (g tt) (at_tty t' ks scr).
Proof.
  intros E. unfold upd_tt. erewrite run_lift_bind; [done|]. unfold at_tty. simpl. rewrite lookup_insert_eq. simpl.
  rewrite E. simpl. unfold set_ttytab. simpl. by rewrite insert_insert_eq.
Qed.

Lemma run_set {B} f (g : unit -> prog con B) t ks scr :
  run (set_tt d f ≫= g) (at_tty t ks scr) = run (g tt) (at_tty (f t) ks scr).
Proof. by apply run_upd. Qed.

Lemma run_printf {B} fmt args (g : unit -> prog con B) t ks scr :
  run (printf fmt args ≫= g) (at_tty t ks scr) = run (g tt) (at_tty t ks (scr ++ [Printf fmt args])).
Proof. done. Qed.

Lemma run_getc {B} (g : Z -> prog con B) t k ks scr :
  run (phw_getc ≫= g) (at_tty t (k :: ks) scr) = run (g k) (at_tty t ks scr).
Proof. done. Qed.

Lemma run_opt {B X} (o : option X) x (g : X -> prog con B) s : o = Some x -> run (readopt (fun _ => o) ≫= g) s = run (g x) s.
Proof. intros E. by apply run_readopt_bind. Qed.

Lemma run_putc {B} ch (g : Z -> prog con B) t ks scr : t_phw t <> None ->
  exists r scr', run (ttyPutc putc_result d ch ≫= g) (at_tty t ks scr) = run (g r) (at_tty t ks scr').
Proof.
  intros Hp. rewrite run_bind. unfold ttyPutc. rewrite run_tt. destruct (t_phw t); [|done].
  repeat (case_match; try by (eexists _, _; reflexivity)).
  rewrite run_bind. simpl. case_match; eexists _, _; reflexivity.
Qed.

Lemma run_echo {B} ch (g : unit -> prog con B) t ks scr : t_phw t <> None -> 0 <= ch < 128 ->
  exists scr', run (ttyEcho putc_result d ch ≫= g) (at_tty t ks scr) = run (g tt) (at_tty t ks scr').
Proof.
  intros Hp Hc. rewrite run_bind. unfold ttyEcho.
  assert (Hu : u8 ch = ch) by (unfold u8; apply Z.mod_small; lia). rewrite Hu. case_match.
  - destruct (run_putc 8 (fun _ => ttyPutc putc_result d 32;; ttyPutc putc_result d 8;; mret tt) t ks scr Hp) as (r1 & s1 & ->).
    destruct (run_putc 32 (fun _ => ttyPutc putc_result d 8;; mret tt) t ks s1 Hp) as (r2 & s2 & ->).
    destruct (run_putc 8 (fun _ => mret tt) t ks s2 Hp) as (r3 & s3 & ->). by exists s3.
  - destruct (isprint_total ch Hc) as [p Ep]. rewrite (run_opt _ _ _ _ Ep). destruct p; [|by exists scr].
    destruct (run_putc ch (fun _ => mret tt) t ks scr Hp) as (r & s' & ->). by exists s'.
Qed.

Lemma run_show {B} n i (g : unit -> prog con B) t ks scr : length (t_in t) = Z.to_nat TTY_IBLEN -> Forall ubyte (t_in t) ->
  0 <= t_istart t + i -> t_istart t + i + Z.of_nat n <= TTY_IBLEN ->
  exists scr', run (show_loop n d i ≫= g) (at_tty t ks scr) = run (g tt) (at_tty t ks scr').
Proof.
  intros Hl Hb. revert i scr. induction n as [|n IH]; intros i scr Hi Hn; [by exists scr|].
  pose proof (eq_refl : TTY_IBLEN = 1024) as HT.
  destruct (in_get_some t (t_istart t + i)) as (x & Hx & _); [done|done|lia|].
  destruct (IH (i + 1) (scr ++ [Printf "%c" [x]])) as (scr' & E); [lia|lia|]. exists scr'. rewrite <- E.
  rewrite run_bind. cbn [show_loop]. rewrite run_tt, (run_opt _ x), run_printf by (rewrite u32_id by (unfold is_u32; lia); done).
  by rewrite run_bind.
Qed.

(** The terminal is open, in cooked mode, and no line is complete. *)
Record mode (t : tty) : Prop := {
  md_phw : t_phw t <> None;
  md_ieof : t_ieof t = false;
  md_idelim : t_idelim t = false;
  md_raw : flag (t_iflags t) TTY_IRAW = false;
  md_igncr : flag (t_iflags t) TTY_IGNCR = false;
  md_icrnl : flag (t_iflags t) TTY_ICRNL = true;
}.

Lemma mode_same t t' : same t t' -> mode t -> mode t'.
Proof. intros -> []. by split. Qed.

(** What follows the [switch] *)
Definition after_key (fuel : nat) (r : cooked) : prog con bool :=
  match r with
  | Continue lf => cook_loop putc_result fuel d lf
  | Break lf None => cook_loop putc_result fuel d lf
  | Break lf (Some ch) =>
      t ← tt_at d;
      (if flag (t_iflags t) TTY_ECHO then ttyEcho putc_result d ch else mret tt);;
      if flag (t_iflags t) TTY_IRAW then mret true else cook_loop putc_result fuel d lf
  end.

Lemma run_round fuel lf ch t l ks scr : mode t -> text t l -> ch <> SYSERR ->
  run (cook_loop putc_result (S fuel) d lf) (at_tty t (ch :: ks) scr)
  = run (cook d lf ch ≫= after_key fuel) (at_tty t ks scr).
Proof.
  intros [] [] Hc. cbn [cook_loop]. rewrite run_tt, md_idelim0.
  rewrite (proj2 (Z.ltb_lt (t_icount t) TTY_IBLEN)) by (unfold TTY_IBLEN; lia). cbn [andb negb].
  rewrite run_getc, (proj2 (Z.eqb_neq _ _) Hc). done.
Qed.

Lemma run_after fuel lf ch t ks scr : mode t -> 0 <= ch < 128 ->
  exists scr', run (after_key fuel (Break lf (Some ch))) (at_tty t ks scr)
    = run (cook_loop putc_result fuel d lf) (at_tty t ks scr').
Proof.
  intros [] Hc. cbn [after_key]. rewrite run_tt, md_raw0. destruct (flag (t_iflags t) TTY_ECHO).
  - by apply run_echo.
  - by exists scr.
Qed.

Lemma run_place {B} index ch t0 (g : unit -> prog con B) t ks scr : 0 <= index < TTY_IBLEN -> in_set index ch t = Some t0 ->
  0 <= t_icount t < 2 ^ 32 - 1 ->
  run (place_char d index ch ≫= g) (at_tty t ks scr) = run (g tt) (at_tty (set_t_icount (t_icount t + 1) t0) ks scr).
Proof.
  intros Hi E Hc. rewrite run_bind. unfold place_char. pose proof (eq_refl : TTY_IBLEN = 1024) as HT.
  rewrite u32_id, Z.mod_small by (unfold is_u32; lia). rewrite (run_upd _ t0) by done.
  rewrite in_set_some in E by done. injection E as <-. simpl. unfold at_tty. simpl. rewrite lookup_insert_eq. simpl.
  unfold set_ttytab. simpl. rewrite insert_insert_eq, u32_id by (unfold is_u32; lia). done.
Qed.

Lemma same_trans t l n : same t (set_t_icount n (set_t_in l t)).
Proof. done. Qed.

Lemma in_set_same i c t t0 n : in_set i c t = Some t0 -> same t (set_t_icount n t0).
Proof. unfold in_set. case_match; [|done]. by intros [= <-]. Qed.

(** A printable character at the end of the line, and within it *)
Lemma run_append {B} c (g : cooked -> prog con B) l t ks scr : text t l -> isprint c = Some true ->
  t_istart t + Z.of_nat (length l) < 1022 ->
  exists t', run (key_other d 0 c ≫= g) (at_tty t ks scr) = run (g (Break 0 (Some c))) (at_tty t' ks scr) /\
    text t' (l ++ [c]) /\ same t t'.
Proof.
  intros Ht Hp Hr. pose proof (isprint_range c Hp) as Hc. pose proof Ht as []. pose proof (eq_refl : TTY_IBLEN = 1024) as HT.
  destruct (text_append t l c Ht) as (t0 & E & Ht'); [unfold ubyte; lia|done|].
  exists (set_t_icount (t_icount t + 1) t0). split_and!; [|done|by eapply in_set_same].
  rewrite run_bind. unfold key_other. rewrite (run_opt _ _ _ _ Hp). cbn [negb]. rewrite run_tt.
  change (negb (0 =? 0)) with false. cbv iota. rewrite Z.sub_0_r. rewrite (run_place _ _ t0) by (done || lia). done.
Qed.

Lemma run_insert {B} c (g : cooked -> prog con B) b x a t ks scr : text t (b ++ x :: a) -> isprint c = Some true ->
  t_istart t + Z.of_nat (length (b ++ x :: a)) < 1022 -> let lf := Z.of_nat (length (x :: a)) in
  exists t' scr', run (key_other d lf c ≫= g) (at_tty t ks scr) = run (g (Continue lf)) (at_tty t' ks scr') /\
    text t' (b ++ c :: x :: a) /\ same t t'.
Proof.
  intros Ht Hp Hr lf. pose proof (isprint_range c Hp) as Hc. pose proof Ht as []. pose proof (eq_refl : TTY_IBLEN = 1024) as HT.
  destruct (text_insert t b c (x :: a) Ht) as (l' & t0 & E1 & E2 & Ht'); [unfold ubyte; lia|done|]. fold lf in E1, E2.
  rewrite length_app in *. set (t' := set_t_icount (t_icount t + 1) t0) in *.
  assert (Hst : t_istart t' = t_istart t) by (unfold in_set in E2; case_match; [|done]; by injection E2 as <-).
  pose proof Ht' as [Hl' Hb' _ _ Hr' _]. rewrite length_app, Hst in Hr'.
  destruct (run_show (Z.to_nat (t_icount t + 1)) 0 (fun _ => printf "\033[u" [];; printf "\033[1C" [];; mret (Continue lf)) t' ks
    (((scr ++ [Printf "\033[s" []]) ++ [Printf "\033[%dD" [i32 (t_icount t + 1 - lf - 1)]]) ++ [Printf "\033[K" []]))
    as (scr1 & E); [done|done|lia|simpl in *; lia|].
  exists t', ((scr1 ++ [Printf "\033[u" []]) ++ [Printf "\033[1C" []]). split_and!; [|done|].
  - rewrite run_bind. unfold key_other. rewrite (run_opt _ _ _ _ Hp). cbn [negb]. rewrite run_tt.
    assert (El : (lf =? 0) = false) by (apply Z.eqb_neq; unfold lf; simpl; lia). rewrite El. cbn [negb].
    replace (Z.to_nat (lf + 1)) with (length (x :: a) + 1)%nat by (unfold lf; lia).
    rewrite (run_upd _ _ _ _ _ _ E1), (run_place _ _ t0) by (done || (unfold lf; simpl in *; lia)).
    rewrite !run_printf. fold t'. change (t_icount (set_t_in l' t)) with (t_icount t). fold t'. rewrite E. done.
  - unfold in_set in E2. case_match; [|done]. unfold t'. by injection E2 as <-.
Qed.

(** A key that deletes, at the end of the line, and within it *)
Lemma text_prefix t b x : text t (b ++ [x]) -> text (set_t_icount (t_icount t - 1) t) b.
Proof.
  intros []. rewrite length_app in *. simpl in *. split; simpl; try done; [lia|lia|].
  intros k y Hk. apply tx_text0. by apply lookup_app_l_Some.
Qed.

Lemma run_delete_end {B} c (g : cooked -> prog con B) b x t ks scr : text t (b ++ [x]) ->
  exists t', run (key_delete d 0 c ≫= g) (at_tty t ks scr) = run (g (Break 0 (Some c))) (at_tty t' ks scr) /\
    text t' b /\ same t t'.
Proof.
  intros Ht. exists (set_t_icount (t_icount t - 1) t). split_and!; [|by eapply text_prefix|by destruct t].
  pose proof Ht as [_ _ _ Hc _ _]. rewrite length_app in Hc. simpl in Hc.
  rewrite run_bind. unfold key_delete. rewrite run_tt.
  rewrite (proj2 (Z.ltb_ge _ _)) by lia. change (negb (0 =? 0)) with false. cbv iota. rewrite run_set. done.
Qed.

Lemma run_delete_mid {B} c (g : cooked -> prog con B) b y x a t ks scr : text t (b ++ y :: x :: a) ->
  let lf := Z.of_nat (length (x :: a)) in
  exists t' scr', run (key_delete d lf c ≫= g) (at_tty t ks scr) = run (g (Continue lf)) (at_tty t' ks scr') /\
    text t' (b ++ x :: a) /\ same t t'.
Proof.
  intros Ht lf. pose proof Ht as []. pose proof (eq_refl : TTY_IBLEN = 1024) as HT. rewrite length_app in *.
  destruct (text_delete t b y (x :: a) Ht) as (l' & E1 & Ht').
  set (t' := set_t_icount (t_icount t - 1) (set_t_in l' t)) in *. pose proof Ht' as [Hl' Hb' _ _ Hr' _].
  destruct (run_show (Z.to_nat (t_icount t - 1)) 0 (fun _ => printf "\033[u" [];; printf "\033[1D" [];; mret (Continue lf)) t' ks
    (((scr ++ [Printf "\033[s" []]) ++ [Printf "\033[%dD" [i32 (t_icount t - lf)]]) ++ [Printf "\033[K" []]))
    as (scr1 & E); [done|done|simpl; lia|simpl in *; lia|].
  exists t', ((scr1 ++ [Printf "\033[u" []]) ++ [Printf "\033[1D" []]). split_and!; [|done|done].
  rewrite run_bind. unfold key_delete. rewrite run_tt. rewrite (proj2 (Z.ltb_ge _ _)) by (simpl in *; lia).
  assert (El : (lf =? 0) = false) by (apply Z.eqb_neq; unfold lf; simpl; lia). rewrite El. cbn [negb].
  replace (Z.to_nat (lf + 2)) with (length (x :: a) + 2)%nat by (unfold lf; lia).
  rewrite (run_upd _ _ _ _ _ _ E1). rewrite !run_printf, run_set. change (t_icount (set_t_in l' t)) with (t_icount t).
  fold t'. rewrite E. done.
Qed.

(** The arrow keys *)
Lemma run_left {B} (g : cooked -> prog con B) b a t ks scr : text t (b ++ a) -> let lf := Z.of_nat (length a) in
  exists scr', run (key_escape d lf ≫= g) (at_tty t (91 :: 68 :: ks) scr)
    = run (g (Break (if decide (b = []) then lf else lf + 1) None)) (at_tty t ks scr').
Proof.
  intros [] lf. pose proof (eq_refl : TTY_IBLEN = 1024) as HT. rewrite length_app in *.
  rewrite run_bind. unfold key_escape. rewrite run_getc. change (91 =? 91) with true. cbv iota. rewrite run_getc, run_tt.
  change (68 =? 67) with false. change (68 =? 68) with true. cbv iota. rewrite u32_id by (unfold is_u32, lf; lia).
  rewrite tx_count0. case_decide as Hb.
  - subst b. simpl. fold lf. rewrite Z.eqb_refl. by exists scr.
  - assert (0 < length b)%nat by (destruct b; [done|simpl; lia]). unfold lf.
    rewrite !(proj2 (Z.eqb_neq _ _)) by lia. cbn [orb negb]. rewrite run_printf. eexists. done.
Qed.

Lemma run_right {B} (g : cooked -> prog con B) (a : list Z) t ks scr : let lf := Z.of_nat (length a) in
  exists scr', run (key_escape d lf ≫= g) (at_tty t (91 :: 67 :: ks) scr)
    = run (g (Break (if decide (a = []) then lf else lf - 1) None)) (at_tty t ks scr').
Proof.
  intros lf. rewrite run_bind. unfold key_escape. rewrite run_getc. change (91 =? 91) with true. cbv iota.
  rewrite run_getc, run_tt. change (67 =? 67) with true. cbv iota. case_decide as Ha.
  - subst a. simpl. by exists scr.
  - assert (0 < lf) by (unfold lf; destruct a; [done|simpl; lia]). rewrite (proj2 (Z.ltb_lt _ _)) by lia.
    rewrite run_printf. eexists. done.
Qed.

(** One key: the code does what the editor does. *)
Lemma run_key fuel k b a t ks scr : mode t -> text t (b ++ a) -> key_ok (1021 - t_istart t) (b, a) k ->
  let '(b', a') := edit (b, a) k in
  exists t' scr', run (cook_loop putc_result (S fuel) d (Z.of_nat (length a))) (at_tty t (sends k ++ ks) scr)
      = run (cook_loop putc_result fuel d (Z.of_nat (length a'))) (at_tty t' ks scr') /\
    text t' (b' ++ a') /\ same t t'.
Proof.
  intros Hm Ht Hk. destruct k as [c|c| |]; cbn [edit sends app].
  - destruct Hk as (Hp & H10 & H13 & Hr). simpl in Hr. pose proof (isprint_range c Hp) as Hc.
    assert (c <> 8 /\ c <> 127 /\ c <> 4 /\ c <> 27) as (H8 & H127 & H4 & H27)
      by (split_and!; intros ->; vm_compute in Hp; discriminate).
    rewrite (run_round _ _ _ _ _ _ _ Hm Ht) by (unfold SYSERR; lia).
    unfold cook. rewrite !(proj2 (Z.eqb_neq _ _)) by done. cbn [orb]. destruct a as [|x a].
    + rewrite app_nil_r in *. destruct (run_append c (after_key fuel) b t ks scr Ht Hp ltac:(lia)) as (t' & E & Ht' & Hs).
      destruct (run_after fuel 0 c t' ks scr (mode_same _ _ Hs Hm) Hc) as (scr' & E').
      exists t', scr'. change (Z.of_nat (length (@nil Z))) with 0. rewrite E, E', ?app_nil_r. done.
    + destruct (run_insert c (after_key fuel) b x a t ks scr Ht Hp ltac:(lia)) as (t' & scr' & E & Ht' & Hs).
      exists t', scr'. rewrite E, <- app_assoc. done.
  - destruct Hk as (Hc & Hba). simpl in Hba.
    assert (Hnz : c <> SYSERR) by (unfold SYSERR; lia). rewrite (run_round _ _ _ _ _ _ _ Hm Ht) by done.
    assert (Hcook : cook d (Z.of_nat (length a)) c = key_delete d (Z.of_nat (length a)) c)
      by (destruct Hc as [-> | ->]; done). rewrite Hcook.
    destruct b as [|y b _] using rev_ind.
    + rewrite (Hba eq_refl) in *. cbn [removelast]. exists t, scr. split_and!; [|done|by destruct t].
      rewrite run_bind. unfold key_delete. rewrite run_tt. pose proof Ht as [_ _ _ Hn _ _]. rewrite Hn. done.
    + rewrite removelast_last. rewrite <- app_assoc in Ht. cbn [app] in Ht. destruct a as [|x a].
      * destruct (run_delete_end c (after_key fuel) b y t ks scr Ht) as (t' & E & Ht' & Hs).
        destruct (run_after fuel 0 c t' ks scr (mode_same _ _ Hs Hm)) as (scr' & E'); [lia|].
        exists t', scr'. change (Z.of_nat (length (@nil Z))) with 0. rewrite E, E', ?app_nil_r. done.
      * by apply (run_delete_mid c (after_key fuel) b y x a).
  - rewrite (run_round _ _ _ _ _ _ _ Hm Ht) by done. change (cook d ?n 27) with (key_escape d n).
    destruct (run_left (after_key fuel) b a t ks scr Ht) as (scr' & E). rewrite E. cbn [after_key].
    destruct b as [|y b _] using rev_ind.
    + exists t, scr'. split_and!; [done|done|by destruct t].
    + rewrite last_snoc, removelast_last, decide_False by (by destruct b). exists t, scr'.
      split_and!; [|by rewrite <- app_assoc in Ht|by destruct t]. f_equal. f_equal. simpl. lia.
  - rewrite (run_round _ _ _ _ _ _ _ Hm Ht) by done. change (cook d ?n 27) with (key_escape d n).
    destruct (run_right (after_key fuel) a t ks scr) as (scr' & E). rewrite E. cbn [after_key].
    destruct a as [|x a].
    + exists t, scr'. split_and!; [done|done|by destruct t].
    + rewrite decide_False by done. exists t, scr'. split_and!; [|by rewrite <- app_assoc|by destruct t].
      f_equal. f_equal. simpl. lia.
Qed.

Lemma run_keys fuel ks b a t rest scr : mode t -> text t (b ++ a) -> keys_ok (1021 - t_istart t) (b, a) ks ->
  let '(b', a') := foldl edit (b, a) ks in
  exists t' scr', run (cook_loop putc_result (length ks + fuel) d (Z.of_nat (length a)))
        (at_tty t (concat (map sends ks) ++ rest) scr)
      = run (cook_loop putc_result fuel d (Z.of_nat (length a'))) (at_tty t' rest scr') /\
    text t' (b' ++ a') /\ same t t'.
Proof.
  revert b a t scr. induction ks as [|k ks IH]; intros b a t scr Hm Ht Hk.
  { exists t, scr. split_and!; [done|done|by destruct t]. }
  destruct Hk as [Hk Hks]. cbn [foldl map concat length Nat.add].
  pose proof (run_key (length ks + fuel) k b a t (concat (map sends ks) ++ rest) scr Hm Ht Hk) as H.
  destruct (edit (b, a) k) as [b1 a1] eqn:E. destruct H as (t1 & scr1 & Hr & Ht1 & Hs).
  assert (Hi : t_istart t1 = t_istart t) by (by rewrite Hs).
  rewrite <- Hi in Hks. specialize (IH b1 a1 t1 scr1 (mode_same _ _ Hs Hm) Ht1 Hks).
  destruct (foldl edit (b1, a1) ks) as [b' a']. destruct IH as (t' & scr' & Hr' & Ht' & Hs').
  exists t', scr'. rewrite <- app_assoc, Hr, Hr'. split_and!; [done|done|]. rewrite Hs', Hs. done.
Qed.

(** The characters of a text go to the caller. *)
Lemma run_fill n l t ks scr : text t l -> (length l <= n)%nat ->
  run (fill_loop n d) (at_tty t ks scr)
  = Returned (at_tty (set_t_icount 0 (set_t_istart (t_istart t + Z.of_nat (length l)) t)) ks scr) l.
Proof.
  pose proof (eq_refl : TTY_IBLEN = 1024) as HT.
  revert n t. induction l as [|x l IH]; intros n t Ht Hn; pose proof Ht as [].
  { change (t_icount t = 0) in tx_count0. change (Z.of_nat (length (@nil Z))) with 0. rewrite Z.add_0_r.
    replace (set_t_icount 0 (set_t_istart (t_istart t) t)) with t by (destruct t; simpl in *; by subst).
    destruct n as [|n]; [done|]. cbn [fill_loop]. rewrite run_tt, tx_count0. done. }
  destruct n as [|n]; [simpl in Hn; lia|]. simpl in Hn, tx_count0, tx_room0.
  set (t1 := set_t_istart (t_istart t + 1) (set_t_icount (t_icount t - 1) t)).
  assert (Ht1 : text t1 l).
  { split; simpl; try done; [lia|lia|lia|]. intros k y Hk.
    replace (t_istart t + 1 + Z.of_nat k) with (t_istart t + Z.of_nat (S k)) by lia. by apply (tx_text0 (S k)). }
  cbn [fill_loop]. rewrite run_tt, (proj2 (Z.ltb_lt _ _)) by lia.
  rewrite (run_opt _ x) by (rewrite <- (Z.add_0_r (t_istart t)); by apply (tx_text0 0%nat)).
  rewrite !run_set. rewrite u32_id, Z.mod_small by (unfold is_u32; lia). fold t1.
  rewrite run_bind, (IH n t1 Ht1) by lia. cbn. do 2 f_equal. unfold t1.
  destruct t. unfold set_t_istart, set_t_icount. cbn. f_equal; lia.
Qed.

(** The key that ends the line, with the cursor at its end *)
Lemma run_return fuel b t ks scr : mode t -> text t b -> t_istart t + Z.of_nat (length b) < 1022 ->
  exists t' scr', run (cook_loop putc_result (S (S fuel)) d 0) (at_tty t (13 :: ks) scr) = Returned (at_tty t' ks scr') true /\
    text t' (b ++ [10]) /\ mode (set_t_idelim false t') /\ t_istart t' = t_istart t.
Proof.
  intros Hm Ht Hr. pose proof Hm as []. pose proof Ht as []. pose proof (eq_refl : TTY_IBLEN = 1024) as HT.
  destruct (text_append t b 10 Ht) as (t0 & E & Ht'); [unfold ubyte; lia|done|].
  pose proof (in_set_same _ _ _ _ (t_icount t + 1) E) as Hs. set (t1 := set_t_icount (t_icount t + 1) t0) in *.
  assert (Hf : t_iflags t1 = t_iflags t) by (by rewrite Hs).
  assert (Hecho : exists scr', run (after_key (S fuel) (Break (-1) (Some 10))) (at_tty (set_t_idelim true t1) ks scr)
    = run (cook_loop putc_result (S fuel) d (-1)) (at_tty (set_t_idelim true t1) ks scr')).
  { cbn [after_key]. rewrite run_tt. cbn [t_iflags set_t_idelim]. rewrite Hf, md_raw0.
    destruct (flag (t_iflags t) TTY_ECHO); [|by exists scr]. apply run_echo; [|done]. by rewrite Hs. }
  destruct Hecho as (scr' & E'). exists (set_t_idelim true t1), scr'. split_and!.
  - rewrite (run_round _ _ _ _ _ _ _ Hm Ht) by done. change (cook d 0 13) with (key_return d 0). rewrite run_bind.
    unfold key_return. rewrite run_tt, md_igncr0, md_icrnl0, Z.add_0_r.
    rewrite (run_place _ _ t0) by (done || lia). fold t1. rewrite run_set.
    etransitivity; [exact E'|]. cbn [cook_loop]. rewrite run_tt. cbn [t_idelim set_t_idelim]. rewrite andb_false_r. done.
  - destruct Ht'. by split.
  - rewrite Hs. by destruct Hm; split.
  - by rewrite Hs.
Qed.

End run.

Lemma edit_length m ks l : keys_ok m l ks -> Z.of_nat (length (l.1 ++ l.2)) <= m ->
  Z.of_nat (length ((foldl edit l ks).1 ++ (foldl edit l ks).2)) <= m.
Proof.
  revert l. induction ks as [|k ks IH]; intros [b a] Hk Hl; [done|]. destruct Hk as [Hk Hks]. apply IH; [done|].
  destruct k as [c|c| |]; simpl in *.
  - destruct Hk as (_ & _ & _ & Hr). rewrite !length_app in *. simpl. lia.
  - destruct b as [|y b _] using rev_ind; [done|]. rewrite removelast_last, !length_app in *. simpl in *. lia.
  - destruct b as [|y b _] using rev_ind; [done|]. rewrite last_snoc, removelast_last. simpl.
    rewrite !length_app in *. simpl in *. lia.
  - destruct a as [|x a]; [done|]. simpl. rewrite !length_app in *. simpl in *. lia.
Qed.

Lemma sends_length ks : (length ks <= length (concat (map sends ks)))%nat.
Proof. induction ks as [|[] ks IH]; simpl; rewrite ?length_app; simpl; lia. Qed.

(** C30: the lines a terminal delivers are the lines that the keys edit.  For every sequence
    of printable characters, backspaces, deletes and cursor keys that the reference editor turns into the line [b]
    with the cursor at its end, followed by return, [ttyRead] delivers [b] and
    a newline, takes exactly these keys from the device, and leaves an empty buffer whose start has moved behind the
    line, whatever the echo does.  The terminal is in cooked mode, turns return into newline and has an empty buffer; the line fits at every moment in the part of the buffer from
    [istart] on (1021 - [istart] characters) and in the caller's; and no
    key deletes at the start of a line that is not empty, where the code
    leaves the buffer ([keys_ok]). *)
Theorem tty_line_editing putc_result ttyaddr d K T t ks b rest scr len :
  mode t -> text t [] -> t_istart t <= 1021 ->
  keys_ok (1021 - t_istart t) ([], []) ks -> foldl edit ([], []) ks = (b, []) -> Z.of_nat (length b) < len ->
  exists t' scr',
    run (ttyRead putc_result ttyaddr d len) (at_tty d K T t (concat (map sends ks) ++ 13 :: rest) scr)
      = Returned (at_tty d K T t' rest scr') (Z.of_nat (length b) + 1, b ++ [10]) /\
    mode t' /\ text t' [] /\ t_istart t' = t_istart t + Z.of_nat (length b) + 1.
Proof.
  intros Hm Ht Hi Hks Hb Hlen.
  pose proof (edit_length (1021 - t_istart t) ks ([], []) Hks ltac:(simpl; lia)) as Hl. rewrite Hb in Hl. simpl in Hl.
  rewrite app_nil_r in Hl. set (kb := concat (map sends ks) ++ 13 :: rest).
  assert (Hf : exists fuel, S (length kb) = (length ks + S (S fuel))%nat).
  { exists (length kb - length ks - 1)%nat. subst kb. rewrite length_app. simpl.
    pose proof (sends_length ks). lia. }
  destruct Hf as [fuel Hf]. set (scr0 := scr ++ [Printf "%d\n" [ttyaddr d]]).
  pose proof (run_keys putc_result d K T (S (S fuel)) ks [] [] t (13 :: rest) scr0 Hm Ht Hks) as H. rewrite Hb in H.
  destruct H as (t1 & scr1 & E1 & Ht1 & Hs). rewrite app_nil_r in Ht1. fold kb in E1.
  change (Z.of_nat (length (@nil Z))) with 0 in E1.
  assert (Hi1 : t_istart t1 = t_istart t) by (by rewrite Hs).
  destruct (run_return putc_result d K T fuel b t1 rest scr1 (mode_same _ _ Hs Hm) Ht1) as (t2 & scr2 & E2 & Ht2 & Hm2 & Hi2); [lia|].
  pose proof (run_fill d K T (Z.to_nat len) (b ++ [10]) t2 rest scr2 Ht2) as E3.
  rewrite length_app in E3. simpl in E3. specialize (E3 ltac:(lia)).
  set (t3 := set_t_icount 0 (set_t_istart (t_istart t2 + Z.of_nat (length b + 1)) t2)) in *.
  exists (set_t_idelim false t3), scr2. pose proof Hm as []. pose proof Hm2 as [? ? ? ? ? ?]. pose proof Ht2 as [].
  rewrite length_app in * |-. simpl in * |-. split_and!; [|by split|split; simpl; try done; try lia|simpl; lia].
  unfold ttyRead. rewrite run_tt, run_printf. fold scr0. destruct (t_phw t); [|done]. rewrite md_ieof0, md_raw0.
  rewrite run_gets_bind. change (length (keys (at_tty d K T t kb scr0))) with (length kb).
  rewrite Hf, run_bind, E1, E2. cbn [obind negb]. rewrite run_bind, E3. cbn [obind]. rewrite run_tt.
  change (t_icount t3 =? 0) with true. cbv iota. rewrite run_set.
  rewrite bool_decide_eq_false_2 by (by destruct b). cbn [andb]. rewrite length_app. simpl. do 2 f_equal. lia.
Qed.

(** ** Examples *)

Definition desk : tty := set_t_iflags (Z.lor TTY_ICRNL TTY_ECHO) (set_t_oflags TTY_ONLCR (set_t_phw (Some 5) tty_zero)).

(** The terminal after it is opened on device 5 and its echo turned on *)
Example desk_opened :
  match run (ttyInit 0;; ttyOpen 8 0 5;; ttyControl 0 TTY_CTRL_SET_IFLAG TTY_ECHO) (mkcon booted {[0 := tty_zero]} [] []) with
  | Returned s r => ttytab s !! 0 = Some desk /\ r = 0
  | _ => False
  end.
Proof. vm_compute. done. Qed.

Lemma desk_ready : mode desk /\ text desk [].
Proof.
  split; split; try done.
  apply Forall_replicate. split; [done|reflexivity].
Qed.

(** [xac], two steps to the left, a deletion, one step to the right, [b], and one step to the right *)
Definition abc : list key := [KChar 120; KChar 97; KChar 99; KLeft; KLeft; KBack 8; KRight; KChar 98; KRight].

Lemma tty_line_editing_witness :
  exists t' scr',
    run (ttyRead (fun ch => ch) (fun d => 0x12000 + d) 0 80)
      (at_tty 0 booted ∅ desk (concat (map sends abc) ++ 13 :: [120]) []) =
      Returned (at_tty 0 booted ∅ t' [120] scr') (4, [97; 98; 99; 10]) /\
    mode t' /\ text t' [] /\ t_istart t' = 4.
Proof.
  apply (tty_line_editing (fun ch => ch) (fun d => 0x12000 + d) 0 booted ∅ desk abc [97; 98; 99] [120] [] 80).
  - apply desk_ready.
  - apply desk_ready.
  - done.
  - vm_compute. intuition discriminate.
  - reflexivity.
  - reflexivity.
Defined.

(** What a terminal [t] delivers for the keys [l] *)
Definition delivers (t : tty) (l : list Z) : option (Z * list Z) :=
  match run (ttyRead (fun ch => ch) (fun d => d) 0 80) (at_tty 0 booted ∅ t l []) with
  | Returned _ r => Some r
  | _ => None
  end.

(** A key that deletes, with the cursor at the start of the line [a]: the code writes
    in front of the buffer. *)
Example ttyRead_delete_at_start : delivers desk [97; 27; 91; 68; 8; 13] = None.
Proof. vm_compute. reflexivity. Qed.

(** A newline with the cursor in front of [b] in [ab] replaces the [b], and a stale octet
    follows it; a return there is stored behind the characters that are delivered. *)
Example ttyRead_newline_inside : delivers desk [97; 98; 27; 91; 68; 10] = Some (3, [97; 10; 0]).
Proof. vm_compute. reflexivity. Qed.

Example ttyRead_return_inside : delivers desk [97; 98; 27; 91; 68; 13] = Some (3, [97; 98; 0]).
Proof. vm_compute. reflexivity. Qed.

(** An insertion into a line that wraps around the end of the buffer: the line is printed from behind
    the buffer. *)
Example ttyRead_show_wrapped : delivers (set_t_istart 1022 desk) [97; 98; 27; 91; 68; 99; 13] = None.
Proof. vm_compute. reflexivity. Qed.
