(* ===== verification/Raw.v ===== *)
(** * Raw sockets (include/raw.h, device/raw)

    The state is that of the network with the control blocks.  A [struct raw *] is an index of
    [rawtab]; a device is named by its minor number.  The number [nraw] of the devices comes
    from the configuration. *)

From S2P Require Import Prelude Prog Queue Interrupt Memory Kernel Thread Clock Semaphore CString Sys BufPool NetAddr Net Route Arp Ipv4 Udp.

(** ** Constants and control blocks *)

Definition RAW_IBLEN : Z := 100.
Definition RAW_IACCEPT : Z := 0x01.
Definition RAW_IHDR : Z := 0x02.
Definition RAW_OHDR : Z := 0x04.
Definition RAW_CTRL_SETFLAG : Z := 1.
Definition RAW_CTRL_CLRFLAG : Z := 2.

Inductive rawstate : Type := RAW_FREE | RAW_ALLOC.

#[export] Instance rawstate_eq_dec : EqDecision rawstate.
Proof. solve_decision. Defined.

Record raw : Type := mkraw {
  r_dev : Z;
  r_state : rawstate;
  r_proto : Z;
  r_localip : netaddr;
  r_remoteip : netaddr;
  r_in : list Z;
  r_src : list netaddr;
  r_icount : Z;
  r_istart : Z;
  r_isema : Z;
  r_flags : Z;
}.

(** A block after [bzero] *)
Definition raw_zero : raw :=
  mkraw 0 RAW_FREE 0 netaddr0 netaddr0 (replicate (Z.to_nat RAW_IBLEN) NULL) (replicate (Z.to_nat RAW_IBLEN) netaddr0)
    0 0 0 0.

Definition set_r_dev (v : Z) (r : raw) : raw :=
  mkraw v (r_state r) (r_proto r) (r_localip r) (r_remoteip r) (r_in r) (r_src r) (r_icount r) (r_istart r) (r_isema r)
    (r_flags r).
Definition set_r_state (v : rawstate) (r : raw) : raw :=
  mkraw (r_dev r) v (r_proto r) (r_localip r) (r_remoteip r) (r_in r) (r_src r) (r_icount r) (r_istart r) (r_isema r)
    (r_flags r).
Definition set_r_proto (v : Z) (r : raw) : raw :=
  mkraw (r_dev r) (r_state r) v (r_localip r) (r_remoteip r) (r_in r) (r_src r) (r_icount r) (r_istart r) (r_isema r)
    (r_flags r).
Definition set_r_localip (v : netaddr) (r : raw) : raw :=
  mkraw (r_dev r) (r_state r) (r_proto r) v (r_remoteip r) (r_in r) (r_src r) (r_icount r) (r_istart r) (r_isema r)
    (r_flags r).
Definition set_r_remoteip (v : netaddr) (r : raw) : raw :=
  mkraw (r_dev r) (r_state r) (r_proto r) (r_localip r) v (r_in r) (r_src r) (r_icount r) (r_istart r) (r_isema r)
    (r_flags r).
Definition set_r_in (v : list Z) (r : raw) : raw :=
  mkraw (r_dev r) (r_state r) (r_proto r) (r_localip r) (r_remoteip r) v (r_src r) (r_icount r) (r_istart r) (r_isema r)
    (r_flags r).
Definition set_r_src (v : list netaddr) (r : raw) : raw :=
  mkraw (r_dev r) (r_state r) (r_proto r) (r_localip r) (r_remoteip r) (r_in r) v (r_icount r) (r_istart r) (r_isema r)
    (r_flags r).
Definition set_r_icount (v : Z) (r : raw) : raw :=
  mkraw (r_dev r) (r_state r) (r_proto r) (r_localip r) (r_remoteip r) (r_in r) (r_src r) v (r_istart r) (r_isema r)
    (r_flags r).
Definition set_r_istart (v : Z) (r : raw) : raw :=
  mkraw (r_dev r) (r_state r) (r_proto r) (r_localip r) (r_remoteip r) (r_in r) (r_src r) (r_icount r) v (r_isema r)
    (r_flags r).
Definition set_r_isema (v : Z) (r : raw) : raw :=
  mkraw (r_dev r) (r_state r) (r_proto r) (r_localip r) (r_remoteip r) (r_in r) (r_src r) (r_icount r) (r_istart r) v
    (r_flags r).
Definition set_r_flags (v : Z) (r : raw) : raw :=
  mkraw (r_dev r) (r_state r) (r_proto r) (r_localip r) (r_remoteip r) (r_in r) (r_src r) (r_icount r) (r_istart r)
    (r_isema r) v.

Record rawst : Type := mkrawst {
  rnet : netst;
  rawtab : gmap Z raw;
}.

Definition set_rnet (v : netst) (s : rawst) : rawst := mkrawst v (rawtab s).
Definition set_rawtab (v : gmap Z raw) (s : rawst) : rawst := mkrawst (rnet s) v.

#[export] Instance rnet_part : Part rnet set_rnet.
Proof. split; [done| |done]. by intros []. Qed.

(** Calls of the network and of the kernel *)
Definition rcall {A} (p : prog netst A) : prog rawst A := zoom rnet set_rnet p.
Definition rkcall {A} (p : prog kernel A) : prog rawst A := rcall (ncall p).

(** [rawtab[i]] and assignments to it *)
Definition rb (i : Z) : prog rawst raw := readopt (fun s => rawtab s !! i).
Definition upd_rb (i : Z) (f : raw -> option raw) : prog rawst unit :=
  lift (fun s => r ← rawtab s !! i; r ← f r; Some (set_rawtab (<[i := r]> (rawtab s)) s, tt)).
Definition set_rb (i : Z) (f : raw -> raw) : prog rawst unit := upd_rb i (fun r => Some (f r)).

(** [in[istart]] *)
Definition raw_first (r : raw) : option Z := if r_istart r <? 0 then None else r_in r !! Z.to_nat (r_istart r).

(** [a.type = NULL] *)
Definition untyped (a : netaddr) : netaddr := mknetaddr NULL (na_len a) (na_addr a).

(** ** rawInit, rawOpen, rawClose, rawControl *)

Definition rawInit (i : Z) : prog rawst Z := set_rb i (fun _ => raw_zero);; mret OK.

Definition rawOpen (i dev : Z) (localip remoteip : option netaddr) (proto : Z) : prog rawst Z :=
  im ← rkcall k_disable;
  r ← rb i;
  if decide (r_state r <> RAW_FREE) then rkcall (k_restore im);; mret SYSERR
  else
    set_rb i (set_r_state RAW_ALLOC);;
    set_rb i (set_r_dev dev);;
    set_rb i (set_r_proto (u16 proto));;
    set_rb i (fun r => set_r_localip (match localip with None => untyped (r_localip r) | Some a => a end) r);;
    set_rb i (fun r => set_r_remoteip (match remoteip with None => untyped (r_remoteip r) | Some a => a end) r);;
    set_rb i (set_r_istart 0);;
    set_rb i (set_r_icount 0);;
    s ← rkcall (semcreate 0);
    set_rb i (set_r_isema (u32 s));;
    if s =? SYSERR then rkcall (k_restore im);; mret SYSERR
    else
      set_rb i (set_r_flags NULL);;
      rkcall (k_restore im);;
      mret OK.

(** [istart = (istart + 1) % RAW_IBLEN; icount--] *)
Definition raw_advance (r : raw) : raw :=
  set_r_icount (i32 (r_icount r - 1)) (set_r_istart (Z.rem (r_istart r + 1) RAW_IBLEN) r).

(** The pending packets; a release may give the processor to a thread that receives more,
    so the number of rounds is an argument. *)
Fixpoint raw_drain (rounds : nat) (i : Z) : prog rawst unit :=
  match rounds with
  | O => Fault
  | S rounds =>
      r ← rb i;
      if 0 <? r_icount r then
        pkt ← opt (raw_first r);
        rcall (netFreebuf pkt);;
        set_rb i raw_advance;;
        raw_drain rounds i
      else mret tt
  end.

Definition rawClose (rounds : nat) (i : Z) : prog rawst Z :=
  im ← rkcall k_disable;
  r ← rb i;
  if decide (r_state r <> RAW_ALLOC) then rkcall (k_restore im);; mret SYSERR
  else
    f ← rkcall (semfree (r_isema r));
    if f =? SYSERR then rkcall (k_restore im);; mret SYSERR
    else
      raw_drain rounds i;;
      set_rb i (fun _ => raw_zero);;
      rkcall (k_restore im);;
      mret OK.

Definition rawControl (i func arg1 : Z) : prog rawst Z :=
  im ← rkcall k_disable;
  r ← rb i;
  if decide (r_state r <> RAW_ALLOC) then rkcall (k_restore im);; mret SYSERR
  else if func =? RAW_CTRL_SETFLAG then
    set_rb i (set_r_flags (u8 (Z.lor (r_flags r) arg1)));;
    rkcall (k_restore im);;
    mret (u8 (Z.land (r_flags r) arg1))
  else if func =? RAW_CTRL_CLRFLAG then
    set_rb i (set_r_flags (u8 (Z.land (r_flags r) (Z.lnot arg1))));;
    rkcall (k_restore im);;
    mret (u8 (Z.land (r_flags r) arg1))
  else rkcall (k_restore im);; mret SYSERR.

(** ** rawDemux *)

(** The conditions on entry [r] for the four levels of a match *)
Definition raw_match4 (r : raw) (src dst : netaddr) (proto : Z) : option bool :=
  if proto =? r_proto r then
    a ← netaddrequal src (r_remoteip r);
    if (a : bool) then netaddrequal dst (r_localip r) else Some false
  else Some false.
Definition raw_match3 (r : raw) (src dst : netaddr) (proto : Z) : option bool :=
  if proto =? r_proto r then
    a ← netaddrequal src (r_remoteip r);
    if (a : bool) && (na_type (r_localip r) =? NULL) then Some true
    else
      b ← netaddrequal dst (r_localip r);
      Some (b && (na_type (r_remoteip r) =? NULL))
  else Some false.
Definition raw_match2 (r : raw) (proto : Z) : option bool :=
  Some ((proto =? r_proto r) && (na_type (r_remoteip r) =? NULL) && (na_type (r_localip r) =? NULL)).
Definition raw_match1 (r : raw) : option bool :=
  Some ((r_proto r =? NULL) && (na_type (r_remoteip r) =? NULL) && (na_type (r_localip r) =? NULL)).

Fixpoint rawDemux_loop (n : nat) (i : Z) (tab : gmap Z raw) (src dst : netaddr) (proto : Z) (best : option Z) (level : Z)
  : option (option Z) :=
  match n with
  | O => Some best
  | S n =>
      r ← tab !! i;
      '(best, level) ←
        (if decide (r_state r = RAW_ALLOC) then
           '(best, level) ← better 4 (raw_match4 r src dst proto) i best level;
           '(best, level) ← better 3 (raw_match3 r src dst proto) i best level;
           '(best, level) ← better 2 (raw_match2 r proto) i best level;
           better 1 (raw_match1 r) i best level
         else Some (best, level));
      rawDemux_loop n (i + 1) tab src dst proto best level
  end.

Definition rawDemux (nraw : Z) (tab : gmap Z raw) (src dst : netaddr) (proto : Z) : option (option Z) :=
  rawDemux_loop (Z.to_nat nraw) 0 tab src dst proto None 0.

(** ** rawRead: [buf] is the address of the caller's buffer. *)

Definition rawRead (i buf len : Z) : prog rawst Z :=
  im ← rkcall k_disable;
  r ← rb i;
  if decide (r_state r <> RAW_ALLOC) then rkcall (k_restore im);; mret SYSERR
  else
    rkcall (wait (r_isema r));;
    r ← rb i;
    pkt ← opt (raw_first r);
    (if negb (Z.land (r_flags r) RAW_IACCEPT =? 0) then
       src ← opt (r_src r !! Z.to_nat (r_istart r));
       set_rb i (set_r_remoteip src);;
       set_rb i (set_r_flags (u8 (Z.land (r_flags r) (Z.lnot RAW_IACCEPT))))
     else mret tt);;
    set_rb i (set_r_in (<[Z.to_nat (r_istart r) := NULL]> (r_in r)));;
    set_rb i raw_advance;;
    rkcall (k_restore im);;
    r ← rb i;
    plen ← rcall (nload (pkt_len pkt));
    linkhdr ← rcall (nload (pkt_linkhdr pkt));
    data ← rcall (nload (if negb (Z.land (r_flags r) RAW_IHDR =? 0) then pkt_nethdr pkt else pkt_curr pkt));
    let dlen := u32 (plen - (data - linkhdr)) in
    let dlen := if len <? dlen then len else dlen in
    rcall (memmove buf data dlen);;
    f ← rcall (netFreebuf pkt);
    if f =? SYSERR then mret SYSERR else mret (i32 dlen).

(** [in[index] = pkt; src[index] = src; icount++] *)
Definition raw_store (pkt : Z) (src : netaddr) (r : raw) : option raw :=
  let index := Z.rem (r_istart r + r_icount r) RAW_IBLEN in
  if index <? 0 then None
  else Some (set_r_icount (i32 (r_icount r + 1))
               (set_r_src (<[Z.to_nat index := src]> (r_src r)) (set_r_in (<[Z.to_nat index := pkt]> (r_in r)) r))).

Section raw.
Variable nraw : Z.
Variable devwrite : Z -> Z -> Z -> prog netst Z.
Variable snoopCapture : Z -> Z -> prog netst Z.
Variable gaddr : netaddr.
Variable garbage : list Z.

(** ** rawRecv *)

Definition rawRecv (pkt : Z) (src dst : netaddr) (proto : Z) : prog rawst Z :=
  if pkt =? NULL then mret SYSERR
  else
    m ← readopt (fun s => rawDemux nraw (rawtab s) src dst (u16 proto));
    match m with
    | None =>
        rcall (icmpDestUnreach devwrite snoopCapture gaddr garbage pkt ICMP_PORT_UNR);;
        rcall (netFreebuf pkt);;
        mret OK
    | Some i =>
        r ← rb i;
        if RAW_IBLEN <=? r_icount r then rcall (netFreebuf pkt);; mret SYSERR
        else
          upd_rb i (raw_store pkt src);;
          rkcall (signal (r_isema r));;
          mret OK
    end.

(** ** rawSend, rawWrite *)

Definition rawSend (i buf len : Z) : prog rawst Z :=
  r ← rb i;
  if (buf =? NULL) || bool_decide (r_state r <> RAW_ALLOC) then mret SYSERR
  else if (if negb (Z.land (r_flags r) RAW_OHDR =? 0)
           then (na_type (r_localip r) =? NULL) || (na_type (r_remoteip r) =? NULL)
           else (r_proto r =? NULL) || (na_type (r_remoteip r) =? NULL)) then mret SYSERR
  else
    pkt ← rcall netGetbuf;
    if pkt =? SYSERR then mret SYSERR
    else
      curr ← rcall (nload (pkt_curr pkt));
      rcall (nstore (pkt_curr pkt) (u32 (curr - len)));;
      plen ← rcall (nload (pkt_len pkt));
      rcall (nstore (pkt_len pkt) (u32 (plen + len)));;
      curr ← rcall (nload (pkt_curr pkt));
      rcall (memmove curr buf len);;
      r ← rb i;
      result ←
        (if negb (Z.land (r_flags r) RAW_OHDR =? 0) then
           rcall (nstore (pkt_nethdr pkt) curr);;
           rtptr ← rcall (rtLookup (r_remoteip r));
           match rtptr with
           | None => mret None
           | Some j =>
               e ← rcall (rt j);
               if rt_nif e =? NULL then mret None
               else
                 rcall (nstore (pkt_nif pkt) (rt_nif e));;
                 x ← rcall (netSend devwrite snoopCapture gaddr pkt None (Some (r_remoteip r)) (na_type (r_remoteip r)));
                 mret (Some x)
           end
         else if na_type (r_remoteip r) =? NETADDR_IPv4 then
           x ← rcall (ipv4Send devwrite snoopCapture gaddr pkt (r_localip r) (Some (r_remoteip r)) (r_proto r));
           mret (Some x)
         else mret (Some SYSERR));
      match result with
      | None => rcall (netFreebuf pkt);; mret SYSERR
      | Some result =>
          f ← rcall (netFreebuf pkt);
          if f =? SYSERR then mret SYSERR else mret result
      end.

Definition rawWrite (i buf len : Z) : prog rawst Z := rawSend i buf len.

End raw.
