(* ===== verification/NetRecv.v ===== *)
(** * Receiving: network/net, ipv4Recv.c, icmpRecv.c and the daemons

    The state is that of the whole stack: the network with TCP, UDP, the raw sockets and ICMP.
    A component's programs run on its part of the state.  [nifs] are the addresses of the entries of
    [netiftab], in order; the numbers of devices, the reading of and the control of network
    devices and the clock's cycle counter are parameters. *)

From S2P Require Import Prelude Prog Queue Interrupt Memory Kernel Thread Clock Message Semaphore Lifecycle CString Sys Mailbox BufPool NetAddr Net Route Arp Ipv4 Tcp TcpTimer TcpConn TcpRecv Udp Raw.

(** ** Constants *)

Definition ICMP_ECHO : Z := 8.
Definition ICMP_NQUEUE : Z := 10.
Definition NPINGQUEUE : nat := 5.
Definition NPINGHOLD : Z := 10.
Definition NET_NTHR : nat := 5.
Definition NET_POOLSIZE : Z := 512.
Definition NET_GET_MTU : Z := 200.
Definition NET_GET_LINKHDRLEN : Z := 201.
Definition BADTID : Z := -1.

Record icmpEchoQueue : Type := mkecho {
  eq_tid : Z;
  eq_head : Z;
  eq_tail : Z;
  eq_pkts : list Z;
}.

(** Offsets of [struct icmpEcho], behind the header of ICMP *)
Definition echo_id (p : Z) : Z := p.
Definition echo_seq (p : Z) : Z := p + 2.
Definition echo_timesec (p : Z) : Z := p + 4.
Definition echo_timetic (p : Z) : Z := p + 8.
Definition echo_timecyc (p : Z) : Z := p + 12.
Definition echo_arrivsec (p : Z) : Z := p + 16.
Definition echo_arrivtic (p : Z) : Z := p + 20.
Definition echo_arrivcyc (p : Z) : Z := p + 24.
Definition sizeof_icmpEcho : Z := 28.

(** ** The state of the stack *)

Record stack : Type := mkstack {
  stcp : tcpst;
  sudptab : gmap Z udp;
  sudpport : Z;
  srawtab : gmap Z raw;
  icmpqueue : Z;
  echotab : list icmpEchoQueue;
}.

Definition set_stcp (v : tcpst) (s : stack) : stack :=
  mkstack v (sudptab s) (sudpport s) (srawtab s) (icmpqueue s) (echotab s).
Definition set_icmpqueue (v : Z) (s : stack) : stack :=
  mkstack (stcp s) (sudptab s) (sudpport s) (srawtab s) v (echotab s).
Definition set_echotab (v : list icmpEchoQueue) (s : stack) : stack :=
  mkstack (stcp s) (sudptab s) (sudpport s) (srawtab s) (icmpqueue s) v.

Definition snet (s : stack) : netst := tnet (stcp s).
Definition set_snet (v : netst) (s : stack) : stack := set_stcp (set_tnet v (stcp s)) s.

Definition sudp (s : stack) : udpst := mkudpst (snet s) (sudptab s) (sudpport s).
Definition set_sudp (v : udpst) (s : stack) : stack :=
  mkstack (set_tnet (unet v) (stcp s)) (udptab v) (unextport v) (srawtab s) (icmpqueue s) (echotab s).

Definition sraw (s : stack) : rawst := mkrawst (snet s) (srawtab s).
Definition set_sraw (v : rawst) (s : stack) : stack :=
  mkstack (set_tnet (rnet v) (stcp s)) (sudptab s) (sudpport s) (rawtab v) (icmpqueue s) (echotab s).

#[export] Instance stcp_part : Part stcp set_stcp.
Proof. split; [done| |done]. by intros []. Qed.
#[export] Instance snet_part : Part snet set_snet.
Proof. split; [done| |done]. by intros [[]]. Qed.
#[export] Instance sudp_part : Part sudp set_sudp.
Proof. split; [by intros []| |done]. by intros [[]]. Qed.
#[export] Instance sraw_part : Part sraw set_sraw.
Proof. split; [by intros []| |done]. by intros [[]]. Qed.

Definition st_net {A} (p : prog netst A) : prog stack A := zoom snet set_snet p.
Definition st_tcp {A} (p : prog tcpst A) : prog stack A := zoom stcp set_stcp p.
Definition st_udp {A} (p : prog udpst A) : prog stack A := zoom sudp set_sudp p.
Definition st_raw {A} (p : prog rawst A) : prog stack A := zoom sraw set_sraw p.

(** [enable]; [default] is the address of the handler for unexpected interrupts. *)
Definition k_enable (default : Z) : prog kernel Z :=
  lift (fun k => let '(v, im) := enable default (irq k) in Some (set_irq v k, im)).

Section recv.
Variable vic_default : Z.
Variables nudp ntcp nraw : Z.
Variable devwrite : Z -> Z -> Z -> prog netst Z.
Variable devread : Z -> Z -> Z -> prog netst Z.
Variable snoopCapture : Z -> Z -> prog netst Z.
Variable clkcount : prog netst Z.
Variable gaddr : netaddr.
Variable garbage : list Z.
Variable nifs : list Z.

(** ** ICMP *)

(** [for (i = 0; i < NPINGQUEUE; i++)]: the queue of thread [id] *)
Fixpoint echo_find (n i : nat) (id : Z) : prog stack (option nat) :=
  match n with
  | O => mret None
  | S n =>
      q ← readopt (fun s => echotab s !! i);
      if id =? eq_tid q then mret (Some i) else echo_find n (S i) id
  end.

(** [pkts[head] = pkt; head = (head + 1) % NPINGHOLD] *)
Definition echo_put (pkt : Z) (q : icmpEchoQueue) : option icmpEchoQueue :=
  if (eq_head q <? 0) || (NPINGHOLD <=? eq_head q) then None
  else Some (mkecho (eq_tid q) (Z.rem (eq_head q + 1) NPINGHOLD) (eq_tail q) (<[Z.to_nat (eq_head q) := pkt]> (eq_pkts q))).

(** An echo reply: the packet goes to the thread that its identifier names, if it waits for replies. *)
Definition icmp_echoreply (pkt echo : Z) : prog stack Z :=
  i ← st_net (ld16 (echo_id echo));
  let id := net2hs i in
  if (0 <=? id) && (id <? NTHREAD) then
    im ← st_net (ncall k_disable);
    c ← st_net clkcount;
    st_net (st32 (echo_arrivcyc echo) c);;
    t ← st_net (ncall (gets clkticks));
    st_net (st32 (echo_arrivtic echo) t);;
    t ← st_net (ncall (gets clktime));
    st_net (st32 (echo_arrivsec echo) t);;
    r ← echo_find NPINGQUEUE 0 id;
    match r with
    | None => st_net (ncall (k_restore im));; st_net (netFreebuf pkt);; mret SYSERR
    | Some j =>
        q ← readopt (fun s => echotab s !! j);
        if Z.rem (eq_head q + 1) NPINGHOLD =? eq_tail q then
          st_net (ncall (k_restore im));; st_net (netFreebuf pkt);; mret SYSERR
        else
          q ← opt (echo_put pkt q);
          modify (fun s => set_echotab (<[j := q]> (echotab s)) s);;
          st_net (ncall (send id pkt));;
          st_net (ncall (k_restore im));;
          mret OK
    end
  else st_net (netFreebuf pkt);; mret SYSERR.

Definition icmpRecv (pkt : Z) : prog stack Z :=
  if pkt =? NULL then mret SYSERR
  else
    icmp ← st_net (nload (pkt_curr pkt));
    type ← st_net (ld8 (icmp_type icmp));
    if type =? ICMP_ECHOREPLY then icmp_echoreply pkt (icmp + ICMP_HEADER_LEN)
    else if type =? ICMP_ECHO then
      q ← gets icmpqueue;
      st_net (scall (mailboxSend q pkt));;
      mret OK
    else st_net (netFreebuf pkt);; mret OK.

Definition icmpEchoRequest (dst : option netaddr) (id seq : Z) : prog netst Z :=
  pkt ← netGetbuf;
  if pkt =? SYSERR then mret SYSERR
  else
    nstore (pkt_len pkt) sizeof_icmpEcho;;
    curr ← nload (pkt_curr pkt);
    nstore (pkt_curr pkt) (u32 (curr - sizeof_icmpEcho));;
    echo ← nload (pkt_curr pkt);
    st16 (echo_id echo) (hs2net (u16 id));;
    st16 (echo_seq echo) (hs2net (u16 seq));;
    im ← ncall k_disable;
    c ← clkcount;
    st32 (echo_timecyc echo) (hl2net c);;
    t ← ncall (gets clkticks);
    st32 (echo_timetic echo) (hl2net t);;
    t ← ncall (gets clktime);
    st32 (echo_timesec echo) (hl2net t);;
    ncall (k_restore im);;
    st32 (echo_arrivcyc echo) 0;;
    st32 (echo_arrivtic echo) 0;;
    st32 (echo_arrivsec echo) 0;;
    result ← icmpSend devwrite snoopCapture gaddr pkt ICMP_ECHO 0 sizeof_icmpEcho dst;
    netFreebuf pkt;;
    mret result.

(** ** The daemons: the body of the loop, and the loop for a number of rounds *)

Definition rtDaemon_round : prog netst unit :=
  q ← gets rtqueue;
  pkt ← scall (mailboxReceive q);
  if i32 pkt =? SYSERR then mret tt
  else rtSend devwrite snoopCapture gaddr garbage pkt;; netFreebuf pkt;; mret tt.

Definition arpDaemon_round : prog netst unit :=
  q ← gets arpqueue;
  pkt ← scall (mailboxReceive q);
  if i32 pkt =? SYSERR then mret tt
  else arpSendReply devwrite snoopCapture garbage pkt;; netFreebuf pkt;; mret tt.

Fixpoint repeat_rounds {S} (rounds : nat) (p : prog S unit) : prog S unit :=
  match rounds with
  | O => mret tt
  | Datatypes.S rounds => p;; repeat_rounds rounds p
  end.

Definition rtDaemon (rounds : nat) : prog netst unit := ncall (k_enable vic_default);; repeat_rounds rounds rtDaemon_round.
Definition arpDaemon (rounds : nat) : prog netst unit := repeat_rounds rounds arpDaemon_round.

(** The interface for [dst]: its position in the table, from [i] on. *)
Fixpoint icmp_match (l : list Z) (i : Z) (dst : netaddr) : prog netst (option Z) :=
  match l with
  | [] => mret None
  | p :: l =>
      nf ← nif p;
      if decide (nf_state nf <> NET_ALLOC) then icmp_match l (i + 1) dst
      else
        a ← opt (netaddrequal (nf_ip nf) dst);
        b ← (if (a : bool) then mret true else opt (netaddrequal (nf_ipbrc nf) dst));
        if (b : bool) then mret (Some i) else icmp_match l (i + 1) dst
  end.

(** [pkt] and [found] (in the source, [match]) keep their values from one round to the next. *)
Definition icmpDaemon_round (pkt found : Z) : prog stack (Z * Z) :=
  (if negb (pkt =? NULL) then st_net (netFreebuf pkt);; mret tt else mret tt);;
  q ← gets icmpqueue;
  pkt ← st_net (scall (mailboxReceive q));
  if i32 pkt =? SYSERR then mret (pkt, found)
  else
    ip ← st_net (nload (pkt_nethdr pkt));
    dst ← st_net (get_addr garbage NETADDR_IPv4 IPv4_ADDR_LEN (ip_dst ip));
    m ← st_net (icmp_match nifs 0 dst);
    let found := default found m in
    (if (0 <=? found) && (found <? Z.of_nat (length nifs)) then
       p ← opt (nifs !! Z.to_nat found);
       st_net (icmpEchoReply devwrite snoopCapture gaddr garbage pkt p)
     else st_net (netFreebuf pkt));;
    mret (pkt, found).

Fixpoint icmpDaemon_loop (rounds : nat) (pkt found : Z) : prog stack unit :=
  match rounds with
  | O => mret tt
  | S rounds => '(pkt, found) ← icmpDaemon_round pkt found; icmpDaemon_loop rounds pkt found
  end.
Definition icmpDaemon (rounds : nat) : prog stack unit :=
  st_net (ncall (k_enable vic_default));; icmpDaemon_loop rounds NULL (-1).

(** ** ipv4Recv *)

Definition ipv4_proto (pkt : Z) (src dst : netaddr) (proto : Z) : prog stack unit :=
  if proto =? IPv4_PROTO_ICMP then icmpRecv pkt;; mret tt
  else if proto =? IPv4_PROTO_UDP then
    if nudp =? 0 then mret tt
    else st_udp (udpRecv nudp devwrite snoopCapture gaddr garbage pkt src dst);; mret tt
  else if proto =? IPv4_PROTO_TCP then
    if ntcp =? 0 then mret tt
    else st_tcp (tcpRecv ntcp devwrite snoopCapture gaddr pkt src dst);; mret tt
  else if nraw =? 0 then mret tt
  else st_raw (rawRecv nraw devwrite snoopCapture gaddr garbage pkt src dst proto);; mret tt.

Definition ipv4Recv (pkt : Z) : prog stack Z :=
  if pkt =? NULL then mret SYSERR
  else
    ip ← st_net (nload (pkt_curr pkt));
    st_net (nstore (pkt_nethdr pkt) ip);;
    valid ← st_net (readopt (fun n => ipv4RecvValid (mem (nkern n)) ip));
    if negb (valid : bool) then st_net (netFreebuf pkt);; mret SYSERR
    else
      dst ← st_net (get_addr garbage NETADDR_IPv4 IPv4_ADDR_LEN (ip_dst ip));
      src ← st_net (get_addr garbage NETADDR_IPv4 IPv4_ADDR_LEN (ip_src ip));
      mine ← st_net (readopt (fun n => ifs ← mapM (fun p => netiftab n !! p) nifs; ipv4RecvDemux ifs dst));
      if negb (mine : bool) then st_net (rtRecv pkt)
      else
        f ← st_net (ld16 (ip_flags_froff ip));
        if negb (Z.land IPv4_FLAG_MF (net2hs f) =? 0) || negb (Z.land (net2hs f) IPv4_FROFF =? 0)
        then st_net (netFreebuf pkt);; mret SYSERR
        else
          l ← st_net (ld16 (ip_len ip));
          let iplen := net2hs l in
          len ← st_net (nload (pkt_len pkt));
          netptr ← st_net (nload (pkt_nif pkt));
          nf ← st_net (nif netptr);
          (if iplen <? u32 (len - nf_linkhdrlen nf)
           then st_net (nstore (pkt_len pkt) (u32 (nf_linkhdrlen nf + iplen))) else mret tt);;
          v ← st_net (ld8 (ip_ver_ihl ip));
          curr ← st_net (nload (pkt_curr pkt));
          st_net (nstore (pkt_curr pkt) (u32 (curr + Z.shiftl (Z.land v IPv4_IHL) 2)));;
          proto ← st_net (ld8 (ip_proto ip));
          ipv4_proto pkt src dst proto;;
          mret OK.

(** ** netRecv *)

Definition upd_nif (p : Z) (f : netif -> netif) : prog netst unit :=
  lift (fun n => nf ← netiftab n !! p; Some (set_netiftab (<[p := f nf]> (netiftab n)) n, tt)).
Definition set_nf_nin (v : Z) (e : netif) : netif :=
  mknetif (nf_dev e) (nf_state e) (nf_mtu e) (nf_linkhdrlen e) (nf_ip e) (nf_mask e) (nf_gateway e) (nf_ipbrc e)
    (nf_hwaddr e) (nf_hwbrc e) (nf_recvthr e) v (nf_nproc e) (nf_capture e).
Definition set_nf_nproc (v : Z) (e : netif) : netif :=
  mknetif (nf_dev e) (nf_state e) (nf_mtu e) (nf_linkhdrlen e) (nf_ip e) (nf_mask e) (nf_gateway e) (nf_ipbrc e)
    (nf_hwaddr e) (nf_hwbrc e) (nf_recvthr e) (nf_nin e) v (nf_capture e).

(** [garbage] is what the arrays of local addresses held. *)
Definition netRecv_round (netptr maxlen : Z) : prog stack unit :=
  pkt ← st_net netGetbuf;
  if pkt =? SYSERR then mret tt
  else
    nf ← st_net (nif netptr);
    len ← st_net (devread (nf_dev nf) (pkt_data pkt) maxlen);
    st_net (nstore (pkt_len pkt) (u32 len));;
    if (u32 len =? 0) || (u16 len =? u16 SYSERR) then mret tt
    else
      st_net (nstore (pkt_curr pkt) (pkt_data pkt));;
      st_net (nstore (pkt_nif pkt) netptr);;
      st_net (upd_nif netptr (fun nf => set_nf_nin (u32 (nf_nin nf + 1)) nf));;
      let ether := pkt_data pkt in
      st_net (nstore (pkt_linkhdr pkt) ether);;
      nf ← st_net (nif netptr);
      (if negb (nf_capture nf =? NULL) then st_net (snoopCapture (nf_capture nf) pkt);; mret tt else mret tt);;
      dst ← st_net (get_addr garbage NETADDR_ETHERNET ETH_ADDR_LEN ether);
      nf ← st_net (nif netptr);
      a ← opt (netaddrequal dst (nf_hwaddr nf));
      b ← (if (a : bool) then mret true else opt (netaddrequal dst (nf_hwbrc nf)));
      if negb (b : bool) then mret tt
      else
        st_net (nstore (pkt_curr pkt) (u32 (pkt_data pkt + nf_linkhdrlen nf)));;
        t ← st_net (ld16 (ether + 12));
        let count := st_net (upd_nif netptr (fun nf => set_nf_nproc (u32 (nf_nproc nf + 1)) nf)) in
        if net2hs t =? ETHER_TYPE_IPv4 then ipv4Recv pkt;; count
        else if net2hs t =? ETHER_TYPE_ARP then st_net (arpRecv garbage garbage garbage pkt);; count
        else mret tt.

Definition netRecv (rounds : nat) (netptr : Z) : prog stack unit :=
  nf ← st_net (nif netptr);
  st_net (ncall (k_enable vic_default));;
  repeat_rounds rounds (netRecv_round netptr (u32 (nf_linkhdrlen nf + nf_mtu nf))).

End recv.

(** ** netInit, netUp, netDown, netLookup *)

Definition netif_zero : netif :=
  mknetif 0 NET_FREE 0 0 netaddr0 netaddr0 netaddr0 netaddr0 netaddr0 netaddr0 (replicate NET_NTHR 0) 0 0 NULL.

Definition set_netpool (v : Z) (n : netst) : netst :=
  mknetst (sys n) (netiftab n) v (rttab n) (rtqueue n) (arptab n) (arpqueue n).
Definition set_nf_state (v : netstate) (e : netif) : netif :=
  mknetif (nf_dev e) v (nf_mtu e) (nf_linkhdrlen e) (nf_ip e) (nf_mask e) (nf_gateway e) (nf_ipbrc e)
    (nf_hwaddr e) (nf_hwbrc e) (nf_recvthr e) (nf_nin e) (nf_nproc e) (nf_capture e).
Definition set_nf_mtu (v : Z) (e : netif) : netif :=
  mknetif (nf_dev e) (nf_state e) v (nf_linkhdrlen e) (nf_ip e) (nf_mask e) (nf_gateway e) (nf_ipbrc e)
    (nf_hwaddr e) (nf_hwbrc e) (nf_recvthr e) (nf_nin e) (nf_nproc e) (nf_capture e).
Definition set_nf_linkhdrlen (v : Z) (e : netif) : netif :=
  mknetif (nf_dev e) (nf_state e) (nf_mtu e) v (nf_ip e) (nf_mask e) (nf_gateway e) (nf_ipbrc e)
    (nf_hwaddr e) (nf_hwbrc e) (nf_recvthr e) (nf_nin e) (nf_nproc e) (nf_capture e).
Definition set_nf_hwaddr (v : netaddr) (e : netif) : netif :=
  mknetif (nf_dev e) (nf_state e) (nf_mtu e) (nf_linkhdrlen e) (nf_ip e) (nf_mask e) (nf_gateway e) (nf_ipbrc e)
    v (nf_hwbrc e) (nf_recvthr e) (nf_nin e) (nf_nproc e) (nf_capture e).
Definition set_nf_hwbrc (v : netaddr) (e : netif) : netif :=
  mknetif (nf_dev e) (nf_state e) (nf_mtu e) (nf_linkhdrlen e) (nf_ip e) (nf_mask e) (nf_gateway e) (nf_ipbrc e)
    (nf_hwaddr e) v (nf_recvthr e) (nf_nin e) (nf_nproc e) (nf_capture e).
Definition set_nf_recvthr (v : list Z) (e : netif) : netif :=
  mknetif (nf_dev e) (nf_state e) (nf_mtu e) (nf_linkhdrlen e) (nf_ip e) (nf_mask e) (nf_gateway e) (nf_ipbrc e)
    (nf_hwaddr e) (nf_hwbrc e) v (nf_nin e) (nf_nproc e) (nf_capture e).

(** [addr[i] = (ip[i] & mask[i]) | ~mask[i]] for the first [n] octets *)
Fixpoint brc_octets (n : nat) (ip mask addr : list Z) : option (list Z) :=
  match n with
  | O => Some addr
  | S n =>
      match ip, mask, addr with
      | i :: ip, m :: mask, _ :: addr =>
          l ← brc_octets n ip mask addr;
          Some (u8 (Z.lor (Z.land i m) (Z.lnot m)) :: l)
      | _, _, _ => None
      end
  end.

(** The configuration that [netUp] stores in an interface *)
Definition configured (descrp : Z) (ip mask : netaddr) (gateway : option netaddr) (e : netif) : option netif :=
  brc ← brc_octets (Z.to_nat (Z.min (na_len ip) NET_MAX_ALEN)) (na_addr ip) (na_addr mask) (na_addr (nf_ipbrc e));
  Some (mknetif descrp NET_ALLOC (nf_mtu e) (nf_linkhdrlen e) ip mask
          (match gateway with None => untyped (nf_gateway e) | Some g => g end)
          (mknetaddr (na_type ip) (na_len ip) brc)
          (nf_hwaddr e) (nf_hwbrc e) (nf_recvthr e) (nf_nin e) (nf_nproc e) (nf_capture e)).

(** The first interface, if any, that satisfies [f] *)
Fixpoint nif_find (l : list Z) (f : netif -> bool) : prog netst (option Z) :=
  match l with
  | [] => mret None
  | p :: l => e ← nif p; if f e then mret (Some p) else nif_find l f
  end.
Definition started_on (descrp : Z) (e : netif) : bool := bool_decide (nf_state e = NET_ALLOC) && (descrp =? nf_dev e).

Section net.
(** The number of devices, their control functions and names; the addresses of [userret] and of the threads' procedures *)
Variable ndevs : Z.
Variable devcontrol : Z -> Z -> prog netst Z.
Variable devaddr : Z -> bool -> netaddr -> prog netst (Z * netaddr).
Variable devname : Z -> list Z.
Variables initret arpDaemon_addr rtDaemon_addr icmpDaemon_addr tcpTimer_addr netRecv_addr : Z.
Variable ntcp : Z.
Variable garbage : list Z.
Variable nifs : list Z.

Definition netLookup (devnum : Z) : prog netst Z :=
  r ← nif_find nifs (started_on devnum);
  mret (default NULL r).

Definition netAlloc : prog netst (option Z) := nif_find nifs (fun e => bool_decide (nf_state e = NET_FREE)).

Definition icmpInit : prog stack Z :=
  q ← st_net (scall (mailboxAlloc ICMP_NQUEUE));
  modify (set_icmpqueue (u32 q));;
  if u32 q =? u32 SYSERR then mret SYSERR
  else
    modify (set_echotab (replicate NPINGQUEUE (mkecho BADTID 0 0 (replicate (Z.to_nat NPINGHOLD) NULL))));;
    tid ← st_net (ncall (create initret icmpDaemon_addr NET_THR_STK NET_THR_PRIO
                           [105; 99; 109; 112; 68; 97; 101; 109; 111; 110; 0] []));
    st_net (ncall (ready tid RESCHED_NO));;
    mret OK.

Fixpoint netInit_loop (l : list Z) : prog netst unit :=
  match l with
  | [] => mret tt
  | p :: l => upd_nif p (fun _ => netif_zero);; upd_nif p (set_nf_state NET_FREE);; netInit_loop l
  end.

Definition netInit : prog stack Z :=
  st_net (netInit_loop nifs);;
  pool ← st_net (scall (bfpalloc (NET_MAX_PKTLEN + sizeof_packet) NET_POOLSIZE));
  st_net (modify (set_netpool pool));;
  if pool =? SYSERR then mret SYSERR
  else
    r ← st_net (arpInit initret arpDaemon_addr);
    if r =? SYSERR then mret SYSERR
    else
      r ← st_net (rtInit initret rtDaemon_addr);
      if r =? SYSERR then mret SYSERR
      else
        r ← icmpInit;
        if r =? SYSERR then mret SYSERR
        else if ntcp =? 0 then mret OK
        else
          tid ← st_net (ncall (create initret tcpTimer_addr INITSTK INITPRIO [116; 99; 112; 84; 105; 109; 101; 114; 0] []));
          if tid =? SYSERR then mret SYSERR
          else st_net (ncall (ready tid RESCHED_NO));; mret OK.

(** The receivers [i], [i + 1], ..., [n] of them.  Their names are the device's with [recv] and two digits. *)
Fixpoint spawn_loop (n i : nat) (netptr : Z) : prog netst unit :=
  match n with
  | O => mret tt
  | S n =>
      e ← nif netptr;
      tid ← ncall (create initret netRecv_addr NET_THR_STK NET_THR_PRIO
                     (devname (nf_dev e) ++ [114; 101; 99; 118; 48; 48 + Z.of_nat i; 0]) [netptr]);
      upd_nif netptr (fun e => set_nf_recvthr (<[i := tid]> (nf_recvthr e)) e);;
      ncall (ready tid RESCHED_NO);;
      spawn_loop n (S i) netptr
  end.

(** What the device says of itself; whether no call failed *)
Definition ask_device (descrp netptr : Z) : prog netst bool :=
  l ← devcontrol descrp NET_GET_LINKHDRLEN;
  upd_nif netptr (set_nf_linkhdrlen (u32 l));;
  m ← devcontrol descrp NET_GET_MTU;
  upd_nif netptr (set_nf_mtu (u32 m));;
  if (i32 l =? SYSERR) || (i32 m =? SYSERR) then mret false
  else
    e ← nif netptr;
    '(r, a) ← devaddr descrp true (nf_hwaddr e);
    upd_nif netptr (set_nf_hwaddr a);;
    if r =? SYSERR then mret false
    else
      e ← nif netptr;
      '(r, a) ← devaddr descrp false (nf_hwbrc e);
      upd_nif netptr (set_nf_hwbrc a);;
      mret (negb (r =? SYSERR)).

Definition netUp (descrp : Z) (ip mask gateway : option netaddr) : prog netst Z :=
  if negb ((0 <=? descrp) && (descrp <? ndevs)) then mret SYSERR
  else
    match ip, mask with
    | Some ip, Some mask =>
        if (NET_MAX_ALEN <? na_len ip) || (NET_MAX_ALEN <? na_len mask) then mret SYSERR
        else
          im ← ncall k_disable;
          r ← nif_find nifs (started_on descrp);
          match r with
          | Some _ => mret SYSERR
          | None =>
              r ← netAlloc;
              match r with
              | None => ncall (k_restore im);; mret SYSERR
              | Some netptr =>
                  e ← nif netptr;
                  e ← opt (configured descrp ip mask gateway e);
                  upd_nif netptr (fun _ => e);;
                  ok ← ask_device descrp netptr;
                  if negb (ok : bool) then upd_nif netptr (set_nf_state NET_FREE);; ncall (k_restore im);; mret SYSERR
                  else
                    e ← nif netptr;
                    rtAdd (Some (nf_ip e)) None (Some (nf_mask e)) netptr;;
                    (match gateway with
                     | None => mret OK
                     | Some _ => e ← nif netptr; rtDefault garbage (Some (nf_gateway e)) netptr
                     end);;
                    spawn_loop NET_NTHR 0 netptr;;
                    ncall (k_restore im);;
                    mret OK
              end
          end
    | _, _ => mret SYSERR
    end.

Fixpoint stop_loop (n i : nat) (netptr : Z) : prog netst unit :=
  match n with
  | O => mret tt
  | S n =>
      e ← nif netptr;
      tid ← opt (nf_recvthr e !! i);
      bad ← ncall (gets (fun k => isbadtid k tid));
      (if (bad : bool) then mret tt
       else
         ncall (kill tid);;
         upd_nif netptr (fun e => set_nf_recvthr (<[i := BADTID]> (nf_recvthr e)) e));;
      stop_loop n (S i) netptr
  end.

(** The index of the entry that is cleared is the loop's variable, [NET_NTHR] after the loop. *)
Definition netDown (descrp : Z) : prog netst Z :=
  if negb ((0 <=? descrp) && (descrp <? ndevs)) then mret SYSERR
  else
    r ← nif_find nifs (started_on descrp);
    match r with
    | None => mret SYSERR
    | Some netptr =>
        im ← ncall k_disable;
        stop_loop NET_NTHR 0 netptr;;
        r ← rtClear netptr;
        if r =? SYSERR then mret SYSERR
        else
          p ← opt (nifs !! NET_NTHR);
          upd_nif p (fun _ => netif_zero);;
          upd_nif netptr (set_nf_state NET_FREE);;
          ncall (k_restore im);;
          mret OK
    end.

End net.
