(* ===== verification/NetRecvProps.v ===== *)
(** * Properties of reception: what one host sends another delivers *)

From S2P Require Import Prelude Prog Queue Interrupt Memory Kernel CString CStringSpec Sys NetAddr NetAddrSpec Net Route RouteSpec NetProps Arp ArpSpec Tcp TcpTimer Ipv4 TcpConn TcpRecv Bytes Udp UdpProps Raw NetRecv.

Local Arguments Z.eqb : simpl never.
Local Arguments Z.ltb : simpl never.

Section header.
Context (n : netst) (pkt : Z) (src dst from : netaddr) (proto : Z).
Let M : memory := mem (nkern n).
Let ip : Z := ld M (pkt_curr pkt) - IPv4_HDR_LEN.
Let len : Z := ld M (pkt_len pkt) + IPv4_HDR_LEN.

(** The packet's record is a word-aligned block in front of or behind the place of
    the header. *)
Definition header_room : Prop :=
  pkt mod 4 = 0 /\ 0 <= ip < 2 ^ 32 - IPv4_HDR_LEN /\ (ip + IPv4_HDR_LEN <= pkt \/ pkt + sizeof_packet <= ip) /\
  IPv4_HDR_LEN <= len < 65536.

(** [from] is the source address: the one given, or the interface's. *)
Definition header_source : Prop :=
  if na_type src =? NULL then exists nf, netiftab n !! ld M (pkt_nif pkt) = Some nf /\ from = nf_ip nf else from = src.

Context (Hroom : header_room) (Hsrc : header_source).
(** Memory before the checksum is filled in *)
Definition header_mem : memory :=
  let M := st (st M (pkt_len pkt) len) (pkt_curr pkt) ip in
  let M := stb (stb M (ip_ver_ihl ip) 64) (ip_ver_ihl ip) 69 in
  let M := sth (stb M (ip_tos ip) 0) (ip_len ip) (hs2net len) in
  let M := sth (sth M (ip_id ip) 0) (ip_flags_froff ip) 0 in
  let M := stb (stb M (ip_ttl ip) 64) (ip_proto ip) proto in
  let M := stbs M (ip_src ip) (take 4 (na_addr from)) in
  let M := stbs M (ip_dst ip) (take 4 (na_addr dst)) in
  sth M (ip_chksum ip) 0.

(** Bytes of the header are apart from the words of the packet's record. *)
Lemma ld_header M' a v w : ip <= a < ip + 20 -> (w = pkt_nif pkt \/ w = pkt_len pkt \/ w = pkt_curr pkt) ->
  ld (stb M' a v) w = ld M' w.
Proof.
  destruct Hroom as (Hp & Hi & Ha & Hl). pose proof (eq_refl : IPv4_HDR_LEN = 20) as HH. intros Hk Hw. unfold sizeof_packet, pkt_nif, pkt_len, pkt_curr in *.
  assert (w mod 4 = 0) by (destruct Hw as [-> | [-> | ->]]; clear - Hp; Z.div_mod_to_equations; lia).
  apply ld_stb_ne; [done|]. lia.
Qed.

Context (Hs : (4 <= length (na_addr from))%nat) (Hd : (4 <= length (na_addr dst))%nat).

Lemma header_from {B} M' (g : unit -> prog netst B) : ld M' (pkt_nif pkt) = ld M (pkt_nif pkt) ->
  run ((if na_type src =? NULL then
          netptr ← nload (pkt_nif pkt);
          nf ← nif netptr;
          put_addr (ip_src ip) (nf_ip nf) IPv4_ADDR_LEN
        else put_addr (ip_src ip) src IPv4_ADDR_LEN) ≫= g) (with_mem n M')
  = run (g tt) (with_mem n (stbs M' (ip_src ip) (take 4 (na_addr from)))).
Proof.
  intros E. unfold header_source in Hsrc. rewrite run_bind.
  change (take 4) with (@take Z (Z.to_nat IPv4_ADDR_LEN)). destruct (na_type src =? NULL).
  - destruct Hsrc as (nf & Hnf & ->). rewrite run_nload_bind, E, (run_nif_bind _ _ _ nf) by done.
    rewrite <- (run_put_addr_bind n M' (ip_src ip) (nf_ip nf) IPv4_ADDR_LEN g) by (unfold IPv4_ADDR_LEN; lia).
    by rewrite run_bind.
  - subst from. rewrite <- (run_put_addr_bind n M' (ip_src ip) src IPv4_ADDR_LEN g) by (unfold IPv4_ADDR_LEN; lia).
    by rewrite run_bind.
Qed.

Lemma header_run : run (ipv4_header pkt src dst proto) n
  = Returned (with_mem n (sth header_mem (ip_chksum ip) (65535 - ones (wsum (ldbs header_mem ip 20))))) tt.
Proof.
  pose proof Hroom as (Hp & Hi & Ha & Hl). pose proof (eq_refl : IPv4_HDR_LEN = 20) as HH.
  rewrite <- (with_mem_self n) at 1. fold M. unfold ipv4_header.
  rewrite run_nload_bind, run_nstore_bind, run_nload_bind, (ld_st_ne _ (pkt_len pkt)) by (unfold pkt_len, pkt_curr; lia).
  rewrite run_nstore_bind, run_nload_bind, ld_st_eq. fold len ip.
  rewrite (u32_id len), (u32_id ip) by (unfold is_u32; lia).
  rewrite run_st8_bind, run_ld8_bind, ldb_stb_eq, !run_st8_bind, run_nload_bind.
  rewrite !ld_header, ld_st_ne, ld_st_eq by (auto; unfold pkt_len, pkt_curr, ip_ver_ihl, ip_tos; lia).
  rewrite !run_st16_bind, !run_st8_bind. rewrite header_from.
  2: { unfold sth. rewrite !ld_header, !ld_st_ne by (auto; unfold pkt_len, pkt_curr, pkt_nif, ip_ver_ihl, ip_tos, ip_len, ip_id, ip_flags_froff, ip_ttl, ip_proto; lia). done. }
  rewrite run_put_addr_bind by (unfold IPv4_ADDR_LEN; lia).
  rewrite run_st16_bind, run_nchksum_bind by lia. done.
Qed.
Definition header_block (c : Z) : list Z :=
  [69; 0; len / 256; len mod 256; 0; 0; 0; 0; 64; u8 proto] ++ [c mod 256; c / 256]
  ++ (u8 <$> take 4 (na_addr from)) ++ (u8 <$> take 4 (na_addr dst)).

(** Before and after the checksum is filled in *)
Lemma header_bytes c : 0 <= c < 65536 ->
  ldbs header_mem ip 20 = header_block 0 /\ ldbs (sth header_mem (ip_chksum ip) c) ip 20 = header_block c.
Proof.
  intros Hc. pose proof Hroom as (_ & _ & _ & Hl). rewrite (eq_refl : IPv4_HDR_LEN = 20) in Hl.
  assert (Hc' : u8 (Z.shiftr c 8) = c / 256)
    by (rewrite Z.shiftr_div_pow2 by lia; change (2 ^ 8) with 256; unfold u8; Z.div_mod_to_equations; lia).
  unfold header_mem, header_block.
  destruct (na_addr from) as [|s0 [|s1 [|s2 [|s3 s]]]]; simpl in Hs; [lia..|].
  destruct (na_addr dst) as [|d0 [|d1 [|d2 [|d3 d]]]]; simpl in Hd; [lia..|].
  cbn [take]. rewrite !take_0. cbn [stbs fmap list_fmap app ldbs].
  unfold sth, ip_chksum, ip_ver_ihl, ip_tos, ip_len, ip_id, ip_flags_froff, ip_ttl, ip_proto, ip_src, ip_dst.
  split; repeat f_equal; bytes.
Qed.

(** Everything else is as before. *)
Lemma header_frame c a : ~ ip <= a < ip + 20 -> ~ pkt_len pkt <= a < pkt_len pkt + 4 -> ~ pkt_curr pkt <= a < pkt_curr pkt + 4 ->
  ldb (sth header_mem (ip_chksum ip) c) a = ldb M a.
Proof.
  intros Ha Hl Hu. pose proof Hroom as (Hp & _). unfold header_mem.
  destruct (na_addr from) as [|s0 [|s1 [|s2 [|s3 s]]]]; simpl in Hs; [lia..|].
  destruct (na_addr dst) as [|d0 [|d1 [|d2 [|d3 d]]]]; simpl in Hd; [lia..|].
  cbn [take]. rewrite !take_0. cbn [stbs].
  unfold sth, ip_chksum, ip_ver_ihl, ip_tos, ip_len, ip_id, ip_flags_froff, ip_ttl, ip_proto, ip_src, ip_dst.
  repeat rewrite ldb_stb_ne by lia. rewrite !ldb_st_ne; [done|..]; try lia.
  all: unfold pkt_len, pkt_curr; clear - Hp; Z.div_mod_to_equations; lia.
Qed.

Lemma header_words c : ld (sth header_mem (ip_chksum ip) c) (pkt_curr pkt) = ip /\
  ld (sth header_mem (ip_chksum ip) c) (pkt_len pkt) = len.
Proof.
  unfold header_mem.
  destruct (na_addr from) as [|s0 [|s1 [|s2 [|s3 s]]]]; simpl in Hs; [lia..|].
  destruct (na_addr dst) as [|d0 [|d1 [|d2 [|d3 d]]]]; simpl in Hd; [lia..|].
  cbn [take]. rewrite !take_0. cbn [stbs].
  unfold sth, ip_chksum, ip_ver_ihl, ip_tos, ip_len, ip_id, ip_flags_froff, ip_ttl, ip_proto, ip_src, ip_dst.
  split; rewrite !ld_header by (auto; lia); [apply ld_st_eq|].
  rewrite ld_st_ne by (unfold pkt_len, pkt_curr; lia). apply ld_st_eq.
Qed.

(** The length as ipv4RecvValid compares it *)
Lemma length_swapped : (len / 256 + 256 * (len mod 256) <? 20) = (len mod 256 =? 0) && (len / 256 <? 20).
Proof.
  pose proof Hroom as (_ & _ & _ & Hl). rewrite (eq_refl : IPv4_HDR_LEN = 20) in Hl.
  apply eq_true_iff_eq. rewrite andb_true_iff, !Z.ltb_lt, Z.eqb_eq. Z.div_mod_to_equations. lia.
Qed.

Lemma header_sum c : 0 <= c -> wsum (header_block c) = wsum (header_block 0) + c.
Proof.
  intros Hc. unfold header_block. rewrite !(wsum_app (_ :: _)) by done. cbn [app]. rewrite !wsum_word.
  change (0 mod 256) with 0. change (0 / 256) with 0. Z.div_mod_to_equations. lia.
Qed.

(** The fields of a header in memory *)
Lemma block_fields M' ip' c : ldbs M' ip' 20 = header_block c ->
  ldb M' (ip_ver_ihl ip') = 69 /\ ldh M' (ip_len ip') = len / 256 + 256 * (len mod 256) /\
  ldh M' (ip_flags_froff ip') = 0 /\ ldb M' (ip_proto ip') = u8 proto.
Proof.
  intros H.
  assert (Hb : forall i x, header_block c !! i = Some x -> ldb M' (ip' + Z.of_nat i) = x)
    by (intros i x; by apply (ldbs_byte _ _ 20)).
  unfold ldh, ip_ver_ihl, ip_len, ip_flags_froff, ip_proto. rewrite <- !Z.add_assoc. split_and!.
  - rewrite <- (Z.add_0_r ip'). by apply (Hb 0%nat).
  - f_equal; [by apply (Hb 2%nat)|]. f_equal. by apply (Hb 3%nat).
  - rewrite (Hb 6%nat 0 eq_refl : ldb M' (ip' + 6) = 0), (Hb 7%nat 0 eq_refl : ldb M' (ip' + (6 + 1)) = 0). done.
  - by apply (Hb 9%nat).
Qed.

Lemma block_valid M' ip' c : ldbs M' ip' 20 = header_block c -> chksum_of M' ip' 20 = Some 0 ->
  ipv4RecvValid M' ip' = Some (negb ((len mod 256 =? 0) && (len / 256 <? 20))).
Proof.
  intros H Hsum. destruct (block_fields M' ip' c H) as (Hv & Hlen & _).
  unfold ipv4RecvValid. rewrite Hv, Hlen. change (4 * Z.land 69 IPv4_IHL) with 20. rewrite Hsum.
  cbn [mbind option_bind]. rewrite (length_swapped : (_ <? IPv4_MIN_IHL * 4) = _). by destruct (_ && _).
Qed.

(** The header that ipv4Send writes in front of a payload has
    the version, the length in network order, the addresses and the protocol in their places;
    [pkt->curr] and [pkt->len] are moved to include it and no other byte of memory changes.  Its
    checksum verifies, and ipv4RecvValid accepts it, except when the length is a
    multiple of 256 below 5120: the length is compared with 20 in network order. *)
Theorem ipv4_header_accepted : exists n' c,
  run (ipv4_header pkt src dst proto) n = Returned n' tt /\
  let M' := mem (nkern n') in
  n' = with_mem n M' /\ ld M' (pkt_curr pkt) = ip /\ ld M' (pkt_len pkt) = len /\
  ldbs M' ip 20 = header_block c /\ chksum_of M' ip 20 = Some 0 /\
  ipv4RecvValid M' ip = Some (negb ((len mod 256 =? 0) && (len / 256 <? 20))) /\
  (forall a, ~ ip <= a < ip + 20 -> ~ pkt_len pkt <= a < pkt_len pkt + 4 -> ~ pkt_curr pkt <= a < pkt_curr pkt + 4 ->
    ldb M' a = ldb M a).
Proof.
  pose proof Hroom as (_ & _ & _ & Hl). rewrite (eq_refl : IPv4_HDR_LEN = 20) in Hl.
  set (c := 65535 - ones (wsum (ldbs header_mem ip 20))).
  assert (Hs0 : 0 <= wsum (ldbs header_mem ip 20)) by apply (wsum_bound _ (ldbs_bytes _ _ _)).
  assert (Hc : 0 <= c < 65536) by (pose proof (ones_range _ Hs0); lia).
  destruct (header_bytes c Hc) as [H0 H1]. set (M' := sth header_mem (ip_chksum ip) c) in *.
  assert (Hsum : chksum_of M' ip 20 = Some 0).
  { rewrite chksum_of_spec by lia. change (Z.to_nat 20) with 20%nat. rewrite H1, header_sum, <- H0 by lia.
    unfold c. by rewrite checksum_word. }
  exists (with_mem n M'), c. split; [apply header_run|]. cbv zeta. change (mem (nkern (with_mem n M'))) with M'.
  split_and!; [done|apply header_words|apply header_words|done|done|by apply (block_valid _ _ c)|intros; by apply header_frame].
Qed.

End header.

Definition header_net : netst :=
  with_mem sample_net (st (st (mem (nkern sample_net)) (pkt_len 0x1000) 100) (pkt_curr 0x1000) 0x1400).

Lemma ipv4_header_accepted_witness :
  let a := mknetaddr NETADDR_IPv4 4 [10; 0; 0; 1] in
  let b := mknetaddr NETADDR_IPv4 4 [10; 0; 0; 2] in
  exists n', run (ipv4_header 0x1000 a b 6) header_net = Returned n' tt /\
    ipv4RecvValid (mem (nkern n')) (0x1400 - 20) = Some true.
Proof.
  intros a b. destruct (ipv4_header_accepted header_net 0x1000 a b a 6) as (n' & c & Hr & _ & _ & _ & _ & _ & Hv & _).
  - assert (E1 : ld (mem (nkern header_net)) (pkt_curr 0x1000) = 0x1400) by (vm_compute; reflexivity).
    assert (E2 : ld (mem (nkern header_net)) (pkt_len 0x1000) = 100) by (vm_compute; reflexivity).
    unfold header_room. rewrite E1, E2. unfold IPv4_HDR_LEN, sizeof_packet. split; [reflexivity|lia].
  - reflexivity.
  - vm_compute. lia.
  - vm_compute. lia.
  - exists n'. split; [exact Hr|]. exact Hv.
Defined.

(** A packet of 256 octets in all is sent with a correct header and dropped by the receiver. *)
Definition dropped_net : netst :=
  with_mem sample_net (st (st (mem (nkern sample_net)) (pkt_len 0x1000) 236) (pkt_curr 0x1000) 0x1400).

Lemma ipv4RecvValid_drops_256 :
  let a := mknetaddr NETADDR_IPv4 4 [10; 0; 0; 1] in
  match run (ipv4_header 0x1000 a a 6) dropped_net with
  | Returned n' _ => (chksum_of (mem (nkern n')) (0x1400 - 20) 20, ipv4RecvValid (mem (nkern n')) (0x1400 - 20))
  | _ => (None, None)
  end = (Some 0, Some false).
Proof. vm_compute. reflexivity. Qed.

(** ** Reception *)


(** ** Running the programs of the network on the stack *)

Section run.
Context {B : Type} (s : stack) (M : memory).

(** The stack with memory [M] *)
Definition stack_mem (M : memory) : stack := set_snet (with_mem (snet s) M) s.

Lemma run_st_gets {A} (f : memory -> A) (g : A -> prog stack B) :
  run (st_net (ngets f) ≫= g) (stack_mem M) = run (g (f M)) (stack_mem M).
Proof. done. Qed.
Lemma run_st_load a (g : Z -> prog stack B) : run (st_net (nload a) ≫= g) (stack_mem M) = run (g (ld M a)) (stack_mem M).
Proof. done. Qed.
Lemma run_st_store a v (g : unit -> prog stack B) :
  run (st_net (nstore a v) ≫= g) (stack_mem M) = run (g tt) (stack_mem (st M a v)).
Proof. done. Qed.
Lemma run_st_addr garbage type a (g : netaddr -> prog stack B) :
  run (st_net (get_addr garbage type IPv4_ADDR_LEN a) ≫= g) (stack_mem M)
  = run (g (mknetaddr type 4 (ldbs M a 4 ++ drop 4 garbage))) (stack_mem M).
Proof. done. Qed.
Lemma run_st_opt {A} (f : netst -> option A) x (g : A -> prog stack B) : f (with_mem (snet s) M) = Some x ->
  run (st_net (readopt f) ≫= g) (stack_mem M) = run (g x) (stack_mem M).
Proof.
  intros E. unfold st_net. rewrite (run_zoom_bind snet set_snet _ _ _ (with_mem (snet s) M) x); [done|].
  change (snet (stack_mem M)) with (with_mem (snet s) M). unfold readopt. simpl. rewrite E. done.
Qed.
Lemma run_st_nif a nf (g : netif -> prog stack B) : netiftab (snet s) !! a = Some nf ->
  run (st_net (nif a) ≫= g) (stack_mem M) = run (g nf) (stack_mem M).
Proof. intros E. by apply (run_st_opt (fun n => netiftab n !! a)). Qed.

End run.

Lemma stack_mem_self s : stack_mem s (mem (nkern (snet s))) = s.
Proof. unfold stack_mem. rewrite with_mem_self. by destruct s as [[]]. Qed.

(** The address that [ipv4Recv] finds at a place of the header where the octets [l] were sent *)
Definition wire_addr (garbage l : list Z) : netaddr := mknetaddr NETADDR_IPv4 4 ((u8 <$> take 4 l) ++ drop 4 garbage).

(** [a] is the IPv4 address with octets [l]. *)
Definition is_ipv4 (a : netaddr) (l : list Z) : Prop := kind a = (NETADDR_IPv4, 4) /\ octets a = u8 <$> take 4 l.

(** An open interface that has the address, or whose broadcast address it is *)
Definition owns (l : list Z) (nf : netif) : Prop := nf_state nf = NET_ALLOC /\ (is_ipv4 (nf_ip nf) l \/ is_ipv4 (nf_ipbrc nf) l).

#[export] Instance owns_dec l nf : Decision (owns l nf).
Proof. unfold owns, is_ipv4. apply _. Defined.

Definition nif_full (nf : netif) : Prop := addr_full (nf_ip nf) /\ addr_full (nf_ipbrc nf).

Lemma netaddrequal_full a b : addr_full a -> addr_full b ->
  netaddrequal a b = Some (bool_decide (kind a = kind b /\ octets a = octets b)).
Proof.
  unfold addr_full. intros Ha Hb. unfold netaddrequal, kind, octets.
  destruct (Z.eqb_spec (na_type a) (na_type b)) as [Et|Et]; cbn [negb].
  2:{ by rewrite bool_decide_eq_false_2 by (intros [[= ? ?] _]; done). }
  destruct (Z.eqb_spec (na_len a) (na_len b)) as [El|El]; cbn [negb].
  2:{ by rewrite bool_decide_eq_false_2 by (intros [[= ? ?] _]; done). }
  destruct (addr_cmp_spec (Z.to_nat (na_len a)) (na_addr a) (na_addr b)) as (c & -> & Hc); [lia|rewrite El; lia|].
  simpl. f_equal. rewrite <- El. destruct (Z.eqb_spec 0 c) as [<-|Hn]; cbn [negb].
  - rewrite bool_decide_eq_true_2; [done|]. split; [by rewrite Et|]. by apply Hc.
  - rewrite bool_decide_eq_false_2; [done|]. intros [_ H]. by apply Hc in H.
Qed.

Lemma wire_is garbage l a : (4 <= length l)%nat -> addr_full a ->
  netaddrequal (wire_addr garbage l) a = Some (bool_decide (is_ipv4 a l)).
Proof.
  intros Hl Ha. assert (Hlen : length (u8 <$> take 4 l) = 4%nat) by (rewrite length_fmap, length_take; lia).
  rewrite netaddrequal_full; [|unfold addr_full, wire_addr; simpl; rewrite length_app, Hlen; lia|done].
  assert (Ho : octets (wire_addr garbage l) = u8 <$> take 4 l).
  { unfold octets, wire_addr. cbn [na_len na_addr]. change (Z.to_nat 4) with 4%nat. by rewrite take_app_length'. }
  f_equal. apply bool_decide_ext. rewrite Ho. unfold is_ipv4. change (kind (wire_addr garbage l)) with (NETADDR_IPv4, 4).
  split; intros [-> ->]; done.
Qed.

(** [ipv4RecvDemux] tells whether an interface of the host has the address. *)
Lemma demux_owns garbage l ifs : (4 <= length l)%nat -> Forall nif_full ifs ->
  ipv4RecvDemux ifs (wire_addr garbage l) = Some (bool_decide (Exists (owns l) ifs)).
Proof.
  intros Hl. induction 1 as [|nf ifs [H1 H2] _ IH]; [done|]. cbn [ipv4RecvDemux].
  rewrite (bool_decide_ext (Exists (owns l) (nf :: ifs)) (owns l nf \/ Exists (owns l) ifs)) by apply Exists_cons.
  destruct (decide (nf_state nf <> NET_ALLOC)) as [Hn|Hn].
  { rewrite IH. f_equal. apply bool_decide_ext. unfold owns at 2. naive_solver. }
  apply dec_stable in Hn. rewrite !wire_is by done. cbn [mbind option_bind].
  destruct (decide (is_ipv4 (nf_ip nf) l)) as [Hi|Hi].
  { rewrite (bool_decide_eq_true_2 (is_ipv4 _ _)) by done. cbn. rewrite bool_decide_eq_true_2; [done|]. left. split; [done|by left]. }
  rewrite (bool_decide_eq_false_2 (is_ipv4 (nf_ip nf) l)) by done. cbn.
  destruct (decide (is_ipv4 (nf_ipbrc nf) l)) as [Hb|Hb].
  { rewrite (bool_decide_eq_true_2 (is_ipv4 _ _)) by done. cbn. rewrite bool_decide_eq_true_2; [done|]. left. split; [done|by right]. }
  rewrite (bool_decide_eq_false_2 (is_ipv4 _ _)) by done. cbn. rewrite IH. f_equal. apply bool_decide_ext. unfold owns at 2. naive_solver.
Qed.

Section delivery.
Context (nudp ntcp nraw : Z) (devwrite : Z -> Z -> Z -> prog netst Z) (snoopCapture : Z -> Z -> prog netst Z)
  (clkcount : prog netst Z) (gaddr : netaddr) (garbage nifs : list Z).
(** The sender *)
Context (n : netst) (p : Z) (src dst from : netaddr) (proto : Z).
Context (Hroom : header_room n p) (Hsrc : header_source n p src from).
Context (Hs : (4 <= length (na_addr from))%nat) (Hd : (4 <= length (na_addr dst))%nat).
Let len : Z := ld (mem (nkern n)) (pkt_len p) + IPv4_HDR_LEN.
(** The receiver *)
Context (s : stack) (pkt : Z) (nf : netif) (ifs : list netif).
Let M : memory := mem (nkern (snet s)).
Let ip : Z := ld M (pkt_curr pkt).

(** The packet is in memory apart from its record, from an interface of the host; the frame may
    be padded. *)
Record arrived : Prop := {
  ar_pkt : pkt <> NULL /\ pkt mod 4 = 0;
  ar_ip : 0 <= ip < 2 ^ 32 - IPv4_HDR_LEN;
  ar_apart : ip + IPv4_HDR_LEN <= pkt \/ pkt + sizeof_packet <= ip;
  ar_nif : netiftab (snet s) !! ld M (pkt_nif pkt) = Some nf;
  ar_ifs : mapM (fun a => netiftab (snet s) !! a) nifs = Some ifs;
  ar_frame : 0 <= nf_linkhdrlen nf /\ nf_linkhdrlen nf + len <= ld M (pkt_len pkt) < 2 ^ 32;
}.

(** Memory when the handler of the protocol is called *)
Definition stripped : memory :=
  let M1 := st M (pkt_nethdr pkt) ip in
  let M2 := if len <? ld M (pkt_len pkt) - nf_linkhdrlen nf then st M1 (pkt_len pkt) (nf_linkhdrlen nf + len) else M1 in
  st M2 (pkt_curr pkt) (ip + IPv4_HDR_LEN).

Lemma recv_len x : 0 <= x < 65536 -> net2hs (x / 256 + 256 * (x mod 256)) = x.
Proof. intros Hx. unfold net2hs. rewrite hs2net_val by (Z.div_mod_to_equations; lia). Z.div_mod_to_equations. lia. Qed.

(** The header after the pointer to it is stored *)
Let M1 : memory := st M (pkt_nethdr pkt) ip.

Lemma recv_header c : arrived -> ldbs M ip 20 = header_block n p dst from proto c -> ldbs M1 ip 20 = header_block n p dst from proto c.
Proof.
  intros [] Hb. destruct ar_pkt0 as [_ Hp4]. pose proof (eq_refl : IPv4_HDR_LEN = 20). pose proof (eq_refl : sizeof_packet = 24).
  rewrite <- Hb. apply ldbs_ext. intros a Ha. apply ldb_st_ne; unfold pkt_nethdr; [|lia].
  clear - Hp4. Z.div_mod_to_equations. lia.
Qed.

Lemma recv_addrs c : ldbs M1 ip 20 = header_block n p dst from proto c ->
  ldbs M1 (ip_src ip) 4 = u8 <$> take 4 (na_addr from) /\ ldbs M1 (ip_dst ip) 4 = u8 <$> take 4 (na_addr dst).
Proof.
  intros Hb. assert (Ha : forall i l, (i + 4 <= 20)%nat -> take 4 (drop i (header_block n p dst from proto c)) = l ->
    ldbs M1 (ip + Z.of_nat i) 4 = l) by (intros i l Hi <-; by apply (ldbs_part _ _ 20)).
  unfold header_block in Ha.
  destruct (na_addr from) as [|s0 [|s1 [|s2 [|s3 sl]]]]; simpl in Hs; [lia..|].
  destruct (na_addr dst) as [|d0 [|d1 [|d2 [|d3 dl]]]]; simpl in Hd; [lia..|].
  split; [apply (Ha 12%nat)|apply (Ha 16%nat)]; done || lia.
Qed.

Lemma recv_run c mine : arrived -> ldbs M ip 20 = header_block n p dst from proto c -> chksum_of M ip 20 = Some 0 ->
  (len mod 256 =? 0) && (len / 256 <? 20) = false -> ipv4RecvDemux ifs (wire_addr garbage (na_addr dst)) = Some mine ->
  run (ipv4Recv nudp ntcp nraw devwrite snoopCapture clkcount gaddr garbage nifs pkt) s
  = if (mine : bool) then
      run (ipv4_proto nudp ntcp nraw devwrite snoopCapture clkcount gaddr garbage pkt
             (wire_addr garbage (na_addr from)) (wire_addr garbage (na_addr dst)) (u8 proto);; mret OK)
        (stack_mem s stripped)
    else run (st_net (rtRecv pkt)) (stack_mem s M1).
Proof.
  intros Har Hb Hc Hl Hm. pose proof (recv_header c Har Hb) as Hb1. destruct Har as [[Hp Hp4] Hip Hap Hnif Hifs Hfr0].
  pose proof (eq_refl : IPv4_HDR_LEN = 20) as HH. pose proof (eq_refl : sizeof_packet = 24) as HS.
  destruct Hroom as (_ & _ & _ & Hlen). fold len in Hlen.
  assert (Hc1 : chksum_of M1 ip 20 = Some 0).
  { rewrite <- Hc, !chksum_of_spec by lia. change (Z.to_nat 20) with 20%nat. by rewrite Hb1, Hb. }
  pose proof (block_valid n p dst from proto Hroom Hs Hd M1 ip c Hb1 Hc1) as Hv. fold len in Hv. rewrite Hl in Hv.
  destruct (block_fields n p dst from proto M1 ip c Hb1) as (Hver & Hlen1 & Hfr & Hpr). fold len in Hlen1.
  destruct (recv_addrs c Hb1) as [Hfrom Hdst].
  rewrite <- (stack_mem_self s) at 1. fold M. unfold ipv4Recv. rewrite (proj2 (Z.eqb_neq _ _) Hp).
  rewrite run_st_load, run_st_store. fold ip M1.
  rewrite (run_st_opt s M1 (fun n => ipv4RecvValid (mem (nkern n)) ip) true) by exact Hv. cbn [negb].
  rewrite !run_st_addr, Hdst, Hfrom.
  rewrite (run_st_opt s M1 _ mine).
  2: { change (netiftab (with_mem (snet s) M1)) with (netiftab (snet s)). rewrite Hifs. exact Hm. }
  destruct mine; cbn [negb]; [|done].
  rewrite (run_st_gets s M1 (fun M => ldh M (ip_flags_froff ip))), Hfr.
  change (negb (Z.land IPv4_FLAG_MF (net2hs 0) =? 0) || negb (Z.land (net2hs 0) IPv4_FROFF =? 0)) with false. cbv iota.
  rewrite (run_st_gets s M1 (fun M => ldh M (ip_len ip))), Hlen1, recv_len by lia.
  rewrite !run_st_load.
  assert (E1 : ld M1 (pkt_len pkt) = ld M (pkt_len pkt)) by (apply ld_st_ne; unfold pkt_nethdr, pkt_len; lia).
  assert (E2 : ld M1 (pkt_nif pkt) = ld M (pkt_nif pkt)) by (apply ld_st_ne; unfold pkt_nethdr, pkt_nif; lia).
  rewrite E1, E2.
  rewrite (run_st_nif s M1 _ nf) by exact Hnif. rewrite !u32_id by (unfold is_u32; lia).
  set (M2 := if len <? ld M (pkt_len pkt) - nf_linkhdrlen nf then st M1 (pkt_len pkt) (nf_linkhdrlen nf + len) else M1).
  assert (Hst : forall B (g : unit -> prog stack B),
    run ((if len <? ld M (pkt_len pkt) - nf_linkhdrlen nf then st_net (nstore (pkt_len pkt) (nf_linkhdrlen nf + len)) else mret tt)
           ≫= g) (stack_mem s M1) = run (g tt) (stack_mem s M2)).
  { intros B g. unfold M2. by destruct (len <? _). }
  rewrite Hst. clear Hst.
  assert (H2 : forall a, ip <= a < ip + 20 -> ldb M2 a = ldb M1 a).
  { intros a Hr. unfold M2. destruct (len <? _); [|done]. apply ldb_st_ne; unfold pkt_len; [|lia].
    clear - Hp4. Z.div_mod_to_equations. lia. }
  assert (Hcurr : ld M2 (pkt_curr pkt) = ip).
  { unfold M2, M1. destruct (len <? _); rewrite !ld_st_ne by (unfold pkt_len, pkt_nethdr, pkt_curr; lia); done. }
  rewrite (run_st_gets s M2 (fun M => ldb M (ip_ver_ihl ip))), H2, Hver by (unfold ip_ver_ihl; lia).
  rewrite run_st_load, Hcurr. change (Z.shiftl (Z.land 69 IPv4_IHL) 2) with 20. rewrite u32_id by (unfold is_u32; lia).
  rewrite run_st_store. change (st M2 (pkt_curr pkt) (ip + 20)) with stripped.
  rewrite (run_st_gets s stripped (fun M => ldb M (ip_proto ip))).
  assert (Hpr2 : ldb stripped (ip_proto ip) = u8 proto).
  { rewrite <- Hpr, <- (H2 (ip_proto ip)) by (unfold ip_proto; lia). apply ldb_st_ne; unfold pkt_curr, ip_proto; [|lia].
    clear - Hp4. Z.div_mod_to_equations. lia. }
  rewrite Hpr2. done.
Qed.

(** What the handler finds: the words of the record are set, everything else is as it was. *)
Lemma stripped_words : arrived -> ld stripped (pkt_nethdr pkt) = ip /\ ld stripped (pkt_curr pkt) = ip + IPv4_HDR_LEN /\
  ld stripped (pkt_len pkt) = nf_linkhdrlen nf + len /\
  (forall a, ~ pkt_len pkt <= a < pkt_curr pkt + 4 -> ldb stripped a = ldb M a).
Proof.
  intros [[_ Hp4] _ _ _ _ Hfr]. unfold stripped. split_and!.
  - rewrite ld_st_ne by (unfold pkt_nethdr, pkt_curr; lia). destruct (len <? _).
    + rewrite ld_st_ne by (unfold pkt_nethdr, pkt_len; lia). apply ld_st_eq.
    + apply ld_st_eq.
  - apply ld_st_eq.
  - rewrite ld_st_ne by (unfold pkt_len, pkt_curr; lia). destruct (Z.ltb_spec len (ld M (pkt_len pkt) - nf_linkhdrlen nf)).
    + apply ld_st_eq.
    + rewrite ld_st_ne by (unfold pkt_nethdr, pkt_len; lia). lia.
  - intros a Ha. assert (Hw : forall w, w mod 4 = 0 -> forall k, (w + 4 * k) mod 4 = 0)
      by (clear; intros; Z.div_mod_to_equations; lia).
    unfold pkt_len, pkt_curr, pkt_nethdr in *.
    rewrite ldb_st_ne by (try (apply (Hw pkt Hp4 4)); lia). destruct (len <? _);
      rewrite !ldb_st_ne by (try (apply (Hw pkt Hp4 1)); try (apply (Hw pkt Hp4 3)); lia); done.
Qed.

(** The handler of a protocol, from its number in the header (RFC 790): ICMP is 1, UDP is 17, TCP is 6, and raw sockets take the
    others.  What the configuration leaves out has no devices, and nothing is called. *)
Definition handled (pr : Z) (run_of : prog stack unit -> Prop) : Prop :=
  let from := wire_addr garbage (na_addr from) in let dst := wire_addr garbage (na_addr dst) in
  let udp := if nudp =? 0 then mret tt else st_udp (udpRecv nudp devwrite snoopCapture gaddr garbage pkt from dst);; mret tt in
  let tcp := if ntcp =? 0 then mret tt else st_tcp (tcpRecv ntcp devwrite snoopCapture gaddr pkt from dst);; mret tt in
  let raw := if nraw =? 0 then mret tt else st_raw (rawRecv nraw devwrite snoopCapture gaddr garbage pkt from dst pr);; mret tt in
  (pr = 1 -> run_of (icmpRecv clkcount pkt;; mret tt)) /\
  (pr = 17 -> run_of udp) /\ (pr = 6 -> run_of tcp) /\
  (pr <> 1 -> pr <> 17 -> pr <> 6 -> run_of raw).

Lemma proto_handled x : handled (u8 proto) (fun h =>
  run (ipv4_proto nudp ntcp nraw devwrite snoopCapture clkcount gaddr garbage pkt
         (wire_addr garbage (na_addr from)) (wire_addr garbage (na_addr dst)) (u8 proto);; mret OK) x = run (h;; mret OK) x).
Proof.
  unfold ipv4_proto. change IPv4_PROTO_ICMP with 1. change IPv4_PROTO_UDP with 17. change IPv4_PROTO_TCP with 6.
  split_and!; [intros ->|intros ->|intros ->|intros H1 H2 H3].
  - done.
  - done.
  - done.
  - by rewrite (proj2 (Z.eqb_neq _ _) H1), (proj2 (Z.eqb_neq _ _) H2), (proj2 (Z.eqb_neq _ _) H3).
Qed.

(** C34: ipv4_delivers.  The header that ipv4Send writes on one host takes the packet to the right place on
    another.  When the 20 octets arrive at a host, in a frame that may be padded, and an open interface of the host has the destination
    address as its address or its broadcast address, ipv4Recv calls the handler of the protocol that was sent, icmpRecv for 1, udpRecv
    for 17, tcpRecv for 6 and rawRecv for any other, with the addresses that were sent, and returns OK; the handler
    finds the packet without its header and without the padding, and no other octet
    of memory is changed.  When no open interface has the address the packet goes to rtRecv.  The frame is in memory apart from its record and comes
    from an interface of the host.  Packets whose length is a multiple of 256 below 5120 are excepted: ipv4RecvValid compares the
    length with 20 in network order and drops them. *)
Theorem ipv4_delivers : exists n',
  run (ipv4_header p src dst proto) n = Returned n' tt /\
  (arrived -> Forall nif_full ifs ->
   ldbs M ip 20 = ldbs (mem (nkern n')) (ld (mem (nkern n')) (pkt_curr p)) 20 ->
   ~ (len mod 256 = 0 /\ len / 256 < 20) ->
   let receive := run (ipv4Recv nudp ntcp nraw devwrite snoopCapture clkcount gaddr garbage nifs pkt) s in
   (Exists (owns (na_addr dst)) ifs -> handled (u8 proto) (fun h => receive = run (h;; mret OK) (stack_mem s stripped))) /\
   (~ Exists (owns (na_addr dst)) ifs ->
      receive = run (st_net (rtRecv pkt)) (stack_mem s (st M (pkt_nethdr pkt) ip))) /\
   ld stripped (pkt_nethdr pkt) = ip /\ ld stripped (pkt_curr pkt) = ip + IPv4_HDR_LEN /\
   ld stripped (pkt_len pkt) = nf_linkhdrlen nf + len /\
   (forall a, ~ pkt_len pkt <= a < pkt_curr pkt + 4 -> ldb stripped a = ldb M a)).
Proof.
  destruct (ipv4_header_accepted n p src dst from proto Hroom Hsrc Hs Hd) as (n' & c & Hr & _ & Hcurr & _ & Hb & Hc & _).
  exists n'. split; [exact Hr|]. intros Har Hfull Hw Hl receive. rewrite Hcurr, Hb in Hw.
  pose proof (demux_owns garbage (na_addr dst) ifs Hd Hfull) as Hm.
  assert (Hl' : (len mod 256 =? 0) && (len / 256 <? 20) = false)
    by (apply not_true_iff_false; by rewrite andb_true_iff, Z.eqb_eq, Z.ltb_lt).
  assert (Hc' : chksum_of M ip 20 = Some 0).
  { rewrite <- Hc, !chksum_of_spec by lia. change (Z.to_nat 20) with 20%nat. by rewrite Hw, Hb. }
  pose proof (recv_run c _ Har Hw Hc' Hl' Hm) as E. fold receive in E.
  split; [|split; [|by apply stripped_words]]; intros Ho.
  - rewrite E, bool_decide_eq_true_2 by done. apply proto_handled.
  - by rewrite E, bool_decide_eq_false_2.
Qed.

End delivery.

(** ** The socket for a packet *)

(** How well a socket matches: by protocol and both addresses, by protocol and one address, by protocol, or
    as one that takes every protocol *)
Definition raw_level (src dst : netaddr) (proto : Z) (r : raw) : Z :=
  let peer := bool_decide (netaddrequal src (r_remoteip r) = Some true) in
  let here := bool_decide (netaddrequal dst (r_localip r) = Some true) in
  let anypeer := na_type (r_remoteip r) =? NULL in
  let anyhere := na_type (r_localip r) =? NULL in
  if decide (r_state r = RAW_FREE) then 0
  else if (proto =? r_proto r) && peer && here then 4
  else if (proto =? r_proto r) && (peer && anyhere || here && anypeer) then 3
  else if (proto =? r_proto r) && anypeer && anyhere then 2
  else if (r_proto r =? NULL) && anypeer && anyhere then 1
  else 0.

Section rawdemux.
Context (tab : gmap Z raw) (src dst : netaddr) (proto : Z).
Context (Hsrc : addr_full src) (Hdst : addr_full dst).
Let level := raw_level src dst proto.

Definition raw_full (r : raw) : Prop := addr_full (r_localip r) /\ addr_full (r_remoteip r).

Lemma raw_entry r i best l : raw_full r -> 0 <= l ->
  (if decide (r_state r = RAW_ALLOC) then
     '(best, l) ← better 4 (raw_match4 r src dst proto) i best l;
     '(best, l) ← better 3 (raw_match3 r src dst proto) i best l;
     '(best, l) ← better 2 (raw_match2 r proto) i best l;
     better 1 (raw_match1 r) i best l
   else Some (best, l))
  = Some (if l <? level r then (Some i, level r) else (best, l)).
Proof.
  intros [Hl Hr] Hn. destruct (netaddrequal_total _ _ Hsrc Hr) as [a Ea]. destruct (netaddrequal_total _ _ Hdst Hl) as [b Eb].
  unfold level, raw_level. destruct (r_state r).
  { rewrite decide_False, decide_True by done. by rewrite (proj2 (Z.ltb_ge l 0)). }
  rewrite decide_True, decide_False by done. unfold raw_match4, raw_match3, raw_match2, raw_match1, better. rewrite Ea, Eb.
  destruct (proto =? r_proto r), (r_proto r =? NULL), (na_type (r_remoteip r) =? NULL), (na_type (r_localip r) =? NULL),
    a, b; cbn [andb orb mbind option_bind bool_decide]; repeat (case_match; simplify_eq/=; try done); lia.
Qed.

Lemma raw_step n i best l r : tab !! i = Some r -> raw_full r -> 0 <= l ->
  rawDemux_loop (S n) i tab src dst proto best l =
  if l <? level r then rawDemux_loop n (i + 1) tab src dst proto (Some i) (level r)
  else rawDemux_loop n (i + 1) tab src dst proto best l.
Proof.
  intros Hu Hf Hl. cbn [rawDemux_loop]. rewrite Hu. cbn [mbind option_bind].
  rewrite raw_entry by done. cbn [mbind option_bind]. by destruct (l <? level r).
Qed.

(** rawDemux finds the first of the sockets that match best, and NULL exactly when none matches. *)
Theorem rawDemux_best_match nraw : 0 <= nraw -> entries_ok tab raw_full 0 nraw ->
  exists r, rawDemux nraw tab src dst proto = Some r /\
    match r with
    | Some j => first_best tab level 0 nraw j /\ exists u, tab !! j = Some u /\ 0 < level u
    | None => forall k v, 0 <= k < nraw -> tab !! k = Some v -> level v = 0
    end.
Proof.
  intros Hn He.
  destruct (best_match tab level raw_full (fun n i => rawDemux_loop n i tab src dst proto)) with (n := nraw)
    as (r & Er & Hr); [done|exact raw_step|done|done|].
  exists r. split; [exact Er|]. destruct r; [done|]. intros k v Hk Hv. pose proof (Hr k v Hk Hv).
  unfold level, raw_level in *. repeat case_match; lia.
Qed.

End rawdemux.

(** ** A packet of 100 octets and its receiver *)

Definition ha : netaddr := ip4 10 0 0 1.
Definition hb : netaddr := ip4 10 0 0 2.

Definition sent_octets : list Z :=
  match run (ipv4_header 0x1000 ha hb 1) header_net with
  | Returned n' _ => ldbs (mem (nkern n')) (ld (mem (nkern n')) (pkt_curr 0x1000)) 20
  | _ => []
  end.

Definition host_nif : netif :=
  mknetif 0 NET_ALLOC 1500 14 hb (ip4 255 255 255 0) netaddr0 (ip4 10 0 0 255) netaddr0 netaddr0 (replicate NET_NTHR BADTID) 0 0 NULL.

(** A stack with one interface, at address [0x50000], and memory [M] *)
Definition host (M : memory) : stack :=
  mkstack (mktcpst (set_netiftab {[0x50000 := host_nif]} (with_mem sample_net M)) ∅ [] 0 0 0 0) ∅ 0 ∅ 0 [].

Definition frame_mem : memory :=
  stbs (st (st (st (mem (nkern sample_net)) (pkt_nif 0x2000) 0x50000) (pkt_len 0x2000) 150) (pkt_curr 0x2000) 0x2400)
    0x2400 sent_octets.

Lemma frame_words : ld frame_mem (pkt_nif 0x2000) = 0x50000 /\ ld frame_mem (pkt_len 0x2000) = 150 /\
  ld frame_mem (pkt_curr 0x2000) = 0x2400 /\ ldbs frame_mem 0x2400 20 = sent_octets.
Proof. vm_compute. split_and!; reflexivity. Qed.

Lemma header_net_words : ld (mem (nkern header_net)) (pkt_curr 0x1000) = 0x1400 /\ ld (mem (nkern header_net)) (pkt_len 0x1000) = 100.
Proof. vm_compute. split; reflexivity. Qed.

Lemma header_net_room : header_room header_net 0x1000.
Proof.
  destruct header_net_words as [E1 E2]. unfold header_room. rewrite E1, E2. unfold IPv4_HDR_LEN, sizeof_packet.
  split; [reflexivity|lia].
Qed.

Lemma host_arrived : arrived [0x50000] header_net 0x1000 (host frame_mem) 0x2000 host_nif [host_nif].
Proof.
  destruct frame_words as (W1 & W2 & W3 & _). destruct header_net_words as [_ E2].
  assert (W1' : ld (mem (nkern (snet (host frame_mem)))) (pkt_nif 0x2000) = 0x50000) by exact W1.
  assert (W2' : ld (mem (nkern (snet (host frame_mem)))) (pkt_len 0x2000) = 150) by exact W2.
  assert (W3' : ld (mem (nkern (snet (host frame_mem)))) (pkt_curr 0x2000) = 0x2400) by exact W3.
  split; rewrite ?W1', ?W2', ?W3', ?E2.
  - split; [intros H; discriminate H|reflexivity].
  - unfold IPv4_HDR_LEN. lia.
  - right. unfold sizeof_packet. lia.
  - apply lookup_singleton_eq.
  - change (netiftab (snet (host frame_mem))) with ({[0x50000 := host_nif]} : gmap Z netif).
    cbn [mapM]. rewrite lookup_singleton_eq. reflexivity.
  - change (nf_linkhdrlen host_nif) with 14. unfold IPv4_HDR_LEN. lia.
Qed.

Lemma ipv4_delivers_witness :
  let s := host frame_mem in
  exists n', run (ipv4_header 0x1000 ha hb 1) header_net = Returned n' tt /\
    run (ipv4Recv 4 4 4 (fun _ _ _ => mret OK) (fun _ _ => mret OK) (mret 0) netaddr0 (replicate 6 0) [0x50000] 0x2000) s
    = run ((icmpRecv (mret 0) 0x2000;; mret tt);; mret OK)
        (stack_mem s (stripped header_net 0x1000 s 0x2000 host_nif)) /\
    ld (stripped header_net 0x1000 s 0x2000 host_nif) (pkt_len 0x2000) = 14 + 120.
Proof.
  intros s. destruct (ipv4_delivers 4 4 4 (fun _ _ _ => mret OK) (fun _ _ => mret OK) (mret 0) netaddr0 (replicate 6 0) [0x50000]
    header_net 0x1000 ha hb ha 1 header_net_room eq_refl ltac:(simpl; lia) ltac:(simpl; lia) s 0x2000 host_nif [host_nif])
    as (n' & Hr & H).
  destruct header_net_words as [_ E2]. destruct frame_words as (_ & _ & W3 & W4). exists n'. split; [exact Hr|].
  destruct H as (Hrun & _ & _ & _ & Hl & _).
  - exact host_arrived.
  - repeat constructor.
  - change (mem (nkern (snet s))) with frame_mem. rewrite W3, W4. unfold sent_octets. rewrite Hr. reflexivity.
  - rewrite E2. unfold IPv4_HDR_LEN. intros [Hz _]. vm_compute in Hz. discriminate Hz.
  - split; [|rewrite Hl, E2; reflexivity]. destruct Hrun as [Hicmp _]; [|exact (Hicmp eq_refl)].
    apply Exists_cons_hd. split; [reflexivity|left; by split].
Defined.

(** ** Behaviour at the edges *)

(** [netDown] of the only interface clears entry 5 of the table, which is outside it. *)
Example netDown_outside_table : run (netDown 8 [0x50000] 0) (snet (host frame_mem)) = Faulted.
Proof. vm_compute. reflexivity. Qed.

(** [netUp] of a device that is in use returns with interrupts disabled. *)
Example netUp_leaves_disabled :
  match run (netUp 8 (fun _ _ => mret 14) (fun _ _ a => mret (OK, a)) (fun _ => []) 0 0 [] [0x50000] 0
               (Some ha) (Some (ip4 255 0 0 0)) None) (snet (host frame_mem)) with
  | Returned n r =>
      r = SYSERR /\ irqmask_interrupts_enabled (vic_get_irqmask (irq (nkern (snet (host frame_mem))))) = true /\
      irqmask_interrupts_enabled (vic_get_irqmask (irq (nkern n))) = false
  | _ => False
  end.
Proof. vm_compute. split_and!; reflexivity. Qed.

(** An interface that is brought up has the broadcast address of its subnet. *)
Example netUp_broadcast :
  brc_octets 4 [10; 1; 2; 3] [255; 255; 0; 0] [0; 0; 0; 0; 0; 0] = Some [10; 1; 255; 255; 0; 0].
Proof. reflexivity. Qed.
