(* ===== verification/Ext2.v ===== *)
(** * The file system in memory (apps/ext2.c, ext2_read.c, ext2_write.c, include/ext2.h,
      ext2_common.h)

    Memory is a map from addresses to bytes; an access to an address that is not mapped faults.  A pointer
    to a block, an inode or a directory entry is its address.  The fields of [struct ext2_filesystem], which are
    set once, are a record.  Messages on the standard output are not modelled, what [ls1] and [cat1]
    print is their result.  The addresses of string literals and of local arrays are
    parameters. *)

From S2P Require Import Prelude Prog CString.

Local Open Scope Z_scope.

(** ** Constants and structures *)

Definition EXT2_SUPERBLOCK_LOCATION : Z := 0x400.
Definition EXT2_SUPERBLOCK_SIZE : Z := 1024.
Definition EXT2_NAME_LEN : Z := 245.
Definition EXT2_NDIR_BLOCKS : Z := 12.
Definition EXT2_NIND_BLOCKS : Z := 1.
Definition EXT2_N_BLOCKS : Z := EXT2_NIND_BLOCKS + EXT2_NDIR_BLOCKS.
Definition EXT2_INODE_ROOT : Z := 1.
Definition DIR_SEP : Z := 47.
Definition EXT2_S_IFREG : Z := 0x8000.
Definition EXT2_S_IFDIR : Z := 0x4000.
Definition EXT2_FT_REG_FILE : Z := 1.
Definition EXT2_FT_DIR : Z := 2.

Record ext2_filesystem : Type := mkfs {
  fs_sb : Z;
  base_addr : Z;
}.

(** Offsets of [struct ext2_super_block], [ext2_group_desc], [ext2_inode] and [ext2_dir_entry_2] *)
Definition s_inodes_count (sb : Z) : Z := sb.
Definition s_blocks_count (sb : Z) : Z := sb + 4.
Definition s_free_blocks_count (sb : Z) : Z := sb + 12.
Definition s_free_inodes_count (sb : Z) : Z := sb + 16.
Definition s_log_block_size (sb : Z) : Z := sb + 24.
Definition s_blocks_per_group (sb : Z) : Z := sb + 32.
Definition s_inodes_per_group (sb : Z) : Z := sb + 40.
Definition s_inode_size (sb : Z) : Z := sb + 88.
Definition bg_block_bitmap (g : Z) : Z := g.
Definition bg_inode_bitmap (g : Z) : Z := g + 4.
Definition bg_free_blocks_count (g : Z) : Z := g + 12.
Definition bg_free_inodes_count (g : Z) : Z := g + 14.
Definition sizeof_group_desc : Z := 32.
Definition i_mode (p : Z) : Z := p.
Definition i_size (p : Z) : Z := p + 4.
Definition i_blocks (p : Z) : Z := p + 28.
Definition i_block (p k : Z) : Z := p + 40 + 4 * k.
Definition sizeof_inode : Z := 120.
Definition d_inode (d : Z) : Z := d.
Definition next_dirent (d : Z) : Z := d + 4.
Definition name_len (d : Z) : Z := d + 8.
Definition filetype (d : Z) : Z := d + 9.
Definition d_name (d : Z) : Z := d + 10.
Definition sizeof_dirent : Z := 256.

(** Little-endian integers of 16 and 32 bits *)
Definition ld16 (m : cmem) (a : Z) : option Z := x ← cld m a; y ← cld m (a + 1); Some (x + 256 * y).
Definition ld32 (m : cmem) (a : Z) : option Z := x ← ld16 m a; y ← ld16 m (a + 2); Some (x + 65536 * y).
Definition st16 (m : cmem) (a v : Z) : option cmem := m ← cst m a v; cst m (a + 1) (v / 256).
Definition st32 (m : cmem) (a v : Z) : option cmem := m ← st16 m a v; st16 m (a + 2) (v / 65536).

(** Programs *)
Definition mget {A} (f : cmem -> option A) : prog cmem A := readopt f.
Definition mput (f : cmem -> option cmem) : prog cmem unit := lift (fun m => m' ← f m; Some (m', tt)).
Definition mld32 (a : Z) : prog cmem Z := mget (fun m => ld32 m a).
Definition mst32 (a v : Z) : prog cmem unit := mput (fun m => st32 m a v).
Definition copy (dst src n : Z) : prog cmem unit := mput (fun m => '(m, _) ← memcpy m dst src n; Some m).

(** ** ext2_common.h *)

Definition get_block_size (m : cmem) (sb : Z) : option Z := l ← ld32 m (s_log_block_size sb); Some (Z.shiftl 1024 l).

Definition block_num_to_addr (fs : ext2_filesystem) (m : cmem) (n : Z) : option Z :=
  bs ← get_block_size m (fs_sb fs); Some (u32 (base_addr fs + EXT2_SUPERBLOCK_LOCATION + n * bs)).

Definition indirect_data_block_size (fs : ext2_filesystem) (m : cmem) : option Z :=
  bs ← get_block_size m (fs_sb fs); Some (bs / 4).

(** [NULL] for an index that would need a double indirect block *)
Definition get_inode_block (fs : ext2_filesystem) (m : cmem) (fp logical_index : Z) : option Z :=
  k ← indirect_data_block_size fs m;
  if EXT2_NDIR_BLOCKS + EXT2_NIND_BLOCKS * k <=? logical_index then Some NULL
  else if EXT2_NDIR_BLOCKS <? logical_index then
    b ← ld32 m (i_block fp EXT2_NDIR_BLOCKS);
    a ← block_num_to_addr fs m b;
    Some (a + (logical_index - EXT2_NDIR_BLOCKS))
  else Some (i_block fp logical_index).

Definition blk_to_blk_grp (fs : ext2_filesystem) (m : cmem) (blk_num : Z) : option Z :=
  g ← ld32 m (s_blocks_per_group (fs_sb fs)); if g =? 0 then None else Some (blk_num / g).

Section ext2.
Variable fs : ext2_filesystem.
Let sb : Z := fs_sb fs.

(** ** Bitmaps (ext2_write.c) *)

(** The descriptor of group [g] *)
Definition group_desc (m : cmem) (g : Z) : option Z := t ← block_num_to_addr fs m 1; Some (t + g * sizeof_group_desc).

Definition get_blk_bitmap (m : cmem) (blk_num : Z) : option Z :=
  g ← blk_to_blk_grp fs m blk_num;
  d ← group_desc m g;
  b ← ld32 m (bg_block_bitmap d);
  block_num_to_addr fs m b.

Definition inode_grp (m : cmem) (inode_num : Z) : option Z :=
  g ← ld32 m (s_inodes_per_group sb); if g =? 0 then None else Some (inode_num / g).

Definition get_inode_bitmap (m : cmem) (inode_num : Z) : option Z :=
  g ← inode_grp m inode_num;
  d ← group_desc m g;
  b ← ld32 m (bg_inode_bitmap d);
  block_num_to_addr fs m b.

(** The word of a bitmap that has the bit of number [n], with [per] numbers in a group *)
Definition bitmap_word (bitmap per n : Z) : Z := bitmap + 4 * ((n mod per) / 32).

Definition blk_is_used (m : cmem) (blk_num : Z) : option bool :=
  bitmap ← get_blk_bitmap m blk_num;
  per ← ld32 m (s_blocks_per_group sb);
  w ← ld32 m (bitmap_word bitmap per blk_num);
  Some (negb (Z.land w (Z.shiftl 1 (blk_num mod 32)) =? 0)).

Definition inode_is_used (m : cmem) (inode_num : Z) : option bool :=
  bitmap ← get_inode_bitmap m inode_num;
  per ← ld32 m (s_inodes_per_group sb);
  w ← ld32 m (bitmap_word bitmap per inode_num);
  Some (negb (Z.land w (Z.shiftl 1 (inode_num mod 32)) =? 0)).

(** [*p += d] for an unsigned 32-bit or 16-bit integer *)
Definition add32 (a d : Z) (m : cmem) : option cmem := x ← ld32 m a; st32 m a (u32 (x + d)).
Definition add16 (a d : Z) (m : cmem) : option cmem := x ← ld16 m a; st16 m a ((x + d) mod 65536).

Definition mark_blk_used (blk_num : Z) (m : cmem) : option cmem :=
  bitmap ← get_blk_bitmap m blk_num;
  per ← ld32 m (s_blocks_per_group sb);
  w ← ld32 m (bitmap_word bitmap per blk_num);
  m ← st32 m (bitmap_word bitmap per blk_num) (Z.lor w (Z.shiftl 1 (blk_num mod 32)));
  m ← add32 (s_free_blocks_count sb) (-1) m;
  g ← blk_to_blk_grp fs m blk_num;
  d ← group_desc m g;
  add16 (bg_free_blocks_count d) (-1) m.

Definition mark_blk_unused (blk_num : Z) (m : cmem) : option cmem :=
  bitmap ← get_blk_bitmap m blk_num;
  per ← ld32 m (s_blocks_per_group sb);
  w ← ld32 m (bitmap_word bitmap per blk_num);
  m ← st32 m (bitmap_word bitmap per blk_num) (u32 (Z.land w (Z.lnot (Z.shiftl 1 (blk_num mod 32)))));
  m ← add32 (s_free_blocks_count sb) 1 m;
  g ← blk_to_blk_grp fs m blk_num;
  d ← group_desc m g;
  add16 (bg_free_blocks_count d) (-1) m.

Definition mark_inode_used (inode_num : Z) (m : cmem) : option cmem :=
  bitmap ← get_inode_bitmap m inode_num;
  per ← ld32 m (s_inodes_per_group sb);
  w ← ld32 m (bitmap_word bitmap per inode_num);
  m ← st32 m (bitmap_word bitmap per inode_num) (Z.lor w (Z.shiftl 1 (inode_num mod 32)));
  m ← add32 (s_free_inodes_count sb) (-1) m;
  g ← inode_grp m inode_num;
  d ← group_desc m g;
  add16 (bg_free_inodes_count d) (-1) m.

Definition mark_inode_unused (inode_num : Z) (m : cmem) : option cmem :=
  bitmap ← get_inode_bitmap m inode_num;
  per ← ld32 m (s_inodes_per_group sb);
  w ← ld32 m (bitmap_word bitmap per inode_num);
  m ← st32 m (bitmap_word bitmap per inode_num) (u32 (Z.land w (Z.lnot (Z.shiftl 1 (inode_num mod 32)))));
  m ← add32 (s_free_inodes_count sb) 1 m;
  g ← inode_grp m inode_num;
  d ← group_desc m g;
  add16 (bg_free_inodes_count d) (-1) m.

(** The numbers [i], [i + 1], ..., [n] of them *)
Fixpoint blk_alloc_loop (n : nat) (i : Z) : prog cmem Z :=
  match n with
  | O => mret 0
  | S n =>
      used ← mget (fun m => blk_is_used m i);
      if (used : bool) then blk_alloc_loop n (i + 1) else mput (mark_blk_used i);; mret i
  end.
Definition blk_alloc : prog cmem Z := n ← mld32 (s_blocks_count sb); blk_alloc_loop (Z.to_nat n) 0.

Fixpoint inode_alloc_loop (n : nat) (i : Z) : prog cmem Z :=
  match n with
  | O => mret 0
  | S n =>
      used ← mget (fun m => inode_is_used m i);
      if (used : bool) then inode_alloc_loop n (i + 1) else mput (mark_inode_used i);; mret (i + 1)
  end.
Definition ext2_inode_alloc : prog cmem Z := n ← mld32 (s_inodes_count sb); inode_alloc_loop (Z.to_nat n) 0.

(** ** Inodes *)

Definition ext2_get_inode (m : cmem) (inode_num : Z) : option Z :=
  count ← ld32 m (s_inodes_count sb);
  if count <? inode_num then Some NULL
  else
    g ← inode_grp m inode_num;
    bs ← get_block_size m sb;
    per ← ld32 m (s_blocks_per_group sb);
    size ← ld16 m (s_inode_size sb);
    Some (u32 (base_addr fs + EXT2_SUPERBLOCK_LOCATION + EXT2_SUPERBLOCK_SIZE + 3 * bs + g * per + (inode_num - 1) * size)).

Fixpoint dealloc_loop (n : nat) (inode i : Z) : prog cmem unit :=
  match n with
  | O => mret tt
  | S n =>
      b ← mld32 (i_block inode i);
      mput (mark_blk_unused b);;
      dealloc_loop n inode (i + 1)
  end.

Definition ext2_inode_dealloc (inode_num : Z) : prog cmem unit :=
  inode ← mget (fun m => ext2_get_inode m inode_num);
  if inode =? NULL then mret tt
  else
    n ← mld32 (i_blocks inode);
    dealloc_loop (Z.to_nat n) inode 0;;
    mput (mark_inode_unused inode_num).

(** The loop of [increase_inode_size]: [n] blocks from index [idx] on.  The number of blocks that
    were counted as allocated. *)
Fixpoint grow_loop (n : nat) (fp idx : Z) : prog cmem Z :=
  match n with
  | O => mret 0
  | S n =>
      b ← blk_alloc;
      if b =? 0 then mret 0
      else if idx <? EXT2_NDIR_BLOCKS then
        a ← mget (fun m => get_inode_block fs m fp idx);
        mst32 a b;;
        k ← grow_loop n fp (idx + 1);
        mret (k + 1)
      else if idx =? EXT2_NDIR_BLOCKS then
        a ← mget (fun m => get_inode_block fs m fp EXT2_NDIR_BLOCKS);
        c ← blk_alloc;
        mst32 a c;;
        c ← mld32 a;
        t ← mget (fun m => block_num_to_addr fs m c);
        mst32 (t + 4 * (idx - EXT2_NDIR_BLOCKS)) b;;
        k ← grow_loop n fp (idx + 1);
        mret (k + 1)
      else mret 1
  end.

(** The number of blocks to allocate, and the index of the first *)
Definition grow_need (blk_size init_size nbytes : Z) : Z * Z :=
  let r := init_size mod blk_size in
  let rest := if r =? 0 then nbytes else if nbytes <? blk_size - r then 0 else nbytes - (blk_size - r) in
  (rest / blk_size + (if rest mod blk_size =? 0 then 0 else 1), init_size / blk_size + (if r =? 0 then 0 else 1)).

Definition increase_inode_size (fp nbytes : Z) : prog cmem Z :=
  blk_size ← mget (fun m => get_block_size m sb);
  init_size ← mld32 (i_size fp);
  let '(num, idx) := grow_need blk_size init_size nbytes in
  k ← grow_loop (Z.to_nat num) fp idx;
  size ← mld32 (i_size fp);
  (if k =? num then mst32 (i_size fp) (u32 (size + nbytes))
   else mst32 (i_size fp) (u32 (size + (nbytes - (num - k) * blk_size))));;
  mret k.

(** ** Reading and writing files *)

(** [i_block[i]] for a direct block, or the number in the indirect block *)
Definition data_block (m : cmem) (fp i : Z) : option Z :=
  if i <? EXT2_NDIR_BLOCKS then ld32 m (i_block fp i)
  else
    b ← ld32 m (i_block fp EXT2_NDIR_BLOCKS);
    a ← block_num_to_addr fs m b;
    ld32 m (a + 4 * (i - EXT2_NDIR_BLOCKS)).

(** [n] rounds are left of the loop of [ext2_read_dirent] at block [i].  The number of octets that are
    still missing. *)
Fixpoint ext2_read_loop (n : nat) (fp blk_size i offset buffer remaining : Z) : prog cmem Z :=
  match n with
  | O => mret remaining
  | S n =>
      b ← mget (fun m => data_block m fp i);
      a ← mget (fun m => block_num_to_addr fs m b);
      let data := offset + a in
      if remaining <? blk_size then copy buffer data remaining;; mret 0
      else
        copy buffer data (blk_size - offset);;
        ext2_read_loop n fp blk_size (i + 1) 0 (buffer + (blk_size - offset)) (u32 (remaining - (blk_size - offset)))
  end.

Definition ext2_read_dirent (file buffer start nbytes : Z) : prog cmem Z :=
  iNum ← mld32 (d_inode file);
  fp ← mget (fun m => ext2_get_inode m iNum);
  blk_size ← mget (fun m => get_block_size m sb);
  size ← mld32 (i_size fp);
  let nbytes := if u32 (size + start) <? nbytes then if size <? start then 0 else size - start else nbytes in
  let first := start / blk_size in
  remaining ← ext2_read_loop (Z.to_nat (EXT2_N_BLOCKS - first)) fp blk_size first (start mod blk_size) buffer nbytes;
  mret (u32 (nbytes - remaining)).

(** The loop of [ext2_write_file_by_inode]; a round without [break] takes at least one octet. *)
Fixpoint ext2_write_loop (fuel : nat) (fp blk_size idx indir offset buffer remaining : Z) : prog cmem Z :=
  match fuel with
  | O => Fault
  | S fuel =>
      if idx <? EXT2_N_BLOCKS then
        blk_num ← mld32 (i_block fp idx);
        a ← mget (fun m => block_num_to_addr fs m blk_num);
        '(idx, indir, data) ←
          (if idx =? EXT2_NDIR_BLOCKS then
             k ← mget (fun m => indirect_data_block_size fs m);
             b ← mld32 (a + 4 * indir);
             d ← mget (fun m => block_num_to_addr fs m b);
             mret (if indir <? k then idx - 1 else idx, indir + 1, d + offset)
           else mret (idx, indir, offset + a));
        if remaining <? blk_size then copy data buffer remaining;; mret 0
        else
          copy data buffer (blk_size - offset);;
          ext2_write_loop fuel fp blk_size (idx + 1) indir 0 (buffer + (blk_size - offset)) (remaining - (blk_size - offset))
      else mret remaining
  end.

Definition ext2_write_file_by_inode (file buffer start nbytes : Z) : prog cmem Z :=
  inode_num ← mld32 (d_inode file);
  fp ← mget (fun m => ext2_get_inode m inode_num);
  blk_size ← mget (fun m => get_block_size m sb);
  size ← mld32 (i_size fp);
  let write :=
    let first := start / blk_size in
    let '(idx, indir) := if EXT2_NDIR_BLOCKS <=? first then (EXT2_NDIR_BLOCKS, first - EXT2_NDIR_BLOCKS) else (first, 0) in
    remaining ← ext2_write_loop (S (S (Z.to_nat nbytes))) fp blk_size idx indir (start mod blk_size) buffer nbytes;
    mret (u32 (nbytes - remaining)) in
  if size <? u32 (nbytes + start) then
    if size <? start then mret 0
    else increase_inode_size fp (u32 (nbytes + start - size));; write
  else write.

(** ** Directories *)

Definition ext2_get_first_dirent (m : cmem) (dir : Z) : option Z := b ← ld32 m (i_block dir 0); block_num_to_addr fs m b.
Definition ext2_get_next_dirent (m : cmem) (d : Z) : option Z := ld32 m (next_dirent d).

(** Whether the entry [d] has the name at [filename], of length [len] *)
Definition dirent_is (m : cmem) (filename len d : Z) : option bool :=
  l ← cld m (name_len d);
  if len =? l then c ← strncmp m filename (d_name d) l; Some (c =? 0) else Some false.

(** The entries from [d] on: the one that was found, or whether the search goes on in the next block.  A list that ends has
    no more entries than memory has bytes. *)
Fixpoint dirent_loop (fuel : nat) (m : cmem) (filename len first blk_size d : Z) : option (Z + bool) :=
  match fuel with
  | O => None
  | S fuel =>
      if d =? 0 then Some (inr false)
      else
        b ← dirent_is m filename len d;
        if (b : bool) then Some (inl d)
        else
          d ← ext2_get_next_dirent m d;
          if first + blk_size * sizeof_dirent <? d then Some (inr true)
          else dirent_loop fuel m filename len first blk_size d
  end.

(** The blocks [i], [i + 1], ..., [n] of them *)
Fixpoint dirent_blocks (n : nat) (m : cmem) (dir_ino filename len blk_size i : Z) : option Z :=
  match n with
  | O => Some 0
  | S n =>
      b ← data_block m dir_ino i;
      first ← block_num_to_addr fs m b;
      r ← dirent_loop (scan_fuel m) m filename len first blk_size first;
      match r with
      | inl d => Some d
      | inr true => dirent_blocks n m dir_ino filename len blk_size (i + 1)
      | inr false => Some 0
      end
  end.

Definition ext2_get_dirent_from_inode (m : cmem) (dir_ino filename : Z) : option Z :=
  len ← strnlen m filename EXT2_NAME_LEN;
  blk_size ← get_block_size m sb;
  dirent_blocks (Z.to_nat EXT2_N_BLOCKS) m dir_ino filename len blk_size 0.

(** The loop over the entries of a directory in [ext2_dirent_alloc]: the last entry, the start of the block
    it was found in and the block's index, or [None] when there are more than the blocks can hold. *)
Fixpoint last_dirent (fuel : nat) (m : cmem) (inode blk_size i first prev d : Z) : option (option (Z * Z * Z)) :=
  match fuel with
  | O => None
  | S fuel =>
      if d =? 0 then Some (Some (i, first, prev))
      else
        n ← ld32 m (i_blocks inode);
        if n <? i then Some None
        else
          '(i, first) ←
            (if (d <? first) || (blk_size <? u32 (Z.quot (i32 (d - first)) sizeof_dirent)) then
               b ← ld32 m (i_block inode (i + 1));
               a ← block_num_to_addr fs m b;
               Some (i + 1, a)
             else Some (i, first));
          d' ← ext2_get_next_dirent m d;
          last_dirent fuel m inode blk_size i first d d'
  end.

Definition ext2_dirent_alloc (inode : Z) : prog cmem Z :=
  blk_size ← mget (fun m => get_block_size m sb);
  prev_size ← mld32 (i_size inode);
  increase_inode_size inode sizeof_dirent;;
  size ← mld32 (i_size inode);
  if negb (size =? u32 (prev_size + sizeof_dirent)) then mret 0
  else
    first ← mget (fun m => ext2_get_first_dirent m inode);
    n ← mld32 (d_inode first);
    if n =? 0 then mret first
    else
      r ← mget (fun m => last_dirent (scan_fuel m) m inode blk_size 0 first first first);
      match r with
      | None => mret 0
      | Some (i, first, prev) =>
          d ← (if (prev <? first) || (blk_size <? u32 (Z.quot (i32 (prev - first)) sizeof_dirent + sizeof_dirent)) then
                 b ← mld32 (i_block inode (i + 1));
                 mget (fun m => block_num_to_addr fs m b)
               else mret (prev + sizeof_dirent));
          mst32 (next_dirent prev) d;;
          mret d
      end.

Fixpoint unlink_loop (fuel : nat) (dirent prev curr : Z) : prog cmem unit :=
  match fuel with
  | O => Fault
  | S fuel =>
      if curr =? 0 then mret tt
      else if curr =? dirent then
        n ← mld32 (next_dirent curr);
        mst32 (next_dirent prev) n
      else
        n ← mget (fun m => ext2_get_next_dirent m curr);
        unlink_loop fuel dirent curr n
  end.

Definition ext2_dirent_dealloc (dirent dir_inode_num : Z) : prog cmem unit :=
  inode ← mget (fun m => ext2_get_inode m dir_inode_num);
  first ← mget (fun m => ext2_get_first_dirent m inode);
  n ← gets scan_fuel;
  unlink_loop n dirent first first.

(** ** Paths

    [dot] is the address of the literal ".", [dotdot] that of "..", [curr_dir_name], [dirname] and
    [buff] those of local arrays. *)
Variables dot dotdot curr_dir_name dirname buff : Z.

(** [strchr(dirpath, DIR_SEP) - dirpath] *)
Definition component_len (m : cmem) (dirpath : Z) : option Z := p ← strchr m dirpath DIR_SEP; Some (u32 (p - dirpath)).

(** [None] when a component is not found *)
Fixpoint path_loop (fuel : nat) (dirpath inode dirent len : Z) : prog cmem (option Z) :=
  match fuel with
  | O => Fault
  | S fuel =>
      c ← mget (fun m => cld m dirpath);
      if c =? 0 then mret (Some dirent)
      else
        copy curr_dir_name dirpath len;;
        mput (fun m => cst m (curr_dir_name + len) 0);;
        let dirpath := dirpath + (len + 1) in
        d ← mget (fun m => ext2_get_dirent_from_inode m inode curr_dir_name);
        if d =? 0 then mret None
        else
          len ← mget (fun m => component_len m dirpath);
          n ← mld32 (d_inode d);
          inode ← mget (fun m => ext2_get_inode m n);
          path_loop fuel dirpath inode d len
  end.

Definition ext2_get_dirent_from_path (dirpath filename : Z) : prog cmem Z :=
  c ← mget (fun m => cld m dirpath);
  let dirpath := if c =? DIR_SEP then dirpath + 1 else dirpath in
  len ← mget (fun m => component_len m dirpath);
  root ← mget (fun m => ext2_get_inode m EXT2_INODE_ROOT);
  d ← mget (fun m => ext2_get_dirent_from_inode m root dot);
  n ← gets scan_fuel;
  r ← path_loop n dirpath root d len;
  match r with
  | None => mret 0
  | Some d =>
      k ← mld32 (d_inode d);
      inode ← mget (fun m => ext2_get_inode m k);
      mget (fun m => ext2_get_dirent_from_inode m inode filename)
  end.

Definition ext2_read_file_from_path (path filename buffer start nbytes : Z) : prog cmem Z :=
  file ← ext2_get_dirent_from_path path filename;
  if file =? 0 then mret 0 else ext2_read_dirent file buffer start nbytes.

(** [s[strrchr(s, DIR_SEP) + 1] = 0] *)
Definition cut_path (s : Z) (m : cmem) : option cmem := p ← strrchr m s DIR_SEP; cst m (p + 1) 0.

(** The number of octets written, or [None] for [EXT2_WRITE_FILE_NOT_FOUND] *)
Definition ext2_write_file_by_path (path buffer start nbytes : Z) : prog cmem (option Z) :=
  c ← mget (fun m => cld m path);
  let path := if c =? DIR_SEP then path + 1 else path in
  len ← mget (fun m => strnlen m path EXT2_NAME_LEN);
  p ← mget (fun m => strrchr m path DIR_SEP);
  copy dirname path (len + 1);;
  mput (cut_path dirname);;
  mput (cut_path dirname);;
  file ← ext2_get_dirent_from_path dirname (p + 1);
  if file =? 0 then mret None
  else n ← ext2_write_file_by_inode file buffer start nbytes; mret (Some n).

(** ** The commands (ext2.c)

    [false] stands for a message that the command failed. *)

Definition st8 (a v : Z) : prog cmem unit := mput (fun m => cst m a v).

(** A new entry for inode [n] with the name at [name], whose length is the expression [len], evaluated twice *)
Definition fill_dirent (d n name : Z) (len : cmem -> option Z) (type : Z) : prog cmem unit :=
  mst32 (d_inode d) n;;
  l ← mget len;
  copy (d_name d) name l;;
  mst32 (next_dirent d) 0;;
  l ← mget len;
  st8 (name_len d) l;;
  st8 (filetype d) type.

(** A directory: its entry "." and the address of its inode *)
Definition open_dir (path : Z) : prog cmem (option (Z * Z)) :=
  dir ← ext2_get_dirent_from_path path dot;
  if dir =? 0 then mret None
  else
    n ← mld32 (d_inode dir);
    inode ← mget (fun m => ext2_get_inode m n);
    if inode =? NULL then mret None else mret (Some (dir, inode)).

(** A new inode of mode [mode], without data *)
Definition new_inode (mode : Z) : prog cmem (option (Z * Z)) :=
  n ← ext2_inode_alloc;
  if n =? 0 then mret None
  else
    inode ← mget (fun m => ext2_get_inode m n);
    if inode =? NULL then mret None
    else
      mput (fun m => st16 m (i_mode inode) mode);;
      mst32 (i_size inode) 0;;
      mret (Some (n, inode)).

Definition touch1 (path name : Z) : prog cmem bool :=
  d ← open_dir path;
  match d with
  | None => mret false
  | Some (_, dirInode) =>
      r ← new_inode EXT2_S_IFREG;
      match r with
      | None => mret false
      | Some (n, _) =>
          d ← ext2_dirent_alloc dirInode;
          if d =? 0 then mret false
          else
            fill_dirent d n name (fun m => strnlen m name EXT2_NAME_LEN) EXT2_FT_REG_FILE;;
            mret true
      end
  end.

Definition mkdir1 (path name : Z) : prog cmem bool :=
  d ← open_dir path;
  match d with
  | None => mret false
  | Some (dir, dirInode) =>
      r ← new_inode EXT2_S_IFDIR;
      match r with
      | None => mret false
      | Some (n, inode) =>
          d ← ext2_dirent_alloc dirInode;
          if d =? 0 then mret false
          else
            fill_dirent d n name (fun m => strnlen m name EXT2_NAME_LEN) EXT2_FT_DIR;;
            d ← ext2_dirent_alloc inode;
            if d =? 0 then mret false
            else
              fill_dirent d n dot (fun _ => Some 1) EXT2_FT_DIR;;
              d ← ext2_dirent_alloc inode;
              if d =? 0 then mret false
              else
                parent ← mld32 (d_inode dir);
                fill_dirent d parent dotdot (fun _ => Some 2) EXT2_FT_DIR;;
                mret true
      end
  end.

Definition rm1 (path name : Z) : prog cmem bool :=
  file ← ext2_get_dirent_from_path path name;
  if file =? 0 then mret false
  else
    t ← mget (fun m => cld m (filetype file));
    if t =? EXT2_FT_DIR then mret false
    else
      dir ← ext2_get_dirent_from_path path dot;
      n ← mld32 (d_inode dir);
      ext2_dirent_dealloc file n;;
      n ← mld32 (d_inode file);
      ext2_inode_dealloc n;;
      mret true.

Fixpoint rmdir_loop (fuel : nat) (d : Z) : prog cmem unit :=
  match fuel with
  | O => Fault
  | S fuel =>
      if d =? 0 then mret tt
      else
        n ← mld32 (d_inode d);
        ext2_inode_dealloc n;;
        d ← mget (fun m => ext2_get_next_dirent m d);
        rmdir_loop fuel d
  end.

Definition rmdir1 (path dirName : Z) : prog cmem unit :=
  parent ← ext2_get_dirent_from_path path dot;
  dirent ← ext2_get_dirent_from_path path dirName;
  n ← mld32 (d_inode parent);
  ext2_dirent_dealloc dirent n;;
  n ← mld32 (d_inode dirent);
  inode ← mget (fun m => ext2_get_inode m n);
  first ← mget (fun m => ext2_get_first_dirent m inode);
  fuel ← gets scan_fuel;
  rmdir_loop fuel first;;
  n ← mld32 (d_inode first);
  ext2_inode_dealloc n.

(** The octets up to the next 0, which [printf] prints *)
Fixpoint text_at (fuel : nat) (m : cmem) (p : Z) : option (list Z) :=
  match fuel with
  | O => None
  | S fuel => c ← cld m p; if c =? 0 then Some [] else l ← text_at fuel m (p + 1); Some (c :: l)
  end.

(** The names that are printed.  The difference of pointers counts entries, not octets. *)
Fixpoint ls_loop (fuel : nat) (m : cmem) (size first d : Z) : option (list (list Z)) :=
  match fuel with
  | O => None
  | S fuel =>
      n ← ld32 m (d_inode d);
      if negb (n =? 0) && (u32 (Z.quot (i32 (d - first)) sizeof_dirent) <? size) then
        name ← text_at (scan_fuel m) m (d_name d);
        d ← ext2_get_next_dirent m d;
        l ← ls_loop fuel m size first d;
        Some (name :: l)
      else Some []
  end.

Definition ls1 (path : Z) : prog cmem (option (list (list Z))) :=
  d ← open_dir path;
  match d with
  | None => mret None
  | Some (_, dirInode) =>
      first ← mget (fun m => ext2_get_first_dirent m dirInode);
      size ← mld32 (i_size dirInode);
      l ← mget (fun m => ls_loop (scan_fuel m) m size first first);
      mret (Some l)
  end.

Definition cat1 (path name : Z) : prog cmem (option (list Z)) :=
  file ← ext2_get_dirent_from_path path name;
  if file =? 0 then mret None
  else
    n ← mld32 (d_inode file);
    inode ← mget (fun m => ext2_get_inode m n);
    if inode =? NULL then mret None
    else
      size ← mld32 (i_size inode);
      k ← ext2_read_dirent file buff 0 size;
      st8 (buff + k) 0;;
      l ← mget (fun m => text_at (scan_fuel m) m buff);
      mret (Some l).

Definition copy1 (pathS nameS pathD nameD : Z) : prog cmem bool :=
  direntS ← ext2_get_dirent_from_path pathS nameS;
  if direntS =? 0 then mret false
  else
    d ← open_dir pathD;
    match d with
    | None => mret false
    | Some (_, parentInode) =>
        n ← mld32 (d_inode direntS);
        inodeS ← mget (fun m => ext2_get_inode m n);
        if inodeS =? NULL then mret false
        else
          new ← ext2_inode_alloc;
          if new =? 0 then mret false
          else
            newInode ← mget (fun m => ext2_get_inode m new);
            if newInode =? NULL then mret false
            else
              mode ← mget (fun m => ld16 m (i_mode inodeS));
              mput (fun m => st16 m (i_mode newInode) mode);;
              mst32 (i_size newInode) 0;;
              d ← ext2_dirent_alloc parentInode;
              if d =? 0 then mret false
              else
                mst32 (d_inode d) new;;
                mst32 (next_dirent d) 0;;
                len ← mget (fun m => strnlen m nameD EXT2_NAME_LEN);
                st8 (name_len d) len;;
                t ← mget (fun m => cld m (filetype direntS));
                st8 (filetype d) t;;
                len ← mget (fun m => strnlen m nameD EXT2_NAME_LEN);
                copy (d_name d) nameD len;;
                size ← mld32 (i_size inodeS);
                k ← ext2_read_dirent direntS buff 0 size;
                ext2_write_file_by_inode d buff 0 k;;
                mret true
    end.

Definition mv1 (pathS nameS pathD nameD : Z) : prog cmem unit :=
  copy1 pathS nameS pathD nameD;;
  rm1 pathS nameS;;
  mret tt.

End ext2.

(** ** The file system that [ext2] sets up at [VIRT_MEM_LOCATION], with one directory *)

Definition VIRT_MEM_LOCATION : Z := 256.
Definition get_superblock (fs_start : Z) : Z := fs_start + EXT2_SUPERBLOCK_LOCATION.
Definition xinu_fs : ext2_filesystem := mkfs (get_superblock VIRT_MEM_LOCATION) VIRT_MEM_LOCATION.

(** [*p = v] for a list of pairs, in order *)
Fixpoint st32s (l : list (Z * Z)) (m : cmem) : option cmem :=
  match l with [] => Some m | (a, v) :: l => m ← st32 m a v; st32s l m end.
Fixpoint st16s (l : list (Z * Z)) (m : cmem) : option cmem :=
  match l with [] => Some m | (a, v) :: l => m ← st16 m a v; st16s l m end.

Definition format_superblock (sb : Z) (m : cmem) : option cmem :=
  m ← st32s [(s_inodes_count sb, 50); (s_blocks_count sb, 8192); (sb + 8, 6); (s_free_blocks_count sb, 8186);
             (s_free_inodes_count sb, 49); (sb + 20, 1); (s_log_block_size sb, 0); (sb + 28, 0);
             (s_blocks_per_group sb, 8192); (sb + 36, 8192); (s_inodes_per_group sb, 50)] m;
  m ← st16s [(sb + 56, 0xEF53); (sb + 58, 1); (sb + 60, 1)] m;
  m ← st32s [(sb + 72, 12); (sb + 84, 2)] m;
  st16s [(s_inode_size sb, sizeof_inode); (sb + 90, 0)] m.

(** The group descriptor, the bitmaps, the inode of the directory and its entry ".".  The blocks are those of
    [sb + 1], [sb + 2] and so on. *)
Definition format_groups (sb : Z) (m : cmem) : option cmem :=
  let gpd := sb + 1024 in
  m ← st32s [(bg_block_bitmap gpd, 2); (bg_inode_bitmap gpd, 3); (gpd + 8, 4)] m;
  m ← st16s [(bg_free_blocks_count gpd, 44); (bg_free_inodes_count gpd, 19); (gpd + 16, 1)] m;
  let blBitmap := sb + 2 * 1024 in
  m ← cst m blBitmap 0x3F;
  m ← memset_loop (Z.to_nat (8192 - 6)) m (blBitmap + 6) 0;
  let iBitmap := sb + 3 * 1024 in
  m ← cst m iBitmap 1;
  memset_loop (Z.to_nat (50 - 1)) m (iBitmap + 1) 0.

Definition format_root (sb : Z) (m : cmem) : option cmem :=
  let iTbl := sb + 4 * 1024 in
  m ← st16 m (i_mode iTbl) EXT2_S_IFDIR;
  m ← st32 m (i_size iTbl) sizeof_dirent;
  m ← st16 m (iTbl + 26) 0;
  m ← st32s [(i_blocks iTbl, 1); (iTbl + 32, 0x40); (i_block iTbl 0, 5)] m;
  let blk5 := sb + 5 * 1024 in
  m ← st32s [(d_inode blk5, 1); (next_dirent blk5, 0)] m;
  m ← cst m (name_len blk5) 1;
  m ← cst m (filetype blk5) 2;
  m ← cst m (d_name blk5) 46;
  memset_loop 254 m (d_name blk5 + 1) 0.

(** The volume's name is written in 16 octets. *)
Definition ext2_format (m : cmem) : option cmem :=
  let sb := fs_sb xinu_fs in
  m ← format_superblock sb m;
  m ← (fix put (l : list Z) (a : Z) m := match l with [] => Some m | c :: l => m ← cst m a c; put l (a + 1) m end)
        [70; 65; 75; 69; 32; 82; 65; 77; 32; 70; 83; 32; 58; 68; 0; 0] (sb + 116) m;
  m ← format_groups sb m;
  format_root sb m.
