(* ===== verification/Ext2Props.v ===== *)
(** * Properties of the file system in memory *)

From S2P Require Import Prelude Prog CString CStringSpec Ext2.

Local Open Scope Z_scope.
Local Arguments Z.eqb : simpl never.
Local Arguments Z.ltb : simpl never.
Local Arguments Z.leb : simpl never.
Local Arguments Z.mul : simpl never.
Local Arguments Z.add : simpl never.
Local Arguments Z.sub : simpl never.

(** ** What changes in memory

    Only addresses in [A] change, and what is mapped stays mapped. *)

Definition changes (m m' : cmem) (A : Z -> Prop) : Prop :=
  (forall a, ~ A a -> m' !! a = m !! a) /\ (forall a, is_Some (m !! a) -> is_Some (m' !! a)).

Lemma changes_refl m A : changes m m A.
Proof. done. Qed.

Lemma changes_trans m1 m2 m3 A : changes m1 m2 A -> changes m2 m3 A -> changes m1 m3 A.
Proof. intros [H1 H2] [H3 H4]. split; [|auto]. intros a Ha. by rewrite H3, H1. Qed.

Lemma changes_mono m m' (A B : Z -> Prop) : (forall a, A a -> B a) -> changes m m' A -> changes m m' B.
Proof. intros H [H1 H2]. split; [|done]. intros a Ha. apply H1. auto. Qed.

Lemma written_changes m m' p l : written m m' p l -> changes m m' (fun a => p <= a < p + Z.of_nat (length l)).
Proof.
  intros [Hb Hs]. split; [intros a Ha; apply Hs; lia|]. intros a Ha.
  destruct (decide (p <= a < p + Z.of_nat (length l))) as [Hr|Hr]; [by apply (bytes_at_mapped _ _ _ Hb)|].
  rewrite Hs by lia. done.
Qed.

Lemma mapped_changes m m' A p n : changes m m' A -> mapped m p n -> mapped m' p n.
Proof. intros [_ H] Hm a Ha. apply H, Hm, Ha. Qed.

Lemma bytes_changes m m' A p l : changes m m' A -> (forall a, p <= a < p + Z.of_nat (length l) -> ~ A a) ->
  bytes_at m p l -> bytes_at m' p l.
Proof. intros [H _] Ha Hb. eapply bytes_at_same; [done|]. intros a Hr. by apply H, Ha. Qed.

Lemma ld16_changes m m' A a : changes m m' A -> ~ A a -> ~ A (a + 1) -> ld16 m' a = ld16 m a.
Proof. intros [H _] H0 H1. unfold ld16, cld. by rewrite !H. Qed.

Lemma ld32_changes m m' A a : changes m m' A -> (forall b, a <= b < a + 4 -> ~ A b) -> ld32 m' a = ld32 m a.
Proof.
  intros H Ha. unfold ld32. rewrite !(ld16_changes m m' A) by (done || (apply Ha; lia) || (replace (a + 2 + 1) with (a + 3) by lia; apply Ha; lia)).
  done.
Qed.

(** ** Running the programs *)

Lemma run_mget_bind {A B} (f : cmem -> option A) (g : A -> prog cmem B) m x : f m = Some x ->
  run (mget f ≫= g) m = run (g x) m.
Proof. apply run_readopt_bind. Qed.

Lemma run_mput_bind {B} (f : cmem -> option cmem) (g : unit -> prog cmem B) m m' : f m = Some m' ->
  run (mput f ≫= g) m = run (g tt) m'.
Proof. intros E. unfold mput. erewrite run_lift_bind; [done|]. by rewrite E. Qed.

Definition octet (c : Z) : Prop := 0 <= c < 256.

(** A copy of [l] to a place that is apart from it *)
Lemma run_copy_bind {B} (g : unit -> prog cmem B) m dst src l : bytes_at m src l -> Forall octet l ->
  mapped m dst (length l) -> apart dst (Z.of_nat (length l)) src (Z.of_nat (length l)) ->
  exists m', (forall n, n = Z.of_nat (length l) -> run (copy dst src n ≫= g) m = run (g tt) m') /\ written m m' dst l.
Proof.
  intros Hb Hu Hm Ha. destruct (memcpy_loop_spec m dst src l) as (m' & E & Hw); [done|done|done|unfold apart in Ha; lia|].
  exists m'. split; [|done]. intros n ->. unfold copy. apply run_mput_bind. unfold memcpy. rewrite Nat2Z.id, E. done.
Qed.

(** ** Data in blocks *)

Section data.
Context (fs : ext2_filesystem).

(** The address of a block of 1024 octets *)
Definition blk_addr (b : Z) : Z := base_addr fs + EXT2_SUPERBLOCK_LOCATION + b * 1024.
Definition in_block (b a : Z) : Prop := blk_addr b <= a < blk_addr b + 1024.
Definition in_blocks (bl : list Z) (a : Z) : Prop := exists b, b ∈ bl /\ in_block b a.

(** The block is in the address space. *)
Definition blk_ok (b : Z) : Prop := 0 <= blk_addr b /\ blk_addr b + 1024 <= 2 ^ 32.

Lemma blocks_apart b b' a : in_block b a -> in_block b' a -> b = b'.
Proof. unfold in_block, blk_addr. lia. Qed.

(** The octets [l] fill the blocks [bl] from the first on. *)
Inductive stored (m : cmem) : list Z -> list Z -> Prop :=
| stored_nil : stored m [] []
| stored_last b bl l : (length l < 1024)%nat -> bytes_at m (blk_addr b) l -> stored m (b :: bl) l
| stored_full b bl l1 l : length l1 = 1024%nat -> bytes_at m (blk_addr b) l1 -> stored m bl l -> stored m (b :: bl) (l1 ++ l).

Lemma stored_changes m m' A bl l : changes m m' A -> (forall a, in_blocks bl a -> ~ A a) -> stored m bl l -> stored m' bl l.
Proof.
  intros Hc Ha Hs. induction Hs as [|b bl l Hl Hb|b bl l1 l Hl Hb Hs IH].
  - apply stored_nil.
  - apply stored_last; [done|]. eapply bytes_changes; [done| |done]. intros a Hr. apply Ha. exists b.
    split; [apply list_elem_of_here|]. unfold in_block. lia.
  - apply stored_full; [done| |].
    + eapply bytes_changes; [done| |done]. intros a Hr. apply Ha. exists b. split; [apply list_elem_of_here|]. unfold in_block. lia.
    + apply IH. intros a (b' & Hb' & Hin). apply Ha. exists b'. split; [by apply list_elem_of_further|done].
Qed.

(** ** The superblock and an inode

    [area p n] are the [n] octets at [p]. *)
Definition area (p n a : Z) : Prop := p <= a < p + n.

(** Blocks of 1024 octets; blocks [idx], [idx + 1], ... of the inode [fp] are [bl], which do not overlap the superblock and the inode. *)
Record inode_blocks (m : cmem) (fp idx : Z) (bl : list Z) : Prop := {
  ib_log : ld32 m (s_log_block_size (fs_sb fs)) = Some 0;
  ib_block : forall (j : nat) b, bl !! j = Some b -> ld32 m (i_block fp (idx + Z.of_nat j)) = Some b;
  ib_ok : Forall blk_ok bl;
  ib_nodup : NoDup bl;
  ib_mapped : forall b, b ∈ bl -> mapped m (blk_addr b) 1024;
  ib_index : 0 <= idx /\ idx + Z.of_nat (length bl) <= EXT2_NDIR_BLOCKS;
  ib_next : idx + Z.of_nat (length bl) < EXT2_NDIR_BLOCKS -> exists x, ld32 m (i_block fp (idx + Z.of_nat (length bl))) = Some x;
  ib_apart : forall a, in_blocks bl a -> ~ area (fs_sb fs) 1024 a /\ ~ area fp sizeof_inode a;
}.

Lemma block_addr m b : ld32 m (s_log_block_size (fs_sb fs)) = Some 0 -> blk_ok b ->
  block_num_to_addr fs m b = Some (blk_addr b).
Proof.
  intros Hl [H0 H1]. unfold block_num_to_addr, get_block_size. rewrite Hl. simpl. f_equal.
  change (Z.shiftl 1024 0) with 1024. fold (blk_addr b). apply u32_id. unfold is_u32. lia.
Qed.

Lemma in_blocks_cons b bl a : in_blocks bl a -> in_blocks (b :: bl) a.
Proof. intros (b' & H & Ha). exists b'. split; [by apply list_elem_of_further|done]. Qed.
Lemma in_blocks_here b bl a : in_block b a -> in_blocks (b :: bl) a.
Proof. intros H. exists b. split; [apply list_elem_of_here|done]. Qed.

(** Neither a change apart from the superblock and the inode matters, nor the first block. *)
Lemma inode_blocks_changes m m' A fp idx bl : changes m m' A ->
  (forall a, A a -> ~ area (fs_sb fs) 1024 a /\ ~ area fp sizeof_inode a) -> inode_blocks m fp idx bl -> inode_blocks m' fp idx bl.
Proof.
  intros Hc Ha []. split; try done.
  - rewrite <- ib_log0. eapply ld32_changes; [done|]. intros b Hb HA. destruct (Ha b HA) as [Hn _]. apply Hn.
    unfold area, s_log_block_size in *. lia.
  - intros j b Hj. rewrite <- (ib_block0 j b Hj). eapply ld32_changes; [done|]. intros x Hx HA. destruct (Ha x HA) as [_ Hn].
    apply Hn. pose proof (lookup_lt_Some _ _ _ Hj). unfold area, i_block, sizeof_inode, EXT2_NDIR_BLOCKS in *. lia.
  - intros b Hb. eapply mapped_changes; [done|auto].
  - intros Hlt. destruct (ib_next0 Hlt) as [x Hx]. exists x. rewrite <- Hx. eapply ld32_changes; [done|]. intros y Hy HA.
    destruct (Ha y HA) as [_ Hn]. apply Hn. unfold area, i_block, sizeof_inode, EXT2_NDIR_BLOCKS in *. lia.
Qed.

Lemma inode_blocks_tail m fp idx b bl : inode_blocks m fp idx (b :: bl) -> inode_blocks m fp (idx + 1) bl.
Proof.
  intros []. apply Forall_cons in ib_ok0 as [_ Hok]. apply NoDup_cons in ib_nodup0 as [_ Hnd]. simpl in ib_index0. split; try done.
  - intros j x Hj. rewrite <- (ib_block0 (S j) x Hj). f_equal. f_equal. lia.
  - intros x Hx. apply ib_mapped0. by apply list_elem_of_further.
  - lia.
  - simpl in ib_next0. replace (idx + 1 + Z.of_nat (length bl)) with (idx + Z.of_nat (S (length bl))) by lia. done.
  - intros a Ha. apply ib_apart0. by apply in_blocks_cons.
Qed.

(** Writing in a block that is apart from the superblock and the inode *)
Lemma block_changes m m' fp idx b bl l : inode_blocks m fp idx (b :: bl) -> (length l <= 1024)%nat -> written m m' (blk_addr b) l ->
  changes m m' (in_block b) /\ inode_blocks m' fp idx (b :: bl).
Proof.
  intros Hi Hl Hw. assert (Hc : changes m m' (in_block b)).
  { eapply changes_mono; [|by apply written_changes]. intros a Ha. unfold in_block. simpl in Ha. lia. }
  split; [done|]. eapply inode_blocks_changes; [done| |done]. intros a Ha. apply (ib_apart _ _ _ _ Hi). by apply in_blocks_here.
Qed.

(** ** Writing *)

(** The data, at [buf], is apart from the blocks. *)
Definition buffer_ok (m : cmem) (bl : list Z) (buf : Z) (l : list Z) : Prop :=
  bytes_at m buf l /\ Forall octet l /\ forall a, in_blocks bl a -> ~ area buf (Z.of_nat (length l)) a.

Lemma block_apart b bl buf n (l : list Z) : (forall a, in_blocks (b :: bl) a -> ~ area buf (Z.of_nat n) a) -> (length l <= 1024)%nat ->
  (length l <= n)%nat -> apart (blk_addr b) (Z.of_nat (length l)) buf (Z.of_nat (length l)).
Proof.
  intros H Hl Hn. unfold apart. destruct (decide (blk_addr b + Z.of_nat (length l) <= buf)); [by left|].
  destruct (decide (buf + Z.of_nat (length l) <= blk_addr b)); [by right|]. exfalso.
  apply (H (Z.max (blk_addr b) buf)); [apply in_blocks_here; unfold in_block; lia|unfold area; lia].
Qed.

Lemma write_step m fuel fp idx b bl buf rem : inode_blocks m fp idx (b :: bl) ->
  run (ext2_write_loop fs (S fuel) fp 1024 idx 0 0 buf rem) m
  = run (if rem <? 1024 then copy (0 + blk_addr b) buf rem;; mret 0
         else copy (0 + blk_addr b) buf (1024 - 0);;
              ext2_write_loop fs fuel fp 1024 (idx + 1) 0 0 (buf + (1024 - 0)) (rem - (1024 - 0))) m.
Proof.
  intros Hi. pose proof (eq_refl : EXT2_NDIR_BLOCKS = 12). pose proof (eq_refl : EXT2_N_BLOCKS = 13).
  pose proof (ib_index _ _ _ _ Hi) as Hx. simpl in Hx.
  cbn [ext2_write_loop]. rewrite (proj2 (Z.ltb_lt idx EXT2_N_BLOCKS)) by lia.
  unfold mld32. rewrite (run_mget_bind _ _ _ b).
  2: { pose proof (ib_block _ _ _ _ Hi 0%nat b eq_refl) as E. by rewrite Z.add_0_r in E. }
  rewrite (run_mget_bind _ _ _ (blk_addr b)).
  2: { apply block_addr; [apply (ib_log _ _ _ _ Hi)|]. pose proof (ib_ok _ _ _ _ Hi) as Hok. by apply Forall_cons in Hok as [? _]. }
  rewrite (proj2 (Z.eqb_neq idx EXT2_NDIR_BLOCKS)) by lia. done.
Qed.

(** The data fits: when all blocks are filled, the code looks at the number of the next block. *)
Definition fits (idx : Z) (bl l : list Z) : Prop :=
  (length l <= 1024 * length bl)%nat /\ (idx + Z.of_nat (length bl) = EXT2_NDIR_BLOCKS -> (length l < 1024 * length bl)%nat).

Lemma fits_tail idx b bl l1 l2 : length l1 = 1024%nat -> fits idx (b :: bl) (l1 ++ l2) -> fits (idx + 1) bl l2.
Proof. unfold fits. rewrite length_app. simpl. intros H1 [H2 H3]. split; [lia|]. intros H. specialize (H3 ltac:(lia)). lia. Qed.

Lemma run_copy_nothing {B} (g : unit -> prog cmem B) m dst src : run (copy dst src 0 ≫= g) m = run (g tt) m.
Proof. by apply run_mput_bind. Qed.

(** All blocks are filled. *)
Lemma write_done m fuel fp idx buf : inode_blocks m fp idx [] -> fits idx [] [] ->
  run (ext2_write_loop fs (S fuel) fp 1024 idx 0 0 buf 0) m = Returned m 0.
Proof.
  intros Hi [_ Hf]. pose proof (eq_refl : EXT2_NDIR_BLOCKS = 12). pose proof (eq_refl : EXT2_N_BLOCKS = 13).
  pose proof (ib_index _ _ _ _ Hi) as Hx. simpl in Hx, Hf. cbn [ext2_write_loop].
  assert (idx + 0 < EXT2_NDIR_BLOCKS) as Hlt by (destruct (decide (idx + 0 = EXT2_NDIR_BLOCKS)); [specialize (Hf ltac:(done))|]; lia).
  destruct (ib_next _ _ _ _ Hi Hlt) as [x Ex]. simpl in Ex. rewrite Z.add_0_r in Ex, Hlt.
  rewrite (proj2 (Z.ltb_lt idx EXT2_N_BLOCKS)) by lia. unfold mld32. rewrite (run_mget_bind _ _ _ x) by done.
  rewrite (run_mget_bind _ _ _ (u32 (base_addr fs + EXT2_SUPERBLOCK_LOCATION + x * 1024))).
  2: { unfold block_num_to_addr, get_block_size. by rewrite (ib_log _ _ _ _ Hi). }
  rewrite (proj2 (Z.eqb_neq idx EXT2_NDIR_BLOCKS)) by lia. change (0 <? 1024) with true. 
  cbn [mbind]. exact (run_copy_nothing (fun _ => mret 0) m _ _).
Qed.

Lemma run_write fp bl : forall m fuel idx buf l, inode_blocks m fp idx bl -> buffer_ok m bl buf l ->
  fits idx bl l -> (length l < fuel)%nat ->
  exists m', run (ext2_write_loop fs fuel fp 1024 idx 0 0 buf (Z.of_nat (length l))) m = Returned m' 0 /\
    stored m' bl l /\ changes m m' (in_blocks bl).
Proof.
  induction bl as [|b bl IH]; intros m fuel idx buf l Hi (Hb & Hu & Hap) Hlen Hf; (destruct fuel as [|fuel]; [lia|]).
  { pose proof Hlen as [Hle _]. simpl in Hle. destruct l as [|x l]; [|simpl in Hle; lia]. exists m. split; [by apply write_done|].
    split; [apply stored_nil|apply changes_refl]. }
  rewrite (write_step m fuel fp idx b bl buf _ Hi).
  destruct (Z.ltb_spec (Z.of_nat (length l)) 1024) as [Hs|Hs].
  - destruct (run_copy_bind (fun _ => mret 0) m (0 + blk_addr b) buf l) as (m' & Er & Hw); [done|done| | |].
    + intros a Ha. apply (ib_mapped _ _ _ _ Hi b (list_elem_of_here _ _)). lia.
    + rewrite Z.add_0_l. eapply block_apart; [done|lia|lia].
    + rewrite Er by done. rewrite Z.add_0_l in Hw. exists m'. split; [done|]. split; [apply stored_last; [lia|apply Hw]|].
      destruct (block_changes m m' fp idx b bl l Hi) as [Hc _]; [lia|done|]. eapply changes_mono; [|done]. intros a. apply in_blocks_here.
  - set (l1 := take 1024 l). set (l2 := drop 1024 l). assert (El : l = l1 ++ l2) by (symmetry; apply take_drop).
    assert (H1 : length l1 = 1024%nat) by (apply length_take_le; lia).
    assert (H2 : length l = (1024 + length l2)%nat) by (unfold l2; rewrite length_drop; lia).
    rewrite El in Hb, Hu. apply bytes_at_app in Hb as [Hb1 Hb2]. apply Forall_app in Hu as [Hu1 Hu2]. rewrite H1 in Hb2.
    destruct (run_copy_bind (fun _ => ext2_write_loop fs fuel fp 1024 (idx + 1) 0 0 (buf + (1024 - 0)) (Z.of_nat (length l) - (1024 - 0)))
      m (0 + blk_addr b) buf l1) as (m1 & Er & Hw); [done|done| | |].
    + rewrite H1. intros a Ha. apply (ib_mapped _ _ _ _ Hi b (list_elem_of_here _ _)). lia.
    + rewrite Z.add_0_l. eapply block_apart; [done|lia|lia].
    + rewrite Z.add_0_l in Hw. destruct (block_changes m m1 fp idx b bl l1 Hi) as [Hc Hi1]; [lia|done|].
      rewrite Er by lia.
      replace (buf + (1024 - 0)) with (buf + 1024) by lia. replace (Z.of_nat (length l) - (1024 - 0)) with (Z.of_nat (length l2)) by lia.
      destruct (IH m1 fuel (idx + 1) (buf + 1024) l2) as (m' & E' & Hst & Hc').
      * by eapply inode_blocks_tail.
      * split; [|split; [done|]].
        -- eapply bytes_changes; [done| |done]. intros a Ha Hin. apply (Hap a); [by apply in_blocks_here|]. unfold area. lia.
        -- intros a Ha Har. apply (Hap a); [by apply in_blocks_cons|]. unfold area in *. lia.
      * rewrite El in Hlen. by apply (fits_tail idx b bl l1).
      * lia.
      * exists m'. split; [done|]. rewrite El. split.
        -- apply stored_full; [done| |done]. eapply bytes_changes; [exact Hc'| |apply Hw]. intros a Ha (b' & Hb' & Hin).
           assert (b = b') as <- by (eapply blocks_apart; [|done]; unfold in_block; lia).
           pose proof (ib_nodup _ _ _ _ Hi) as Hnd. by apply NoDup_cons in Hnd as [? _].
        -- eapply changes_trans; [eapply changes_mono; [|exact Hc]; intros a; apply in_blocks_here|].
           eapply changes_mono; [|exact Hc']. intros a. apply in_blocks_cons.
Qed.

(** ** Reading *)

(** The place for the data is apart from the blocks, the superblock and the inode. *)
Definition place_ok (m : cmem) (fp : Z) (bl : list Z) (dst : Z) (n : nat) : Prop :=
  mapped m dst n /\
  forall a, area dst (Z.of_nat n) a -> ~ in_blocks bl a /\ ~ area (fs_sb fs) 1024 a /\ ~ area fp sizeof_inode a.

Lemma read_step m n fp idx b bl dst rem : inode_blocks m fp idx (b :: bl) ->
  run (ext2_read_loop fs (S n) fp 1024 idx 0 dst rem) m
  = run (if rem <? 1024 then copy dst (0 + blk_addr b) rem;; mret 0
         else copy dst (0 + blk_addr b) (1024 - 0);;
              ext2_read_loop fs n fp 1024 (idx + 1) 0 (dst + (1024 - 0)) (u32 (rem - (1024 - 0)))) m.
Proof.
  intros Hi. pose proof (eq_refl : EXT2_NDIR_BLOCKS = 12). pose proof (ib_index _ _ _ _ Hi) as Hx. simpl in Hx.
  cbn [ext2_read_loop]. rewrite (run_mget_bind _ _ _ b).
  2: { unfold data_block. rewrite (proj2 (Z.ltb_lt idx EXT2_NDIR_BLOCKS)) by lia.
       pose proof (ib_block _ _ _ _ Hi 0%nat b eq_refl) as E. by rewrite Z.add_0_r in E. }
  rewrite (run_mget_bind _ _ _ (blk_addr b)); [done|].
  apply block_addr; [apply (ib_log _ _ _ _ Hi)|]. pose proof (ib_ok _ _ _ _ Hi) as Hok. by apply Forall_cons in Hok as [? _].
Qed.

Lemma place_apart m fp b bl dst n (l : list Z) : place_ok m fp (b :: bl) dst n -> (length l <= 1024)%nat -> (length l <= n)%nat ->
  apart dst (Z.of_nat (length l)) (blk_addr b) (Z.of_nat (length l)).
Proof.
  intros [_ H] Hl Hn. unfold apart. destruct (decide (blk_addr b + Z.of_nat (length l) <= dst)); [by right|].
  destruct (decide (dst + Z.of_nat (length l) <= blk_addr b)); [by left|]. exfalso.
  destruct (H (Z.max (blk_addr b) dst)) as [Hi _]; [unfold area; lia|]. apply Hi, in_blocks_here. unfold in_block. lia.
Qed.

Lemma read_done m n fp idx dst : inode_blocks m fp idx [] -> fits idx [] [] ->
  run (ext2_read_loop fs (S n) fp 1024 idx 0 dst 0) m = Returned m 0.
Proof.
  intros Hi [_ Hf]. pose proof (ib_index _ _ _ _ Hi) as Hx. simpl in Hx, Hf. cbn [ext2_read_loop].
  assert (idx + 0 < EXT2_NDIR_BLOCKS) as Hlt by (destruct (decide (idx + 0 = EXT2_NDIR_BLOCKS)); [specialize (Hf ltac:(done))|]; lia).
  destruct (ib_next _ _ _ _ Hi Hlt) as [x Ex]. simpl in Ex. rewrite Z.add_0_r in Ex, Hlt.
  rewrite (run_mget_bind _ _ _ x) by (unfold data_block; by rewrite (proj2 (Z.ltb_lt _ _) Hlt)).
  rewrite (run_mget_bind _ _ _ (u32 (base_addr fs + EXT2_SUPERBLOCK_LOCATION + x * 1024))).
  2: { unfold block_num_to_addr, get_block_size. by rewrite (ib_log _ _ _ _ Hi). }
  change (0 <? 1024) with true. exact (run_copy_nothing (fun _ => mret 0) m _ _).
Qed.

Lemma run_read fp bl : forall l m n idx dst, inode_blocks m fp idx bl -> stored m bl l -> Forall octet l -> Z.of_nat (length l) < 2 ^ 32 ->
  place_ok m fp bl dst (length l) -> fits idx bl l -> (length bl < n)%nat ->
  exists m', run (ext2_read_loop fs n fp 1024 idx 0 dst (Z.of_nat (length l))) m = Returned m' 0 /\ written m m' dst l.
Proof.
  induction bl as [|b bl IH]; intros l m n idx dst Hi Hst Hu Hlt Hpl Hfit Hn; (destruct n as [|n]; [simpl in Hn; lia|]).
  { inversion Hst; subst. exists m. split; [by apply read_done|apply written_nil]. }
  simpl in Hn. rewrite (read_step m n fp idx b bl dst _ Hi).
  inversion Hst as [|? ? ? Hl Hb|? ? l1 l2 Hl Hb Hst2]; subst; clear Hst.
  - rewrite (proj2 (Z.ltb_lt _ _)) by lia.
    destruct (run_copy_bind (fun _ => mret 0) m dst (0 + blk_addr b) l) as (m' & Er & Hw); [by rewrite Z.add_0_l|done|apply Hpl| |].
    + rewrite Z.add_0_l. eapply place_apart; [done|lia|lia].
    + rewrite Er by done. by exists m'.
  - rewrite length_app in Hlt, Hpl |- *. rewrite (proj2 (Z.ltb_ge _ _)) by lia. apply Forall_app in Hu as [Hu1 Hu2].
    destruct (run_copy_bind (fun _ => ext2_read_loop fs n fp 1024 (idx + 1) 0 (dst + (1024 - 0))
      (u32 (Z.of_nat (length l1 + length l2) - (1024 - 0)))) m dst (0 + blk_addr b) l1) as (m1 & Er & Hw);
      [by rewrite Z.add_0_l|done| | |].
    + intros a Ha. apply Hpl. lia.
    + rewrite Z.add_0_l. eapply place_apart; [done|lia|lia].
    + rewrite Er by lia. rewrite u32_id by (unfold is_u32; lia). pose proof (written_changes _ _ _ _ Hw) as Hc.
      replace (dst + (1024 - 0)) with (dst + Z.of_nat (length l1)) by lia.
      replace (Z.of_nat (length l1 + length l2) - (1024 - 0)) with (Z.of_nat (length l2)) by lia.
      destruct (IH l2 m1 n (idx + 1) (dst + Z.of_nat (length l1))) as (m' & E' & Hw'); [| |done|lia| |by apply (fits_tail idx b bl l1)|lia|].
      * eapply inode_blocks_changes; [done| |by eapply inode_blocks_tail]. intros a Ha. cbv beta in Ha. destruct Hpl as [_ Hp].
        apply (Hp a). unfold area. lia.
      * eapply stored_changes; [done| |done]. intros a Ha Har. cbv beta in Har. destruct Hpl as [_ Hp].
        destruct (Hp a) as [Hno _]; [unfold area; lia|]. by apply Hno, in_blocks_cons.
      * split; [eapply mapped_changes; [done|]; intros a Ha; apply Hpl; lia|]. intros a Ha.
        destruct Hpl as [_ Hp]. destruct (Hp a) as (Hn1 & Hn2); [unfold area in *; lia|]. split; [|done].
        intros Hin. by apply Hn1, in_blocks_cons.
      * exists m'. split; [done|]. by eapply written_app.
Qed.

(** ** Files *)

(** Of the superblock, only the number of free blocks may change. *)
Lemma get_inode_changes m m' A i : changes m m' A ->
  (forall a, A a -> ~ area (fs_sb fs) 12 a /\ ~ area (fs_sb fs + 16) 1008 a) ->
  ext2_get_inode fs m' i = ext2_get_inode fs m i.
Proof.
  intros Hc Ha.
  assert (H4 : forall a, fs_sb fs <= a <= fs_sb fs + 8 \/ fs_sb fs + 16 <= a <= fs_sb fs + 1020 -> ld32 m' a = ld32 m a).
  { intros a Hr. eapply ld32_changes; [done|]. intros x Hx HA. destruct (Ha x HA) as [H1 H2]. unfold area in *. lia. }
  unfold ext2_get_inode, inode_grp, get_block_size.
  rewrite !H4 by (unfold s_inodes_count, s_inodes_per_group, s_log_block_size, s_blocks_per_group; lia).
  assert (H2 : ld16 m' (s_inode_size (fs_sb fs)) = ld16 m (s_inode_size (fs_sb fs))); [|by rewrite H2].
  eapply ld16_changes; [done|..]; intros HA; destruct (Ha _ HA) as [H1 H2]; unfold area, s_inode_size in *; lia.
Qed.

(** The entry [d] is for the inode [fp] of a file of [size] octets, whose blocks from [start] on are [bl]. *)
Record file_at (m : cmem) (d fp size start : Z) (bl : list Z) : Prop := {
  fa_inode : exists n, ld32 m (d_inode d) = Some n /\ ext2_get_inode fs m n = Some fp;
  fa_size : ld32 m (i_size fp) = Some size;
  fa_start : 0 <= start /\ start mod 1024 = 0;
  fa_blocks : inode_blocks m fp (start / 1024) bl;
  fa_apart : forall a, in_blocks bl a -> ~ area d 4 a;
}.

Lemma file_changes m m' A d fp size start bl : changes m m' A ->
  (forall a, A a -> ~ area d 4 a /\ ~ area (fs_sb fs) 1024 a /\ ~ area fp sizeof_inode a) ->
  file_at m d fp size start bl -> file_at m' d fp size start bl.
Proof.
  intros Hc Ha [(n & Hn & Hg) Hsz Hst Hbl Hap]. split; [| |done| |done].
  - exists n. split.
    + rewrite <- Hn. eapply ld32_changes; [done|]. intros x Hx HA. destruct (Ha x HA) as [Hno _]. by apply Hno.
    + rewrite <- Hg. eapply get_inode_changes; [done|]. intros a HA.
      destruct (Ha a HA) as (_ & Hno & _). unfold area in *. lia.
  - rewrite <- Hsz. eapply ld32_changes; [done|]. intros x Hx HA. apply (Ha x HA). unfold area, i_size, sizeof_inode in *. lia.
  - eapply inode_blocks_changes; [done| |done]. intros a HA. apply (Ha a HA).
Qed.

(** Writing within the file *)
Lemma run_write_file {B} (g : Z -> prog cmem B) m d fp size start bl buf l : file_at m d fp size start bl -> buffer_ok m bl buf l ->
  fits (start / 1024) bl l -> start + Z.of_nat (length l) <= size -> size < 2 ^ 32 -> start < 12288 ->
  exists m', run (ext2_write_file_by_inode fs d buf start (Z.of_nat (length l)) ≫= g) m = run (g (Z.of_nat (length l))) m' /\
    stored m' bl l /\ changes m m' (in_blocks bl).
Proof.
  intros [(n & Hn & Hg) Hsz [Hst0 Hst] Hbl Hap] Hbuf Hlen Hle Hsize H12. pose proof (ib_index _ _ _ _ Hbl) as Hidx.
  pose proof (eq_refl : EXT2_NDIR_BLOCKS = 12).
  destruct (run_write fp bl m (S (S (length l))) (start / 1024) buf l) as (m' & E & Hs & Hc); [done|done|done|lia|].
  exists m'. split; [|done]. rewrite run_bind. unfold ext2_write_file_by_inode, mld32.
  rewrite (run_mget_bind _ _ _ n), (run_mget_bind _ _ _ fp), (run_mget_bind _ _ _ 1024), (run_mget_bind _ _ _ size) by
    (done || (unfold get_block_size; by rewrite (ib_log _ _ _ _ Hbl))).
  rewrite (u32_id (_ + start)) by (unfold is_u32; lia). rewrite (proj2 (Z.ltb_ge size _)) by lia. cbv zeta.
  rewrite (proj2 (Z.leb_gt EXT2_NDIR_BLOCKS (start / 1024))) by (apply Z.div_lt_upper_bound; lia).
  rewrite Hst, Nat2Z.id, run_bind, E. cbn [obind]. rewrite Z.sub_0_r, u32_id by (unfold is_u32; lia). done.
Qed.

Lemma run_read_file {B} (g : Z -> prog cmem B) m d fp size start bl dst l : file_at m d fp size start bl -> stored m bl l ->
  Forall octet l -> start + Z.of_nat (length l) <= size -> size + start < 2 ^ 32 ->
  place_ok m fp bl dst (length l) -> fits (start / 1024) bl l ->
  exists m', run (ext2_read_dirent fs d dst start (Z.of_nat (length l)) ≫= g) m = run (g (Z.of_nat (length l))) m' /\ written m m' dst l.
Proof.
  intros [(n & Hn & Hg) Hsz [Hst0 Hst] Hbl Hap] Hs Hu Hle Hsize Hpl Hfit. pose proof (ib_index _ _ _ _ Hbl) as Hidx.
  pose proof (eq_refl : EXT2_NDIR_BLOCKS = 12). pose proof (eq_refl : EXT2_N_BLOCKS = 13).
  destruct (run_read fp bl l m (Z.to_nat (EXT2_N_BLOCKS - start / 1024)) (start / 1024) dst) as (m' & E & Hw); [done|done|done|lia|done|done|lia|].
  exists m'. split; [|done]. rewrite run_bind. unfold ext2_read_dirent, mld32.
  rewrite (run_mget_bind _ _ _ n), (run_mget_bind _ _ _ fp), (run_mget_bind _ _ _ 1024), (run_mget_bind _ _ _ size) by
    (done || (unfold get_block_size; by rewrite (ib_log _ _ _ _ Hbl))).
  rewrite (u32_id (size + start)) by (unfold is_u32; lia). rewrite (proj2 (Z.ltb_ge (size + start) _)) by lia. cbv zeta.
  rewrite Hst, run_bind, E. cbn [obind]. rewrite Z.sub_0_r, u32_id by (unfold is_u32; lia). done.
Qed.

(** ** Integers in memory *)

Lemma cst_spec m a v : is_Some (m !! a) -> cst m a v = Some (<[a := u8 v]> m) /\ changes m (<[a := u8 v]> m) (area a 1).
Proof.
  intros H. split; [by apply cst_mapped|]. split.
  - intros x Hx. apply lookup_insert_ne. unfold area in Hx. lia.
  - intros x Hx. apply lookup_insert_is_Some'. by right.
Qed.

Lemma st16_spec m a v : mapped m a 2 -> exists m', st16 m a v = Some m' /\ ld16 m' a = Some (v mod 65536) /\ changes m m' (area a 2).
Proof.
  intros Hm. destruct (cst_spec m a v) as [E1 C1]; [apply Hm; lia|].
  destruct (cst_spec (<[a := u8 v]> m) (a + 1) (v / 256)) as [E2 C2]; [apply C1, Hm; lia|].
  eexists. unfold st16. rewrite E1. simpl. split; [exact E2|]. split.
  - unfold ld16, cld. rewrite (lookup_insert_ne _ (a + 1) a), lookup_insert_eq by lia. cbn [mbind option_bind]. rewrite lookup_insert_eq.
    cbn [mbind option_bind]. unfold u8. f_equal. Z.div_mod_to_equations. lia.
  - eapply changes_trans; [eapply changes_mono; [|exact C1]|eapply changes_mono; [|exact C2]]; intros x; unfold area; lia.
Qed.

Lemma st32_spec m a v : mapped m a 4 -> exists m', st32 m a v = Some m' /\ ld32 m' a = Some (u32 v) /\ changes m m' (area a 4).
Proof.
  intros Hm. destruct (st16_spec m a v) as (m1 & E1 & L1 & C1); [intros x Hx; apply Hm; lia|].
  destruct (st16_spec m1 (a + 2) (v / 65536)) as (m2 & E2 & L2 & C2); [intros x Hx; apply C1, Hm; lia|].
  exists m2. unfold st32. rewrite E1. simpl. split; [exact E2|]. split.
  - unfold ld32. rewrite (ld16_changes m1 m2 _ a C2), L1 by (unfold area; lia). cbn [mbind option_bind]. rewrite L2.
    cbn [mbind option_bind]. unfold u32. f_equal. change (2 ^ 32) with (65536 * 65536). Z.div_mod_to_equations. lia.
  - eapply changes_trans; [eapply changes_mono; [|exact C1]|eapply changes_mono; [|exact C2]]; intros x; unfold area; lia.
Qed.

Lemma ld16_mapped m a : mapped m a 2 -> exists v, ld16 m a = Some v.
Proof.
  intros Hm. unfold ld16, cld. destruct (Hm a) as [x Hx]; [lia|]. destruct (Hm (a + 1)) as [y Hy]; [lia|]. rewrite Hx, Hy.
  by eexists.
Qed.
Lemma ld32_mapped m a : mapped m a 4 -> exists v, ld32 m a = Some v.
Proof.
  intros Hm. unfold ld32. destruct (ld16_mapped m a) as [x Hx]; [intros y Hy; apply Hm; lia|].
  destruct (ld16_mapped m (a + 2)) as [z Hz]; [intros y Hy; apply Hm; lia|]. rewrite Hx. cbn [mbind option_bind]. rewrite Hz. by eexists.
Qed.

Lemma add32_spec m a d : mapped m a 4 -> exists m', add32 a d m = Some m' /\ changes m m' (area a 4).
Proof.
  intros Hm. destruct (ld32_mapped m a Hm) as [x Hx]. destruct (st32_spec m a (u32 (x + d)) Hm) as (m' & E & _ & C).
  exists m'. unfold add32. rewrite Hx. done.
Qed.
Lemma add16_spec m a d : mapped m a 2 -> exists m', add16 a d m = Some m' /\ changes m m' (area a 2).
Proof.
  intros Hm. destruct (ld16_mapped m a Hm) as [x Hx]. destruct (st16_spec m a ((x + d) mod 65536) Hm) as (m' & E & _ & C).
  exists m'. unfold add16. rewrite Hx. done.
Qed.

(** A bit of a word *)
Lemma land_bit w k : 0 <= k -> negb (Z.land w (Z.shiftl 1 k) =? 0) = Z.testbit w k.
Proof.
  intros Hk. rewrite Z.shiftl_1_l. destruct (Z.testbit w k) eqn:E.
  - apply negb_true_iff, Z.eqb_neq. intros H. assert (Hb : Z.testbit (Z.land w (2 ^ k)) k = false) by (rewrite H; apply Z.bits_0).
    rewrite Z.land_spec, E, Z.pow2_bits_true in Hb by lia. done.
  - apply negb_false_iff, Z.eqb_eq. apply Z.bits_inj'. intros n Hn. rewrite Z.bits_0, Z.land_spec, Z.pow2_bits_eqb by lia.
    destruct (Z.eqb_spec k n) as [->|]; [by rewrite E|apply andb_false_r].
Qed.

Lemma lor_bit w k j : 0 <= k -> 0 <= j -> Z.testbit (Z.lor w (Z.shiftl 1 k)) j = (k =? j) || Z.testbit w j.
Proof. intros Hk Hj. rewrite Z.lor_spec, Z.shiftl_1_l, Z.pow2_bits_eqb by lia. apply orb_comm. Qed.

(** ** Allocation of blocks

    A file system with one group of [count] blocks: block 0 is the superblock, block 1 has the group's descriptor and block
    [bb] the bitmap. *)
Record alloc_ok (m : cmem) (bb count : Z) : Prop := {
  al_log : ld32 m (s_log_block_size (fs_sb fs)) = Some 0;
  al_count : ld32 m (s_blocks_count (fs_sb fs)) = Some count;
  al_per : ld32 m (s_blocks_per_group (fs_sb fs)) = Some 8192;
  al_bitmap : ld32 m (bg_block_bitmap (blk_addr 1)) = Some bb;
  al_range : 0 <= count <= 8192;
  al_sb : fs_sb fs = blk_addr 0;
  al_distinct : bb <> 0 /\ bb <> 1;
  al_ok : blk_ok 0 /\ blk_ok 1 /\ blk_ok bb;
  al_mapped : mapped m (blk_addr 0) 1024 /\ mapped m (blk_addr 1) 1024 /\ mapped m (blk_addr bb) 1024;
}.

(** The addresses that the marking of a block changes *)
Definition mark_area (bb b a : Z) : Prop :=
  area (blk_addr bb + 4 * (b / 32)) 4 a \/ area (s_free_blocks_count (fs_sb fs)) 4 a \/ area (bg_free_blocks_count (blk_addr 1)) 2 a.

Definition meta_area (bb a : Z) : Prop := in_block 0 a \/ in_block 1 a \/ in_block bb a.

Lemma mark_meta m bb count b a : alloc_ok m bb count -> 0 <= b < count -> mark_area bb b a -> meta_area bb a.
Proof.
  intros [] Hb. assert (0 <= b / 32 < 256) by (Z.div_mod_to_equations; lia).
  unfold mark_area, meta_area, in_block, area, s_free_blocks_count, bg_free_blocks_count. lia.
Qed.

(** What is read of the superblock and the descriptor is not in such an area. *)
Lemma alloc_fields m bb count b a : alloc_ok m bb count -> 0 <= b < count -> mark_area bb b a ->
  ~ area (s_log_block_size (fs_sb fs)) 4 a /\ ~ area (s_blocks_count (fs_sb fs)) 4 a /\
  ~ area (s_blocks_per_group (fs_sb fs)) 4 a /\ ~ area (bg_block_bitmap (blk_addr 1)) 4 a.
Proof.
  intros Hal Hb Ha. destruct Hal. assert (0 <= b / 32 < 256) by (Z.div_mod_to_equations; lia).
  unfold mark_area, area, s_free_blocks_count, bg_free_blocks_count, s_log_block_size, s_blocks_count, s_blocks_per_group,
    bg_block_bitmap in *. rewrite al_sb0 in *. unfold blk_addr in *. lia.
Qed.

Lemma alloc_changes m m' bb count A : alloc_ok m bb count -> changes m m' A ->
  (forall a, A a -> exists b, 0 <= b < count /\ mark_area bb b a) -> alloc_ok m' bb count.
Proof.
  intros Hal Hc HA. pose proof Hal as [].
  assert (H : forall p, (forall a, area p 4 a -> ~ A a) -> ld32 m' p = ld32 m p)
    by (intros p Hp; eapply ld32_changes; [done|exact Hp]).
  split; try done.
  1-4: rewrite H; [done|]; intros a Ha Hin; destruct (HA a Hin) as (b & Hb & Hm);
       by destruct (alloc_fields m bb count b a Hal Hb Hm) as (H1 & H2 & H3 & H4).
  destruct al_mapped0 as (H0 & H1 & H2). split_and!; by eapply mapped_changes.
Qed.

(** The group of a block, its descriptor and its bitmap *)
Lemma alloc_lookup m bb count b : alloc_ok m bb count -> 0 <= b < count ->
  blk_to_blk_grp fs m b = Some 0 /\ group_desc fs m 0 = Some (blk_addr 1) /\ get_blk_bitmap fs m b = Some (blk_addr bb).
Proof.
  intros [] Hb. destruct al_ok0 as (H0 & H1 & H2).
  assert (G : blk_to_blk_grp fs m b = Some 0)
    by (unfold blk_to_blk_grp; rewrite al_per0; simpl; f_equal; apply Z.div_small; lia).
  assert (D : group_desc fs m 0 = Some (blk_addr 1))
    by (unfold group_desc; rewrite block_addr by done; simpl; by rewrite Z.mul_0_l, Z.add_0_r).
  split_and!; [done|done|]. unfold get_blk_bitmap. rewrite G. cbn [mbind option_bind]. rewrite D. cbn [mbind option_bind].
  rewrite al_bitmap0. cbn [mbind option_bind]. by apply block_addr.
Qed.

Lemma bitmap_word_small p b : 0 <= b < 8192 -> bitmap_word p 8192 b = p + 4 * (b / 32).
Proof. intros Hb. unfold bitmap_word. by rewrite Z.mod_small. Qed.

Lemma word_mapped m bb count b : alloc_ok m bb count -> 0 <= b < count -> mapped m (blk_addr bb + 4 * (b / 32)) 4.
Proof. intros [] Hb x Hx. apply al_mapped0. Z.div_mod_to_equations. lia. Qed.

(** A block is used when its bit is set. *)
Lemma used_bit m bb count b w : alloc_ok m bb count -> 0 <= b < count -> ld32 m (blk_addr bb + 4 * (b / 32)) = Some w ->
  blk_is_used fs m b = Some (Z.testbit w (b mod 32)).
Proof.
  intros Hal Hb Hw. destruct (alloc_lookup m bb count b Hal Hb) as (_ & _ & G). destruct Hal.
  unfold blk_is_used. rewrite G. cbn [mbind option_bind]. rewrite al_per0. cbn [mbind option_bind].
  rewrite bitmap_word_small by lia. rewrite Hw. cbn [mbind option_bind]. rewrite land_bit by (apply Z.mod_pos_bound; lia). done.
Qed.

(** The bits when the word of block [b] is [w] with its bit set and the counters change *)
Lemma mark_used_bits m m1 m3 bb count b i w : alloc_ok m bb count -> alloc_ok m3 bb count -> 0 <= b < count -> 0 <= i < count ->
  ld32 m (blk_addr bb + 4 * (b / 32)) = Some w ->
  ld32 m1 (blk_addr bb + 4 * (b / 32)) = Some (u32 (Z.lor w (Z.shiftl 1 (b mod 32)))) ->
  changes m m1 (area (blk_addr bb + 4 * (b / 32)) 4) ->
  changes m1 m3 (fun a => area (s_free_blocks_count (fs_sb fs)) 4 a \/ area (bg_free_blocks_count (blk_addr 1)) 2 a) ->
  blk_is_used fs m3 i = if decide (i = b) then Some true else blk_is_used fs m i.
Proof.
  intros Hal Hal3 Hb Hi Hw L1 C1 C3. pose proof Hal as [].
  assert (Hi32 : 0 <= i / 32 < 256) by (Z.div_mod_to_equations; lia). assert (Hm32 : 0 <= i mod 32 < 32) by (apply Z.mod_pos_bound; lia).
  assert (Hb32 : 0 <= b mod 32 < 32) by (apply Z.mod_pos_bound; lia).
  destruct (ld32_mapped m _ (word_mapped m bb count i Hal Hi)) as [x Hx].
  assert (Hfar : ld32 m3 (blk_addr bb + 4 * (i / 32)) = ld32 m1 (blk_addr bb + 4 * (i / 32))).
  { eapply ld32_changes; [done|]. intros a Ha. unfold area, s_free_blocks_count, bg_free_blocks_count. rewrite al_sb0.
    unfold blk_addr in *. lia. }
  rewrite (used_bit m bb count i x) by done.
  destruct (decide (i / 32 = b / 32)) as [E|E].
  - rewrite <- E in L1, Hw. rewrite Hw in Hx. injection Hx as <-. rewrite L1 in Hfar. rewrite (used_bit m3 bb count i _ Hal3 Hi Hfar).
    unfold u32. rewrite Z.mod_pow2_bits_low, lor_bit by lia. case_decide as Hd; [subst; by rewrite Z.eqb_refl|].
    rewrite (proj2 (Z.eqb_neq _ _)) by (intros Hm; apply Hd; Z.div_mod_to_equations; lia). done.
  - rewrite decide_False by (intros ->; done). rewrite (ld32_changes _ _ _ _ C1), Hx in Hfar by (intros a Ha; unfold area; lia).
    by apply (used_bit m3 bb count i x).
Qed.

(** Marking a block sets its bit and no other. *)
Lemma mark_used m bb count b : alloc_ok m bb count -> 0 <= b < count ->
  exists m', mark_blk_used fs b m = Some m' /\ alloc_ok m' bb count /\ changes m m' (mark_area bb b) /\
    forall i, 0 <= i < count -> blk_is_used fs m' i = if decide (i = b) then Some true else blk_is_used fs m i.
Proof.
  intros Hal Hb. pose proof (word_mapped m bb count b Hal Hb) as Hwm. destruct (ld32_mapped m _ Hwm) as [w Hw].
  destruct (alloc_lookup m bb count b Hal Hb) as (_ & _ & G). pose proof Hal as [].
  assert (Hsub : forall a, mark_area bb b a -> exists x, 0 <= x < count /\ mark_area bb x a) by (intros a Ha; by exists b).
  set (v := Z.lor w (Z.shiftl 1 (b mod 32))).
  destruct (st32_spec m (blk_addr bb + 4 * (b / 32)) v Hwm) as (m1 & E1 & L1 & C1).
  assert (C1' : changes m m1 (mark_area bb b)) by (eapply changes_mono; [|done]; intros a Ha; by left).
  destruct (add32_spec m1 (s_free_blocks_count (fs_sb fs)) (-1)) as (m2 & E2 & C2).
  { eapply mapped_changes; [exact C1|]. intros x Hx. destruct al_mapped0 as (Hm0 & _). apply Hm0. rewrite al_sb0 in Hx. unfold s_free_blocks_count in Hx. lia. }
  assert (C2' : changes m1 m2 (mark_area bb b)) by (eapply changes_mono; [|done]; intros a Ha; right; by left).
  assert (Hal2 : alloc_ok m2 bb count) by (eapply (alloc_changes m); [done|by eapply changes_trans|done]).
  destruct (alloc_lookup m2 bb count b Hal2 Hb) as (G2 & D2 & _).
  destruct (add16_spec m2 (bg_free_blocks_count (blk_addr 1)) (-1)) as (m3 & E3 & C3).
  { intros x Hx. destruct (al_mapped _ _ _ Hal2) as (_ & Hm1 & _). apply Hm1. unfold bg_free_blocks_count in Hx. lia. }
  assert (C3' : changes m2 m3 (mark_area bb b)) by (eapply changes_mono; [|done]; intros a Ha; right; by right).
  assert (C : changes m m3 (mark_area bb b)) by (eapply changes_trans; [done|]; by eapply changes_trans).
  assert (Hal3 : alloc_ok m3 bb count) by (by eapply (alloc_changes m)).
  exists m3. split_and!; [|done|done|].
  - unfold mark_blk_used. rewrite G. cbn [mbind option_bind]. rewrite al_per0. cbn [mbind option_bind].
    rewrite bitmap_word_small by lia. rewrite Hw. cbn [mbind option_bind]. fold v. rewrite E1. cbn [mbind option_bind].
    rewrite E2. cbn [mbind option_bind]. rewrite G2. cbn [mbind option_bind]. rewrite D2. exact E3.
  - intros i Hi. apply (mark_used_bits m m1 m3 bb count b i w); try done.
    eapply changes_trans; [eapply changes_mono; [|exact C2]|eapply changes_mono; [|exact C3]]; intros a Ha; [by left|by right].
Qed.

(** A change apart from the superblock, the descriptor and the bitmap *)
Lemma alloc_apart m m' bb count A : alloc_ok m bb count -> changes m m' A -> (forall a, A a -> ~ meta_area bb a) ->
  alloc_ok m' bb count /\ forall i, 0 <= i < count -> blk_is_used fs m' i = blk_is_used fs m i.
Proof.
  intros Hal Hc HA. pose proof Hal as [].
  assert (H : forall p, (forall a, area p 4 a -> meta_area bb a) -> ld32 m' p = ld32 m p)
    by (intros p Hp; eapply ld32_changes; [done|]; intros a Ha Hin; by apply (HA a Hin), Hp).
  assert (Hal' : alloc_ok m' bb count).
  { split; try done.
    1-4: rewrite H; [done|]; intros a; unfold area, meta_area, in_block, s_log_block_size, s_blocks_count, s_blocks_per_group, bg_block_bitmap;
         rewrite ?al_sb0; lia.
    destruct al_mapped0 as (H0 & H1 & H2). split_and!; by eapply mapped_changes. }
  split; [done|]. intros i Hi. destruct (ld32_mapped m _ (word_mapped m bb count i Hal Hi)) as [w Hw].
  rewrite (used_bit m bb count i w), (used_bit m' bb count i w); try done.
  rewrite H; [done|]. intros a Ha. right. right. unfold area, in_block in *. Z.div_mod_to_equations. lia.
Qed.

(** The free blocks, in order *)
Definition free_blocks (m : cmem) (count : Z) : list Z := filter (fun i => blk_is_used fs m i = Some false) (seqZ 0 count).

Lemma filter_head {A} (P : A -> Prop) `{!forall x, Decision (P x)} l x fl : filter P l = x :: fl ->
  exists l1 l2, l = l1 ++ x :: l2 /\ Forall (fun y => ~ P y) l1 /\ P x /\ filter P l2 = fl.
Proof.
  induction l as [|y l IH]; [done|]. rewrite filter_cons. case_decide as HP.
  - intros [= -> <-]. exists [], l. done.
  - intros Hq. destruct (IH Hq) as (l1 & l2 & -> & Hf & Hx & Hl). exists (y :: l1), l2. split_and!; [done|by constructor|done|done].
Qed.

Lemma filter_ext_in {A} (P Q : A -> Prop) `{!forall x, Decision (P x)} `{!forall x, Decision (Q x)} (l : list A) :
  (forall x, x ∈ l -> P x <-> Q x) -> filter P l = filter Q l.
Proof.
  induction l as [|x l IH]; intros Hx; [done|]. rewrite !filter_cons.
  rewrite IH by (intros y Hy; apply Hx; by apply list_elem_of_further).
  pose proof (Hx x (list_elem_of_here _ _)). repeat case_decide; naive_solver.
Qed.

(** The first free block, and those before it *)
Lemma free_first m bb count b fl : alloc_ok m bb count -> free_blocks m count = b :: fl ->
  0 <= b < count /\ blk_is_used fs m b = Some false /\ forall i, 0 <= i < b -> blk_is_used fs m i = Some true.
Proof.
  intros Hal H. apply filter_head in H as (l1 & l2 & Hl & Hf & Hb & _).
  assert (Hx : seqZ 0 count !! length l1 = Some b) by (rewrite Hl; apply list_lookup_middle; done).
  apply lookup_seqZ in Hx as [Hx1 Hx2]. split_and!; [lia|lia|done|]. intros i Hi.
  assert (Hi1 : l1 !! Z.to_nat i = Some i).
  { rewrite <- (lookup_app_l l1 (b :: l2)) by lia. rewrite <- Hl. apply lookup_seqZ. lia. }
  pose proof (Forall_lookup_1 _ _ _ _ Hf Hi1) as Hn. cbv beta in Hn.
  destruct (ld32_mapped m _ (word_mapped m bb count i Hal ltac:(lia))) as [w Hw].
  rewrite (used_bit m bb count i w) in Hn |- * by (done || lia). destruct (Z.testbit w (i mod 32)); [done|]. by destruct Hn.
Qed.

Lemma free_mark m m' count b fl : free_blocks m count = b :: fl ->
  (forall i, 0 <= i < count -> blk_is_used fs m' i = if decide (i = b) then Some true else blk_is_used fs m i) ->
  free_blocks m' count = fl.
Proof.
  intros H Hu. assert (Hnd : NoDup (b :: fl)) by (rewrite <- H; apply NoDup_filter, NoDup_seqZ).
  apply NoDup_cons in Hnd as [Hnb _]. unfold free_blocks.
  transitivity (filter (fun i => i <> b) (free_blocks m count)).
  - unfold free_blocks. rewrite list_filter_filter. apply filter_ext_in. intros i Hi. apply elem_of_seqZ in Hi.
    rewrite Hu by lia. case_decide; naive_solver.
  - rewrite H, filter_cons_False by naive_solver. apply filter_all, Forall_forall. intros y Hy ->. done.
Qed.

Lemma alloc_loop_skip m bb count n b : forall i, alloc_ok m bb count -> 0 <= i <= b -> b < count -> (Z.to_nat (b - i) < n)%nat ->
  (forall j, i <= j < b -> blk_is_used fs m j = Some true) -> blk_is_used fs m b = Some false ->
  run (blk_alloc_loop fs n i) m = run (mput (mark_blk_used fs b);; mret b) m.
Proof.
  induction n as [|n IH]; intros i Hal Hi Hc Hn Hu Hf; [lia|]. cbn [blk_alloc_loop].
  destruct (decide (i = b)) as [->|Hne]; [by rewrite (run_mget_bind _ _ _ false)|].
  rewrite (run_mget_bind _ _ _ true) by (apply Hu; lia). apply IH; try done; try lia. intros j Hj. apply Hu. lia.
Qed.

(** The first free block is allocated. *)
Lemma run_blk_alloc {B} (g : Z -> prog cmem B) m bb count b fl : alloc_ok m bb count -> free_blocks m count = b :: fl ->
  exists m', run (blk_alloc fs ≫= g) m = run (g b) m' /\ alloc_ok m' bb count /\ free_blocks m' count = fl /\
    changes m m' (mark_area bb b).
Proof.
  intros Hal Hfr. destruct (free_first m bb count b fl Hal Hfr) as (Hb & Hf & Hu).
  destruct (mark_used m bb count b Hal Hb) as (m' & E & Hal' & Hc & Hu').
  exists m'. split_and!; [|done|by eapply free_mark|done].
  rewrite run_bind. unfold blk_alloc, mld32. rewrite (run_mget_bind _ _ _ count) by apply Hal.
  rewrite (alloc_loop_skip m bb count _ b) by (done || lia || (intros; apply Hu; lia)).
  by rewrite (run_mput_bind _ _ _ m').
Qed.

(** No block is free. *)
Lemma alloc_loop_full m bb count n : forall i, alloc_ok m bb count -> free_blocks m count = [] -> 0 <= i -> i + Z.of_nat n <= count ->
  run (blk_alloc_loop fs n i) m = Returned m 0.
Proof.
  induction n as [|n IH]; intros i Hal Hfr H0 Hn; [done|]. cbn [blk_alloc_loop].
  destruct (ld32_mapped m _ (word_mapped m bb count i Hal ltac:(lia))) as [w Hw].
  pose proof (used_bit m bb count i w Hal ltac:(lia) Hw) as Hb. destruct (Z.testbit w (i mod 32)).
  - rewrite (run_mget_bind _ _ _ true) by done. apply IH; [done|done|lia|lia].
  - exfalso. assert (Hin : i ∈ free_blocks m count).
    { apply list_elem_of_filter. split; [done|]. apply elem_of_seqZ. lia. }
    rewrite Hfr in Hin. by apply not_elem_of_nil in Hin.
Qed.

(** C32: when blocks are free, [blk_alloc] returns the first of them and marks it, and the other blocks stay as they are: only the word of the
    bitmap with its bit and the two counters of free blocks change.  When none is free it returns 0 and nothing changes. *)
Theorem blk_alloc_spec m bb count : alloc_ok m bb count ->
  match free_blocks m count with
  | [] => run (blk_alloc fs) m = Returned m 0
  | b :: fl => exists m', run (blk_alloc fs) m = Returned m' b /\ alloc_ok m' bb count /\ free_blocks m' count = fl /\
      changes m m' (mark_area bb b)
  end.
Proof.
  intros Hal. destruct (free_blocks m count) as [|b fl] eqn:E.
  - unfold blk_alloc, mld32. rewrite (run_mget_bind _ _ _ count) by apply Hal. pose proof (al_range _ _ _ Hal).
    apply (alloc_loop_full m bb count); [done|done|lia|lia].
  - destruct (run_blk_alloc mret m bb count b fl Hal E) as (m' & Hr & H). exists m'. split; [|done].
    rewrite run_bind in Hr. by destruct (run (blk_alloc fs) m).
Qed.

Lemma free_apart m m' bb count A : alloc_ok m bb count -> changes m m' A -> (forall a, A a -> ~ meta_area bb a) ->
  free_blocks m' count = free_blocks m count.
Proof.
  intros Hal Hc HA. destruct (alloc_apart m m' bb count A Hal Hc HA) as [_ Hu]. apply filter_ext_in. intros i Hi.
  apply elem_of_seqZ in Hi. by rewrite Hu by lia.
Qed.

(** ** Growing a file *)

(** The inode is in memory, apart from what allocation changes. *)
Definition inode_ok (m : cmem) (bb fp : Z) : Prop := mapped m fp 120 /\ forall a, area fp sizeof_inode a -> ~ meta_area bb a.

(** What an allocation for block indices from [idx] on changes *)
Definition marks (bb count a : Z) : Prop := exists b, 0 <= b < count /\ mark_area bb b a.
Definition grow_area (bb count fp idx : Z) (n : nat) (a : Z) : Prop := marks bb count a \/ area (i_block fp idx) (4 * Z.of_nat n) a.

Lemma get_direct m bb count fp idx : alloc_ok m bb count -> 0 <= idx < EXT2_NDIR_BLOCKS ->
  get_inode_block fs m fp idx = Some (i_block fp idx).
Proof.
  intros Hal Hi. pose proof (eq_refl : EXT2_NDIR_BLOCKS = 12). pose proof (eq_refl : EXT2_NIND_BLOCKS = 1).
  unfold get_inode_block, indirect_data_block_size, get_block_size. rewrite (al_log _ _ _ Hal). cbn [mbind option_bind].
  change (Z.shiftl 1024 0 / 4) with 256. rewrite (proj2 (Z.leb_gt _ _)), (proj2 (Z.ltb_ge _ _)) by lia. done.
Qed.

(** A block is allocated and entered in the inode. *)
Lemma grow_step m n bb count fp idx b fl : alloc_ok m bb count -> inode_ok m bb fp ->
  free_blocks m count = b :: fl -> b <> 0 -> 0 <= idx < EXT2_NDIR_BLOCKS ->
  exists m', run (grow_loop fs (S n) fp idx) m = run (k ← grow_loop fs n fp (idx + 1); mret (k + 1)) m' /\
    alloc_ok m' bb count /\ inode_ok m' bb fp /\ free_blocks m' count = fl /\ ld32 m' (i_block fp idx) = Some b /\
    changes m m' (grow_area bb count fp idx 1).
Proof.
  intros Hal [Hm Hap] Hfr Hb0 Hi. pose proof (eq_refl : EXT2_NDIR_BLOCKS = 12).
  destruct (free_first m bb count b fl Hal Hfr) as (Hb & _).
  cbn [grow_loop].
  match goal with |- context [run (blk_alloc fs ≫= ?g) m] => destruct (run_blk_alloc g m bb count b fl Hal Hfr) as (m1 & E1 & Hal1 & Hfr1 & C1) end.
  destruct (st32_spec m1 (i_block fp idx) b) as (m2 & E2 & L2 & C2).
  { eapply mapped_changes; [exact C1|]. intros a Ha. apply Hm. unfold i_block in Ha. lia. }
  assert (Hno : forall a, area (i_block fp idx) 4 a -> ~ meta_area bb a).
  { intros a Ha. apply Hap. unfold area, i_block, sizeof_inode in *. lia. }
  assert (C : changes m m2 (grow_area bb count fp idx 1)).
  { eapply changes_trans; [eapply changes_mono; [|exact C1]|eapply changes_mono; [|exact C2]]; intros a Ha; [left; by exists b|by right]. }
  exists m2. split_and!; try done.
  - rewrite E1, (proj2 (Z.eqb_neq b 0)), (proj2 (Z.ltb_lt idx _)), (run_mget_bind _ _ _ (i_block fp idx)) by (lia || by eapply get_direct). unfold mst32. by rewrite (run_mput_bind _ _ _ m2).
  - by apply (alloc_apart m1 m2 bb count (area (i_block fp idx) 4)).
  - split; [by eapply mapped_changes|done].
  - by rewrite <- Hfr1; apply (free_apart m1 m2 bb count (area (i_block fp idx) 4)).
  - rewrite L2, u32_id; [done|]. unfold is_u32. destruct Hal. lia.
Qed.

Lemma run_grow bb count fp bl : forall m idx rest, alloc_ok m bb count -> inode_ok m bb fp -> free_blocks m count = bl ++ rest ->
  0 ∉ bl -> 0 <= idx -> idx + Z.of_nat (length bl) <= EXT2_NDIR_BLOCKS ->
  exists m', run (grow_loop fs (length bl) fp idx) m = Returned m' (Z.of_nat (length bl)) /\
    alloc_ok m' bb count /\ inode_ok m' bb fp /\ free_blocks m' count = rest /\
    (forall (j : nat) b, bl !! j = Some b -> ld32 m' (i_block fp (idx + Z.of_nat j)) = Some b) /\
    changes m m' (grow_area bb count fp idx (length bl)).
Proof.
  induction bl as [|b bl IH]; intros m idx rest Hal Hin Hfr H0 Hi Hle.
  { by exists m. }
  cbn [length] in Hle. apply not_elem_of_cons in H0 as [Hb0 H0].
  destruct (grow_step m (length bl) bb count fp idx b (bl ++ rest))
    as (m1 & E1 & Hal1 & Hin1 & Hfr1 & L1 & C1); [done|done|done|done|lia|].
  destruct (IH m1 (idx + 1) rest) as (m2 & E2 & Hal2 & Hin2 & Hfr2 & L2 & C2); [done|done|done|done|lia|lia|].
  destruct Hin as [Hmp Hap].
  exists m2. split_and!; try done.
  - cbn [length]. rewrite E1, run_bind, E2. cbn [obind]. simpl. f_equal. lia.
  - intros [|j] x Hx.
    + injection Hx as <-. rewrite <- L1, Z.add_0_r. eapply ld32_changes; [done|]. intros a Ha [(y & Hy & Hme)|Har].
      * apply (Hap a); [|by eapply mark_meta]. unfold area, i_block, sizeof_inode, EXT2_NDIR_BLOCKS in *. lia.
      * unfold area, i_block in *. lia.
    + rewrite <- (L2 j x Hx). f_equal. f_equal. lia.
  - eapply changes_trans; [eapply changes_mono; [|exact C1]|eapply changes_mono; [|exact C2]]; intros a [Ha|Ha]; try (by left);
      right; cbn [length]; unfold area, i_block in *; lia.
Qed.
(** ** Appending to a file

    The entry [d] is for the inode [fp] of a file of [size] octets that fill its blocks, and the free blocks are [bl] and [rest]. *)
Record append_ok (m : cmem) (d fp size bb count : Z) (bl rest : list Z) : Prop := {
  ap_alloc : alloc_ok m bb count;
  ap_inode : inode_ok m bb fp;
  ap_entry : exists n, ld32 m (d_inode d) = Some n /\ ext2_get_inode fs m n = Some fp;
  ap_size : ld32 m (i_size fp) = Some size;
  ap_start : 0 <= size /\ size mod 1024 = 0;
  ap_free : free_blocks m count = bl ++ rest;
  ap_room : size / 1024 + Z.of_nat (length bl) <= EXT2_NDIR_BLOCKS;
  ap_blocks : Forall blk_ok bl;
  ap_mapped : forall b, b ∈ bl -> mapped m (blk_addr b) 1024;
  ap_apart : forall a, in_blocks bl a -> ~ meta_area bb a /\ ~ area fp sizeof_inode a /\ ~ area d 4 a;
  ap_dirent : forall a, area d 4 a -> ~ meta_area bb a /\ ~ area fp sizeof_inode a;
}.

(** The number of blocks for [n] octets *)
Definition blocks_for (n : Z) : Z := n / 1024 + (if n mod 1024 =? 0 then 0 else 1).

(** What the growth of a file changes *)
Definition size_area (bb count fp a : Z) : Prop := marks bb count a \/ area fp sizeof_inode a.

Lemma size_area_meta m bb count fp a : alloc_ok m bb count -> size_area bb count fp a -> meta_area bb a \/ area fp sizeof_inode a.
Proof. intros Hal [(b & Hb & Ha)|Ha]; [left; by eapply mark_meta|by right]. Qed.

Lemma zero_used m d fp size bb count bl rest : append_ok m d fp size bb count bl rest -> 0 ∉ bl /\ NoDup bl.
Proof.
  intros []. split.
  - intros H0. destruct (ap_apart0 (blk_addr 0)) as [Hno _]; [exists 0; split; [done|unfold in_block; lia]|].
    apply Hno. left. unfold in_block. lia.
  - assert (Hnd : NoDup (bl ++ rest)) by (rewrite <- ap_free0; apply NoDup_filter, NoDup_seqZ). by apply NoDup_app in Hnd as [? _].
Qed.

(** After growing, the file has the blocks. *)
Lemma grown_file m m' d fp size bb count bl rest n : append_ok m d fp size bb count bl rest -> alloc_ok m' bb count -> inode_ok m' bb fp ->
  changes m m' (size_area bb count fp) -> ld32 m' (i_size fp) = Some n ->
  (forall (j : nat) b, bl !! j = Some b -> ld32 m' (i_block fp (size / 1024 + Z.of_nat j)) = Some b) ->
  file_at m' d fp n size bl.
Proof.
  intros Hap Hal' Hin' Hc Hsz Hbl. destruct (zero_used _ _ _ _ _ _ _ _ Hap) as [_ Hnd]. pose proof Hap as [].
  destruct ap_start0 as [Hs0 Hs]. assert (0 <= size / 1024) by (apply Z.div_pos; lia).
  assert (Hsb : forall a, area (fs_sb fs) 1024 a -> meta_area bb a).
  { intros a Ha. left. rewrite (al_sb _ _ _ ap_alloc0) in Ha. exact Ha. }
  destruct ap_entry0 as (k & Hk & Hg). split; [|done|done| |].
  - exists k. split.
    + rewrite <- Hk. eapply ld32_changes; [done|]. intros a Ha Hin. destruct (ap_dirent0 a Ha) as [H1 H2].
      by destruct (size_area_meta _ _ _ _ _ ap_alloc0 Hin).
    + rewrite <- Hg. eapply get_inode_changes; [done|]. intros a [(b & Hb & Ha)|Ha].
      * assert (0 <= b / 32 < 256) by (destruct ap_alloc0; Z.div_mod_to_equations; lia).
        destruct ap_alloc0. unfold mark_area, area, s_free_blocks_count, bg_free_blocks_count in *.
        rewrite al_sb0 in *. unfold blk_addr in *. lia.
      * destruct ap_inode0 as [_ Hno]. specialize (Hno a Ha).
        split; intros Hx; apply Hno, Hsb; unfold area in *; lia.
  - split; try done.
    + apply Hal'.
    + intros b Hb. eapply mapped_changes; [done|auto].
    + intros Hlt. apply ld32_mapped. destruct Hin' as [Hm _]. intros a Ha. apply Hm. unfold i_block, EXT2_NDIR_BLOCKS in *. lia.
    + intros a Ha. destruct (ap_apart0 a Ha) as (H1 & H2 & _). split; [|done]. intros Hx. by apply H1, Hsb.
  - intros a Ha. by apply ap_apart0.
Qed.

Lemma run_increase {B} (g : Z -> prog cmem B) m d fp size bb count bl rest n : append_ok m d fp size bb count bl rest ->
  Z.of_nat (length bl) = blocks_for n -> 0 < n -> size + n < 2 ^ 32 ->
  exists m', run (increase_inode_size fs fp n ≫= g) m = run (g (Z.of_nat (length bl))) m' /\ file_at m' d fp (size + n) size bl /\
    alloc_ok m' bb count /\ free_blocks m' count = rest /\ changes m m' (size_area bb count fp).
Proof.
  intros Hap Hn H0 Hmax. destruct (zero_used _ _ _ _ _ _ _ _ Hap) as [Hz _]. pose proof Hap as []. destruct ap_start0 as [Hs0 Hs].
  assert (Hdiv : 0 <= size / 1024) by (apply Z.div_pos; lia). pose proof (eq_refl : EXT2_NDIR_BLOCKS = 12).
  destruct (run_grow bb count fp bl m (size / 1024) rest) as (m1 & E1 & Hal1 & Hin1 & Hfr1 & L1 & C1); try done.
  assert (Hsz : ld32 m1 (i_size fp) = Some size).
  { rewrite <- ap_size0. eapply ld32_changes; [done|]. intros a Ha [(b & Hb & Hm)|Ha2].
    - destruct ap_inode0 as [_ Hno]. apply (Hno a); [unfold area, i_size, sizeof_inode in *; lia|by eapply mark_meta].
    - unfold area, i_block, i_size in *. lia. }
  destruct (st32_spec m1 (i_size fp) (u32 (size + n))) as (m2 & E2 & L2 & C2).
  { intros a Ha. destruct Hin1 as [Hm _]. apply Hm. unfold i_size in Ha. lia. }
  assert (Hu : u32 (size + n) = size + n) by (apply u32_id; unfold is_u32; lia). rewrite !Hu in L2.
  assert (Hno : forall a, area (i_size fp) 4 a -> ~ meta_area bb a).
  { intros a Ha. destruct Hin1 as [_ Hno]. apply Hno. unfold area, i_size, sizeof_inode in *. lia. }
  destruct (alloc_apart m1 m2 bb count (area (i_size fp) 4)) as [Hal2 _]; [done|done|done|].
  assert (C : changes m m2 (size_area bb count fp)).
  { eapply changes_trans; [eapply changes_mono; [|exact C1]|eapply changes_mono; [|exact C2]].
    - intros a [Ha|Ha]; [by left|right]. unfold area, i_block, sizeof_inode, EXT2_NDIR_BLOCKS in *. lia.
    - intros a Ha. right. unfold area, i_size, sizeof_inode in *. lia. }
  exists m2. split_and!; [|eapply grown_file; try done|done| |done].
  - rewrite run_bind. unfold increase_inode_size, mld32, mst32.
    rewrite (run_mget_bind _ _ _ 1024) by (unfold get_block_size; by rewrite (al_log _ _ _ ap_alloc0)).
    rewrite (run_mget_bind _ _ _ size) by done. unfold grow_need. rewrite Hs. change (0 =? 0) with true. cbv zeta beta iota.
    fold (blocks_for n). rewrite <- Hn, Nat2Z.id, Z.add_0_r, run_bind, E1. cbn [obind].
    rewrite (run_mget_bind _ _ _ size) by done. rewrite Z.eqb_refl. by rewrite (run_mput_bind _ _ _ m2).
  - destruct Hin1 as [Hm Hx]. split; [by apply (mapped_changes _ _ _ _ _ C2)|done].
  - intros j b Hj. rewrite <- (L1 j b Hj). eapply ld32_changes; [done|]. intros a Ha. unfold area, i_block, i_size in *. lia.
  - rewrite <- Hfr1. by eapply free_apart.
Qed.

(** Writing the data, whether or not the file has grown *)
Lemma run_write_part m fp start bl buf l : inode_blocks m fp (start / 1024) bl -> buffer_ok m bl buf l -> fits (start / 1024) bl l ->
  0 <= start < 12288 -> start mod 1024 = 0 -> Z.of_nat (length l) < 2 ^ 32 ->
  exists m', run (let '(idx, indir) := if EXT2_NDIR_BLOCKS <=? start / 1024 then (EXT2_NDIR_BLOCKS, start / 1024 - EXT2_NDIR_BLOCKS)
                                       else (start / 1024, 0) in
                  remaining ← ext2_write_loop fs (S (S (Z.to_nat (Z.of_nat (length l))))) fp 1024 idx indir (start mod 1024) buf
                    (Z.of_nat (length l));
                  mret (u32 (Z.of_nat (length l) - remaining))) m = Returned m' (Z.of_nat (length l)) /\
    stored m' bl l /\ changes m m' (in_blocks bl).
Proof.
  intros Hbl Hbuf Hfit H12 Hst Hlt. pose proof (eq_refl : EXT2_NDIR_BLOCKS = 12).
  destruct (run_write fp bl m (S (S (length l))) (start / 1024) buf l) as (m' & E & Hs & Hc); [done|done|done|lia|].
  exists m'. split; [|done]. rewrite (proj2 (Z.leb_gt EXT2_NDIR_BLOCKS (start / 1024))) by (apply Z.div_lt_upper_bound; lia).
  rewrite Hst, Nat2Z.id, run_bind, E. cbn [obind]. rewrite Z.sub_0_r, u32_id by (unfold is_u32; lia). done.
Qed.

Lemma buffer_changes m m' A bl buf l : changes m m' A -> (forall a, A a -> ~ area buf (Z.of_nat (length l)) a) ->
  buffer_ok m bl buf l -> buffer_ok m' bl buf l.
Proof.
  intros Hc HA (Hb & Hu & Hap). split; [|done]. eapply bytes_changes; [done| |done]. intros a Ha Hin. by apply (HA a Hin).
Qed.

Lemma append_bound m d fp size bb count bl rest l : append_ok m d fp size bb count bl rest -> fits (size / 1024) bl l ->
  Z.of_nat (length bl) = blocks_for (Z.of_nat (length l)) -> 0 < Z.of_nat (length l) -> size < 12288 /\ Z.of_nat (length l) <= 12288.
Proof.
  intros [] [Hf _] Hn Hpos. pose proof (eq_refl : EXT2_NDIR_BLOCKS = 12). unfold blocks_for in Hn. revert Hn.
  destruct (Z.of_nat (length l) mod 1024 =? 0) eqn:En; [apply Z.eqb_eq in En|]; intros Hn; Z.div_mod_to_equations; lia.
Qed.

Lemma run_append_file {B} (g : Z -> prog cmem B) m d fp size bb count bl rest buf l : append_ok m d fp size bb count bl rest ->
  Z.of_nat (length bl) = blocks_for (Z.of_nat (length l)) -> 0 < Z.of_nat (length l) -> fits (size / 1024) bl l -> buffer_ok m bl buf l ->
  (forall a, area buf (Z.of_nat (length l)) a -> ~ meta_area bb a /\ ~ area fp sizeof_inode a) ->
  exists m', run (ext2_write_file_by_inode fs d buf size (Z.of_nat (length l)) ≫= g) m = run (g (Z.of_nat (length l))) m' /\
    file_at m' d fp (size + Z.of_nat (length l)) size bl /\ stored m' bl l /\ alloc_ok m' bb count /\
    free_blocks m' count = rest /\ changes m m' (fun a => size_area bb count fp a \/ in_blocks bl a).
Proof.
  intros Hap Hn Hpos Hfit Hbuf Hbap. pose proof Hap as []. pose proof (eq_refl : EXT2_NDIR_BLOCKS = 12).
  destruct ap_entry0 as (k & Hk & Hg). destruct ap_start0 as [Hs0 Hs]. set (n := Z.of_nat (length l)) in *.
  destruct (append_bound _ _ _ _ _ _ _ _ _ Hap Hfit Hn Hpos) as [H12 Hn12]. fold n in Hn12.
  rewrite run_bind. unfold ext2_write_file_by_inode, mld32.
  rewrite (run_mget_bind _ _ _ k), (run_mget_bind _ _ _ fp), (run_mget_bind _ _ _ 1024), (run_mget_bind _ _ _ size) by
    (done || (unfold get_block_size; by rewrite (al_log _ _ _ ap_alloc0))).
  rewrite (u32_id (n + size)) by (unfold is_u32; lia). rewrite (proj2 (Z.ltb_lt size (n + size))), Z.ltb_irrefl by lia. cbv zeta.
  replace (n + size - size) with n by lia. rewrite (u32_id n) by (unfold is_u32; lia).
  match goal with |- context [run (increase_inode_size fs fp n ≫= ?h) m] =>
    destruct (run_increase h m d fp size bb count bl rest n) as (m1 & E1 & Hf1 & Hal1 & Hfr1 & C1); [done|done|done|lia|] end.
  rewrite E1.
  destruct (run_write_part m1 fp size bl buf l) as (m2 & E2 & Hst2 & C2); [apply Hf1| |done|lia|done|lia|].
  { eapply buffer_changes; [exact C1| |done]. intros a Ha Hin. destruct (Hbap a Hin) as [H1 H2].
    by destruct (size_area_meta _ _ _ _ _ ap_alloc0 Ha). }
  cbv zeta in E2. fold n in E2. rewrite E2. cbn [obind]. 
  assert (Hno : forall a, in_blocks bl a -> ~ meta_area bb a) by (intros a Ha; by apply ap_apart0).
  exists m2. split_and!; [done| |done| | |].
  - eapply file_changes; [exact C2| |done]. intros a Ha. destruct (ap_apart0 a Ha) as (H1 & H2 & H3). split_and!; [done| |done].
    intros Hx. apply H1. left. rewrite (al_sb _ _ _ ap_alloc0) in Hx. exact Hx.
  - by eapply alloc_apart.
  - rewrite <- Hfr1. by eapply free_apart.
  - eapply changes_trans; [eapply changes_mono; [|exact C1]|eapply changes_mono; [|exact C2]]; intros a Ha; [by left|by right].
Qed.

(** C31: data appended to a file that fills its blocks, in memory, is read back as it was written: the write takes the first
    free blocks, in order, and enters them in the inode; the read copies the data to [dst] and both return the number of octets.  Nothing
    else in memory changes but the bitmap's words and the counters of free blocks, the inode and these blocks, and the blocks that are still free
    are [rest]. *)
Theorem ext2_append_read m d fp size bb count bl rest buf dst l : append_ok m d fp size bb count bl rest -> l <> [] ->
  Z.of_nat (length bl) = blocks_for (Z.of_nat (length l)) -> fits (size / 1024) bl l -> buffer_ok m bl buf l ->
  (forall a, area buf (Z.of_nat (length l)) a -> ~ meta_area bb a /\ ~ area fp sizeof_inode a) -> mapped m dst (length l) ->
  (forall a, area dst (Z.of_nat (length l)) a -> ~ in_blocks bl a /\ ~ meta_area bb a /\ ~ area fp sizeof_inode a /\ ~ area d 4 a) ->
  exists m', run (ext2_write_file_by_inode fs d buf size (Z.of_nat (length l));;
                  ext2_read_dirent fs d dst size (Z.of_nat (length l))) m = Returned m' (Z.of_nat (length l)) /\
    bytes_at m' dst l /\ stored m' bl l /\ file_at m' d fp (size + Z.of_nat (length l)) size bl /\
    alloc_ok m' bb count /\ free_blocks m' count = rest /\
    changes m m' (fun a => size_area bb count fp a \/ in_blocks bl a \/ area dst (Z.of_nat (length l)) a).
Proof.
  intros Hap Hl Hn Hfit Hbuf Hbap Hm Hd. pose proof Hap as []. pose proof (eq_refl : EXT2_NDIR_BLOCKS = 12).
  assert (Hpos : 0 < Z.of_nat (length l)) by (destruct l; [done|simpl; lia]).
  destruct (run_append_file (fun _ => ext2_read_dirent fs d dst size (Z.of_nat (length l))) m d fp size bb count bl rest buf l)
    as (m1 & E1 & Hf1 & Hst1 & Hal1 & Hfr1 & C1); [done..|]. rewrite E1.
  assert (Hsb : forall a, area (fs_sb fs) 1024 a -> meta_area bb a).
  { intros a Ha. left. rewrite (al_sb _ _ _ ap_alloc0) in Ha. exact Ha. }
  destruct (run_read_file mret m1 d fp (size + Z.of_nat (length l)) size bl dst l) as (m2 & E2 & Hw); try done.
  - by destruct Hbuf as (_ & ? & _).
  - destruct (append_bound _ _ _ _ _ _ _ _ _ Hap Hfit Hn Hpos) as [H12 Hn12]. lia.
  - split; [by eapply mapped_changes|]. intros a Ha. destruct (Hd a Ha) as (H1 & H2 & H3 & _). split_and!; [done| |done].
    intros Hx. by apply H2, Hsb.
  - rewrite run_bind in E2. destruct (run (ext2_read_dirent fs d dst size (Z.of_nat (length l))) m1) as [? ?| | |] eqn:E; try done.
    injection E2 as -> ->. pose proof (written_changes _ _ _ _ Hw) as C2.
    exists m2. split_and!; [done|apply Hw| | | | |].
    + eapply stored_changes; [exact C2| |done]. intros a Ha Hx. by destruct (Hd a Hx).
    + eapply file_changes; [exact C2| |done]. intros a Ha. destruct (Hd a Ha) as (_ & H2 & H3 & H4). split_and!; [done| |done].
      intros Hx. by apply H2, Hsb.
    + eapply alloc_apart; [done|exact C2|]. intros a Ha. by apply (Hd a).
    + rewrite <- Hfr1. eapply free_apart; [done|exact C2|]. intros a Ha. by apply (Hd a).
    + eapply changes_trans; [eapply changes_mono; [|exact C1]|eapply changes_mono; [|exact C2]].
      * intros a [Ha|Ha]; [by left|right; by left].
      * intros a Ha. right. by right.
Qed.

End data.

(** ** A disk with 16 blocks, of which 6 are used, and an empty file

    The file's entry is at 6656 and its inode, number 2, at 5496.  The data is at 20000, a place for it at 30000. *)

Fixpoint zeros (n : nat) (a : Z) (m : cmem) : cmem := match n with O => m | S n => <[a := 0]> (zeros n (a + 1) m) end.
Fixpoint put_text (l : list Z) (a : Z) (m : cmem) : cmem := match l with [] => m | c :: l => <[a := c]> (put_text l (a + 1) m) end.

Lemma zeros_mono n a m x : is_Some (m !! x) -> is_Some (zeros n a m !! x).
Proof. intros H. revert a. induction n as [|n IH]; intros a; [done|]. apply lookup_insert_is_Some'. by right. Qed.
Lemma put_mono l a m x : is_Some (m !! x) -> is_Some (put_text l a m !! x).
Proof. intros H. revert a. induction l as [|c l IH]; intros a; [done|]. apply lookup_insert_is_Some'. by right. Qed.
Lemma zeros_mapped n : forall a m, mapped (zeros n a m) a n.
Proof.
  induction n as [|n IH]; intros a m x Hx; [lia|]. apply lookup_insert_is_Some'.
  destruct (decide (a = x)) as [->|]; [by left|]. right. apply IH. lia.
Qed.

Definition disk_fields : list (Z * list Z) :=
  [(1280, [50; 0; 0; 0; 16; 0; 0; 0]); (1312, [0; 32; 0; 0]); (1320, [50; 0; 0; 0]); (1368, [120; 0]); (2304, [2; 0; 0; 0]); (3328, [63]);
   (6656, [2; 0; 0; 0]); (20000, [104; 101; 108; 108; 111]); (30000, [0; 0; 0; 0; 0])].
Definition put_fields (fields : list (Z * list Z)) (m : cmem) : cmem := foldr (fun '(a, l) m => put_text l a m) m fields.
Lemma fields_mono fields m x : is_Some (m !! x) -> is_Some (put_fields fields m !! x).
Proof. intros H. induction fields as [|[a l] fields IH]; [done|]. by apply put_mono. Qed.

Definition disk : cmem := put_fields disk_fields (zeros 3072 1280 (zeros 120 5496 (zeros 1024 7424 ∅))).

Lemma disk_blk b : 0 <= b < 16 -> blk_ok xinu_fs b.
Proof.
  unfold blk_ok, blk_addr. cbn [base_addr xinu_fs]. unfold EXT2_SUPERBLOCK_LOCATION, VIRT_MEM_LOCATION. lia.
Qed.

(** What the examples need of its contents *)
Definition checks (m : cmem) : list bool :=
  [ bool_decide (Forall (fun f => ld32 m f.1 = Some f.2)
      [(s_log_block_size 1280, 0); (s_blocks_count 1280, 16); (s_blocks_per_group 1280, 8192); (bg_block_bitmap 2304, 2);
       (d_inode 6656, 2); (i_size 5496, 0)]);
    bool_decide (ext2_get_inode xinu_fs m 2 = Some 5496);
    bytes_atb m 20000 [104; 101; 108; 108; 111]; mappedb m 30000 5;
    bool_decide (free_blocks xinu_fs m 16 = seqZ 6 10) ].

Lemma disk_checks : checks disk = [true; true; true; true; true].
Proof. vm_compute. reflexivity. Qed.

Definition areas (m : cmem) : Prop := mapped m 1280 3072 /\ mapped m 5496 120 /\ mapped m 7424 1024.
Lemma disk_areas : areas disk.
Proof.
  split; [|split]; intros a Ha; apply fields_mono.
  - exact (zeros_mapped _ _ _ a Ha).
  - apply zeros_mono. exact (zeros_mapped _ _ _ a Ha).
  - apply zeros_mono, zeros_mono. exact (zeros_mapped _ _ _ a Ha).
Qed.

Definition content (m : cmem) : Prop :=
  Forall (fun f => ld32 m f.1 = Some f.2)
    [(s_log_block_size 1280, 0); (s_blocks_count 1280, 16); (s_blocks_per_group 1280, 8192); (bg_block_bitmap 2304, 2);
     (d_inode 6656, 2); (i_size 5496, 0)] /\
  ext2_get_inode xinu_fs m 2 = Some 5496 /\ bytes_at m 20000 [104; 101; 108; 108; 111] /\ mapped m 30000 5 /\
  free_blocks xinu_fs m 16 = seqZ 6 10.

Lemma checks_content m : checks m = [true; true; true; true; true] -> content m.
Proof.
  unfold checks. intros H. injection H as H1 H2 H3 H4 H5. split; [|split; [|split; [|split]]].
  - by apply bool_decide_eq_true in H1.
  - by apply bool_decide_eq_true in H2.
  - by apply bytes_atb_spec.
  - by apply mappedb_spec.
  - by apply bool_decide_eq_true in H5.
Qed.

Lemma disk_content : content disk.
Proof. exact (checks_content disk disk_checks). Qed.

Lemma disk_alloc m : content m -> areas m -> alloc_ok xinu_fs m 2 16.
Proof.
  intros (Hf & _) (Hm & _). repeat (apply Forall_cons in Hf as [? Hf]).
  split; try done.
  split_and!; intros a Ha; apply Hm; revert Ha; unfold blk_addr; cbn [base_addr xinu_fs];
    unfold EXT2_SUPERBLOCK_LOCATION, VIRT_MEM_LOCATION; lia.
Qed.

Lemma disk_block a : in_blocks xinu_fs [6] a -> 7424 <= a < 8448.
Proof. intros (b & Hb & Ha). apply list_elem_of_singleton in Hb as ->. exact Ha. Qed.
Lemma disk_meta a : meta_area xinu_fs 2 a -> 1280 <= a < 4352.
Proof. unfold meta_area, in_block, blk_addr. cbn [base_addr xinu_fs]. unfold EXT2_SUPERBLOCK_LOCATION, VIRT_MEM_LOCATION. lia. Qed.

Lemma disk_append m : content m -> areas m -> append_ok xinu_fs m 6656 5496 0 2 16 [6] (seqZ 7 9).
Proof.
  intros Hc Ha. pose proof (disk_alloc m Hc Ha). destruct Hc as (Hf & Hi & _ & _ & Hfr). repeat (apply Forall_cons in Hf as [? Hf]).
  destruct Ha as (_ & Hm5 & Hm6). split; try done.
  - split; [done|]. intros a Ha Hx%disk_meta. unfold area, sizeof_inode in Ha. lia.
  - by exists 2.
  - constructor; [|constructor]. apply disk_blk. lia.
  - intros b Hb. apply list_elem_of_singleton in Hb as ->. exact Hm6.
  - intros a Ha%disk_block. unfold area, sizeof_inode. split_and!; [intros Hx%disk_meta|..]; lia.
  - intros a Ha. unfold area, sizeof_inode in *. split; [intros Hx%disk_meta|]; lia.
Qed.

Lemma disk_buffer m : content m -> buffer_ok xinu_fs m [6] 20000 [104; 101; 108; 108; 111].
Proof.
  intros (_ & _ & Hb & _). split; [done|]. split; [repeat (constructor; [unfold octet; lia|]); constructor|]. intros a Ha%disk_block. unfold area. simpl. lia.
Qed.

Lemma ext2_append_read_witness : exists m',
  run (ext2_write_file_by_inode xinu_fs 6656 20000 0 5;; ext2_read_dirent xinu_fs 6656 30000 0 5) disk = Returned m' 5 /\
  bytes_at m' 30000 [104; 101; 108; 108; 111] /\ free_blocks xinu_fs m' 16 = seqZ 7 9.
Proof.
  destruct (ext2_append_read xinu_fs disk 6656 5496 0 2 16 [6] (seqZ 7 9) 20000 30000 [104; 101; 108; 108; 111])
    as (m' & E & Hb' & _ & _ & _ & Hfr & _).
  - exact (disk_append disk disk_content disk_areas).
  - discriminate.
  - reflexivity.
  - split; [simpl; lia|]. intros H. vm_compute in H. discriminate.
  - exact (disk_buffer disk disk_content).
  - intros a Ha. unfold area, sizeof_inode in *. simpl in Ha. split; [intros H%disk_meta|intros H]; lia.
  - destruct disk_content as (_ & _ & _ & Hd & _). exact Hd.
  - intros a Ha. unfold area, sizeof_inode in *. simpl in Ha.
    split_and!; intros H; [apply disk_block in H|apply disk_meta in H| |]; lia.
  - exists m'. split; [exact E|]. split; [exact Hb'|exact Hfr].
Defined.

Lemma blk_alloc_spec_witness : exists m', run (blk_alloc xinu_fs) disk = Returned m' 6 /\ free_blocks xinu_fs m' 16 = seqZ 7 9.
Proof.
  pose proof (blk_alloc_spec xinu_fs disk 2 16 (disk_alloc disk disk_content disk_areas)) as H.
  destruct disk_content as (_ & _ & _ & _ & Hfr).
  rewrite Hfr in H. destruct H as (m' & E & _ & Hf & _). exists m'. split; [exact E|exact Hf].
Defined.
